(* ===== verification/_CoqProject ===== *)
-Q . S2P
Prelude.v
Window.v
Bignum.v
Atoms.v
Format.v
Parse.v
Wire.v
Charset.v
Hash.v
Crypto.v
Blocks.v
Feistel.v
Des.v
Cast.v
Blowfish.v
Aes.v
Packet.v
Channel.v
Table.v
Protocol.v
Messages.v
Flow.v
Requests.v
Keyexchange.v
Kexmessages.v
Keys.v
Agreement.v
Suites.v
Connection.v
Linemode.v
Telnet.v
Receiver.v
Negotiation.v
Watch.v
Translate.v
Lines.v
Screen.v
Rows.v
Scrollback.v
Kernel.v
View.v
Emulator.v
Frame.v
Machine.v
Text.v
Quirks.v
