(* ===== verification/Prelude.v ===== *)
(** * Verification of MacSSH

    MacSSH is a terminal program for the classic Macintosh: the Telnet client
    it grew from ([macssh/source], BetterTelnet) and the SSH protocol library
    it links ([lsh/src], lsh). This library models the parts of both that
    process data from the network, and proves what makes them correct.

    ** The program and how its parts interact

    Bytes from the network reach a session in one of two ways. A Telnet
    session hands every chunk it reads to [parse] (parse/parse.c), which
    answers option negotiation, collects suboptions and passes the text on; an
    SSH session first takes the stream apart into packets ([do_read_packet]),
    decrypts and authenticates them, and its messages are read with the
    routines of parse.c and written with [ssh_format]. A connection starts
    with the version strings of both ends ([handshake_command]) and an exchange
    of keys (keyexchange.c and what it calls), which may be repeated at any
    time; every packet passes the state machine of connection.c
    ([connection_handle_packet]), which hands it to the key exchange or to a
    service, the channels of channel.c. Text goes to the
    terminal emulator ([VSem], parse/vsem.c), which translates it to the
    Macintosh character set (parse/translate.c) and calls the virtual screen
    kernel (Screens/vsintern.c); the rest of the program sees the screen
    through Screens/vsinterf.c. What the user types is buffered
    ([kbwrite], network buffer of a [WindRec]) and, in Telnet LINEMODE, edited
    locally with the special characters negotiated with the host.

    ** The files

    - [Prelude]: the outcome of a C routine ([outcome]: [Done], [Reject] for the
      failure value it returns, [Crash] for a failed assertion, an access out
      of bounds or through a null pointer, a loop that runs forever), its monad, fixed-width integers
      ([u8], [u32], [s16] ...), byte strings, record update, shared lemmas and
      the hint database [macssh].
    - [Bignum]: lsh/src/bignum.c. [Atoms]: atoms.c with its generated tables.
      [Format]: format.c. [Parse]: parse.c. [Charset]: charset.c. The wire
      format of SSH: formatting fills exactly what was sized, parsing stays in
      its buffer and inverts formatting.
      [Wire]: what is written by a plain format is read by the parsers of its
      letters, for the whole formats of the messages below.
    - [Hash] ([Merkle], [MD5], [SHA1]): nettle/md5.c, nettle/sha1.c against
      RFC 1321 and FIPS 180. [Crypto]: the interfaces of abstract_crypto.h as
      type classes, arcfour.c and hmac.c as instances.
    - [Blocks]: cbc.c, cascade.c and the algorithms of abstract_crypto.c: chaining
      of blocks and cascades as functors from ciphers to ciphers, with their
      laws; a block cipher of nettle is an instance of [BlockCipher], its laws
      [BlockCipherLaws] make it a cipher of [Crypto]. [Feistel]: words, blocks
      and networks. [Des]: nettle/des.c, des.c. [Cast]: nettle/cast128.c,
      cast.c. [Blowfish]: nettle/blowfish.c, blowfish.c. [Aes]: nettle/aes.c,
      rijndael.c, and the cipher of FIPS 197. [Suites]: these ciphers in the
      packet layer and in the algorithms of a key exchange.
    - [Packet]: pad.c, encrypt.c, read_packet.c, unpad.c: the packet layer as
      a reliable, authenticated, ordered channel over any cipher and MAC of
      the interfaces of [Crypto].
    - [Keyexchange]: keyexchange.c, dh_exchange.c, client_keyexchange.c,
      server_keyexchange.c, the groups of publickey_crypto.c, connection.c and
      handshake.c, definitions, over the ciphers, MACs and hashes of [Crypto]
      and over the signatures and host keys of the caller: an [ssh_connection]
      holds the state of the exchange, the dispatch table whose entries are
      handlers with their closures, the queue of a locked connection and the
      trace of what happened. [Kexmessages]: its messages, written and read.
      [Keys]: negotiation and session keys. [Agreement]: a whole exchange
      between two ends. [Connection]: the invariant [wf] of a connection, what
      every packet does to it, and its queue.
    - [Channel]: channel.c, channel_commands.c and the channels of a session
      and of a forwarded port (client_session.c, channel_forward.c,
      read_data.c), definitions: a connection [conn] is the table of channel
      numbers, the store of channel objects, the statuses of requests and the
      trace of what was written and called back; [dispatch] applies the handler
      of a packet, [step] is anything that can happen. [Table]: the table of
      numbers. [Protocol]: the invariant [wf] of a connection. [Messages]: what
      is written and how the peer reads it. [Flow]: two connections, a channel
      between them. [Requests]: requests and their replies in any run of a
      connection, and a full table.
    - [Window]: the [WindRec] of a session and its keyboard buffer.
      [Linemode]: Linemode/linemode.c. [Telnet]: parse/parse.c, definitions;
      [Receiver]: [parse] against a receiver that takes one byte at a time;
      [Negotiation]: option negotiation; [Watch]: the watchers of the text
      (the wait and read commands, one-time passwords).
    - [Translate]: parse/translate.c.
    - [Lines]: the heap of doubly-linked line elements. [Screen]: the kernel,
      definitions. [Rows] and [Scrollback]: what its routines do to the rows a
      screen shows. [Kernel]: the invariant [wf] of a screen and the refinement
      of an abstract terminal. [View]: Screens/vsinterf.c.
    - [Emulator]: parse/vsem.c with the answers and options of vsintern.c and
      the capture of vsinterf.c, definitions: a round of the main loop of
      [VSem] is [iteration], its parts in the order of the source
      ([controls], [c1_block], [texts], [escapes]), a state of an escape
      sequence one function of the character ([basic], [csi], [decl], ...).
      [Frame]: postconditions of kernel routines that end and leave the cursor,
      the modes and the region alone. [Machine]: the invariant [sane] and the
      proof that the machine ends. [Text]: what text does to the rows.
      [Quirks]: sequences on which the emulator goes wrong, executed.

    State is passed explicitly: a C struct is a record, a global the code
    writes through is a field of the record of the routine's component, memory
    that is shared through pointers (the lines of a screen) is a heap of cells
    by address. C integers are [Z] with their wrap-around written out where
    a value can leave its range. The routines keep the names of the source.

    ** What the theorems show

    Claims are numbered C1, C2, ... in their doc comments.
    - SSH packets: the channel property of the packet layer over any cipher
      and MAC, safety of its reader on every input, the round trips of packet
      formatting and parsing, safety of the parsers, and the exact inputs on
      which [parse_utf8] and [ssh_format] go wrong.
    - SSH ciphers: the AES by tables is the cipher of FIPS 197, key schedule
      included; DES refuses the weak and semi-weak keys and no others; chaining
      and cascades keep the laws of ciphers, so that AES, CAST-128, Blowfish and
      triple DES with an HMAC carry packets for every key that is not refused;
      the vectors of the standards of CAST-128, Blowfish, DES and AES are
      examples.
    - SSH transport: an exchange between two ends of this implementation ends
      with the same algorithms and octets for the sender and the receiver of
      either direction, or with both ends refusing a weak key; a second
      KEXINIT of the peer is refused, or starts the exchange again where the
      first algorithms of the two ends differ; a client takes no keys without a valid signature of the
      whole exchange; whatever packets arrive, in any state, a connection stays
      well formed and no handler follows a null pointer or fails an assertion;
      the queue of a locked connection neither loses nor reorders packets;
      session keys are those of RFC 4253; the chosen algorithm is the client's
      first that the server has; KEXINIT is read as it was written.
    - SSH channels: numbers are handed out like file descriptors; no packet
      but one kind of refusal makes a handler fail, and no run leaves a number
      that leads nowhere or a channel that is closed; flow control between two
      ends loses, cuts and overruns nothing; the replies to requests of known
      types keep their order, and those of unknown types are refused at once;
      every message is read as it was written; the last number.
    - Arithmetic and hashing: bignum and character-set round trips, MD5, SHA-1,
      HMAC equal to their standards for every division of the message, arcfour
      its own inverse, the atom tables a bijection.
    - Telnet: chunking does not matter, but that a chunk that ends behind an IAC
      of a suboption is read past its end; text is transparent; the options that
      obey the loop rule of RFC 854 and those that do not; suboption replies
      decode to what was meant, totality of the negotiation, the
      special-character table of LINEMODE, the watchers, with the strings for
      which the wait command fails.
    - Screen: a new screen satisfies [wf] where the memory manager gives one
      octet more than was asked for, and is overrun where it does not; index, reverse index, deleting and
      inserting lines refine operations on rows, keep the list of lines and the
      bound on saved lines; moving the view back and forward restores it.
    - Emulator: it ends on every input, keeps the cursor from the memory beyond
      its line and from the lines below the screen, the scrolling region on the
      screen, and the values of the parameters and the state of the machine in
      range, and writes text as the abstract terminal does.

    ** Interfaces and parameters

    What is not under src/ is an argument of the definitions that use it:
    the ciphers and MACs of a connection ([Crypto]; those that are modelled are
    instances), the keys and signatures of hosts and the
    source of randomness ([Keyexchange]), the Tektronix windows of the receiver
    ([Telnet.Graphics]), the Macintosh memory manager ([Lines.Memory]), the
    Text Encoding Converter ([Translate.TextEncodings]), what the system
    answers to requests of the emulator for files, printing and URLs
    ([Emulator.Toolbox]), what uninitialised memory happens to hold. Drawing requests are collected in the field
    [drawn] of a screen and have no other effect.

    ** Fuel

    Loops of the source are structural recursions on the bytes left or on a
    counter. Where the source follows pointers or computes its own bound the
    fuel is stated at the definition and shown to be enough by the totality
    theorems: [VSIfreelinelist] visits every cell of the heap at most once,
    the tab search ends at the right margin, the fallback of the wait command
    shortens the prefix, [do_read_packet] consumes a byte or changes its state
    in every round, the loop of [kex_make_key] is given the octets that are left,
    the queue of a connection its length, and the halvings of [gcd] the 32
    bits of a word. The emulator is given two rounds for every character and
    one more, one round of text for every character, 128 rounds for a repeated
    character and one nested call; [Machine.VSem_terminates] shows that they
    never run out.

    ** Not modelled

    The old scrollback mode of the kernel (the VSO routines), cursor drawing, selections
    and printing (Macintosh toolbox); [WindRec] fields of no part above; in
    lsh the dialogue of user authentication, gateways and port forwarding and
    the object system, which are compiled command expressions run by the event
    loop, S-expressions and key files, and the SRP exchange, compiled in on
    request; the ciphers Twofish, Serpent and IDEA, the strings of
    abstract_crypto.c, zlib and GMP (third-party); cascades of ciphers of
    different types; the event loop, preferences
    and dialogs of the Macintosh program; the log of the console and the
    printing of a redirected file; one-time passwords (otp.c). *)

From stdpp Require Export base list list_numbers gmap strings.
From Stdlib Require Export ZArith Lia.

#[export] Set Default Goal Selector "!".

Open Scope Z_scope.

(** ** Outcomes of a C routine *)

(** The ways a run can leave the defined behaviour of the program: a failed
    [assert], a call of [fatal], an access outside an object, an argument
    list that does not match its format string, a loop that does not end. *)
Inductive crash :=
  | AssertFail
  | FatalError
  | OutOfBounds
  | NullDeref
  | BadArgument
  | Hang.

(** [Done a]: the routine returned [a]; [Reject]: it returned its failure
    value (0 or NULL); [Crash c]: it left the defined behaviour. *)
Inductive outcome (A : Type) :=
  | Done (a : A)
  | Reject
  | Crash (c : crash).
Arguments Done {A} a.
Arguments Reject {A}.
Arguments Crash {A} c.

#[export] Instance crash_eq_dec : EqDecision crash.
Proof. solve_decision. Defined.
#[export] Instance outcome_eq_dec {A} `{EqDecision A} : EqDecision (outcome A).
Proof. solve_decision. Defined.

#[export] Instance outcome_ret : MRet outcome := fun A a => Done a.
#[export] Instance outcome_bind : MBind outcome := fun A B f m =>
  match m with Done a => f a | Reject => Reject | Crash c => Crash c end.
#[export] Instance outcome_fmap : FMap outcome := fun A B f m =>
  match m with Done a => Done (f a) | Reject => Reject | Crash c => Crash c end.

(** An [assert] of the source. *)
Definition assert_that (b : bool) : outcome unit :=
  if b then Done tt else Crash AssertFail.

Lemma outcome_bind_Done {A B} (m : outcome A) (f : A -> outcome B) b :
  (m ≫= f) = Done b <-> exists a, m = Done a /\ f a = Done b.
Proof.
  destruct m; simpl; split; try discriminate.
  - eauto.
  - intros (? & [= ->] & ?); auto.
  - intros (? & ? & ?); discriminate.
  - intros (? & ? & ?); discriminate.
Qed.

(** ** Machine integers *)

Definition u8 (z : Z) : Z := z mod 2 ^ 8.
Definition u16 (z : Z) : Z := z mod 2 ^ 16.
Definition u32 (z : Z) : Z := z mod 2 ^ 32.
(** two's complement [short] and [int] (32-bit [long]) *)
Definition s16 (z : Z) : Z := (z + 2 ^ 15) mod 2 ^ 16 - 2 ^ 15.
Definition s32 (z : Z) : Z := (z + 2 ^ 31) mod 2 ^ 32 - 2 ^ 31.

(** A byte, and a list of bytes. *)
Definition is_byte (z : Z) : Prop := 0 <= z < 256.
Abbreviation bytes := (list Z).
Definition bytes_ok (l : bytes) : Prop := Forall is_byte l.

#[export] Instance is_byte_dec z : Decision (is_byte z).
Proof. unfold is_byte. apply _. Defined.
#[export] Instance bytes_ok_dec l : Decision (bytes_ok l).
Proof. unfold bytes_ok. apply _. Defined.

(** The length of a list as an integer of the source. *)
Definition zlen {A} (l : list A) : Z := Z.of_nat (length l).

Create HintDb macssh.
Create Rewrite HintDb wrap.

(** Linear arithmetic with division and remainder by constants. *)
Ltac div_lia := Z.to_euclidean_division_equations; lia.

(** Unfold the width conversions and let [div_lia] finish. *)
Ltac wrap_lia := unfold u8, u16, u32, s16, s32 in *; div_lia.

Lemma u8_small z : 0 <= z < 256 -> u8 z = z.
Proof. intros. unfold u8. apply Z.mod_small. lia. Qed.
Lemma u16_small z : 0 <= z < 65536 -> u16 z = z.
Proof. intros. unfold u16. apply Z.mod_small. lia. Qed.
Lemma u32_small z : 0 <= z < 2 ^ 32 -> u32 z = z.
Proof. intros. unfold u32. apply Z.mod_small. lia. Qed.
Lemma s16_small z : -32768 <= z < 32768 -> s16 z = z.
Proof. intros. unfold s16. rewrite Z.mod_small; lia. Qed.
Lemma u32_range z : 0 <= u32 z < 2 ^ 32.
Proof. unfold u32. apply Z.mod_pos_bound. lia. Qed.
Lemma u8_range z : 0 <= u8 z < 256.
Proof. unfold u8. apply Z.mod_pos_bound. lia. Qed.
Lemma s16_range z : -32768 <= s16 z < 32768.
Proof. unfold s16. pose proof (Z.mod_pos_bound (z + 2 ^ 15) (2 ^ 16)). lia. Qed.
Lemma u32_add_l a b : u32 (u32 a + b) = u32 (a + b).
Proof. unfold u32. by rewrite Zplus_mod_idemp_l. Qed.
Lemma u32_add_r a b : u32 (a + u32 b) = u32 (a + b).
Proof. unfold u32. by rewrite Zplus_mod_idemp_r. Qed.

#[export] Hint Rewrite u8_small u16_small u32_small s16_small using lia : wrap.
#[export] Hint Rewrite u32_add_l u32_add_r : wrap.
#[export] Hint Resolve u8_range u32_range s16_range : macssh.

(** ** Bits and bytes *)

Lemma land_255 z : Z.land z 255 = z mod 256.
Proof. change 255 with (Z.ones 8). by rewrite Z.land_ones. Qed.

Lemma land_pow2 z n : 0 <= n -> Z.land z (2 ^ n - 1) = z mod 2 ^ n.
Proof. intros. rewrite <- Z.land_ones by done. by rewrite Z.ones_equiv. Qed.

Lemma land_shiftl_low a b n :
  0 <= n -> 0 <= b < 2 ^ n -> Z.land (Z.shiftl a n) b = 0.
Proof.
  intros Hn Hb. apply Z.bits_inj'. intros k Hk.
  rewrite Z.land_spec, Z.bits_0. destruct (decide (k < n)).
  - rewrite Z.shiftl_spec_low by lia. done.
  - destruct (decide (b = 0)) as [->|]; [by rewrite Z.bits_0, andb_false_r |].
    rewrite (Z.bits_above_log2 b k); [apply andb_false_r | lia |].
    pose proof (proj1 (Z.log2_lt_pow2 b n ltac:(lia)) ltac:(lia)). lia.
Qed.

(** Assembling an integer from two disjoint bit fields. *)
Lemma lor_shiftl_add a b n :
  0 <= n -> 0 <= b < 2 ^ n -> Z.lor (Z.shiftl a n) b = a * 2 ^ n + b.
Proof.
  intros Hn Hb. pose proof (Z.add_lor_land (Z.shiftl a n) b) as E.
  rewrite land_shiftl_low in E by done.
  rewrite Z.shiftl_mul_pow2 in * by done. lia.
Qed.

Lemma shiftr_div z n : 0 <= n -> Z.shiftr z n = z / 2 ^ n.
Proof. intros. by apply Z.shiftr_div_pow2. Qed.

(** Big-endian reading of a byte list. *)
Fixpoint be_val (l : bytes) : Z :=
  match l with
  | [] => 0
  | b :: r => b * 2 ^ (8 * zlen r) + be_val r
  end.

Lemma zlen_nil {A} : zlen (@nil A) = 0.
Proof. done. Qed.
Lemma zlen_cons {A} (x : A) l : zlen (x :: l) = zlen l + 1.
Proof. unfold zlen. simpl. lia. Qed.
Lemma zlen_app {A} (l r : list A) : zlen (l ++ r) = zlen l + zlen r.
Proof. unfold zlen. rewrite length_app. lia. Qed.
Lemma zlen_nonneg {A} (l : list A) : 0 <= zlen l.
Proof. unfold zlen. lia. Qed.
Lemma zlen_replicate {A} n (x : A) : zlen (replicate n x) = Z.of_nat n.
Proof. unfold zlen. by rewrite length_replicate. Qed.
Lemma zlen_fmap {A B} (f : A -> B) l : zlen (f <$> l) = zlen l.
Proof. unfold zlen. by rewrite length_fmap. Qed.
#[export] Hint Rewrite @zlen_nil @zlen_cons @zlen_app @zlen_replicate @zlen_fmap : wrap.
#[export] Hint Resolve zlen_nonneg : macssh.

Lemma be_val_app l r : be_val (l ++ r) = be_val l * 2 ^ (8 * zlen r) + be_val r.
Proof.
  induction l as [|b l IH]; simpl; [lia|].
  rewrite IH, zlen_app, Z.mul_add_distr_l, Z.pow_add_r; [ring | |];
    pose proof (zlen_nonneg l); pose proof (zlen_nonneg r); lia.
Qed.

Lemma be_val_range l : bytes_ok l -> 0 <= be_val l < 2 ^ (8 * zlen l).
Proof.
  induction 1 as [|b l Hb _ IH]; [done|].
  cbn [be_val]. rewrite zlen_cons, Z.mul_add_distr_l, Z.pow_add_r by (pose proof (zlen_nonneg l); lia).
  unfold is_byte in Hb. nia.
Qed.

(** ** Slices *)

(** The [n] elements of [l] from index [i], as [memcpy] would copy them. *)
Definition slice {A} (i n : Z) (l : list A) : list A :=
  take (Z.to_nat n) (drop (Z.to_nat i) l).

Lemma zlen_slice {A} i n (l : list A) :
  0 <= i -> 0 <= n -> i + n <= zlen l -> zlen (slice i n l) = n.
Proof. unfold slice, zlen. intros. rewrite length_take, length_drop. lia. Qed.

Lemma slice_app_exact {A} (p m r : list A) :
  slice (zlen p) (zlen m) (p ++ m ++ r) = m.
Proof.
  unfold slice, zlen. rewrite !Nat2Z.id, drop_app_length, take_app_length. done.
Qed.

Lemma bytes_ok_slice i n l : bytes_ok l -> bytes_ok (slice i n l).
Proof. unfold bytes_ok, slice. intros. by apply Forall_take, Forall_drop. Qed.
#[export] Hint Resolve bytes_ok_slice : macssh.

(** ** Character strings as bytes *)

(** The bytes of a string literal, without its terminating NUL. *)
Fixpoint bytes_of_string (s : string) : bytes :=
  match s with
  | EmptyString => []
  | String c r => Z.of_N (Ascii.N_of_ascii c) :: bytes_of_string r
  end.

Lemma bytes_of_string_ok s : bytes_ok (bytes_of_string s).
Proof.
  induction s as [|c s IH]; simpl; constructor; [|done].
  pose proof (Ascii.N_ascii_bounded c). unfold is_byte. lia.
Qed.
#[export] Hint Resolve bytes_of_string_ok : macssh.

(** [memcpy (dst + off, src, length src)]: the object [dst] after the copy. *)
Definition memcpy_to (off : Z) (src dst : bytes) : outcome bytes :=
  if (0 <=? off) && (off + zlen src <=? zlen dst) then
    Done (take (Z.to_nat off) dst ++ src ++ drop (Z.to_nat (off + zlen src)) dst)
  else Crash OutOfBounds.

Lemma memcpy_to_mid p src old q :
  zlen old = zlen src -> memcpy_to (zlen p) src (p ++ old ++ q) = Done (p ++ src ++ q).
Proof.
  intros Hl. unfold memcpy_to. rewrite !zlen_app, Hl.
  pose proof (zlen_nonneg p). pose proof (zlen_nonneg q).
  rewrite (proj2 (Z.leb_le 0 _)), (proj2 (Z.leb_le (zlen p + zlen src) _)) by lia. simpl.
  unfold zlen in *. rewrite Nat2Z.id, take_app_length, <- Nat2Z.inj_add, Nat2Z.id.
  do 3 f_equal. rewrite drop_app_ge by lia. rewrite drop_app_ge by lia.
  replace (_ - _ - _)%nat with 0%nat by lia. done.
Qed.

Lemma zlen_take_drop {A} n (l : list A) :
  0 <= n <= zlen l -> zlen (take (Z.to_nat n) l) = n /\ zlen (drop (Z.to_nat n) l) = zlen l - n.
Proof. unfold zlen. rewrite length_take, length_drop. lia. Qed.

Lemma is_byte_lxor a b : is_byte a -> is_byte b -> is_byte (Z.lxor a b).
Proof.
  unfold is_byte. intros Ha Hb. assert (H0 : 0 <= Z.lxor a b) by (apply Z.lxor_nonneg; lia).
  assert (H8 : Z.shiftr (Z.lxor a b) 8 = 0).
  { rewrite Z.shiftr_lxor, !shiftr_div by lia. by rewrite !Z.div_small by lia. }
  rewrite shiftr_div in H8 by lia. apply Z.div_small_iff in H8; lia.
Qed.
#[export] Hint Resolve is_byte_lxor : macssh.

(** A copy within bounds. *)
Lemma memcpy_to_ok off src dst :
  0 <= off -> off + zlen src <= zlen dst -> bytes_ok src -> bytes_ok dst ->
  exists d, memcpy_to off src dst = Done d /\ zlen d = zlen dst /\ bytes_ok d
  /\ take (Z.to_nat off) d = take (Z.to_nat off) dst
  /\ slice off (zlen src) d = src
  /\ drop (Z.to_nat (off + zlen src)) d = drop (Z.to_nat (off + zlen src)) dst.
Proof.
  intros Ho Hl Hs Hd. unfold memcpy_to.
  rewrite (proj2 (Z.leb_le 0 off)), (proj2 (Z.leb_le _ (zlen dst))) by lia. simpl.
  eexists. split; [done|]. unfold zlen, slice in *.
  assert (Ht : length (take (Z.to_nat off) dst) = Z.to_nat off) by (rewrite length_take; lia).
  split_and!.
  - rewrite !length_app, length_take, length_drop. lia.
  - unfold bytes_ok in *. auto using Forall_app_2, Forall_take, Forall_drop.
  - by rewrite take_app_length'.
  - rewrite drop_app_length' by done. rewrite Nat2Z.id. by rewrite take_app_length.
  - rewrite app_assoc. apply drop_app_length'. rewrite length_app. lia.
Qed.

(** Copying two pieces one after the other is copying them at once. *)
Lemma memcpy_to_app off a b dst :
  0 <= off ->
  memcpy_to off (a ++ b) dst = (d ← memcpy_to off a dst; memcpy_to (off + zlen a) b d).
Proof.
  intros Ho. pose proof (zlen_nonneg a). pose proof (zlen_nonneg b).
  destruct (decide (off + zlen a <= zlen dst)) as [Ha|Ha].
  - unfold memcpy_to at 3. rewrite (proj2 (Z.leb_le 0 off)), (proj2 (Z.leb_le _ (zlen dst))) by lia. simpl.
    set (d := take _ dst ++ a ++ drop _ dst).
    assert (Hd : zlen d = zlen dst).
    { unfold d, zlen in *. rewrite !length_app, length_take, length_drop. lia. }
    unfold memcpy_to. rewrite Hd, zlen_app, Z.add_assoc, (proj2 (Z.leb_le 0 off)),
      (proj2 (Z.leb_le 0 (off + zlen a))) by lia. simpl.
    destruct (_ <=? _); [|done]. f_equal. unfold d, zlen in *.
    assert (Hl : length (take (Z.to_nat off) dst ++ a) = Z.to_nat (off + Z.of_nat (length a))).
    { rewrite length_app, length_take. lia. }
    rewrite (app_assoc (take _ _) a (drop _ _)).
    rewrite (take_app_length' (take (Z.to_nat off) dst ++ a)) by done.
    rewrite <- !app_assoc. do 3 f_equal.
    rewrite (app_assoc (take _ _) a), (drop_app_ge (take _ _ ++ a)), Hl, drop_drop by (rewrite Hl; lia).
    f_equal. lia.
  - unfold memcpy_to. rewrite (proj2 (Z.leb_gt (off + zlen a) _)), zlen_app, (proj2 (Z.leb_gt _ (zlen dst))) by lia.
    by rewrite !andb_false_r.
Qed.
