(* ===== verification/Window.v ===== *)
(** The session record of the terminal side (Screens/wind.h, [struct
    WindRec]) as far as the Telnet code uses it, the byte streams it is
    connected to, and the keyboard buffer of parse.c ([kbwrite], [kbflush]). *)
From S2P Require Import Prelude.

(** Functional update of a record field, [r <| f := v |>]. *)
Class Setter {R T} (f : R -> T) := update : (T -> T) -> R -> R.
#[export] Typeclasses Opaque Setter.
Notation "r <| f := v |>" := (update (f := f) (fun _ => v) r)
  (at level 1, f at level 99, format "r  <| f  :=  v |>").

(** Arrays of the source: an index outside the array is an error of the
    program, never a default. *)
Definition arr_get (l : bytes) (i : Z) : outcome Z :=
  if 0 <=? i then
    match l !! Z.to_nat i with Some v => Done v | None => Crash OutOfBounds end
  else Crash OutOfBounds.

Definition arr_set (i v : Z) (l : bytes) : outcome bytes :=
  if (0 <=? i) && (i <? zlen l) then Done (<[Z.to_nat i := v]> l) else Crash OutOfBounds.

Lemma arr_set_Done i v l :
  0 <= i < zlen l -> arr_set i v l = Done (<[Z.to_nat i := v]> l).
Proof.
  intros. unfold arr_set. by rewrite (proj2 (Z.leb_le 0 i)), (proj2 (Z.ltb_lt i (zlen l))) by lia.
Qed.

Lemma arr_set_inv i v l l' :
  arr_set i v l = Done l' -> 0 <= i < zlen l /\ l' = <[Z.to_nat i := v]> l.
Proof.
  unfold arr_set. destruct (Z.leb_spec 0 i), (Z.ltb_spec i (zlen l)); simpl; try discriminate.
  intros [= <-]. split; [lia | done].
Qed.

Lemma arr_get_Done l i v :
  0 <= i -> l !! Z.to_nat i = Some v -> arr_get l i = Done v.
Proof. intros ? H. unfold arr_get. by rewrite (proj2 (Z.leb_le 0 i)), H by lia. Qed.

Lemma arr_get_lookup l i :
  0 <= i < zlen l -> exists v, l !! Z.to_nat i = Some v /\ arr_get l i = Done v.
Proof.
  intros Hi. destruct (lookup_lt_is_Some_2 l (Z.to_nat i)) as [v Hv]; [unfold zlen in Hi; lia|].
  exists v. split; [done|]. apply arr_get_Done; [lia | done].
Qed.

Lemma zlen_insert {A} (n : nat) (v : A) l : zlen (<[n := v]> l) = zlen l.
Proof. unfold zlen. by rewrite length_insert. Qed.
#[export] Hint Rewrite @zlen_insert : wrap.

(** Writing at the end of the used part of a buffer extends that part. *)
Lemma take_insert_snoc (l : bytes) (n : nat) v :
  (n < length l)%nat -> take (S n) (<[n := v]> l) = take n l ++ [v].
Proof.
  intros Hn. rewrite (take_S_r _ _ v) by (by rewrite list_lookup_insert_eq).
  by rewrite take_insert_ge by lia.
Qed.

Module Window.

Definition MAXKB : Z := 256.
Definition MHOPTS_BASE : Z := 37.
Definition MHOPTS_SIZE : Z := 2.
Definition SLC_ARRAY_SIZE : Z := 30.

(** What a session does to the outside: a byte on the connection
    ([netwrite]), the urgent mark of the next write ([netUrgent]), a byte to
    the virtual screen ([VSwrite], [VSwritefast]), a one-time-password
    challenge handed to [otpinterface], an Apple event resumed or answered with data, a line
    redrawn, the secure-shell thread started ([ssh_glue_initial]). *)
Inductive event :=
  | Net (b : Z)
  | NetUrgent
  | Scr (b : Z)
  | OtpChallenge (s : bytes)
  | AEResume
  | AERead (s : bytes)
  | RedrawLine
  | SshStart.

#[export] Instance event_eq_dec : EqDecision event.
Proof. solve_decision. Defined.

(** [struct WindRec]; the strings are their contents, [net_trace] collects
    the events. [authOK] and [encryptOK] are the globals of parse.c,
    [maxwidth] and [lines] what [VSmaxwidth] and [VSgetlines] return. *)
Record WindRec := mkWindRec {
  protocol : Z; enabled : Z; eightbit : Z; crmap : Z; tekclear : Z; tektype : Z; termstate : Z;
  echo : Z; naws : Z; lineAllow : Z; Isga : Z; Usga : Z; Ittype : Z;
  telstate : Z; timing : Z; remote_flow : Z; allow_flow : Z; restart_any_flow : Z;
  substat : Z; parseIndex : Z; parsedat : bytes;
  portNum : Z; portNegative : Z;
  kblen : Z; kbbuf : bytes;
  otpautostate : Z; otpauto : Z; otpmulti : Z; otpautolength : Z;
  otpautobuffer : bytes; otpautostring : bytes;
  waWeHaveAppleEvent : Z; waWaiting : Z; waWaitPos : Z; waWasEnabled : Z; waWaitLength : Z;
  waWaitString : bytes; waPrefixFunction : bytes;
  username : bytes; password : bytes; clientuser : bytes; command : bytes; answerback : bytes;
  litNext : Z; lmodeBits : Z; lmode : Z; forwardMask : Z; numForwardKeys : Z;
  slcLevel : bytes; slc : bytes; forwardKeys : bytes;
  myopts : bytes; hisopts : bytes;
  authenticate : bool; encrypt : bool; authOK : bool; encryptOK : bool;
  maxwidth : Z; lines : Z; tabdistance : Z;
  net_trace : list event
}.

(** The record rebuilt from its fields, from which the setters are derived. *)
Definition eta_WindRec (tw : WindRec) : WindRec :=
  mkWindRec (protocol tw) (enabled tw) (eightbit tw) (crmap tw) (tekclear tw) (tektype tw) (termstate tw)
    (echo tw) (naws tw) (lineAllow tw) (Isga tw) (Usga tw) (Ittype tw)
    (telstate tw) (timing tw) (remote_flow tw) (allow_flow tw) (restart_any_flow tw)
    (substat tw) (parseIndex tw) (parsedat tw) (portNum tw) (portNegative tw)
    (kblen tw) (kbbuf tw)
    (otpautostate tw) (otpauto tw) (otpmulti tw) (otpautolength tw)
    (otpautobuffer tw) (otpautostring tw)
    (waWeHaveAppleEvent tw) (waWaiting tw) (waWaitPos tw) (waWasEnabled tw) (waWaitLength tw)
    (waWaitString tw) (waPrefixFunction tw)
    (username tw) (password tw) (clientuser tw) (command tw) (answerback tw)
    (litNext tw) (lmodeBits tw) (lmode tw) (forwardMask tw) (numForwardKeys tw)
    (slcLevel tw) (slc tw) (forwardKeys tw) (myopts tw) (hisopts tw)
    (authenticate tw) (encrypt tw) (authOK tw) (encryptOK tw)
    (maxwidth tw) (lines tw) (tabdistance tw) (net_trace tw).

Ltac derive_setter proj :=
  let e := eval cbv beta delta [eta_WindRec] in (fun tw : WindRec => eta_WindRec tw) in
  lazymatch e with
  | fun tw => @?body tw =>
    exact (fun (f : _ -> _) (tw : WindRec) =>
      ltac:(let b := eval cbv beta in (body tw) in
            lazymatch eval pattern (proj tw) in b with
            | ?g _ => let r := eval cbv beta in (g (f (proj tw))) in exact r
            end))
  end.

#[export] Instance set_enabled : Setter enabled := ltac:(derive_setter enabled).
#[export] Instance set_termstate : Setter termstate := ltac:(derive_setter termstate).
#[export] Instance set_echo : Setter echo := ltac:(derive_setter echo).
#[export] Instance set_naws : Setter naws := ltac:(derive_setter naws).
#[export] Instance set_Isga : Setter Isga := ltac:(derive_setter Isga).
#[export] Instance set_Usga : Setter Usga := ltac:(derive_setter Usga).
#[export] Instance set_Ittype : Setter Ittype := ltac:(derive_setter Ittype).
#[export] Instance set_telstate : Setter telstate := ltac:(derive_setter telstate).
#[export] Instance set_timing : Setter timing := ltac:(derive_setter timing).
#[export] Instance set_remote_flow : Setter remote_flow := ltac:(derive_setter remote_flow).
#[export] Instance set_allow_flow : Setter allow_flow := ltac:(derive_setter allow_flow).
#[export] Instance set_restart_any_flow : Setter restart_any_flow := ltac:(derive_setter restart_any_flow).
#[export] Instance set_substat : Setter substat := ltac:(derive_setter substat).
#[export] Instance set_parseIndex : Setter parseIndex := ltac:(derive_setter parseIndex).
#[export] Instance set_parsedat : Setter parsedat := ltac:(derive_setter parsedat).
#[export] Instance set_kblen : Setter kblen := ltac:(derive_setter kblen).
#[export] Instance set_kbbuf : Setter kbbuf := ltac:(derive_setter kbbuf).
#[export] Instance set_otpautostate : Setter otpautostate := ltac:(derive_setter otpautostate).
#[export] Instance set_otpauto : Setter otpauto := ltac:(derive_setter otpauto).
#[export] Instance set_otpautolength : Setter otpautolength := ltac:(derive_setter otpautolength).
#[export] Instance set_otpautobuffer : Setter otpautobuffer := ltac:(derive_setter otpautobuffer).
#[export] Instance set_otpautostring : Setter otpautostring := ltac:(derive_setter otpautostring).
#[export] Instance set_waWeHaveAppleEvent : Setter waWeHaveAppleEvent := ltac:(derive_setter waWeHaveAppleEvent).
#[export] Instance set_waWaiting : Setter waWaiting := ltac:(derive_setter waWaiting).
#[export] Instance set_waWaitPos : Setter waWaitPos := ltac:(derive_setter waWaitPos).
#[export] Instance set_waWasEnabled : Setter waWasEnabled := ltac:(derive_setter waWasEnabled).
#[export] Instance set_waWaitLength : Setter waWaitLength := ltac:(derive_setter waWaitLength).
#[export] Instance set_waWaitString : Setter waWaitString := ltac:(derive_setter waWaitString).
#[export] Instance set_waPrefixFunction : Setter waPrefixFunction := ltac:(derive_setter waPrefixFunction).
#[export] Instance set_username : Setter username := ltac:(derive_setter username).
#[export] Instance set_litNext : Setter litNext := ltac:(derive_setter litNext).
#[export] Instance set_lmodeBits : Setter lmodeBits := ltac:(derive_setter lmodeBits).
#[export] Instance set_lmode : Setter lmode := ltac:(derive_setter lmode).
#[export] Instance set_forwardMask : Setter forwardMask := ltac:(derive_setter forwardMask).
#[export] Instance set_numForwardKeys : Setter numForwardKeys := ltac:(derive_setter numForwardKeys).
#[export] Instance set_slcLevel : Setter slcLevel := ltac:(derive_setter slcLevel).
#[export] Instance set_slc : Setter slc := ltac:(derive_setter slc).
#[export] Instance set_forwardKeys : Setter forwardKeys := ltac:(derive_setter forwardKeys).
#[export] Instance set_myopts : Setter myopts := ltac:(derive_setter myopts).
#[export] Instance set_hisopts : Setter hisopts := ltac:(derive_setter hisopts).
#[export] Instance set_net_trace : Setter net_trace := ltac:(derive_setter net_trace).

(** A session just opened with the usual preferences, on which the theorems
    are tried out. *)
Definition sample_window : WindRec :=
  {| protocol := 0; enabled := 1; eightbit := 1; crmap := 0; tekclear := 0; tektype := -1; termstate := 1;
     echo := 1; naws := 0; lineAllow := 1; Isga := 0; Usga := 1; Ittype := 0;
     telstate := 0; timing := 0; remote_flow := 0; allow_flow := 1; restart_any_flow := 0;
     substat := 0; parseIndex := 0; parsedat := replicate 450 0;
     portNum := 23; portNegative := 0;
     kblen := 0; kbbuf := replicate 256 0;
     otpautostate := 0; otpauto := 0; otpmulti := 0; otpautolength := 0;
     otpautobuffer := replicate 10 0; otpautostring := replicate 256 0;
     waWeHaveAppleEvent := 0; waWaiting := 0; waWaitPos := 0; waWasEnabled := 0; waWaitLength := 0;
     waWaitString := replicate 256 0; waPrefixFunction := replicate 256 0;
     username := [106; 111; 101]; password := []; clientuser := []; command := [];
     answerback := [118; 116; 50; 50; 48];
     litNext := 0; lmodeBits := 0; lmode := 0; forwardMask := 0; numForwardKeys := 0;
     slcLevel := replicate 31 0; slc := replicate 31 255; forwardKeys := replicate 32 0;
     myopts := [0; 0]; hisopts := [0; 0];
     authenticate := false; encrypt := false; authOK := false; encryptOK := false;
     maxwidth := 79; lines := 24; tabdistance := 8;
     net_trace := [] |}.

(** ** Output *)

Definition emit (l : list event) (tw : WindRec) : WindRec :=
  tw <| net_trace := net_trace tw ++ l |>.

(** [netwrite (tw->port, data, length data)]. *)
Definition netwrite (data : bytes) (tw : WindRec) : WindRec := emit (Net <$> data) tw.

(** [VSwrite] and [VSwritefast]: the same bytes for the emulator. *)
Definition VSwrite (data : bytes) (tw : WindRec) : WindRec := emit (Scr <$> data) tw.

(** The bytes of a trace that go to the connection and to the screen. *)
Definition net_of (t : list event) : bytes :=
  omap (fun e => match e with Net b => Some b | _ => None end) t.
Definition scr_of (t : list event) : bytes :=
  omap (fun e => match e with Scr b => Some b | _ => None end) t.
Definition sent (tw : WindRec) : bytes := net_of (net_trace tw).

(** ** The keyboard buffer *)

Definition kbflush (tw : WindRec) : outcome WindRec :=
  if negb (kblen tw =? 0) then
    if (0 <=? kblen tw) && (kblen tw <=? zlen (kbbuf tw)) then
      Done ((netwrite (slice 0 (kblen tw) (kbbuf tw)) tw) <| kblen := 0 |>)
    else Crash OutOfBounds
  else Done tw.

Fixpoint kbwrite (string : bytes) (tw : WindRec) : outcome WindRec :=
  match string with
  | [] => Done tw
  | c :: string =>
    tw ← (if kblen tw =? MAXKB then kbflush tw else Done tw);
    b ← arr_set (kblen tw) c (kbbuf tw);
    kbwrite string (tw <| kbbuf := b |> <| kblen := s16 (kblen tw + 1) |>)
  end.

(** The buffer is well formed: the count is within the array. *)
Definition kb_ok (tw : WindRec) : Prop :=
  zlen (kbbuf tw) = MAXKB /\ 0 <= kblen tw <= MAXKB.

(** The keys typed and not sent yet. *)
Definition pending (tw : WindRec) : bytes := slice 0 (kblen tw) (kbbuf tw).

#[export] Instance kb_ok_dec tw : Decision (kb_ok tw).
Proof. unfold kb_ok. apply _. Defined.

Lemma net_of_app a b : net_of (a ++ b) = net_of a ++ net_of b.
Proof. apply omap_app. Qed.
Lemma scr_of_app a b : scr_of (a ++ b) = scr_of a ++ scr_of b.
Proof. apply omap_app. Qed.
Lemma net_of_Net d : net_of (Net <$> d) = d.
Proof. induction d; unfold net_of in *; cbn; congruence. Qed.
Lemma scr_of_Scr d : scr_of (Scr <$> d) = d.
Proof. induction d; unfold scr_of in *; cbn; congruence. Qed.
Lemma net_of_Scr d : net_of (Scr <$> d) = [].
Proof. by induction d. Qed.

Lemma emit_emit a b tw : emit b (emit a tw) = emit (a ++ b) tw.
Proof. unfold emit, update, set_net_trace. cbn. by rewrite app_assoc. Qed.

Lemma emit_nil tw : emit [] tw = tw.
Proof. unfold emit, update, set_net_trace. rewrite app_nil_r. by destruct tw. Qed.

Lemma sent_netwrite d tw : sent (netwrite d tw) = sent tw ++ d.
Proof. unfold sent, netwrite, emit. cbn. by rewrite net_of_app, net_of_Net. Qed.

Lemma kbflush_ok tw :
  kb_ok tw -> exists tw', kbflush tw = Done tw' /\ kb_ok tw' /\ kblen tw' = 0
  /\ sent tw' = sent tw ++ pending tw /\ pending tw' = [].
Proof.
  intros [Hb Hl]. unfold kbflush. destruct (Z.eqb_spec (kblen tw) 0) as [E|E]; simpl.
  - exists tw. unfold pending, slice. rewrite E. simpl. by rewrite app_nil_r.
  - rewrite (proj2 (Z.leb_le 0 _)), (proj2 (Z.leb_le (kblen tw) _)) by lia. simpl.
    eexists. split; [done|]. split_and!; try done.
    change (sent (netwrite (pending tw) tw) = sent tw ++ pending tw). apply sent_netwrite.
Qed.

Lemma kbwrite_ok s : forall tw,
  kb_ok tw ->
  exists tw', kbwrite s tw = Done tw' /\ kb_ok tw'
  /\ sent tw' ++ pending tw' = sent tw ++ pending tw ++ s.
Proof.
  induction s as [|c s IH]; intros tw Hk; cbn [kbwrite].
  { exists tw. by rewrite app_nil_r. }
  assert (exists tw0, (if kblen tw =? MAXKB then kbflush tw else Done tw) = Done tw0
    /\ kb_ok tw0 /\ kblen tw0 < MAXKB /\ sent tw0 ++ pending tw0 = sent tw ++ pending tw)
    as (tw0 & -> & [Hb Hl] & Hm & Hs).
  { destruct (Z.eqb_spec (kblen tw) MAXKB) as [E|E].
    - destruct (kbflush_ok tw Hk) as (tw0 & -> & ? & E0 & E1 & E2).
      exists tw0. rewrite E1, E2, app_nil_r. unfold MAXKB in *. split_and!; auto; lia.
    - exists tw. destruct Hk as [? ?]. unfold kb_ok. split_and!; auto; lia. }
  unfold MAXKB in *. cbn [mbind outcome_bind]. rewrite arr_set_Done by lia. cbn [mbind outcome_bind].
  rewrite s16_small by lia.
  set (tw1 := update _ _). destruct (IH tw1) as (tw' & -> & Hk' & E').
  { subst tw1. unfold kb_ok, MAXKB. cbn. rewrite zlen_insert. lia. }
  exists tw'. split_and!; auto. rewrite E'.
  assert (Hp : pending tw1 = pending tw0 ++ [c]).
  { subst tw1. unfold pending, slice. cbn. rewrite !drop_0.
    replace (Z.to_nat (kblen tw0 + 1)) with (S (Z.to_nat (kblen tw0))) by lia.
    rewrite take_insert_snoc; [done|]. unfold zlen in Hb. lia. }
  assert (Ht : sent tw1 = sent tw0) by done.
  rewrite Ht, Hp, (cons_middle c (pending tw)), !app_assoc, Hs. done.
Qed.

(** The keyboard buffer neither loses, duplicates nor reorders what the
    user types, and is never written outside its 256 bytes: after any run of
    [kbwrite] the bytes sent followed by the bytes still buffered are the
    ones before it followed by the new ones, and a flush sends all of them. *)
Theorem kbwrite_preserves_order string tw :
  kb_ok tw ->
  exists tw', kbwrite string tw = Done tw' /\ kb_ok tw'
  /\ sent tw' ++ pending tw' = sent tw ++ pending tw ++ string
  /\ exists tw'', kbflush tw' = Done tw'' /\ kblen tw'' = 0
     /\ sent tw'' = sent tw ++ pending tw ++ string.
Proof.
  intros Hk. destruct (kbwrite_ok string tw Hk) as (tw' & E & Hk' & Es).
  exists tw'. split_and!; auto.
  destruct (kbflush_ok tw' Hk') as (tw'' & ? & _ & ? & E' & _). exists tw''. by rewrite E', Es.
Qed.

Lemma kbwrite_preserves_order_witness :
  kb_ok sample_window /\ exists tw', kbwrite (replicate 300 65) sample_window = Done tw'
  /\ sent tw' = replicate 256 65 /\ sent tw' ++ pending tw' = replicate 300 65.
Proof.
  assert (H : kb_ok sample_window) by by apply (bool_decide_unpack _).
  split; [exact H|].
  destruct (kbwrite_preserves_order (replicate 300 65) sample_window H) as (tw' & E & _ & Es & _).
  exists tw'. split; [exact E|]. split; [|exact Es].
  assert (E' : kbwrite (replicate 300 65) sample_window = Done tw') by exact E.
  vm_compute in E'. injection E' as <-. reflexivity.
Defined.

End Window.
