(* ===== verification/Bignum.v ===== *)
(** * Big integers on the wire

    The conversions of [lsh/src/bignum.c] between GMP integers and octet
    strings.  A GMP integer is the mathematical integer it denotes together
    with its representation [mpz_size]/[mpz_d] (32-bit limbs, least
    significant first, as on the 68k and PowerPC Macintosh).  The theorems
    show that both formats are two's-complement (respectively unsigned)
    big-endian octet strings, that parsing inverts formatting, and that the
    computed lengths are exact. *)

From S2P Require Import Prelude.

Module Bignum.

(** ** GMP's representation *)

(** [mpz_sizeinbase (n, 2)] *)
Definition mpz_sizeinbase2 (n : Z) : Z :=
  if n =? 0 then 1 else Z.log2 (Z.abs n) + 1.

(** number of limbs of [|n|] *)
Definition mpz_limbs (n : Z) : Z :=
  if n =? 0 then 0 else Z.log2 (Z.abs n) / 32 + 1.

(** [_mp_size]: negative for negative integers *)
Definition mpz_size (n : Z) : Z := Z.sgn n * mpz_limbs n.

(** [_mp_d] *)
Definition mpz_d (n : Z) : list Z :=
  (fun i => (Z.abs n / 2 ^ (32 * Z.of_nat i)) mod 2 ^ 32)
    <$> seq 0 (Z.to_nat (mpz_limbs n)).

(** One's complement of a limb. *)
Definition limb_not (w : Z) : Z := 2 ^ 32 - 1 - w.

(** ** Octets *)

(** The inner loop of [limbs_to_octets]: at most [n] octets of one limb,
    least significant first. *)
Fixpoint limb_octets (n : nat) (word : Z) : bytes :=
  match n with
  | O => []
  | S n => Z.land word 0xff :: limb_octets n (Z.shiftr word 8)
  end.

(** The outer loop and the padding loop; octets come out in the order the
    source stores them, from the end of the buffer backwards. *)
Fixpoint limbs_loop (l : list Z) (length : nat) (pad : Z) : bytes :=
  match l, length with
  | _, O => []
  | [], _ => replicate length pad
  | word :: l, _ =>
      let n := Nat.min 4 length in
      limb_octets n word ++ limbs_loop l (length - n) pad
  end.

Definition limbs_to_octets (size : Z) (d : list Z) (length : Z) (pad : Z) : bytes :=
  reverse (limbs_loop (take (Z.to_nat size) d) (Z.to_nat length) pad).

(** ** Signed numbers *)

(** The loop shared by the two parsers: digit [i] is shifted to its place
    and or-ed into the number. *)
Fixpoint parse_digits (n : Z) (length i : Z) (data : bytes) : Z :=
  match data with
  | [] => n
  | b :: data =>
      parse_digits (Z.lor n (Z.shiftl b (u32 ((length - i - 1) * 8))))
        length (i + 1) data
  end.

Definition bignum_parse_s (data : bytes) : Z :=
  let length := zlen data in
  let negative := match data with b :: _ => negb (Z.land b 0x80 =? 0) | [] => false end in
  let n := parse_digits 0 length 0 data in
  if negative then n - Z.shiftl 1 (u32 (length * 8)) else n.

Definition mpz_size_of_complement (n : Z) : Z := mpz_sizeinbase2 (Z.lnot n).

Definition bignum_format_s_length (n : Z) : Z :=
  match Z.sgn n with
  | 0 => 0
  | Zpos _ => u32 (mpz_sizeinbase2 n / 8 + 1)
  | Zneg _ => u32 (mpz_size_of_complement n / 8 + 1)
  end.

Definition bignum_format_s (n : Z) : bytes :=
  match Z.sgn n with
  | 0 => []
  | Zpos _ =>
      let length := mpz_sizeinbase2 n / 8 + 1 in
      limbs_to_octets (mpz_size n) (mpz_d n) length 0
  | Zneg _ =>
      let complement := Z.lnot n in
      let length := mpz_sizeinbase2 complement / 8 + 1 in
      limbs_to_octets (mpz_size complement) (limb_not <$> mpz_d complement) length 0xff
  end.

(** ** Unsigned numbers *)

Definition bignum_parse_u (data : bytes) : Z := parse_digits 0 (zlen data) 0 data.

Definition bignum_format_u_length (n : Z) : outcome Z :=
  match Z.sgn n with
  | 0 => Done 0
  | Zpos _ => Done (u32 ((mpz_sizeinbase2 n + 7) / 8))
  | Zneg _ => Crash FatalError
  end.

Definition bignum_write (n : Z) (length : Z) : bytes :=
  limbs_to_octets (mpz_size n) (mpz_d n) length 0.

Definition bignum_format_u (n : Z) : outcome bytes :=
  match Z.sgn n with
  | 0 => Done []
  | Zpos _ =>
      let length := (mpz_sizeinbase2 n + 7) / 8 in
      Done (limbs_to_octets (mpz_size n) (mpz_d n) length 0)
  | Zneg _ => Crash FatalError
  end.

(** ** Random numbers *)

(** [data] is what the randomness source stored in the buffer of
    [(bits + 7) / 8] octets. *)
Definition bignum_random_size (bits : Z) (data : bytes) : Z :=
  let x := bignum_parse_u data in
  if bits mod 8 =? 0 then x else x mod 2 ^ bits.

Definition bignum_random (n : Z) (data : bytes) : Z :=
  bignum_random_size (mpz_sizeinbase2 n + 10) data mod n.

(** ** Lemmas: octets of an integer *)

Fixpoint le_octets (n : nat) (z : Z) : bytes :=
  match n with
  | O => []
  | S n => z mod 256 :: le_octets n (z / 256)
  end.

Lemma length_le_octets n z : length (le_octets n z) = n.
Proof. revert z. induction n; intros; simpl; auto. Qed.

Lemma le_octets_ok n z : bytes_ok (le_octets n z).
Proof.
  revert z. induction n; intros; simpl; constructor; [|apply IHn].
  unfold is_byte. div_lia.
Qed.

Lemma limb_octets_spec n w : limb_octets n w = le_octets n w.
Proof.
  revert w. induction n; intros; simpl; [done|].
  by rewrite IHn, land_255, shiftr_div.
Qed.

Lemma le_octets_app a b z :
  le_octets (a + b) z = le_octets a z ++ le_octets b (z / 256 ^ Z.of_nat a).
Proof.
  revert z. induction a as [|a IH]; intros z; simpl.
  - by rewrite Z.div_1_r.
  - rewrite IH. do 3 f_equal. rewrite Nat2Z.inj_succ, Z.pow_succ_r by lia.
    rewrite Z.div_div; lia.
Qed.

(** Only the low [n] octets count. *)
Lemma le_octets_low n w k :
  le_octets n (w + 256 ^ Z.of_nat n * k) = le_octets n w.
Proof.
  revert w k. induction n as [|n IH]; intros w k; [done|].
  cbn [le_octets]. rewrite Nat2Z.inj_succ, Z.pow_succ_r, <- Z.mul_assoc by lia.
  set (m := 256 ^ Z.of_nat n * k). f_equal; [div_lia|].
  replace ((w + 256 * m) / 256) with (w / 256 + m) by div_lia. apply IH.
Qed.

Lemma le_octets_zero n : le_octets n 0 = replicate n 0.
Proof. induction n; simpl; [done|]. by f_equal. Qed.

Lemma le_octets_not n z :
  le_octets n (-1 - z) = (fun b => 255 - b) <$> le_octets n z.
Proof.
  revert z. induction n as [|n IH]; intros z; [done|].
  cbn [le_octets fmap list_fmap]. rewrite <- IH. f_equal; [div_lia|].
  f_equal. div_lia.
Qed.

Lemma be_val_le_octets n z :
  be_val (reverse (le_octets n z)) = z mod 256 ^ Z.of_nat n.
Proof.
  revert z. induction n as [|n IH]; intros z; [symmetry; apply Z.mod_1_r|].
  cbn [le_octets]. rewrite reverse_cons, be_val_app, IH.
  cbn [be_val]. autorewrite with wrap. cbn [Z.mul Z.add Z.pow Z.pow_pos Pos.iter].
  rewrite Nat2Z.inj_succ, Z.pow_succ_r by lia.
  pose proof (Z.pow_pos_nonneg 256 (Z.of_nat n)). rewrite Z.rem_mul_r by lia. lia.
Qed.

(** Value of a limb array. *)
Fixpoint limbs_val (l : list Z) : Z :=
  match l with [] => 0 | w :: l => w + 2 ^ 32 * limbs_val l end.

Definition limb_ok (w : Z) : Prop := 0 <= w < 2 ^ 32.

Lemma limbs_loop_cons w l n pad :
  limbs_loop (w :: l) n pad
  = limb_octets (Nat.min 4 n) w ++ limbs_loop l (n - Nat.min 4 n) pad.
Proof. destruct n; [|done]. by destruct l. Qed.

Lemma limbs_loop_spec l n :
  Forall limb_ok l -> limbs_loop l n 0 = le_octets n (limbs_val l).
Proof.
  intros Hl. revert n. induction Hl as [|w l Hw _ IH]; intros n.
  - destruct n; [done|]. by rewrite le_octets_zero.
  - rewrite limbs_loop_cons, limb_octets_spec, IH. cbn [limbs_val].
    destruct (decide (4 <= n)%nat) as [Hn|Hn].
    + rewrite Nat.min_l by lia. replace n with (4 + (n - 4))%nat at 2 by lia.
      rewrite le_octets_app. change (256 ^ Z.of_nat 4) with (2 ^ 32).
      f_equal; [symmetry; apply (le_octets_low 4) |].
      f_equal. unfold limb_ok in Hw. div_lia.
    + rewrite Nat.min_r, Nat.sub_diag by lia.
      change (2 ^ 32) with (256 ^ 4). replace 4 with (Z.of_nat n + (4 - Z.of_nat n)) at 1 by lia.
      rewrite Z.pow_add_r, <- Z.mul_assoc, le_octets_low by lia.
      by destruct l; rewrite app_nil_r.
Qed.

(** Padding with [0xff] and complementing the limbs complements the octets. *)
Lemma limbs_loop_not l n :
  Forall limb_ok l ->
  limbs_loop (limb_not <$> l) n 0xff = (fun b => 255 - b) <$> limbs_loop l n 0.
Proof.
  intros Hl. revert n. induction Hl as [|w l Hw _ IH]; intros n.
  - destruct n; [done|]. cbn [fmap list_fmap limbs_loop]. by rewrite fmap_replicate.
  - rewrite fmap_cons, !limbs_loop_cons, fmap_app, IH. f_equal.
    rewrite !limb_octets_spec, <- le_octets_not.
    replace (limb_not w) with (-1 - w + 256 ^ Z.of_nat (Nat.min 4 n)
       * 256 ^ (4 - Z.of_nat (Nat.min 4 n))).
    + by rewrite le_octets_low.
    + rewrite <- Z.pow_add_r by lia. unfold limb_not.
      replace (Z.of_nat (Nat.min 4 n) + (4 - Z.of_nat (Nat.min 4 n))) with 4 by lia. lia.
Qed.

Lemma mpz_d_ok n : Forall limb_ok (mpz_d n).
Proof.
  unfold mpz_d. apply Forall_fmap, Forall_true. intros i. unfold limb_ok. simpl.
  apply Z.mod_pos_bound. lia.
Qed.

Lemma limbs_val_digits z k n :
  0 <= z ->
  limbs_val ((fun i => (z / 2 ^ (32 * Z.of_nat i)) mod 2 ^ 32) <$> seq k n)
  = (z / 2 ^ (32 * Z.of_nat k)) mod 2 ^ (32 * Z.of_nat n).
Proof.
  intros Hz. revert k. induction n as [|n IH]; intros k.
  - simpl. by rewrite Z.mod_1_r.
  - cbn [seq]. rewrite fmap_cons. cbn [limbs_val]. rewrite IH. replace (32 * Z.of_nat (S k)) with (32 * Z.of_nat k + 32) by lia.
    replace (32 * Z.of_nat (S n)) with (32 + 32 * Z.of_nat n) by lia.
    rewrite !Z.pow_add_r by lia.
    pose proof (Z.pow_pos_nonneg 2 (32 * Z.of_nat k)).
    pose proof (Z.pow_pos_nonneg 2 (32 * Z.of_nat n)).
    rewrite <- Z.div_div by lia. rewrite Z.rem_mul_r by lia. lia.
Qed.

Lemma limbs_val_mpz_d n : limbs_val (mpz_d n) = Z.abs n.
Proof.
  unfold mpz_d. rewrite limbs_val_digits by lia.
  rewrite Z.mul_0_r, Z.div_1_r. unfold mpz_limbs.
  destruct (Z.eqb_spec n 0) as [->|Hn]; [done|].
  pose proof (Z.log2_nonneg (Z.abs n)).
  rewrite Z2Nat.id by div_lia. apply Z.mod_small. split; [lia|].
  apply Z.log2_lt_pow2; [lia|]. div_lia.
Qed.

Lemma mpz_size_d n : 0 <= n -> take (Z.to_nat (mpz_size n)) (mpz_d n) = mpz_d n.
Proof.
  intros Hn. apply take_ge. unfold mpz_d, mpz_size.
  rewrite length_fmap, length_seq. unfold mpz_limbs.
  destruct (Z.eqb_spec n 0) as [->|]; [done|]. rewrite Z.sgn_pos by lia. lia.
Qed.

(** What [limbs_to_octets] stores: [length] octets, big-endian. *)
Lemma limbs_to_octets_pos n length :
  0 <= n -> 0 <= length ->
  limbs_to_octets (mpz_size n) (mpz_d n) length 0 = reverse (le_octets (Z.to_nat length) n).
Proof.
  intros. unfold limbs_to_octets. rewrite mpz_size_d by done.
  rewrite limbs_loop_spec by apply mpz_d_ok. rewrite limbs_val_mpz_d. by rewrite Z.abs_eq.
Qed.

Lemma limbs_to_octets_neg n length :
  0 <= n -> 0 <= length ->
  limbs_to_octets (mpz_size n) (limb_not <$> mpz_d n) length 0xff
  = reverse (le_octets (Z.to_nat length) (Z.lnot n)).
Proof.
  intros. unfold limbs_to_octets. rewrite <- fmap_take, mpz_size_d by done.
  rewrite limbs_loop_not, limbs_loop_spec, limbs_val_mpz_d by apply mpz_d_ok.
  rewrite Z.abs_eq by done. rewrite <- le_octets_not. do 3 f_equal. unfold Z.lnot. lia.
Qed.

(** ** Lemmas: parsing *)

(** The parsers see at most [2^29 - 1] octets, so that the shift counts, in
    bits, fit the 32-bit [size_t] they are computed in. *)
Definition octets_max : Z := 2 ^ 29.

Lemma lor_digit m b k :
  0 <= k -> is_byte b ->
  Z.lor (m * 2 ^ (8 * (k + 1))) (Z.shiftl b (8 * k)) = (m * 256 + b) * 2 ^ (8 * k).
Proof.
  intros Hk Hb. replace (m * 2 ^ (8 * (k + 1))) with (Z.shiftl (Z.shiftl m 8) (8 * k)).
  - rewrite <- Z.shiftl_lor, lor_shiftl_add by (unfold is_byte in Hb; lia).
    by rewrite Z.shiftl_mul_pow2 by lia.
  - rewrite Z.shiftl_shiftl, Z.shiftl_mul_pow2 by lia. do 2 f_equal. lia.
Qed.

Lemma parse_digits_spec data m length i :
  bytes_ok data -> 0 <= i -> i + zlen data = length -> length < octets_max ->
  parse_digits (m * 2 ^ (8 * zlen data)) length i data
  = m * 2 ^ (8 * zlen data) + be_val data.
Proof.
  unfold octets_max. intros Hd. revert m i.
  induction Hd as [|b data Hb Hd IH]; intros m i Hi Hlen Hmax.
  - cbn [parse_digits be_val]. lia.
  - rewrite zlen_cons in *. pose proof (zlen_nonneg data). cbn [parse_digits be_val].
    replace ((length - i - 1) * 8) with (8 * zlen data) by lia.
    rewrite u32_small, lor_digit by (done || lia). rewrite IH by lia.
    rewrite Z.mul_add_distr_l, Z.pow_add_r by lia. lia.
Qed.

Lemma bignum_parse_u_be_val data :
  bytes_ok data -> zlen data < octets_max -> bignum_parse_u data = be_val data.
Proof. intros. unfold bignum_parse_u. by rewrite (parse_digits_spec data 0) by done. Qed.

Lemma land_sign b : is_byte b -> negb (Z.land b 0x80 =? 0) = (128 <=? b).
Proof.
  intros Hb. assert (Hall : forallb (fun b => Bool.eqb (negb (Z.land b 0x80 =? 0)) (128 <=? b))
    (Z.of_nat <$> seq 0 256) = true) by by vm_compute.
  rewrite forallb_forall in Hall. apply Bool.eqb_prop, Hall.
  apply list_elem_of_In, list_elem_of_fmap. exists (Z.to_nat b).
  unfold is_byte in Hb. split; [lia|]. apply elem_of_seq. lia.
Qed.

(** The value of a signed octet string: two's complement. *)
Definition be_signed (data : bytes) : Z :=
  if 2 ^ (8 * zlen data) <=? 2 * be_val data then be_val data - 2 ^ (8 * zlen data) else be_val data.

Lemma bignum_parse_s_signed data :
  bytes_ok data -> zlen data < octets_max -> bignum_parse_s data = be_signed data.
Proof.
  intros Hd Hlen. unfold bignum_parse_s, be_signed.
  rewrite (parse_digits_spec data 0) by done. rewrite Z.mul_0_l, Z.add_0_l.
  destruct Hd as [|b data Hb Hd]; [done|]. rewrite land_sign by done.
  unfold octets_max in Hlen. pose proof (zlen_nonneg (b :: data)).
  rewrite u32_small, Z.shiftl_mul_pow2, Z.mul_1_l by lia. rewrite (Z.mul_comm (zlen _)).
  pose proof (be_val_range data Hd). cbn [be_val]. rewrite zlen_cons in *.
  pose proof (zlen_nonneg data).
  rewrite Z.mul_add_distr_l, Z.pow_add_r by lia. change (2 ^ (8 * 1)) with 256.
  set (p := 2 ^ (8 * zlen data)) in *.
  destruct (Z.leb_spec 128 b), (Z.leb_spec (p * 256) (2 * (b * p + be_val data))); nia.
Qed.

(** ** Lemmas: formatting *)

Lemma mpz_sizeinbase2_bounds n :
  n <> 0 -> 2 ^ (mpz_sizeinbase2 n - 1) <= Z.abs n < 2 ^ mpz_sizeinbase2 n.
Proof.
  intros Hn. unfold mpz_sizeinbase2. destruct (Z.eqb_spec n 0); [done|].
  pose proof (Z.log2_spec (Z.abs n) ltac:(lia)) as H.
  replace (Z.log2 (Z.abs n) + 1 - 1) with (Z.log2 (Z.abs n)) by lia. apply H.
Qed.

Lemma mpz_sizeinbase2_pos n : 1 <= mpz_sizeinbase2 n.
Proof.
  unfold mpz_sizeinbase2. destruct (Z.eqb_spec n 0); [lia|].
  pose proof (Z.log2_nonneg (Z.abs n)). lia.
Qed.

(** The number of octets [bignum_format_s] uses. *)
Definition signed_octets (n : Z) : Z :=
  if n =? 0 then 0 else mpz_sizeinbase2 (if n <? 0 then Z.lnot n else n) / 8 + 1.

Lemma bignum_format_s_le n :
  bignum_format_s n = reverse (le_octets (Z.to_nat (signed_octets n)) n).
Proof.
  unfold bignum_format_s, signed_octets.
  destruct n as [|p|p]; cbn [Z.sgn Z.eqb Z.ltb]; [done| |].
  - rewrite limbs_to_octets_pos; [done|lia|].
    pose proof (mpz_sizeinbase2_pos (Zpos p)). div_lia.
  - assert (0 <= Z.lnot (Zneg p)) by (unfold Z.lnot; lia).
    rewrite limbs_to_octets_neg; [by rewrite Z.lnot_involutive|done|].
    pose proof (mpz_sizeinbase2_pos (Z.lnot (Zneg p))). div_lia.
Qed.

Lemma signed_octets_nonneg n : 0 <= signed_octets n.
Proof.
  unfold signed_octets. destruct (n =? 0); [lia|].
  pose proof (mpz_sizeinbase2_pos (if n <? 0 then Z.lnot n else n)). div_lia.
Qed.

Lemma zlen_bignum_format_s n : zlen (bignum_format_s n) = signed_octets n.
Proof.
  rewrite bignum_format_s_le. unfold zlen. rewrite length_reverse, length_le_octets.
  pose proof (signed_octets_nonneg n). lia.
Qed.

Lemma bignum_format_s_ok n : bytes_ok (bignum_format_s n).
Proof. rewrite bignum_format_s_le. apply Forall_reverse, le_octets_ok. Qed.

(** [n] fits [signed_octets n] octets, and no fewer. *)
Lemma signed_octets_fits n :
  n <> 0 -> - 2 ^ (8 * signed_octets n - 1) <= n < 2 ^ (8 * signed_octets n - 1).
Proof.
  intros Hn. unfold signed_octets. destruct (Z.eqb_spec n 0); [done|].
  set (m := if n <? 0 then Z.lnot n else n).
  assert (Hm : 0 <= m /\ (n = m \/ n = -m - 1)).
  { subst m. destruct (Z.ltb_spec n 0); unfold Z.lnot; lia. }
  assert (m < 2 ^ mpz_sizeinbase2 m).
  { destruct (decide (m = 0)) as [->|]; [done|].
    pose proof (mpz_sizeinbase2_bounds m). lia. }
  pose proof (mpz_sizeinbase2_pos m).
  assert (2 ^ mpz_sizeinbase2 m <= 2 ^ (8 * (mpz_sizeinbase2 m / 8 + 1) - 1)); [|lia].
  apply Z.pow_le_mono_r; [lia|]. div_lia.
Qed.

Lemma signed_octets_minimal n k :
  0 < k -> - 2 ^ (8 * k - 1) <= n < 2 ^ (8 * k - 1) -> signed_octets n <= k.
Proof.
  intros Hk Hn. unfold signed_octets. destruct (Z.eqb_spec n 0); [lia|].
  set (m := if n <? 0 then Z.lnot n else n).
  assert (Hm : 0 <= m < 2 ^ (8 * k - 1)).
  { subst m. destruct (Z.ltb_spec n 0); unfold Z.lnot; lia. }
  assert (mpz_sizeinbase2 m <= 8 * k - 1); [|div_lia].
  unfold mpz_sizeinbase2. destruct (Z.eqb_spec m 0); [lia|].
  rewrite Z.abs_eq by lia. assert (Z.log2 m < 8 * k - 1); [|lia].
  apply Z.log2_lt_pow2; lia.
Qed.

Lemma be_signed_le_octets n k :
  - 2 ^ (8 * Z.of_nat k - 1) <= n < 2 ^ (8 * Z.of_nat k - 1) -> (0 < k)%nat ->
  be_signed (reverse (le_octets k n)) = n.
Proof.
  intros Hn Hk. unfold be_signed, zlen. rewrite length_reverse, length_le_octets.
  rewrite be_val_le_octets. change 256 with (2 ^ 8). rewrite <- Z.pow_mul_r by lia.
  assert (E : 2 ^ (8 * Z.of_nat k) = 2 * 2 ^ (8 * Z.of_nat k - 1)).
  { rewrite <- Z.pow_succ_r by lia. f_equal. lia. }
  rewrite E. set (h := 2 ^ (8 * Z.of_nat k - 1)) in *.
  destruct (Z.leb_spec (2 * h) (2 * (n mod (2 * h)))) as [Hle|Hle].
  - destruct (decide (0 <= n)); [rewrite Z.mod_small in Hle; lia|].
    rewrite <- (Z.mod_add n 1), Z.mod_small; lia.
  - destruct (decide (0 <= n)); [apply Z.mod_small; lia|].
    rewrite <- (Z.mod_add n 1), Z.mod_small in Hle; lia.
Qed.

Lemma bignum_format_s_length_spec n :
  bignum_format_s_length n = u32 (signed_octets n).
Proof.
  unfold bignum_format_s_length, signed_octets, mpz_size_of_complement. by destruct n.
Qed.

Lemma be_signed_format_s n : be_signed (bignum_format_s n) = n.
Proof.
  rewrite bignum_format_s_le. destruct (decide (n = 0)) as [->|Hn]; [done|].
  pose proof (signed_octets_fits n Hn). pose proof (signed_octets_nonneg n).
  assert (signed_octets n <> 0).
  { intros E. rewrite E in *. cbn in *. lia. }
  apply be_signed_le_octets; [|lia]. by rewrite Z2Nat.id by done.
Qed.

Lemma be_signed_range data :
  bytes_ok data -> data <> [] ->
  - 2 ^ (8 * zlen data - 1) <= be_signed data < 2 ^ (8 * zlen data - 1).
Proof.
  intros Hd Hne. pose proof (be_val_range data Hd).
  assert (0 < zlen data) by (destruct data; [done|]; rewrite zlen_cons; pose proof (zlen_nonneg data); lia).
  unfold be_signed.
  assert (E : 2 ^ (8 * zlen data) = 2 * 2 ^ (8 * zlen data - 1)).
  { rewrite <- Z.pow_succ_r by lia. f_equal. lia. }
  rewrite E in *. case_match eqn:Hc; [apply Z.leb_le in Hc | apply Z.leb_gt in Hc]; lia.
Qed.

(** The unsigned format. *)
Definition unsigned_octets (n : Z) : Z := if n =? 0 then 0 else (mpz_sizeinbase2 n + 7) / 8.

Lemma bignum_format_u_le n :
  0 <= n -> bignum_format_u n = Done (reverse (le_octets (Z.to_nat (unsigned_octets n)) n)).
Proof.
  intros Hn. unfold bignum_format_u, unsigned_octets.
  destruct n as [|p|p]; [done| |lia]. cbn [Z.sgn Z.eqb].
  rewrite limbs_to_octets_pos; [done|lia|].
  pose proof (mpz_sizeinbase2_pos (Zpos p)). div_lia.
Qed.

Lemma unsigned_octets_fits n : 0 <= n -> n < 2 ^ (8 * unsigned_octets n) /\ 0 <= unsigned_octets n.
Proof.
  intros Hn. unfold unsigned_octets. destruct (Z.eqb_spec n 0) as [->|]; [done|].
  pose proof (mpz_sizeinbase2_bounds n). pose proof (mpz_sizeinbase2_pos n).
  split; [|div_lia].
  assert (2 ^ mpz_sizeinbase2 n <= 2 ^ (8 * ((mpz_sizeinbase2 n + 7) / 8))); [|lia].
  apply Z.pow_le_mono_r; [lia|]. div_lia.
Qed.

Lemma bignum_write_be_val n length :
  0 <= n -> 0 <= length -> be_val (bignum_write n length) = n mod 2 ^ (8 * length).
Proof.
  intros. unfold bignum_write. rewrite limbs_to_octets_pos by done.
  rewrite be_val_le_octets, Z2Nat.id by done. change 256 with (2 ^ 8).
  by rewrite <- Z.pow_mul_r by lia.
Qed.

Lemma format_s_correct n :
  zlen (bignum_format_s n) < octets_max ->
  bignum_parse_s (bignum_format_s n) = n
  /\ bignum_format_s_length n = zlen (bignum_format_s n).
Proof.
  intros Hsize.   split.
  - rewrite bignum_parse_s_signed by auto using bignum_format_s_ok. apply be_signed_format_s.
  - rewrite bignum_format_s_length_spec, zlen_bignum_format_s in *.
    pose proof (signed_octets_nonneg n). unfold octets_max in *. rewrite u32_small; lia.
Qed.

Lemma format_u_correct n :
  unsigned_octets n < octets_max ->
  match bignum_format_u n with
  | Done data => 0 <= n /\ bignum_parse_u data = n /\ bignum_format_u_length n = Done (zlen data)
  | Reject => False
  | Crash c => n < 0 /\ c = FatalError
  end.
Proof.
  intros Hsize.   destruct (decide (0 <= n)) as [Hn|Hn]; [|by destruct n; try lia].
  destruct (unsigned_octets_fits n Hn) as [Hfit Hpos].
  rewrite bignum_format_u_le by done. set (k := Z.to_nat (unsigned_octets n)).
  assert (Hk : zlen (reverse (le_octets k n)) = unsigned_octets n).
  { unfold zlen. rewrite length_reverse, length_le_octets. unfold k. lia. }
  split; [done|]. split.
  - rewrite bignum_parse_u_be_val, be_val_le_octets.
    + unfold k. rewrite Z2Nat.id by done. change 256 with (2 ^ 8).
      rewrite <- Z.pow_mul_r by lia. by apply Z.mod_small.
    + apply Forall_reverse, le_octets_ok.
    + by rewrite Hk.
  - rewrite Hk. unfold bignum_format_u_length, unsigned_octets, octets_max in *.
    destruct n; [done| |lia]. cbn [Z.sgn Z.eqb] in *. rewrite u32_small; [done|].
    split; [|lia]. done.
Qed.

(** ** Theorems *)

(** Signed numbers survive the wire: [bignum_parse_s] reads back exactly
    the integer [bignum_format_s] wrote, positive, zero or negative, and the
    length announced by [bignum_format_s_length] is the number of octets
    written. *)
Theorem bignum_s_roundtrip n (Hsize : zlen (bignum_format_s n) < octets_max) :
  bignum_parse_s (bignum_format_s n) = n
  /\ bignum_format_s_length n = zlen (bignum_format_s n).
Proof. by apply format_s_correct. Qed.

Theorem bignum_s_roundtrip_witness :
  zlen (bignum_format_s (-1234567890123)) < octets_max
  /\ bignum_parse_s (bignum_format_s (-1234567890123)) = -1234567890123.
Proof.
  assert (H : zlen (bignum_format_s (-1234567890123)) < octets_max) by (vm_compute; reflexivity).
  split; [exact H | apply (bignum_s_roundtrip (-1234567890123) H)].
Defined.

(** The signed format is the shortest one: re-formatting any octet
    string the parser accepts never takes more octets than the string had. *)
Theorem bignum_format_s_shortest data (Hok : bytes_ok data) (Hlen : zlen data < octets_max) :
  zlen (bignum_format_s (bignum_parse_s data)) <= zlen data.
Proof.
  rewrite bignum_parse_s_signed, zlen_bignum_format_s by done.
  destruct data as [|b data]; [done|].
  apply signed_octets_minimal; [rewrite zlen_cons; pose proof (zlen_nonneg data); lia|].
  by apply be_signed_range.
Qed.

Theorem bignum_format_s_shortest_witness :
  bytes_ok [255; 255; 127] /\ zlen (bignum_format_s (bignum_parse_s [255; 255; 127])) <= 3.
Proof.
  assert (H : bytes_ok [255; 255; 127]) by (repeat constructor; vm_compute; intuition discriminate).
  split; [exact H | apply (bignum_format_s_shortest [255; 255; 127] H); vm_compute; reflexivity].
Defined.

(** Unsigned numbers survive the wire as well, in exactly
    [bignum_format_u_length] octets; negative numbers are refused by the
    program's [fatal]. *)
Theorem bignum_u_roundtrip n (Hsize : unsigned_octets n < octets_max) :
  match bignum_format_u n with
  | Done data => 0 <= n /\ bignum_parse_u data = n /\ bignum_format_u_length n = Done (zlen data)
  | Reject => False
  | Crash c => n < 0 /\ c = FatalError
  end.
Proof. by apply format_u_correct. Qed.

Theorem bignum_u_roundtrip_witness :
  unsigned_octets 65536 < octets_max /\
  match bignum_format_u 65536 with
  | Done data => 0 <= 65536 /\ bignum_parse_u data = 65536 /\ bignum_format_u_length 65536 = Done (zlen data)
  | Reject => False
  | Crash c => 65536 < 0 /\ c = FatalError
  end.
Proof.
  assert (H : unsigned_octets 65536 < octets_max) by (vm_compute; reflexivity).
  split; [exact H | apply (bignum_u_roundtrip 65536 H)].
Defined.

End Bignum.
