(* ===== verification/Atoms.v ===== *)
(** * Atoms

    The protocol names of SSH ([lsh/src/atoms.c] with the tables of
    [atoms_defines.h], [atoms_table.c] and [atoms_gperf.c]): the perfect hash
    the program looks names up with, and the table that maps an atom back to
    its name.  The theorems show that the two tables and the hash function
    agree: lookup finds every atom of the table, and finds nothing else. *)

From S2P Require Import Prelude.

Module Atoms.

(** [atoms_defines.h] *)
Definition atom_defines : list (string * Z) :=
  [
   ("ATOM_NONE", 1); ("ATOM_ZLIB", 2); ("ATOM_3DES_CBC", 3); ("ATOM_BLOWFISH_CBC", 4);
   ("ATOM_TWOFISH256_CBC", 5); ("ATOM_TWOFISH_CBC", 6); ("ATOM_TWOFISH192_CBC", 7);
   ("ATOM_TWOFISH128_CBC", 8); ("ATOM_AES256_CBC", 9); ("ATOM_AES192_CBC", 10);
   ("ATOM_AES128_CBC", 11); ("ATOM_SERPENT256_CBC", 12); ("ATOM_SERPENT192_CBC", 13);
   ("ATOM_SERPENT128_CBC", 14); ("ATOM_RIJNDAEL_CBC_LOCAL", 15);
   ("ATOM_SERPENT_CBC_LOCAL", 16); ("ATOM_ARCFOUR", 17); ("ATOM_IDEA_CBC", 18);
   ("ATOM_CAST128_CBC", 19); ("ATOM_HMAC_SHA1", 20); ("ATOM_HMAC_SHA1_96", 21);
   ("ATOM_HMAC_MD5", 22); ("ATOM_HMAC_MD5_96", 23);
   ("ATOM_DIFFIE_HELLMAN_GROUP1_SHA1", 24); ("ATOM_SSH_DSS", 25); ("ATOM_SSH_RSA", 26);
   ("ATOM_X509V3_SIGN_RSA", 27); ("ATOM_X509V3_SIGN_DSS", 28);
   ("ATOM_SPKI_SIGN_RSA", 29); ("ATOM_SPKI_SIGN_DSS", 30); ("ATOM_PGP_SIGN_RSA", 31);
   ("ATOM_PGP_SIGN_DSS", 32); ("ATOM_SSH_DSS_KLUDGE_LOCAL", 33);
   ("ATOM_SSH_USERAUTH", 34); ("ATOM_SSH_CONNECTION", 35); ("ATOM_PUBLICKEY", 36);
   ("ATOM_PASSWORD", 37); ("ATOM_HOSTBASED", 38); ("ATOM_SESSION", 39);
   ("ATOM_PTY_REQ", 40); ("ATOM_X11_REQ", 41); ("ATOM_X11", 42);
   ("ATOM_AUTH_AGENT_REQ", 43); ("ATOM_AUTH_AGENT", 44);
   ("ATOM_AUTH_SSH1_AGENT_REQ", 45); ("ATOM_AUTH_SSH1_AGENT", 46); ("ATOM_ENV", 47);
   ("ATOM_SHELL", 48); ("ATOM_EXEC", 49); ("ATOM_SUBSYSTEM", 50);
   ("ATOM_WINDOW_CHANGE", 51); ("ATOM_XON_XOFF", 52); ("ATOM_SIGNAL", 53);
   ("ATOM_EXIT_STATUS", 54); ("ATOM_EXIT_SIGNAL", 55); ("ATOM_TCPIP_FORWARD", 56);
   ("ATOM_CANCEL_TCPIP_FORWARD", 57); ("ATOM_FORWARDED_TCPIP", 58);
   ("ATOM_DIRECT_TCPIP", 59); ("ATOM_ABRT", 60); ("ATOM_ALRM", 61); ("ATOM_FPE", 62);
   ("ATOM_HUP", 63); ("ATOM_ILL", 64); ("ATOM_INT", 65); ("ATOM_KILL", 66);
   ("ATOM_PIPE", 67); ("ATOM_QUIT", 68); ("ATOM_SEGV", 69); ("ATOM_TERM", 70);
   ("ATOM_USR1", 71); ("ATOM_USR2", 72); ("ATOM_SIGNAL_UNKNOWN_LOCAL", 73);
   ("ATOM_PRIVATE_KEY", 74); ("ATOM_PUBLIC_KEY", 75); ("ATOM_DSA", 76); ("ATOM_P", 77);
   ("ATOM_Q", 78); ("ATOM_G", 79); ("ATOM_Y", 80); ("ATOM_X", 81); ("ATOM_R", 82);
   ("ATOM_S", 83); ("ATOM_RSA_PKCS1_SHA1", 84); ("ATOM_RSA_PKCS1_MD5", 85);
   ("ATOM_N", 86); ("ATOM_E", 87); ("ATOM_D", 88); ("ATOM_A", 89); ("ATOM_B", 90);
   ("ATOM_C", 91); ("ATOM_HASH", 92); ("ATOM_MD5", 93); ("ATOM_SHA1", 94);
   ("ATOM_PASSWORD_ENCRYPTED", 95); ("ATOM_XPKCS5V2", 96); ("ATOM_ITERATIONS", 97);
   ("ATOM_SALT", 98); ("ATOM_DATA", 99); ("ATOM_IV", 100); ("ATOM_SEQUENCE", 101);
   ("ATOM_CERTIFICATE", 102); ("ATOM_SIGNATURE", 103); ("ATOM_NAME", 104);
   ("ATOM_ACL", 105); ("ATOM_VERSION", 106); ("ATOM_ENTRY", 107);
   ("ATOM_PROPAGATE", 108); ("ATOM_TAG", 109); ("ATOM_PREFIX", 110); ("ATOM_SET", 111);
   ("ATOM_STAR", 112); ("ATOM_SRP_RING1_SHA1_LOCAL", 113); ("ATOM_SRP_VERIFIER", 114);
   ("ATOM_SSH_RING1", 115)].

(** [atom_table]: name and length of every atom; atom 0 is unknown. *)
Definition atom_table : list (string * Z) :=
  [
   ("UNKNOWN", 7); ("none", 4); ("zlib", 4); ("3des-cbc", 8); ("blowfish-cbc", 12);
   ("twofish256-cbc", 14); ("twofish-cbc", 11); ("twofish192-cbc", 14);
   ("twofish128-cbc", 14); ("aes256-cbc", 10); ("aes192-cbc", 10); ("aes128-cbc", 10);
   ("serpent256-cbc", 14); ("serpent192-cbc", 14); ("serpent128-cbc", 14);
   ("rijndael-cbc@lysator.liu.se", 27); ("serpent-cbc@lysator.liu.se", 26);
   ("arcfour", 7); ("idea-cbc", 8); ("cast128-cbc", 11); ("hmac-sha1", 9);
   ("hmac-sha1-96", 12); ("hmac-md5", 8); ("hmac-md5-96", 11);
   ("diffie-hellman-group1-sha1", 26); ("ssh-dss", 7); ("ssh-rsa", 7);
   ("x509v3-sign-rsa", 15); ("x509v3-sign-dss", 15); ("spki-sign-rsa", 13);
   ("spki-sign-dss", 13); ("pgp-sign-rsa", 12); ("pgp-sign-dss", 12);
   ("ssh-dss-kludge@lysator.liu.se", 29); ("ssh-userauth", 12); ("ssh-connection", 14);
   ("publickey", 9); ("password", 8); ("hostbased", 9); ("session", 7); ("pty-req", 7);
   ("x11-req", 7); ("x11", 3); ("auth-agent-req", 14); ("auth-agent", 10);
   ("auth-ssh1-agent-req", 19); ("auth-ssh1-agent", 15); ("env", 3); ("shell", 5);
   ("exec", 4); ("subsystem", 9); ("window-change", 13); ("xon-xoff", 8);
   ("signal", 6); ("exit-status", 11); ("exit-signal", 11); ("tcpip-forward", 13);
   ("cancel-tcpip-forward", 20); ("forwarded-tcpip", 15); ("direct-tcpip", 12);
   ("ABRT", 4); ("ALRM", 4); ("FPE", 3); ("HUP", 3); ("ILL", 3); ("INT", 3);
   ("KILL", 4); ("PIPE", 4); ("QUIT", 4); ("SEGV", 4); ("TERM", 4); ("USR1", 4);
   ("USR2", 4); ("signal-unknown@lysator.liu.se", 29); ("private-key", 11);
   ("public-key", 10); ("dsa", 3); ("p", 1); ("q", 1); ("g", 1); ("y", 1); ("x", 1);
   ("r", 1); ("s", 1); ("rsa-pkcs1-sha1", 14); ("rsa-pkcs1-md5", 13); ("n", 1);
   ("e", 1); ("d", 1); ("a", 1); ("b", 1); ("c", 1); ("hash", 4); ("md5", 3);
   ("sha1", 4); ("password-encrypted", 18); ("Xpkcs5v2", 8); ("iterations", 10);
   ("salt", 4); ("data", 4); ("iv", 2); ("sequence", 8); ("certificate", 11);
   ("signature", 9); ("name", 4); ("acl", 3); ("version", 7); ("entry", 5);
   ("propagate", 9); ("tag", 3); ("prefix", 6); ("set", 3); ("*", 1);
   ("srp-ring1-sha1@lysator.liu.se", 29); ("srp-verifier", 12); ("ssh-ring1", 9)].

(** The hash function of [gperf]. *)
Definition asso_values : list Z :=
  [
   489; 489; 489; 489; 489; 489; 489; 489; 489; 489; 489; 489; 489; 489; 489; 489; 489;
   489; 489; 489; 489; 489; 489; 489; 489; 489; 489; 489; 489; 489; 489; 489; 489; 489;
   489; 489; 489; 489; 489; 489; 489; 489; 5; 489; 489; 0; 489; 489; 0; 30; 45; 20;
   489; 10; 50; 489; 20; 0; 489; 489; 489; 489; 489; 489; 489; 12; 489; 489; 489; 35;
   5; 55; 40; 35; 489; 50; 5; 10; 489; 489; 0; 15; 0; 0; 0; 60; 0; 489; 5; 489; 489;
   489; 489; 489; 489; 489; 489; 40; 85; 108; 90; 125; 50; 60; 0; 65; 0; 125; 5; 35;
   65; 10; 75; 25; 45; 0; 0; 25; 0; 10; 80; 105; 35; 489; 489; 489; 489; 489; 489; 489;
   489; 489; 489; 489; 489; 489; 489; 489; 489; 489; 489; 489; 489; 489; 489; 489; 489;
   489; 489; 489; 489; 489; 489; 489; 489; 489; 489; 489; 489; 489; 489; 489; 489; 489;
   489; 489; 489; 489; 489; 489; 489; 489; 489; 489; 489; 489; 489; 489; 489; 489; 489;
   489; 489; 489; 489; 489; 489; 489; 489; 489; 489; 489; 489; 489; 489; 489; 489; 489;
   489; 489; 489; 489; 489; 489; 489; 489; 489; 489; 489; 489; 489; 489; 489; 489; 489;
   489; 489; 489; 489; 489; 489; 489; 489; 489; 489; 489; 489; 489; 489; 489; 489; 489;
   489; 489; 489; 489; 489; 489; 489; 489; 489; 489; 489; 489; 489; 489; 489; 489; 489;
   489; 489; 489; 489; 489; 489; 489].

Definition lengthtable : list Z :=
  [
   0; 1; 0; 3; 4; 0; 0; 7; 0; 4; 0; 1; 0; 0; 4; 0; 4; 0; 0; 0; 0; 0; 0; 0; 0; 0; 4; 0;
   0; 0; 0; 0; 0; 0; 0; 0; 0; 12; 3; 4; 0; 0; 0; 3; 0; 0; 0; 7; 3; 0; 0; 1; 0; 3; 4;
   15; 0; 0; 3; 4; 0; 0; 0; 0; 4; 0; 0; 2; 0; 0; 0; 0; 0; 0; 4; 0; 6; 0; 3; 9; 0; 1; 7;
   0; 19; 0; 0; 0; 0; 0; 10; 1; 0; 8; 4; 0; 0; 0; 0; 0; 0; 0; 12; 0; 9; 0; 0; 0; 0; 4;
   0; 0; 0; 0; 0; 0; 0; 0; 0; 14; 0; 1; 0; 3; 0; 0; 0; 7; 3; 9; 0; 1; 0; 0; 4; 5; 11;
   0; 13; 9; 0; 0; 0; 3; 0; 0; 0; 0; 0; 0; 0; 1; 14; 0; 0; 0; 0; 0; 0; 29; 0; 1; 0; 0;
   0; 0; 0; 0; 0; 0; 0; 1; 0; 3; 0; 15; 0; 14; 13; 0; 0; 1; 14; 8; 0; 0; 0; 0; 13; 4;
   0; 0; 0; 8; 9; 0; 0; 14; 0; 0; 10; 0; 0; 0; 0; 0; 0; 0; 0; 0; 0; 1; 0; 8; 11; 15; 0;
   1; 0; 0; 0; 0; 0; 8; 0; 7; 11; 0; 0; 4; 15; 0; 0; 13; 0; 5; 0; 0; 0; 0; 0; 0; 0; 0;
   0; 0; 11; 0; 0; 0; 0; 1; 14; 0; 14; 0; 0; 0; 0; 4; 0; 0; 0; 13; 0; 0; 0; 7; 0; 0; 0;
   0; 0; 0; 0; 0; 0; 14; 0; 9; 0; 0; 14; 0; 0; 0; 10; 0; 0; 0; 0; 0; 0; 0; 29; 0; 0;
   12; 0; 0; 0; 0; 0; 0; 0; 0; 0; 0; 0; 0; 0; 10; 12; 0; 0; 0; 10; 12; 18; 0; 0; 0; 12;
   0; 0; 0; 26; 0; 0; 0; 0; 0; 0; 0; 0; 0; 0; 7; 0; 11; 0; 0; 0; 0; 29; 27; 26; 0; 0;
   0; 0; 0; 0; 0; 0; 0; 0; 11; 0; 0; 0; 0; 4; 20; 0; 0; 6; 0; 0; 8; 0; 0; 0; 0; 0; 0;
   0; 0; 0; 0; 0; 11; 9; 0; 0; 0; 0; 0; 12; 0; 0; 0; 0; 0; 0; 0; 0; 0; 0; 0; 0; 0; 0;
   0; 0; 0; 0; 0; 0; 0; 0; 0; 0; 0; 8; 0; 0; 0; 0; 0; 0; 0; 0; 0; 0; 0; 0; 0; 0; 0; 0;
   0; 0; 0; 0; 0; 0; 0; 0; 0; 0; 0; 0; 0; 0; 0; 0; 0; 0; 0; 0; 0; 0; 0; 0; 0; 0; 0; 0;
   0; 0; 0; 0; 0; 0; 0; 0; 0; 0; 0; 0; 0; 0; 0; 0; 0; 0; 0; 0; 0; 0; 0; 0; 0; 0; 0; 0;
   0; 10].

(** An empty slot. *)
Definition no_word : string * string := (EmptyString, "0"%string).

(** [wordlist], with the identifiers of the source. *)
Definition wordlist : list (string * string) :=
  [
   no_word; ("s", "ATOM_S"); no_word; ("set", "ATOM_SET"); ("hash", "ATOM_HASH");
   no_word; no_word; ("ssh-dss", "ATOM_SSH_DSS"); no_word; ("salt", "ATOM_SALT");
   no_word; ("*", "ATOM_STAR"); no_word; no_word; ("TERM", "ATOM_TERM");
   no_word; ("ABRT", "ATOM_ABRT"); no_word; no_word; no_word; no_word;
   no_word; no_word; no_word; no_word; no_word; ("ALRM", "ATOM_ALRM");
   no_word; no_word; no_word; no_word; no_word; no_word; no_word;
   no_word; no_word; no_word; ("ssh-userauth", "ATOM_SSH_USERAUTH");
   ("INT", "ATOM_INT"); ("PIPE", "ATOM_PIPE"); no_word; no_word; no_word;
   ("HUP", "ATOM_HUP"); no_word; no_word; no_word; ("ssh-rsa", "ATOM_SSH_RSA");
   ("ILL", "ATOM_ILL"); no_word; no_word; ("q", "ATOM_Q"); no_word;
   ("acl", "ATOM_ACL"); ("QUIT", "ATOM_QUIT");
   ("auth-ssh1-agent", "ATOM_AUTH_SSH1_AGENT"); no_word; no_word;
   ("md5", "ATOM_MD5"); ("SEGV", "ATOM_SEGV"); no_word; no_word; no_word;
   no_word; ("KILL", "ATOM_KILL"); no_word; no_word; ("iv", "ATOM_IV");
   no_word; no_word; no_word; no_word; no_word; no_word;
   ("sha1", "ATOM_SHA1"); no_word; ("signal", "ATOM_SIGNAL"); no_word;
   ("FPE", "ATOM_FPE"); ("hmac-sha1", "ATOM_HMAC_SHA1"); no_word; ("a", "ATOM_A");
   ("session", "ATOM_SESSION"); no_word;
   ("auth-ssh1-agent-req", "ATOM_AUTH_SSH1_AGENT_REQ"); no_word; no_word;
   no_word; no_word; no_word; ("auth-agent", "ATOM_AUTH_AGENT"); ("r", "ATOM_R");
   no_word; ("hmac-md5", "ATOM_HMAC_MD5"); ("USR1", "ATOM_USR1"); no_word;
   no_word; no_word; no_word; no_word; no_word; no_word;
   ("hmac-sha1-96", "ATOM_HMAC_SHA1_96"); no_word; ("ssh-ring1", "ATOM_SSH_RING1");
   no_word; no_word; no_word; no_word; ("USR2", "ATOM_USR2"); no_word;
   no_word; no_word; no_word; no_word; no_word; no_word; no_word;
   no_word; ("auth-agent-req", "ATOM_AUTH_AGENT_REQ"); no_word; ("g", "ATOM_G");
   no_word; ("tag", "ATOM_TAG"); no_word; no_word; no_word;
   ("version", "ATOM_VERSION"); ("env", "ATOM_ENV"); ("subsystem", "ATOM_SUBSYSTEM");
   no_word; ("n", "ATOM_N"); no_word; no_word; ("data", "ATOM_DATA");
   ("shell", "ATOM_SHELL"); ("hmac-md5-96", "ATOM_HMAC_MD5_96"); no_word;
   ("spki-sign-dss", "ATOM_SPKI_SIGN_DSS"); ("hostbased", "ATOM_HOSTBASED"); no_word;
   no_word; no_word; ("x11", "ATOM_X11"); no_word; no_word; no_word;
   no_word; no_word; no_word; no_word; ("p", "ATOM_P");
   ("twofish128-cbc", "ATOM_TWOFISH128_CBC"); no_word; no_word; no_word;
   no_word; no_word; no_word;
   ("ssh-dss-kludge@lysator.liu.se", "ATOM_SSH_DSS_KLUDGE_LOCAL"); no_word;
   ("x", "ATOM_X"); no_word; no_word; no_word; no_word; no_word; no_word;
   no_word; no_word; no_word; ("b", "ATOM_B"); no_word; ("dsa", "ATOM_DSA");
   no_word; ("x509v3-sign-dss", "ATOM_X509V3_SIGN_DSS"); no_word;
   ("twofish192-cbc", "ATOM_TWOFISH192_CBC"); ("spki-sign-rsa", "ATOM_SPKI_SIGN_RSA");
   no_word; no_word; ("d", "ATOM_D"); ("twofish256-cbc", "ATOM_TWOFISH256_CBC");
   ("password", "ATOM_PASSWORD"); no_word; no_word; no_word; no_word;
   ("tcpip-forward", "ATOM_TCPIP_FORWARD"); ("zlib", "ATOM_ZLIB"); no_word;
   no_word; no_word; ("Xpkcs5v2", "ATOM_XPKCS5V2");
   ("signature", "ATOM_SIGNATURE"); no_word; no_word;
   ("ssh-connection", "ATOM_SSH_CONNECTION"); no_word; no_word;
   ("iterations", "ATOM_ITERATIONS"); no_word; no_word; no_word; no_word;
   no_word; no_word; no_word; no_word; no_word; no_word; ("y", "ATOM_Y");
   no_word; ("xon-xoff", "ATOM_XON_XOFF"); ("twofish-cbc", "ATOM_TWOFISH_CBC");
   ("x509v3-sign-rsa", "ATOM_X509V3_SIGN_RSA"); no_word; ("c", "ATOM_C"); no_word;
   no_word; no_word; no_word; no_word; ("sequence", "ATOM_SEQUENCE");
   no_word; ("arcfour", "ATOM_ARCFOUR"); ("exit-status", "ATOM_EXIT_STATUS");
   no_word; no_word; ("name", "ATOM_NAME");
   ("forwarded-tcpip", "ATOM_FORWARDED_TCPIP"); no_word; no_word;
   ("rsa-pkcs1-md5", "ATOM_RSA_PKCS1_MD5"); no_word; ("entry", "ATOM_ENTRY");
   no_word; no_word; no_word; no_word; no_word; no_word; no_word;
   no_word; no_word; no_word; ("exit-signal", "ATOM_EXIT_SIGNAL"); no_word;
   no_word; no_word; no_word; ("e", "ATOM_E");
   ("serpent128-cbc", "ATOM_SERPENT128_CBC"); no_word;
   ("rsa-pkcs1-sha1", "ATOM_RSA_PKCS1_SHA1"); no_word; no_word; no_word;
   no_word; ("none", "ATOM_NONE"); no_word; no_word; no_word;
   ("window-change", "ATOM_WINDOW_CHANGE"); no_word; no_word; no_word;
   ("x11-req", "ATOM_X11_REQ"); no_word; no_word; no_word; no_word; no_word;
   no_word; no_word; no_word; no_word;
   ("serpent192-cbc", "ATOM_SERPENT192_CBC"); no_word;
   ("propagate", "ATOM_PROPAGATE"); no_word; no_word;
   ("serpent256-cbc", "ATOM_SERPENT256_CBC"); no_word; no_word; no_word;
   ("aes128-cbc", "ATOM_AES128_CBC"); no_word; no_word; no_word; no_word;
   no_word; no_word; no_word;
   ("srp-ring1-sha1@lysator.liu.se", "ATOM_SRP_RING1_SHA1_LOCAL"); no_word;
   no_word; ("direct-tcpip", "ATOM_DIRECT_TCPIP"); no_word; no_word; no_word;
   no_word; no_word; no_word; no_word; no_word; no_word; no_word;
   no_word; no_word; no_word; ("aes192-cbc", "ATOM_AES192_CBC");
   ("pgp-sign-rsa", "ATOM_PGP_SIGN_RSA"); no_word; no_word; no_word;
   ("aes256-cbc", "ATOM_AES256_CBC"); ("pgp-sign-dss", "ATOM_PGP_SIGN_DSS");
   ("password-encrypted", "ATOM_PASSWORD_ENCRYPTED"); no_word; no_word; no_word;
   ("srp-verifier", "ATOM_SRP_VERIFIER"); no_word; no_word; no_word;
   ("diffie-hellman-group1-sha1", "ATOM_DIFFIE_HELLMAN_GROUP1_SHA1"); no_word;
   no_word; no_word; no_word; no_word; no_word; no_word; no_word;
   no_word; no_word; ("pty-req", "ATOM_PTY_REQ"); no_word;
   ("certificate", "ATOM_CERTIFICATE"); no_word; no_word; no_word; no_word;
   ("signal-unknown@lysator.liu.se", "ATOM_SIGNAL_UNKNOWN_LOCAL");
   ("rijndael-cbc@lysator.liu.se", "ATOM_RIJNDAEL_CBC_LOCAL");
   ("serpent-cbc@lysator.liu.se", "ATOM_SERPENT_CBC_LOCAL"); no_word; no_word;
   no_word; no_word; no_word; no_word; no_word; no_word; no_word;
   no_word; ("cast128-cbc", "ATOM_CAST128_CBC"); no_word; no_word; no_word;
   no_word; ("exec", "ATOM_EXEC");
   ("cancel-tcpip-forward", "ATOM_CANCEL_TCPIP_FORWARD"); no_word; no_word;
   ("prefix", "ATOM_PREFIX"); no_word; no_word; ("3des-cbc", "ATOM_3DES_CBC");
   no_word; no_word; no_word; no_word; no_word; no_word; no_word;
   no_word; no_word; no_word; no_word; ("private-key", "ATOM_PRIVATE_KEY");
   ("publickey", "ATOM_PUBLICKEY"); no_word; no_word; no_word; no_word;
   no_word; ("blowfish-cbc", "ATOM_BLOWFISH_CBC"); no_word; no_word; no_word;
   no_word; no_word; no_word; no_word; no_word; no_word; no_word;
   no_word; no_word; no_word; no_word; no_word; no_word; no_word;
   no_word; no_word; no_word; no_word; no_word; no_word; no_word;
   no_word; ("idea-cbc", "ATOM_IDEA_CBC"); no_word; no_word; no_word;
   no_word; no_word; no_word; no_word; no_word; no_word; no_word;
   no_word; no_word; no_word; no_word; no_word; no_word; no_word;
   no_word; no_word; no_word; no_word; no_word; no_word; no_word;
   no_word; no_word; no_word; no_word; no_word; no_word; no_word;
   no_word; no_word; no_word; no_word; no_word; no_word; no_word;
   no_word; no_word; no_word; no_word; no_word; no_word; no_word;
   no_word; no_word; no_word; no_word; no_word; no_word; no_word;
   no_word; no_word; no_word; no_word; no_word; no_word; no_word;
   no_word; no_word; no_word; no_word; no_word; no_word; no_word;
   no_word; no_word; no_word; no_word; no_word; no_word; no_word;
   ("public-key", "ATOM_PUBLIC_KEY")].

Definition TOTAL_KEYWORDS : Z := 115.
Definition MIN_WORD_LENGTH : Z := 1.
Definition MAX_WORD_LENGTH : Z := 29.
Definition MAX_HASH_VALUE : Z := 488.

(** The integer an identifier of [atoms_defines.h] stands for; [0] is the
    literal of the empty slots. *)
Fixpoint define_value (l : list (string * Z)) (s : string) : Z :=
  match l with
  | [] => 0
  | (k, v) :: l => if String.eqb k s then v else define_value l s
  end.

Definition asso (c : Z) : Z := nth (Z.to_nat c) asso_values 0.
Definition char_at (str : bytes) (i : nat) : Z := nth i str 0.

(** [hash]: the [switch] falls through, so longer words use more positions. *)
Definition hash (str : bytes) : Z :=
  let len := zlen str in
  let hval := len in
  let hval := if 10 <=? len then hval + asso (char_at str 9) else hval in
  let hval := if 6 <=? len then hval + asso (char_at str 5) else hval in
  let hval := if 3 <=? len then hval + asso (char_at str 2) else hval in
  let hval := hval + asso (char_at str 0) in
  hval + asso (char_at str (length str - 1)).

(** [!strncmp (a, b, n)], where [b] is NUL-terminated. *)
Fixpoint strncmp_eq (n : nat) (a b : bytes) : bool :=
  match n with
  | O => true
  | S n =>
      let x := char_at a 0 in
      let y := char_at b 0 in
      (x =? y) && ((x =? 0) || strncmp_eq n (tail a) (tail b))
  end.

Definition word_at (key : Z) : string * string := nth (Z.to_nat key) wordlist no_word.

(** [gperf_atom]: the identifier stored with the word, if the word is there. *)
Definition gperf_atom (str : bytes) : option string :=
  let len := zlen str in
  if (len <=? MAX_WORD_LENGTH) && (MIN_WORD_LENGTH <=? len) then
    let key := hash str in
    if (key <=? MAX_HASH_VALUE) && (0 <=? key) then
      if len =? nth (Z.to_nat key) lengthtable 0 then
        let '(name, id) := word_at key in
        let s := bytes_of_string name ++ [0] in
        if (char_at str 0 =? char_at s 0) && strncmp_eq (length str - 1) (tail str) (tail s)
        then Some id else None
      else None
    else None
  else None.

Definition lookup_atom (name : bytes) : Z :=
  match gperf_atom name with
  | Some id => define_value atom_defines id
  | None => 0
  end.

Definition get_atom_length (atom : Z) : Z := (nth (Z.to_nat atom) atom_table (EmptyString, 0)).2.
Definition get_atom_name (atom : Z) : bytes :=
  bytes_of_string (nth (Z.to_nat atom) atom_table (EmptyString, 0)).1.

(** The numbers that are atoms. *)
Definition is_atom (n : Z) : Prop := 1 <= n <= TOTAL_KEYWORDS.

#[export] Instance is_atom_dec n : Decision (is_atom n).
Proof. unfold is_atom. apply _. Defined.

(** ** Lemmas *)

(** A decidable statement about every index below [n] is checked by
    evaluation. *)
Definition all_below (n : nat) (p : nat -> bool) : bool := forallb p (seq 0 n).

Lemma all_below_spec n p i : all_below n p = true -> (i < n)%nat -> p i = true.
Proof.
  unfold all_below. rewrite forallb_forall. intros H Hi. apply H.
  apply in_seq. lia.
Qed.

Lemma strncmp_eq_take n a b :
  strncmp_eq n a b = true -> Forall (fun c => c <> 0) (take n b) -> (n <= length b)%nat ->
  (n <= length a)%nat -> take n a = take n b.
Proof.
  revert a b. induction n as [|n IH]; intros a b H Hb Hlb Hla; [done|].
  destruct a as [|x a]; [simpl in Hla; lia|]. destruct b as [|y b]; [simpl in Hlb; lia|].
  cbn in H, Hb, Hlb, Hla |- *. apply andb_true_iff in H as [Hxy H].
  apply Z.eqb_eq in Hxy as ->. inversion_clear Hb.
  apply orb_true_iff in H as [H|H]; [apply Z.eqb_eq in H; done|].
  f_equal. apply IH; auto; lia.
Qed.

(** What the tables must satisfy for the lookup to be exact. *)
Definition word_ok (key : nat) : bool :=
  let '(name, id) := word_at (Z.of_nat key) in
  let len := nth key lengthtable 0 in
  (len =? 0) ||
  (bool_decide (zlen (bytes_of_string name) = len)
   && bool_decide (Forall (fun c => c <> 0) (bytes_of_string name))
   && bool_decide (is_atom (define_value atom_defines id))
   && bool_decide (get_atom_name (define_value atom_defines id) = bytes_of_string name)).

Lemma words_ok : all_below 489 word_ok = true.
Proof. by vm_compute. Qed.

(** What lookup must find for every atom of the table. *)
Definition atom_ok (n : nat) : bool :=
  let a := Z.of_nat n in
  (a =? 0) || bool_decide (lookup_atom (get_atom_name a) = a /\
     get_atom_length a = zlen (get_atom_name a) /\ 1 <= get_atom_length a <= 64 /\
     Forall (fun c => 32 < c < 127 /\ c <> 44) (get_atom_name a)).

Lemma atoms_ok : all_below 116 atom_ok = true.
Proof. by vm_compute. Qed.

Lemma atom_ok_spec a (Ha : is_atom a) :
  lookup_atom (get_atom_name a) = a /\ get_atom_length a = zlen (get_atom_name a)
  /\ 1 <= get_atom_length a <= 64 /\ Forall (fun c => 32 < c < 127 /\ c <> 44) (get_atom_name a).
Proof.
  unfold is_atom, TOTAL_KEYWORDS in Ha.
  pose proof (all_below_spec 116 atom_ok (Z.to_nat a) atoms_ok ltac:(lia)) as H.
  unfold atom_ok in H. rewrite Z2Nat.id in H by lia.
  apply orb_true_iff in H as [H|H]; [apply Z.eqb_eq in H; lia|].
  by apply bool_decide_eq_true in H.
Qed.

Lemma lookup_atom_sound s : lookup_atom s <> 0 -> is_atom (lookup_atom s) /\ get_atom_name (lookup_atom s) = s.
Proof.
  unfold lookup_atom, gperf_atom. intros H.
  destruct ((zlen s <=? MAX_WORD_LENGTH) && (MIN_WORD_LENGTH <=? zlen s)) eqn:Hlen; [|done].
  destruct ((hash s <=? MAX_HASH_VALUE) && (0 <=? hash s)) eqn:Hkey; [|done].
  destruct (Z.eqb_spec (zlen s) (nth (Z.to_nat (hash s)) lengthtable 0)) as [Hl|]; [|done].
  unfold MAX_WORD_LENGTH, MIN_WORD_LENGTH, MAX_HASH_VALUE in *.
  pose proof (all_below_spec 489 word_ok (Z.to_nat (hash s)) words_ok ltac:(lia)) as Hw.
  unfold word_ok in Hw. rewrite Z2Nat.id in Hw by lia.
  destruct (word_at (hash s)) as [name id].
  rewrite <- Hl in Hw.
  apply orb_true_iff in Hw as [Hw|Hw]; [lia|].
  rewrite !andb_true_iff, !bool_decide_eq_true in Hw. destruct Hw as [[[Hn Hnz] Ha] Hname].
  destruct ((char_at s 0 =? char_at (bytes_of_string name ++ [0]) 0) && _) eqn:Hc; [|done].
  split; [done|]. rewrite Hname. apply andb_true_iff in Hc as [H0 Hc]. apply Z.eqb_eq in H0.
  destruct s as [|x s]; [done|]. remember (bytes_of_string name) as w eqn:Ew.
  destruct w as [|y w]; [unfold zlen in *; simpl in *; lia|].
  inversion_clear Hnz. unfold zlen in Hn. cbn in H0, Hc, Hn. subst y. f_equal.
  rewrite Nat.sub_0_r in Hc.
  apply strncmp_eq_take in Hc; [| | rewrite length_app; simpl; lia | lia].
  - rewrite take_ge in Hc by lia. rewrite Hc, take_app_le, take_ge by lia. done.
  - rewrite take_app_le by lia. by apply Forall_take.
Qed.

(** ** Theorems *)

(** The perfect hash and the name table agree on every atom: looking up
    the name of atom [a] yields [a], and the stored length is the length of
    the name. *)
Theorem lookup_atom_complete a (Ha : is_atom a) :
  lookup_atom (get_atom_name a) = a /\ get_atom_length a = zlen (get_atom_name a).
Proof. split; apply (atom_ok_spec a Ha). Qed.

Theorem lookup_atom_complete_witness :
  is_atom 24 /\ lookup_atom (get_atom_name 24) = 24.
Proof.
  assert (H : is_atom 24) by (split; vm_compute; discriminate).
  split; [exact H | apply (lookup_atom_complete 24 H)].
Defined.

(** A name the hash recognises is spelled exactly as the table spells
    it: no other octet string, of any length, is ever taken for a known
    atom. *)
Theorem lookup_atom_exact s a (Ha : is_atom a) :
  lookup_atom s = a <-> s = get_atom_name a.
Proof.
  split.
  - intros <-. symmetry. apply lookup_atom_sound. unfold is_atom in Ha. lia.
  - intros ->. by apply atom_ok_spec.
Qed.

Theorem lookup_atom_exact_witness :
  is_atom 17 /\ (lookup_atom (bytes_of_string "arcfour") = 17 <-> bytes_of_string "arcfour" = get_atom_name 17).
Proof.
  assert (H : is_atom 17) by (split; vm_compute; discriminate).
  split; [exact H | apply (lookup_atom_exact (bytes_of_string "arcfour") 17 H)].
Defined.

End Atoms.
