(* ===== verification/Format.v ===== *)
(** * Packet formatting

    [lsh/src/format.c]: the [printf]-like formatter every SSH packet is built
    with.  A format string is interpreted twice, once by
    [ssh_vformat_length] to size the packet and once by [ssh_vformat_write] to
    fill it; the main theorem is that the two interpretations agree, except
    for two combinations of modifiers where they do not. *)

From Stdlib Require Import Ascii.
From S2P Require Import Prelude Bignum Atoms.

Module Format.
Import Bignum Atoms.

(** ** The wire macros of [lsh_types.h] *)

Definition WRITE_UINT32 (i : Z) : bytes :=
  [Z.land (Z.shiftr i 24) 0xff; Z.land (Z.shiftr i 16) 0xff;
   Z.land (Z.shiftr i 8) 0xff; Z.land i 0xff].

Definition READ_UINT32 (p : bytes) : Z :=
  Z.lor (Z.lor (Z.lor (Z.shiftl (nth 0 p 0) 24) (Z.shiftl (nth 1 p 0) 16))
    (Z.shiftl (nth 2 p 0) 8)) (nth 3 p 0).

Definition WRITE_UINT16 (i : Z) : bytes := [Z.land (Z.shiftr i 8) 0xff; Z.land i 0xff].

Definition READ_UINT16 (p : bytes) : Z := Z.lor (Z.shiftl (nth 0 p 0) 8) (nth 1 p 0).

(** ** Arguments *)

(** One [va_arg]. *)
Inductive fmt_arg :=
  | VWord (i : Z)            (** an [int] or a [UINT32] *)
  | VData (d : bytes)        (** [const UINT8 *] and the memory behind it *)
  | VString (s : bytes)      (** [struct lsh_string *] *)
  | VCstr (s : bytes)        (** [const char *]: the characters before the NUL *)
  | VOut (nonnull : bool)    (** [UINT8 **] *)
  | VList (l : list Z)       (** [struct int_list *] *)
  | VNum (n : Z).            (** [MP_INT *] *)

(** The conversion characters of the two [switch] statements. *)
Inductive conv := Conv_c | Conv_percent | Conv_i | Conv_s | Conv_S | Conv_z | Conv_r
  | Conv_a | Conv_A | Conv_n | Conv_bad.

Definition conv_of (c : ascii) : conv :=
  match c with
  | "c"%char => Conv_c | "%"%char => Conv_percent | "i"%char => Conv_i
  | "s"%char => Conv_s | "S"%char => Conv_S | "z"%char => Conv_z | "r"%char => Conv_r
  | "a"%char => Conv_a | "A"%char => Conv_A | "n"%char => Conv_n
  | _ => Conv_bad
  end.

(** The modifiers of one %-specification. *)
Record opts := mk_opts {
  literal : bool; decimal : bool; do_free : bool; unsigned_form : bool; hex : bool }.

Definition no_opts : opts := mk_opts false false false false false.

(** The loop over the modifiers of a specification, one character. *)
Definition modifier (c : ascii) (o : opts) : option opts :=
  match c with
  | "l"%char => Some (mk_opts true (decimal o) (do_free o) (unsigned_form o) (hex o))
  | "d"%char => Some (mk_opts (literal o) true (do_free o) (unsigned_form o) (hex o))
  | "f"%char => Some (mk_opts (literal o) (decimal o) true (unsigned_form o) (hex o))
  | "u"%char => Some (mk_opts (literal o) (decimal o) (do_free o) true (hex o))
  | "x"%char => Some (mk_opts (literal o) (decimal o) (do_free o) (unsigned_form o) true)
  | _ => None
  end.

(** ** Decimal and hexadecimal *)

Definition powers : list Z := [10; 100; 10000; 100000000].

(** The loop of [format_size_in_decimal], for [i] from [k - 1] down to 0. *)
Fixpoint decimal_size_loop (k : nat) (n e : Z) : Z :=
  match k with
  | O => e
  | S i =>
      let p := nth i powers 0 in
      if p <=? n then decimal_size_loop i (n / p) (e + Z.shiftl 1 (Z.of_nat i))
      else decimal_size_loop i n e
  end.

Definition format_size_in_decimal (n : Z) : Z := decimal_size_loop 4 n 0 + 1.

(** [format_decimal]: [length] digits, stored from the last one backwards. *)
Fixpoint decimal_digits (length : nat) (n : Z) : bytes :=
  match length with
  | O => []
  | S k => (48 + n mod 10) :: decimal_digits k (n / 10)
  end.

Definition format_decimal (length n : Z) : bytes := reverse (decimal_digits (Z.to_nat length) n).

Definition write_decimal_length (n : Z) : bytes :=
  format_decimal (format_size_in_decimal n) n ++ [58].

Definition hexchars : bytes := bytes_of_string "0123456789abcdef".

Fixpoint format_hex_string (data : bytes) : bytes :=
  match data with
  | [] => []
  | b :: data =>
      nth (Z.to_nat (Z.shiftr (Z.land b 0xf0) 4)) hexchars 0
      :: nth (Z.to_nat (Z.land b 0x0f)) hexchars 0 :: format_hex_string data
  end.

(** ** [ssh_vformat_length] *)

(** The length field of a string-like item. *)
Definition length_field (o : opts) (l : Z) : Z :=
  if decimal o then format_size_in_decimal l + 1 else if literal o then 0 else 4.

Definition atom_in_table (a : Z) : bool := (0 <=? a) && (a <? zlen atom_table).

(** The known atoms of a list, for [%A]. *)
Definition known_atoms (l : list Z) : list Z := filter (fun a => a <> 0) l.

(** One %-specification: what it adds to the length, and the arguments left. *)
Definition length_item (o : opts) (c : conv) (args : list fmt_arg)
    : outcome (Z * list fmt_arg) :=
  if literal o && decimal o then Crash FatalError else
  match c, args with
  | Conv_c, VWord _ :: args => Done (1, args)
  | Conv_percent, _ => Done (1, args)
  | Conv_i, VWord i :: args =>
      Done (if decimal o then format_size_in_decimal i else 4, args)
  | Conv_s, VWord l :: VData _ :: args =>
      Done (l + (if hex o then l else 0) + length_field o l, args)
  | Conv_S, VString s :: args =>
      Done (zlen s + (if hex o then zlen s else 0) + length_field o (zlen s), args)
  | Conv_z, VCstr s :: args => Done (zlen s + length_field o (zlen s), args)
  | Conv_r, VWord l :: VOut _ :: args => Done (l + length_field o l, args)
  | Conv_a, VWord atom :: args =>
      if atom =? 0 then Crash AssertFail
      else if negb (atom_in_table atom) then Crash OutOfBounds
      else Done (get_atom_length atom + length_field o (get_atom_length atom), args)
  | Conv_A, VList l :: args =>
      if decimal o then Crash FatalError
      else if negb (forallb atom_in_table l) then Crash OutOfBounds
      else
        let n := zlen (known_atoms l) in
        Done (foldr (fun a s => get_atom_length a + s) 0 (known_atoms l)
              + (if n =? 0 then 0 else n - 1) + (if literal o then 0 else 4), args)
  | Conv_n, VNum n :: args =>
      if unsigned_form o && (n <? 0) then Crash AssertFail
      else if decimal o then Crash AssertFail
      else
        l ← (if unsigned_form o then bignum_format_u_length n else Done (bignum_format_s_length n));
        Done (l + (if literal o then 0 else 4), args)
  | Conv_bad, _ => Crash FatalError
  | _, _ => Crash BadArgument
  end.

(** [spec] is [Some o] inside a %-specification, [None] outside. *)
Fixpoint length_loop (f : string) (spec : option opts) (args : list fmt_arg) (length : Z)
    : outcome Z :=
  match f, spec with
  | EmptyString, None => Done length
  | EmptyString, Some _ => Crash FatalError
  | String c f, None =>
      if Ascii.eqb c "%" then length_loop f (Some no_opts) args length
      else length_loop f None args (u32 (length + 1))
  | String c f, Some o =>
      match modifier c o with
      | Some o => length_loop f (Some o) args length
      | None =>
          '(l, args) ← length_item o (conv_of c) args;
          length_loop f None args (u32 (length + l))
      end
  end.

Definition ssh_vformat_length (f : string) (args : list fmt_arg) : outcome Z :=
  length_loop f None args 0.

(** ** [ssh_vformat_write] *)

(** The buffer is a list of cells; the octets a [%r] item skips are not
    written and stay [None].  The second component collects the offsets
    stored through non-null [%r] pointers. *)
Definition cells := list (option Z).

Definition octets (l : bytes) : cells := Some <$> l.

(** The length prefix of a string-like item. *)
Definition length_prefix (o : opts) (l : Z) : bytes :=
  if decimal o then write_decimal_length l
  else if literal o then [] else WRITE_UINT32 l.

(** [memcpy] of [n] octets out of [d]. *)
Definition memcpy (d : bytes) (n : Z) : outcome bytes :=
  if n <=? zlen d then Done (take (Z.to_nat n) d) else Crash OutOfBounds.

(** The body of [%A]: known atoms, separated by commas. *)
Fixpoint join_atoms (n : nat) (l : list Z) : bytes :=
  match l with
  | [] => []
  | a :: l =>
      if a =? 0 then join_atoms n l
      else (match n with O => [] | S _ => [44] end) ++ get_atom_name a ++ join_atoms (S n) l
  end.

Definition write_item (o : opts) (c : conv) (args : list fmt_arg) (pos : Z)
    : outcome (cells * list Z * list fmt_arg) :=
  if literal o && decimal o then Crash FatalError else
  match c, args with
  | Conv_c, VWord i :: args => Done (octets [u8 i], [], args)
  | Conv_percent, _ => Done (octets [37], [], args)
  | Conv_i, VWord i :: args =>
      Done (octets (if decimal o then format_decimal (format_size_in_decimal i) i
                    else WRITE_UINT32 i), [], args)
  | Conv_s, VWord size :: VData d :: args =>
      let length := if hex o then u32 (2 * size) else size in
      data ← memcpy d size;
      Done (octets (length_prefix o length ++ (if hex o then format_hex_string data else data)),
            [], args)
  | Conv_S, VString s :: args =>
      let length := if hex o then u32 (zlen s * 2) else zlen s in
      Done (octets (length_prefix o length ++ (if hex o then format_hex_string s else s)),
            [], args)
  | Conv_z, VCstr s :: args =>
      let length := zlen s in
      Done (octets ((if decimal o then write_decimal_length length else [])
                    ++ (if literal o then [] else WRITE_UINT32 length) ++ s), [], args)
  | Conv_r, VWord length :: VOut p :: args =>
      let prefix := length_prefix o length in
      Done (octets prefix ++ replicate (Z.to_nat length) None,
            (if p then [pos + zlen prefix] else []), args)
  | Conv_a, VWord atom :: args =>
      if atom =? 0 then Crash AssertFail
      else if negb (atom_in_table atom) then Crash OutOfBounds
      else Done (octets (length_prefix o (get_atom_length atom) ++ get_atom_name atom), [], args)
  | Conv_A, VList l :: args =>
      if decimal o then Crash FatalError
      else if negb (forallb atom_in_table l) then Crash OutOfBounds
      else
        let body := join_atoms 0 l in
        Done (octets ((if literal o then [] else WRITE_UINT32 (zlen body)) ++ body), [], args)
  | Conv_n, VNum n :: args =>
      if decimal o then Crash AssertFail
      else if unsigned_form o && (n <? 0) then Crash AssertFail
      else
        body ← (if unsigned_form o then bignum_format_u n else Done (bignum_format_s n));
        Done (octets ((if literal o then [] else WRITE_UINT32 (zlen body)) ++ body), [], args)
  | Conv_bad, _ => Crash FatalError
  | _, _ => Crash BadArgument
  end.

Fixpoint write_loop (f : string) (spec : option opts) (args : list fmt_arg)
    (buffer : cells) (ptrs : list Z) : outcome (cells * list Z) :=
  match f, spec with
  | EmptyString, None => Done (buffer, ptrs)
  | EmptyString, Some _ => Crash FatalError
  | String c f, None =>
      if Ascii.eqb c "%" then write_loop f (Some no_opts) args buffer ptrs
      else write_loop f None args (buffer ++ octets [Z.of_N (N_of_ascii c)]) ptrs
  | String c f, Some o =>
      match modifier c o with
      | Some o => write_loop f (Some o) args buffer ptrs
      | None =>
          '(out, p, args) ← write_item o (conv_of c) args (zlen buffer);
          write_loop f None args (buffer ++ out) (ptrs ++ p)
      end
  end.

(** Filling a buffer of [size] octets: writing past its end is out of bounds,
    and the routine ends with [assert(buffer == start + size)]. *)
Definition ssh_vformat_write (f : string) (size : Z) (args : list fmt_arg)
    : outcome (cells * list Z) :=
  '(buffer, ptrs) ← write_loop f None args [] [];
  if size <? zlen buffer then Crash OutOfBounds
  else _ ← assert_that (zlen buffer =? size);
  Done (buffer, ptrs).

Definition ssh_format_cells (f : string) (args : list fmt_arg) : outcome (cells * list Z) :=
  length ← ssh_vformat_length f args;
  ssh_vformat_write f length args.

(** A packet without reserved space. *)
Definition ssh_format (f : string) (args : list fmt_arg) : outcome bytes :=
  '(buffer, _) ← ssh_format_cells f args;
  match mapM (M:=option) id buffer with
  | Some l => Done l
  | None => Crash OutOfBounds
  end.

(** ** String helpers *)

(** [lsh_get_cstring] *)
Definition lsh_get_cstring (s : option bytes) : option bytes :=
  match s with
  | Some d => if bool_decide (0 ∈ d) then None else Some d
  | None => None
  end.

Definition lsh_string_eq (a b : bytes) : bool := (zlen a =? zlen b) && bool_decide (a = b).

Definition lsh_string_eq_l (a : bytes) (length : Z) (b : bytes) : bool :=
  (zlen a =? length) && bool_decide (a = take (Z.to_nat length) b).

Definition lsh_string_prefixp (prefix s : bytes) : bool :=
  (zlen prefix <=? zlen s) && bool_decide (prefix = take (length prefix) s).
(** ** Lemmas: the wire macros *)

Lemma WRITE_UINT32_spec i :
  0 <= i < 2 ^ 32 ->
  WRITE_UINT32 i = [i / 2 ^ 24; i / 2 ^ 16 mod 256; i / 2 ^ 8 mod 256; i mod 256].
Proof.
  intros. unfold WRITE_UINT32. rewrite !land_255, !shiftr_div by lia.
  rewrite (Z.mod_small (i / 2 ^ 24)); [done|]. div_lia.
Qed.

Lemma WRITE_UINT32_ok i : bytes_ok (WRITE_UINT32 i).
Proof. unfold WRITE_UINT32. repeat constructor; rewrite land_255; div_lia. Qed.

Lemma zlen_WRITE_UINT32 i : zlen (WRITE_UINT32 i) = 4.
Proof. done. Qed.

Lemma READ_UINT32_be_val p q :
  bytes_ok p -> zlen p = 4 -> READ_UINT32 (p ++ q) = be_val p.
Proof.
  intros Hp Hl. destruct p as [|a [|b [|c [|d [|]]]]]; try (unfold zlen in Hl; simpl in Hl; lia).
  repeat match goal with H : bytes_ok (_ :: _) |- _ => inversion_clear H end.
  repeat match goal with H : Forall _ (_ :: _) |- _ => inversion_clear H end.
  unfold is_byte in *. unfold READ_UINT32. cbn [nth app be_val].
  autorewrite with wrap. cbn [Z.add Z.mul Z.pow Z.pow_pos Pos.iter Pos.mul Pos.add].
  replace (Z.shiftl a 24) with (Z.shiftl (Z.shiftl a 8) 16) by (by rewrite Z.shiftl_shiftl by lia).
  rewrite <- Z.shiftl_lor, (lor_shiftl_add a b 8) by lia. set (m := a * 2 ^ 8 + b).
  replace (Z.shiftl m 16) with (Z.shiftl (Z.shiftl m 8) 8) by (by rewrite Z.shiftl_shiftl by lia).
  rewrite <- Z.shiftl_lor, (lor_shiftl_add m c 8) by lia.
  rewrite lor_shiftl_add by lia. subst m. lia.
Qed.

Lemma READ_WRITE_UINT32 i r : 0 <= i < 2 ^ 32 -> READ_UINT32 (WRITE_UINT32 i ++ r) = i.
Proof.
  intros Hi. rewrite READ_UINT32_be_val by (done || apply WRITE_UINT32_ok).
  rewrite WRITE_UINT32_spec by done. cbn [be_val]. autorewrite with wrap. simpl. div_lia.
Qed.

Lemma READ_UINT32_range p : bytes_ok p -> zlen p = 4 -> 0 <= READ_UINT32 p < 2 ^ 32.
Proof.
  intros Hp Hl. rewrite <- (app_nil_r p), READ_UINT32_be_val by done.
  pose proof (be_val_range p Hp) as H. by rewrite Hl in H.
Qed.

(** ** Lemmas: lengths *)

Lemma zlen_decimal_digits k n : length (decimal_digits k n) = k.
Proof. revert n. induction k; intros; simpl; auto. Qed.

Lemma zlen_format_decimal k n : 0 <= k -> zlen (format_decimal k n) = k.
Proof. intros. unfold format_decimal, zlen. rewrite length_reverse, zlen_decimal_digits. lia. Qed.

Lemma decimal_size_loop_ge k n e : e <= decimal_size_loop k n e.
Proof.
  revert n e. induction k as [|k IH]; intros n e; cbn [decimal_size_loop]; [lia|].
  case_match; [|apply IH]. etrans; [|apply IH].
  rewrite Z.shiftl_mul_pow2 by lia. pose proof (Z.pow_pos_nonneg 2 (Z.of_nat k)). lia.
Qed.

Lemma decimal_size_loop_le k n e : decimal_size_loop k n e <= e + 2 ^ Z.of_nat k - 1.
Proof.
  revert n e. induction k as [|k IH]; intros n e; cbn [decimal_size_loop]; [cbn; lia|].
  rewrite Nat2Z.inj_succ, Z.pow_succ_r by lia. pose proof (Z.pow_pos_nonneg 2 (Z.of_nat k)).
  case_match.
  - etrans; [apply IH|]. rewrite Z.shiftl_mul_pow2 by lia. lia.
  - etrans; [apply IH|]. lia.
Qed.

Lemma format_size_in_decimal_le n : format_size_in_decimal n <= 16.
Proof. unfold format_size_in_decimal. pose proof (decimal_size_loop_le 4 n 0). lia. Qed.

Lemma format_size_in_decimal_pos n : 1 <= format_size_in_decimal n.
Proof. unfold format_size_in_decimal. pose proof (decimal_size_loop_ge 4 n 0). lia. Qed.

Lemma zlen_write_decimal_length n :
  zlen (write_decimal_length n) = format_size_in_decimal n + 1.
Proof.
  pose proof (format_size_in_decimal_pos n). unfold write_decimal_length.
  rewrite zlen_app, zlen_format_decimal by lia. done.
Qed.

Lemma zlen_format_hex_string d : zlen (format_hex_string d) = 2 * zlen d.
Proof. induction d; [done|]. cbn [format_hex_string]. rewrite !zlen_cons. lia. Qed.

Lemma zlen_length_prefix o l : zlen (length_prefix o l) = length_field o l.
Proof.
  unfold length_prefix, length_field.
  destruct (decimal o); [apply zlen_write_decimal_length|]. by destruct (literal o).
Qed.

Lemma zlen_octets l : zlen (octets l) = zlen l.
Proof. apply zlen_fmap. Qed.

Lemma atom_in_table_is_atom a : atom_in_table a = true -> a <> 0 -> is_atom a.
Proof.
  unfold atom_in_table, is_atom, TOTAL_KEYWORDS. change (zlen atom_table) with 116. lia.
Qed.

Lemma zlen_get_atom_name a : atom_in_table a = true -> a <> 0 -> zlen (get_atom_name a) = get_atom_length a.
Proof. intros. symmetry. by apply atom_ok_spec, atom_in_table_is_atom. Qed.

Lemma zlen_join_atoms n l :
  forallb atom_in_table l = true ->
  zlen (join_atoms n l)
  = foldr (fun a s => get_atom_length a + s) 0 (known_atoms l) + zlen (known_atoms l)
    - (match n with O => if zlen (known_atoms l) =? 0 then 0 else 1 | S _ => 0 end).
Proof.
  revert n. induction l as [|a l IH]; intros n H; [by destruct n|].
  apply andb_true_iff in H as [Ha H]. cbn [join_atoms]. unfold known_atoms in *.
  rewrite filter_cons. destruct (Z.eqb_spec a 0) as [E|E].
  - rewrite decide_False by (intros ?; done). by apply IH.
  - rewrite decide_True by done. rewrite !zlen_app, zlen_cons, IH by done.
    cbn [foldr]. rewrite zlen_get_atom_name by done.
    pose proof (zlen_nonneg (filter (fun a => a <> 0) l)).
    destruct n; cbv iota; rewrite ?zlen_cons, ?zlen_nil; [|lia].
    rewrite (proj2 (Z.eqb_neq _ 0)) by lia. lia.
Qed.

(** ** The two interpreters agree *)

(** Arguments the C types allow: words are 32 bits wide, and objects are
    small enough for their doubled length to be representable. *)
Definition arg_ok (a : fmt_arg) : Prop :=
  match a with
  | VWord i => 0 <= i < 2 ^ 32
  | VData d | VString d | VCstr d => zlen d < 2 ^ 31
  | VOut _ => True
  | VList _ => True
  | VNum n => Bignum.signed_octets n < octets_max /\ Bignum.unsigned_octets n < octets_max
  end.

(** The conversions on which sizing and writing agree: not a decimal length
    in front of hexadecimal data, and not a decimal [%z]. *)
Definition conv_consistent (o : opts) (c : conv) : bool :=
  match c with
  | Conv_s | Conv_S => negb (decimal o && hex o)
  | Conv_z => negb (decimal o)
  | _ => true
  end.

Fixpoint format_consistent (f : string) (spec : option opts) : bool :=
  match f, spec with
  | EmptyString, _ => true
  | String c f, None =>
      format_consistent f (if Ascii.eqb c "%" then Some no_opts else None)
  | String c f, Some o =>
      match modifier c o with
      | Some o => format_consistent f (Some o)
      | None => conv_consistent o (conv_of c) && format_consistent f None
      end
  end.

Lemma zlen_memcpy d n r : memcpy d n = Done r -> 0 <= n -> zlen r = n /\ n <= zlen d.
Proof.
  unfold memcpy. destruct (Z.leb_spec n (zlen d)); [|done]. intros [= <-] Hn.
  unfold zlen in *. rewrite length_take. lia.
Qed.

Lemma zlen_bignum_format_u n r :
  bignum_format_u n = Done r -> unsigned_octets n < octets_max ->
  bignum_format_u_length n = Done (zlen r).
Proof.
  intros H Hn. pose proof (format_u_correct n Hn) as R. rewrite H in R. apply R.
Qed.
(** Split the argument list of a conversion: only the matching shape remains. *)
Ltac args_cases args Hargs H :=
  repeat match goal with
  | H' : context [match args with _ => _ end] |- _ => destruct args as [|[] args]; try discriminate H'
  end;
  repeat match type of Hargs with
  | Forall _ (_ :: _) => apply Forall_cons in Hargs as [?Ha Hargs]
  end.

Lemma length_field_not_decimal o l l' :
  decimal o = false -> length_field o l = length_field o l'.
Proof. unfold length_field. by intros ->. Qed.

(** The sizes of string data, plain or hexadecimal. *)
Lemma string_item_agree o l (d : bytes) :
  negb (decimal o && hex o) = true -> zlen d = l ->
  l + (if hex o then l else 0) + length_field o l
  = length_field o (if hex o then u32 (2 * l) else l)
    + zlen (if hex o then format_hex_string d else d).
Proof.
  intros Hc <-. destruct (hex o) eqn:Hx; [|lia].
  rewrite andb_true_r in Hc. apply negb_true_iff in Hc.
  rewrite zlen_format_hex_string, (length_field_not_decimal o (u32 (2 * zlen d)) (zlen d)) by done. lia.
Qed.

Lemma number_item_agree (unsigned : bool) n body :
  arg_ok (VNum n) ->
  (if unsigned then bignum_format_u n else Done (bignum_format_s n)) = Done body ->
  (if unsigned then bignum_format_u_length n else Done (bignum_format_s_length n))
  = Done (zlen body).
Proof.
  simpl. intros [Hs Hu]. destruct unsigned; [intros; by apply zlen_bignum_format_u|].
  intros [= <-]. f_equal. apply format_s_correct. by rewrite zlen_bignum_format_s.
Qed.

Lemma item_agree o c args pos out p args' :
  conv_consistent o c = true -> Forall arg_ok args ->
  write_item o c args pos = Done (out, p, args') ->
  length_item o c args = Done (zlen out, args') /\ Forall arg_ok args'.
Proof.
  intros Hc Hargs H. unfold write_item, length_item in *.
  destruct (literal o && decimal o) eqn:Hld; [done|].
  destruct c; args_cases args Hargs H; cbn [conv_consistent arg_ok mbind outcome_bind] in *.
  all: try (injection H as <- <- <-).
  all: rewrite ?zlen_app, ?zlen_octets, ?zlen_app, ?zlen_length_prefix.
  all: try done.
  - split; [|done]. do 2 f_equal. destruct (decimal o); [|done].
    pose proof (format_size_in_decimal_pos i). by rewrite zlen_format_decimal by lia.
  - destruct (memcpy d i) as [r| |] eqn:Hm; simpl in H; [|done..]. injection H as <- <- <-.
    apply zlen_memcpy in Hm as [Hr _]; [|lia].
    rewrite zlen_octets, zlen_app, zlen_length_prefix.
    split; [|done]. do 2 f_equal. by apply string_item_agree.
  - split; [|done]. do 2 f_equal. rewrite (Z.mul_comm (zlen s)). by apply string_item_agree.
  - split; [|done]. do 2 f_equal. apply negb_true_iff in Hc.
    unfold length_field. rewrite Hc. cbv iota. destruct (literal o); cbv iota; change (zlen []) with 0;
      rewrite ?zlen_WRITE_UINT32; lia.
  - split; [|done]. do 2 f_equal. rewrite zlen_replicate. lia.
  - destruct (i =? 0) eqn:Hi; [done|]. destruct (negb (atom_in_table i)) eqn:Hin; [done|].
    injection H as <- <- <-. apply Z.eqb_neq in Hi. apply negb_false_iff in Hin.
    rewrite zlen_octets, zlen_app, zlen_length_prefix, zlen_get_atom_name by done.
    split; [|done]. do 2 f_equal. lia.
  - destruct (decimal o); [done|]. destruct (negb (forallb atom_in_table l)) eqn:Hin; [done|].
    injection H as <- <- <-. apply negb_false_iff in Hin.
    rewrite zlen_octets, zlen_app, zlen_join_atoms by done. split; [|done]. do 2 f_equal.
    destruct (zlen (known_atoms l) =? 0) eqn:Hk; [apply Z.eqb_eq in Hk|];
      destruct (literal o); cbv iota; change (zlen []) with 0;
      rewrite ?zlen_WRITE_UINT32; lia.
  - destruct (decimal o); [done|].
    destruct (unsigned_form o && (n <? 0)) eqn:Hn; [done|].
    destruct (if unsigned_form o then bignum_format_u n else _) as [body| |] eqn:Hb;
      simpl in H; [|done..]. injection H as <- <- <-.
    rewrite (number_item_agree _ _ _ Ha Hb). simpl.
    rewrite zlen_octets, zlen_app. split; [|done]. do 2 f_equal.
    destruct (literal o); cbv iota; change (zlen []) with 0;
      rewrite ?zlen_WRITE_UINT32; lia.
Qed.

Lemma loops_agree f spec args buffer ptrs buffer' ptrs' :
  format_consistent f spec = true -> Forall arg_ok args ->
  write_loop f spec args buffer ptrs = Done (buffer', ptrs') ->
  length_loop f spec args (u32 (zlen buffer)) = Done (u32 (zlen buffer')).
Proof.
  revert spec args buffer ptrs. induction f as [|c f IH]; intros spec args buffer ptrs Hf Hargs H.
  - destruct spec; simpl in *; [done|]. by injection H as <- <-.
  - destruct spec as [o|]; cbn [format_consistent write_loop length_loop] in *.
    + destruct (modifier c o) as [o'|]; [by eapply IH|].
      apply andb_true_iff in Hf as [Hc Hf].
      destruct (write_item o (conv_of c) args (zlen buffer)) as [[[out p] args']| |] eqn:Hi;
        simpl in H; [|done..].
      apply item_agree in Hi as [-> Hargs']; [|done..]. simpl.
      rewrite u32_add_l, <- zlen_app. by eapply IH.
    + destruct (Ascii.eqb c "%"); [by eapply IH|].
      rewrite u32_add_l. eapply IH in H; [|done..]. rewrite zlen_app in H. by apply H.
Qed.

(** ** Theorems *)

(** C19.  Sizing and writing agree: whenever the format string avoids the two
    inconsistent modifier combinations, [ssh_format] allocates exactly the
    octets that [ssh_vformat_write] fills, so it neither overruns the packet
    nor fails its final assertion. *)
Theorem ssh_format_fills_exactly f args buffer ptrs
  (Hf : format_consistent f None = true) (Hargs : Forall arg_ok args)
  (Hw : write_loop f None args [] [] = Done (buffer, ptrs)) (Hlen : zlen buffer < 2 ^ 32) :
  ssh_vformat_length f args = Done (zlen buffer)
  /\ ssh_format_cells f args = Done (buffer, ptrs).
Proof.
  pose proof (loops_agree f None args [] [] buffer ptrs Hf Hargs Hw) as L.
  change (u32 (zlen [])) with 0 in L. pose proof (zlen_nonneg buffer).
  rewrite u32_small in L by lia. fold (ssh_vformat_length f args) in L.
  split; [done|]. unfold ssh_format_cells, ssh_vformat_write. rewrite L. simpl. rewrite Hw. simpl.
  rewrite Z.ltb_irrefl, Z.eqb_refl. done.
Qed.

Definition sample_args : list fmt_arg := [VWord 94; VWord 2; VData [7; 8]; VNum (-129)].

Theorem ssh_format_fills_exactly_witness :
  write_loop "%c%s%n" None sample_args [] []
  = Done (Some <$> [94; 0; 0; 0; 2; 7; 8; 0; 0; 0; 2; 255; 127], [])
  /\ ssh_vformat_length "%c%s%n" sample_args = Done 13.
Proof.
  assert (H : write_loop "%c%s%n" None sample_args [] []
    = Done (Some <$> [94; 0; 0; 0; 2; 7; 8; 0; 0; 0; 2; 255; 127], [])) by (vm_compute; reflexivity).
  split; [exact H|].
  refine (proj1 (ssh_format_fills_exactly "%c%s%n" sample_args
    (Some <$> [94; 0; 0; 0; 2; 7; 8; 0; 0; 0; 2; 255; 127]) [] _ _ H _)).
  - reflexivity.
  - repeat constructor; vm_compute; intuition discriminate.
  - vm_compute; reflexivity.
Defined.

(** The two combinations the agreement excludes do go wrong.  A decimal
    length in front of hexadecimal data is sized with the length of the data
    and written with twice that, so the packet is overrun when the doubled
    length has one more digit; a decimal [%z] is written with a second, binary
    length field that is never counted, so the packet is always overrun. *)
Theorem ssh_format_inconsistent_specs d s
  (Hd : 5 <= zlen d < 10) (Hs : zlen s < 2 ^ 31) :
  ssh_format_cells "%xds" [VWord (zlen d); VData d] = Crash OutOfBounds
  /\ ssh_format_cells "%dz" [VCstr s] = Crash OutOfBounds.
Proof.
  unfold ssh_format_cells, ssh_vformat_length, ssh_vformat_write.
  pose proof (zlen_nonneg s). split.
  - cbn. unfold memcpy. rewrite Z.leb_refl. simpl.
    rewrite !zlen_octets, zlen_app, zlen_format_hex_string, zlen_write_decimal_length.
    rewrite take_ge by (unfold zlen; lia). unfold length_field; simpl.
    replace (format_size_in_decimal (zlen d)) with 1.
    + replace (format_size_in_decimal (u32 (2 * zlen d))) with 2.
      * rewrite u32_small by lia. rewrite (proj2 (Z.ltb_lt _ _)); [done|lia].
      * rewrite u32_small by lia.
        assert (zlen d = 5 \/ zlen d = 6 \/ zlen d = 7 \/ zlen d = 8 \/ zlen d = 9) as E by lia.
        by repeat destruct E as [->|E]; try rewrite E.
    + assert (zlen d = 5 \/ zlen d = 6 \/ zlen d = 7 \/ zlen d = 8 \/ zlen d = 9) as E by lia.
      by repeat destruct E as [->|E]; try rewrite E.
  - cbn -[WRITE_UINT32].
    rewrite !zlen_octets, !zlen_app, zlen_write_decimal_length, zlen_WRITE_UINT32.
    unfold length_field; simpl.
    pose proof (format_size_in_decimal_le (zlen s)).
    pose proof (format_size_in_decimal_pos (zlen s)).
    rewrite u32_small by lia. rewrite (proj2 (Z.ltb_lt _ _)); [done|lia].
Qed.

Theorem ssh_format_inconsistent_specs_witness :
  ssh_format_cells "%xds" [VWord 5; VData [1; 2; 3; 4; 5]] = Crash OutOfBounds
  /\ ssh_format_cells "%dz" [VCstr [65]] = Crash OutOfBounds.
Proof.
  apply (ssh_format_inconsistent_specs [1; 2; 3; 4; 5] [65]); vm_compute; auto.
  split; [discriminate | reflexivity].
Defined.

End Format.
