(* ===== verification/Parse.v ===== *)
(** * Packet parsing

    [lsh/src/parse.c]: the cursor ([struct simple_buffer]) every received
    packet is taken apart with, and one routine per SSH data type.  A parser
    is a state transformer on the cursor: [Reject] is the return value 0 (or
    NULL) of the source, which may leave the cursor advanced.  The theorems
    show that no parser reads outside its buffer except for [parse_utf8], and
    that parsing inverts formatting for whole packets. *)

From Stdlib Require Import Ascii.
From S2P Require Import Prelude Bignum Atoms Format.

Module Parse.
Import Bignum Atoms Format.

Record simple_buffer := mk_buffer { capacity : Z; pos : Z; data : bytes }.

Definition simple_buffer_init (length : Z) (d : bytes) : simple_buffer := mk_buffer length 0 d.

(** ** The cursor macros of [parse_macros.h], in 32-bit unsigned arithmetic *)

Definition LEFT (b : simple_buffer) : Z := u32 (capacity b - pos b).
Definition ADVANCE (n : Z) (b : simple_buffer) : simple_buffer :=
  mk_buffer (capacity b) (u32 (pos b + n)) (data b).

(** [HERE[i]], checked against the memory behind the pointer. *)
Definition HERE (b : simple_buffer) (i : Z) : outcome Z :=
  match data b !! Z.to_nat (pos b + i) with
  | Some c => Done c
  | None => Crash OutOfBounds
  end.

(** The octets from [HERE] to the end of the memory. *)
Definition rest (b : simple_buffer) : bytes := drop (Z.to_nat (pos b)) (data b).

(** ** Parsers *)

Definition Parser (A : Type) : Type := simple_buffer -> outcome A * simple_buffer.

#[export] Instance parser_ret : MRet Parser := fun A a b => (Done a, b).
#[export] Instance parser_bind : MBind Parser := fun A B f p b =>
  match p b with
  | (Done a, b) => f a b
  | (Reject, b) => (Reject, b)
  | (Crash c, b) => (Crash c, b)
  end.

Definition reject {A} : Parser A := fun b => (Reject, b).
Definition lift {A} (m : outcome A) : Parser A := fun b => (m, b).
Definition left : Parser Z := fun b => (Done (LEFT b), b).
Definition advance (n : Z) : Parser unit := fun b => (Done tt, ADVANCE n b).
Definition here (i : Z) : Parser Z := fun b => (HERE b i, b).
(** [memcpy] of the next [n] octets. *)
Definition peek (n : Z) : Parser bytes := fun b => (memcpy (rest b) n, b).

Definition parse_uint32 : Parser Z :=
  l ← left;
  if l <? 4 then reject else
  p ← peek 4;
  _ ← advance 4;
  mret (READ_UINT32 p).

(** The pair ([*length], [*start]) is represented by the octets it denotes. *)
Definition parse_string : Parser bytes :=
  l ← parse_uint32;
  n ← left;
  if n <? l then reject else
  s ← peek l;
  _ ← advance l;
  mret s.

Definition parse_octets (length : Z) : Parser bytes :=
  n ← left;
  if n <? length then reject else
  s ← peek length;
  _ ← advance length;
  mret s.

Definition parse_string_copy : Parser bytes :=
  s ← parse_string;
  lift (ssh_format "%ls" [VWord (zlen s); VData s]).

Definition parse_sub_buffer : Parser simple_buffer :=
  d ← parse_string;
  mret (simple_buffer_init (zlen d) d).

Definition parse_uint8 : Parser Z :=
  n ← left;
  if n =? 0 then reject else
  c ← here 0;
  _ ← advance 1;
  mret c.

(** The continuation octets of [parse_utf8]; no check against [LEFT]. *)
Fixpoint utf8_tail (count : nat) (i result : Z) : Parser Z :=
  match count with
  | O => mret result
  | S k =>
      c ← here i;
      if negb (Z.land c 0xC0 =? 0x80) then reject
      else utf8_tail k (i + 1) (Z.lor (u32 (Z.shiftl result 6)) (Z.land c 0x3f))
  end.

(** Sequence length and payload bits of the first octet. *)
Definition utf8_head (first : Z) : outcome (Z * Z) :=
  let m := Z.land first 0xF0 in
  if (m =? 0xC0) || (m =? 0xD0) then Done (2, Z.land first 0x1F)
  else if m =? 0xE0 then Done (3, Z.land first 0x0F)
  else if m =? 0xF0 then
    let k := Z.land first 0x0E in
    if (k =? 0) || (k =? 2) || (k =? 4) || (k =? 6) then Done (4, Z.land first 0x07)
    else if (k =? 8) || (k =? 0xA) then Done (5, Z.land first 0x03)
    else if k =? 0xC then Done (6, Z.land first 0x01)
    else Crash FatalError
  else Reject.

(** [Done None] is the return value -1 at the end of the buffer. *)
Definition parse_utf8 : Parser (option Z) :=
  n ← left;
  if n =? 0 then mret None else
  first ← here 0;
  if first <? 0x80 then _ ← advance 1; mret (Some first)
  else
    '(length, start) ← lift (utf8_head first);
    r ← utf8_tail (Z.to_nat (length - 1)) 1 start;
    _ ← advance length;
    mret (Some r).

Definition parse_boolean : Parser Z :=
  n ← left;
  if n =? 0 then reject else
  c ← here 0;
  _ ← advance 1;
  mret c.

Definition parse_bignum (limit : Z) : Parser Z :=
  digits ← parse_string;
  if negb (limit =? 0) && (u32 (limit + 1) <? zlen digits) then reject
  else mret (bignum_parse_s digits).

Definition parse_atom : Parser Z :=
  start ← parse_string;
  if 64 <? zlen start then reject else mret (lookup_atom start).

(** The loop of [parse_next_atom], [left] turns of which are left: the index of
    the comma or of the end, or [None] behind 64 characters. *)
Fixpoint scan_atom (left : nat) (i : Z) (b : simple_buffer) : outcome (option Z) :=
  match left with
  | O => Done (Some i)
  | S left =>
      c ← HERE b i;
      if c =? 44 then Done (Some i)
      else if i =? 64 then Done None
      else scan_atom left (i + 1) b
  end.

Definition parse_next_atom : Parser Z :=
  _ ← (fun b => (assert_that (pos b <=? capacity b), b));
  n ← left;
  end_of_atom ← (fun b => (scan_atom (Z.to_nat n) 0 b, b));
  match end_of_atom with
  | None => reject
  | Some i =>
      a ← (if i =? 0 then mret 0 else name ← peek i; mret (lookup_atom name));
      _ ← advance (i + 1);
      mret a
  end.

(** [buffer->data[i]] *)
Definition data_at (b : simple_buffer) (i : Z) : outcome Z :=
  match data b !! Z.to_nat i with
  | Some c => Done c
  | None => Crash OutOfBounds
  end.

(** The comma count of [parse_atoms], from [i] for [left] octets; [None] when
    the limit is reached. *)
Fixpoint count_atoms (limit : Z) (left : nat) (i : Z) (b : simple_buffer) (count : Z) : outcome (option Z) :=
  match left with
  | O => Done (Some count)
  | S left =>
      c ← data_at b i;
      if c =? 44 then
        if limit <=? count then Done None else count_atoms limit left (i + 1) b (count + 1)
      else count_atoms limit left (i + 1) b count
  end.

Fixpoint parse_n_atoms (n : nat) : Parser (list Z) :=
  match n with
  | O => mret []
  | S n => a ← parse_next_atom; l ← parse_n_atoms n; mret (a :: l)
  end.

Definition parse_atoms (limit : Z) : Parser (list Z) :=
  _ ← lift (assert_that (negb (limit =? 0)));
  n ← left;
  if n =? 0 then mret [] else
  count ← (fun b => (count_atoms limit (Z.to_nat (capacity b - pos b)) (pos b) b 1, b));
  match count with
  | None => reject
  | Some count => parse_n_atoms (Z.to_nat count)
  end.

Definition parse_atom_list (limit : Z) : Parser (list Z) :=
  sub_buffer ← parse_sub_buffer;
  lift (parse_atoms limit sub_buffer).1.

Definition parse_uint16 : Parser Z :=
  l ← left;
  if l <? 2 then reject else
  p ← peek 2;
  _ ← advance 2;
  mret (READ_UINT16 p).

Definition parse_string16 : Parser bytes :=
  l ← parse_uint16;
  n ← left;
  if n <? l then reject else
  s ← peek l;
  _ ← advance l;
  mret s.

Definition parse_rest : Parser bytes :=
  n ← left;
  s ← peek n;
  _ ← advance n;
  mret s.

Definition parse_rest_copy : Parser bytes :=
  n ← left;
  d ← peek n;
  s ← lift (ssh_format "%ls" [VWord n; VData d]);
  _ ← advance n;
  k ← left;
  _ ← lift (assert_that (k =? 0));
  mret s.

(** 1 iff there is no data left. *)
Definition parse_eod : Parser bool := n ← left; mret (n =? 0).

(** ** Lemmas: one step of a parser *)

(** A cursor the program builds: it stands inside its memory. *)
Record sb_ok (b : simple_buffer) : Prop := mk_sb_ok {
  sb_pos : 0 <= pos b <= capacity b;
  sb_capacity : capacity b = zlen (data b);
  sb_small : capacity b < 2 ^ 32;
  sb_bytes : bytes_ok (data b) }.

Lemma LEFT_ok b : sb_ok b -> LEFT b = capacity b - pos b.
Proof. intros [Hp _ Hs _]. unfold LEFT. apply u32_small. lia. Qed.

Lemma zlen_rest b : sb_ok b -> zlen (rest b) = capacity b - pos b.
Proof. intros [Hp Hc _ _]. unfold rest, zlen in *. rewrite length_drop. lia. Qed.

Lemma bytes_ok_rest b : sb_ok b -> bytes_ok (rest b).
Proof. intros [_ _ _ Hb]. by apply Forall_drop. Qed.

(** [pending b l]: the octets still to be read are [l]. *)
Definition pending (b : simple_buffer) (l : bytes) : Prop := sb_ok b /\ rest b = l.

Lemma pending_init d : bytes_ok d -> zlen d < 2 ^ 32 -> pending (simple_buffer_init (zlen d) d) d.
Proof.
  intros Hd Hl. pose proof (zlen_nonneg d). split; [|done]. by constructor; simpl.
Qed.

Lemma LEFT_pending b l : pending b l -> LEFT b = zlen l.
Proof. intros [Hb <-]. by rewrite LEFT_ok, zlen_rest. Qed.

Lemma ADVANCE_pending b p r :
  pending b (p ++ r) -> pending (ADVANCE (zlen p) b) r /\ pos b <= pos (ADVANCE (zlen p) b).
Proof.
  intros [Hb Hr]. pose proof (zlen_rest b Hb) as Hl. rewrite Hr, zlen_app in Hl.
  pose proof (zlen_nonneg p). pose proof (zlen_nonneg r). destruct Hb as [Hp Hc Hs Hbytes].
  unfold ADVANCE. rewrite u32_small by lia. split; [|simpl; lia].
  split; [constructor; simpl; auto; lia|].
  unfold rest in *. simpl. rewrite Z2Nat.inj_add, <- drop_drop, Hr by lia.
  unfold zlen. by rewrite Nat2Z.id, drop_app_length.
Qed.

(** The idiom of every fixed-length read: check [LEFT], look at the octets,
    advance. *)
Lemma chunk_enough {A} (n : Z) (k : bytes -> Parser A) b p r :
  pending b (p ++ r) -> zlen p = n ->
  exists b', pending b' r /\ pos b <= pos b' /\ data b' = data b /\
  (l ← left; if l <? n then reject else s ← peek n; _ ← advance n; k s) b = k p b'.
Proof.
  intros Hb <-. destruct (ADVANCE_pending b p r Hb) as [Hb' Hpos].
  exists (ADVANCE (zlen p) b). split_and!; [done..|].
  unfold mbind, parser_bind, left, peek, advance. rewrite (LEFT_pending b _ Hb), zlen_app.
  pose proof (zlen_nonneg r). rewrite (proj2 (Z.ltb_ge _ _)) by lia.
  destruct Hb as [_ ->]. unfold memcpy. rewrite zlen_app, (proj2 (Z.leb_le _ _)) by lia.
  unfold zlen. by rewrite Nat2Z.id, take_app_length.
Qed.

Lemma chunk_short {A} (n : Z) (k : bytes -> Parser A) b l :
  pending b l -> zlen l < n ->
  (l ← left; if l <? n then reject else s ← peek n; _ ← advance n; k s) b = (Reject, b).
Proof.
  intros Hb Hl. unfold mbind, parser_bind, left, reject.
  rewrite (LEFT_pending b _ Hb), (proj2 (Z.ltb_lt _ _)) by lia. done.
Qed.

(** ** Memory safety *)

(** [safe p Q]: on a valid cursor, [p] leaves a valid, not earlier, cursor
    over the same memory and never crashes; its result satisfies [Q]. *)
Definition safe {A} (p : Parser A) (Q : A -> Prop) : Prop :=
  forall b, sb_ok b ->
  let '(r, b') := p b in
  sb_ok b' /\ data b' = data b /\ pos b <= pos b' /\
  match r with Done a => Q a | Reject => True | Crash _ => False end.

Lemma safe_ret {A} (a : A) (Q : A -> Prop) : Q a -> safe (mret a) Q.
Proof. intros Ha b Hb. simpl. auto with lia. Qed.

Lemma safe_reject {A} (Q : A -> Prop) : safe reject Q.
Proof. intros b Hb. simpl. auto with lia. Qed.

Lemma safe_lift {A} (m : outcome A) (Q : A -> Prop) :
  match m with Done a => Q a | Reject => True | Crash _ => False end -> safe (lift m) Q.
Proof. intros Hm b Hb. simpl. auto with lia. Qed.

Lemma safe_weaken {A} (p : Parser A) (P Q : A -> Prop) :
  safe p P -> (forall a, P a -> Q a) -> safe p Q.
Proof.
  intros Hp HPQ b Hb. specialize (Hp b Hb). destruct (p b) as [r b'].
  destruct Hp as (?&?&?&Hr). split_and!; [done..|]. destruct r; auto.
Qed.

Lemma safe_bind {A B} (p : Parser A) (f : A -> Parser B) P Q :
  safe p P -> (forall a, P a -> safe (f a) Q) -> safe (p ≫= f) Q.
Proof.
  intros Hp Hf b Hb. specialize (Hp b Hb). unfold mbind, parser_bind.
  destruct (p b) as [[a| |c] b']; [|tauto|tauto].
  destruct Hp as (Hb'&Hd&Hpos&Ha). specialize (Hf a Ha b' Hb').
  destruct (f a b') as [r b'']. destruct Hf as (?&?&?&?). split_and!; auto; [congruence|lia].
Qed.

(** The fixed-length read is safe and yields exactly [n] octets. *)
Lemma safe_chunk {A} (n : Z) (k : bytes -> Parser A) Q :
  0 <= n -> (forall s, zlen s = n -> bytes_ok s -> safe (k s) Q) ->
  safe (l ← left; if l <? n then reject else s ← peek n; _ ← advance n; k s) Q.
Proof.
  intros Hn Hk b Hb. destruct (decide (zlen (rest b) < n)) as [Hl|Hl].
  - rewrite (chunk_short n k b (rest b)) by (done || lia). auto with lia.
  - set (p := take (Z.to_nat n) (rest b)).
    assert (Hp : zlen p = n) by (unfold p, zlen in *; rewrite length_take; lia).
    destruct (chunk_enough n k b p (drop (Z.to_nat n) (rest b))) as (b'&Hb'&Hpos&Hd&->).
    + split; [done|]. symmetry. apply take_drop.
    + done.
    + specialize (Hk p Hp (Forall_take _ _ _ (bytes_ok_rest b Hb)) b' (proj1 Hb')).
      destruct (k p b') as [r b'']. destruct Hk as (?&?&?&?). split_and!; auto; [congruence|lia].
Qed.

Lemma safe_parse_uint32 : safe parse_uint32 (fun i => 0 <= i < 2 ^ 32).
Proof.
  apply (safe_chunk 4); [lia|]. intros s Hs Hok. apply safe_ret. by apply READ_UINT32_range.
Qed.

Lemma safe_parse_string : safe parse_string (fun s => bytes_ok s /\ zlen s < 2 ^ 32).
Proof.
  eapply safe_bind; [apply safe_parse_uint32|]. intros l [Hl Hl'].
  apply (safe_chunk l); [done|]. intros s Hs Hok. apply safe_ret. by rewrite Hs.
Qed.

Lemma safe_parse_uint16 : safe parse_uint16 (fun i => 0 <= i < 2 ^ 16).
Proof.
  apply (safe_chunk 2); [lia|]. intros s Hs Hok. apply safe_ret.
  destruct s as [|x [|y [|]]]; try (unfold zlen in Hs; simpl in Hs; lia).
  apply Forall_cons in Hok as [Hx Hok]. apply Forall_cons in Hok as [Hy _].
  unfold is_byte in *. unfold READ_UINT16. simpl. rewrite lor_shiftl_add; lia.
Qed.

Lemma safe_parse_string16 : safe parse_string16 (fun s => bytes_ok s /\ zlen s < 2 ^ 16).
Proof.
  eapply safe_bind; [apply safe_parse_uint16|]. intros l [Hl Hl'].
  apply (safe_chunk l); [done|]. intros s Hs Hok. apply safe_ret. by rewrite Hs.
Qed.

Lemma safe_parse_octets n : 0 <= n -> safe (parse_octets n) (fun s => bytes_ok s /\ zlen s = n).
Proof. intros. apply safe_chunk; [done|]. intros s Hs Hok. by apply safe_ret. Qed.

(** [ssh_format("%ls", ...)] copies. *)
Lemma mapM_octets l : mapM (M:=option) id (octets l) = Some l.
Proof. apply mapM_Some, Forall2_fmap_l, Forall_Forall2_diag, Forall_true. done. Qed.

Lemma ssh_format_copy s : zlen s < 2 ^ 32 -> ssh_format "%ls" [VWord (zlen s); VData s] = Done s.
Proof.
  intros Hs. pose proof (zlen_nonneg s).
  assert (E : memcpy s (zlen s) = Done s).
  { unfold memcpy. rewrite Z.leb_refl. f_equal. apply take_ge. unfold zlen. lia. }
  unfold ssh_format, ssh_format_cells, ssh_vformat_length, ssh_vformat_write.
  cbn -[memcpy u32]. rewrite E. cbn -[u32]. rewrite zlen_octets, !Z.add_0_r, u32_small by lia.
  rewrite Z.ltb_irrefl, Z.eqb_refl. simpl. by rewrite mapM_octets.
Qed.

Lemma safe_parse_string_copy : safe parse_string_copy (fun s => bytes_ok s /\ zlen s < 2 ^ 32).
Proof.
  eapply safe_bind; [apply safe_parse_string|]. intros s [Hok Hs].
  apply safe_lift. by rewrite ssh_format_copy.
Qed.

Lemma safe_parse_sub_buffer : safe parse_sub_buffer sb_ok.
Proof.
  eapply safe_bind; [apply safe_parse_string|]. intros s [Hok Hs].
  apply safe_ret. by apply pending_init.
Qed.

(** Reading one octet is the one-octet chunk. *)
Lemma parse_uint8_chunk b :
  sb_ok b -> parse_uint8 b = (c ← parse_octets 1; mret (nth 0 c 0)) b.
Proof.
  intros Hb. unfold parse_uint8, parse_octets, mbind, parser_bind, left, here, peek, reject.
  rewrite LEFT_ok by done. destruct Hb as [Hp Hc Hs Hok].
  destruct (Z.eqb_spec (capacity b - pos b) 0), (Z.ltb_spec (capacity b - pos b) 1); try lia; [done|].
  unfold HERE, memcpy, rest. rewrite Z.add_0_r.
  destruct (lookup_lt_is_Some_2 (data b) (Z.to_nat (pos b))) as [c Hlk]; [unfold zlen in *; lia|].
  rewrite Hlk, (drop_S _ c), zlen_cons by done. rewrite (proj2 (Z.leb_le _ _)); [done|].
  pose proof (zlen_nonneg (drop (S (Z.to_nat (pos b))) (data b))). lia.
Qed.

Lemma safe_parse_uint8 : safe parse_uint8 is_byte.
Proof.
  intros b Hb. rewrite parse_uint8_chunk by done. revert b Hb.
  eapply safe_bind; [by apply safe_parse_octets|]. intros s [Hok Hs]. apply safe_ret.
  destruct s as [|x s]; [done|]. by apply Forall_cons in Hok as [Hx _].
Qed.

Lemma safe_parse_boolean : safe parse_boolean is_byte.
Proof. apply safe_parse_uint8. Qed.

Lemma safe_parse_bignum limit : safe (parse_bignum limit) (fun _ => True).
Proof.
  eapply safe_bind; [apply safe_parse_string|]. intros s _.
  case_match; [apply safe_reject | by apply safe_ret].
Qed.

Lemma safe_parse_atom : safe parse_atom (fun a => a = 0 \/ is_atom a).
Proof.
  eapply safe_bind; [apply safe_parse_string|]. intros s _.
  case_match; [apply safe_reject |]. apply safe_ret.
  destruct (decide (lookup_atom s = 0)); [by left | right; by apply lookup_atom_sound].
Qed.

Lemma safe_parse_rest : safe parse_rest (fun s => bytes_ok s).
Proof.
  intros b Hb. destruct (chunk_enough (zlen (rest b)) mret b (rest b) []) as (b'&Hb'&Hpos&Hd&E).
  - split; [done|]. by rewrite app_nil_r.
  - done.
  - revert E. unfold parse_rest, mbind, parser_bind, left. rewrite LEFT_ok, <- zlen_rest by done.
    rewrite Z.ltb_irrefl. intros ->. simpl. destruct Hb' as [? _].
    split_and!; auto using bytes_ok_rest.
Qed.

Lemma parse_rest_copy_rest b : sb_ok b -> parse_rest_copy b = parse_rest b.
Proof.
  intros Hb. destruct (ADVANCE_pending b (rest b) []) as [Hb' _].
  { split; [done|]. by rewrite app_nil_r. }
  unfold parse_rest_copy, parse_rest, mbind, parser_bind, left, peek, lift, advance.
  pose proof Hb as [? ? ? ?].
  rewrite (LEFT_pending b (rest b)) by done. unfold memcpy. rewrite Z.leb_refl.
  rewrite take_ge by (unfold zlen; lia). rewrite ssh_format_copy by (rewrite zlen_rest by done; lia).
  rewrite (LEFT_pending _ _ Hb'). done.
Qed.

Lemma safe_parse_rest_copy : safe parse_rest_copy (fun s => bytes_ok s).
Proof. intros b Hb. rewrite parse_rest_copy_rest by done. by apply safe_parse_rest. Qed.

(** ** Name lists *)

(** The comma-separated names of a text. *)
Fixpoint split_comma (t : bytes) : list bytes :=
  match t with
  | [] => [[]]
  | c :: t =>
      if c =? 44 then [] :: split_comma t
      else match split_comma t with
           | name :: names => (c :: name) :: names
           | [] => [[c]]
           end
  end.

Definition no_comma (t : bytes) : Prop := Forall (fun c => c <> 44) t.

Definition name_fits (name : bytes) : bool := zlen name <=? 64.

Lemma split_comma_cases t :
  (split_comma t = [t] /\ no_comma t) \/
  exists name t', t = name ++ 44 :: t' /\ no_comma name /\ split_comma t = name :: split_comma t'.
Proof.
  induction t as [|c t IH]; [left; by repeat constructor|]. cbn [split_comma].
  destruct (Z.eqb_spec c 44) as [->|Hc].
  - right. exists [], t. by repeat constructor.
  - destruct IH as [[-> Ht]|(name&t'&->&Hn&->)].
    + left. split; [done|]. by constructor.
    + right. exists (c :: name), t'. split_and!; [done| by constructor |done].
Qed.

Lemma length_split_comma_pos t : (1 <= length (split_comma t))%nat.
Proof. destruct (split_comma_cases t) as [[-> _]|(?&?&_&_&->)]; simpl; lia. Qed.

(** What is read at an index. *)
Lemma data_at_rest b pre c t : sb_ok b -> rest b = pre ++ c :: t -> data_at b (pos b + zlen pre) = Done c.
Proof.
  intros [Hp _ _ _] Hr. unfold data_at. pose proof (zlen_nonneg pre).
  replace (Z.to_nat (pos b + zlen pre)) with (Z.to_nat (pos b) + length pre)%nat by (unfold zlen in *; lia).
  rewrite <- lookup_drop. fold (rest b). rewrite Hr, list_lookup_middle; done.
Qed.

Lemma count_atoms_spec limit t : forall b pre count, sb_ok b -> rest b = pre ++ t -> count <= limit ->
  count_atoms limit (length t) (pos b + zlen pre) b count
  = let n := count + Z.of_nat (length (split_comma t)) - 1 in Done (if limit <? n then None else Some n).
Proof.
  induction t as [|c t IH]; intros b pre count Hb Hr Hc; cbn [length count_atoms split_comma].
  - simpl. rewrite (proj2 (Z.ltb_ge _ _)) by lia. do 2 f_equal. lia.
  - rewrite (data_at_rest b pre c t Hb Hr). cbn [mbind outcome_bind]. pose proof (length_split_comma_pos t).
    assert (Hr' : rest b = (pre ++ [c]) ++ t) by by rewrite <- app_assoc.
    replace (pos b + zlen pre + 1) with (pos b + zlen (pre ++ [c])) by (rewrite zlen_app; change (zlen [c]) with 1; lia).
    destruct (c =? 44).
    + cbn [length]. destruct (Z.leb_spec limit count).
      * cbv zeta. rewrite (proj2 (Z.ltb_lt _ _)); [done|lia].
      * rewrite (IH b (pre ++ [c]) (count + 1) Hb Hr') by lia. cbv zeta.
        by replace (count + 1 + Z.of_nat (length (split_comma t)) - 1)
          with (count + Z.of_nat (S (length (split_comma t))) - 1) by lia.
    + rewrite (IH b (pre ++ [c]) count Hb Hr') by lia. destruct (split_comma t); [simpl in *; lia | done].
Qed.

Lemma scan_atom_no_comma name : forall b pre t, sb_ok b -> rest b = pre ++ name ++ t ->
  no_comma name -> zlen pre <= 64 -> (t = [] \/ exists t', t = 44 :: t') ->
  scan_atom (length (name ++ t)) (zlen pre) b = Done (if zlen pre + zlen name <=? 64 then Some (zlen pre + zlen name) else None).
Proof.
  induction name as [|c name IH]; intros b pre t Hb Hr Hn Hk Ht.
  - rewrite zlen_nil, Z.add_0_r, (proj2 (Z.leb_le _ _)) by lia. destruct Ht as [->|[t' ->]]; [done|].
    cbn [app length scan_atom]. change (HERE b (zlen pre)) with (data_at b (pos b + zlen pre)).
    by rewrite (data_at_rest b pre 44 t' Hb Hr).
  - inversion_clear Hn as [|? ? Hc Hn']. cbn [app length scan_atom].
    change (HERE b (zlen pre)) with (data_at b (pos b + zlen pre)). rewrite (data_at_rest b pre c (name ++ t) Hb Hr).
    cbn [mbind outcome_bind]. rewrite zlen_cons, (proj2 (Z.eqb_neq _ _)) by done.
    pose proof (zlen_nonneg name). destruct (Z.eqb_spec (zlen pre) 64).
    + rewrite (proj2 (Z.leb_gt _ _)); [done|lia].
    + replace (zlen pre + 1) with (zlen (pre ++ [c])) by (rewrite zlen_app; done).
      rewrite (IH b (pre ++ [c]) t Hb) by (done || (rewrite zlen_app; change (zlen [c]) with 1; lia) || by rewrite <- app_assoc).
      rewrite zlen_app. change (zlen [c]) with 1. by replace (zlen pre + 1 + zlen name) with (zlen pre + (zlen name + 1)) by lia.
Qed.

(** One step of the list parser: a name and the comma behind it, or the last
    name. *)
Lemma parse_next_atom_step b name t :
  pending b (name ++ t) -> no_comma name -> (t = [] \/ exists t', t = 44 :: t') ->
  parse_next_atom b
  = if name_fits name then (Done (lookup_atom name), ADVANCE (zlen name + 1) b) else (Reject, b).
Proof.
  intros Hb Hn Ht. pose proof (LEFT_pending b _ Hb) as HL. unfold parse_next_atom, name_fits. pose proof Hb as [Hok Hr].
  pose proof Hok as [Hp _ _ _]. unfold mbind, parser_bind, left. rewrite (proj2 (Z.leb_le _ _)) by lia. cbn [assert_that].
  rewrite HL. unfold zlen at 1. rewrite Nat2Z.id.
  pose proof (scan_atom_no_comma name b [] t Hok Hr Hn ltac:(done) Ht) as E. rewrite zlen_nil, Z.add_0_l in E. rewrite E.
  destruct (zlen name <=? 64); [|done].
  destruct (Z.eqb_spec (zlen name) 0) as [Hz|Hz]; [by destruct name|].
  unfold peek. rewrite Hr. unfold memcpy. rewrite zlen_app. pose proof (zlen_nonneg t). rewrite (proj2 (Z.leb_le _ _)) by lia.
  unfold zlen at 1. rewrite Nat2Z.id, take_app_length. done.
Qed.

Lemma parse_n_atoms_spec t b :
  pending b t ->
  (parse_n_atoms (length (split_comma t)) b).1
  = if forallb name_fits (split_comma t) then Done (lookup_atom <$> split_comma t) else Reject.
Proof.
  remember (length t) as n eqn:En. revert t b En.
  induction (lt_wf n) as [n _ IH]; intros t b -> Hb.
  destruct (split_comma_cases t) as [[-> Hn]|(name&t'&->&Hn&->)].
  - cbn [length parse_n_atoms forallb]. unfold mbind, parser_bind.
    rewrite (parse_next_atom_step b t []) by (rewrite ?app_nil_r; auto).
    by destruct (name_fits t).
  - cbn [length parse_n_atoms forallb]. unfold mbind at 1, parser_bind at 1.
    rewrite (parse_next_atom_step b name (44 :: t')) by eauto.
    destruct (name_fits name); [|done]. simpl andb.
    destruct (ADVANCE_pending b (name ++ [44]) t') as [Hb' _]; [by rewrite <- app_assoc|].
    rewrite zlen_app in Hb'. change (zlen [44]) with 1 in Hb'.
    assert (Hlen : (length t' < length (name ++ 44%Z :: t'))%nat) by (rewrite length_app; simpl; lia).
    specialize (IH _ Hlen t' _ eq_refl Hb').
    unfold mbind, parser_bind. revert IH. destruct (parse_n_atoms _ _) as [[l| |c] b''];
      simpl; destruct (forallb name_fits (split_comma t')); intros E; by simplify_eq/=.
Qed.

(** The names of a list, looked up; [None] when the list is refused. *)
Definition atoms_of_text (limit : Z) (t : bytes) : outcome (list Z) :=
  let names := split_comma t in
  if limit <? Z.of_nat (length names) then Reject
  else if forallb name_fits names then Done (lookup_atom <$> names) else Reject.

Lemma parse_atoms_counted limit b t :
  pending b t -> 1 <= limit ->
  parse_atoms limit b = if zlen t =? 0 then (Done [], b)
    else if limit <? Z.of_nat (length (split_comma t)) then (Reject, b) else parse_n_atoms (length (split_comma t)) b.
Proof.
  intros Hb Hl. pose proof (LEFT_pending b t Hb) as HL. unfold parse_atoms, mbind, parser_bind, lift, left. rewrite (proj2 (Z.eqb_neq _ _)) by lia. cbn [negb assert_that].
  rewrite HL. destruct (Z.eqb_spec (zlen t) 0); [done|].
  pose proof Hb as [Hok Hr]. pose proof (zlen_rest b Hok) as Hz. rewrite Hr in Hz.
  replace (Z.to_nat (capacity b - pos b)) with (length t) by (unfold zlen in *; lia).
  pose proof (count_atoms_spec limit t b [] 1 Hok Hr Hl) as E. rewrite zlen_nil, Z.add_0_r in E. rewrite E. cbv zeta.
  replace (1 + Z.of_nat (length (split_comma t)) - 1) with (Z.of_nat (length (split_comma t))) by lia.
  destruct (limit <? Z.of_nat (length (split_comma t))); [done|]. by rewrite Nat2Z.id.
Qed.

Lemma parse_atoms_pending limit b t :
  pending b t -> 1 <= limit ->
  (parse_atoms limit b).1 = if zlen t =? 0 then Done [] else atoms_of_text limit t.
Proof.
  intros Hb Hl. rewrite (parse_atoms_counted limit b t Hb Hl). unfold atoms_of_text.
  destruct (zlen t =? 0); [done|]. cbv zeta. destruct (limit <? _); [done|]. by apply parse_n_atoms_spec.
Qed.

Lemma safe_parse_atom_list limit :
  1 <= limit -> safe (parse_atom_list limit) (fun l => Forall (fun a => a = 0 \/ is_atom a) l).
Proof.
  intros Hl. eapply safe_bind; [apply safe_parse_sub_buffer|]. intros sub Hsub.
  apply safe_lift. rewrite (parse_atoms_pending limit sub (rest sub)) by done.
  destruct (zlen (rest sub) =? 0); [constructor|]. unfold atoms_of_text.
  destruct (_ <? _); [done|]. destruct (forallb _ _); [|done].
  apply Forall_fmap, Forall_true. intros name. simpl.
  destruct (decide (lookup_atom name = 0)); [by left | right; by apply lookup_atom_sound].
Qed.

(** [safe_past p Q]: on a valid cursor that can stand behind its end, [p] reads
    only inside the memory and never crashes, and leaves a cursor over the same
    memory, not earlier and at most one octet behind the end. *)
Definition safe_past {A} (p : Parser A) (Q : A -> Prop) : Prop :=
  forall b, sb_ok b -> capacity b < 2 ^ 32 - 1 ->
  let '(r, b') := p b in
  capacity b' = capacity b /\ data b' = data b /\ pos b <= pos b' <= capacity b + 1 /\
  match r with Done a => Q a | Reject => True | Crash _ => False end.

Lemma atom_range name : lookup_atom name = 0 \/ is_atom (lookup_atom name).
Proof. destruct (decide (lookup_atom name = 0)); [by left | right; by apply lookup_atom_sound]. Qed.

Lemma next_atom_past b t : pending b t -> capacity b < 2 ^ 32 - 1 ->
  let '(r, b') := parse_next_atom b in
  capacity b' = capacity b /\ data b' = data b /\ pos b <= pos b' <= capacity b + 1 /\
  match r with
  | Done a => (a = 0 \/ is_atom a) /\ ((split_comma t = [t]) \/ exists name t', t = name ++ 44 :: t' /\ split_comma t = name :: split_comma t' /\ pending b' t')
  | Reject => True | Crash _ => False
  end.
Proof.
  intros Hb Hc. pose proof Hb as [Hok Hr]. pose proof (zlen_rest b Hok) as Hz. rewrite Hr in Hz. pose proof Hok as [Hp _ _ _].
  destruct (split_comma_cases t) as [[Es Hn]|(name&t'&->&Hn&Es)].
  - rewrite (parse_next_atom_step b t []) by (rewrite ?app_nil_r; auto). pose proof (zlen_nonneg t).
    destruct (name_fits t); cbn; [|split_and!; done || lia]. rewrite u32_small by lia.
    split_and!; [done|done|lia|lia| apply atom_range | by left].
  - rewrite (parse_next_atom_step b name (44 :: t')) by eauto. rewrite zlen_app, zlen_cons in Hz.
    pose proof (zlen_nonneg name). pose proof (zlen_nonneg t').
    destruct (name_fits name); [|cbn; split_and!; done || lia].
    destruct (ADVANCE_pending b (name ++ [44]) t') as [Hb' _]; [by rewrite <- app_assoc|].
    rewrite zlen_app in Hb'. change (zlen [44]) with 1 in Hb'.
    split_and!; [done|done| | |apply atom_range | right; exists name, t'; by split_and!]; cbn; rewrite u32_small by lia; lia.
Qed.

Lemma safe_parse_next_atom : safe_past parse_next_atom (fun a => a = 0 \/ is_atom a).
Proof.
  intros b Hb Hc. pose proof (next_atom_past b (rest b) (conj Hb eq_refl) Hc) as H.
  destruct (parse_next_atom b) as [[a| |] b']; tauto.
Qed.

Lemma n_atoms_past t : forall b, pending b t -> capacity b < 2 ^ 32 - 1 ->
  let '(r, b') := parse_n_atoms (length (split_comma t)) b in
  capacity b' = capacity b /\ data b' = data b /\ pos b <= pos b' <= capacity b + 1 /\
  match r with Done l => Forall (fun a => a = 0 \/ is_atom a) l | Reject => True | Crash _ => False end.
Proof.
  induction t as [t IH] using (induction_ltof1 _ (@length Z)). unfold ltof in IH. intros b Hb Hc.
  pose proof (next_atom_past b t Hb Hc) as H. pose proof (length_split_comma_pos t) as Hl.
  assert (Hone : forall n, n = length (split_comma t) -> n = S (pred n)) by lia.
  rewrite (Hone _ eq_refl). cbn [parse_n_atoms]. unfold mbind at 1, parser_bind at 1.
  destruct (parse_next_atom b) as [[a| |] b1]; [|tauto|tauto].
  destruct H as (E1 & E2 & E3 & Ha & [Es|(name & t' & -> & Es & Hb')]).
  - rewrite Es. cbn. split_and!; try done; try lia. by constructor.
  - rewrite Es. cbn [length pred]. rewrite <- E1 in Hc.
    specialize (IH t' ltac:(rewrite length_app; cbn; lia) b1 Hb' Hc).
    unfold mbind, parser_bind. destruct (parse_n_atoms _ b1) as [[l| |] b2]; [|intuition (congruence || lia)..].
    destruct IH as (F1 & F2 & F3 & Hf). cbn. split_and!; try congruence; try lia. by constructor.
Qed.

Lemma safe_parse_atoms limit : 1 <= limit -> safe_past (parse_atoms limit) (Forall (fun a => a = 0 \/ is_atom a)).
Proof.
  intros Hl b Hb Hc. rewrite (parse_atoms_counted limit b (rest b)) by done. destruct Hb as [Hp ? ? ?].
  destruct (zlen (rest b) =? 0); [split_and!; done || lia|]. destruct (_ <? _); [split_and!; done || lia|].
  by apply n_atoms_past.
Qed.

Lemma safe_parse_eod : safe parse_eod (fun _ => True).
Proof. intros b Hb. cbn. split_and!; done || lia. Qed.

(** ** Whole packets *)

(** A typed packet: the fields of an SSH message, as the callers of
    [ssh_format] and of the parsers use them. *)
Inductive field :=
  | FByte (c : Z)
  | FUint32 (i : Z)
  | FString (s : bytes)
  | FBignum (n : Z)
  | FAtom (a : Z)
  | FAtoms (l : list Z).

(** What the receiver expects, with the limits it passes. *)
Inductive ftype :=
  | TByte | TUint32 | TString | TBignum (limit : Z) | TAtom | TAtoms (limit : Z).

Definition field_conv (f : field) : ascii :=
  match f with
  | FByte _ => "c" | FUint32 _ => "i" | FString _ => "s" | FBignum _ => "n"
  | FAtom _ => "a" | FAtoms _ => "A"
  end%char.

Definition field_args (f : field) : list fmt_arg :=
  match f with
  | FByte c => [VWord c]
  | FUint32 i => [VWord i]
  | FString s => [VWord (zlen s); VData s]
  | FBignum n => [VNum n]
  | FAtom a => [VWord a]
  | FAtoms l => [VList l]
  end.

Fixpoint packet_format (fs : list field) : string :=
  match fs with
  | [] => EmptyString
  | f :: fs => String "%" (String (field_conv f) (packet_format fs))
  end.

Definition packet_args (fs : list field) : list fmt_arg := fs ≫= field_args.

Definition parse_field (t : ftype) : Parser field :=
  match t with
  | TByte => c ← parse_uint8; mret (FByte c)
  | TUint32 => i ← parse_uint32; mret (FUint32 i)
  | TString => s ← parse_string; mret (FString s)
  | TBignum limit => n ← parse_bignum limit; mret (FBignum n)
  | TAtom => a ← parse_atom; mret (FAtom a)
  | TAtoms limit => l ← parse_atom_list limit; mret (FAtoms l)
  end.

(** A message handler's parser: the fields in order, then [parse_eod]. *)
Fixpoint parse_packet (ts : list ftype) : Parser (list field) :=
  match ts with
  | [] => parse_eod ≫= fun eod : bool => if eod then mret [] else reject
  | t :: ts => f ← parse_field t; fs ← parse_packet ts; mret (f :: fs)
  end.

(** The values a field may carry for a given expectation. *)
Definition field_ok (f : field) (t : ftype) : Prop :=
  match f, t with
  | FByte c, TByte => is_byte c
  | FUint32 i, TUint32 => 0 <= i < 2 ^ 32
  | FString s, TString => bytes_ok s /\ zlen s < 2 ^ 31
  | FBignum n, TBignum limit =>
      zlen (bignum_format_s n) < octets_max /\ Bignum.unsigned_octets n < octets_max /\
      (limit = 0 \/ (zlen (bignum_format_s n) <= limit + 1 /\ limit + 1 < 2 ^ 32))
  | FAtom a, TAtom => is_atom a
  | FAtoms l, TAtoms limit => Forall is_atom l /\ 1 <= limit /\ zlen l <= limit
  | _, _ => False
  end.

(** The octets of a field. *)
Definition counted (body : bytes) : bytes := WRITE_UINT32 (zlen body) ++ body.

Definition field_octets (f : field) : bytes :=
  match f with
  | FByte c => [u8 c]
  | FUint32 i => WRITE_UINT32 i
  | FString s => counted s
  | FBignum n => counted (bignum_format_s n)
  | FAtom a => counted (get_atom_name a)
  | FAtoms l => counted (join_atoms 0 l)
  end.

Definition packet_octets (fs : list field) : bytes := fs ≫= field_octets.

(** *** Formatting a typed packet *)

Lemma atom_in_table_of a : is_atom a -> atom_in_table a = true.
Proof.
  unfold is_atom, atom_in_table, TOTAL_KEYWORDS. change (zlen atom_table) with 116. lia.
Qed.

Lemma write_field f t rest args buffer ptrs :
  field_ok f t ->
  write_loop (String "%" (String (field_conv f) rest)) None (field_args f ++ args) buffer ptrs
  = write_loop rest None args (buffer ++ octets (field_octets f)) ptrs.
Proof.
  destruct f, t; simpl field_ok; try done; intros Hok; cbn -[WRITE_UINT32 u8 memcpy atom_in_table get_atom_name];
    rewrite ?app_nil_r; try done.
  - unfold memcpy. rewrite Z.leb_refl. simpl mbind. unfold outcome_bind.
    rewrite take_ge by (unfold zlen; lia). by rewrite app_nil_r.
  - assert (Ha : a <> 0) by (unfold is_atom in Hok; lia).
    rewrite (proj2 (Z.eqb_neq _ _)), atom_in_table_of by done. simpl negb. cbv iota.
    simpl mbind. unfold outcome_bind. rewrite app_nil_r.
    by rewrite <- zlen_get_atom_name by auto using atom_in_table_of.
  - destruct Hok as [Hl _]. rewrite (proj2 (forallb_forall _ _)).
    + simpl. by rewrite app_nil_r.
    + intros a Ha. apply atom_in_table_of. rewrite Forall_forall in Hl. apply Hl.
      by apply list_elem_of_In.
Qed.

Lemma write_packet fs ts buffer ptrs :
  Forall2 field_ok fs ts ->
  write_loop (packet_format fs) None (packet_args fs) buffer ptrs
  = Done (buffer ++ octets (packet_octets fs), ptrs).
Proof.
  intros H. revert buffer. induction H as [|f t fs ts Hf _ IH]; intros buffer.
  - by rewrite app_nil_r.
  - cbn [packet_format packet_args packet_octets mbind list_bind].
    rewrite (write_field f t) by done. unfold packet_args in IH. rewrite IH.
    unfold octets, packet_octets. by rewrite fmap_app, app_assoc.
Qed.

Lemma format_consistent_packet fs : format_consistent (packet_format fs) None = true.
Proof. induction fs as [|[] fs IH]; [done|..]; simpl; done. Qed.

Lemma field_args_ok f t : field_ok f t -> Forall arg_ok (field_args f).
Proof.
  destruct f, t; simpl; try done; intros H; repeat constructor; simpl;
    rewrite ?zlen_bignum_format_s in *; try (unfold is_atom, is_byte, TOTAL_KEYWORDS in *; lia).
  apply zlen_nonneg.
Qed.

Lemma packet_args_ok fs ts : Forall2 field_ok fs ts -> Forall arg_ok (packet_args fs).
Proof.
  induction 1; [constructor|]. apply Forall_app. split; [by eapply field_args_ok|done].
Qed.

(** *** Parsing it back *)

Lemma split_comma_app name t : no_comma name -> split_comma (name ++ 44 :: t) = name :: split_comma t.
Proof.
  induction 1 as [|c name Hc _ IH]; [done|]. cbn [app split_comma].
  by rewrite (proj2 (Z.eqb_neq _ _)), IH.
Qed.

Lemma split_comma_single name : no_comma name -> split_comma name = [name].
Proof.
  induction 1 as [|c name Hc _ IH]; [done|]. cbn [split_comma].
  by rewrite (proj2 (Z.eqb_neq _ _)), IH.
Qed.

Lemma get_atom_name_facts a :
  is_atom a -> no_comma (get_atom_name a) /\ name_fits (get_atom_name a) = true
  /\ 1 <= zlen (get_atom_name a) /\ bytes_ok (get_atom_name a).
Proof.
  intros Ha. destruct (atom_ok_spec a Ha) as (_&Hl&Hlen&Hc).
  unfold name_fits. rewrite <- Hl. split_and!; [|lia..|].
  - eapply Forall_impl; [exact Hc|]. simpl. tauto.
  - eapply Forall_impl; [exact Hc|]. unfold is_byte. simpl. lia.
Qed.

Lemma split_join_atoms n name l :
  no_comma name -> Forall is_atom l ->
  split_comma (name ++ join_atoms (S n) l) = name :: (get_atom_name <$> l).
Proof.
  intros Hn Hl. revert n name Hn. induction Hl as [|a l Ha _ IH]; intros n name Hn.
  - simpl. rewrite app_nil_r. by apply split_comma_single.
  - cbn [join_atoms]. rewrite (proj2 (Z.eqb_neq _ _)) by (unfold is_atom in Ha; lia).
    cbn [app]. rewrite split_comma_app by done.
    rewrite IH by (by apply get_atom_name_facts). done.
Qed.

Lemma join_atoms_ok n l : Forall is_atom l -> bytes_ok (join_atoms n l).
Proof.
  intros Hl. revert n. induction Hl as [|a l Ha _ IH]; intros n; [constructor|].
  cbn [join_atoms]. destruct (a =? 0); [apply IH|]. apply Forall_app_2.
  - destruct n; [constructor|]. apply Forall_singleton. unfold is_byte. lia.
  - apply Forall_app_2; [by apply get_atom_name_facts | apply IH].
Qed.

Lemma atoms_of_text_join limit l :
  Forall is_atom l -> l <> [] -> zlen l <= limit ->
  atoms_of_text limit (join_atoms 0 l) = Done l /\ zlen (join_atoms 0 l) <> 0.
Proof.
  intros Hl Hne Hlim. destruct Hl as [|a l Ha Hl]; [done|].
  destruct (get_atom_name_facts a Ha) as (Hc&Hf&Hlen&_).
  cbn [join_atoms]. rewrite (proj2 (Z.eqb_neq _ _)) by (unfold is_atom in Ha; lia).
  cbn [app]. split; [|rewrite zlen_app; pose proof (zlen_nonneg (join_atoms 1 l)); lia].
  unfold atoms_of_text. rewrite split_join_atoms by done. cbv zeta. cbn [length forallb].
  rewrite length_fmap, (proj2 (Z.ltb_ge _ _)), Hf by (rewrite zlen_cons in Hlim; unfold zlen in Hlim; lia).
  rewrite (proj2 (forallb_forall _ _)).
  - rewrite fmap_cons, (proj1 (atom_ok_spec a Ha)). do 2 f_equal.
    rewrite <- list_fmap_compose. trans (id <$> l); [|apply list_fmap_id].
    apply Forall_fmap_ext_1.
    eapply Forall_impl; [exact Hl|]. intros x Hx. by apply atom_ok_spec.
  - intros name Hin. apply list_elem_of_In, list_elem_of_fmap in Hin as (x&->&Hx).
    rewrite Forall_forall in Hl. by apply get_atom_name_facts, Hl.
Qed.

Lemma parse_uint32_pending b i r :
  pending b (WRITE_UINT32 i ++ r) -> 0 <= i < 2 ^ 32 ->
  exists b', parse_uint32 b = (Done i, b') /\ pending b' r.
Proof.
  intros Hb Hi. destruct (chunk_enough 4 (fun p => mret (READ_UINT32 p)) b _ r Hb eq_refl)
    as (b'&Hb'&_&_&E).
  exists b'. split; [|done]. etrans; [exact E|]. rewrite <- (app_nil_r (WRITE_UINT32 i)).
  by rewrite READ_WRITE_UINT32.
Qed.

Lemma parse_string_counted b s r :
  pending b (counted s ++ r) -> zlen s < 2 ^ 32 ->
  exists b', parse_string b = (Done s, b') /\ pending b' r.
Proof.
  intros Hb Hs. unfold counted in Hb. rewrite <- app_assoc in Hb. pose proof (zlen_nonneg s).
  destruct (parse_uint32_pending b (zlen s) (s ++ r) Hb ltac:(lia)) as (b1&E1&Hb1).
  destruct (chunk_enough (zlen s) mret b1 s r Hb1 eq_refl) as (b2&Hb2&_&_&E2).
  exists b2. split; [|done]. unfold parse_string. unfold mbind at 1, parser_bind at 1. by rewrite E1.
Qed.

Lemma parse_string_then {A} (k : bytes -> Parser A) b s r :
  pending b (counted s ++ r) -> zlen (counted s) < 2 ^ 32 ->
  exists b', (s ← parse_string; k s) b = k s b' /\ pending b' r.
Proof.
  intros Hb Hs. unfold counted in Hs. rewrite zlen_app, zlen_WRITE_UINT32 in Hs.
  destruct (parse_string_counted b s r Hb ltac:(lia)) as (b'&E&Hb').
  exists b'. unfold mbind, parser_bind. by rewrite E.
Qed.

Lemma parse_atom_list_pending limit b l r :
  pending b (counted (join_atoms 0 l) ++ r) -> zlen (counted (join_atoms 0 l)) < 2 ^ 32 ->
  Forall is_atom l -> 1 <= limit -> zlen l <= limit ->
  exists b', parse_atom_list limit b = (Done l, b') /\ pending b' r.
Proof.
  intros Hb Hlen Hl Hlim Hn.
  destruct (parse_string_then (fun d => mret (simple_buffer_init (zlen d) d)) b _ r Hb Hlen)
    as (b'&E&Hb').
  exists b'. split; [|done]. unfold parse_atom_list, parse_sub_buffer.
  unfold mbind at 1, parser_bind at 1. rewrite E. unfold lift. simpl.
  unfold counted in Hlen. rewrite zlen_app, zlen_WRITE_UINT32 in Hlen.
  rewrite (parse_atoms_pending _ _ (join_atoms 0 l)); [|apply pending_init; [by apply join_atoms_ok|lia]|done].
  destruct (decide (l = [])) as [->|Hne]; [done|].
  destruct (atoms_of_text_join limit l Hl Hne Hn) as [-> Hz].
  by rewrite (proj2 (Z.eqb_neq _ _) Hz).
Qed.

Lemma parse_uint8_pending b c r :
  pending b (c :: r) -> exists b', parse_uint8 b = (Done c, b') /\ pending b' r.
Proof.
  intros Hb. destruct (chunk_enough 1 mret b [c] r Hb eq_refl) as (b'&Hb'&_&_&E).
  exists b'. split; [|done]. rewrite parse_uint8_chunk by apply Hb.
  unfold mbind at 1, parser_bind at 1, parse_octets. by rewrite E.
Qed.

(** Run a parser whose outcome is known, then its continuation. *)
Lemma bind_Done {A B} (p : Parser A) (k : A -> Parser B) b a b' :
  p b = (Done a, b') -> (p ≫= k) b = k a b'.
Proof. intros E. unfold mbind, parser_bind. by rewrite E. Qed.

Lemma parse_field_pending f t b r :
  field_ok f t -> zlen (field_octets f) < 2 ^ 32 -> pending b (field_octets f ++ r) ->
  exists b', parse_field t b = (Done f, b') /\ pending b' r.
Proof.
  intros Hok Hlen Hb. destruct f, t; try done; cbn [parse_field field_octets field_ok] in *.
  - rewrite u8_small in Hb by apply Hok. destruct (parse_uint8_pending b c r Hb) as (b'&E&Hb').
    exists b'. by rewrite (bind_Done _ _ _ _ _ E).
  - destruct (parse_uint32_pending b i r Hb Hok) as (b'&E&Hb').
    exists b'. by rewrite (bind_Done _ _ _ _ _ E).
  - destruct (parse_string_then (fun s => mret (FString s)) b s r Hb Hlen) as (b'&E&Hb'). by exists b'.
  - destruct Hok as (Hmax&_&Hlim).
    destruct (parse_string_then (fun digits => if negb (limit =? 0) && (u32 (limit + 1) <? zlen digits)
      then reject else mret (bignum_parse_s digits)) b _ r Hb Hlen) as (b'&E&Hb').
    exists b'. split; [|done]. erewrite bind_Done; [|etrans; [exact E|]]; [done|].
    rewrite (proj1 (format_s_correct n Hmax)). destruct Hlim as [->|[Hl Hl']]; [done|].
    pose proof (zlen_nonneg (bignum_format_s n)).
    rewrite u32_small, (proj2 (Z.ltb_ge _ _)), andb_false_r by lia. done.
  - destruct (parse_string_then (fun start => if 64 <? zlen start then reject
      else mret (lookup_atom start)) b _ r Hb Hlen) as (b'&E&Hb').
    destruct (get_atom_name_facts a Hok) as (_&Hf&_&_). unfold name_fits in Hf.
    exists b'. split; [|done]. erewrite bind_Done; [|etrans; [exact E|]]; [done|].
    rewrite (proj2 (Z.ltb_ge _ _)) by lia. by rewrite (proj1 (atom_ok_spec a Hok)).
  - destruct Hok as (Hl&Hlim&Hn).
    destruct (parse_atom_list_pending limit b l r Hb Hlen Hl Hlim Hn) as (b'&E&Hb').
    exists b'. by rewrite (bind_Done _ _ _ _ _ E).
Qed.

Lemma parse_packet_pending fs ts b :
  Forall2 field_ok fs ts -> zlen (packet_octets fs) < 2 ^ 32 -> pending b (packet_octets fs) ->
  exists b', parse_packet ts b = (Done fs, b').
Proof.
  intros H. revert b. induction H as [|f t fs ts Hf _ IH]; intros b Hlen Hb.
  - exists b. cbn [parse_packet]. unfold parse_eod, mbind, parser_bind, left.
    by rewrite (LEFT_pending b [] Hb).
  - cbn [packet_octets mbind list_bind] in Hlen, Hb. fold (packet_octets fs) in Hlen, Hb.
    rewrite zlen_app in Hlen. pose proof (zlen_nonneg (field_octets f)).
    pose proof (zlen_nonneg (packet_octets fs)).
    destruct (parse_field_pending f t b _ Hf ltac:(lia) Hb) as (b1&E1&Hb1).
    destruct (IH b1 ltac:(lia) Hb1) as (b2&E2). exists b2.
    cbn [parse_packet]. by rewrite (bind_Done _ _ _ _ _ E1), (bind_Done _ _ _ _ _ E2).
Qed.

Lemma field_octets_ok f t : field_ok f t -> bytes_ok (field_octets f).
Proof.
  destruct f, t; simpl; try done; intros Hok.
  - apply Forall_singleton. apply u8_range.
  - apply WRITE_UINT32_ok.
  - apply Forall_app_2; [apply WRITE_UINT32_ok | tauto].
  - apply Forall_app_2; [apply WRITE_UINT32_ok | apply bignum_format_s_ok].
  - apply Forall_app_2; [apply WRITE_UINT32_ok | by apply get_atom_name_facts].
  - apply Forall_app_2; [apply WRITE_UINT32_ok | apply join_atoms_ok; tauto].
Qed.

Lemma packet_octets_ok fs ts : Forall2 field_ok fs ts -> bytes_ok (packet_octets fs).
Proof.
  induction 1; [constructor|]. apply Forall_app_2; [by eapply field_octets_ok | done].
Qed.

(** ** Theorems *)

(** C15.  Parsing inverts formatting: a message built by [ssh_format] from any
    sequence of typed fields is taken apart again by the matching sequence of
    parsers into the same values, with nothing left over; the octets in
    between are the concatenation of the fields' encodings. *)
Theorem packet_roundtrip fs ts
  (Hok : Forall2 field_ok fs ts) (Hlen : zlen (packet_octets fs) < 2 ^ 32) :
  exists packet b',
    ssh_format (packet_format fs) (packet_args fs) = Done packet
    /\ packet = packet_octets fs
    /\ parse_packet ts (simple_buffer_init (zlen packet) packet) = (Done fs, b').
Proof.
  pose proof (packet_octets_ok fs ts Hok) as Hbytes.
  destruct (parse_packet_pending fs ts (simple_buffer_init (zlen (packet_octets fs)) (packet_octets fs)))
    as [b' E]; [done..| by apply pending_init |].
  exists (packet_octets fs), b'. split_and!; [|done|done].
  pose proof (write_packet fs ts [] [] Hok) as Hw. simpl in Hw.
  pose proof (loops_agree _ None _ [] [] _ _ (format_consistent_packet fs)
    (packet_args_ok fs ts Hok) Hw) as L.
  rewrite zlen_octets in L. pose proof (zlen_nonneg (packet_octets fs)).
  rewrite (u32_small (zlen (packet_octets fs))) in L by lia.
  unfold ssh_format, ssh_format_cells, ssh_vformat_length, ssh_vformat_write.
  change (u32 (zlen [])) with 0 in L. rewrite L. simpl. rewrite Hw. simpl.
  rewrite zlen_octets, Z.ltb_irrefl, Z.eqb_refl. simpl. by rewrite mapM_octets.
Qed.

Definition sample_fields : list field :=
  [FByte 20; FAtoms [17; 3]; FString [1; 2; 3]; FBignum (-70000); FUint32 32768; FAtom 24].
Definition sample_types : list ftype :=
  [TByte; TAtoms 3; TString; TBignum 4; TUint32; TAtom].

Lemma sample_fields_ok : Forall2 field_ok sample_fields sample_types.
Proof.
  unfold sample_fields, sample_types. repeat (apply Forall2_cons_2 || apply Forall2_nil_2).
  all: unfold field_ok; split_and?; try (by vm_compute).
  - by repeat constructor.
  - by repeat constructor.
  - right. by vm_compute.
Qed.

Theorem packet_roundtrip_witness :
  Forall2 field_ok sample_fields sample_types /\
  exists packet b',
    ssh_format (packet_format sample_fields) (packet_args sample_fields) = Done packet
    /\ packet = packet_octets sample_fields
    /\ parse_packet sample_types (simple_buffer_init (zlen packet) packet) = (Done sample_fields, b').
Proof.
  split; [exact sample_fields_ok|].
  apply (packet_roundtrip sample_fields sample_types sample_fields_ok). vm_compute; reflexivity.
Defined.

(** C20.  Memory safety of the packet parsers, all but [parse_utf8]. On a cursor
    that stands inside its memory each of them, whether it accepts or refuses,
    reads only inside that memory, never moves the cursor backwards, and returns
    a value of the announced range; and it leaves such a cursor again, except
    for [parse_next_atom] and [parse_atoms], which mark the end of a list by a
    position one behind the end (of a memory below 2^32 - 1 octets, where that
    position does not wrap around). [parse_bignum] takes every limit, 0 for
    none; the lists need one of at least 1, which the source asserts. *)
Theorem parsers_memory_safe n limit (Hn : 0 <= n) (Hlimit : 1 <= limit) :
  safe parse_uint32 (fun i => 0 <= i < 2 ^ 32)
  /\ safe parse_uint16 (fun i => 0 <= i < 2 ^ 16)
  /\ safe parse_uint8 is_byte /\ safe parse_boolean is_byte
  /\ safe parse_string (fun s => bytes_ok s /\ zlen s < 2 ^ 32)
  /\ safe parse_string16 (fun s => bytes_ok s /\ zlen s < 2 ^ 16)
  /\ safe parse_string_copy (fun s => bytes_ok s /\ zlen s < 2 ^ 32)
  /\ safe (parse_octets n) (fun s => bytes_ok s /\ zlen s = n)
  /\ safe parse_sub_buffer sb_ok
  /\ (forall any, safe (parse_bignum any) (fun _ => True))
  /\ safe parse_atom (fun a => a = 0 \/ is_atom a)
  /\ safe (parse_atom_list limit) (fun l => Forall (fun a => a = 0 \/ is_atom a) l)
  /\ safe parse_rest bytes_ok /\ safe parse_rest_copy bytes_ok
  /\ safe parse_eod (fun _ => True)
  /\ safe_past parse_next_atom (fun a => a = 0 \/ is_atom a)
  /\ safe_past (parse_atoms limit) (Forall (fun a => a = 0 \/ is_atom a))
  /\ (forall b, parse_atoms 0 b = (Crash AssertFail, b)).
Proof.
  split_and!; eauto using safe_parse_uint32, safe_parse_uint16, safe_parse_uint8,
    safe_parse_boolean, safe_parse_string, safe_parse_string16, safe_parse_string_copy,
    safe_parse_octets, safe_parse_sub_buffer, safe_parse_bignum, safe_parse_atom,
    safe_parse_atom_list, safe_parse_rest, safe_parse_rest_copy, safe_parse_eod,
    safe_parse_next_atom, safe_parse_atoms.
Qed.

Theorem parsers_memory_safe_witness :
  0 <= 4 /\ safe (parse_octets 4) (fun s => bytes_ok s /\ zlen s = 4)
  /\ safe_past (parse_atoms 4) (Forall (fun a => a = 0 \/ is_atom a))
  /\ pos (parse_atoms 4 (simple_buffer_init 3 [97; 44; 98])).2 = 4.
Proof.
  assert (H : 0 <= 4) by (vm_compute; discriminate).
  split; [exact H|].
  pose proof (parsers_memory_safe 4 4 H ltac:(lia)) as (_ & _ & _ & _ & _ & _ & _ & H1 & _ & _ & _ & _ & _ & _ & _ & _ & H2 & _).
  split; [exact H1|]. split; [exact H2 | reflexivity].
Defined.

(** Algorithm lists: the name list of a packet is read as the atoms of
    its comma-separated names, unknown and empty names as 0; it is refused
    when it has more names than the limit or a name of more than 64
    characters, and only then. *)
Theorem parse_atom_list_spec limit b t r
  (Hb : pending b (counted t ++ r)) (Ht : zlen t < 2 ^ 32 - 4) (Hlimit : 1 <= limit) :
  exists b', parse_atom_list limit b
    = (if zlen t =? 0 then Done [] else atoms_of_text limit t, b') /\ pending b' r.
Proof.
  destruct (parse_string_then (fun d => mret (simple_buffer_init (zlen d) d)) b t r Hb)
    as (b'&E&Hb'); [unfold counted; rewrite zlen_app, zlen_WRITE_UINT32; lia|].
  exists b'. split; [|done]. unfold parse_atom_list, parse_sub_buffer.
  unfold mbind at 1, parser_bind at 1. rewrite E. unfold lift. simpl.
  rewrite (parse_atoms_pending _ _ t); [done| |done]. apply pending_init; [|lia].
  destruct Hb as [Hok Hr]. pose proof (bytes_ok_rest b Hok) as Hbytes. rewrite Hr in Hbytes.
  unfold counted in Hbytes. apply Forall_app in Hbytes as [Hbytes _].
  by apply Forall_app in Hbytes as [_ Hbytes].
Qed.

Definition sample_names : bytes := bytes_of_string "arcfour,,none,nonsense".

Theorem parse_atom_list_spec_witness :
  (exists b', parse_atom_list 4 (simple_buffer_init 26 (counted sample_names))
    = (if zlen sample_names =? 0 then Done [] else atoms_of_text 4 sample_names, b') /\ pending b' [])
  /\ atoms_of_text 4 sample_names = Done [17; 0; 1; 0].
Proof.
  split; [|vm_compute; reflexivity].
  apply (parse_atom_list_spec 4 (simple_buffer_init 26 (counted sample_names)) sample_names []).
  - rewrite app_nil_r. apply (pending_init (counted sample_names)).
    + apply Forall_app_2; [apply WRITE_UINT32_ok | apply bytes_of_string_ok].
    + vm_compute; reflexivity.
  - vm_compute; reflexivity.
  - vm_compute; discriminate.
Defined.

End Parse.
