(* ===== verification/Wire.v ===== *)
(** What a format writes and what a parser takes, one item at a time: a value
    that fits its field is written in the octets [field_octets], and a parser
    that [takes] these octets returns the value and leaves the rest. *)
From S2P Require Import Prelude Window Bignum Atoms Format Parse.
From Stdlib Require Import Ascii.
Import Bignum Atoms Format Parse.

Module Wire.

(** ** Writing *)

(** A value that fits the field. *)
Definition fits (f : field) : Prop :=
  match f with
  | FByte c => is_byte c
  | FUint32 i => 0 <= i < 2 ^ 32
  | FString s => bytes_ok s /\ zlen s < 2 ^ 31
  | FAtom a => is_atom a
  | FAtoms l => Forall is_atom l /\ zlen (join_atoms 0 l) < 2 ^ 31
  | FBignum n => zlen (bignum_format_s n) < octets_max /\ Bignum.unsigned_octets n < octets_max
  end.

Lemma ssh_format_Done f args l ptrs : format_consistent f None = true -> Forall arg_ok args ->
  write_loop f None args [] [] = Done (Format.octets l, ptrs) -> zlen l < 2 ^ 32 -> ssh_format f args = Done l.
Proof.
  intros Hf Ha Hw Hl. pose proof (loops_agree _ None _ [] [] _ _ Hf Ha Hw) as L. rewrite zlen_octets in L. pose proof (zlen_nonneg l).
  rewrite (u32_small (zlen l)) in L by lia. unfold ssh_format, ssh_format_cells, ssh_vformat_length, ssh_vformat_write.
  change (u32 (zlen [])) with 0 in L. rewrite L. cbn [mbind outcome_bind]. rewrite Hw. cbn [mbind outcome_bind].
  rewrite zlen_octets, Z.ltb_irrefl, Z.eqb_refl. cbn [assert_that mbind outcome_bind]. by rewrite mapM_octets.
Qed.

Lemma fits_octets f : fits f -> bytes_ok (field_octets f).
Proof.
  destruct f; simpl; try done; intros H.
  - constructor; [rewrite u8_small by done; done | done].
  - apply WRITE_UINT32_ok.
  - apply Forall_app. split; [apply WRITE_UINT32_ok | apply H].
  - apply Forall_app. split; [apply WRITE_UINT32_ok | apply bignum_format_s_ok].
  - apply Forall_app. split; [apply WRITE_UINT32_ok | by apply get_atom_name_facts].
  - apply Forall_app. split; [apply WRITE_UINT32_ok | apply join_atoms_ok; tauto].
Qed.

Lemma packet_octets_fit fs : Forall fits fs -> bytes_ok (packet_octets fs).
Proof.
  induction 1 as [|f fs Hf _ IH]; [constructor|]. unfold packet_octets in *. cbn [mbind list_bind]. apply Forall_app. split; [by apply fits_octets | exact IH].
Qed.

(** The items of the formats, written. *)
Lemma write_c i args pos : write_item no_opts Conv_c (VWord i :: args) pos = Done (Format.octets (field_octets (FByte i)), [], args).
Proof. done. Qed.
Lemma write_i i args pos : write_item no_opts Conv_i (VWord i :: args) pos = Done (Format.octets (field_octets (FUint32 i)), [], args).
Proof. done. Qed.
Lemma write_z s args pos : write_item no_opts Conv_z (VCstr s :: args) pos = Done (Format.octets (field_octets (FString s)), [], args).
Proof. done. Qed.
Lemma write_S f s args pos : write_item (mk_opts false false f false false) Conv_S (VString s :: args) pos = Done (Format.octets (field_octets (FString s)), [], args).
Proof. done. Qed.
Lemma write_plain_S s args pos : write_item no_opts Conv_S (VString s :: args) pos = Done (Format.octets (field_octets (FString s)), [], args).
Proof. exact (write_S false s args pos). Qed.
Lemma write_a a args pos : is_atom a -> write_item no_opts Conv_a (VWord a :: args) pos = Done (Format.octets (field_octets (FAtom a)), [], args).
Proof.
  intros Ha. unfold write_item. cbn [literal no_opts decimal andb]. assert (a <> 0) by (unfold is_atom in Ha; lia).
  rewrite (proj2 (Z.eqb_neq _ _)), (atom_in_table_of a Ha) by done. cbn [field_octets]. unfold counted.
  by rewrite zlen_get_atom_name by auto using atom_in_table_of.
Qed.

Lemma write_A l args pos : fits (FAtoms l) -> write_item no_opts Conv_A (VList l :: args) pos = Done (Format.octets (field_octets (FAtoms l)), [], args).
Proof.
  intros [Hl _]. unfold write_item. cbn [literal no_opts decimal andb]. rewrite (proj2 (forallb_forall _ _)); [done|].
  intros a Ha. apply atom_in_table_of. rewrite Forall_forall in Hl. by apply Hl, list_elem_of_In.
Qed.
Lemma write_n n args pos : write_item no_opts Conv_n (VNum n :: args) pos = Done (Format.octets (field_octets (FBignum n)), [], args).
Proof. done. Qed.
Lemma write_octets s args pos :
  write_item (mk_opts true false false false false) Conv_s (VWord (zlen s) :: VData s :: args) pos = Done (Format.octets s, [], args).
Proof.
  unfold write_item, memcpy. cbn [literal decimal andb hex]. rewrite Z.leb_refl. cbn [mbind outcome_bind].
  by rewrite take_ge by (unfold zlen; lia).
Qed.

(** An argument that fits its field. *)
Lemma fits_word f : fits f -> match f with FByte c | FUint32 c | FAtom c => arg_ok (VWord c) | FString s => zlen s < 2 ^ 31 | _ => True end.
Proof. destruct f; simpl; unfold is_byte, is_atom, TOTAL_KEYWORDS; intros; try done; [lia | tauto | lia]. Qed.

(** A format with one item for each field, and its arguments. *)
Definition item_letter (f : field) : Ascii.ascii :=
  match f with FByte _ => "c" | FUint32 _ => "i" | FString _ => "S" | FBignum _ => "n" | FAtom _ => "a" | FAtoms _ => "A" end%char.
Definition item_arg (f : field) : fmt_arg :=
  match f with FByte c | FUint32 c | FAtom c => VWord c | FString s => VString s | FBignum n => VNum n | FAtoms l => VList l end.
Definition plain_format (fs : list field) : string := foldr (fun f rest => String "%" (String (item_letter f) rest)) EmptyString fs.

Lemma write_plain f pos args : fits f -> write_item no_opts (conv_of (item_letter f)) (item_arg f :: args) pos = Done (Format.octets (field_octets f), [], args).
Proof. destruct f; intros Hf; [apply write_c | apply write_i | apply write_plain_S | apply write_n | by apply write_a | by apply write_A]. Qed.

Lemma item_arg_ok f : fits f -> arg_ok (item_arg f).
Proof.
  intros Hf. pose proof (fits_word f Hf). destruct f; try done. cbn [item_arg arg_ok]. rewrite <- zlen_bignum_format_s. exact Hf.
Qed.

Lemma write_plain_loop fs buffer ptrs : Forall fits fs ->
  write_loop (plain_format fs) None (item_arg <$> fs) buffer ptrs = Done (buffer ++ Format.octets (packet_octets fs), ptrs).
Proof.
  intros H. revert buffer. induction H as [|f fs Hf _ IH]; intros buffer; [by rewrite app_nil_r|].
  cbn [plain_format foldr fmap list_fmap write_loop]. change (Ascii.eqb "%" "%") with true. cbv iota.
  assert (modifier (item_letter f) no_opts = None) as -> by by destruct f.
  rewrite write_plain by done. cbn [mbind outcome_bind]. fold (plain_format fs). rewrite app_nil_r, IH.
  by rewrite <- app_assoc; unfold Format.octets; rewrite <- fmap_app.
Qed.

Lemma plain_consistent fs : format_consistent (plain_format fs) None = true.
Proof. induction fs as [|f fs IH]; [done|]. by destruct f. Qed.

Lemma format_plain fs : Forall fits fs -> zlen (packet_octets fs) < 2 ^ 32 -> ssh_format (plain_format fs) (item_arg <$> fs) = Done (packet_octets fs).
Proof.
  intros Hf Hl. eapply (ssh_format_Done _ _ _ []); [apply plain_consistent | | by rewrite write_plain_loop | done].
  apply Forall_fmap. eapply Forall_impl; [exact Hf|]. intros. by apply item_arg_ok.
Qed.

(** ** Parsing *)

(** The parser takes the octets [w], whatever follows, and returns [a]. *)
Definition takes {A} (p : Parser A) (w : bytes) (a : A) : Prop :=
  forall b r, pending b (w ++ r) -> exists b', p b = (Done a, b') /\ pending b' r.

(** The parser takes [w], which is all there is. *)
Definition takes_all {A} (p : Parser A) (w : bytes) (a : A) : Prop := forall b, pending b w -> exists b', p b = (Done a, b').

Lemma takes_ret {A} (a : A) : takes (mret a) [] a.
Proof. intros b r Hb. by exists b. Qed.

Lemma takes_bind {A B} (p : Parser A) (k : A -> Parser B) w v a c : takes p w a -> takes (k a) v c -> takes (p ≫= k) (w ++ v) c.
Proof.
  intros Hp Hk b r Hb. rewrite <- app_assoc in Hb. destruct (Hp b _ Hb) as (b1 & E1 & Hb1). destruct (Hk b1 _ Hb1) as (b2 & E2 & Hb2).
  exists b2. by rewrite (bind_Done _ _ _ _ _ E1).
Qed.

Lemma takes_all_bind {A B} (p : Parser A) (k : A -> Parser B) w v a c : takes p w a -> takes_all (k a) v c -> takes_all (p ≫= k) (w ++ v) c.
Proof.
  intros Hp Hk b Hb. destruct (Hp b _ Hb) as (b1 & E1 & Hb1). destruct (Hk b1 Hb1) as (b2 & E2). exists b2. by rewrite (bind_Done _ _ _ _ _ E1).
Qed.

Lemma takes_byte c : fits (FByte c) -> takes parse_uint8 (field_octets (FByte c)) c.
Proof. intros H b r Hb. cbn [field_octets] in Hb. rewrite u8_small in Hb by done. exact (parse_uint8_pending b c r Hb). Qed.

Lemma takes_boolean c : fits (FByte c) -> takes parse_boolean (field_octets (FByte c)) c.
Proof. exact (takes_byte c). Qed.

Lemma takes_uint32 i : fits (FUint32 i) -> takes parse_uint32 (field_octets (FUint32 i)) i.
Proof. intros H b r Hb. exact (parse_uint32_pending b i r Hb H). Qed.

Lemma takes_string s : fits (FString s) -> takes parse_string (field_octets (FString s)) s.
Proof. intros [_ H] b r Hb. exact (parse_string_counted b s r Hb ltac:(lia)). Qed.

Lemma takes_string_copy s : fits (FString s) -> takes parse_string_copy (field_octets (FString s)) s.
Proof.
  intros H. unfold parse_string_copy. rewrite <- (app_nil_r (field_octets _)). eapply takes_bind; [by apply takes_string|].
  intros b r Hb. exists b. unfold lift. destruct H. by rewrite ssh_format_copy by lia.
Qed.

Lemma atom_string a : fits (FAtom a) -> fits (FString (get_atom_name a)) /\ lookup_atom (get_atom_name a) = a /\ zlen (get_atom_name a) <= 64.
Proof.
  intros Ha. destruct (get_atom_name_facts a Ha) as (_ & Hf & _ & Hb). unfold name_fits in Hf.
  split; [split; [done | lia]|]. split; [by apply atom_ok_spec | lia].
Qed.

Lemma takes_name a : fits (FAtom a) -> takes parse_string (field_octets (FAtom a)) (get_atom_name a).
Proof. intros Ha. apply (takes_string (get_atom_name a)). by apply atom_string. Qed.

Lemma takes_atom a : fits (FAtom a) -> takes parse_atom (field_octets (FAtom a)) a.
Proof.
  intros Ha. unfold parse_atom. rewrite <- (app_nil_r (field_octets _)). eapply takes_bind; [by apply takes_name|].
  destruct (atom_string a Ha) as (_ & E & H). rewrite (proj2 (Z.ltb_ge _ _)), E by lia. apply takes_ret.
Qed.

Lemma takes_octets s n : zlen s = n -> takes (parse_octets n) s s.
Proof. intros Hn b r Hb. destruct (chunk_enough n mret b s r Hb Hn) as (b' & Hb' & _ & _ & E). by exists b'. Qed.

Lemma takes_atoms limit l : fits (FAtoms l) -> 1 <= limit -> zlen l <= limit -> takes (parse_atom_list limit) (field_octets (FAtoms l)) l.
Proof.
  intros [Hl Hlen] Hlim Hn b r Hb. pose proof (zlen_nonneg (join_atoms 0 l)).
  apply parse_atom_list_pending; try done. unfold counted. rewrite zlen_app, zlen_WRITE_UINT32. lia.
Qed.

Lemma takes_bignum n : fits (FBignum n) -> takes (parse_bignum 0) (field_octets (FBignum n)) n.
Proof.
  intros [Hn Hu]. unfold parse_bignum. rewrite <- (app_nil_r (field_octets _)). eapply takes_bind.
  - apply (takes_string (bignum_format_s n)). split; [apply bignum_format_s_ok|]. revert Hn. unfold octets_max. lia.
  - rewrite Z.eqb_refl. cbn [negb andb]. intros b r Hb. exists b. split; [|done]. cbn. by rewrite (proj1 (format_s_correct n Hn)).
Qed.

(** The end of a packet. *)
Lemma takes_eod {A} (a : A) (k : bool -> Parser A) : k true = mret a -> takes_all (parse_eod ≫= k) [] a.
Proof.
  intros Hk b Hb. exists b. unfold parse_eod, mbind, parser_bind, Parse.left. rewrite (LEFT_pending b [] Hb).
  change (k true b = (Done a, b)). by rewrite Hk.
Qed.

(** The first field of a packet. *)
Lemma takes_field {A B} (p : Parser A) (k : A -> Parser B) f fs a c :
  takes p (field_octets f) a -> takes (k a) (packet_octets fs) c -> takes (p ≫= k) (packet_octets (f :: fs)) c.
Proof. apply takes_bind. Qed.
Lemma takes_all_field {A B} (p : Parser A) (k : A -> Parser B) f fs a c :
  takes p (field_octets f) a -> takes_all (k a) (packet_octets fs) c -> takes_all (p ≫= k) (packet_octets (f :: fs)) c.
Proof. apply takes_all_bind. Qed.

Create HintDb takes.
#[export] Hint Resolve takes_byte takes_boolean takes_uint32 takes_string takes_string_copy takes_name takes_atom takes_octets takes_atoms takes_bignum : takes.

End Wire.
