(* ===== verification/Charset.v ===== *)
(** * Character sets

    [lsh/src/charset.c] with [parse_utf8] of [lsh/src/parse.c]: conversion
    between the local character set and the UTF-8 of the protocol. *)

From S2P Require Import Prelude Format Parse.

Module Charset.
Import Format Parse.

Definition CHARSET_UTF8 : Z := 0.
Definition CHARSET_LATIN1 : Z := 1.
Definition CHARSET_USASCII : Z := 2.

Section Local.
(** [local_charset], set once at start-up. *)
Variable local_charset : Z.

Definition local_to_ucs4 (c : Z) : outcome Z :=
  if (local_charset =? CHARSET_USASCII) || (local_charset =? CHARSET_LATIN1) then Done (u32 c)
  else Crash FatalError.

Definition ucs4_to_local (c : Z) : outcome Z :=
  if local_charset =? CHARSET_USASCII then Done (if c <? 0x80 then c else -1)
  else if local_charset =? CHARSET_LATIN1 then Done (if c <? 0x100 then c else -1)
  else Crash FatalError.

Definition local_is_utf8 : bool := local_charset =? CHARSET_UTF8.

(** The nested tests that size one character. *)
Definition utf8_length (c : Z) : outcome Z :=
  if c <? Z.shiftl 1 7 then Done 1
  else if c <? Z.shiftl 1 11 then Done 2
  else if c <? Z.shiftl 1 16 then Done 3
  else if c <? Z.shiftl 1 21 then Done 4
  else if c <? Z.shiftl 1 25 then Done 5
  else if c <? Z.shiftl 1 31 then Done 6
  else Crash FatalError.

Definition utf8_prefix : list Z := [0; 0xC0; 0xE0; 0xF0; 0xF8; 0xFC].

(** The loop that stores continuation octets from the last one backwards:
    what is left of [c], and the octets. *)
Fixpoint utf8_split (k : nat) (c : Z) (acc : bytes) : Z * bytes :=
  match k with
  | O => (c, acc)
  | S k => utf8_split k (Z.shiftr c 6) (Z.lor 0x80 (Z.land c 0x3f) :: acc)
  end.

Definition utf8_char (c l : Z) : outcome bytes :=
  let '(top, conts) := utf8_split (Z.to_nat (l - 1)) c [] in
  let p := nth (Z.to_nat (l - 1)) utf8_prefix 0 in
  _ ← assert_that (Z.land p top =? 0);
  Done (Z.lor p top :: conts).

Fixpoint utf8_encode (s : bytes) : outcome bytes :=
  match s with
  | [] => Done []
  | b :: s =>
      c ← local_to_ucs4 b;
      l ← utf8_length c;
      o ← utf8_char c l;
      r ← utf8_encode s;
      Done (o ++ r)
  end.

Definition local_to_utf8 (s : bytes) : outcome bytes :=
  if (local_charset =? CHARSET_UTF8) || (local_charset =? CHARSET_USASCII) then Done s
  else utf8_encode s.

(** The endless loop of [low_utf8_to_local]; [size] is the allocated length
    of the result, [acc] what is stored so far, in reverse. *)
Fixpoint utf8_decode_loop (fuel : nat) (size : Z) (strict : bool) (b : simple_buffer) (acc : bytes)
    : option (outcome bytes) :=
  match fuel with
  | O => None
  | S fuel =>
      match parse_utf8 b with
      | (Done None, _) =>
          Some (_ ← assert_that (zlen acc <=? size); Done (reverse acc))
      | (Done (Some ucs4), b) =>
          match ucs4_to_local ucs4 with
          | Done local =>
              if (0 <=? local) || negb strict then
                if zlen acc <? size then
                  utf8_decode_loop fuel size strict b ((if 0 <=? local then u8 local else 63) :: acc)
                else Some (Crash OutOfBounds)
              else Some Reject
          | Reject => Some Reject
          | Crash c => Some (Crash c)
          end
      | (Reject, _) => Some Reject
      | (Crash c, _) => Some (Crash c)
      end
  end.

Definition low_utf8_to_local (s : bytes) (strict : bool) : option (outcome bytes) :=
  if local_is_utf8 then Some (Crash AssertFail)
  else utf8_decode_loop (S (length s)) (zlen s) strict (simple_buffer_init (zlen s) s) [].

Definition utf8_to_local (s : bytes) (strict : bool) : option (outcome bytes) :=
  if local_is_utf8 then Some (Done s) else low_utf8_to_local s strict.

End Local.

(** ** Lemmas: reading an encoded character *)

Lemma HERE_pending b l i :
  pending b l -> 0 <= i ->
  HERE b i = match l !! Z.to_nat i with Some c => Done c | None => Crash OutOfBounds end.
Proof.
  intros [[Hp _ _ _] <-] Hi. unfold HERE, rest.
  rewrite lookup_drop, Z2Nat.inj_add by lia. done.
Qed.

(** Checking a property of every small non-negative integer by evaluation. *)
Lemma below_spec n (P : Z -> bool) z :
  forallb P (Z.of_nat <$> seq 0 n) = true -> 0 <= z < Z.of_nat n -> P z = true.
Proof.
  rewrite forallb_forall. intros H Hz. apply H. apply list_elem_of_In, list_elem_of_fmap.
  exists (Z.to_nat z). split; [lia|]. apply elem_of_seq. lia.
Qed.

(** A continuation octet carries six bits. *)
Lemma continuation_octet d :
  0 <= d < 64 ->
  Z.land (Z.lor 0x80 d) 0xC0 = 0x80 /\ Z.land (Z.lor 0x80 d) 0x3f = d /\ is_byte (Z.lor 0x80 d).
Proof.
  intros Hd.
  pose proof (below_spec 64 (fun d => (Z.land (Z.lor 0x80 d) 0xC0 =? 0x80)
    && (Z.land (Z.lor 0x80 d) 0x3f =? d) && bool_decide (is_byte (Z.lor 0x80 d))) d
    ltac:(by vm_compute) ltac:(lia)) as H.
  rewrite !andb_true_iff, !Z.eqb_eq, bool_decide_eq_true in H. tauto.
Qed.

Lemma land_3f c : Z.land c 0x3f = c mod 64.
Proof. by apply (land_pow2 c 6). Qed.

(** The digits of [c] in base 64 below its top. *)
Fixpoint digits64 (k : nat) (c : Z) : list Z :=
  match k with O => [] | S k => digits64 k (c / 64) ++ [c mod 64] end.

Lemma utf8_split_spec k c acc :
  utf8_split k c acc = (c / 64 ^ Z.of_nat k, (Z.lor 0x80 <$> digits64 k c) ++ acc).
Proof.
  revert c acc. induction k as [|k IH]; intros c acc; cbn [utf8_split digits64].
  - by rewrite Z.div_1_r.
  - rewrite IH, shiftr_div, land_3f by lia. change (2 ^ 6) with 64.
    rewrite fmap_app, <- app_assoc. f_equal.
    rewrite Nat2Z.inj_succ, Z.pow_succ_r, Z.div_div; lia.
Qed.

(** Reading continuation octets appends base-64 digits to the result. *)
Fixpoint append64 (r : Z) (ds : list Z) : Z :=
  match ds with [] => r | d :: ds => append64 (r * 64 + d) ds end.

Lemma append64_app r a d : append64 r (a ++ [d]) = append64 r a * 64 + d.
Proof. revert r. induction a as [|x a IH]; intros r; simpl; [done|]. by rewrite IH. Qed.

Lemma append64_digits k c : append64 (c / 64 ^ Z.of_nat k) (digits64 k c) = c.
Proof.
  revert c. induction k as [|k IH]; intros c; cbn [digits64].
  - by rewrite Z.div_1_r.
  - rewrite append64_app. rewrite Nat2Z.inj_succ, Z.pow_succ_r, <- Z.div_div by lia.
    rewrite IH. div_lia.
Qed.

Lemma digits64_range k c : Forall (fun d => 0 <= d < 64) (digits64 k c).
Proof.
  revert c. induction k as [|k IH]; intros c; cbn [digits64]; [constructor|].
  apply Forall_app_2; [done|]. apply Forall_singleton. div_lia.
Qed.

Lemma length_digits64 k c : length (digits64 k c) = k.
Proof. revert c. induction k; intros; simpl; [done|]. rewrite length_app, IHk. simpl. lia. Qed.
Lemma append64_ge r ds : Forall (fun d => 0 <= d < 64) ds -> 0 <= r -> r <= append64 r ds.
Proof.
  intros H. revert r. induction H as [|d ds Hd _ IH]; intros r Hr; simpl; [lia|].
  pose proof (IH (r * 64 + d) ltac:(lia)). lia.
Qed.

Lemma utf8_tail_digits ds i r b p q :
  pending b (p ++ (Z.lor 0x80 <$> ds) ++ q) -> zlen p = i ->
  Forall (fun d => 0 <= d < 64) ds -> 0 <= r -> append64 r ds < 2 ^ 32 ->
  utf8_tail (length ds) i r b = (Done (append64 r ds), b).
Proof.
  intros Hb Hi Hds. revert i r p Hb Hi. induction Hds as [|d ds Hd Hds IH]; intros i r p Hb Hi Hr Hmax.
  - done.
  - cbn [length utf8_tail append64] in *. pose proof (zlen_nonneg p).
    pose proof (append64_ge (r * 64 + d) ds Hds ltac:(lia)).
    unfold mbind, parser_bind, here. rewrite (HERE_pending b _ i Hb) by lia.
    rewrite lookup_app_r by (unfold zlen in Hi; lia).
    replace (Z.to_nat i - length p)%nat with 0%nat by (unfold zlen in Hi; lia). simpl.
    destruct (continuation_octet d Hd) as (E1&E2&_). rewrite E1, E2. simpl.
    rewrite Z.shiftl_mul_pow2, u32_small by lia. change (2 ^ 6) with 64.
    replace (Z.lor (r * 64) d) with (r * 64 + d).
    + apply (IH (i + 1) (r * 64 + d) (p ++ [Z.lor 0x80 d])); [|rewrite zlen_app; simpl; unfold zlen in *; simpl; lia|lia|done].
      by rewrite <- app_assoc.
    + change 64 with (2 ^ 6). rewrite <- (Z.shiftl_mul_pow2 r) by lia. rewrite lor_shiftl_add by lia.
      by rewrite Z.shiftl_mul_pow2 by lia.
Qed.

(** The first octet announces the length and carries the top digit. *)
Definition head_ok (k : nat) (top : Z) : bool :=
  let p := nth k utf8_prefix 0 in
  (Z.land p top =? 0) && bool_decide (utf8_head (Z.lor p top) = Done (Z.of_nat (S k), top))
  && (0x80 <=? Z.lor p top) && bool_decide (is_byte (Z.lor p top)).

Lemma head_ok_all k top :
  (1 <= k <= 5)%nat -> 0 <= top < 2 ^ (6 - Z.of_nat k) -> head_ok k top = true.
Proof.
  intros Hk Ht. assert (k = 1 \/ k = 2 \/ k = 3 \/ k = 4 \/ k = 5)%nat as E by lia.
  destruct E as [-> | [-> | [-> | [-> | ->]]]]; simpl in Ht.
  - by apply (below_spec 32 (head_ok 1)); [vm_compute|].
  - by apply (below_spec 16 (head_ok 2)); [vm_compute|].
  - by apply (below_spec 8 (head_ok 3)); [vm_compute|].
  - by apply (below_spec 4 (head_ok 4)); [vm_compute|].
  - by apply (below_spec 2 (head_ok 5)); [vm_compute|].
Qed.

Lemma utf8_char_long k c :
  (1 <= k <= 5)%nat -> 0 <= c < 2 ^ (6 - Z.of_nat k) * 64 ^ Z.of_nat k -> c < 2 ^ 31 ->
  exists o, utf8_char c (Z.of_nat (S k)) = Done o /\ bytes_ok o /\ zlen o = Z.of_nat (S k) /\
  forall b r, pending b (o ++ r) ->
    exists b', parse_utf8 b = (Done (Some c), b') /\ pending b' r.
Proof.
  intros Hk Hc Hmax. set (top := c / 64 ^ Z.of_nat k).
  assert (Htop : 0 <= top < 2 ^ (6 - Z.of_nat k)).
  { pose proof (Z.pow_pos_nonneg 64 (Z.of_nat k)). unfold top. split; [apply Z.div_pos; lia|].
    apply Z.div_lt_upper_bound; lia. }
  pose proof (head_ok_all k top Hk Htop) as Hh. unfold head_ok in Hh.
  rewrite !andb_true_iff, !bool_decide_eq_true in Hh. destruct Hh as [[[Ha Hhead] Hge] Hbyte].
  set (h := Z.lor (nth k utf8_prefix 0) top) in *.
  exists (h :: (Z.lor 0x80 <$> digits64 k c)). split_and!.
  - unfold utf8_char. replace (Z.to_nat (Z.of_nat (S k) - 1)) with k by lia.
    rewrite utf8_split_spec, app_nil_r. fold top. unfold assert_that. by rewrite Ha.
  - constructor; [done|]. apply Forall_fmap. eapply Forall_impl; [apply digits64_range|].
    intros d Hd. by apply continuation_octet.
  - rewrite zlen_cons, zlen_fmap. unfold zlen. rewrite length_digits64. lia.
  - intros b r Hb. exists (ADVANCE (Z.of_nat (S k)) b).
    assert (Hd : length (digits64 k c) = k) by apply length_digits64.
    destruct (ADVANCE_pending b (h :: (Z.lor 0x80 <$> digits64 k c)) r Hb) as [Hb' _].
    rewrite zlen_cons, zlen_fmap in Hb'. unfold zlen in Hb'. rewrite Hd in Hb'.
    replace (Z.of_nat k + 1) with (Z.of_nat (S k)) in Hb' by lia. split; [|done].
    unfold parse_utf8, mbind, parser_bind, left, here, lift.
    rewrite (LEFT_pending b _ Hb), zlen_app, zlen_cons.
    pose proof (zlen_nonneg (Z.lor 0x80 <$> digits64 k c)). pose proof (zlen_nonneg r).
    rewrite (proj2 (Z.eqb_neq _ _)) by lia. rewrite (HERE_pending b _ 0 Hb) by lia. simpl lookup.
    cbv iota. rewrite (proj2 (Z.ltb_ge _ _)), Hhead by lia. cbv iota.
    replace (Z.to_nat (Z.of_nat (S k) - 1)) with (length (digits64 k c)) by lia.
    rewrite (utf8_tail_digits (digits64 k c) 1 top b [h] r); unfold top; rewrite ?append64_digits;
      auto using digits64_range; lia.
Qed.

Lemma parse_utf8_ascii c b r :
  0 <= c < 128 -> pending b (c :: r) ->
  exists b', parse_utf8 b = (Done (Some c), b') /\ pending b' r.
Proof.
  intros Hc Hb. destruct (ADVANCE_pending b [c] r Hb) as [Hb' _].
  exists (ADVANCE 1 b). split; [|done].
  unfold parse_utf8, mbind, parser_bind, left, here, advance.
  rewrite (LEFT_pending b _ Hb), zlen_cons. pose proof (zlen_nonneg r).
  rewrite (proj2 (Z.eqb_neq _ _)), (HERE_pending b _ 0 Hb) by lia. simpl.
  by rewrite (proj2 (Z.ltb_lt _ _)) by lia.
Qed.

(** Close one case of the length computation. *)
Ltac fits k := exists k; split; [lia|]; split; [done|]; eapply Z.lt_le_trans; [eassumption|].

(** Every character up to [2^31] is encoded, and read back. *)
Lemma utf8_char_spec c :
  0 <= c < 2 ^ 31 ->
  exists l o, utf8_length c = Done l /\ utf8_char c l = Done o /\ bytes_ok o /\ 1 <= zlen o <= 6 /\
  forall b r, pending b (o ++ r) -> exists b', parse_utf8 b = (Done (Some c), b') /\ pending b' r.
Proof.
  intros Hc.
  destruct (decide (c < 128)).
  { exists 1, [c]. unfold utf8_length, utf8_char.
    change (Z.shiftl 1 7) with 128. rewrite (proj2 (Z.ltb_lt c 128)) by lia.
    split_and!; try done; [by apply Forall_singleton; unfold is_byte; lia|]. intros b r Hb.
    apply parse_utf8_ascii; [lia|done]. }
  assert (exists k, (1 <= k <= 5)%nat /\ utf8_length c = Done (Z.of_nat (S k))
    /\ c < 2 ^ (6 - Z.of_nat k) * 64 ^ Z.of_nat k) as (k&Hk&El&Hck).
  { unfold utf8_length. rewrite !Z.shiftl_mul_pow2, !Z.mul_1_l by lia.
    rewrite (proj2 (Z.ltb_ge _ (2 ^ 7))) by lia.
    destruct (Z.ltb_spec c (2 ^ 11)); [by fits 1%nat|].
    destruct (Z.ltb_spec c (2 ^ 16)); [by fits 2%nat|].
    destruct (Z.ltb_spec c (2 ^ 21)); [by fits 3%nat|].
    destruct (Z.ltb_spec c (2 ^ 25)); [by fits 4%nat|].
    rewrite (proj2 (Z.ltb_lt c _)) by lia. pose proof (proj2 Hc). by fits 5%nat. }
  destruct (utf8_char_long k c Hk ltac:(lia) ltac:(lia)) as (o&Eo&Hob&Hol&Hp).
  exists (Z.of_nat (S k)), o. split_and!; auto; lia.
Qed.
(** ** Lemmas: whole strings *)

Lemma utf8_encode_latin1 s :
  bytes_ok s -> exists u, utf8_encode CHARSET_LATIN1 s = Done u /\ bytes_ok u /\
  zlen s <= zlen u /\
  forall b size strict fuel acc, pending b u -> (length s < fuel)%nat -> zlen acc + zlen s <= size ->
  utf8_decode_loop CHARSET_LATIN1 fuel size strict b acc = Some (Done (reverse acc ++ s)).
Proof.
  induction 1 as [|c s Hc Hs IH].
  - exists []. split_and!; [done|constructor|done|]. intros b size strict fuel acc Hb Hf Hsz.
    destruct fuel as [|fuel]; [simpl in Hf; lia|]. cbn [utf8_decode_loop].
    unfold parse_utf8, mbind, parser_bind, left. rewrite (LEFT_pending b [] Hb). simpl.
    rewrite zlen_nil in Hsz. unfold assert_that. rewrite (proj2 (Z.leb_le _ _)) by lia.
    by rewrite app_nil_r.
  - destruct IH as (u&Eu&Hu&Hlen&IH). unfold is_byte in Hc.
    destruct (utf8_char_spec c ltac:(lia)) as (l&o&El&Eo&Hob&Hol&Hp).
    exists (o ++ u). split_and!.
    + cbn [utf8_encode]. change (local_to_ucs4 CHARSET_LATIN1 c) with (Done (u32 c)).
      rewrite u32_small by lia. simpl. rewrite El. simpl. rewrite Eo. simpl. by rewrite Eu.
    + by apply Forall_app_2.
    + rewrite zlen_app, zlen_cons. lia.
    + intros b size strict fuel acc Hb Hf Hsz. destruct fuel as [|fuel]; [simpl in Hf; lia|].
      destruct (Hp b u Hb) as (b'&E&Hb'). cbn [utf8_decode_loop]. rewrite E.
      rewrite zlen_cons in Hsz. pose proof (zlen_nonneg s).
      change (ucs4_to_local CHARSET_LATIN1 c) with (Done (if c <? 0x100 then c else -1)).
      rewrite (proj2 (Z.ltb_lt c _)), (proj2 (Z.leb_le 0 c)), (proj2 (Z.ltb_lt (zlen acc) size)) by lia.
      simpl orb. cbv iota. rewrite u8_small by lia.
      rewrite (IH b' size strict fuel (c :: acc)); [|done|simpl in Hf; lia|rewrite zlen_cons; lia].
      by rewrite reverse_cons, <- app_assoc.
Qed.

Lemma utf8_encode_length s u :
  bytes_ok s -> utf8_encode CHARSET_LATIN1 s = Done u -> zlen u <= 6 * zlen s.
Proof.
  intros H. revert u. induction H as [|c s Hc Hs IH]; intros u; [by intros [= <-]|].
  unfold is_byte in Hc. destruct (utf8_char_spec c ltac:(lia)) as (l&o&El&Eo&_&Hol&_).
  cbn [utf8_encode]. change (local_to_ucs4 CHARSET_LATIN1 c) with (Done (u32 c)).
  rewrite u32_small by lia. simpl. rewrite El. simpl. rewrite Eo. simpl.
  destruct (utf8_encode_latin1 s Hs) as (r&Er&_). rewrite Er. intros [= <-].
  rewrite zlen_app, zlen_cons. pose proof (IH r Er). lia.
Qed.

Definition is_continuation (c : Z) : Prop := Z.land c 0xC0 = 0x80.

(** The tail loop reads past the end exactly when the octets that are there
    are all continuation octets, and too few. *)
Lemma utf8_tail_crashes count i r b l :
  pending b l -> 0 <= i <= zlen l ->
  match (utf8_tail count i r b).1 with
  | Crash c => c = OutOfBounds /\ Forall is_continuation (drop (Z.to_nat i) l) /\ zlen l < i + Z.of_nat count
  | Reject => ~ Forall is_continuation (drop (Z.to_nat i) l)
  | Done _ => i + Z.of_nat count <= zlen l
  end.
Proof.
  intros Hb. revert i r. induction count as [|count IH]; intros i r Hi; [simpl; lia|].
  cbn [utf8_tail]. unfold mbind, parser_bind, here. rewrite (HERE_pending b l i Hb) by lia.
  destruct (l !! Z.to_nat i) as [c|] eqn:El.
  - simpl. destruct (Z.eqb_spec (Z.land c 0xC0) 0x80) as [Ec|Ec]; simpl.
    + apply lookup_lt_Some in El as Hlt.
      specialize (IH (i + 1) (Z.lor (u32 (Z.shiftl r 6)) (Z.land c 0x3f)) ltac:(unfold zlen; lia)).
      rewrite (drop_S _ c) by done. replace (Z.to_nat (i + 1)) with (S (Z.to_nat i)) in IH by lia.
      destruct (utf8_tail count (i + 1) _ b) as [[?| |?] ?]; simpl in *.
      * lia.
      * rewrite Forall_cons. tauto.
      * rewrite Forall_cons. destruct IH as (?&?&?). split_and!; auto; lia.
    + rewrite (drop_S _ c), Forall_cons by done. tauto.
  - simpl. apply lookup_ge_None in El. split; [done|]. split; [|unfold zlen; lia].
    rewrite drop_ge by done. constructor.
Qed.

(** The ways a peer can crash [parse_utf8]. *)
Definition utf8_fatal (l : bytes) : Prop :=
  match l with first :: _ => first = 0xFE \/ first = 0xFF | [] => False end.

Definition utf8_truncated (l : bytes) : Prop :=
  match l with
  | first :: tail =>
      exists length start, utf8_head first = Done (length, start)
      /\ zlen tail < length - 1 /\ Forall is_continuation tail
  | [] => False
  end.

Definition head_class (first : Z) : bool :=
  match utf8_head first with
  | Done (length, _) => (2 <=? length) && (length <=? 6) && (0x80 <=? first) && (first <? 0xFE)
  | Reject => first <? 0xFE
  | Crash c => bool_decide (c = FatalError) && (0xFE <=? first)
  end.

Lemma head_class_spec first : is_byte first -> head_class first = true.
Proof. intros H. by apply (below_spec 256); [vm_compute|]. Qed.

Lemma utf8_tail_state k i r b : (utf8_tail k i r b).2 = b.
Proof.
  revert i r. induction k as [|k IH]; intros i r; [done|]. cbn [utf8_tail].
  unfold mbind, parser_bind, here. destruct (HERE b i); [|done..].
  destruct (negb _); [done|]. apply IH.
Qed.

Lemma parse_utf8_step b first tail :
  pending b (first :: tail) ->
  match (parse_utf8 b).1 with
  | Done None => False
  | Done (Some _) => ~ utf8_fatal (first :: tail) /\ ~ utf8_truncated (first :: tail)
      /\ exists n, 1 <= n <= zlen (first :: tail) /\ (parse_utf8 b).2 = ADVANCE n b
  | Reject => ~ utf8_fatal (first :: tail) /\ ~ utf8_truncated (first :: tail)
  | Crash FatalError => utf8_fatal (first :: tail)
  | Crash OutOfBounds => utf8_truncated (first :: tail)
  | Crash _ => False
  end.
Proof.
  intros Hb. assert (Hf : is_byte first).
  { destruct Hb as [Hok Hr]. pose proof (bytes_ok_rest b Hok) as H. rewrite Hr in H.
    by apply Forall_cons in H as [? _]. }
  pose proof (head_class_spec first Hf) as Hc. unfold head_class in Hc. pose proof (zlen_nonneg tail).
  unfold utf8_fatal, utf8_truncated.
  unfold parse_utf8, mbind, parser_bind, left, here, lift, advance.
  rewrite (LEFT_pending b _ Hb), zlen_cons, (proj2 (Z.eqb_neq _ _)) by lia.
  rewrite (HERE_pending b _ 0 Hb) by lia. simpl lookup. cbv iota.
  destruct (Z.ltb_spec first 0x80) as [Hlt|Hge].
  - simpl. split_and!; [lia| |exists 1; split; [lia|done]].
    intros (length&start&E&_). rewrite E in Hc. lia.
  - destruct (utf8_head first) as [[length start]| |c] eqn:E.
    + assert (Hl : 2 <= length <= 6 /\ first < 0xFE) by lia.
      pose proof (utf8_tail_crashes (Z.to_nat (length - 1)) 1 start b (first :: tail) Hb) as T.
      rewrite zlen_cons in T. specialize (T ltac:(lia)). change (drop (Z.to_nat 1) (first :: tail)) with tail in T.
      rewrite Z2Nat.id in T by lia.
      destruct (utf8_tail _ 1 start b) as [[v| |c] b'] eqn:Et; simpl in T |- *.
      * assert (b' = b) as ->.
        { pose proof (utf8_tail_state (Z.to_nat (length - 1)) 1 start b) as H'. by rewrite Et in H'. }
        split_and!; [lia| |exists length; split; [lia|done]].
        intros (length'&start'&[= -> ->]&?&?). lia.
      * split; [lia|]. intros (length'&start'&[= -> ->]&?&?). by apply T.
      * destruct T as (->&?&?). exists length, start. split_and!; auto; lia.
    + simpl. split; [lia|]. by intros (?&?&?&_).
    + rewrite andb_true_iff, bool_decide_eq_true in Hc. destruct Hc as [-> Hc].
      simpl. unfold is_byte in Hf. lia.
Qed.

(** The decoding loop terminates within the fuel it is given. *)
Lemma utf8_decode_loop_total cs fuel size strict b acc :
  sb_ok b -> LEFT b < Z.of_nat fuel -> is_Some (utf8_decode_loop cs fuel size strict b acc).
Proof.
  revert b acc. induction fuel as [|fuel IH]; intros b acc Hb Hf.
  { pose proof (u32_range (capacity b - pos b)). unfold LEFT in Hf. lia. }
  cbn [utf8_decode_loop]. destruct (rest b) as [|first tail] eqn:Er.
  - unfold parse_utf8, mbind, parser_bind, left. rewrite (LEFT_pending b []) by done. simpl. eauto.
  - pose proof (parse_utf8_step b first tail (conj Hb Er)) as S.
    destruct (parse_utf8 b) as [[[c|]| |] b']; simpl in S; eauto.
    destruct S as (_&_&n&Hn&->).
    destruct (ucs4_to_local cs c) as [local| |]; eauto.
    destruct ((0 <=? local) || negb strict); eauto. destruct (zlen acc <? size); eauto.
    destruct (ADVANCE_pending b (take (Z.to_nat n) (rest b)) (drop (Z.to_nat n) (rest b))) as [Hp _].
    { split; [done|]. symmetry. apply take_drop. }
    rewrite (LEFT_pending b (first :: tail)) in Hf by done.
    replace (zlen (take (Z.to_nat n) (rest b))) with n in Hp
      by (rewrite Er; unfold zlen in *; rewrite length_take; lia).
    apply IH; [apply Hp|]. rewrite (LEFT_pending _ _ Hp), Er. unfold zlen in *. rewrite length_drop. lia.
Qed.

(** ** Theorems *)

(** Exactly which inputs crash the UTF-8 reader: a character that
    starts with [0xFE] or [0xFF] runs into the program's [fatal], a character
    whose continuation octets are cut off by the end of the buffer is read
    beyond that end, and nothing else fails. *)
Theorem parse_utf8_crashes b l (Hb : pending b l) :
  ((parse_utf8 b).1 = Crash FatalError <-> utf8_fatal l)
  /\ ((parse_utf8 b).1 = Crash OutOfBounds <-> utf8_truncated l)
  /\ (forall c, (parse_utf8 b).1 = Crash c -> c = FatalError \/ c = OutOfBounds).
Proof.
  destruct l as [|first tail].
  - unfold parse_utf8, mbind, parser_bind, left. rewrite (LEFT_pending b [] Hb). simpl.
    split_and!; try (split; [done|tauto]). done.
  - pose proof (parse_utf8_step b first tail Hb) as S.
    assert (X : utf8_fatal (first :: tail) -> utf8_truncated (first :: tail) -> False).
    { intros F (length&start&E&_). assert (Hf : is_byte first).
      { destruct Hb as [Hok Hr]. pose proof (bytes_ok_rest b Hok) as H. rewrite Hr in H.
        by apply Forall_cons in H as [? _]. }
      pose proof (head_class_spec first Hf) as Hc. unfold head_class in Hc. rewrite E in Hc.
      simpl in F. lia. }
    destruct (parse_utf8 b) as [[[c|]| |c] b']; simpl in S, X |- *; [| done | |].
    + destruct S as (?&?&_). split_and!; [split; [done|tauto]..|done].
    + destruct S as [? ?]. split_and!; [split; [done|tauto]..|done].
    + split_and!; [destruct c; try done; split; intros; try done; tauto..|].
      destruct c; try done; intros c' [= <-]; auto.
Qed.

Definition cut_buffer (l : bytes) : simple_buffer := simple_buffer_init (zlen l) l.

Lemma parse_utf8_crashes_witness :
  (parse_utf8 (cut_buffer [0xE2; 0x82])).1 = Crash OutOfBounds
  /\ (parse_utf8 (cut_buffer [0xFE; 0x41])).1 = Crash FatalError.
Proof.
  split.
  - apply (parse_utf8_crashes (cut_buffer [0xE2; 0x82]) [0xE2; 0x82]).
    + apply pending_init; [by repeat constructor|done].
    + exists 3, 2. split; [done|]. split; [done|]. by repeat constructor.
  - apply (parse_utf8_crashes (cut_buffer [0xFE; 0x41]) [0xFE; 0x41]).
    + apply pending_init; [by repeat constructor|done].
    + by left.
Defined.

(** In a Latin-1 locale every string is carried to UTF-8 and back
    unchanged; the decoding loop terminates and never stores past the end of
    the string it allocated, strictly or not. *)
Theorem utf8_local_roundtrip s strict (Hs : bytes_ok s) (Hl : 6 * zlen s < 2 ^ 32) :
  exists u, local_to_utf8 CHARSET_LATIN1 s = Done u /\ bytes_ok u
  /\ utf8_to_local CHARSET_LATIN1 u strict = Some (Done s).
Proof.
  destruct (utf8_encode_latin1 s Hs) as (u&Eu&Hu&Hle&Hdec).
  pose proof (utf8_encode_length s u Hs Eu) as Hmax.
  exists u. split_and!; [done|done|].
  unfold utf8_to_local, low_utf8_to_local. simpl local_is_utf8. cbv iota.
  rewrite (Hdec _ (zlen u) strict _ []); [done|apply pending_init; [done|lia]| |rewrite zlen_nil; lia].
  unfold zlen in *. lia.
Qed.

Lemma utf8_local_roundtrip_witness :
  exists u, local_to_utf8 CHARSET_LATIN1 [0x63; 0x61; 0x66; 0xE9] = Done u /\ bytes_ok u
  /\ utf8_to_local CHARSET_LATIN1 u true = Some (Done [0x63; 0x61; 0x66; 0xE9]).
Proof. apply utf8_local_roundtrip; [by repeat constructor|done]. Defined.
End Charset.
