(* ===== verification/Hash.v ===== *)
(** * Hash functions

    [lsh/src/nettle/md5.c] and [lsh/src/nettle/sha1.c].  The two share their
    buffering, which is modelled once in [Merkle] over the compression
    function and the byte order; [MD5] and [SHA1] hold the compression
    functions and prove them equal to the descriptions of RFC 1321 and
    FIPS 180. *)

From S2P Require Import Prelude.

Module Merkle.

(** [struct md5_ctx] and [struct sha1_ctx]: the same fields in both. *)
Record ctx := {
  digest : list Z;
  count_l : Z;
  count_h : Z;
  block : bytes;
  index : Z }.

Section Hash.
(** The compression function, the byte order of a word, the initial value,
    and the order of the two length words. *)
Variable transform : list Z -> list Z -> list Z.
Variable read32 : Z -> Z -> Z -> Z -> Z.
Variable write32 : Z -> bytes.
Variable iv : list Z.
Variable low_word_first : bool.

Definition DATA_SIZE : Z := 64.
Definition DATA_LENGTH : Z := 16.
Definition DIGEST_SIZE : Z := 4 * zlen iv.

Definition init (c : ctx) : ctx :=
  {| digest := iv; count_l := 0; count_h := 0; block := block c; index := 0 |}.

(** [data[i] = READ_UINT32(block + 4*i)] for the first [n] words. *)
Fixpoint load (n : nat) (b : bytes) : outcome (list Z) :=
  match n with
  | O => Done []
  | S n =>
      match b with
      | b0 :: b1 :: b2 :: b3 :: r => ws ← load n r; Done (read32 b0 b1 b2 b3 :: ws)
      | _ => Crash OutOfBounds
      end
  end.

Definition block_step (c : ctx) (b : bytes) : outcome ctx :=
  let l := u32 (count_l c + 1) in
  let h := if l =? 0 then u32 (count_h c + 1) else count_h c in
  data ← load 16 b;
  Done {| digest := transform (digest c) data; count_l := l; count_h := h;
          block := block c; index := index c |}.

Definition with_block (c : ctx) (b : bytes) : ctx :=
  {| digest := digest c; count_l := count_l c; count_h := count_h c; block := b; index := index c |}.
Definition with_index (c : ctx) (i : Z) : ctx :=
  {| digest := digest c; count_l := count_l c; count_h := count_h c; block := block c; index := i |}.
Definition with_digest (c : ctx) (d : list Z) : ctx :=
  {| digest := d; count_l := count_l c; count_h := count_h c; block := block c; index := index c |}.

(** [while (length >= DATA_SIZE)], then the leftovers.  One iteration
    consumes 64 octets, so the length of the data is enough fuel. *)
Fixpoint update_blocks (fuel : nat) (c : ctx) (data : bytes) : outcome ctx :=
  match fuel with
  | S fuel =>
      if DATA_SIZE <=? zlen data then
        c ← block_step c data;
        update_blocks fuel c (drop 64 data)
      else
        let c := with_index c (zlen data) in
        if zlen data =? 0 then Done c
        else b ← memcpy_to 0 data (block c); Done (with_block c b)
  | O => Crash BadArgument
  end.

Definition update (c : ctx) (data : bytes) : outcome ctx :=
  if negb (index c =? 0) then
    let left := u32 (DATA_SIZE - index c) in
    if zlen data <? left then
      b ← memcpy_to (index c) data (block c);
      Done (with_index (with_block c b) (u32 (index c + zlen data)))
    else
      b ← memcpy_to (index c) (take (Z.to_nat left) data) (block c);
      c ← block_step (with_block c b) b;
      update_blocks (S (length data)) c (drop (Z.to_nat left) data)
  else update_blocks (S (length data)) c data.

(** [for( ; i & 3; i++) ctx->block[i] = 0;] *)
Fixpoint fill_word (k : nat) (i : Z) (b : bytes) : outcome (Z * bytes) :=
  match k with
  | O => Done (i, b)
  | S k =>
      if Z.land i 3 =? 0 then Done (i, b)
      else b ← memcpy_to i [0] b; fill_word k (i + 1) b
  end.

Definition final (c : ctx) : outcome ctx :=
  let i := index c in
  _ ← assert_that (i <? DATA_SIZE);
  b ← memcpy_to i [0x80] (block c);
  '(i, b) ← fill_word 3 (i + 1) b;
  let words := Z.shiftr i 2 in
  data ← load (Z.to_nat words) b;
  let '(d, data) :=
    if DATA_LENGTH - 2 <? words then
      (transform (digest c) (data ++ replicate (Z.to_nat (DATA_LENGTH - words)) 0),
       replicate (Z.to_nat (DATA_LENGTH - 2)) 0)
    else (digest c, data ++ replicate (Z.to_nat (DATA_LENGTH - 2 - words)) 0) in
  let high := Z.lor (u32 (Z.shiftl (count_h c) 9)) (Z.shiftr (count_l c) 23) in
  let low := Z.lor (u32 (Z.shiftl (count_l c) 9)) (u32 (Z.shiftl (index c) 3)) in
  let data := data ++ (if low_word_first then [low; high] else [high; low]) in
  Done (with_digest (with_block c b) (transform d data)).

(** [md5_digest] and [sha1_digest]: whole words, then the first octets of
    one more. *)
Definition digest_out (c : ctx) (length : Z) : outcome bytes :=
  _ ← assert_that (length <=? DIGEST_SIZE);
  let words := length / 4 in
  let leftover := length mod 4 in
  let out := mjoin (write32 <$> take (Z.to_nat words) (digest c)) in
  if leftover =? 0 then Done out
  else
    _ ← assert_that (words <? zlen iv);
    match digest c !! Z.to_nat words with
    | Some w => Done (out ++ take (Z.to_nat leftover) (write32 w))
    | None => Crash OutOfBounds
    end.

(** [do_md5_digest], [do_sha_digest]: the digest, and a context ready for
    the next message. *)
Definition finish (c : ctx) : outcome (ctx * bytes) :=
  c ← final c;
  d ← digest_out c DIGEST_SIZE;
  Done (init c, d).

(** ** The specification: Merkle-Damgard over the padded message *)

Fixpoint words_of (b : bytes) : list Z :=
  match b with b0 :: b1 :: b2 :: b3 :: r => read32 b0 b1 b2 b3 :: words_of r | _ => [] end.

Fixpoint blocks (n : nat) (m : bytes) : list bytes :=
  match n with O => [] | S n => take 64 m :: blocks n (drop 64 m) end.

Definition compress (d : list Z) (b : bytes) : list Z := transform d (words_of b).

Definition length_words (bits : Z) : list Z :=
  let hi := bits / 2 ^ 32 in let lo := bits mod 2 ^ 32 in
  if low_word_first then [lo; hi] else [hi; lo].

(** The octets of the padding before the length. *)
Definition padding (len : Z) : bytes := 0x80 :: replicate (Z.to_nat ((55 - len) mod 64)) 0.

(** The message padded to whole blocks. *)
Definition pad (m : bytes) : bytes :=
  m ++ padding (zlen m) ++ mjoin (write32 <$> length_words (8 * zlen m mod 2 ^ 64)).

Definition hash (m : bytes) : bytes :=
  mjoin (write32 <$> foldl compress iv (blocks (length (pad m) / 64) (pad m))).

(** ** Lemmas *)

Hypothesis transform_length : forall d ws, length d = length iv -> length (transform d ws) = length iv.
Hypothesis read32_0 : read32 0 0 0 0 = 0.
Hypothesis write32_length : forall w, length (write32 w) = 4%nat.
Hypothesis words_of_write32 : forall w r, 0 <= w < 2 ^ 32 -> words_of (write32 w ++ r) = w :: words_of r.

Lemma words_of_app a b :
  (length a mod 4 = 0)%nat -> words_of (a ++ b) = words_of a ++ words_of b.
Proof.
  remember (length a / 4)%nat as n eqn:En. revert a En.
  induction n as [|n IH]; intros a En Ha.
  - destruct a; [done|]. pose proof (Nat.div_mod_eq (length (z :: a)) 4). simpl length in *. lia.
  - pose proof (Nat.div_mod_eq (length a) 4).
    destruct a as [|b0 [|b1 [|b2 [|b3 a]]]]; simpl length in *; try lia.
    simpl. f_equal. replace (S (S (S (S (length a))))) with (length a + 1 * 4)%nat in * by lia.
    rewrite Nat.div_add in En by lia. rewrite Nat.Div0.mod_add in Ha by lia.
    apply IH; lia.
Qed.

Lemma length_words_of b n : length b = (4 * n)%nat -> length (words_of b) = n.
Proof.
  revert b. induction n as [|n IH]; intros b Hb.
  - by destruct b.
  - destruct b as [|b0 [|b1 [|b2 [|b3 b]]]]; simpl in Hb; try lia.
    simpl. f_equal. apply IH. lia.
Qed.

Lemma load_spec n b : (4 * n <= length b)%nat -> load n b = Done (words_of (take (4 * n) b)).
Proof.
  revert b. induction n as [|n IH]; intros b Hb; [done|].
  destruct b as [|b0 [|b1 [|b2 [|b3 b]]]]; simpl in Hb; try lia.
  replace (4 * S n)%nat with (S (S (S (S (4 * n))))) by lia.
  cbn [load take words_of]. rewrite IH by lia. done.
Qed.

Lemma blocks_app n k a b :
  length a = (64 * n)%nat -> blocks (n + k) (a ++ b) = blocks n a ++ blocks k b.
Proof.
  revert a. induction n as [|n IH]; intros a Ha.
  - by destruct a.
  - simpl. rewrite take_app_le, drop_app_le by lia. f_equal. apply IH. rewrite length_drop. lia.
Qed.

Lemma compress_snoc n full b :
  length full = (64 * n)%nat -> length b = 64%nat ->
  foldl compress iv (blocks (S n) (full ++ b)) = compress (foldl compress iv (blocks n full)) b.
Proof.
  intros Hf Hb. replace (S n) with (n + 1)%nat by lia.
  rewrite blocks_app, foldl_app by done. simpl. by rewrite take_ge by lia.
Qed.

(** Between two blocks: [full] has been hashed, the buffer is free. *)
Definition hashed (c : ctx) (full : bytes) : Prop :=
  exists n, length full = (64 * n)%nat /\ digest c = foldl compress iv (blocks n full)
  /\ length (block c) = 64%nat /\ 0 <= count_l c < 2 ^ 32 /\ 0 <= count_h c < 2 ^ 32
  /\ count_l c + 2 ^ 32 * count_h c = Z.of_nat n mod 2 ^ 64.

(** The context stands for the message [m]. *)
Definition repr (c : ctx) (m : bytes) : Prop :=
  exists full tail, m = full ++ tail /\ hashed c full /\ index c = zlen tail /\ zlen tail < 64
  /\ take (length tail) (block c) = tail.

Lemma block_step_hashed c full b :
  hashed c full -> (64 <= length b)%nat ->
  exists c', block_step c b = Done c' /\ hashed c' (full ++ take 64 b) /\ block c' = block c
  /\ index c' = index c.
Proof.
  intros (n&Hn&Hd&Hb&Hl&Hh&Hc) Hlen. unfold block_step. rewrite load_spec by (simpl; lia).
  change (4 * 16)%nat with 64%nat. eexists. split; [done|]. simpl. split_and!; [|done|done].
  pose proof (u32_range (count_l c + 1)) as Hl'.
  assert (Hh' : 0 <= (if u32 (count_l c + 1) =? 0 then u32 (count_h c + 1) else count_h c) < 2 ^ 32).
  { destruct (_ =? 0); [apply u32_range|done]. }
  exists (S n). split_and!; cbn [digest count_l count_h block index]; try apply Hl'; try apply Hh'.
  - rewrite length_app, length_take. lia.
  - rewrite compress_snoc; [by rewrite <- Hd|done|rewrite length_take; lia].
  - done.
  - rewrite Nat2Z.inj_succ. unfold Z.succ. rewrite <- Zplus_mod_idemp_l, <- Hc.
    destruct (decide (count_l c = 2 ^ 32 - 1)) as [E|E].
    + rewrite E. change (u32 (2 ^ 32 - 1 + 1)) with 0. simpl.
      destruct (decide (count_h c = 2 ^ 32 - 1)) as [E'|E'].
      * rewrite E'. done.
      * rewrite u32_small, Z.mod_small; lia.
    + rewrite (u32_small (count_l c + 1)) by lia. rewrite (proj2 (Z.eqb_neq _ _)) by lia.
      rewrite Z.mod_small; lia.
Qed.

Lemma memcpy_prefix off src dst :
  0 <= off -> off + zlen src <= zlen dst ->
  exists d, memcpy_to off src dst = Done d /\ length d = length dst
  /\ take (Z.to_nat off + length src) d = take (Z.to_nat off) dst ++ src.
Proof.
  intros Ho Hl. unfold memcpy_to.
  rewrite (proj2 (Z.leb_le 0 off)), (proj2 (Z.leb_le _ (zlen dst))) by lia. simpl.
  eexists. split; [done|]. unfold zlen in *. split.
  - rewrite !length_app, length_take, length_drop. lia.
  - rewrite app_assoc. apply take_app_length'. rewrite length_app, length_take. lia.
Qed.

Lemma update_blocks_repr fuel c full data :
  hashed c full -> (length data < fuel)%nat ->
  exists c', update_blocks fuel c data = Done c' /\ repr c' (full ++ data).
Proof.
  revert c full data. induction fuel as [|fuel IH]; intros c full data Hc Hf; [lia|].
  cbn [update_blocks]. unfold DATA_SIZE. destruct (Z.leb_spec 64 (zlen data)) as [Hd|Hd].
  - destruct (block_step_hashed c full data Hc ltac:(unfold zlen in *; lia)) as (c'&->&Hc'&_).
    simpl. destruct (IH c' _ (drop 64 data) Hc' ltac:(rewrite length_drop; unfold zlen in *; lia)) as (c''&->&Hr).
    exists c''. split; [done|]. by rewrite <- app_assoc, take_drop in Hr.
  - destruct Hc as (n&Hn&Hdg&Hb&Hcnt). destruct (Z.eqb_spec (zlen data) 0) as [E|E].
    + destruct data; [|by rewrite zlen_cons in E; pose proof (zlen_nonneg data); lia].
      eexists. split; [done|]. exists full, []. split_and!; try done.
      exists n. simpl. tauto.
    + destruct (memcpy_prefix 0 data (block c)) as (d&Ed&Hdl&Hdt); [lia|unfold zlen in *; lia|].
      simpl. rewrite Ed. simpl. eexists. split; [done|]. exists full, data. split_and!; try done.
      exists n. simpl. rewrite Hdl. tauto.
Qed.

Lemma init_repr c : length (block c) = 64%nat -> repr (init c) [].
Proof. intros H. exists [], []. split_and!; try done. exists 0%nat. split_and!; done. Qed.

(** Updating appends to the message. *)
Lemma update_repr c m data :
  repr c m -> exists c', update c data = Done c' /\ repr c' (m ++ data).
Proof.
  intros (full&tail&->&Hc&Hi&Ht&Hp). unfold update. pose proof (zlen_nonneg tail). pose proof (zlen_nonneg data).
  destruct (Z.eqb_spec (index c) 0) as [E|E]; cbn [negb].
  - destruct tail; [|rewrite zlen_cons in Hi; pose proof (zlen_nonneg tail); lia].
    rewrite app_nil_r. apply update_blocks_repr; [done|lia].
  - unfold DATA_SIZE. rewrite u32_small by lia. pose proof Hc as (n&Hn&Hdg&Hb&Hcnt).
    assert (Htl : Z.to_nat (index c) = length tail) by (unfold zlen in Hi; lia).
    destruct (Z.ltb_spec (zlen data) (64 - index c)) as [Hd|Hd].
    + destruct (memcpy_prefix (index c) data (block c)) as (d&Ed&Hdl&Hdt);
        [lia|unfold zlen in *; lia|].
      rewrite Ed. simpl. eexists. split; [done|]. exists full, (tail ++ data).
      rewrite <- app_assoc. split_and!; simpl; try done.
      * exists n. simpl. rewrite Hdl. tauto.
      * rewrite zlen_app, u32_small; lia.
      * rewrite zlen_app; lia.
      * rewrite length_app. rewrite Htl in Hdt. by rewrite Hdt, Hp.
    + set (p := take (Z.to_nat (64 - index c)) data).
      assert (Hpl : length p = Z.to_nat (64 - index c)).
      { unfold p. rewrite length_take. unfold zlen in *. lia. }
      destruct (memcpy_prefix (index c) p (block c)) as (d&Ed&Hdl&Hdt);
        [lia|unfold zlen in *; lia|].
      rewrite Ed. cbn [mbind outcome_bind].
      assert (Hd64 : take 64 d = tail ++ p).
      { rewrite Htl in Hdt. rewrite Hp in Hdt. rewrite <- Hdt. f_equal. unfold zlen in *. lia. }
      destruct (block_step_hashed (with_block c d) full d) as (c'&Ec'&Hc'&_); [|lia|].
      { exists n. simpl. rewrite Hdl. tauto. }
      rewrite Ec'. cbn [mbind outcome_bind]. rewrite Hd64 in Hc'.
      destruct (update_blocks_repr (S (length data)) c' _ (drop (Z.to_nat (64 - index c)) data) Hc')
        as (c''&Ec''&Hr); [rewrite length_drop; lia|].
      exists c''. split; [done|]. rewrite <- !app_assoc in Hr. unfold p in Hr.
      rewrite take_drop in Hr. by rewrite <- app_assoc.
Qed.

(** ** Padding *)

Lemma fill_word_spec k i b n :
  0 <= i -> i + n <= zlen b -> 0 <= n < 4 -> n <= Z.of_nat k -> (i + n) mod 4 = 0 ->
  exists b', fill_word k i b = Done (i + n, b') /\ length b' = length b
  /\ take (Z.to_nat (i + n)) b' = take (Z.to_nat i) b ++ replicate (Z.to_nat n) 0.
Proof.
  revert i b n. induction k as [|k IH]; intros i b n Hi Hb Hn Hk Hm.
  - replace n with 0 by lia. exists b. rewrite Z.add_0_r, app_nil_r. done.
  - cbn [fill_word]. change 3 with (2 ^ 2 - 1). rewrite land_pow2 by lia. change (2 ^ 2) with 4.
    destruct (Z.eqb_spec (i mod 4) 0) as [E|E].
    + replace n with 0 by div_lia. exists b. rewrite Z.add_0_r, app_nil_r. done.
    + assert (n <> 0) by (intros ->; rewrite Z.add_0_r in Hm; lia).
      destruct (memcpy_prefix i [0] b) as (d&Ed&Hdl&Hdt); [lia|rewrite zlen_cons, zlen_nil; lia|].
      rewrite Ed. cbn [mbind outcome_bind].
      destruct (IH (i + 1) d (n - 1)) as (b'&->&Hl&Ht); try lia.
      { unfold zlen in *. lia. }
      { by replace (i + 1 + (n - 1)) with (i + n) by lia. }
      exists b'. replace (i + 1 + (n - 1)) with (i + n) in * by lia. split_and!; [done|lia|].
      rewrite Ht. replace (Z.to_nat (i + 1)) with (Z.to_nat i + length [0%Z])%nat by (simpl; lia).
      rewrite Hdt, <- app_assoc. f_equal.
      replace (Z.to_nat n) with (S (Z.to_nat (n - 1))) by lia. done.
Qed.

Lemma words_of_zeros n : words_of (replicate (4 * n) 0) = replicate n 0.
Proof.
  induction n as [|n IH]; [done|]. replace (4 * S n)%nat with (S (S (S (S (4 * n))))) by lia.
  cbn [replicate words_of]. by rewrite IH, read32_0.
Qed.

(** The data words of the last block: the octets in the buffer, the bit [1],
    zeros to a word boundary and [k] zero words. *)
Lemma tail_words tail n0 k :
  ((length tail + 1 + n0) mod 4 = 0)%nat ->
  words_of (tail ++ 0x80 :: replicate n0 0) ++ replicate k 0
  = words_of (tail ++ 0x80 :: replicate (n0 + 4 * k) 0).
Proof.
  intros H. rewrite replicate_add, app_comm_cons, app_assoc.
  rewrite (words_of_app (tail ++ 0x80 :: replicate n0 0)).
  - by rewrite words_of_zeros.
  - rewrite length_app. simpl. rewrite length_replicate.
    by replace (length tail + S n0)%nat with (length tail + 1 + n0)%nat by lia.
Qed.

Lemma words_of_length_words bits :
  0 <= bits < 2 ^ 64 -> words_of (mjoin (write32 <$> length_words bits)) = length_words bits.
Proof.
  intros Hb. unfold length_words. assert (0 <= bits / 2 ^ 32 < 2 ^ 32) by div_lia.
  assert (0 <= bits mod 2 ^ 32 < 2 ^ 32) by div_lia.
  destruct low_word_first; simpl; rewrite app_nil_r;
    rewrite words_of_write32 by done; rewrite <- (app_nil_r (write32 _)), words_of_write32 by done; done.
Qed.

(** The two words computed from the block count and the index. *)
Lemma count_words n l h idx :
  0 <= l < 2 ^ 32 -> 0 <= h < 2 ^ 32 -> l + 2 ^ 32 * h = Z.of_nat n mod 2 ^ 64 -> 0 <= idx < 64 ->
  let bits := 8 * (64 * Z.of_nat n + idx) mod 2 ^ 64 in
  Z.lor (u32 (Z.shiftl h 9)) (Z.shiftr l 23) = bits / 2 ^ 32
  /\ Z.lor (u32 (Z.shiftl l 9)) (u32 (Z.shiftl idx 3)) = bits mod 2 ^ 32.
Proof.
  intros Hl Hh Hn Hi bits.
  assert (Eb : bits = (512 * (l + 2 ^ 32 * h) + 8 * idx) mod 2 ^ 64).
  { unfold bits. rewrite Hn. replace (8 * (64 * Z.of_nat n + idx)) with (512 * Z.of_nat n + 8 * idx) by lia.
    rewrite <- (Zplus_mod_idemp_l (512 * (_ mod _))), Zmult_mod_idemp_r, Zplus_mod_idemp_l. done. }
  assert (Eu : forall z, u32 (Z.shiftl z 9) = Z.shiftl (z mod 2 ^ 23) 9).
  { intros z. unfold u32. rewrite !Z.shiftl_mul_pow2 by lia. div_lia. }
  rewrite !Eu, shiftr_div, lor_shiftl_add by (lia || div_lia).
  assert (E3 : u32 (Z.shiftl idx 3) = 8 * idx).
  { rewrite Z.shiftl_mul_pow2, u32_small; lia. }
  rewrite E3, lor_shiftl_add, Eb by lia. split; div_lia.
Qed.

(** The buffer once the bit [1] and the zeros of its word are stored. *)
Lemma buffered_words b tail :
  length b = 64%nat -> take (length tail) b = tail -> (length tail < 64)%nat ->
  exists n0 b', (n0 < 4)%nat /\ ((length tail + 1 + n0) mod 4 = 0)%nat /\ (length tail + 1 + n0 <= 64)%nat
  /\ length b' = 64%nat
  /\ (d ← memcpy_to (zlen tail) [0x80] b; fill_word 3 (zlen tail + 1) d)
     = Done (Z.of_nat (length tail + 1 + n0), b')
  /\ take (length tail + 1 + n0) b' = tail ++ 0x80 :: replicate n0 0.
Proof.
  intros Hb Ht Hl. destruct (memcpy_prefix (zlen tail) [0x80] b) as (d&->&Hdl&Hdt).
  { apply zlen_nonneg. } { unfold zlen; simpl length; lia. }
  pose proof (zlen_nonneg tail) as Ht0. set (n := (- (zlen tail + 1)) mod 4). assert (Hn : 0 <= n < 4) by (unfold n; div_lia).
  assert (Hm : (zlen tail + 1 + n) mod 4 = 0) by (unfold n; div_lia).
  assert (zlen tail + 1 + n <= 64) by (unfold zlen in *; div_lia).
  destruct (fill_word_spec 3 (zlen tail + 1) d n) as (b'&E&Hbl&Hbt); try done;
    [pose proof (zlen_nonneg tail); lia|unfold zlen in *; lia|lia|].
  exists (Z.to_nat n), b'. cbn [mbind outcome_bind]. rewrite E.
  replace (length tail + 1 + Z.to_nat n)%nat with (Z.to_nat (zlen tail + 1 + n)) by (unfold zlen; lia).
  rewrite Hbt, Z2Nat.id by (unfold zlen; lia). split_and!; try done; try lia.
  - apply Nat2Z.inj. rewrite Nat2Z.inj_mod, Z2Nat.id by lia. done.
  - unfold zlen in *. rewrite Nat2Z.id in Hdt. simpl length in Hdt.
    replace (Z.to_nat (Z.of_nat (length tail) + 1)) with (length tail + 1)%nat by lia.
    rewrite Hdt, Ht, <- app_assoc. done.
Qed.

Lemma foldl_blocks1 k d b :
  length b = 64%nat -> k = 1%nat -> foldl compress d (blocks k b) = transform d (words_of b).
Proof. intros Hb ->. simpl. by rewrite take_ge by lia. Qed.

Lemma foldl_blocks2 b1 k d b2 :
  length b1 = 64%nat -> length b2 = 64%nat -> k = 2%nat ->
  foldl compress d (blocks k (b1 ++ b2)) = transform (transform d (words_of b1)) (words_of b2).
Proof.
  intros H1 H2 ->. change 2%nat with (1 + 1)%nat. rewrite blocks_app, foldl_app by lia.
  by rewrite !foldl_blocks1.
Qed.

Lemma final_spec c m :
  repr c m -> exists c', final c = Done c' /\ length (block c') = 64%nat
  /\ digest c' = foldl compress iv (blocks (length (pad m) / 64) (pad m)).
Proof.
  intros (full&tail&->&(n&Hn&Hdg&Hb&Hl&Hh&Hcnt)&Hi&Ht&Hp).
  pose proof (zlen_nonneg tail) as Ht0.
  destruct (buffered_words (block c) tail Hb Hp ltac:(unfold zlen in Ht; lia))
    as (n0&b'&Hn0&Hm4&H64&Hb'&E&Htk).
  assert (Hlen : zlen (full ++ tail) = 64 * Z.of_nat n + zlen tail) by (rewrite zlen_app; unfold zlen; lia).
  destruct (count_words n (count_l c) (count_h c) (index c)) as [E1 E2]; [done..|lia|].
  set (bits := 8 * (64 * Z.of_nat n + index c) mod 2 ^ 64) in *.
  assert (Hbits : 0 <= bits < 2 ^ 64) by (apply Z.mod_pos_bound; lia).
  set (w := (length tail + 1 + n0)%nat) in *.
  assert (Hw : w = (4 * (w / 4))%nat) by (pose proof (Nat.div_mod_eq w 4); lia).
  unfold final. rewrite Hi. unfold DATA_SIZE, assert_that. rewrite (proj2 (Z.ltb_lt _ _)) by lia.
  cbn [mbind outcome_bind].
  destruct (memcpy_to (zlen tail) [0x80] (block c)) as [d| |]; try discriminate.
  cbn [mbind outcome_bind] in E |- *. rewrite E. cbn [mbind outcome_bind].
  assert (Ew : Z.shiftr (Z.of_nat w) 2 = Z.of_nat (w / 4)).
  { rewrite shiftr_div by lia. change (2 ^ 2) with (Z.of_nat 4). by rewrite Nat2Z.inj_div. }
  rewrite Ew, Nat2Z.id, load_spec by lia. rewrite <- Hw, Htk. cbn [mbind outcome_bind].
  rewrite <- Hi, E1, E2. unfold DATA_LENGTH.
  assert (Epad : pad (full ++ tail) = full ++ tail ++ padding (zlen tail) ++ mjoin (write32 <$> length_words bits)).
  { unfold pad, bits, padding. rewrite Hlen, Hi, <- app_assoc. do 5 f_equal.
    replace (55 - (64 * Z.of_nat n + zlen tail)) with (55 - zlen tail + (- Z.of_nat n) * 64) by lia.
    by rewrite Z.mod_add. }
  assert (Ebl : blocks (length (pad (full ++ tail)) / 64) (pad (full ++ tail))
    = blocks n full ++ blocks ((length (pad (full ++ tail)) - 64 * n) / 64) (drop (64 * n) (pad (full ++ tail)))).
  { rewrite Epad, (drop_app_length' full), <- blocks_app by done. f_equal. rewrite length_app, Hn.
    replace (64 * n + _)%nat with (length (tail ++ padding (zlen tail) ++ mjoin (write32 <$> length_words bits)) + n * 64)%nat by lia.
    rewrite Nat.div_add, Nat.add_comm by lia. do 2 f_equal. lia. }
  rewrite Ebl, foldl_app, <- Hdg, Epad, length_app, Hn, (drop_app_length' full) by done.
  replace (64 * n + _ - 64 * n)%nat with (length (tail ++ padding (zlen tail) ++ mjoin (write32 <$> length_words bits))) by lia.
  rewrite !length_app. unfold padding at 1. cbn [length]. rewrite length_replicate.
  assert (Elwl : length (mjoin (write32 <$> length_words bits)) = 8%nat).
  { unfold length_words. destruct low_word_first; simpl; rewrite !length_app, !write32_length; done. }
  rewrite Elwl.
  change (if low_word_first then [bits mod 2 ^ 32; bits / 2 ^ 32] else [bits / 2 ^ 32; bits mod 2 ^ 32])
    with (length_words bits).
  destruct (Z.ltb_spec (16 - 2) (Z.of_nat (w / 4))) as [Hbig|Hsmall].
  - eexists. split; [reflexivity|]. split; [done|]. cbn [with_digest with_block digest].
    assert (Hz : Z.to_nat ((55 - zlen tail) mod 64) = (63 - length tail + 4 * 14)%nat)
      by (unfold zlen in *; div_lia).
    unfold padding. rewrite Hz, replicate_add.
    change (0x80 :: ?a ++ ?b) with ((0x80 :: a) ++ b). rewrite <- app_assoc, app_assoc.
    rewrite (foldl_blocks2 (tail ++ 0x80 :: replicate (63 - length tail) 0)).
    + rewrite (words_of_app (replicate _ 0)), words_of_zeros, words_of_length_words by done. f_equal. f_equal.
      replace (Z.to_nat (16 - Z.of_nat (w / 4))) with (16 - w / 4)%nat by lia.
      rewrite tail_words by done. do 4 f_equal. lia.
    + rewrite length_app. simpl. rewrite length_replicate. lia.
    + rewrite length_app, length_replicate, Elwl. done.
    + rewrite <- Nat.div_unique_exact with (q := 2%nat); lia.
  - eexists. split; [reflexivity|]. split; [done|]. cbn [with_digest with_block digest].
    assert (Hz : Z.to_nat ((55 - zlen tail) mod 64) = (55 - length tail)%nat)
      by (unfold zlen in *; div_lia).
    unfold padding. rewrite Hz, app_assoc. rewrite foldl_blocks1.
    + rewrite (words_of_app (tail ++ _)), words_of_length_words by (try done; rewrite length_app; simpl;
        rewrite length_replicate; replace (_ + _)%nat with (14 * 4)%nat by lia; done).
      replace (Z.to_nat (16 - 2 - Z.of_nat (w / 4))) with (14 - w / 4)%nat by lia.
      rewrite tail_words by done. do 6 f_equal. lia.
    + rewrite !length_app, Elwl. simpl. rewrite length_replicate. lia.
    + rewrite <- Nat.div_unique_exact with (q := 1%nat); lia.
Qed.

Lemma foldl_compress_length d bs :
  length d = length iv -> length (foldl compress d bs) = length iv.
Proof. revert d. induction bs as [|b bs IH]; intros d Hd; simpl; [done|]. apply IH. by apply transform_length. Qed.

(** Finishing gives the digest of the message and a context for the next one. *)
Lemma finish_spec c m :
  repr c m -> exists c', finish c = Done (c', hash m) /\ repr c' [].
Proof.
  intros Hr. destruct (final_spec c m Hr) as (c'&E&Hb&Hd). exists (init c').
  split; [|by apply init_repr]. unfold finish. rewrite E. cbn [mbind outcome_bind].
  unfold digest_out, DIGEST_SIZE, assert_that. rewrite Z.leb_refl. cbn [mbind outcome_bind].
  rewrite (Z.mul_comm 4), Z.mod_mul, Z.div_mul, Z.eqb_refl by lia. cbn [mbind outcome_bind].
  unfold hash. rewrite Hd, take_ge; [done|]. rewrite foldl_compress_length by done.
  unfold zlen. lia.
Qed.

Lemma hash_length m : zlen (hash m) = DIGEST_SIZE.
Proof.
  unfold hash, DIGEST_SIZE. set (d := foldl _ _ _).
  assert (Hd : length d = length iv) by by apply foldl_compress_length.
  unfold zlen. rewrite <- Hd. clearbody d. clear Hd. induction d as [|w d IH]; [done|].
  change (mjoin (write32 <$> w :: d)) with (write32 w ++ mjoin (write32 <$> d)).
  rewrite length_app, write32_length. simpl length at 2. lia.
Qed.

(** Any way of cutting the message into updates gives the same digest. *)
Lemma updates_hash c0 pieces :
  length (block c0) = 64%nat ->
  exists c c', foldl (fun c d => c ← c; update c d) (Done (init c0)) pieces = Done c
  /\ finish c = Done (c', hash (mjoin pieces)) /\ repr c' [].
Proof.
  intros Hb. assert (H : forall c m, repr c m ->
    exists c', foldl (fun c d => c ← c; update c d) (Done c) pieces = Done c' /\ repr c' (m ++ mjoin pieces)).
  { induction pieces as [|d pieces IH]; intros c m Hr.
    - exists c. simpl. by rewrite app_nil_r.
    - destruct (update_repr c m d Hr) as (c'&E&Hr'). destruct (IH c' (m ++ d) Hr') as (c''&E'&Hr'').
      exists c''. cbn [foldl mbind outcome_bind]. rewrite E. simpl mjoin. by rewrite app_assoc. }
  destruct (H _ _ (init_repr c0 Hb)) as (c&E&Hr). destruct (finish_spec c _ Hr) as (c'&Ef&Hr').
  exists c, c'. done.
Qed.

End Hash.

Lemma blocks_length n m : (64 * n <= length m)%nat -> Forall (fun b => length b = 64%nat) (blocks n m).
Proof.
  revert m. induction n as [|n IH]; intros m Hm; simpl; constructor.
  - rewrite length_take. lia.
  - apply IH. rewrite length_drop. lia.
Qed.

(** Two compression functions that agree on reachable digests give the same
    hash. *)
Lemma hash_ext t1 t2 rd wr iv low (ok : list Z -> Prop) m :
  ok iv -> (forall d ws, ok d -> length ws = 16%nat -> ok (t1 d ws) /\ t1 d ws = t2 d ws) ->
  hash t1 rd wr iv low m = hash t2 rd wr iv low m.
Proof.
  intros Hiv Ht. unfold hash. f_equal. f_equal. unfold compress.
  assert (Hb : Forall (fun b => length b = 64%nat) (blocks (length (pad wr low m) / 64) (pad wr low m))).
  { apply blocks_length. pose proof (Nat.div_mod_eq (length (pad wr low m)) 64). lia. }
  revert Hiv. generalize iv. induction Hb as [|b bs Hb _ IH]; intros d Hd; simpl; [done|].
  destruct (Ht d (words_of rd b) Hd) as [? <-]; [by apply length_words_of|]. by apply IH.
Qed.

(** Feeding the pieces of a message one after another. *)
Definition feed (update : ctx -> bytes -> outcome ctx) (c : ctx) (pieces : list bytes) : outcome ctx :=
  foldl (fun c d => c ← c; update c d) (Done c) pieces.
End Merkle.

(** ** Words of 32 bits *)

Definition LE_READ_UINT32 (p0 p1 p2 p3 : Z) : Z :=
  Z.lor (Z.lor (Z.lor (Z.shiftl p3 24) (Z.shiftl p2 16)) (Z.shiftl p1 8)) p0.
Definition LE_WRITE_UINT32 (i : Z) : bytes :=
  [Z.land i 0xff; Z.land (Z.shiftr i 8) 0xff; Z.land (Z.shiftr i 16) 0xff; Z.land (Z.shiftr i 24) 0xff].
Definition BE_READ_UINT32 (p0 p1 p2 p3 : Z) : Z :=
  Z.lor (Z.lor (Z.lor (Z.shiftl p0 24) (Z.shiftl p1 16)) (Z.shiftl p2 8)) p3.
Definition BE_WRITE_UINT32 (i : Z) : bytes :=
  [Z.land (Z.shiftr i 24) 0xff; Z.land (Z.shiftr i 16) 0xff; Z.land (Z.shiftr i 8) 0xff; Z.land i 0xff].

(** [~z] of a [uint32_t]. *)
Definition lnot32 (z : Z) : Z := Z.lxor z 0xffffffff.
(** [(x << n) | (x >> (32 - n))] *)
Definition ROTL (n x : Z) : Z := Z.lor (u32 (Z.shiftl x n)) (Z.shiftr x (32 - n)).

(** The rotation, arithmetically. *)
Definition rotl (n x : Z) : Z := x * 2 ^ n mod 2 ^ 32 + x / 2 ^ (32 - n).

Lemma read32_fields p0 p1 p2 p3 :
  is_byte p0 -> is_byte p1 -> is_byte p2 -> is_byte p3 ->
  BE_READ_UINT32 p0 p1 p2 p3 = p0 * 2 ^ 24 + p1 * 2 ^ 16 + p2 * 2 ^ 8 + p3.
Proof.
  unfold is_byte, BE_READ_UINT32. intros.
  replace (Z.shiftl p0 24) with (Z.shiftl (Z.shiftl p0 8) 16) by by rewrite Z.shiftl_shiftl.
  rewrite <- Z.shiftl_lor. rewrite (lor_shiftl_add p0 p1 8) by lia.
  replace (Z.shiftl (p0 * 2 ^ 8 + p1) 16) with (Z.shiftl (Z.shiftl (p0 * 2 ^ 8 + p1) 8) 8)
    by by rewrite Z.shiftl_shiftl.
  rewrite <- Z.shiftl_lor. rewrite (lor_shiftl_add _ p2 8), (lor_shiftl_add _ p3 8) by lia. lia.
Qed.

Lemma read32_write32 w :
  0 <= w < 2 ^ 32 ->
  BE_READ_UINT32 (Z.land (Z.shiftr w 24) 0xff) (Z.land (Z.shiftr w 16) 0xff)
    (Z.land (Z.shiftr w 8) 0xff) (Z.land w 0xff) = w.
Proof.
  intros Hw. rewrite !land_255, !shiftr_div by lia.
  rewrite read32_fields; unfold is_byte; div_lia.
Qed.

Lemma rotl_ROTL n x : 0 < n < 32 -> 0 <= x < 2 ^ 32 -> ROTL n x = rotl n x.
Proof.
  intros Hn Hx. unfold ROTL, rotl, u32.
  assert (Hp : 2 ^ 32 = 2 ^ n * 2 ^ (32 - n)) by (rewrite <- Z.pow_add_r by lia; f_equal; lia).
  pose proof (Z.pow_pos_nonneg 2 n). pose proof (Z.pow_pos_nonneg 2 (32 - n)).
  rewrite Z.shiftl_mul_pow2, shiftr_div by lia.
  replace (x * 2 ^ n mod 2 ^ 32) with (x mod 2 ^ (32 - n) * 2 ^ n).
  - rewrite <- Z.shiftl_mul_pow2, lor_shiftl_add by (lia || (split;
      [apply Z.div_pos; lia|apply Z.div_lt_upper_bound; lia])).
    by rewrite Z.shiftl_mul_pow2 by lia.
  - rewrite Hp, (Z.mul_comm (2 ^ n)), Z.mul_mod_distr_r by lia. done.
Qed.

Lemma rotl_range n x : 0 < n < 32 -> 0 <= x < 2 ^ 32 -> 0 <= rotl n x < 2 ^ 32.
Proof.
  intros Hn Hx. unfold rotl.
  assert (Hp : 2 ^ 32 = 2 ^ n * 2 ^ (32 - n)) by (rewrite <- Z.pow_add_r by lia; f_equal; lia).
  pose proof (Z.pow_pos_nonneg 2 n). pose proof (Z.pow_pos_nonneg 2 (32 - n)).
  replace (x * 2 ^ n mod 2 ^ 32) with (x mod 2 ^ (32 - n) * 2 ^ n).
  - pose proof (Z.mod_pos_bound x (2 ^ (32 - n)) ltac:(lia)).
    assert (0 <= x / 2 ^ (32 - n) < 2 ^ n) by (split; [apply Z.div_pos; lia|apply Z.div_lt_upper_bound; lia]).
    nia.
  - rewrite Hp, (Z.mul_comm (2 ^ n)), Z.mul_mod_distr_r by lia. done.
Qed.

(** ** MD5 *)

Module MD5.
Import Merkle.

Inductive reg := ra | rb | rc | rd.
Record regs := { va : Z; vb : Z; vc : Z; vd : Z }.

Definition get (s : regs) (r : reg) : Z :=
  match r with ra => va s | rb => vb s | rc => vc s | rd => vd s end.
Definition set (s : regs) (r : reg) (v : Z) : regs :=
  match r with
  | ra => {| va := v; vb := vb s; vc := vc s; vd := vd s |}
  | rb => {| va := va s; vb := v; vc := vc s; vd := vd s |}
  | rc => {| va := va s; vb := vb s; vc := v; vd := vd s |}
  | rd => {| va := va s; vb := vb s; vc := vc s; vd := v |}
  end.

Definition F1 (x y z : Z) : Z := Z.lxor z (Z.land x (Z.lxor y z)).
Definition F2 (x y z : Z) : Z := F1 z x y.
Definition F3 (x y z : Z) : Z := Z.lxor (Z.lxor x y) z.
Definition F4 (x y z : Z) : Z := Z.lxor y (Z.lor x (lnot32 z)).

(** One line [ROUND(f, w, x, y, z, data[k] + K, s);] *)
Record round := R { f : Z -> Z -> Z -> Z; w : reg; x : reg; y : reg; z : reg; k : Z; K : Z; s : Z }.

Definition ROUND (data : list Z) (s0 : regs) (r : round) : regs :=
  let arg := u32 (nth (Z.to_nat (k r)) data 0 + K r) in
  let v := u32 (get s0 (w r) + u32 (f r (get s0 (x r)) (get s0 (y r)) (get s0 (z r)) + arg)) in
  let v := ROTL (s r) v in
  set s0 (w r) (u32 (v + get s0 (x r))).

(** The body of [md5_transform]. *)
Definition md5_rounds : list round := [
  R F1 ra rb rc rd 0 0xd76aa478 7;
  R F1 rd ra rb rc 1 0xe8c7b756 12;
  R F1 rc rd ra rb 2 0x242070db 17;
  R F1 rb rc rd ra 3 0xc1bdceee 22;
  R F1 ra rb rc rd 4 0xf57c0faf 7;
  R F1 rd ra rb rc 5 0x4787c62a 12;
  R F1 rc rd ra rb 6 0xa8304613 17;
  R F1 rb rc rd ra 7 0xfd469501 22;
  R F1 ra rb rc rd 8 0x698098d8 7;
  R F1 rd ra rb rc 9 0x8b44f7af 12;
  R F1 rc rd ra rb 10 0xffff5bb1 17;
  R F1 rb rc rd ra 11 0x895cd7be 22;
  R F1 ra rb rc rd 12 0x6b901122 7;
  R F1 rd ra rb rc 13 0xfd987193 12;
  R F1 rc rd ra rb 14 0xa679438e 17;
  R F1 rb rc rd ra 15 0x49b40821 22;
  R F2 ra rb rc rd 1 0xf61e2562 5;
  R F2 rd ra rb rc 6 0xc040b340 9;
  R F2 rc rd ra rb 11 0x265e5a51 14;
  R F2 rb rc rd ra 0 0xe9b6c7aa 20;
  R F2 ra rb rc rd 5 0xd62f105d 5;
  R F2 rd ra rb rc 10 0x02441453 9;
  R F2 rc rd ra rb 15 0xd8a1e681 14;
  R F2 rb rc rd ra 4 0xe7d3fbc8 20;
  R F2 ra rb rc rd 9 0x21e1cde6 5;
  R F2 rd ra rb rc 14 0xc33707d6 9;
  R F2 rc rd ra rb 3 0xf4d50d87 14;
  R F2 rb rc rd ra 8 0x455a14ed 20;
  R F2 ra rb rc rd 13 0xa9e3e905 5;
  R F2 rd ra rb rc 2 0xfcefa3f8 9;
  R F2 rc rd ra rb 7 0x676f02d9 14;
  R F2 rb rc rd ra 12 0x8d2a4c8a 20;
  R F3 ra rb rc rd 5 0xfffa3942 4;
  R F3 rd ra rb rc 8 0x8771f681 11;
  R F3 rc rd ra rb 11 0x6d9d6122 16;
  R F3 rb rc rd ra 14 0xfde5380c 23;
  R F3 ra rb rc rd 1 0xa4beea44 4;
  R F3 rd ra rb rc 4 0x4bdecfa9 11;
  R F3 rc rd ra rb 7 0xf6bb4b60 16;
  R F3 rb rc rd ra 10 0xbebfbc70 23;
  R F3 ra rb rc rd 13 0x289b7ec6 4;
  R F3 rd ra rb rc 0 0xeaa127fa 11;
  R F3 rc rd ra rb 3 0xd4ef3085 16;
  R F3 rb rc rd ra 6 0x04881d05 23;
  R F3 ra rb rc rd 9 0xd9d4d039 4;
  R F3 rd ra rb rc 12 0xe6db99e5 11;
  R F3 rc rd ra rb 15 0x1fa27cf8 16;
  R F3 rb rc rd ra 2 0xc4ac5665 23;
  R F4 ra rb rc rd 0 0xf4292244 6;
  R F4 rd ra rb rc 7 0x432aff97 10;
  R F4 rc rd ra rb 14 0xab9423a7 15;
  R F4 rb rc rd ra 5 0xfc93a039 21;
  R F4 ra rb rc rd 12 0x655b59c3 6;
  R F4 rd ra rb rc 3 0x8f0ccc92 10;
  R F4 rc rd ra rb 10 0xffeff47d 15;
  R F4 rb rc rd ra 1 0x85845dd1 21;
  R F4 ra rb rc rd 8 0x6fa87e4f 6;
  R F4 rd ra rb rc 15 0xfe2ce6e0 10;
  R F4 rc rd ra rb 6 0xa3014314 15;
  R F4 rb rc rd ra 13 0x4e0811a1 21;
  R F4 ra rb rc rd 4 0xf7537e82 6;
  R F4 rd ra rb rc 11 0xbd3af235 10;
  R F4 rc rd ra rb 2 0x2ad7d2bb 15;
  R F4 rb rc rd ra 9 0xeb86d391 21].

Definition md5_transform (digest data : list Z) : list Z :=
  match digest with
  | [a; b; c; d] =>
      let s := foldl (ROUND data) {| va := a; vb := b; vc := c; vd := d |} md5_rounds in
      [u32 (a + va s); u32 (b + vb s); u32 (c + vc s); u32 (d + vd s)]
  | _ => digest
  end.

Definition md5_iv : list Z := [0x67452301; 0xefcdab89; 0x98badcfe; 0x10325476].

Definition md5_init := init md5_iv.
Definition md5_update := update md5_transform LE_READ_UINT32.
Definition md5_final := final md5_transform LE_READ_UINT32 true.
Definition md5_digest := digest_out LE_WRITE_UINT32 md5_iv.
Definition do_md5_digest := finish md5_transform LE_READ_UINT32 LE_WRITE_UINT32 md5_iv true.

(** *** RFC 1321 *)

Definition T : list Z := [
  0xd76aa478; 0xe8c7b756; 0x242070db; 0xc1bdceee;
  0xf57c0faf; 0x4787c62a; 0xa8304613; 0xfd469501;
  0x698098d8; 0x8b44f7af; 0xffff5bb1; 0x895cd7be;
  0x6b901122; 0xfd987193; 0xa679438e; 0x49b40821;
  0xf61e2562; 0xc040b340; 0x265e5a51; 0xe9b6c7aa;
  0xd62f105d; 0x02441453; 0xd8a1e681; 0xe7d3fbc8;
  0x21e1cde6; 0xc33707d6; 0xf4d50d87; 0x455a14ed;
  0xa9e3e905; 0xfcefa3f8; 0x676f02d9; 0x8d2a4c8a;
  0xfffa3942; 0x8771f681; 0x6d9d6122; 0xfde5380c;
  0xa4beea44; 0x4bdecfa9; 0xf6bb4b60; 0xbebfbc70;
  0x289b7ec6; 0xeaa127fa; 0xd4ef3085; 0x04881d05;
  0xd9d4d039; 0xe6db99e5; 0x1fa27cf8; 0xc4ac5665;
  0xf4292244; 0x432aff97; 0xab9423a7; 0xfc93a039;
  0x655b59c3; 0x8f0ccc92; 0xffeff47d; 0x85845dd1;
  0x6fa87e4f; 0xfe2ce6e0; 0xa3014314; 0x4e0811a1;
  0xf7537e82; 0xbd3af235; 0x2ad7d2bb; 0xeb86d391].

Definition shifts : list (list Z) := [[7; 12; 17; 22]; [5; 9; 14; 20]; [4; 11; 16; 23]; [6; 10; 15; 21]].

(** Step [i] of the 64, in the rotating form of the RFC: the function, the
    word of the message and the shift amount of the step are computed from
    its number. *)
Definition rfc_step (m : list Z) (s : Z * Z * Z * Z) (i : nat) : Z * Z * Z * Z :=
  let '(a, b, c, d) := s in
  let '(f, g) :=
    match (i / 16)%nat with
    | 0%nat => (Z.lor (Z.land b c) (Z.land (Z.lnot b) d), i)
    | 1%nat => (Z.lor (Z.land b d) (Z.land c (Z.lnot d)), (5 * i + 1)%nat)
    | 2%nat => (Z.lxor (Z.lxor b c) d, (3 * i + 5)%nat)
    | _ => (Z.lxor c (Z.lor b (2 ^ 32 - 1 - d)), (7 * i)%nat)
    end in
  let sh := nth (i mod 4) (nth (i / 16) shifts []) 0 in
  let sum := (a + f + nth (g mod 16) m 0 + nth i T 0) mod 2 ^ 32 in
  (d, (b + rotl sh sum) mod 2 ^ 32, b, c).

Definition rfc_transform (digest m : list Z) : list Z :=
  match digest with
  | [a; b; c; d] =>
      let '(a', b', c', d') := foldl (rfc_step m) (a, b, c, d) (seq 0 64) in
      [(a + a') mod 2 ^ 32; (b + b') mod 2 ^ 32; (c + c') mod 2 ^ 32; (d + d') mod 2 ^ 32]
  | _ => digest
  end.

Definition rfc_md5 (m : bytes) : bytes := hash rfc_transform LE_READ_UINT32 LE_WRITE_UINT32 md5_iv true m.

(** *** The unrolled rounds are the loop of the RFC *)

Lemma lnot32_sub z : 0 <= z < 2 ^ 32 -> lnot32 z = 2 ^ 32 - 1 - z.
Proof.
  intros Hz. unfold lnot32. change 0xffffffff with (Z.ones 32).
  assert (Hn : Z.land z (Z.lxor z (Z.ones 32)) = 0).
  { apply Z.bits_inj'. intros n Hn. rewrite Z.land_spec, Z.lxor_spec, Z.bits_0.
    destruct (decide (n < 32)).
    - rewrite Z.ones_spec_low by lia. by destruct (Z.testbit z n).
    - rewrite <- (Z.mod_small z (2 ^ 32)), Z.mod_pow2_bits_high by lia. done. }
  pose proof (Z.add_nocarry_lxor _ _ Hn) as E.
  rewrite <- Z.lxor_assoc, Z.lxor_nilpotent, Z.lxor_0_l in E. rewrite Z.ones_equiv in *. lia.
Qed.

(** Bitwise identities, one bit at a time. *)
Ltac bitwise := apply Z.bits_inj'; intros;
  repeat (rewrite ?Z.lxor_spec, ?Z.land_spec, ?Z.lor_spec, ?Z.lnot_spec by lia);
  repeat match goal with |- context [Z.testbit ?a ?b] => destruct (Z.testbit a b) end; reflexivity.

Lemma F1_rfc x y z : F1 x y z = Z.lor (Z.land x y) (Z.land (Z.lnot x) z).
Proof. unfold F1. bitwise. Qed.
Lemma F2_rfc x y z : F2 x y z = Z.lor (Z.land x z) (Z.land y (Z.lnot z)).
Proof. unfold F2, F1. bitwise. Qed.

Definition roles (i : nat) : reg * reg * reg * reg :=
  match (i mod 4)%nat with
  | 0%nat => (ra, rb, rc, rd) | 1%nat => (rd, ra, rb, rc)
  | 2%nat => (rc, rd, ra, rb) | _ => (rb, rc, rd, ra)
  end.

Definition fn_at (i : nat) : Z -> Z -> Z -> Z :=
  match (i / 16)%nat with 0%nat => F1 | 1%nat => F2 | 2%nat => F3 | _ => F4 end.
Definition word_at (i : nat) : nat :=
  match (i / 16)%nat with
  | 0%nat => i | 1%nat => 5 * i + 1 | 2%nat => 3 * i + 5 | _ => 7 * i end mod 16.
Definition shift_at (i : nat) : Z := nth (i mod 4) (nth (i / 16) shifts []) 0.

Definition round_at (i : nat) : round :=
  let '(w, x, y, z) := roles i in
  R (fn_at i) w x y z (Z.of_nat (word_at i)) (nth i T 0) (shift_at i).

Lemma md5_rounds_at : md5_rounds = round_at <$> seq 0 64.
Proof. reflexivity. Qed.

Definition view (i : nat) (s : regs) : Z * Z * Z * Z :=
  let '(w, x, y, z) := roles i in (get s w, get s x, get s y, get s z).

Definition regs_ok (s : regs) : Prop := forall r, 0 <= get s r < 2 ^ 32.

Lemma ROUND_ok data s r : regs_ok s -> regs_ok (ROUND data s r).
Proof.
  intros Hs q. unfold ROUND. generalize (u32_range (ROTL (MD5.s r) (u32 (get s (w r)
    + u32 (f r (get s (x r)) (get s (y r)) (get s (z r)) + u32 (nth (Z.to_nat (k r)) data 0 + K r)))) + get s (x r))).
  generalize (u32 (ROTL (MD5.s r) (u32 (get s (w r)
    + u32 (f r (get s (x r)) (get s (y r)) (get s (z r)) + u32 (nth (Z.to_nat (k r)) data 0 + K r)))) + get s (x r))).
  intros v Hv. pose proof (Hs ra). pose proof (Hs rb). pose proof (Hs rc). pose proof (Hs rd).
  destruct (w r), q; simpl in *; done.
Qed.

Lemma view_step data s i f' a b c d :
  view i s = (a, b, c, d) -> f' = fn_at i b c d ->
  view (S i) (ROUND data s (round_at i))
  = (d, u32 (ROTL (shift_at i) (u32 (a + u32 (f' + u32 (nth (word_at i) data 0 + nth i T 0)))) + b), b, c).
Proof.
  unfold view, round_at, roles, ROUND. intros Hv Hf.
  assert (E : (S i mod 4 = if i mod 4 =? 3 then 0 else i mod 4 + 1)%nat).
  { pose proof (Nat.mod_upper_bound i 4). replace (S i) with (i + 1)%nat by lia.
    rewrite <- Nat.Div0.add_mod_idemp_l. destruct (Nat.eqb_spec (i mod 4) 3) as [-> | ]; [done|].
    rewrite Nat.mod_small; lia. }
  rewrite E. pose proof (Nat.mod_upper_bound i 4 ltac:(lia)).
  destruct (i mod 4)%nat as [|[|[|[|]]]]; try lia; simpl in *; injection Hv as <- <- <- <-;
    rewrite Nat2Z.id; subst f'; reflexivity.
Qed.

Lemma shift_at_range i : (i < 64)%nat -> 0 < shift_at i < 32.
Proof.
  intros Hi. assert (H : forallb (fun i => (0 <? shift_at i) && (shift_at i <? 32)) (seq 0 64) = true)
    by reflexivity.
  rewrite forallb_forall in H. specialize (H i ltac:(apply in_seq; lia)).
  rewrite andb_true_iff, !Z.ltb_lt in H. done.
Qed.

Lemma view_ok i s a b c d : regs_ok s -> view i s = (a, b, c, d) -> 0 <= d < 2 ^ 32.
Proof. unfold view. intros Hs. destruct (roles i) as [[[w x] y] z]. intros [= <- <- <- <-]. apply Hs. Qed.

Lemma round_rfc data s i :
  regs_ok s -> (i < 64)%nat ->
  view (S i) (ROUND data s (round_at i)) = rfc_step data (view i s) i.
Proof.
  intros Hs Hi. destruct (view i s) as [[[a b] c] d] eqn:Ev.
  pose proof (view_ok i s a b c d Hs Ev) as Hd. rewrite (view_step data s i _ a b c d Ev eq_refl).
  rewrite rotl_ROTL by (apply shift_at_range || apply u32_range; done).
  rewrite u32_add_r, Z.add_assoc, u32_add_r, Z.add_assoc, (Z.add_comm _ b). unfold u32, rfc_step, fn_at, word_at, shift_at.
  assert (i / 16 = 0 \/ i / 16 = 1 \/ i / 16 = 2 \/ i / 16 = 3)%nat as [E|[E|[E|E]]]
    by (assert (i / 16 < 4)%nat by (apply Nat.Div0.div_lt_upper_bound; lia); lia).
  all: rewrite E, ?F1_rfc, ?F2_rfc; unfold F3, F4; rewrite ?lnot32_sub by done.
  all: done.
Qed.

Lemma rounds_rfc data n s i :
  regs_ok s -> (i + n <= 64)%nat ->
  view (i + n) (foldl (ROUND data) s (round_at <$> seq i n)) = foldl (rfc_step data) (view i s) (seq i n).
Proof.
  revert s i. induction n as [|n IH]; intros s i Hs Hi; [by rewrite Nat.add_0_r|].
  cbn [seq fmap list_fmap foldl]. rewrite <- round_rfc by (done || lia).
  rewrite <- IH by (try lia; by apply ROUND_ok). by replace (i + S n)%nat with (S i + n)%nat by lia.
Qed.

Definition words_ok (d : list Z) : Prop := Forall (fun w => 0 <= w < 2 ^ 32) d.

(** The digest is updated from the registers as they stand after the last
    round, when every register is back in its own role. *)
Lemma digest_view a b c d s r :
  view (0 + 64) s = r ->
  [u32 (a + va s); u32 (b + vb s); u32 (c + vc s); u32 (d + vd s)]
  = let '(a', b', c', d') := r in
    [(a + a') mod 2 ^ 32; (b + b') mod 2 ^ 32; (c + c') mod 2 ^ 32; (d + d') mod 2 ^ 32].
Proof. intros <-. reflexivity. Qed.

Lemma view_0 s a b c d :
  s = {| va := a; vb := b; vc := c; vd := d |} -> view 0 s = (a, b, c, d).
Proof. by intros ->. Qed.

Lemma md5_transform_rfc digest data :
  words_ok digest -> md5_transform digest data = rfc_transform digest data.
Proof.
  intros Hd. destruct digest as [|a [|b [|c [|d [|]]]]]; try done.
  repeat (apply Forall_cons in Hd as [? Hd]). unfold md5_transform, rfc_transform.
  apply digest_view. rewrite md5_rounds_at, rounds_rfc by (lia || intros []; done).
  by rewrite (view_0 _ a b c d eq_refl).
Qed.

Lemma md5_transform_length d ws : length d = 4%nat -> length (md5_transform d ws) = 4%nat.
Proof. destruct d as [|a [|b [|c [|e [|]]]]]; done. Qed.

Lemma LE_words w r :
  0 <= w < 2 ^ 32 -> words_of LE_READ_UINT32 (LE_WRITE_UINT32 w ++ r) = w :: words_of LE_READ_UINT32 r.
Proof.
  intros Hw. simpl. f_equal.
  apply (read32_write32 w Hw).
Qed.

Lemma md5_iv_ok : words_ok md5_iv.
Proof. repeat constructor; done. Qed.

Lemma md5_hash m : hash md5_transform LE_READ_UINT32 LE_WRITE_UINT32 md5_iv true m = rfc_md5 m.
Proof.
  apply (hash_ext _ _ _ _ _ _ words_ok m md5_iv_ok). intros d ws Hd _.
  split; [|by apply md5_transform_rfc]. destruct d as [|a [|b [|c [|e [|]]]]]; try done.
  repeat (constructor; [apply u32_range|]). constructor.
Qed.

(** C31.  MD5 computes RFC 1321: whatever pieces the message is fed in, the
    64 unrolled rounds, the buffering and the padding give the digest of the
    RFC's description, no copy leaves the block buffer, and the context is
    ready for another message. *)
Theorem md5_correct c0 pieces (Hb : length (block c0) = 64%nat) :
  exists c c', feed md5_update (md5_init c0) pieces = Done c
  /\ do_md5_digest c = Done (c', rfc_md5 (mjoin pieces))
  /\ length (block c') = 64%nat /\ c' = md5_init c'.
Proof.
  destruct (updates_hash md5_transform LE_READ_UINT32 LE_WRITE_UINT32 md5_iv true
    md5_transform_length eq_refl (fun _ => eq_refl) LE_words c0 pieces Hb) as (c&c'&E1&E2&E3).
  rewrite md5_hash in E2. exists c, c'. split_and!; [done|done| |].
  - by destruct E3 as (?&?&_&(?&_&_&?&_)&_).
  - unfold do_md5_digest, finish in E2. apply outcome_bind_Done in E2 as (c1&_&E2).
    apply outcome_bind_Done in E2 as (d&_&[= <- _]). done.
Qed.

Definition ctx0 : ctx :=
  {| digest := []; count_l := 0; count_h := 0; block := replicate 64 0; index := 0 |}.

(** The digest of [abc], fed in two pieces. *)
Lemma md5_correct_witness :
  rfc_md5 (bytes_of_string "abc")
  = [0x90; 0x01; 0x50; 0x98; 0x3c; 0xd2; 0x4f; 0xb0; 0xd6; 0x96; 0x3f; 0x7d; 0x28; 0xe1; 0x7f; 0x72]
  /\ exists c c', feed md5_update (md5_init ctx0) [bytes_of_string "a"; bytes_of_string "bc"] = Done c
  /\ do_md5_digest c = Done (c', rfc_md5 (bytes_of_string "abc"))
  /\ length (block c') = 64%nat /\ c' = md5_init c'.
Proof. split; [by vm_compute|]. exact (md5_correct ctx0 [_; _] eq_refl). Defined.
End MD5.

(** ** SHA-1 *)

Module SHA1.
Import Merkle.

Inductive reg := rA | rB | rC | rD | rE.
Record regs := { vA : Z; vB : Z; vC : Z; vD : Z; vE : Z }.

Definition get (s : regs) (r : reg) : Z :=
  match r with rA => vA s | rB => vB s | rC => vC s | rD => vD s | rE => vE s end.
Definition set (s : regs) (r : reg) (v : Z) : regs :=
  match r with
  | rA => {| vA := v; vB := vB s; vC := vC s; vD := vD s; vE := vE s |}
  | rB => {| vA := vA s; vB := v; vC := vC s; vD := vD s; vE := vE s |}
  | rC => {| vA := vA s; vB := vB s; vC := v; vD := vD s; vE := vE s |}
  | rD => {| vA := vA s; vB := vB s; vC := vC s; vD := v; vE := vE s |}
  | rE => {| vA := vA s; vB := vB s; vC := vC s; vD := vD s; vE := v |}
  end.

Definition f1 (x y z : Z) : Z := Z.lxor z (Z.land x (Z.lxor y z)).
Definition f2 (x y z : Z) : Z := Z.lxor (Z.lxor x y) z.
Definition f3 (x y z : Z) : Z := Z.lor (Z.land x y) (Z.land z (Z.lor x y)).
Definition f4 (x y z : Z) : Z := Z.lxor (Z.lxor x y) z.

Definition K1 : Z := 0x5A827999.
Definition K2 : Z := 0x6ED9EBA1.
Definition K3 : Z := 0x8F1BBCDC.
Definition K4 : Z := 0xCA62C1D6.

(** The data word of a line: [data[i]], or [expand(data, i)], which updates
    the circular buffer. *)
Inductive word := Data (i : nat) | Expand (i : nat).

Definition expand (W : list Z) (i : nat) : Z * list Z :=
  let at_ j := nth (j mod 16) W 0 in
  let v := ROTL 1 (Z.lxor (Z.lxor (Z.lxor (at_ i) (at_ (i - 14))) (at_ (i - 8))) (at_ (i - 3)))%nat in
  (v, <[(i mod 16)%nat := v]> W).

Definition fetch (data : list Z) (w : word) : Z * list Z :=
  match w with Data i => (nth i data 0, data) | Expand i => expand data i end.

(** One line [subRound(a, b, c, d, e, f, k, data);] *)
Record sub_round := SR { a : reg; b : reg; c : reg; d : reg; e : reg; f : Z -> Z -> Z -> Z; k : Z; dat : word }.

Definition subRound (st : regs * list Z) (r : sub_round) : regs * list Z :=
  let '(s, data) := st in
  let '(v, data) := fetch data (dat r) in
  let s := set s (e r) (u32 (get s (e r)
    + u32 (u32 (u32 (ROTL 5 (get s (a r)) + f r (get s (b r)) (get s (c r)) (get s (d r))) + k r) + v))) in
  (set s (b r) (ROTL 30 (get s (b r))), data).

(** The body of [sha1_transform]. *)
Definition sha1_rounds : list sub_round := [
  SR rA rB rC rD rE f1 K1 (Data 0);
  SR rE rA rB rC rD f1 K1 (Data 1);
  SR rD rE rA rB rC f1 K1 (Data 2);
  SR rC rD rE rA rB f1 K1 (Data 3);
  SR rB rC rD rE rA f1 K1 (Data 4);
  SR rA rB rC rD rE f1 K1 (Data 5);
  SR rE rA rB rC rD f1 K1 (Data 6);
  SR rD rE rA rB rC f1 K1 (Data 7);
  SR rC rD rE rA rB f1 K1 (Data 8);
  SR rB rC rD rE rA f1 K1 (Data 9);
  SR rA rB rC rD rE f1 K1 (Data 10);
  SR rE rA rB rC rD f1 K1 (Data 11);
  SR rD rE rA rB rC f1 K1 (Data 12);
  SR rC rD rE rA rB f1 K1 (Data 13);
  SR rB rC rD rE rA f1 K1 (Data 14);
  SR rA rB rC rD rE f1 K1 (Data 15);
  SR rE rA rB rC rD f1 K1 (Expand 16);
  SR rD rE rA rB rC f1 K1 (Expand 17);
  SR rC rD rE rA rB f1 K1 (Expand 18);
  SR rB rC rD rE rA f1 K1 (Expand 19);
  SR rA rB rC rD rE f2 K2 (Expand 20);
  SR rE rA rB rC rD f2 K2 (Expand 21);
  SR rD rE rA rB rC f2 K2 (Expand 22);
  SR rC rD rE rA rB f2 K2 (Expand 23);
  SR rB rC rD rE rA f2 K2 (Expand 24);
  SR rA rB rC rD rE f2 K2 (Expand 25);
  SR rE rA rB rC rD f2 K2 (Expand 26);
  SR rD rE rA rB rC f2 K2 (Expand 27);
  SR rC rD rE rA rB f2 K2 (Expand 28);
  SR rB rC rD rE rA f2 K2 (Expand 29);
  SR rA rB rC rD rE f2 K2 (Expand 30);
  SR rE rA rB rC rD f2 K2 (Expand 31);
  SR rD rE rA rB rC f2 K2 (Expand 32);
  SR rC rD rE rA rB f2 K2 (Expand 33);
  SR rB rC rD rE rA f2 K2 (Expand 34);
  SR rA rB rC rD rE f2 K2 (Expand 35);
  SR rE rA rB rC rD f2 K2 (Expand 36);
  SR rD rE rA rB rC f2 K2 (Expand 37);
  SR rC rD rE rA rB f2 K2 (Expand 38);
  SR rB rC rD rE rA f2 K2 (Expand 39);
  SR rA rB rC rD rE f3 K3 (Expand 40);
  SR rE rA rB rC rD f3 K3 (Expand 41);
  SR rD rE rA rB rC f3 K3 (Expand 42);
  SR rC rD rE rA rB f3 K3 (Expand 43);
  SR rB rC rD rE rA f3 K3 (Expand 44);
  SR rA rB rC rD rE f3 K3 (Expand 45);
  SR rE rA rB rC rD f3 K3 (Expand 46);
  SR rD rE rA rB rC f3 K3 (Expand 47);
  SR rC rD rE rA rB f3 K3 (Expand 48);
  SR rB rC rD rE rA f3 K3 (Expand 49);
  SR rA rB rC rD rE f3 K3 (Expand 50);
  SR rE rA rB rC rD f3 K3 (Expand 51);
  SR rD rE rA rB rC f3 K3 (Expand 52);
  SR rC rD rE rA rB f3 K3 (Expand 53);
  SR rB rC rD rE rA f3 K3 (Expand 54);
  SR rA rB rC rD rE f3 K3 (Expand 55);
  SR rE rA rB rC rD f3 K3 (Expand 56);
  SR rD rE rA rB rC f3 K3 (Expand 57);
  SR rC rD rE rA rB f3 K3 (Expand 58);
  SR rB rC rD rE rA f3 K3 (Expand 59);
  SR rA rB rC rD rE f4 K4 (Expand 60);
  SR rE rA rB rC rD f4 K4 (Expand 61);
  SR rD rE rA rB rC f4 K4 (Expand 62);
  SR rC rD rE rA rB f4 K4 (Expand 63);
  SR rB rC rD rE rA f4 K4 (Expand 64);
  SR rA rB rC rD rE f4 K4 (Expand 65);
  SR rE rA rB rC rD f4 K4 (Expand 66);
  SR rD rE rA rB rC f4 K4 (Expand 67);
  SR rC rD rE rA rB f4 K4 (Expand 68);
  SR rB rC rD rE rA f4 K4 (Expand 69);
  SR rA rB rC rD rE f4 K4 (Expand 70);
  SR rE rA rB rC rD f4 K4 (Expand 71);
  SR rD rE rA rB rC f4 K4 (Expand 72);
  SR rC rD rE rA rB f4 K4 (Expand 73);
  SR rB rC rD rE rA f4 K4 (Expand 74);
  SR rA rB rC rD rE f4 K4 (Expand 75);
  SR rE rA rB rC rD f4 K4 (Expand 76);
  SR rD rE rA rB rC f4 K4 (Expand 77);
  SR rC rD rE rA rB f4 K4 (Expand 78);
  SR rB rC rD rE rA f4 K4 (Expand 79)].

Definition sha1_transform (state data : list Z) : list Z :=
  match state with
  | [A; B; C; D; E] =>
      let '(s, _) := foldl subRound ({| vA := A; vB := B; vC := C; vD := D; vE := E |}, data) sha1_rounds in
      [u32 (A + vA s); u32 (B + vB s); u32 (C + vC s); u32 (D + vD s); u32 (E + vE s)]
  | _ => state
  end.

Definition sha1_iv : list Z := [0x67452301; 0xEFCDAB89; 0x98BADCFE; 0x10325476; 0xC3D2E1F0].

Definition sha1_init := init sha1_iv.
Definition sha1_update := update sha1_transform BE_READ_UINT32.
Definition sha1_final := final sha1_transform BE_READ_UINT32 false.
Definition sha1_digest := digest_out BE_WRITE_UINT32 sha1_iv.
Definition do_sha_digest := finish sha1_transform BE_READ_UINT32 BE_WRITE_UINT32 sha1_iv false.

(** *** FIPS 180: the message schedule and the 80 steps *)

Definition next_word (W : list Z) : Z :=
  let at_ j := nth (length W - j) W 0 in
  ROTL 1 (Z.lxor (Z.lxor (Z.lxor (at_ 16%nat) (at_ 14%nat)) (at_ 8%nat)) (at_ 3%nat)).

(** [n] more words of the schedule. *)
Fixpoint schedule (n : nat) (W : list Z) : list Z :=
  match n with O => W | S n => schedule n (W ++ [next_word W]) end.

Definition fips_step (W : list Z) (s : Z * Z * Z * Z * Z) (t : nat) : Z * Z * Z * Z * Z :=
  let '(a, b, c, d, e) := s in
  let '(f, k) :=
    match (t / 20)%nat with
    | 0%nat => (Z.lor (Z.land b c) (Z.land (Z.lnot b) d), 0x5A827999)
    | 1%nat => (Z.lxor (Z.lxor b c) d, 0x6ED9EBA1)
    | 2%nat => (Z.lor (Z.lor (Z.land b c) (Z.land b d)) (Z.land c d), 0x8F1BBCDC)
    | _ => (Z.lxor (Z.lxor b c) d, 0xCA62C1D6)
    end in
  ((ROTL 5 a + f + e + k + nth t W 0) mod 2 ^ 32, a, ROTL 30 b, c, d).

Definition fips_transform (state M : list Z) : list Z :=
  match state with
  | [h0; h1; h2; h3; h4] =>
      let '(a, b, c, d, e) := foldl (fips_step (schedule 64 M)) (h0, h1, h2, h3, h4) (seq 0 80) in
      [(h0 + a) mod 2 ^ 32; (h1 + b) mod 2 ^ 32; (h2 + c) mod 2 ^ 32; (h3 + d) mod 2 ^ 32; (h4 + e) mod 2 ^ 32]
  | _ => state
  end.

Definition fips_sha1 (m : bytes) : bytes := hash fips_transform BE_READ_UINT32 BE_WRITE_UINT32 sha1_iv false m.

(** *** The rounds on the circular buffer are the steps on the schedule *)

Lemma f3_maj x y z : f3 x y z = Z.lor (Z.lor (Z.land x y) (Z.land x z)) (Z.land y z).
Proof. unfold f3. MD5.bitwise. Qed.
Lemma f1_choose x y z : f1 x y z = Z.lor (Z.land x y) (Z.land (Z.lnot x) z).
Proof. apply MD5.F1_rfc. Qed.

Lemma length_schedule n W : length (schedule n W) = (length W + n)%nat.
Proof. revert W. induction n; intros W; simpl; [lia|]. rewrite IHn, length_app. simpl. lia. Qed.

Lemma schedule_prefix n W i : (i < length W)%nat -> nth i (schedule n W) 0 = nth i W 0.
Proof.
  revert W. induction n as [|n IH]; intros W Hi; simpl; [done|].
  rewrite IH by (rewrite length_app; lia). by apply app_nth1.
Qed.

(** The recurrence of the schedule. *)
Lemma schedule_rec n W i :
  (16 <= length W <= i)%nat -> (i < length W + n)%nat ->
  let at_ j := nth (i - j) (schedule n W) 0 in
  nth i (schedule n W) 0
  = ROTL 1 (Z.lxor (Z.lxor (Z.lxor (at_ 16%nat) (at_ 14%nat)) (at_ 8%nat)) (at_ 3%nat)).
Proof.
  revert W. induction n as [|n IH]; intros W Hi Hn at_; [lia|].
  destruct (decide (i = length W)) as [->|].
  - subst at_. cbn [schedule]. rewrite !schedule_prefix by (rewrite length_app; simpl; lia).
    rewrite app_nth2, Nat.sub_diag by lia. unfold next_word. simpl nth at 1.
    by rewrite !app_nth1 by lia.
  - apply (IH (W ++ [next_word W])); rewrite length_app; simpl; lia.
Qed.

#[local] Opaque schedule.

Section Rounds.
Variables M W : list Z.
Hypothesis M_length : length M = 16%nat.
Hypothesis W_schedule : W = schedule 64 M.

(** Before round [i] the buffer holds the last sixteen words. *)
Definition buffer (i : nat) (data : list Z) : Prop :=
  length data = 16%nat
  /\ forall j, (i `max` 16 - 16 <= j < i `max` 16)%nat -> nth (j mod 16) data 0 = nth j W 0.

Lemma buffer_0 : buffer 0 M.
Proof.
  split; [done|]. intros j Hj. rewrite Nat.mod_small by lia. by rewrite W_schedule, schedule_prefix by lia.
Qed.

Lemma word_recurrence i :
  (16 <= i < 80)%nat ->
  nth i W 0 = ROTL 1 (Z.lxor (Z.lxor (Z.lxor (nth (i - 16) W 0) (nth (i - 14) W 0)) (nth (i - 8) W 0)) (nth (i - 3) W 0)).
Proof. intros Hi. rewrite W_schedule. apply schedule_rec; lia. Qed.

Definition word_at (i : nat) : word := if (i <? 16)%nat then Data i else Expand i.

Lemma expand_buffer i data :
  buffer i data -> (16 <= i < 80)%nat ->
  expand data i = (nth i W 0, <[(i mod 16)%nat := nth i W 0]> data).
Proof.
  intros [Hl Hb] Hi. unfold expand. cbv zeta.
  replace (nth (i mod 16) data 0) with (nth ((i - 16) mod 16) data 0).
  - rewrite !Hb by lia. by rewrite <- (word_recurrence i Hi).
  - f_equal. rewrite <- (Nat.Div0.mod_add (i - 16) 1). f_equal. lia.
Qed.

Lemma fetch_buffer i data :
  buffer i data -> (i < 80)%nat ->
  exists data', fetch data (word_at i) = (nth i W 0, data') /\ buffer (S i) data'.
Proof.
  intros Hd Hi. pose proof Hd as [Hl Hb]. unfold word_at. destruct (Nat.ltb_spec i 16) as [Hs|Hs].
  - exists data. split; [|split; [done|intros j Hj; apply Hb; lia]]. simpl. f_equal.
    rewrite <- (Hb i) by lia. by rewrite Nat.mod_small.
  - eexists. split; [|split].
    + unfold fetch. apply expand_buffer; [exact Hd|lia].
    + by rewrite length_insert.
    + intros j Hj. destruct (decide (j = i)) as [->|Hne].
      * by rewrite nth_lookup, list_lookup_insert_eq by (rewrite Hl; by apply Nat.mod_upper_bound).
      * rewrite nth_lookup, list_lookup_insert_ne, <- nth_lookup; [apply Hb; lia|].
        intros E. pose proof (Nat.div_mod_eq i 16). pose proof (Nat.div_mod_eq j 16). nia.
Qed.
End Rounds.

Definition fn_at (i : nat) : Z -> Z -> Z -> Z :=
  match (i / 20)%nat with 0%nat => f1 | 1%nat => f2 | 2%nat => f3 | _ => f4 end.
Definition K_at (i : nat) : Z :=
  match (i / 20)%nat with 0%nat => K1 | 1%nat => K2 | 2%nat => K3 | _ => K4 end.

Definition roles (i : nat) : reg * reg * reg * reg * reg :=
  match (i mod 5)%nat with
  | 0%nat => (rA, rB, rC, rD, rE) | 1%nat => (rE, rA, rB, rC, rD)
  | 2%nat => (rD, rE, rA, rB, rC) | 3%nat => (rC, rD, rE, rA, rB)
  | _ => (rB, rC, rD, rE, rA)
  end.

Definition round_at (i : nat) : sub_round :=
  let '(a, b, c, d, e) := roles i in SR a b c d e (fn_at i) (K_at i) (word_at i).

Lemma sha1_rounds_at : sha1_rounds = round_at <$> seq 0 80.
Proof. reflexivity. Qed.

Definition view (i : nat) (s : regs) : Z * Z * Z * Z * Z :=
  let '(a, b, c, d, e) := roles i in (get s a, get s b, get s c, get s d, get s e).

Lemma sha1_view_step s data data' i v a b c d e :
  view i s = (a, b, c, d, e) -> fetch data (word_at i) = (v, data') ->
  exists s', subRound (s, data) (round_at i) = (s', data')
  /\ view (S i) s' = (u32 (e + u32 (u32 (u32 (ROTL 5 a + fn_at i b c d) + K_at i) + v)), a, ROTL 30 b, c, d).
Proof.
  unfold view, round_at, roles. intros Hv Hf.
  assert (E : (S i mod 5 = if i mod 5 =? 4 then 0 else i mod 5 + 1)%nat).
  { pose proof (Nat.mod_upper_bound i 5). replace (S i) with (i + 1)%nat by lia.
    rewrite <- Nat.Div0.add_mod_idemp_l. destruct (Nat.eqb_spec (i mod 5) 4) as [-> | ]; [done|].
    rewrite Nat.mod_small; lia. }
  rewrite E. pose proof (Nat.mod_upper_bound i 5 ltac:(lia)).
  destruct (i mod 5)%nat as [|[|[|[|[|]]]]]; try lia; injection Hv as <- <- <- <- <-;
    unfold subRound; cbn [dat SHA1.a SHA1.b SHA1.c SHA1.d SHA1.e SHA1.f SHA1.k];
    rewrite Hf; eexists; split; reflexivity.
Qed.

Lemma round_fips M W s data i :
  length M = 16%nat -> W = schedule 64 M -> buffer W i data -> (i < 80)%nat ->
  exists s' data', subRound (s, data) (round_at i) = (s', data') /\ buffer W (S i) data'
  /\ view (S i) s' = fips_step W (view i s) i.
Proof.
  intros HM HW Hb Hi. destruct (fetch_buffer M W HM HW i data Hb Hi) as (data'&Ef&Hb').
  destruct (view i s) as [[[[a b] c] d] e] eqn:Ev.
  destruct (sha1_view_step s data data' i _ a b c d e Ev Ef) as (s'&E&Ev').
  exists s', data'. split_and!; [exact E|exact Hb'|]. rewrite Ev'. unfold fips_step, fn_at, K_at.
  assert (Esum : forall f k v, u32 (e + u32 (u32 (u32 (ROTL 5 a + f) + k) + v)) = (ROTL 5 a + f + e + k + v) mod 2 ^ 32).
  { intros. rewrite u32_add_r, u32_add_l, Z.add_assoc. unfold u32.
    rewrite <- (Zplus_mod_idemp_l (e + _) v), Zplus_mod_idemp_r, Zplus_mod_idemp_l. f_equal. lia. }
  assert (i / 20 = 0 \/ i / 20 = 1 \/ i / 20 = 2 \/ i / 20 = 3)%nat as [Eq|[Eq|[Eq|Eq]]]
    by (assert (i / 20 < 4)%nat by (apply Nat.Div0.div_lt_upper_bound; lia); lia).
  all: by rewrite Eq, Esum, ?f1_choose, ?f3_maj.
Qed.

Lemma rounds_fips M W n s data i :
  length M = 16%nat -> W = schedule 64 M -> buffer W i data -> (i + n <= 80)%nat ->
  exists s' data', foldl subRound (s, data) (round_at <$> seq i n) = (s', data')
  /\ view (i + n) s' = foldl (fips_step W) (view i s) (seq i n).
Proof.
  intros HM HW. revert s data i. induction n as [|n IH]; intros s data i Hb Hi.
  - exists s, data. rewrite Nat.add_0_r. split; reflexivity.
  - destruct (round_fips M W s data i HM HW Hb ltac:(lia)) as (s1&d1&E1&Hb1&Ev1).
    destruct (IH s1 d1 (S i) Hb1 ltac:(lia)) as (s2&d2&E2&Ev2). exists s2, d2.
    cbn [seq fmap list_fmap foldl]. rewrite E1. split; [exact E2|].
    rewrite <- Ev1, <- Ev2. by replace (i + S n)%nat with (S i + n)%nat by lia.
Qed.

Lemma sha1_digest_view A B C D E s r :
  view (0 + 80) s = r ->
  [u32 (A + vA s); u32 (B + vB s); u32 (C + vC s); u32 (D + vD s); u32 (E + vE s)]
  = let '(a, b, c, d, e) := r in
    [(A + a) mod 2 ^ 32; (B + b) mod 2 ^ 32; (C + c) mod 2 ^ 32; (D + d) mod 2 ^ 32; (E + e) mod 2 ^ 32].
Proof. intros <-. reflexivity. Qed.

Lemma sha1_transform_fips state M :
  length M = 16%nat -> sha1_transform state M = fips_transform state M.
Proof.
  intros HM. destruct state as [|A [|B [|C [|D [|E [|]]]]]]; try done.
  unfold sha1_transform, fips_transform. rewrite sha1_rounds_at.
  destruct (rounds_fips M _ 80 {| vA := A; vB := B; vC := C; vD := D; vE := E |} M 0 HM eq_refl
    (buffer_0 M _ HM eq_refl) ltac:(lia)) as (s'&d'&->&Ev).
  by apply sha1_digest_view.
Qed.

Lemma sha1_transform_length d ws : length d = 5%nat -> length (sha1_transform d ws) = 5%nat.
Proof.
  destruct d as [|A [|B [|C [|D [|E [|]]]]]]; try discriminate. intros _. unfold sha1_transform.
  by destruct (foldl _ _ _).
Qed.

Lemma BE_words w r :
  0 <= w < 2 ^ 32 -> words_of BE_READ_UINT32 (BE_WRITE_UINT32 w ++ r) = w :: words_of BE_READ_UINT32 r.
Proof. intros Hw. simpl. f_equal. apply (read32_write32 w Hw). Qed.

Lemma sha1_hash m : hash sha1_transform BE_READ_UINT32 BE_WRITE_UINT32 sha1_iv false m = fips_sha1 m.
Proof.
  apply (hash_ext _ _ _ _ _ _ (fun _ => True)); [done|]. intros d ws _ Hw.
  split; [done|]. by apply sha1_transform_fips.
Qed.

(** C32.  SHA-1 computes FIPS 180: the unrolled rounds over the circular
    16-word buffer are the 80 steps over the full message schedule, and any
    division of the message into updates gives the same digest. *)
Theorem sha1_correct c0 pieces (Hb : length (block c0) = 64%nat) :
  exists c c', feed sha1_update (sha1_init c0) pieces = Done c
  /\ do_sha_digest c = Done (c', fips_sha1 (mjoin pieces))
  /\ length (block c') = 64%nat /\ c' = sha1_init c'.
Proof.
  destruct (updates_hash sha1_transform BE_READ_UINT32 BE_WRITE_UINT32 sha1_iv false
    sha1_transform_length eq_refl (fun _ => eq_refl) BE_words c0 pieces Hb) as (c&c'&E1&E2&E3).
  rewrite sha1_hash in E2. exists c, c'. split_and!; [exact E1|exact E2| |].
  - by destruct E3 as (?&?&_&(?&_&_&?&_)&_).
  - unfold do_sha_digest, finish in E2. apply outcome_bind_Done in E2 as (c1&_&E2).
    apply outcome_bind_Done in E2 as (d&_&[= <- _]). reflexivity.
Qed.

(** The digest of [abc]. *)
Lemma sha1_correct_witness :
  fips_sha1 (bytes_of_string "abc")
  = [0xa9; 0x99; 0x3e; 0x36; 0x47; 0x06; 0x81; 0x6a; 0xba; 0x3e; 0x25; 0x71; 0x78; 0x50; 0xc2;
     0x6c; 0x9c; 0xd0; 0xd8; 0x9d]
  /\ exists c c', feed sha1_update (sha1_init MD5.ctx0) [bytes_of_string "a"; bytes_of_string "bc"] = Done c
  /\ do_sha_digest c = Done (c', fips_sha1 (bytes_of_string "abc"))
  /\ length (block c') = 64%nat /\ c' = sha1_init c'.
Proof. split; [by vm_compute|]. exact (sha1_correct MD5.ctx0 [_; _] eq_refl). Defined.
End SHA1.
