(* ===== verification/Crypto.v ===== *)
(** * Ciphers and message authentication

    The interfaces of [lsh/src/abstract_crypto.h] ([crypto_instance],
    [hash_algorithm], [mac_instance]) as type classes with the laws their
    clients rely on; the stream cipher of [lsh/src/nettle/arcfour.c] behind
    [lsh/src/arcfour.c]; HMAC of [lsh/src/hmac.c] over any hash. *)

From S2P Require Import Prelude Hash.

Module Crypto.

(** ** Interfaces *)

(** [struct crypto_instance]: a block size and [CRYPT]. *)
Class Cipher (C : Type) := {
  block_size : Z;
  crypt : C -> bytes -> outcome (C * bytes) }.

(** What the packet layer relies on: a usable instance transforms whole blocks
    to as many octets, in pieces or at once, and a paired instance inverts
    them. *)
Class CipherLaws (C : Type) `{Cipher C} := {
  paired : C -> C -> Prop;
  usable : C -> Prop;
  paired_usable e d : paired e d -> usable d;
  crypt_total d c :
    usable d -> bytes_ok c -> zlen c mod block_size = 0 ->
    exists d' p, crypt d c = Done (d', p) /\ usable d' /\ bytes_ok p;
  block_size_bounds : 8 <= block_size <= 64 /\ block_size mod 8 = 0;
  crypt_paired e d p :
    paired e d -> bytes_ok p -> zlen p mod block_size = 0 ->
    exists e' d' c, crypt e p = Done (e', c) /\ crypt d c = Done (d', p) /\ paired e' d'
    /\ zlen c = zlen p /\ bytes_ok c;
  crypt_app e d a b d2 p :
    paired e d -> zlen a mod block_size = 0 -> zlen b mod block_size = 0 -> crypt d (a ++ b) = Done (d2, p) ->
    exists d1 x y, crypt d a = Done (d1, x) /\ crypt d1 b = Done (d2, y) /\ p = x ++ y;
  crypt_length d a d' x : crypt d a = Done (d', x) -> zlen x = zlen a;
  crypt_nil d d' y : crypt d [] = Done (d', y) -> d' = d /\ y = [] }.

(** [struct mac_instance]: absorb octets, give the tag and start again. *)
Class Mac (M : Type) := {
  mac_size : Z;
  mac_update : M -> bytes -> outcome M;
  mac_digest : M -> outcome (M * bytes) }.

(** [absorbed t m l]: the instance [m], whose tags are those of the function
    [t], has absorbed [l]. *)
Class MacLaws (M : Type) `{Mac M} := {
  absorbed : (bytes -> bytes) -> M -> bytes -> Prop;
  mac_size_pos : 0 < mac_size < 2 ^ 16;
  absorbed_update t m l d :
    absorbed t m l -> exists m', mac_update m d = Done m' /\ absorbed t m' (l ++ d);
  absorbed_digest t m l :
    absorbed t m l -> exists m', mac_digest m = Done (m', t l) /\ absorbed t m' [];
  tag_length t m l l' : absorbed t m l -> zlen (t l') = mac_size;
  tag_bytes t m l l' : absorbed t m l -> bytes_ok (t l') }.

(** [struct hash_algorithm] and its instances. *)
Class HashAlgorithm (H : Type) := {
  hash_block_size : Z;
  hash_size : Z;
  make_hash : H;
  hash_update : H -> bytes -> outcome H;
  hash_digest : H -> outcome (H * bytes) }.

Class HashLaws (H : Type) `{HashAlgorithm H} := {
  hashed_so_far : H -> bytes -> Prop;
  hash_of : bytes -> bytes;
  hash_sizes : 0 < hash_size <= hash_block_size;
  hash_size_small : hash_size < 2 ^ 16;
  make_hash_empty : hashed_so_far make_hash [];
  hash_update_spec h m d :
    hashed_so_far h m -> exists h', hash_update h d = Done h' /\ hashed_so_far h' (m ++ d);
  hash_digest_spec h m :
    hashed_so_far h m -> exists h', hash_digest h = Done (h', hash_of m) /\ hashed_so_far h' [];
  hash_of_length m : zlen (hash_of m) = hash_size;
  hash_of_bytes m : bytes_ok (hash_of m) }.

End Crypto.

(** ** Arcfour *)

Module Arcfour.
Import Crypto.

Record arcfour_ctx := { S : list Z; i : Z; j : Z }.

Definition ARCFOUR_MIN_KEY_SIZE : Z := 1.
Definition ARCFOUR_MAX_KEY_SIZE : Z := 256.

(** [S[n]] for [n] below 256. *)
Definition at_ (S : list Z) (n : Z) : Z := nth (Z.to_nat n) S 0.

Definition SWAP (S : list Z) (a b : Z) : list Z :=
  let t := at_ S a in
  <[Z.to_nat b := t]> (<[Z.to_nat a := at_ S b]> S).

Definition set_key_step (key : bytes) (st : list Z * Z * Z) (i : nat) : list Z * Z * Z :=
  let '(S, j, k) := st in
  let j := Z.land (j + (at_ S (Z.of_nat i) + at_ key k)) 0xff in
  (SWAP S (Z.of_nat i) j, j, (k + 1) mod zlen key).

Definition arcfour_set_key (key : bytes) : outcome arcfour_ctx :=
  _ ← assert_that (ARCFOUR_MIN_KEY_SIZE <=? zlen key);
  _ ← assert_that (zlen key <=? ARCFOUR_MAX_KEY_SIZE);
  let '(S, _, _) := foldl (set_key_step key) (Z.of_nat <$> seq 0 256, 0, 0) (seq 0 256) in
  Done {| S := S; i := 0; j := 0 |}.

(** One turn of the loop: the new state and the key octet. *)
Definition next (c : arcfour_ctx) : arcfour_ctx * Z :=
  let i := Z.land (u8 (i c + 1)) 0xff in
  let j := Z.land (u8 (j c + at_ (S c) i)) 0xff in
  let S := SWAP (S c) i j in
  ({| S := S; i := i; j := j |}, at_ S (Z.land (at_ S i + at_ S j) 0xff)).

Arguments next : simpl never.

Fixpoint arcfour_crypt (c : arcfour_ctx) (src : bytes) : arcfour_ctx * bytes :=
  match src with
  | [] => (c, [])
  | b :: src =>
      let '(c, k) := next c in
      let '(c, dst) := arcfour_crypt c src in
      (c, Z.lxor b k :: dst)
  end.

Fixpoint arcfour_stream (c : arcfour_ctx) (length : nat) : arcfour_ctx * bytes :=
  match length with
  | O => (c, [])
  | Datatypes.S length =>
      let '(c, k) := next c in
      let '(c, dst) := arcfour_stream c length in
      (c, k :: dst)
  end.

Definition do_crypt_arcfour (c : arcfour_ctx) (src : bytes) : outcome (arcfour_ctx * bytes) :=
  if zlen src mod 8 =? 0 then Done (arcfour_crypt c src) else Crash FatalError.

#[export] Instance arcfour_cipher : Cipher arcfour_ctx :=
  {| block_size := 8; crypt := do_crypt_arcfour |}.

(** *** Lemmas *)

Record ctx_ok (c : arcfour_ctx) : Prop := {
  S_perm : S c ≡ₚ Z.of_nat <$> seq 0 256;
  i_byte : is_byte (i c);
  j_byte : is_byte (j c) }.

Lemma perm_bytes S n : S ≡ₚ Z.of_nat <$> seq 0 256 -> is_byte n -> is_byte (at_ S n) /\ length S = 256%nat.
Proof.
  intros HS Hn. assert (Hl : length S = 256%nat) by by rewrite HS, length_fmap, length_seq.
  split; [|done]. unfold at_. assert (Hin : In (nth (Z.to_nat n) S 0) S).
  { apply nth_In. unfold is_byte in Hn. lia. }
  apply list_elem_of_In in Hin. revert Hin. generalize (nth (Z.to_nat n) S 0). intros v Hin. rewrite HS in Hin. apply list_elem_of_fmap in Hin as (x&->&Hx).
  apply elem_of_seq in Hx. unfold is_byte. lia.
Qed.

(** Swapping two entries permutes the table. *)
Lemma SWAP_perm S a b :
  is_byte a -> is_byte b -> length S = 256%nat -> SWAP S a b ≡ₚ S.
Proof.
  unfold is_byte, SWAP, at_. intros Ha Hb Hl.
  set (m := Z.to_nat a). set (n := Z.to_nat b).
  destruct (lookup_lt_is_Some_2 S m ltac:(lia)) as [x Ex].
  destruct (lookup_lt_is_Some_2 S n ltac:(lia)) as [y Ey].
  rewrite (nth_lookup_Some S m 0 x), (nth_lookup_Some S n 0 y) by done.
  destruct (decide (m = n)) as [E|E].
  - rewrite E in *. rewrite list_insert_insert_eq. simplify_eq. by rewrite list_insert_id.
  - apply Permutation_inj. split; [by rewrite !length_insert|].
    exists (fun k => if decide (k = m) then n else if decide (k = n) then m else k). split.
    + intros k1 k2 H. repeat case_decide; congruence.
    + intros k. case_decide; [|case_decide]; subst.
      * rewrite list_lookup_insert_ne, list_lookup_insert_eq by (done || lia). done.
      * rewrite list_lookup_insert_eq; [done|]. rewrite length_insert. lia.
      * by rewrite !list_lookup_insert_ne.
Qed.

Lemma land_255_byte z : is_byte (Z.land z 0xff).
Proof. rewrite land_255. unfold is_byte. div_lia. Qed.

Lemma next_ok c : ctx_ok c -> ctx_ok (next c).1 /\ is_byte (next c).2.
Proof.
  intros [HS Hi Hj]. unfold next.
  set (i' := Z.land _ _). set (j' := Z.land (u8 (j c + _)) _).
  assert (Hp : SWAP (S c) i' j' ≡ₚ Z.of_nat <$> seq 0 256).
  { rewrite SWAP_perm; [done|apply land_255_byte..|].
    apply (perm_bytes _ i'); [done|apply land_255_byte]. }
  split; [split; simpl; [done|apply land_255_byte..]|].
  apply (perm_bytes _ (Z.land _ _)); [done|apply land_255_byte].
Qed.

Lemma crypt_inverse c p :
  ctx_ok c -> bytes_ok p ->
  let '(c', x) := arcfour_crypt c p in
  ctx_ok c' /\ arcfour_crypt c x = (c', p) /\ zlen x = zlen p /\ bytes_ok x.
Proof.
  intros Hc Hp. revert c Hc. induction Hp as [|b p Hb _ IH]; intros c Hc; [simpl; split_and!; try done; constructor|].
  cbn [arcfour_crypt]. destruct (next c) as [c1 k] eqn:En. pose proof (next_ok c Hc) as [Hc1 Hk].
  rewrite En in Hc1, Hk. simpl in Hc1, Hk. specialize (IH c1 Hc1).
  destruct (arcfour_crypt c1 p) as [c2 x]. destruct IH as (Hc2&E&Hl&Hx). split_and!; [done| | |].
  - cbn [arcfour_crypt]. rewrite En, E. do 2 f_equal.
    by rewrite Z.lxor_assoc, Z.lxor_nilpotent, Z.lxor_0_r.
  - rewrite !zlen_cons. lia.
  - constructor; auto with macssh.
Qed.

(** Encrypting in pieces is encrypting at once. *)
Lemma arcfour_crypt_app c a b :
  arcfour_crypt c (a ++ b)
  = let '(c1, x) := arcfour_crypt c a in let '(c2, y) := arcfour_crypt c1 b in (c2, x ++ y).
Proof.
  revert c. induction a as [|v a IH]; intros c; cbn [app arcfour_crypt]; [by destruct (arcfour_crypt c b)|].
  destruct (next c) as [c1 k]. rewrite IH. destruct (arcfour_crypt c1 a) as [c2 x].
  by destruct (arcfour_crypt c2 b).
Qed.

Lemma arcfour_crypt_length c a : zlen (arcfour_crypt c a).2 = zlen a.
Proof.
  revert c. induction a as [|v a IH]; intros c; cbn [arcfour_crypt]; [done|]. destruct (next c) as [c1 k].
  specialize (IH c1). destruct (arcfour_crypt c1 a). simpl in *. rewrite !zlen_cons. lia.
Qed.

Lemma arcfour_crypt_stream c p :
  arcfour_crypt c p
  = let '(c', ks) := arcfour_stream c (length p) in (c', zip_with Z.lxor p ks).
Proof.
  revert c. induction p as [|b p IH]; intros c; cbn [arcfour_crypt length arcfour_stream]; [done|].
  destruct (next c) as [c1 k]. rewrite IH. by destruct (arcfour_stream c1 (length p)).
Qed.

#[export, program] Instance arcfour_laws : CipherLaws arcfour_ctx :=
  {| paired e d := e = d /\ ctx_ok e; usable := ctx_ok |}.
Next Obligation. by intros e d [<- He]. Qed.
Next Obligation.
  intros d c Hd Hc Hm. simpl in *. unfold do_crypt_arcfour. rewrite Hm. simpl.
  pose proof (crypt_inverse d c Hd Hc) as H. destruct (arcfour_crypt d c) as [d' p].
  destruct H as (Hd'&_&_&Hp). by exists d', p.
Qed.
Next Obligation. simpl. split; [lia|done]. Qed.
Next Obligation.
  intros e d p [<- He] Hp Hm. pose proof (crypt_inverse e p He Hp) as H. simpl in *.
  unfold do_crypt_arcfour. rewrite Hm. simpl. destruct (arcfour_crypt e p) as [e' c].
  destruct H as (He'&E&Hl&Hc). exists e', e', c. by rewrite Hl, Hm, E.
Qed.
Next Obligation.
  intros e d a b d2 p [<- He] Ha Hb. simpl in *. unfold do_crypt_arcfour. rewrite zlen_app, Zplus_mod, Ha, Hb. simpl.
  rewrite arcfour_crypt_app. destruct (arcfour_crypt e a) as [c1 x]. destruct (arcfour_crypt c1 b) as [c2 y] eqn:E.
  intros [= <- <-]. exists c1, x, y. by rewrite E.
Qed.
Next Obligation.
  intros d a d' x. simpl. unfold do_crypt_arcfour. destruct (_ =? 0); [|done]. intros [= E].
  pose proof (arcfour_crypt_length d a) as H. by rewrite E in H.
Qed.
Next Obligation. by intros d d' y [= <- <-]. Qed.

Lemma set_key_steps_perm key l S j k :
  S ≡ₚ Z.of_nat <$> seq 0 256 -> Forall (fun i => i < 256)%nat l ->
  (foldl (set_key_step key) (S, j, k) l).1.1 ≡ₚ Z.of_nat <$> seq 0 256.
Proof.
  intros HS Hl. revert S j k HS. induction Hl as [|i l Hi _ IH]; intros S j k HS; [done|].
  cbn [foldl]. unfold set_key_step at 2. apply IH.
  assert (Hb : is_byte (Z.of_nat i)) by (unfold is_byte; lia).
  rewrite SWAP_perm; [done|done|apply land_255_byte|by apply (perm_bytes _ (Z.of_nat i))].
Qed.

(** C36.  The arcfour key schedule, run with any key it accepts, yields a
    permutation of the 256 octets, which encryption keeps; a second run of the
    cipher from the same state recovers the text. *)
Theorem arcfour_inverse key p (Hk : 1 <= zlen key <= 256) (Hp : bytes_ok p) :
  exists c c' x, arcfour_set_key key = Done c /\ S c ≡ₚ Z.of_nat <$> seq 0 256
  /\ arcfour_crypt c p = (c', x) /\ arcfour_crypt c x = (c', p)
  /\ zlen x = zlen p /\ S c' ≡ₚ Z.of_nat <$> seq 0 256.
Proof.
  unfold arcfour_set_key, assert_that, ARCFOUR_MIN_KEY_SIZE, ARCFOUR_MAX_KEY_SIZE.
  rewrite (proj2 (Z.leb_le 1 _)), (proj2 (Z.leb_le _ 256)) by lia. cbn [mbind outcome_bind].
  pose proof (set_key_steps_perm key (seq 0 256) _ 0 0 (reflexivity _)
    ltac:(apply Forall_seq; lia)) as HS.
  destruct (foldl _ _ _) as [[S0 j0] k0]. simpl in HS.
  set (c := {| S := S0; i := 0; j := 0 |}). assert (Hc : ctx_ok c) by (split; done).
  pose proof (crypt_inverse c p Hc Hp) as H. destruct (arcfour_crypt c p) as [c' x] eqn:E.
  destruct H as ([? _ _]&E'&Hl&_). by exists c, c', x.
Qed.

Lemma arcfour_inverse_witness :
  (c ← arcfour_set_key (bytes_of_string "Key"); Done (arcfour_crypt c (bytes_of_string "Plaintext")).2)
  = Done [0xBB; 0xF3; 0x16; 0xE8; 0xD9; 0x40; 0xAF; 0x0A; 0xD3]
  /\ exists c c' x, arcfour_set_key (bytes_of_string "Key") = Done c /\ S c ≡ₚ Z.of_nat <$> seq 0 256
  /\ arcfour_crypt c (bytes_of_string "Plaintext") = (c', x)
  /\ arcfour_crypt c x = (c', bytes_of_string "Plaintext")
  /\ zlen x = zlen (bytes_of_string "Plaintext") /\ S c' ≡ₚ Z.of_nat <$> seq 0 256.
Proof.
  split; [by vm_compute|]. apply arcfour_inverse; [done|apply bytes_of_string_ok].
Defined.
End Arcfour.

(** ** MD5 and SHA-1 as hash algorithms *)

Module Hashes.
Import Crypto.

(** [struct md5_instance] of [lsh/src/md5.c], [struct sha_instance] of
    [lsh/src/sha.c]: the memory of a fresh block buffer is taken as zeros,
    which nothing reads. *)
Record md5_instance := { md5_ctx : Merkle.ctx }.
Record sha_instance := { sha_ctx : Merkle.ctx }.

Definition fresh_ctx : Merkle.ctx :=
  {| Merkle.digest := []; Merkle.count_l := 0; Merkle.count_h := 0;
     Merkle.block := replicate 64 0; Merkle.index := 0 |}.

Definition make_md5_instance : md5_instance := {| md5_ctx := MD5.md5_init fresh_ctx |}.
Definition do_md5_update (h : md5_instance) (d : bytes) : outcome md5_instance :=
  c ← MD5.md5_update (md5_ctx h) d; Done {| md5_ctx := c |}.
Definition do_md5_digest (h : md5_instance) : outcome (md5_instance * bytes) :=
  '(c, d) ← MD5.do_md5_digest (md5_ctx h); Done ({| md5_ctx := c |}, d).

Definition make_sha_instance : sha_instance := {| sha_ctx := SHA1.sha1_init fresh_ctx |}.
Definition do_sha_update (h : sha_instance) (d : bytes) : outcome sha_instance :=
  c ← SHA1.sha1_update (sha_ctx h) d; Done {| sha_ctx := c |}.
Definition do_sha_digest (h : sha_instance) : outcome (sha_instance * bytes) :=
  '(c, d) ← SHA1.do_sha_digest (sha_ctx h); Done ({| sha_ctx := c |}, d).

#[export] Instance md5_algorithm : HashAlgorithm md5_instance :=
  {| hash_block_size := 64; hash_size := 16; make_hash := make_md5_instance;
     hash_update := do_md5_update; hash_digest := do_md5_digest |}.
#[export] Instance sha1_algorithm : HashAlgorithm sha_instance :=
  {| hash_block_size := 64; hash_size := 20; make_hash := make_sha_instance;
     hash_update := do_sha_update; hash_digest := do_sha_digest |}.

Lemma BE_WRITE_bytes w : bytes_ok (BE_WRITE_UINT32 w).
Proof. repeat constructor; apply Arcfour.land_255_byte. Qed.
Lemma LE_WRITE_bytes w : bytes_ok (LE_WRITE_UINT32 w).
Proof. repeat constructor; apply Arcfour.land_255_byte. Qed.

Lemma join_bytes wr (ws : list Z) : (forall w, bytes_ok (wr w)) -> bytes_ok (mjoin (wr <$> ws)).
Proof.
  intros H. induction ws as [|w ws IH]; [constructor|].
  change (mjoin (wr <$> w :: ws)) with (wr w ++ mjoin (wr <$> ws)). apply Forall_app_2; [apply H|done].
Qed.

#[export, program] Instance md5_laws : HashLaws md5_instance :=
  {| hashed_so_far h m := Merkle.repr MD5.md5_transform LE_READ_UINT32 MD5.md5_iv (md5_ctx h) m;
     hash_of := MD5.rfc_md5 |}.
Next Obligation. simpl. lia. Qed.
Next Obligation. simpl. lia. Qed.
Next Obligation. by apply Merkle.init_repr. Qed.
Next Obligation.
  intros h m d Hr. destruct (Merkle.update_repr MD5.md5_transform LE_READ_UINT32 MD5.md5_iv
    _ m d Hr) as (c&E&Hc). exists {| md5_ctx := c |}. split; [|done]. simpl. unfold do_md5_update.
  change (MD5.md5_update (md5_ctx h) d) with
    (Merkle.update MD5.md5_transform LE_READ_UINT32 (md5_ctx h) d). by rewrite E.
Qed.
Next Obligation.
  intros h m Hr. destruct (Merkle.finish_spec MD5.md5_transform LE_READ_UINT32 LE_WRITE_UINT32
    MD5.md5_iv true MD5.md5_transform_length eq_refl (fun _ => eq_refl) MD5.LE_words _ m Hr) as (c&E&Hc).
  exists {| md5_ctx := c |}. split; [|done]. simpl. unfold do_md5_digest, MD5.do_md5_digest.
  rewrite E, MD5.md5_hash. done.
Qed.
Next Obligation.
  intros m. rewrite <- MD5.md5_hash.
  by apply (Merkle.hash_length MD5.md5_transform LE_READ_UINT32 LE_WRITE_UINT32 MD5.md5_iv true MD5.md5_transform_length).
Qed.
Next Obligation. intros m. apply join_bytes, LE_WRITE_bytes. Qed.

#[export, program] Instance sha1_laws : HashLaws sha_instance :=
  {| hashed_so_far h m := Merkle.repr SHA1.sha1_transform BE_READ_UINT32 SHA1.sha1_iv (sha_ctx h) m;
     hash_of := SHA1.fips_sha1 |}.
Next Obligation. simpl. lia. Qed.
Next Obligation. simpl. lia. Qed.
Next Obligation. by apply Merkle.init_repr. Qed.
Next Obligation.
  intros h m d Hr. destruct (Merkle.update_repr SHA1.sha1_transform BE_READ_UINT32 SHA1.sha1_iv
    _ m d Hr) as (c&E&Hc). exists {| sha_ctx := c |}. split; [|done]. simpl. unfold do_sha_update.
  change (SHA1.sha1_update (sha_ctx h) d) with
    (Merkle.update SHA1.sha1_transform BE_READ_UINT32 (sha_ctx h) d). by rewrite E.
Qed.
Next Obligation.
  intros h m Hr. destruct (Merkle.finish_spec SHA1.sha1_transform BE_READ_UINT32 BE_WRITE_UINT32
    SHA1.sha1_iv false SHA1.sha1_transform_length eq_refl (fun _ => eq_refl) SHA1.BE_words _ m Hr) as (c&E&Hc).
  exists {| sha_ctx := c |}. split; [|done]. simpl. unfold do_sha_digest, SHA1.do_sha_digest.
  rewrite E, SHA1.sha1_hash. done.
Qed.
Next Obligation.
  intros m. rewrite <- SHA1.sha1_hash.
  by apply (Merkle.hash_length SHA1.sha1_transform BE_READ_UINT32 BE_WRITE_UINT32 SHA1.sha1_iv false SHA1.sha1_transform_length).
Qed.
Next Obligation. intros m. apply join_bytes, BE_WRITE_bytes. Qed.
End Hashes.

(** ** HMAC *)

Module HMAC.
Import Crypto Hashes.

Section HMAC.
Context {H : Type} `{HL : HashLaws H}.

Definition IPAD : Z := 0x36.
Definition OPAD : Z := 0x5c.

(** [memxor(dst, src, n)] with [n] the length of [src]. *)
Fixpoint memxor (dst src : bytes) {struct src} : outcome bytes :=
  match src with
  | [] => Done dst
  | b :: src =>
      match dst with
      | a :: dst => r ← memxor dst src; Done (Z.lxor a b :: r)
      | [] => Crash OutOfBounds
      end
  end.

Record hmac_instance := { hinner : H; houter : H; state : H }.

Definition make_hmac_instance (key : bytes) : outcome hmac_instance :=
  key ← (if hash_block_size <? zlen key then
           h ← hash_update make_hash key;
           '(_, digest) ← hash_digest h;
           Done digest
         else Done key);
  pad ← memxor (replicate (Z.to_nat hash_block_size) IPAD) key;
  inner ← hash_update make_hash pad;
  pad ← memxor (replicate (Z.to_nat hash_block_size) OPAD) key;
  outer ← hash_update make_hash pad;
  Done {| hinner := inner; houter := outer; state := inner |}.

Definition do_hmac_update (m : hmac_instance) (data : bytes) : outcome hmac_instance :=
  h ← hash_update (state m) data;
  Done {| hinner := hinner m; houter := houter m; state := h |}.

Definition do_hmac_digest (m : hmac_instance) : outcome (hmac_instance * bytes) :=
  '(_, data) ← hash_digest (state m);
  h ← hash_update (houter m) data;
  '(_, data) ← hash_digest h;
  Done ({| hinner := hinner m; houter := houter m; state := hinner m |}, data).

#[export] Instance hmac_mac : Mac hmac_instance :=
  {| mac_size := hash_size; mac_update := do_hmac_update; mac_digest := do_hmac_digest |}.

(** *** RFC 2104 *)

(** The key, hashed when it is longer than a block, padded with zeros. *)
Definition rfc_key (key : bytes) : bytes :=
  let k := if hash_block_size <? zlen key then hash_of key else key in
  k ++ replicate (Z.to_nat (hash_block_size - zlen k)) 0.

Definition rfc_hmac (key text : bytes) : bytes :=
  hash_of ((Z.lxor OPAD <$> rfc_key key) ++ hash_of ((Z.lxor IPAD <$> rfc_key key) ++ text)).

Lemma memxor_spec p n k :
  zlen k <= Z.of_nat n ->
  memxor (replicate n p) k = Done (Z.lxor p <$> k ++ replicate (Z.to_nat (Z.of_nat n - zlen k)) 0).
Proof.
  revert n. induction k as [|b k IH]; intros n Hn.
  - cbn [memxor app]. rewrite zlen_nil, Z.sub_0_r, Nat2Z.id, fmap_replicate, Z.lxor_0_r. done.
  - rewrite zlen_cons in *. pose proof (zlen_nonneg k). destruct n as [|n]; [lia|].
    cbn [memxor replicate]. rewrite IH by lia. simpl. do 4 f_equal. f_equal. lia.
Qed.

(** The instance for [key] that has absorbed [l]. *)
Definition hmac_absorbed (key : bytes) (m : hmac_instance) (l : bytes) : Prop :=
  hashed_so_far (hinner m) (Z.lxor IPAD <$> rfc_key key)
  /\ hashed_so_far (houter m) (Z.lxor OPAD <$> rfc_key key)
  /\ hashed_so_far (state m) ((Z.lxor IPAD <$> rfc_key key) ++ l).

Lemma make_hmac_spec key :
  exists m, make_hmac_instance key = Done m /\ hmac_absorbed key m [].
Proof.
  unfold make_hmac_instance. pose proof hash_sizes as Hs.
  assert (E : (if hash_block_size <? zlen key then
           h ← hash_update make_hash key; '(_, digest) ← hash_digest h; Done digest
         else Done key) = Done (if hash_block_size <? zlen key then hash_of key else key)).
  { destruct (_ <? _); [|done]. destruct (hash_update_spec _ _ key make_hash_empty) as (h&->&Hh).
    destruct (hash_digest_spec _ _ Hh) as (h'&E&_). simpl. by rewrite E. }
  rewrite E. cbn [mbind outcome_bind].
  assert (Hk : zlen (if hash_block_size <? zlen key then hash_of key else key) <= hash_block_size).
  { destruct (Z.ltb_spec hash_block_size (zlen key)); [|lia]. rewrite hash_of_length. lia. }
  assert (Hm : forall p, memxor (replicate (Z.to_nat hash_block_size) p)
    (if hash_block_size <? zlen key then hash_of key else key) = Done (Z.lxor p <$> rfc_key key)).
  { intros p. rewrite memxor_spec by lia. unfold rfc_key. rewrite Z2Nat.id by lia. done. }
  rewrite !Hm. cbn [mbind outcome_bind].
  destruct (hash_update_spec _ _ (Z.lxor IPAD <$> rfc_key key) make_hash_empty) as (i&->&Hi).
  destruct (hash_update_spec _ _ (Z.lxor OPAD <$> rfc_key key) make_hash_empty) as (o&->&Ho).
  eexists. split; [reflexivity|]. split_and!; [exact Hi|exact Ho|]. rewrite app_nil_r. exact Hi.
Qed.

Lemma hmac_update_spec key m l d :
  hmac_absorbed key m l -> exists m', do_hmac_update m d = Done m' /\ hmac_absorbed key m' (l ++ d).
Proof.
  intros (Hi&Ho&Hs). unfold do_hmac_update.
  destruct (hash_update_spec _ _ d Hs) as (h&->&Hh). eexists. split; [reflexivity|].
  split_and!; [exact Hi|exact Ho|]. by rewrite app_assoc.
Qed.

Lemma hmac_digest_spec key m l :
  hmac_absorbed key m l ->
  exists m', do_hmac_digest m = Done (m', rfc_hmac key l) /\ hmac_absorbed key m' [].
Proof.
  intros (Hi&Ho&Hs). unfold do_hmac_digest.
  destruct (hash_digest_spec _ _ Hs) as (h&->&_). cbn [mbind outcome_bind].
  destruct (hash_update_spec _ _ (hash_of ((Z.lxor IPAD <$> rfc_key key) ++ l)) Ho) as (h2&->&Hh2).
  cbn [mbind outcome_bind]. destruct (hash_digest_spec _ _ Hh2) as (h3&->&_).
  eexists. split; [reflexivity|]. split_and!; [exact Hi|exact Ho|]. by rewrite app_nil_r.
Qed.

#[export, program] Instance hmac_laws : MacLaws hmac_instance :=
  {| absorbed t m l := exists key, t = rfc_hmac key /\ hmac_absorbed key m l |}.
Next Obligation. pose proof hash_sizes. pose proof hash_size_small. simpl. lia. Qed.
Next Obligation.
  intros t m l d (key&->&Ha). destruct (hmac_update_spec key m l d Ha) as (m'&E&Hm). eauto 6.
Qed.
Next Obligation.
  intros t m l (key&->&Ha). destruct (hmac_digest_spec key m l Ha) as (m'&E&Hm). eauto 6.
Qed.
Next Obligation. intros t m l l' (key&->&_). apply hash_of_length. Qed.
Next Obligation. intros t m l l' (key&->&_). apply hash_of_bytes. Qed.

(** Absorbing the pieces of a text, then the tag. *)
Definition hmac_text (m : hmac_instance) (pieces : list bytes) : outcome (hmac_instance * bytes) :=
  m ← foldl (fun m d => m ← m; do_hmac_update m d) (Done m) pieces;
  do_hmac_digest m.

(** C35.  For every key, short or longer than a block, [make_hmac_instance]
    succeeds, and the instance gives for every text, however it is divided
    into updates, the tag of RFC 2104; it does so again for the next text. *)
Theorem hmac_correct key t1 t2 :
  exists m0 m1 m2, make_hmac_instance key = Done m0
  /\ hmac_text m0 t1 = Done (m1, rfc_hmac key (mjoin t1))
  /\ hmac_text m1 t2 = Done (m2, rfc_hmac key (mjoin t2)).
Proof.
  assert (A : forall ps m l, hmac_absorbed key m l -> exists m',
    foldl (fun m d => m ← m; do_hmac_update m d) (Done m) ps = Done m' /\ hmac_absorbed key m' (l ++ mjoin ps)).
  { induction ps as [|d ps IH]; intros m l Hm; [exists m; simpl; by rewrite app_nil_r|].
    destruct (hmac_update_spec key m l d Hm) as (m'&E&Hm'). destruct (IH m' _ Hm') as (m''&E'&Hm'').
    exists m''. cbn [foldl mbind outcome_bind]. rewrite E. by rewrite <- app_assoc in Hm''. }
  assert (T : forall m ps, hmac_absorbed key m [] -> exists m',
    hmac_text m ps = Done (m', rfc_hmac key (mjoin ps)) /\ hmac_absorbed key m' []).
  { intros m ps Hm. unfold hmac_text. destruct (A ps m [] Hm) as (m'&->&Hm').
    apply (hmac_digest_spec key m' (mjoin ps) Hm'). }
  destruct (make_hmac_spec key) as (m0&E0&I0). destruct (T m0 t1 I0) as (m1&E1&I1).
  destruct (T m1 t2 I1) as (m2&E2&_). eauto 10.
Qed.
End HMAC.

(** HMAC-MD5 on the first test vector of RFC 2104, in two pieces, and a second
    text from the same instance. *)
Lemma hmac_correct_witness :
  rfc_hmac (H := Hashes.md5_instance) (replicate 16 0x0b) (bytes_of_string "Hi There")
  = [0x92; 0x94; 0x72; 0x7a; 0x36; 0x38; 0xbb; 0x1c; 0x13; 0xf4; 0x8e; 0xf8; 0x15; 0x8b; 0xfc; 0x9d]
  /\ exists m0 m1 m2, make_hmac_instance (H := Hashes.md5_instance) (replicate 16 0x0b) = Done m0
  /\ hmac_text m0 [bytes_of_string "Hi "; bytes_of_string "There"]
     = Done (m1, rfc_hmac (H := Hashes.md5_instance) (replicate 16 0x0b) (bytes_of_string "Hi There"))
  /\ hmac_text m1 [] = Done (m2, rfc_hmac (H := Hashes.md5_instance) (replicate 16 0x0b) []).
Proof.
  split; [by vm_compute|].
  exact (hmac_correct (H := Hashes.md5_instance) (replicate 16 0x0b) [bytes_of_string "Hi "; bytes_of_string "There"] []).
Defined.
End HMAC.
