(* ===== verification/Blocks.v ===== *)
(** Block ciphers and how they are combined: [FOR_BLOCKS], cipher block
    chaining (cbc.c), cascades (cascade.c) and inversion (abstract_crypto.c).
    A block cipher is anything that satisfies [BlockCipherLaws]; every
    combination of such ciphers satisfies [CipherLaws], the interface the
    packet layer relies on. *)
From S2P Require Import Prelude Window Hash Crypto.
Import Crypto HMAC.

Module Blocks.

(** ** Greatest common divisors (abstract_crypto.c) *)

(** [while (! (x%2) && !(y%2))] *)
Fixpoint halve_both (fuel : nat) (x y res : Z) : outcome (Z * Z * Z) :=
  match fuel with
  | O => Crash Hang
  | S fuel => if (x mod 2 =? 0) && (y mod 2 =? 0) then halve_both fuel (x / 2) (y / 2) (u32 (res * 2)) else Done (x, y, res)
  end.

(** [while (!(y % 2))] *)
Fixpoint halve (fuel : nat) (y : Z) : outcome Z :=
  match fuel with
  | O => Crash Hang
  | S fuel => if y mod 2 =? 0 then halve fuel (y / 2) else Done y
  end.

Fixpoint gcd_loop (fuel : nat) (x y res : Z) : outcome Z :=
  match fuel with
  | O => Crash Hang
  | S fuel =>
    _ ← assert_that (negb (x mod 2 =? 0));
    if y =? 0 then Done (u32 (x * res)) else
    y ← halve 32 y;
    if x <? y then gcd_loop fuel x (y - x) res else gcd_loop fuel y (x - y) res
  end.

Definition gcd (x y : Z) : outcome Z :=
  if x =? 0 then Done y else if y =? 0 then Done x else
  '(x, y, res) ← halve_both 32 x y 1;
  let '(x, y) := if x mod 2 =? 0 then (y, x) else (x, y) in
  gcd_loop (Z.to_nat (x + y + 1)) x y res.

Definition lcm (x y : Z) : outcome Z :=
  g ← gcd x y;
  _ ← assert_that ((x mod g =? 0) && (y mod g =? 0));
  Done (u32 (x * (y / g))).

(** ** The loop over the blocks of a text *)

Section Loop.
Context {S : Type} (n : Z) (step : S -> bytes -> outcome (S * bytes)).

Fixpoint each_block (k : nat) (s : S) (src : bytes) : outcome (S * bytes) :=
  match k with
  | O => Done (s, [])
  | Datatypes.S k =>
    '(s, d) ← step s (take (Z.to_nat n) src);
    '(s, ds) ← each_block k s (drop (Z.to_nat n) src);
    Done (s, d ++ ds)
  end.

Definition FOR_BLOCKS (s : S) (src : bytes) : outcome (S * bytes) :=
  _ ← assert_that (zlen src mod n =? 0);
  each_block (Z.to_nat (zlen src / n)) s src.
End Loop.

(** The loop of a cipher that treats every block alike. *)
Definition for_blocks (n : Z) (f : bytes -> bytes) (src : bytes) : outcome bytes :=
  '(_, dst) ← FOR_BLOCKS n (fun _ block => Done (tt, f block)) tt src; Done dst.

(** ** Block ciphers *)

(** The routines of a cipher of nettle over its context [X]. *)
Class BlockCipher (X : Type) := {
  bc_size : Z;
  bc_encrypt : X -> bytes -> outcome bytes;
  bc_decrypt : X -> bytes -> outcome bytes }.

Definition CRYPTO_ENCRYPT : bool := true.
Definition CRYPTO_DECRYPT : bool := false.

(** What is done to one block, in either mode, inverts what is done in the
    other; a context that is not ready trips the assertion. *)
Class BlockCipherLaws (X : Type) `{BlockCipher X} := {
  bc_ready : X -> bool;
  bc_block : bool -> X -> bytes -> bytes;
  bc_ok : X -> Prop;
  bc_ok_ready x : bc_ok x -> bc_ready x = true;
  bc_sizes : 8 <= bc_size <= 64 /\ bc_size mod 8 = 0;
  bc_encrypt_blocks x src : bc_encrypt x src = _ ← assert_that (bc_ready x); for_blocks bc_size (bc_block CRYPTO_ENCRYPT x) src;
  bc_decrypt_blocks x src : bc_decrypt x src = _ ← assert_that (bc_ready x); for_blocks bc_size (bc_block CRYPTO_DECRYPT x) src;
  bc_length mode x b : zlen b = bc_size -> zlen (bc_block mode x b) = bc_size;
  bc_bytes mode x b : bc_ok x -> bytes_ok b -> zlen b = bc_size -> bytes_ok (bc_block mode x b);
  bc_inverse mode x b : bc_ok x -> bytes_ok b -> zlen b = bc_size -> bc_block (negb mode) x (bc_block mode x b) = b }.

(** An instance of a block cipher: its context and its [crypt] method. *)
Record block_instance (X : Type) := mkInstance { mode : bool; ctx : X }.
Arguments mkInstance {X}. Arguments mode {X}. Arguments ctx {X}.

Definition do_crypt {X} `{BlockCipher X} (i : block_instance X) (src : bytes) : outcome (block_instance X * bytes) :=
  dst ← (if mode i then bc_encrypt (ctx i) src else bc_decrypt (ctx i) src);
  Done (i, dst).

#[export] Instance block_cipher {X} `{BlockCipher X} : Cipher (block_instance X) := {| block_size := bc_size; crypt := do_crypt |}.

(** ** Algorithms *)

(** [struct crypto_algorithm]: [make_crypt] takes the mode, the key and the
    initialization vector, and refuses a weak key. *)
Record crypto_algorithm (C : Type) := mkAlgorithm {
  a_block_size : Z; key_size : Z; iv_size : Z; make_crypt : bool -> bytes -> bytes -> outcome (option C) }.
Arguments mkAlgorithm {C}. Arguments a_block_size {C}. Arguments key_size {C}. Arguments iv_size {C}. Arguments make_crypt {C}.

Definition crypto_invert {C} (inner : crypto_algorithm C) : crypto_algorithm C :=
  mkAlgorithm (a_block_size inner) (key_size inner) (iv_size inner) (fun mode => make_crypt inner (negb mode)).

(** ** Cascades *)

Section Cascades.
Context {C : Type} `{Cipher C}.

Fixpoint crypt_rest (l : list C) (dst : bytes) : outcome (list C * bytes) :=
  match l with
  | [] => Done ([], dst)
  | o :: l => '(o, dst) ← crypt o dst; '(l, dst) ← crypt_rest l dst; Done (o :: l, dst)
  end.

Record cascade_instance := mkCascade { cascade : list C }.

Definition do_cascade_crypt (self : cascade_instance) (src : bytes) : outcome (cascade_instance * bytes) :=
  if negb (zlen src mod block_size =? 0) then Crash FatalError else
  _ ← assert_that (0 <? zlen (cascade self));
  '(l, dst) ← crypt_rest (cascade self) src;
  Done (mkCascade l, dst).

#[export] Instance cascade_cipher : Cipher cascade_instance := {| block_size := block_size; crypt := do_cascade_crypt |}.

(** The instances in the order of the algorithms; [None] if one refuses its
    part of the key. *)
Fixpoint make_each (l : list (crypto_algorithm C)) (mode : bool) (key iv : bytes) : outcome (option (list C)) :=
  match l with
  | [] => Done (Some [])
  | a :: l =>
    o ← make_crypt a mode key iv;
    match o with
    | None => Done None
    | Some o =>
      rest ← make_each l mode (drop (Z.to_nat (key_size a)) key) (drop (Z.to_nat (iv_size a)) iv);
      Done (option_map (cons o) rest)
    end
  end.

Definition do_make_cascade (l : list (crypto_algorithm C)) (mode : bool) (key iv : bytes) : outcome (option cascade_instance) :=
  o ← make_each l mode key iv;
  Done (option_map (fun l => mkCascade (if mode then l else reverse l)) o).

Fixpoint cascade_sizes (l : list (crypto_algorithm C)) (block key iv : Z) : outcome (Z * Z * Z) :=
  match l with
  | [] => Done (block, key, iv)
  | a :: l => block ← lcm block (a_block_size a); cascade_sizes l block (u32 (key + key_size a)) (u32 (iv + iv_size a))
  end.

Definition crypto_cascadel (l : list (crypto_algorithm C)) : outcome (crypto_algorithm cascade_instance) :=
  '(block, key, iv) ← cascade_sizes l 1 0 0;
  Done (mkAlgorithm block key iv (do_make_cascade l)).
End Cascades.
Arguments cascade_instance : clear implicits.

(** ** Cipher block chaining *)

Section CBC.
Context {C : Type} `{Cipher C}.

(** [cbc_mode] tells which of the two functions below is the [crypt] method. *)
Record cbc_instance := mkCbc { cbc_mode : bool; inner : C; iv : bytes }.

Definition cbc_block (self : C * bytes) (src : bytes) : outcome (C * bytes * bytes) :=
  iv ← memxor self.2 src;
  '(inner, dst) ← crypt self.1 (take (Z.to_nat block_size) iv);
  Done (inner, dst, dst).

Definition do_cbc_encrypt (self : cbc_instance) (src : bytes) : outcome (cbc_instance * bytes) :=
  '(inner, iv, dst) ← FOR_BLOCKS block_size cbc_block (inner self, iv self) src;
  Done (mkCbc (cbc_mode self) inner iv, dst).

Definition do_cbc_decrypt (self : cbc_instance) (src : bytes) : outcome (cbc_instance * bytes) :=
  let length := zlen src in
  let n := Z.to_nat block_size in
  if negb (length mod block_size =? 0) then Crash FatalError else
  if length =? 0 then Done (self, []) else
  '(inner, dst) ← crypt (inner self) src;
  dst ← memxor dst (take n (iv self));
  tail ← memxor (drop n dst) (take (Z.to_nat (length - block_size)) src);
  Done (mkCbc (cbc_mode self) inner (drop (Z.to_nat (length - block_size)) src), take n dst ++ tail).

Definition do_cbc_crypt (self : cbc_instance) : bytes -> outcome (cbc_instance * bytes) :=
  if cbc_mode self then do_cbc_encrypt self else do_cbc_decrypt self.

#[export] Instance cbc_cipher : Cipher cbc_instance := {| block_size := block_size; crypt := do_cbc_crypt |}.

Definition do_make_cbc_instance (a : crypto_algorithm C) (mode : bool) (key iv : bytes) : outcome (option cbc_instance) :=
  let n := Z.to_nat (a_block_size a) in
  o ← make_crypt a mode key (drop n iv);
  Done (option_map (fun inner => mkCbc mode inner (take n iv)) o).

Definition crypto_cbc (a : crypto_algorithm C) : crypto_algorithm cbc_instance :=
  mkAlgorithm (a_block_size a) (key_size a) (u32 (iv_size a + a_block_size a)) (do_make_cbc_instance a).
End CBC.
Arguments cbc_instance : clear implicits.

(** *** They are what they are called *)

Lemma mod2_cases z : z mod 2 = 0 /\ z = 2 * (z / 2) \/ z mod 2 = 1.
Proof. pose proof (Z.mod_pos_bound z 2 ltac:(lia)). pose proof (Z.div_mod z 2 ltac:(lia)). lia. Qed.

Lemma halve_both_spec fuel x y res : 0 < x < 2 ^ Z.of_nat fuel -> 0 < y -> 0 < res -> res * x < 2 ^ 32 -> (0 < fuel)%nat ->
  exists x' y' res', halve_both fuel x y res = Done (x', y', res') /\ 0 < x' <= x /\ 0 < y' <= y /\ 0 < res'
  /\ res' * Z.gcd x' y' = res * Z.gcd x y /\ (x' mod 2 = 1 \/ y' mod 2 = 1).
Proof.
  revert x y res. induction fuel as [|fuel IH]; intros x y res Hx Hy Hr Hs Hf; [lia|]. cbn [halve_both].
  destruct (mod2_cases x) as [[Ex Ex']|Ex]; rewrite Ex; cbn [Z.eqb andb]; [|exists x, y, res; split_and!; auto; lia].
  destruct (mod2_cases y) as [[Ey Ey']|Ey]; rewrite Ey; cbn [Z.eqb andb]; [|exists x, y, res; split_and!; auto; lia].
  assert (Hp : 2 ^ Z.of_nat (S fuel) = 2 * 2 ^ Z.of_nat fuel) by (rewrite Nat2Z.inj_succ, Z.pow_succ_r; lia).
  assert (Hf' : (0 < fuel)%nat) by (destruct fuel; [cbn in Hp; lia|lia]).
  rewrite u32_small by nia. destruct (IH (x / 2) (y / 2) (res * 2)) as (x' & y' & r' & E & ? & ? & ? & Eg & Ho); [lia|lia|lia|nia|done|].
  exists x', y', r'. rewrite E. split_and!; try (done || lia). rewrite Eg. rewrite Ex' at 2. rewrite Ey' at 2.
  rewrite Z.gcd_mul_mono_l_nonneg by lia. lia.
Qed.

Lemma gcd_odd x y : x mod 2 = 1 -> Z.gcd x (2 * y) = Z.gcd x y.
Proof.
  intros Hx. rewrite (Z.gcd_comm x (2 * y)), (Z.gcd_comm x y). apply Z.gcd_unique; [apply Z.gcd_nonneg| | |].
  - apply Z.divide_mul_r, Z.gcd_divide_l.
  - apply Z.gcd_divide_r.
  - intros q Hq Hqx. apply Z.gcd_greatest; [|done]. apply (Z.gauss q 2 y); [done|]. apply Z.gcd_unique; [lia|apply Z.divide_1_l..|].
    intros r Hr Hr2. replace 1 with (x - 2 * (x / 2)) by (pose proof (Z.div_mod x 2); lia).
    apply Z.divide_sub_r; [exact (Z.divide_trans _ _ _ Hr Hqx)|by apply Z.divide_mul_l].
Qed.

Lemma halve_spec fuel y : 0 < y < 2 ^ Z.of_nat fuel ->
  exists y', halve fuel y = Done y' /\ 0 < y' <= y /\ y' mod 2 = 1 /\ forall x, x mod 2 = 1 -> Z.gcd x y' = Z.gcd x y.
Proof.
  revert y. induction fuel as [|fuel IH]; intros y Hy; [cbn in Hy; lia|]. cbn [halve].
  destruct (mod2_cases y) as [[Ey Ey']|Ey]; rewrite Ey; cbn [Z.eqb]; [|exists y; split_and!; auto; lia].
  rewrite Nat2Z.inj_succ, Z.pow_succ_r in Hy by lia. destruct (IH (y / 2) ltac:(lia)) as (y' & E & ? & ? & Hg).
  exists y'. split_and!; [done|lia|lia|done|]. intros x Hx. rewrite Hg by done. rewrite Ey' at 2. by rewrite gcd_odd.
Qed.

Lemma gcd_loop_spec fuel x y res : x mod 2 = 1 -> 0 < x < 2 ^ 32 -> 0 <= y < 2 ^ 32 -> x + y < Z.of_nat fuel -> 0 <= res * Z.gcd x y < 2 ^ 32 ->
  gcd_loop fuel x y res = Done (res * Z.gcd x y).
Proof.
  revert x y. induction fuel as [|fuel IH]; intros x y Hx Hxb Hyb Hf Hb; [lia|]. cbn [gcd_loop]. rewrite Hx. cbn [Z.eqb negb assert_that mbind outcome_bind].
  destruct (Z.eqb_spec y 0) as [->|Hy].
  { rewrite Z.gcd_0_r, Z.abs_eq in Hb |- * by lia. rewrite u32_small by lia. by rewrite Z.mul_comm. }
  destruct (halve_spec 32 y ltac:(change (Z.of_nat 32) with 32; lia)) as (y' & -> & Hy' & Ho & Hg). cbn [mbind outcome_bind]. rewrite <- Hg in Hb |- * by done.
  destruct (Z.ltb_spec x y') as [Hlt|Hge].
  - rewrite IH; rewrite ?Z.gcd_sub_diag_r; try (done || lia).
  - assert (E : Z.gcd y' (x - y') = Z.gcd x y') by (by rewrite Z.gcd_sub_diag_r, Z.gcd_comm).
    rewrite IH; rewrite ?E; try (done || lia).
Qed.

(** The binary algorithm computes the greatest common divisor and ends, and lcm the least common multiple whenever it fits in 32 bits. *)
Theorem gcd_correct x y (Hx : 0 <= x < 2 ^ 32) (Hy : 0 <= y < 2 ^ 32) :
  gcd x y = Done (Z.gcd x y) /\ (0 < x -> 0 < y -> Z.lcm x y < 2 ^ 32 -> lcm x y = Done (Z.lcm x y)).
Proof.
  assert (E : gcd x y = Done (Z.gcd x y)).
  { unfold gcd. destruct (Z.eqb_spec x 0) as [->|Hx0]; [by rewrite Z.gcd_0_l, Z.abs_eq by lia|].
    destruct (Z.eqb_spec y 0) as [->|Hy0]; [by rewrite Z.gcd_0_r, Z.abs_eq by lia|].
    destruct (halve_both_spec 32 x y 1) as (x' & y' & r & -> & Hx' & Hy' & Hr & Eg & Ho); [change (Z.of_nat 32) with 32; lia|lia..|]. cbn [mbind outcome_bind].
    assert (Hg : 0 < Z.gcd x y <= x) by (split; [pose proof (Z.gcd_nonneg x y); pose proof (Z.gcd_eq_0_l x y); lia|apply Z.divide_pos_le; [lia|apply Z.gcd_divide_l]]).
    rewrite Z.mul_1_l in Eg. destruct (Z.eqb_spec (x' mod 2) 0) as [Hm|Hm].
    - rewrite Z.gcd_comm in Eg. rewrite gcd_loop_spec; [by rewrite Eg|lia..].
    - pose proof (mod2_cases x'). rewrite gcd_loop_spec; [by rewrite Eg|lia..]. }
  split; [done|]. intros Hx0 Hy0 Hl. unfold lcm. rewrite E. cbn [mbind outcome_bind].
  assert (Hg0 : Z.gcd x y <> 0) by (intros E0%Z.gcd_eq_0_l; lia).
  rewrite (proj2 (Z.mod_divide x _ Hg0) (Z.gcd_divide_l x y)), (proj2 (Z.mod_divide y _ Hg0) (Z.gcd_divide_r x y)).
  cbn [Z.eqb andb assert_that mbind outcome_bind]. unfold Z.lcm in *. assert (0 <= x * (y / Z.gcd x y)) by (pose proof (Z.div_pos y (Z.gcd x y)); pose proof (Z.gcd_nonneg x y); pose proof (Z.gcd_eq_0_l x y); nia).
  rewrite Z.abs_eq in * by lia. by rewrite u32_small by lia.
Qed.


(** ** Lemmas on blocks *)

(** A text of whole blocks is taken apart block by block. *)
Lemma blocks_ind n (P : bytes -> Prop) : 0 < n -> P [] ->
  (forall b l, zlen b = n -> zlen l mod n = 0 -> P l -> P (b ++ l)) -> forall l, zlen l mod n = 0 -> P l.
Proof.
  intros Hn H0 Hc l. remember (length l) as k eqn:Hk. revert l Hk.
  induction (lt_wf k) as [k _ IH]. intros l -> Hm. destruct l as [|x l0]; [done|]. remember (x :: l0) as l eqn:El.
  assert (Hl : n <= zlen l).
  { apply Z.divide_pos_le; [subst l; rewrite zlen_cons; pose proof (zlen_nonneg l0); lia|]. apply Z.mod_divide; [lia|done]. }
  rewrite <- (take_drop (Z.to_nat n) l). pose proof (zlen_take_drop n l ltac:(lia)) as [Ht Hd].
  assert (Hm' : zlen (drop (Z.to_nat n) l) mod n = 0) by (rewrite Hd, Zminus_mod, Hm, Z_mod_same_full; by rewrite Zmod_0_l).
  apply Hc; [done|done|]. eapply IH; [|reflexivity|done]. unfold zlen in *. lia.
Qed.

(** Induction on the blocks of a text. *)
Ltac by_blocks n :=
  lazymatch goal with |- forall l, zlen l mod n = 0 -> @?P l => apply (blocks_ind n P); cbv beta end.

Lemma aligned_cons n (b l : bytes) : zlen b = n -> zlen l mod n = 0 -> zlen (b ++ l) mod n = 0.
Proof. intros Hb Hl. by rewrite zlen_app, Zplus_mod, Hb, Z_mod_same_full, Hl, Zmod_0_l. Qed.

Lemma aligned_app n (a b : bytes) : zlen a mod n = 0 -> zlen b mod n = 0 -> zlen (a ++ b) mod n = 0.
Proof. intros Ha Hb. by rewrite zlen_app, Zplus_mod, Ha, Hb, Zmod_0_l. Qed.
#[export] Hint Resolve aligned_cons aligned_app : macssh.

Section Loops.
Context {S : Type} (n : Z) (step : S -> bytes -> outcome (S * bytes)) (Hn : 0 < n).

Lemma FOR_BLOCKS_nil s : FOR_BLOCKS n step s [] = Done (s, []).
Proof. unfold FOR_BLOCKS. by rewrite (zlen_nil (A := Z)), Zmod_0_l, Zdiv_0_l. Qed.

Lemma FOR_BLOCKS_cons s b l : zlen b = n -> zlen l mod n = 0 ->
  FOR_BLOCKS n step s (b ++ l) = '(s, d) ← step s b; '(s, ds) ← FOR_BLOCKS n step s l; Done (s, d ++ ds).
Proof.
  intros Hb Hl. unfold FOR_BLOCKS. rewrite (aligned_cons n b l Hb Hl), Hl. cbn [assert_that Z.eqb mbind outcome_bind].
  pose proof (zlen_nonneg l). pose proof (Z.div_pos (zlen l) n ltac:(lia) ltac:(lia)).
  assert (E : zlen (b ++ l) / n = zlen l / n + 1).
  { rewrite zlen_app, Hb, Z.add_comm. replace (zlen l + n) with (zlen l + 1 * n) by lia. by rewrite Z.div_add by lia. }
  rewrite E, Z2Nat.inj_add, Nat.add_1_r by lia. cbn [each_block]. replace (Z.to_nat n) with (length b) by (unfold zlen in Hb; lia).
  by rewrite take_app_length, drop_app_length.
Qed.

Lemma FOR_BLOCKS_app s a b : zlen a mod n = 0 -> zlen b mod n = 0 ->
  FOR_BLOCKS n step s (a ++ b) = '(s, x) ← FOR_BLOCKS n step s a; '(s, y) ← FOR_BLOCKS n step s b; Done (s, x ++ y).
Proof.
  intros Ha Hb. revert s. revert a Ha. by_blocks n; [done| |].
  - intros s. rewrite FOR_BLOCKS_nil. cbn [app mbind outcome_bind]. by destruct (FOR_BLOCKS n step s b) as [[? ?]| |].
  - intros blk a Hblk Ha IH s. rewrite <- app_assoc, !FOR_BLOCKS_cons by auto with macssh.
    destruct (step s blk) as [[s1 d]| |]; cbn [mbind outcome_bind]; [|done..]. rewrite IH.
    destruct (FOR_BLOCKS n step s1 a) as [[s2 x]| |]; cbn [mbind outcome_bind]; [|done..].
    destruct (FOR_BLOCKS n step s2 b) as [[s3 y]| |]; cbn [mbind outcome_bind]; [|done..]. by rewrite app_assoc.
Qed.

Lemma FOR_BLOCKS_length s l s' d : (forall s b s' d, zlen b = n -> step s b = Done (s', d) -> zlen d = n) ->
  FOR_BLOCKS n step s l = Done (s', d) -> zlen d = zlen l.
Proof.
  intros Hstep. destruct (decide (zlen l mod n = 0)) as [Hl|Hl].
  - revert s s' d. revert l Hl. by_blocks n; [done| |].
    + intros s s' d. rewrite FOR_BLOCKS_nil. by intros [= _ <-].
    + intros b l Hb Hl IH s s' d. rewrite FOR_BLOCKS_cons by done.
      intros ([s1 x] & E & ([s2 y] & E2 & [= _ <-])%outcome_bind_Done)%outcome_bind_Done. by rewrite !zlen_app, (Hstep _ _ _ _ Hb E), (IH _ _ _ E2), Hb.
  - unfold FOR_BLOCKS. by rewrite (proj2 (Z.eqb_neq _ _) Hl).
Qed.

Lemma FOR_BLOCKS_ragged s l : zlen l mod n <> 0 -> FOR_BLOCKS n step s l = Crash AssertFail.
Proof. intros H. unfold FOR_BLOCKS. by rewrite (proj2 (Z.eqb_neq _ _) H). Qed.
End Loops.

Section Stateless.
Context (n : Z) (f : bytes -> bytes) (Hn : 0 < n).

Lemma for_blocks_nil : for_blocks n f [] = Done [].
Proof. unfold for_blocks. by rewrite FOR_BLOCKS_nil. Qed.

Lemma for_blocks_cons b l : zlen b = n -> zlen l mod n = 0 -> for_blocks n f (b ++ l) = ds ← for_blocks n f l; Done (f b ++ ds).
Proof.
  intros Hb Hl. unfold for_blocks. rewrite FOR_BLOCKS_cons by done. cbn [mbind outcome_bind].
  by destruct (FOR_BLOCKS n _ tt l) as [[[] ds]| |].
Qed.

Lemma for_blocks_app a b : zlen a mod n = 0 -> zlen b mod n = 0 ->
  for_blocks n f (a ++ b) = x ← for_blocks n f a; y ← for_blocks n f b; Done (x ++ y).
Proof.
  intros Ha Hb. unfold for_blocks. rewrite FOR_BLOCKS_app by done.
  destruct (FOR_BLOCKS n _ tt a) as [[[] x]| |]; cbn [mbind outcome_bind]; [|done..]. by destruct (FOR_BLOCKS n _ tt b) as [[[] y]| |].
Qed.

Lemma for_blocks_length l d : (forall b, zlen b = n -> zlen (f b) = n) -> for_blocks n f l = Done d -> zlen d = zlen l.
Proof.
  intros Hf. unfold for_blocks. intros ([[] x] & E & [= <-])%outcome_bind_Done. eapply (FOR_BLOCKS_length n _ Hn); [|exact E].
  intros ? b ? d Hb [= _ <-]. by apply Hf.
Qed.

Lemma for_blocks_inverse g l :
  (forall b, bytes_ok b -> zlen b = n -> g (f b) = b /\ zlen (f b) = n /\ bytes_ok (f b)) -> bytes_ok l -> zlen l mod n = 0 ->
  exists c, for_blocks n f l = Done c /\ for_blocks n g c = Done l /\ zlen c = zlen l /\ bytes_ok c.
Proof.
  intros Hfg Hok Hl. revert Hok. revert l Hl. by_blocks n; [done| |].
  - intros _. exists []. unfold for_blocks. rewrite !FOR_BLOCKS_nil. split_and!; try done. constructor.
  - intros b l Hb Hl IH [Hokb Hokl]%Forall_app. destruct (Hfg b Hokb Hb) as (Eg & Hlen & Hby). destruct (IH Hokl) as (c & Ef & Eg' & Hc & Hcb).
    exists (f b ++ c). rewrite for_blocks_cons, Ef by done. split; [done|]. split.
    + unfold for_blocks in *. rewrite FOR_BLOCKS_cons by (done || by rewrite Hc). cbn [mbind outcome_bind].
      destruct (FOR_BLOCKS n _ tt c) as [[[] ds]| |]; try done. injection Eg' as ->. by rewrite Eg.
    + rewrite !zlen_app, Hlen, Hc, Hb. split; [done|]. by apply Forall_app.
Qed.
End Stateless.

(** ** Block ciphers are ciphers *)

Section BlockLaws.
Context {X : Type} `{BL : BlockCipherLaws X}.

Lemma bc_pos : 0 < bc_size.
Proof. pose proof bc_sizes. lia. Qed.
#[local] Hint Resolve bc_pos : core.

Lemma do_crypt_blocks (i : block_instance X) src :
  do_crypt i src = _ ← assert_that (bc_ready (ctx i)); d ← for_blocks bc_size (bc_block (mode i) (ctx i)) src; Done (i, d).
Proof. unfold do_crypt. destruct i as [[] x]; cbn [mode ctx]; [rewrite bc_encrypt_blocks|rewrite bc_decrypt_blocks]; by destruct (bc_ready x). Qed.

Lemma do_crypt_ok (i : block_instance X) src : bc_ok (ctx i) -> do_crypt i src = d ← for_blocks bc_size (bc_block (mode i) (ctx i)) src; Done (i, d).
Proof. intros H0. by rewrite do_crypt_blocks, (bc_ok_ready _ H0). Qed.

Lemma block_inverse (i : block_instance X) src : bc_ok (ctx i) -> bytes_ok src -> zlen src mod bc_size = 0 ->
  exists c, for_blocks bc_size (bc_block (mode i) (ctx i)) src = Done c
  /\ for_blocks bc_size (bc_block (negb (mode i)) (ctx i)) c = Done src /\ zlen c = zlen src /\ bytes_ok c.
Proof.
  intros Hi Hs Hl. apply for_blocks_inverse; [done| |done|done].
  intros b Hb Hlb. split; [by apply bc_inverse|]. split; [by apply bc_length|by apply bc_bytes].
Qed.

#[export, program] Instance block_laws : CipherLaws (block_instance X) :=
  {| paired e d := ctx e = ctx d /\ bc_ok (ctx e) /\ mode d = negb (mode e); usable d := bc_ok (ctx d) |}.
Next Obligation. by intros e d (<- & He & _). Qed.
Next Obligation.
  intros d c Hd Hc Hm. cbn [crypt block_cipher]. rewrite do_crypt_ok by done. destruct (block_inverse d c Hd Hc Hm) as (p & -> & _ & _ & Hp). by exists d, p.
Qed.
Next Obligation. apply bc_sizes. Qed.
Next Obligation.
  intros e d p (Ec & He & Em) Hp Hl. destruct (block_inverse e p He Hp Hl) as (c & E1 & E2 & Hc & Hb). exists e, d, c.
  cbn [crypt block_cipher]. rewrite !do_crypt_ok by congruence. rewrite Em, <- Ec, E1, E2. split_and!; done.
Qed.
Next Obligation.
  intros e d a b d2 p (Ec & He & Em) Ha Hb. cbn [crypt block_cipher]. rewrite !do_crypt_ok by congruence.
  rewrite for_blocks_app by done. intros (l & (x & Ea & (y & Eb & [= <-])%outcome_bind_Done)%outcome_bind_Done & [= <- <-])%outcome_bind_Done.
  exists d, x, y. by rewrite do_crypt_ok, Ea, Eb by congruence.
Qed.
Next Obligation.
  intros d a d' x. cbn [crypt block_cipher]. rewrite do_crypt_blocks. intros (_ & _ & (l & E & [= _ <-])%outcome_bind_Done)%outcome_bind_Done.
  eapply for_blocks_length; [done| |exact E]. intros b. apply bc_length.
Qed.
Next Obligation.
  intros d d' y. cbn [crypt block_cipher]. rewrite do_crypt_blocks, for_blocks_nil by done. destruct (bc_ready _); by intros [= <- <-].
Qed.
End BlockLaws.

(** ** A cascade of ciphers is a cipher *)

Section CascadeLaws.
Context {C : Type} `{CL : CipherLaws C}.

Lemma crypt_rest_total l p : Forall usable l -> bytes_ok p -> zlen p mod block_size = 0 ->
  exists l' q, crypt_rest l p = Done (l', q) /\ Forall usable l' /\ bytes_ok q /\ length l' = length l.
Proof.
  intros Hl. revert p. induction Hl as [|o l Ho _ IH]; intros p Hp Hm; cbn [crypt_rest]; [exists [], p; by split_and!|].
  destruct (crypt_total o p Ho Hp Hm) as (o' & q & E & Ho' & Hq). rewrite E. cbn [mbind outcome_bind].
  pose proof (crypt_length o p o' q E) as Hlen. destruct (IH q Hq ltac:(by rewrite Hlen)) as (l' & r & -> & Hl' & Hr & Hn).
  exists (o' :: l'), r. cbn [length mbind outcome_bind]. split_and!; [done|by constructor|done|lia].
Qed.

Lemma crypt_rest_length l p l' q : crypt_rest l p = Done (l', q) -> zlen q = zlen p.
Proof.
  revert p l'. induction l as [|o l IH]; intros p l'; cbn [crypt_rest]; [by intros [= _ <-]|].
  intros ([o' d] & E & ([l2 r] & E2 & [= _ <-])%outcome_bind_Done)%outcome_bind_Done. rewrite (IH _ _ E2). by eapply crypt_length.
Qed.

Lemma crypt_rest_members l p l' q : crypt_rest l p = Done (l', q) -> l <> [] -> l' <> [].
Proof. destruct l as [|o l]; [done|]. cbn [crypt_rest]. by intros ([? ?] & _ & ([? ?] & _ & [= <- _])%outcome_bind_Done)%outcome_bind_Done _. Qed.

(** No member, read backwards or not. *)
Lemma partners_nonempty (es ds : list C) : Forall2 paired es ds -> es <> [] -> reverse ds <> [].
Proof. intros HF Hne E%(f_equal reverse). rewrite reverse_involutive in E. cbn in E. subst ds. by apply Forall2_nil_inv_r in HF. Qed.
#[local] Hint Resolve partners_nonempty : core.

Lemma crypt_rest_snoc l o p : crypt_rest (l ++ [o]) p = '(l, q) ← crypt_rest l p; '(o, q) ← crypt o q; Done (l ++ [o], q).
Proof.
  revert p. induction l as [|a l IH]; intros p; cbn [app crypt_rest mbind outcome_bind].
  - by destruct (crypt o p) as [[? ?]| |].
  - destruct (crypt a p) as [[a' d]| |]; cbn [mbind outcome_bind]; [|done..]. rewrite IH.
    destruct (crypt_rest l d) as [[l' q]| |]; cbn [mbind outcome_bind]; [|done..]. by destruct (crypt o q) as [[? ?]| |].
Qed.

(** Applied in the opposite order, the partners undo what a cascade does. *)
Lemma crypt_rest_paired es ds p : Forall2 paired es ds -> bytes_ok p -> zlen p mod block_size = 0 ->
  exists es' ds' c, crypt_rest es p = Done (es', c) /\ crypt_rest (reverse ds) c = Done (reverse ds', p) /\ Forall2 paired es' ds'
  /\ zlen c = zlen p /\ bytes_ok c.
Proof.
  intros HF. revert p. induction HF as [|e d es ds Hed _ IH]; intros p Hp Hm; cbn [crypt_rest]; [exists [], [], p; by split_and!|].
  destruct (crypt_paired e d p Hed Hp Hm) as (e' & d' & x & -> & Ed & Hed' & Hlx & Hx). cbn [mbind outcome_bind].
  destruct (IH x Hx ltac:(by rewrite Hlx)) as (es' & ds' & c & -> & Eds & HF' & Hlc & Hc). exists (e' :: es'), (d' :: ds'), c.
  rewrite !reverse_cons, crypt_rest_snoc, Eds. cbn [mbind outcome_bind]. rewrite Ed. split_and!; [done|done|by constructor|lia|done].
Qed.

(** A cascade whose members take texts piecewise does so, too. *)
Lemma crypt_rest_app l es a b l2 p : Forall2 (fun d e => paired e d) l es -> zlen a mod block_size = 0 -> zlen b mod block_size = 0 ->
  crypt_rest l (a ++ b) = Done (l2, p) -> exists l1 x y, crypt_rest l a = Done (l1, x) /\ crypt_rest l1 b = Done (l2, y) /\ p = x ++ y.
Proof.
  intros HF. revert a b l2 p. induction HF as [|d e l es Hed _ IH]; intros a b l2 p Ha Hb; cbn [crypt_rest]; [intros [= <- <-]; by exists [], a, b|].
  intros ([d2 q] & E & ([l' r] & E' & [= <- <-])%outcome_bind_Done)%outcome_bind_Done.
  destruct (crypt_app e d a b d2 q Hed Ha Hb E) as (d1 & x & y & E1 & E2 & ->).
  destruct (IH x y l' r) as (l1 & x' & y' & F1 & F2 & ->); [by rewrite (crypt_length _ _ _ _ E1)|by rewrite (crypt_length _ _ _ _ E2)|done|].
  exists (d1 :: l1), x', y'. cbn [crypt_rest]. rewrite E1, E2. cbn [mbind outcome_bind]. by rewrite F1, F2.
Qed.

Lemma do_cascade_crypt_ok l src : zlen src mod block_size = 0 -> l <> [] ->
  do_cascade_crypt (mkCascade l) src = '(l, dst) ← crypt_rest l src; Done (mkCascade l, dst).
Proof. intros Hs Hl. unfold do_cascade_crypt. rewrite Hs. destruct l as [|o l]; [done|]. cbn [cascade]. rewrite (proj2 (Z.ltb_lt 0 _)); [done|]. rewrite zlen_cons. pose proof (zlen_nonneg l). lia. Qed.

#[export, program] Instance cascade_laws : CipherLaws (cascade_instance C) :=
  {| paired e d := cascade e <> [] /\ exists ds, cascade d = reverse ds /\ Forall2 paired (cascade e) ds;
     usable d := cascade d <> [] /\ Forall usable (cascade d) |}.
Next Obligation.
  intros [es] [l] (Hne & ds & E & HF). cbn [cascade] in *. subst l. split; [by eapply partners_nonempty|].
  rewrite Forall_reverse. clear Hne. induction HF; constructor; [by eapply paired_usable|done].
Qed.
Next Obligation.
  intros [l] c (Hne & Hl) Hc Hm. cbn [crypt cascade_cipher block_size cascade] in *. rewrite do_cascade_crypt_ok by done.
  destruct (crypt_rest_total l c Hl Hc Hm) as (l' & p & -> & Hl' & Hp & Hn). exists (mkCascade l'), p. split_and!; try done.
  intros E. cbn in E. subst l'. destruct l; [done|discriminate Hn].
Qed.
Next Obligation. exact (@block_size_bounds C _ CL). Qed.
Next Obligation.
  intros [es] [l] p (Hne & ds & E & HF) Hp Hm. cbn [crypt cascade_cipher block_size cascade] in *. subst l.
  destruct (crypt_rest_paired es ds p HF Hp Hm) as (es' & ds' & c & E1 & E2 & HF' & Hlc & Hc).
  exists (mkCascade es'), (mkCascade (reverse ds')), c. pose proof (partners_nonempty es ds HF Hne) as Hds.
  rewrite !do_cascade_crypt_ok, E1, E2 by (done || by rewrite Hlc). cbn [mbind outcome_bind]. split_and!; try done; [by eapply crypt_rest_members|by exists ds'].
Qed.
Next Obligation.
  intros [es] [l] a b [l2] p (Hne & ds & E & HF) Ha Hb. cbn [crypt cascade_cipher block_size cascade] in *. subst l.
  pose proof (partners_nonempty es ds HF Hne) as Hds.
  rewrite do_cascade_crypt_ok by auto with macssh. intros ([l q] & E & [= <- <-])%outcome_bind_Done.
  destruct (crypt_rest_app (reverse ds) (reverse es) a b l q) as (l1 & x & y & E1 & E2 & ->); [|done..|].
  { apply Forall2_reverse, Forall2_flip, HF. }
  exists (mkCascade l1), x, y. rewrite !do_cascade_crypt_ok, E1; [|done|by eapply crypt_rest_members|done..]. cbn [mbind outcome_bind]. by rewrite E2.
Qed.
Next Obligation.
  intros [l] a [l'] x. cbn [crypt cascade_cipher]. unfold do_cascade_crypt. destruct (negb _); [done|].
  intros (_ & _ & ([? ?] & E & [= _ <-])%outcome_bind_Done)%outcome_bind_Done. by eapply crypt_rest_length.
Qed.
Next Obligation.
  intros [l] [l'] y. cbn [crypt cascade_cipher]. unfold do_cascade_crypt. destruct (negb _); [done|].
  intros (_ & _ & ([l1 q] & E & [= <- <-])%outcome_bind_Done)%outcome_bind_Done. cbn [cascade] in E.
  enough (l1 = l /\ q = []) as [-> ->] by done. revert l1 E. induction l as [|o l IH]; intros l1; cbn [crypt_rest]; [by intros [= <- <-]|].
  intros ([o' d] & Eo & ([l2 r] & E2 & [= <- <-])%outcome_bind_Done)%outcome_bind_Done. apply crypt_nil in Eo as [-> ->].
  by destruct (IH _ E2) as [-> ->].
Qed.
End CascadeLaws.

(** ** Chaining a cipher gives a cipher *)

Definition xor : bytes -> bytes -> bytes := zip_with Z.lxor.

Lemma xor_app a b c d : length a = length c -> xor (a ++ b) (c ++ d) = xor a c ++ xor b d.
Proof. apply zip_with_app. Qed.

Lemma length_xor a b : length a = length b -> length (xor a b) = length a.
Proof. intros E. unfold xor. rewrite length_zip_with. lia. Qed.

Lemma xor_comm a b : xor a b = xor b a.
Proof. revert b. induction a as [|x a IH]; intros [|y b]; cbn; [done..|]. by rewrite Z.lxor_comm, IH. Qed.

Lemma xor_cancel a b : length a = length b -> xor (xor a b) b = a.
Proof.
  revert b. induction a as [|x a IH]; intros [|y b] E; cbn; try done. injection E as E. rewrite Z.lxor_assoc, Z.lxor_nilpotent, Z.lxor_0_r. f_equal. by apply IH.
Qed.

Lemma bytes_ok_xor a b : bytes_ok a -> bytes_ok b -> bytes_ok (xor a b).
Proof. intros Ha. revert b. induction Ha as [|x a Hx _ IH]; intros [|y b] Hb; cbn; try constructor; inversion Hb; subst; auto with macssh. by apply IH. Qed.
#[export] Hint Resolve bytes_ok_xor : macssh.

Lemma memxor_prefix dst src : (length src <= length dst)%nat -> memxor dst src = Done (xor (take (length src) dst) src ++ drop (length src) dst).
Proof.
  revert dst. induction src as [|y src IH]; intros [|x dst] E; cbn in E |- *; try done; [lia|]. rewrite IH by lia. done.
Qed.

Lemma memxor_same dst src : length dst = length src -> memxor dst src = Done (xor dst src).
Proof. intros E. rewrite memxor_prefix by lia. by rewrite <- E, firstn_all, skipn_all, app_nil_r. Qed.

Lemma memxor_length dst src r : memxor dst src = Done r -> length r = length dst.
Proof.
  revert dst r. induction src as [|y src IH]; intros [|x dst] r; cbn [memxor]; try done; try by intros [= <-].
  intros (l & E & [= <-])%outcome_bind_Done. cbn. by rewrite (IH _ _ E).
Qed.

Section CbcLaws.
Context {C : Type} `{CL : CipherLaws C}.

Lemma block_pos : 0 < block_size.
Proof. pose proof block_size_bounds. lia. Qed.
#[local] Hint Resolve block_pos : core.

(** The vector after a text [c] has gone over the line. *)
Definition last_block (iv c : bytes) : bytes := drop (length c) (iv ++ c).
(** What is added to the blocks of a text that is sent as [c]. *)
Definition chain (iv c : bytes) : bytes := take (length c) (iv ++ c).

Lemma chain_ok iv c : bytes_ok iv -> bytes_ok c -> length (chain iv c) = length c /\ bytes_ok (chain iv c) /\ bytes_ok (last_block iv c).
Proof.
  intros Hi Hc. unfold chain, last_block. split; [rewrite length_take, length_app; lia|].
  by split; [apply Forall_take, Forall_app|apply Forall_drop, Forall_app].
Qed.

Lemma last_block_length iv c : zlen (last_block iv c) = zlen iv.
Proof. unfold last_block, zlen. rewrite length_drop, length_app. lia. Qed.

Lemma cbc_decrypt_spec m o v c d x : zlen v = block_size -> zlen c mod block_size = 0 -> crypt o c = Done (d, x) ->
  do_cbc_decrypt (mkCbc m o v) c = Done (mkCbc m d (last_block v c), xor x (chain v c)).
Proof.
  intros Hv Hc E. pose proof block_pos as Hb. unfold do_cbc_decrypt. rewrite Hc. cbn [Z.eqb negb]. pose proof (crypt_length _ _ _ _ E) as Hx.
  unfold last_block, chain. destruct (Z.eqb_spec (zlen c) 0) as [Hz|Hz].
  { destruct c; [|unfold zlen in Hz; cbn in Hz; lia]. destruct (crypt_nil _ _ _ E) as [-> ->]. cbn. by rewrite app_nil_r. }
  cbn [inner iv cbc_mode]. rewrite E. cbn [mbind outcome_bind].
  assert (Hle : block_size <= zlen c) by (apply Z.divide_pos_le; [pose proof (zlen_nonneg c); lia|apply Z.mod_divide; [lia|done]]).
  unfold zlen in *. set (n := Z.to_nat block_size). assert (Hn : length v = n) by lia.
  rewrite (take_ge v) by lia. rewrite memxor_prefix by lia. cbn [mbind outcome_bind]. rewrite Hn.
  assert (Hlx : length (xor (take n x) v) = n) by (rewrite length_xor; rewrite length_take; lia).
  rewrite drop_app_length' by done. rewrite take_app_length' by done.
  replace (Z.to_nat (Z.of_nat (length c) - block_size)) with (length c - n)%nat by lia.
  rewrite memxor_same by (rewrite length_drop, length_take; lia). cbn [mbind outcome_bind].
  rewrite drop_app_ge, take_app_ge by lia. rewrite Hn. do 2 f_equal.
  rewrite <- (take_drop n x) at 3. rewrite xor_app; [done|]. rewrite length_take. lia.
Qed.

(** A chained text, the blocks the cipher was given and what its partner
    makes of it. *)
Lemma cbc_pair p : zlen p mod block_size = 0 -> forall e d v, bytes_ok p -> paired e d -> zlen v = block_size -> bytes_ok v ->
  exists e' c d' x, FOR_BLOCKS block_size cbc_block (e, v) p = Done ((e', last_block v c), c) /\ crypt d c = Done (d', x) /\ x = xor p (chain v c)
  /\ paired e' d' /\ zlen c = zlen p /\ bytes_ok c.
Proof.
  revert p. by_blocks (block_size (C := C)); [done| |].
  - intros e d v _ Hed Hv Hvb. destruct (crypt_paired e d [] Hed) as (e' & d' & c & E1 & E2 & Hed' & Hlc & Hc); [constructor|by rewrite (zlen_nil (A := Z)), Zmod_0_l|].
    exists e, [], d, []. rewrite FOR_BLOCKS_nil by done. unfold last_block. cbn. rewrite app_nil_r.
    destruct c as [|? ?]; [|unfold zlen in Hlc; cbn in Hlc; lia]. destruct (crypt_nil _ _ _ E2) as [-> _]. by rewrite E2.
  - intros b l Hb Hl IH e d v [Hbb Hlb]%Forall_app Hed Hv Hvb. rewrite FOR_BLOCKS_cons by done.
    unfold zlen in Hv, Hb. assert (Evb : length v = length b) by lia. pose proof (length_xor v b Evb) as Hlx.
    change (cbc_block (e, v) b) with (iv ← memxor v b; '(o, dst) ← crypt e (take (Z.to_nat block_size) iv); Done (o, dst, dst)). rewrite memxor_same by done. cbn [mbind outcome_bind]. rewrite take_ge by lia.
    destruct (crypt_paired e d (xor v b) Hed) as (e1 & d1 & c1 & -> & E1 & Hed1 & Hc1 & Hc1b); [auto with macssh| |].
    { unfold zlen. rewrite Hlx, Hv. by apply Z_mod_same_full. }
    cbn [mbind outcome_bind]. unfold zlen in Hc1. destruct (IH e1 d1 c1 Hlb Hed1 ltac:(unfold zlen; lia) Hc1b) as (e2 & c2 & d2 & x2 & -> & E2 & -> & Hed2 & Hc2 & Hc2b).
    cbn [mbind outcome_bind]. unfold zlen in Hc2. assert (Hcb : bytes_ok (c1 ++ c2)) by by apply Forall_app_2.
    assert (Ha1 : zlen c1 mod block_size = 0) by (unfold zlen; rewrite Hc1, Hlx, Hv; apply Z_mod_same_full).
    assert (Ha2 : zlen c2 mod block_size = 0) by (unfold zlen; by rewrite Hc2).
    destruct (crypt_total d (c1 ++ c2) ltac:(by eapply paired_usable) Hcb ltac:(auto with macssh)) as (d3 & y & E3 & _ & _).
    destruct (crypt_app e d c1 c2 d3 y Hed Ha1 Ha2 E3) as (d1' & x1 & x2 & F1 & F2 & ->). rewrite E1 in F1. injection F1 as <- <-.
    rewrite E2 in F2. injection F2 as <- <-. exists e2, (c1 ++ c2), d2, (xor v b ++ xor l (chain c1 c2)).
    split_and!; [|done| |done|unfold zlen; rewrite !length_app; lia|done].
    + unfold last_block. rewrite length_app, <- drop_drop. rewrite (drop_app_length' v) by lia. done.
    + assert (Ech : chain v (c1 ++ c2) = v ++ chain c1 c2).
      { unfold chain. rewrite length_app. apply take_app_add'. lia. }
      rewrite Ech, xor_app by lia. by rewrite (xor_comm v).
Qed.

Lemma chain_app v a b : chain v (a ++ b) = chain v a ++ chain (last_block v a) b /\ last_block v (a ++ b) = last_block (last_block v a) b.
Proof.
  assert (E : v ++ a ++ b = chain v a ++ last_block v a ++ b) by (unfold chain, last_block; by rewrite (app_assoc (take _ _)), take_drop, app_assoc).
  assert (Hl : length (chain v a) = length a) by (unfold chain; rewrite length_take, length_app; lia).
  unfold chain at 1, last_block at 2. rewrite E, length_app. split; [apply take_app_add'; lia|]. rewrite <- drop_drop. by rewrite drop_app_length' by lia.
Qed.

(** The other mode: chaining goes on from any vector. *)
Lemma cbc_encrypt_total p : zlen p mod block_size = 0 -> forall o v, bytes_ok p -> usable o -> zlen v = block_size -> bytes_ok v ->
  exists o' v' c, FOR_BLOCKS block_size cbc_block (o, v) p = Done ((o', v'), c) /\ usable o' /\ zlen v' = block_size /\ bytes_ok v' /\ bytes_ok c.
Proof.
  revert p. by_blocks (block_size (C := C)); [done| |].
  - intros o v _ Ho Hv Hvb. exists o, v, []. rewrite FOR_BLOCKS_nil by done. split_and!; try done. constructor.
  - intros b l Hb Hl IH o v [Hbb Hlb]%Forall_app Ho Hv Hvb. rewrite FOR_BLOCKS_cons by done.
    unfold zlen in Hv, Hb. assert (Evb : length v = length b) by lia. pose proof (length_xor v b Evb) as Hlx.
    change (cbc_block (o, v) b) with (iv ← memxor v b; '(o, dst) ← crypt o (take (Z.to_nat block_size) iv); Done (o, dst, dst)).
    rewrite memxor_same by done. cbn [mbind outcome_bind]. rewrite take_ge by lia.
    assert (Hx : zlen (xor v b) = block_size) by (unfold zlen; lia).
    destruct (crypt_total o (xor v b) Ho) as (o1 & c1 & E1 & Ho1 & Hc1); [auto with macssh|rewrite Hx; by apply Z_mod_same_full|].
    rewrite E1. cbn [mbind outcome_bind]. pose proof (crypt_length _ _ _ _ E1) as Hl1.
    destruct (IH o1 c1 Hlb Ho1 ltac:(by rewrite Hl1) Hc1) as (o2 & v2 & c2 & -> & Ho2 & Hv2 & Hv2b & Hc2).
    exists o2, v2, (c1 ++ c2). cbn [mbind outcome_bind]. split_and!; try done. by apply Forall_app_2.
Qed.

Lemma cbc_block_length s b s' d : zlen b = block_size -> cbc_block s b = Done (s', d) -> zlen d = block_size.
Proof.
  pose proof block_pos as Hp. destruct s as [o v]. intros Hb (r & Er & ([o1 x] & Ex & [= _ <-])%outcome_bind_Done)%outcome_bind_Done. cbn [fst snd] in *.
  rewrite (crypt_length _ _ _ _ Ex). pose proof (memxor_length _ _ _ Er) as Hr.
  enough (length b <= length v)%nat by (unfold zlen in *; rewrite length_take; lia).
  clear - Er. revert v r Er. induction b as [|x b IH]; intros [|y v] r; cbn [memxor length]; try (done || lia).
  intros (l & E & _)%outcome_bind_Done. specialize (IH _ _ E). lia.
Qed.

Lemma cbc_decrypt_length o c o' p : do_cbc_decrypt o c = Done (o', p) -> zlen p = zlen c.
Proof.
  unfold do_cbc_decrypt. destruct (negb _); [done|]. destruct (Z.eqb_spec (zlen c) 0) as [->|_]; [by intros [= _ <-]|].
  intros ([d x] & Ex & (y & Ey & (z & Ez & [= _ <-])%outcome_bind_Done)%outcome_bind_Done)%outcome_bind_Done.
  apply memxor_length in Ez, Ey. rewrite <- (crypt_length _ _ _ _ Ex). unfold zlen. rewrite length_app, Ez, <- length_app, take_drop, Ey. done.
Qed.

#[export, program] Instance cbc_laws : CipherLaws (cbc_instance C) :=
  {| paired e d := cbc_mode e = CRYPTO_ENCRYPT /\ cbc_mode d = CRYPTO_DECRYPT /\ iv e = iv d /\ zlen (iv d) = block_size /\ bytes_ok (iv d)
       /\ paired (inner e) (inner d);
     usable d := zlen (iv d) = block_size /\ bytes_ok (iv d) /\ usable (inner d) |}.
Next Obligation. intros e d (_ & _ & _ & Hv & Hb & Hp). split_and!; [done|done|by eapply paired_usable]. Qed.
Next Obligation.
  intros [[] o v] c (Hv & Hb & Ho) Hc Hm; cbn [crypt cbc_cipher block_size inner iv] in *; unfold do_cbc_crypt; cbn [cbc_mode].
  - destruct (cbc_encrypt_total c Hm o v Hc Ho Hv Hb) as (o' & v' & p & E & Ho' & Hv' & Hb' & Hp). unfold do_cbc_encrypt. cbn [inner iv cbc_mode].
    rewrite E. by exists (mkCbc true o' v'), p.
  - destruct (crypt_total o c Ho Hc Hm) as (d & x & E & Hd & Hx). rewrite (cbc_decrypt_spec false o v c d x Hv Hm E).
    destruct (chain_ok v c Hb Hc) as (_ & Hcb & Hlb). exists (mkCbc false d (last_block v c)), (xor x (chain v c)). cbn [inner iv]. rewrite last_block_length.
    split_and!; auto with macssh.
Qed.
Next Obligation. exact (@block_size_bounds C _ CL). Qed.
Next Obligation.
  intros [me oe ve] [md od vd] p (Eme & Emd & Ev & Hv & Hb & Hp) Hpb Hm. cbn [crypt cbc_cipher block_size inner iv cbc_mode] in *. unfold CRYPTO_ENCRYPT, CRYPTO_DECRYPT in *. subst me md ve.
  destruct (cbc_pair p Hm oe od vd Hpb Hp Hv Hb) as (e' & c & d' & x & E1 & E2 & -> & Hed & Hlc & Hc).
  destruct (chain_ok vd c Hb Hc) as (Hlen & _ & Hlb). exists (mkCbc true e' (last_block vd c)), (mkCbc false d' (last_block vd c)), c.
  unfold do_cbc_crypt, do_cbc_encrypt. cbn [cbc_mode inner iv]. rewrite E1. cbn [mbind outcome_bind].
  rewrite (cbc_decrypt_spec false od vd c d' _ Hv ltac:(by rewrite Hlc) E2), xor_cancel by (unfold zlen in Hlc; lia).
  rewrite last_block_length. by split_and!.
Qed.
Next Obligation.
  intros [me oe ve] [md od vd] a b d2 p (Eme & Emd & Ev & Hv & Hb & Hp) Ha Hbm. cbn [crypt cbc_cipher block_size inner iv cbc_mode] in *. unfold CRYPTO_ENCRYPT, CRYPTO_DECRYPT in *. subst me md ve.
  unfold do_cbc_crypt. cbn [cbc_mode]. intros E.
  assert (Hc : exists d x, crypt od (a ++ b) = Done (d, x)).
  { destruct (crypt_paired oe od [] Hp) as (e' & d' & c & _ & E2 & _ & Hlc & _); [constructor|by rewrite (zlen_nil (A := Z)), Zmod_0_l|].
    destruct c; [|unfold zlen in Hlc; cbn in Hlc; lia]. destruct (a ++ b) as [|z l] eqn:Eab; [by exists d', []|].
    revert E. unfold do_cbc_decrypt. destruct (negb _); [done|]. destruct (Z.eqb_spec (zlen (z :: l)) 0) as [Hz|_]; [unfold zlen in Hz; cbn in Hz; lia|].
    cbn [inner]. intros ([d x] & Ex & _)%outcome_bind_Done. by exists d, x. }
  destruct Hc as (d & x & Ex). rewrite (cbc_decrypt_spec _ _ _ _ _ _ Hv (aligned_app _ _ _ Ha Hbm) Ex) in E. injection E as <- <-.
  destruct (crypt_app oe od a b d x Hp Ha Hbm Ex) as (d1 & y & z & E1 & E2 & ->). destruct (chain_app vd a b) as [Hch Hlb].
  exists (mkCbc false d1 (last_block vd a)), (xor y (chain vd a)), (xor z (chain (last_block vd a) b)).
  rewrite (cbc_decrypt_spec _ _ _ _ _ _ Hv Ha E1). cbn [cbc_mode]. rewrite (cbc_decrypt_spec _ _ _ _ _ _ ltac:(by rewrite last_block_length) Hbm E2).
  split_and!; [done|by rewrite Hlb|]. rewrite Hch. apply xor_app. pose proof (crypt_length _ _ _ _ E1) as Hy.
  unfold chain. rewrite length_take, length_app. unfold zlen in Hy. lia.
Qed.
Next Obligation.
  intros [[] o v] a d' x; cbn [crypt cbc_cipher]; unfold do_cbc_crypt; cbn [cbc_mode]; [|apply cbc_decrypt_length].
  unfold do_cbc_encrypt. intros ([[s1 s2] z] & E & [= _ <-])%outcome_bind_Done. eapply (FOR_BLOCKS_length block_size cbc_block); [done| |exact E].
  intros s b s' d. apply cbc_block_length.
Qed.
Next Obligation.
  intros [[] o v] d' y; cbn [crypt cbc_cipher]; unfold do_cbc_crypt; cbn [cbc_mode].
  - unfold do_cbc_encrypt. rewrite FOR_BLOCKS_nil by done. by intros [= <- <-].
  - unfold do_cbc_decrypt. rewrite (zlen_nil (A := Z)), Zmod_0_l. by intros [= <- <-].
Qed.
End CbcLaws.

(** ** Algorithms that make ciphers *)

Section Lawful.
Context {C : Type} `{CL : CipherLaws C}.

(** The instances for the two modes are made of the same key, and are
    partners; or the key is weak, in either mode. *)
Definition partners (a : crypto_algorithm C) (key iv : bytes) : Prop :=
  (exists e d, make_crypt a CRYPTO_ENCRYPT key iv = Done (Some e) /\ make_crypt a CRYPTO_DECRYPT key iv = Done (Some d) /\ paired e d)
  \/ forall mode, make_crypt a mode key iv = Done None.

(** The same with the modes exchanged. *)
Definition reversible (a : crypto_algorithm C) (key iv : bytes) : Prop :=
  (exists e d, make_crypt a CRYPTO_ENCRYPT key iv = Done (Some e) /\ make_crypt a CRYPTO_DECRYPT key iv = Done (Some d) /\ paired e d /\ paired d e)
  \/ forall mode, make_crypt a mode key iv = Done None.

Definition serves (law : crypto_algorithm C -> bytes -> bytes -> Prop) (a : crypto_algorithm C) : Prop :=
  a_block_size a = block_size /\ 0 <= key_size a /\ 0 <= iv_size a
  /\ forall key iv, bytes_ok key -> bytes_ok iv -> key_size a <= zlen key -> iv_size a <= zlen iv -> law a key iv.

Lemma reversible_partners a : serves reversible a -> serves partners a.
Proof.
  intros (Hb & Hk & Hi & H0). split_and!; try done. intros key iv H1 H2 H3 H4.
  destruct (H0 key iv H1 H2 H3 H4) as [(e & d & E1 & E2 & Hp & _)|Hw]; [left; by exists e, d|by right].
Qed.

Lemma invert_serves a : serves reversible a -> serves reversible (crypto_invert a).
Proof.
  intros (Hb & Hk & Hi & H0). split_and!; try done. intros key iv H1 H2 H3 H4. cbn [crypto_invert key_size iv_size] in *.
  destruct (H0 key iv H1 H2 H3 H4) as [(e & d & E1 & E2 & Hp & Hq)|Hw]; [left; by exists d, e|right; intros []; apply Hw].
Qed.

Lemma make_each_serves l key iv : Forall (serves reversible) l -> bytes_ok key -> bytes_ok iv ->
  foldr (fun a n => key_size a + n) 0 l <= zlen key -> foldr (fun a n => iv_size a + n) 0 l <= zlen iv ->
  (exists es ds, make_each l CRYPTO_ENCRYPT key iv = Done (Some es) /\ make_each l CRYPTO_DECRYPT key iv = Done (Some ds)
    /\ Forall2 (fun e d => paired e d /\ paired d e) es ds /\ length es = length l)
  \/ forall mode, make_each l mode key iv = Done None.
Proof.
  intros Hl. revert key iv. induction Hl as [|a l (Hb & Hk & Hi & Ha) Hl IH]; intros key iv Hkb Hib Hkl Hil; cbn [make_each]; [left; by exists [], []|].
  assert (Hsum : forall f : crypto_algorithm C -> Z, (forall b, b ∈ l -> 0 <= f b) -> 0 <= foldr (fun b n => f b + n) 0 l).
  { intros f. clear. induction l as [|b l IH]; intros Hf; cbn [foldr]; [done|]. pose proof (Hf b ltac:(left)). specialize (IH ltac:(intros c Hc; apply Hf; by right)). lia. }
  rewrite Forall_forall in Hl. pose proof (Hsum key_size ltac:(intros b Hb'; apply (Hl b Hb'))). pose proof (Hsum iv_size ltac:(intros b Hb'; apply (Hl b Hb'))).
  cbn [foldr] in Hkl, Hil. destruct (zlen_take_drop (key_size a) key ltac:(lia)) as [_ Hdk]. destruct (zlen_take_drop (iv_size a) iv ltac:(lia)) as [_ Hdi].
  destruct (Ha key iv Hkb Hib ltac:(lia) ltac:(lia)) as [(e & d & E1 & E2 & Hp & Hq)|Hw].
  - rewrite E1, E2. cbn [mbind outcome_bind].
    destruct (IH (drop (Z.to_nat (key_size a)) key) (drop (Z.to_nat (iv_size a)) iv)) as [(es & ds & -> & -> & HF & Hn)|Hw].
    { by apply Forall_drop. } { by apply Forall_drop. } { lia. } { lia. }
    + left. exists (e :: es), (d :: ds). cbn. split_and!; [done|done|by constructor|lia].
    + right. intros mode. destruct mode; [change (make_crypt a true key iv) with (make_crypt a CRYPTO_ENCRYPT key iv)|change (make_crypt a false key iv) with (make_crypt a CRYPTO_DECRYPT key iv)];
        rewrite ?E1, ?E2; cbn [mbind outcome_bind]; by rewrite Hw.
  - right. intros mode. by rewrite Hw.
Qed.
End Lawful.

Lemma cascade_serves {C} `{CL : CipherLaws C} (l : list (crypto_algorithm C)) block key iv : l <> [] -> Forall (serves reversible) l -> block = block_size ->
  foldr (fun a n => key_size a + n) 0 l = key -> foldr (fun a n => iv_size a + n) 0 l = iv -> 0 <= key -> 0 <= iv ->
  serves reversible (mkAlgorithm block key iv (do_make_cascade l)).
Proof.
  intros Hne Hl -> Hk Hi Hk0 Hi0. split_and!; [done|done|done|]. intros k v Hkb Hvb Hkl Hvl. cbn [key_size iv_size] in *.
  unfold reversible. cbn [make_crypt]. unfold do_make_cascade.
  destruct (make_each_serves l k v Hl Hkb Hvb ltac:(lia) ltac:(lia)) as [(es & ds & -> & -> & HF & Hn)|Hw].
  - left. exists (mkCascade es), (mkCascade (reverse ds)). cbn [mbind outcome_bind option_map CRYPTO_ENCRYPT CRYPTO_DECRYPT].
    assert (Hes : es <> []) by (intros ->; by destruct l).
    assert (HF1 : Forall2 paired es ds) by (eapply Forall2_impl; [exact HF|by intros ? ? [? ?]]).
    split; [done|]. split; [done|]. split; cbn [paired cascade_laws cascade].
    + split; [done|]. by exists ds.
    + split; [by eapply partners_nonempty|]. exists (reverse es). rewrite reverse_involutive. split; [done|].
      apply Forall2_reverse, Forall2_flip. eapply Forall2_impl; [exact HF|by intros ? ? [? ?]].
  - right. intros mode. by rewrite Hw.
Qed.

Lemma cbc_serves {C} `{CL : CipherLaws C} (a : crypto_algorithm C) : serves partners a -> iv_size a + a_block_size a < 2 ^ 32 -> serves partners (crypto_cbc a).
Proof.
  intros (Hb & Hk & Hi & Ha) Hsize. pose proof block_pos as Hp. cbn. unfold serves. cbn [crypto_cbc a_block_size key_size iv_size make_crypt block_size cbc_cipher].
  rewrite u32_small by lia. split_and!; [done|done|lia|]. intros key iv Hkb Hib Hkl Hil. unfold partners. cbn [crypto_cbc make_crypt]. unfold do_make_cbc_instance.
  destruct (zlen_take_drop (a_block_size a) iv ltac:(lia)) as [Ht Hd].
  destruct (Ha key (drop (Z.to_nat (a_block_size a)) iv) Hkb ltac:(by apply Forall_drop) Hkl ltac:(lia)) as [(e & d & -> & -> & Hed)|Hw].
  - left. exists (mkCbc true e (take (Z.to_nat (a_block_size a)) iv)), (mkCbc false d (take (Z.to_nat (a_block_size a)) iv)).
    split; [done|]. split; [done|]. cbn [paired cbc_laws cbc_mode Blocks.iv inner]. split_and!; try done; [congruence|by apply Forall_take].
  - right. intros mode. by rewrite Hw.
Qed.

End Blocks.
