(* ===== verification/Feistel.v ===== *)
(** What the block ciphers of nettle share: words of 32 bits, blocks of two
    words, tables, and networks that change one half of a block by a function
    of the other, in turn. *)
From S2P Require Import Prelude Hash.

Module Feistel.

(** ** Words *)

Definition word (z : Z) : Prop := 0 <= z < 2 ^ 32.
Definition words (l : list Z) : Prop := Forall word l.

#[export] Instance word_dec z : Decision (word z).
Proof. unfold word. apply _. Defined.
#[export] Instance words_dec l : Decision (words l).
Proof. unfold words. apply _. Defined.

Lemma word_shiftr z : word z <-> 0 <= z /\ Z.shiftr z 32 = 0.
Proof. unfold word. rewrite shiftr_div by lia. split; intros H; split; try div_lia. Qed.

Lemma word_lxor a b : word a -> word b -> word (Z.lxor a b).
Proof.
  rewrite !word_shiftr. intros [Ha Ha'] [Hb Hb']. split; [by apply Z.lxor_nonneg; split|]. by rewrite Z.shiftr_lxor, Ha', Hb'.
Qed.

Lemma word_lor a b : word a -> word b -> word (Z.lor a b).
Proof. rewrite !word_shiftr. intros [Ha Ha'] [Hb Hb']. split; [by apply Z.lor_nonneg|]. by rewrite Z.shiftr_lor, Ha', Hb'. Qed.

Lemma word_u32 z : word (u32 z).
Proof. apply u32_range. Qed.

Lemma word_div z n : 0 <= n -> word z -> word (Z.shiftr z n).
Proof.
  intros Hn Hz. rewrite shiftr_div by done. pose proof (Z.pow_pos_nonneg 2 n ltac:(lia) Hn). unfold word in *.
  split; [apply Z.div_pos; lia|]. apply Z.div_lt_upper_bound; nia.
Qed.

Lemma word_land z n : 0 <= z -> word n -> word (Z.land z n).
Proof.
  rewrite !word_shiftr. intros Hz [Hn Hn']. split; [apply Z.land_nonneg; by left|]. by rewrite Z.shiftr_land, Hn', Z.land_0_r.
Qed.

Lemma word_land_255 z : word (Z.land z 255).
Proof. rewrite land_255. unfold word. div_lia. Qed.
#[export] Hint Resolve word_lxor word_lor word_u32 word_div word_land_255 : macssh.

(** An entry of a table; the index is one the source keeps below its length. *)
Definition entry (t : list Z) (i : Z) : Z := nth (Z.to_nat i) t 0.

Lemma word_entry t i : words t -> word (entry t i).
Proof.
  intros Ht. unfold entry. destruct (nth_in_or_default (Z.to_nat i) t 0) as [Hin| ->]; [|done].
  eapply Forall_forall; [exact Ht|]. by apply list_elem_of_In.
Qed.
#[export] Hint Resolve word_entry : macssh.

(** ** Blocks of two words *)

Definition be_pair (b : bytes) : Z * Z :=
  match b with
  | [b0; b1; b2; b3; b4; b5; b6; b7] => (BE_READ_UINT32 b0 b1 b2 b3, BE_READ_UINT32 b4 b5 b6 b7)
  | _ => (0, 0)
  end.
Definition be_block (p : Z * Z) : bytes := BE_WRITE_UINT32 p.1 ++ BE_WRITE_UINT32 p.2.

Definition le_pair (b : bytes) : Z * Z :=
  match b with
  | [b0; b1; b2; b3; b4; b5; b6; b7] => (LE_READ_UINT32 b0 b1 b2 b3, LE_READ_UINT32 b4 b5 b6 b7)
  | _ => (0, 0)
  end.
Definition le_block (p : Z * Z) : bytes := LE_WRITE_UINT32 p.1 ++ LE_WRITE_UINT32 p.2.

Definition word_pair (p : Z * Z) : Prop := word p.1 /\ word p.2.

Lemma eight_octets (b : bytes) : zlen b = 8 -> exists b0 b1 b2 b3 b4 b5 b6 b7, b = [b0; b1; b2; b3; b4; b5; b6; b7].
Proof.
  intros H. unfold zlen in H. do 8 (destruct b as [|? b]; [cbn in H; lia|]). destruct b; [|cbn in H; lia]. by repeat eexists.
Qed.

Lemma read32_word p0 p1 p2 p3 : is_byte p0 -> is_byte p1 -> is_byte p2 -> is_byte p3 -> word (BE_READ_UINT32 p0 p1 p2 p3).
Proof. unfold word, is_byte. intros. rewrite read32_fields by done. lia. Qed.

Lemma write32_read32 p0 p1 p2 p3 : is_byte p0 -> is_byte p1 -> is_byte p2 -> is_byte p3 -> BE_WRITE_UINT32 (BE_READ_UINT32 p0 p1 p2 p3) = [p0; p1; p2; p3].
Proof. unfold is_byte. intros. unfold BE_WRITE_UINT32. rewrite !land_255, !shiftr_div, read32_fields by (unfold is_byte; lia). repeat f_equal; div_lia. Qed.

Lemma block_octets p : zlen (be_block p) = 8 /\ bytes_ok (be_block p) /\ zlen (le_block p) = 8 /\ bytes_ok (le_block p).
Proof. split_and!; try done; unfold be_block, le_block; repeat constructor; rewrite land_255; apply Z.mod_pos_bound; lia. Qed.

Lemma be_pair_block p : word_pair p -> be_pair (be_block p) = p.
Proof. destruct p as [l r]. intros [Hl Hr]. cbn [fst snd] in *. unfold be_pair, be_block. cbn [app BE_WRITE_UINT32 fst snd]. by rewrite !read32_write32. Qed.

Lemma be_block_pair b : bytes_ok b -> zlen b = 8 -> be_block (be_pair b) = b /\ word_pair (be_pair b).
Proof.
  intros Hb Hl. destruct (eight_octets b Hl) as (b0 & b1 & b2 & b3 & b4 & b5 & b6 & b7 & ->). unfold bytes_ok in Hb. rewrite !Forall_cons in Hb.
  destruct Hb as (? & ? & ? & ? & ? & ? & ? & ? & _). cbn [be_pair]. unfold be_block, word_pair. cbn [fst snd].
  rewrite !write32_read32 by done. split; [done|]. split; by apply read32_word.
Qed.

Lemma le_write_reverse w : LE_WRITE_UINT32 w = reverse (BE_WRITE_UINT32 w).
Proof. done. Qed.

Lemma le_pair_block p : word_pair p -> le_pair (le_block p) = p.
Proof.
  destruct p as [l r]. intros [Hl Hr]. cbn [fst snd] in *. unfold le_pair, le_block. cbn [app LE_WRITE_UINT32 fst snd].
  by rewrite (read32_write32 l Hl : LE_READ_UINT32 _ _ _ _ = _), (read32_write32 r Hr : LE_READ_UINT32 _ _ _ _ = _).
Qed.

Lemma le_block_pair b : bytes_ok b -> zlen b = 8 -> le_block (le_pair b) = b /\ word_pair (le_pair b).
Proof.
  intros Hb Hl. destruct (eight_octets b Hl) as (b0 & b1 & b2 & b3 & b4 & b5 & b6 & b7 & ->). unfold bytes_ok in Hb. rewrite !Forall_cons in Hb.
  destruct Hb as (? & ? & ? & ? & ? & ? & ? & ? & _). cbn [le_pair]. unfold le_block, word_pair. cbn [fst snd].
  change LE_READ_UINT32 with (fun p0 p1 p2 p3 => BE_READ_UINT32 p3 p2 p1 p0). cbv beta.
  rewrite !le_write_reverse, !write32_read32 by done. split; [done|]. split; by apply read32_word.
Qed.

(** ** Networks *)

Section Network.
Context {K : Type} (F : K -> Z -> Z).

(** A round changes the first half; then the halves change their parts. *)
Fixpoint network (keys : list K) (x y : Z) : Z * Z :=
  match keys with
  | [] => (x, y)
  | k :: keys => network keys y (Z.lxor x (F k y))
  end.

Lemma network_app a b x y : network (a ++ b) x y = let '(x, y) := network a x y in network b x y.
Proof. revert x y. induction a as [|k a IH]; intros x y; cbn; [done|apply IH]. Qed.

(** Run with the keys in reverse from the halves exchanged, it takes every
    round back. *)
Lemma network_inverse keys x y : let '(a, b) := network keys x y in network (rev keys) b a = (y, x).
Proof.
  revert x y. induction keys as [|k keys IH]; intros x y; cbn; [done|]. specialize (IH y (Z.lxor x (F k y))).
  destruct (network keys y (Z.lxor x (F k y))) as [a b]. rewrite network_app, IH. cbn. by rewrite Z.lxor_assoc, Z.lxor_nilpotent, Z.lxor_0_r.
Qed.

Lemma network_words keys x y : (forall k z, k ∈ keys -> word z -> word (F k z)) -> word x -> word y -> word_pair (network keys x y).
Proof.
  revert x y. induction keys as [|k keys IH]; intros x y HF Hx Hy; cbn; [by split|]. apply IH; [|done|].
  - intros k' z Hk. apply HF. by right.
  - apply word_lxor; [done|]. apply HF; [left|done].
Qed.
End Network.

End Feistel.
