(* ===== verification/Des.v ===== *)
(** DES (nettle/des.c with the macros of desCode.h and its generated tables,
    and lsh/src/des.c): the key schedule, the test for weak keys, the cipher and
    its instances. Of the variants of the macros for different processors the
    one for machines without a type of their own is taken; the others compute
    the same. *)
From S2P Require Import Prelude Window Hash Crypto Blocks Feistel.
Import Crypto Blocks Feistel.

Module Des.

(** ** Tables *)

Definition keymap : list Z :=
  [0x02080008; 0x02082000; 0x00002008; 0x00000000; 0x02002000; 0x00080008; 0x02080000; 0x02082008;
   0x00000008; 0x02000000; 0x00082000; 0x00002008; 0x00082008; 0x02002008; 0x02000008; 0x02080000;
   0x00002000; 0x00082008; 0x00080008; 0x02002000; 0x02082008; 0x02000008; 0x00000000; 0x00082000;
   0x02000000; 0x00080000; 0x02002008; 0x02080008; 0x00080000; 0x00002000; 0x02082000; 0x00000008;
   0x00080000; 0x00002000; 0x02000008; 0x02082008; 0x00002008; 0x02000000; 0x00000000; 0x00082000;
   0x02080008; 0x02002008; 0x02002000; 0x00080008; 0x02082000; 0x00000008; 0x00080008; 0x02002000;
   0x02082008; 0x00080000; 0x02080000; 0x02000008; 0x00082000; 0x00002008; 0x02002008; 0x02080000;
   0x00000008; 0x02082000; 0x00082008; 0x00000000; 0x02000000; 0x02080008; 0x00002000; 0x00082008;
   0x08000004; 0x00020004; 0x00000000; 0x08020200; 0x00020004; 0x00000200; 0x08000204; 0x00020000;
   0x00000204; 0x08020204; 0x00020200; 0x08000000; 0x08000200; 0x08000004; 0x08020000; 0x00020204;
   0x00020000; 0x08000204; 0x08020004; 0x00000000; 0x00000200; 0x00000004; 0x08020200; 0x08020004;
   0x08020204; 0x08020000; 0x08000000; 0x00000204; 0x00000004; 0x00020200; 0x00020204; 0x08000200;
   0x00000204; 0x08000000; 0x08000200; 0x00020204; 0x08020200; 0x00020004; 0x00000000; 0x08000200;
   0x08000000; 0x00000200; 0x08020004; 0x00020000; 0x00020004; 0x08020204; 0x00020200; 0x00000004;
   0x08020204; 0x00020200; 0x00020000; 0x08000204; 0x08000004; 0x08020000; 0x00020204; 0x00000000;
   0x00000200; 0x08000004; 0x08000204; 0x08020200; 0x08020000; 0x00000204; 0x00000004; 0x08020004;
   0x80040100; 0x01000100; 0x80000000; 0x81040100; 0x00000000; 0x01040000; 0x81000100; 0x80040000;
   0x01040100; 0x81000000; 0x01000000; 0x80000100; 0x81000000; 0x80040100; 0x00040000; 0x01000000;
   0x81040000; 0x00040100; 0x00000100; 0x80000000; 0x00040100; 0x81000100; 0x01040000; 0x00000100;
   0x80000100; 0x00000000; 0x80040000; 0x01040100; 0x01000100; 0x81040000; 0x81040100; 0x00040000;
   0x81040000; 0x80000100; 0x00040000; 0x81000000; 0x00040100; 0x01000100; 0x80000000; 0x01040000;
   0x81000100; 0x00000000; 0x00000100; 0x80040000; 0x00000000; 0x81040000; 0x01040100; 0x00000100;
   0x01000000; 0x81040100; 0x80040100; 0x00040000; 0x81040100; 0x80000000; 0x01000100; 0x80040100;
   0x80040000; 0x00040100; 0x01040000; 0x81000100; 0x80000100; 0x01000000; 0x81000000; 0x01040100;
   0x04010801; 0x00000000; 0x00010800; 0x04010000; 0x04000001; 0x00000801; 0x04000800; 0x00010800;
   0x00000800; 0x04010001; 0x00000001; 0x04000800; 0x00010001; 0x04010800; 0x04010000; 0x00000001;
   0x00010000; 0x04000801; 0x04010001; 0x00000800; 0x00010801; 0x04000000; 0x00000000; 0x00010001;
   0x04000801; 0x00010801; 0x04010800; 0x04000001; 0x04000000; 0x00010000; 0x00000801; 0x04010801;
   0x00010001; 0x04010800; 0x04000800; 0x00010801; 0x04010801; 0x00010001; 0x04000001; 0x00000000;
   0x04000000; 0x00000801; 0x00010000; 0x04010001; 0x00000800; 0x04000000; 0x00010801; 0x04000801;
   0x04010800; 0x00000800; 0x00000000; 0x04000001; 0x00000001; 0x04010801; 0x00010800; 0x04010000;
   0x04010001; 0x00010000; 0x00000801; 0x04000800; 0x04000801; 0x00000001; 0x04010000; 0x00010800;
   0x00000400; 0x00000020; 0x00100020; 0x40100000; 0x40100420; 0x40000400; 0x00000420; 0x00000000;
   0x00100000; 0x40100020; 0x40000020; 0x00100400; 0x40000000; 0x00100420; 0x00100400; 0x40000020;
   0x40100020; 0x00000400; 0x40000400; 0x40100420; 0x00000000; 0x00100020; 0x40100000; 0x00000420;
   0x40100400; 0x40000420; 0x00100420; 0x40000000; 0x40000420; 0x40100400; 0x00000020; 0x00100000;
   0x40000420; 0x00100400; 0x40100400; 0x40000020; 0x00000400; 0x00000020; 0x00100000; 0x40100400;
   0x40100020; 0x40000420; 0x00000420; 0x00000000; 0x00000020; 0x40100000; 0x40000000; 0x00100020;
   0x00000000; 0x40100020; 0x00100020; 0x00000420; 0x40000020; 0x00000400; 0x40100420; 0x00100000;
   0x00100420; 0x40000000; 0x40000400; 0x40100420; 0x40100000; 0x00100420; 0x00100400; 0x40000400;
   0x00800000; 0x00001000; 0x00000040; 0x00801042; 0x00801002; 0x00800040; 0x00001042; 0x00801000;
   0x00001000; 0x00000002; 0x00800002; 0x00001040; 0x00800042; 0x00801002; 0x00801040; 0x00000000;
   0x00001040; 0x00800000; 0x00001002; 0x00000042; 0x00800040; 0x00001042; 0x00000000; 0x00800002;
   0x00000002; 0x00800042; 0x00801042; 0x00001002; 0x00801000; 0x00000040; 0x00000042; 0x00801040;
   0x00801040; 0x00800042; 0x00001002; 0x00801000; 0x00001000; 0x00000002; 0x00800002; 0x00800040;
   0x00800000; 0x00001040; 0x00801042; 0x00000000; 0x00001042; 0x00800000; 0x00000040; 0x00001002;
   0x00800042; 0x00000040; 0x00000000; 0x00801042; 0x00801002; 0x00801040; 0x00000042; 0x00001000;
   0x00001040; 0x00801002; 0x00800040; 0x00000042; 0x00000002; 0x00001042; 0x00801000; 0x00800002;
   0x10400000; 0x00404010; 0x00000010; 0x10400010; 0x10004000; 0x00400000; 0x10400010; 0x00004010;
   0x00400010; 0x00004000; 0x00404000; 0x10000000; 0x10404010; 0x10000010; 0x10000000; 0x10404000;
   0x00000000; 0x10004000; 0x00404010; 0x00000010; 0x10000010; 0x10404010; 0x00004000; 0x10400000;
   0x10404000; 0x00400010; 0x10004010; 0x00404000; 0x00004010; 0x00000000; 0x00400000; 0x10004010;
   0x00404010; 0x00000010; 0x10000000; 0x00004000; 0x10000010; 0x10004000; 0x00404000; 0x10400010;
   0x00000000; 0x00404010; 0x00004010; 0x10404000; 0x10004000; 0x00400000; 0x10404010; 0x10000000;
   0x10004010; 0x10400000; 0x00400000; 0x10404010; 0x00004000; 0x00400010; 0x10400010; 0x00004010;
   0x00400010; 0x00000000; 0x10404000; 0x10000010; 0x10400000; 0x10004010; 0x00000010; 0x00404000;
   0x00208080; 0x00008000; 0x20200000; 0x20208080; 0x00200000; 0x20008080; 0x20008000; 0x20200000;
   0x20008080; 0x00208080; 0x00208000; 0x20000080; 0x20200080; 0x00200000; 0x00000000; 0x20008000;
   0x00008000; 0x20000000; 0x00200080; 0x00008080; 0x20208080; 0x00208000; 0x20000080; 0x00200080;
   0x20000000; 0x00000080; 0x00008080; 0x20208000; 0x00000080; 0x20200080; 0x20208000; 0x00000000;
   0x00000000; 0x20208080; 0x00200080; 0x20008000; 0x00208080; 0x00008000; 0x20000080; 0x00200080;
   0x20208000; 0x00000080; 0x00008080; 0x20200000; 0x20008080; 0x20000000; 0x20200000; 0x00208000;
   0x20208080; 0x00008080; 0x00208000; 0x20200080; 0x00200000; 0x20000080; 0x20008000; 0x00000000;
   0x00008000; 0x00200000; 0x20200080; 0x00208080; 0x20000000; 0x20208000; 0x00000080; 0x20008080].

Definition rotors : list Z :=
  [34; 13; 5; 46; 47; 18; 32; 41; 11; 53; 33; 20; 14; 36; 30; 24; 49; 2; 15; 37; 42; 50; 0; 21;
   38; 48; 6; 26; 39; 4; 52; 25; 12; 27; 31; 40; 1; 17; 28; 29; 23; 51; 35; 7; 3; 22; 9; 43;
   41; 20; 12; 53; 54; 25; 39; 48; 18; 31; 40; 27; 21; 43; 37; 0; 1; 9; 22; 44; 49; 2; 7; 28;
   45; 55; 13; 33; 46; 11; 6; 32; 19; 34; 38; 47; 8; 24; 35; 36; 30; 3; 42; 14; 10; 29; 16; 50;
   55; 34; 26; 38; 11; 39; 53; 5; 32; 45; 54; 41; 35; 2; 51; 14; 15; 23; 36; 3; 8; 16; 21; 42;
   6; 12; 27; 47; 31; 25; 20; 46; 33; 48; 52; 4; 22; 7; 49; 50; 44; 17; 1; 28; 24; 43; 30; 9;
   12; 48; 40; 52; 25; 53; 38; 19; 46; 6; 11; 55; 49; 16; 10; 28; 29; 37; 50; 17; 22; 30; 35; 1;
   20; 26; 41; 4; 45; 39; 34; 31; 47; 5; 13; 18; 36; 21; 8; 9; 3; 0; 15; 42; 7; 2; 44; 23;
   26; 5; 54; 13; 39; 38; 52; 33; 31; 20; 25; 12; 8; 30; 24; 42; 43; 51; 9; 0; 36; 44; 49; 15;
   34; 40; 55; 18; 6; 53; 48; 45; 4; 19; 27; 32; 50; 35; 22; 23; 17; 14; 29; 1; 21; 16; 3; 37;
   40; 19; 11; 27; 53; 52; 13; 47; 45; 34; 39; 26; 22; 44; 7; 1; 2; 10; 23; 14; 50; 3; 8; 29;
   48; 54; 12; 32; 20; 38; 5; 6; 18; 33; 41; 46; 9; 49; 36; 37; 0; 28; 43; 15; 35; 30; 17; 51;
   54; 33; 25; 41; 38; 13; 27; 4; 6; 48; 53; 40; 36; 3; 21; 15; 16; 24; 37; 28; 9; 17; 22; 43;
   5; 11; 26; 46; 34; 52; 19; 20; 32; 47; 55; 31; 23; 8; 50; 51; 14; 42; 2; 29; 49; 44; 0; 10;
   11; 47; 39; 55; 52; 27; 41; 18; 20; 5; 38; 54; 50; 17; 35; 29; 30; 7; 51; 42; 23; 0; 36; 2;
   19; 25; 40; 31; 48; 13; 33; 34; 46; 4; 12; 45; 37; 22; 9; 10; 28; 1; 16; 43; 8; 3; 14; 24;
   18; 54; 46; 5; 6; 34; 48; 25; 27; 12; 45; 4; 2; 24; 42; 36; 37; 14; 3; 49; 30; 7; 43; 9;
   26; 32; 47; 38; 55; 20; 40; 41; 53; 11; 19; 52; 44; 29; 16; 17; 35; 8; 23; 50; 15; 10; 21; 0;
   32; 11; 31; 19; 20; 48; 5; 39; 41; 26; 6; 18; 16; 7; 1; 50; 51; 28; 17; 8; 44; 21; 2; 23;
   40; 46; 4; 52; 12; 34; 54; 55; 38; 25; 33; 13; 3; 43; 30; 0; 49; 22; 37; 9; 29; 24; 35; 14;
   46; 25; 45; 33; 34; 5; 19; 53; 55; 40; 20; 32; 30; 21; 15; 9; 10; 42; 0; 22; 3; 35; 16; 37;
   54; 31; 18; 13; 26; 48; 11; 12; 52; 39; 47; 27; 17; 2; 44; 14; 8; 36; 51; 23; 43; 7; 49; 28;
   31; 39; 6; 47; 48; 19; 33; 38; 12; 54; 34; 46; 44; 35; 29; 23; 24; 1; 14; 36; 17; 49; 30; 51;
   11; 45; 32; 27; 40; 5; 25; 26; 13; 53; 4; 41; 0; 16; 3; 28; 22; 50; 10; 37; 2; 21; 8; 42;
   45; 53; 20; 4; 5; 33; 47; 52; 26; 11; 48; 31; 3; 49; 43; 37; 7; 15; 28; 50; 0; 8; 44; 10;
   25; 6; 46; 41; 54; 19; 39; 40; 27; 38; 18; 55; 14; 30; 17; 42; 36; 9; 24; 51; 16; 35; 22; 1;
   6; 38; 34; 18; 19; 47; 4; 13; 40; 25; 5; 45; 17; 8; 2; 51; 21; 29; 42; 9; 14; 22; 3; 24;
   39; 20; 31; 55; 11; 33; 53; 54; 41; 52; 32; 12; 28; 44; 0; 1; 50; 23; 7; 10; 30; 49; 36; 15;
   20; 52; 48; 32; 33; 4; 18; 27; 54; 39; 19; 6; 0; 22; 16; 10; 35; 43; 1; 23; 28; 36; 17; 7;
   53; 34; 45; 12; 25; 47; 38; 11; 55; 13; 46; 26; 42; 3; 14; 15; 9; 37; 21; 24; 44; 8; 50; 29;
   27; 6; 55; 39; 40; 11; 25; 34; 4; 46; 26; 13; 7; 29; 23; 17; 42; 50; 8; 30; 35; 43; 24; 14;
   31; 41; 52; 19; 32; 54; 45; 18; 5; 20; 53; 33; 49; 10; 21; 22; 16; 44; 28; 0; 51; 15; 2; 36].

Definition parity : list Z :=
  [8; 1; 0; 8; 0; 8; 8; 0; 0; 8; 8; 0; 8; 0; 2; 8; 0; 8; 8; 0; 8; 0; 0; 8; 8; 0; 0; 8; 0; 8; 8; 3;
   0; 8; 8; 0; 8; 0; 0; 8; 8; 0; 0; 8; 0; 8; 8; 0; 8; 0; 0; 8; 0; 8; 8; 0; 0; 8; 8; 0; 8; 0; 0; 8;
   0; 8; 8; 0; 8; 0; 0; 8; 8; 0; 0; 8; 0; 8; 8; 0; 8; 0; 0; 8; 0; 8; 8; 0; 0; 8; 8; 0; 8; 0; 0; 8;
   8; 0; 0; 8; 0; 8; 8; 0; 0; 8; 8; 0; 8; 0; 0; 8; 0; 8; 8; 0; 8; 0; 0; 8; 8; 0; 0; 8; 0; 8; 8; 0;
   0; 8; 8; 0; 8; 0; 0; 8; 8; 0; 0; 8; 0; 8; 8; 0; 8; 0; 0; 8; 0; 8; 8; 0; 0; 8; 8; 0; 8; 0; 0; 8;
   8; 0; 0; 8; 0; 8; 8; 0; 0; 8; 8; 0; 8; 0; 0; 8; 0; 8; 8; 0; 8; 0; 0; 8; 8; 0; 0; 8; 0; 8; 8; 0;
   8; 0; 0; 8; 0; 8; 8; 0; 0; 8; 8; 0; 8; 0; 0; 8; 0; 8; 8; 0; 8; 0; 0; 8; 8; 0; 0; 8; 0; 8; 8; 0;
   4; 8; 8; 0; 8; 0; 0; 8; 8; 0; 0; 8; 0; 8; 8; 0; 8; 5; 0; 8; 0; 8; 8; 0; 0; 8; 8; 0; 8; 0; 6; 8].

(** ** Keys *)

Definition DES_KEY_SIZE : Z := 8.
Definition DES_BLOCK_SIZE : Z := 8.

Inductive des_error := DES_OK | DES_BAD_PARITY | DES_WEAK_KEY.

Record des_ctx := mkDes { key : list Z; status : des_error }.

(** The entries of [parity] for the octets of a key, four bits each. *)
Definition parity_word (key : bytes) : outcome Z :=
  k ← mapM (arr_get key) [0; 1; 2; 3; 4; 5; 6; 7];
  Done (foldl (fun n b => Z.lor (u32 (Z.shiftl n 4)) (entry parity b)) 0 k).

(** The search for a weak or semi-weak key among the sixteen there are. *)
Definition weak_key (n : Z) : bool :=
  if Z.land (u32 (n - Z.shiftr 0x88888888 3)) 0x88888888 =? 0 then
    if n <? 0x41415151 then
      if n <? 0x31312121 then
        if n <? 0x14141515 then (n =? 0x11111111) || (n =? 0x13131212)
        else (n =? 0x14141515) || (n =? 0x16161616)
      else
        if n <? 0x34342525 then (n =? 0x31312121) || (n =? 0x33332222)
        else (n =? 0x34342525) || (n =? 0x36362626)
    else
      if n <? 0x61616161 then
        if n <? 0x44445555 then (n =? 0x41415151) || (n =? 0x43435252)
        else (n =? 0x44445555) || (n =? 0x46465656)
      else
        if n <? 0x64646565 then (n =? 0x61616161) || (n =? 0x63636262)
        else (n =? 0x64646565) || (n =? 0x66666666)
  else false.

(** The loop over the bits of an octet; the bits are stored from the end of
    the arrays. *)
Fixpoint explode_octet (fuel : nat) (w : Z) (bits1 bits0 : bytes) : outcome (bytes * bytes) :=
  match fuel with
  | O => Crash Hang
  | S fuel =>
    let bits1 := Z.land 8 w :: bits1 in
    let w := Z.shiftr w 1 in
    let bits0 := Z.land 4 w :: bits0 in
    if 16 <=? w then explode_octet fuel w bits1 bits0 else Done (bits1, bits0)
  end.

(** The loop over the octets of the key, until the arrays are full. *)
Fixpoint explode_key (key : bytes) (bits1 bits0 : bytes) : outcome (bytes * bytes) :=
  match key with
  | [] => Crash OutOfBounds
  | k :: key =>
    '(bits1, bits0) ← explode_octet 8 (Z.shiftl (Z.lor 256 k) 2) bits1 bits0;
    if zlen bits1 =? 56 then Done (bits1, bits0) else explode_key key bits1 bits0
  end.

Definition ROR (d c o : Z) : Z := Z.lor (Z.shiftr d c) (u32 (Z.shiftl d o)).

Section Schedule.
Variables (bits1 bits0 k : bytes).

Definition two_bits (j : Z) : Z := Z.lor (entry bits1 (entry k j)) (entry bits0 (entry k (j + 1))).
Definition six_bits (j : Z) : Z :=
  Z.lor (Z.lor (Z.shiftl (two_bits j) 4) (Z.shiftl (two_bits (j + 2)) 2)) (two_bits (j + 4)).

(** The word of the rotors from [j] on. *)
Definition method (j : Z) : Z :=
  foldl (fun w i => Z.lor (u32 (Z.shiftl w 8)) (six_bits i)) 0 [j; j + 6; j + 12; j + 18].
End Schedule.

(** The two words of every round. *)
Definition schedule (bits1 bits0 : bytes) : list Z :=
  seqZ 0 16 ≫= fun n =>
    let k := drop (Z.to_nat (48 * n)) rotors in
    [method bits1 bits0 k 0; ROR (method bits1 bits0 k 24) 4 28].

Definition des_set_key (key : bytes) : outcome des_ctx :=
  n ← parity_word key;
  if negb (Z.land n 0x88888888 =? 0) then Done (mkDes [] DES_BAD_PARITY)
  else if weak_key n then Done (mkDes [] DES_WEAK_KEY)
  else
    '(bits1, bits0) ← explode_key key [] [];
    Done (mkDes (schedule bits1 bits0) DES_OK).

(** ** The cipher *)

(** The exchange of the bits [m] of [y] with those [b] places higher in [x]. *)
Definition SWAP (x y m b : Z) : Z * Z :=
  let z := Z.land (Z.lxor (Z.shiftr x b) y) m in (Z.lxor x (u32 (Z.shiftl z b)), Z.lxor y z).

Definition ROL1 (d : Z) : Z := Z.lor (u32 (Z.shiftl d 1)) (Z.shiftr d 31).
Definition ROR1 (d : Z) : Z := ROR d 1 31.

Definition alternate (x y : Z) : Z * Z :=
  let z := Z.land (Z.lxor x y) 0x55555555 in (Z.lxor x z, Z.lxor y z).

Definition LOADFIPS (s : bytes) : Z * Z :=
  let '(y, x) := le_pair s in
  let '(x, y) := SWAP x y 0x0F0F0F0F 4 in
  let '(y, x) := SWAP y x 0x0000FFFF 16 in
  let '(x, y) := SWAP x y 0x33333333 2 in
  let '(y, x) := SWAP y x 0x00FF00FF 8 in
  let x := ROR1 x in
  let '(x, y) := alternate x y in
  (x, ROR1 y).

Definition SAVEFIPS (x y : Z) : bytes :=
  let x := ROL1 x in
  let '(x, y) := alternate x y in
  let y := ROL1 y in
  let '(x, y) := SWAP x y 0x00FF00FF 8 in
  let '(y, x) := SWAP y x 0x33333333 2 in
  let '(x, y) := SWAP x y 0x0000FFFF 16 in
  let '(y, x) := SWAP y x 0x0F0F0F0F 4 in
  le_block (x, y).

(** The table [ms] of the eight that [keymap] holds, at the byte offset [ls]. *)
Definition ADD (ms ls : Z) : Z := entry keymap (64 * ms + ls / 4).

Definition KEYMAPSMALL (x z ms0 ms1 ms2 ms3 : Z) : Z :=
  let x := Z.lxor x (ADD ms3 (Z.land 0xFC z)) in
  let z := Z.shiftr z 8 in
  let x := Z.lxor x (ADD ms2 (Z.land 0xFC z)) in
  let z := Z.shiftr z 8 in
  let x := Z.lxor x (ADD ms1 (Z.land 0xFC z)) in
  let z := Z.shiftr z 8 in
  Z.lxor x (ADD ms0 (Z.land 0xFC z)).

Section Rounds.
Variable r : list Z.

Definition S7S1 (x y m : Z) : Z := KEYMAPSMALL x (Z.lxor (entry r m) y) 0 1 2 3.
Definition S6S0 (x y m : Z) : Z :=
  let z := Z.lxor (entry r m) y in
  KEYMAPSMALL x (Z.lor (u32 (Z.shiftl z 4)) (Z.shiftr z 28)) 4 5 6 7.

Definition ENCR (x y m n : Z) : Z := S6S0 (S7S1 x y m) y n.
Definition DECR (x y m n : Z) : Z := S7S1 (S6S0 x y m) y n.

(** A macro applied to [x] and [y] in turn. *)
Fixpoint iterations (step : Z -> Z -> Z -> Z -> Z) (l : list (Z * Z)) (x y : Z) : Z * Z :=
  match l with
  | [] => (x, y)
  | (m, n) :: l => iterations step l y (step x y m n)
  end.

Definition up : list (Z * Z) :=
  [(0, 1); (2, 3); (4, 5); (6, 7); (8, 9); (10, 11); (12, 13); (14, 15);
   (16, 17); (18, 19); (20, 21); (22, 23); (24, 25); (26, 27); (28, 29); (30, 31)].
Definition down : list (Z * Z) :=
  [(31, 30); (29, 28); (27, 26); (25, 24); (23, 22); (21, 20); (19, 18); (17, 16);
   (15, 14); (13, 12); (11, 10); (9, 8); (7, 6); (5, 4); (3, 2); (1, 0)].

Definition DesSmallFipsEncrypt (s : bytes) : bytes :=
  let '(x, y) := LOADFIPS s in let '(x, y) := iterations ENCR up x y in SAVEFIPS x y.
Definition DesSmallFipsDecrypt (s : bytes) : bytes :=
  let '(x, y) := LOADFIPS s in let '(x, y) := iterations DECR down x y in SAVEFIPS x y.
End Rounds.

Definition ready (ctx : des_ctx) : bool := match status ctx with DES_OK => true | _ => false end.

Definition des_encrypt (ctx : des_ctx) (src : bytes) : outcome bytes :=
  _ ← assert_that (ready ctx); for_blocks DES_BLOCK_SIZE (DesSmallFipsEncrypt (key ctx)) src.
Definition des_decrypt (ctx : des_ctx) (src : bytes) : outcome bytes :=
  _ ← assert_that (ready ctx); for_blocks DES_BLOCK_SIZE (DesSmallFipsDecrypt (key ctx)) src.

#[export] Instance des_cipher : BlockCipher des_ctx := {| bc_size := DES_BLOCK_SIZE; bc_encrypt := des_encrypt; bc_decrypt := des_decrypt |}.

(** ** Instances (lsh/src/des.c) *)

(** An octet of a key with odd parity. *)
Definition fix_parity (k : Z) : Z :=
  let p := k in
  let p := Z.lxor p (Z.shiftr p 4) in
  let p := Z.lxor p (Z.shiftr p 2) in
  let p := Z.lxor p (Z.shiftr p 1) in
  Z.lxor (Z.lxor k (Z.land p 1)) 1.

Definition make_des_instance (mode : bool) (key iv : bytes) : outcome (option (block_instance des_ctx)) :=
  k ← mapM (arr_get key) [0; 1; 2; 3; 4; 5; 6; 7];
  self ← des_set_key (fix_parity <$> k);
  match status self with
  | DES_OK => Done (Some (mkInstance mode self))
  | DES_BAD_PARITY => Crash FatalError
  | DES_WEAK_KEY => Done None
  end.

Definition crypto_des_algorithm : crypto_algorithm (block_instance des_ctx) := mkAlgorithm DES_BLOCK_SIZE DES_KEY_SIZE 0 make_des_instance.

Definition make_des3 : outcome (crypto_algorithm (cascade_instance (block_instance des_ctx))) :=
  crypto_cascadel [crypto_des_algorithm; crypto_invert crypto_des_algorithm; crypto_des_algorithm].

Example des_known_answer :
  (i ← make_des_instance CRYPTO_ENCRYPT [0x01; 0x23; 0x45; 0x67; 0x89; 0xAB; 0xCD; 0xEF] [];
   match i with Some i => do_crypt i [0x01; 0x23; 0x45; 0x67; 0x89; 0xAB; 0xCD; 0xE7] ≫= fun r => Done r.2 | None => Reject end)
  = Done [0xC9; 0x57; 0x44; 0x25; 0x6A; 0x5E; 0xD3; 0x1D].
Proof. vm_compute. reflexivity. Qed.

(** ** Decryption inverts encryption *)

Lemma SWAP_inv x y m b x' y' : word x -> word y -> 0 <= b < 32 -> 0 <= m < 2 ^ (32 - b) -> SWAP x y m b = (x', y') ->
  word x' /\ word y' /\ SWAP x' y' m b = (x, y).
Proof.
  intros Hx Hy Hb Hm. unfold SWAP. set (z := Z.land (Z.lxor (Z.shiftr x b) y) m).
  assert (Hz : 0 <= z < 2 ^ (32 - b)).
  { assert (H0 : 0 <= z) by (apply Z.land_nonneg; right; lia). split; [done|].
    apply (Z.le_lt_trans _ m); [|lia]. unfold z. apply Z.ldiff_le; [lia|]. apply Z.bits_inj'. intros k Hk. rewrite Z.ldiff_spec, Z.land_spec, Z.bits_0.
    destruct (Z.testbit m k); by rewrite ?andb_false_r, ?andb_true_r. }
  assert (Hs : u32 (Z.shiftl z b) = Z.shiftl z b).
  { apply u32_small. rewrite Z.shiftl_mul_pow2 by lia. pose proof (Z.pow_pos_nonneg 2 b ltac:(lia) ltac:(lia)). split; [lia|].
    replace (2 ^ 32) with (2 ^ (32 - b) * 2 ^ b) by (rewrite <- Z.pow_add_r by lia; f_equal; lia). nia. }
  rewrite Hs. intros [= <- <-]. assert (Hzw : word z) by (unfold word; pose proof (Z.pow_le_mono_r 2 (32 - b) 32); lia).
  assert (Hsw : word (Z.shiftl z b)) by (rewrite <- Hs; apply word_u32). split; [by apply word_lxor|]. split; [by apply word_lxor|].
  assert (E : Z.land (Z.lxor (Z.shiftr (Z.lxor x (Z.shiftl z b)) b) (Z.lxor y z)) m = z).
  { rewrite Z.shiftr_lxor, Z.shiftr_shiftl_l, Z.sub_diag, Z.shiftl_0_r by lia.
    replace (Z.lxor (Z.lxor (Z.shiftr x b) z) (Z.lxor y z)) with (Z.lxor (Z.shiftr x b) y); [done|].
    rewrite (Z.lxor_comm y z), <- Z.lxor_assoc, (Z.lxor_assoc _ z z), Z.lxor_nilpotent, Z.lxor_0_r. done. }
  rewrite E, Hs. f_equal; by rewrite Z.lxor_assoc, Z.lxor_nilpotent, Z.lxor_0_r.
Qed.

Lemma alternate_swap x y : word x -> word y -> alternate x y = SWAP x y 0x55555555 0.
Proof. intros Hx Hy. unfold alternate, SWAP. rewrite Z.shiftr_0_r, Z.shiftl_0_r, u32_small; [done|]. apply word_land; [apply word_lxor|]; done. Qed.

Lemma alternate_inv x y x' y' : word x -> word y -> alternate x y = (x', y') -> word x' /\ word y' /\ alternate x' y' = (x, y).
Proof.
  intros Hx Hy. rewrite alternate_swap by done. intros E. destruct (SWAP_inv x y 0x55555555 0 x' y' Hx Hy ltac:(done) ltac:(done) E) as (H1 & H2 & H3).
  by rewrite alternate_swap.
Qed.

Lemma rol_ror d : word d -> word (ROL1 d) /\ word (ROR1 d) /\ ROR1 (ROL1 d) = d /\ ROL1 (ROR1 d) = d.
Proof.
  intros Hd. assert (E1 : forall d, word d -> ROL1 d = rotl 1 d) by (intros a Ha; exact (rotl_ROTL 1 a ltac:(lia) Ha)).
  assert (E31 : forall d, word d -> ROR1 d = rotl 31 d).
  { intros a Ha. unfold ROR1, ROR. rewrite Z.lor_comm. exact (rotl_ROTL 31 a ltac:(lia) Ha). }
  pose proof (rotl_range 1 d ltac:(lia) Hd) as H1. pose proof (rotl_range 31 d ltac:(lia) Hd) as H31.
  rewrite (E1 d), (E31 d) by done. split; [done|]. split; [done|]. rewrite E31, E1 by done. unfold rotl, word in *. split; div_lia.
Qed.

Lemma alternate_comm x y : alternate y x = let '(a, b) := alternate x y in (b, a).
Proof. unfold alternate. by rewrite (Z.lxor_comm y x). Qed.

(** Both ways through the initial permutation; loading exchanges the halves
    that saving writes. *)
Lemma load_save x y : word x -> word y -> bytes_ok (SAVEFIPS x y) /\ zlen (SAVEFIPS x y) = 8 /\ LOADFIPS (SAVEFIPS x y) = (y, x).
Proof.
  intros Hx Hy. unfold SAVEFIPS. destruct (rol_ror x Hx) as (Hx1 & _ & Ex & _). set (x1 := ROL1 x) in *.
  destruct (alternate x1 y) as [x2 y2] eqn:E2. apply alternate_inv in E2 as (Hx2 & Hy2 & E2); [|done..].
  destruct (rol_ror y2 Hy2) as (Hy3 & _ & Ey & _). set (y3 := ROL1 y2) in *.
  destruct (SWAP x2 y3 _ 8) as [x4 y4] eqn:E4. apply SWAP_inv in E4 as (Hx4 & Hy4 & E4); [|done..].
  destruct (SWAP y4 x4 _ 2) as [y5 x5] eqn:E5. apply SWAP_inv in E5 as (Hx5 & Hy5 & E5); [|done..].
  destruct (SWAP x5 y5 _ 16) as [x6 y6] eqn:E6. apply SWAP_inv in E6 as (Hx6 & Hy6 & E6); [|done..].
  destruct (SWAP y6 x6 _ 4) as [y7 x7] eqn:E7. apply SWAP_inv in E7 as (Hx7 & Hy7 & E7); [|done..].
  destruct (block_octets (x7, y7)) as (_ & _ & Hl & Hb). split; [done|]. split; [done|]. unfold LOADFIPS. rewrite le_pair_block by by split.
  rewrite E7, E6, E5, E4, Ey, alternate_comm, E2. by rewrite Ex.
Qed.
Lemma save_load s : bytes_ok s -> zlen s = 8 -> let '(x, y) := LOADFIPS s in word x /\ word y /\ SAVEFIPS y x = s.
Proof.
  intros Hs Hl. destruct (le_block_pair s Hs Hl) as (Eb & Hw). unfold LOADFIPS. destruct (le_pair s) as [y0 x0]. destruct Hw as [Hy0 Hx0]. cbn [fst snd] in Hx0, Hy0.
  destruct (SWAP x0 y0 _ 4) as [x1 y1] eqn:E1. apply SWAP_inv in E1 as (Hx1 & Hy1 & E1); [|done..].
  destruct (SWAP y1 x1 _ 16) as [y2 x2] eqn:E2. apply SWAP_inv in E2 as (Hy2 & Hx2 & E2); [|done..].
  destruct (SWAP x2 y2 _ 2) as [x3 y3] eqn:E3. apply SWAP_inv in E3 as (Hx3 & Hy3 & E3); [|done..].
  destruct (SWAP y3 x3 _ 8) as [y4 x4] eqn:E4. apply SWAP_inv in E4 as (Hy4 & Hx4 & E4); [|done..].
  destruct (rol_ror x4 Hx4) as (_ & Hx5 & _ & Ex). set (x5 := ROR1 x4) in *.
  destruct (alternate x5 y4) as [x6 y6] eqn:E6. apply alternate_inv in E6 as (Hx6 & Hy6 & E6); [|done..].
  destruct (rol_ror y6 Hy6) as (_ & Hy7 & _ & Ey). split; [done|]. split; [done|]. unfold SAVEFIPS.
  by rewrite Ey, alternate_comm, E6, Ex, E4, E3, E2, E1.
Qed.

(** ** The rounds *)

Section Key.
Variable r : list Z.

Lemma keymap_words : words keymap.
Proof. apply (bool_decide_unpack _). by vm_compute. Qed.

Lemma KEYMAPSMALL_xor x z a b c d : KEYMAPSMALL x z a b c d = Z.lxor x (KEYMAPSMALL 0 z a b c d).
Proof. unfold KEYMAPSMALL. by rewrite !Z.lxor_0_l, <- !Z.lxor_assoc. Qed.

Lemma KEYMAPSMALL_word z a b c d : word (KEYMAPSMALL 0 z a b c d).
Proof. pose proof keymap_words. unfold KEYMAPSMALL, ADD. rewrite Z.lxor_0_l. repeat apply word_lxor; by apply word_entry. Qed.

(** What a round adds. *)
Definition round (mn : Z * Z) (y : Z) : Z := ENCR r 0 y mn.1 mn.2.

Lemma round_word mn y : word (round mn y).
Proof.
  unfold round, ENCR, S6S0, S7S1. rewrite KEYMAPSMALL_xor. apply word_lxor; apply KEYMAPSMALL_word.
Qed.

Lemma encr_network l x y : iterations (ENCR r) l x y = network round l x y.
Proof.
  revert x y. induction l as [|[m n] l IH]; intros x y; cbn [iterations network]; [done|]. rewrite IH. f_equal.
  unfold round, ENCR, S6S0, S7S1. cbn [fst snd]. rewrite KEYMAPSMALL_xor, (KEYMAPSMALL_xor x), (KEYMAPSMALL_xor (KEYMAPSMALL 0 _ _ _ _ _)). by rewrite Z.lxor_assoc.
Qed.

Lemma decr_network l x y : iterations (DECR r) l x y = network round (prod_swap <$> l) x y.
Proof.
  revert x y. induction l as [|[m n] l IH]; intros x y; cbn [iterations fmap list_fmap network]; [done|]. rewrite IH. f_equal.
  unfold round, DECR, ENCR, S6S0, S7S1, prod_swap. cbn [fst snd].
  rewrite KEYMAPSMALL_xor, (KEYMAPSMALL_xor x), (KEYMAPSMALL_xor (KEYMAPSMALL 0 _ _ _ _ _)), Z.lxor_assoc. f_equal. apply Z.lxor_comm.
Qed.

Definition transform (l : list (Z * Z)) (s : bytes) : bytes :=
  let '(x, y) := LOADFIPS s in let '(x, y) := network round l x y in SAVEFIPS x y.

Lemma transform_ok l s : bytes_ok s -> zlen s = 8 -> bytes_ok (transform l s) /\ zlen (transform l s) = 8 /\ transform (rev l) (transform l s) = s.
Proof.
  intros Hs Hl. pose proof (save_load s Hs Hl) as H0. unfold transform. destruct (LOADFIPS s) as [x y]. destruct H0 as (Hx & Hy & Es).
  pose proof (network_words round l x y ltac:(intros; apply round_word) Hx Hy) as Hw. pose proof (network_inverse round l x y) as Hi.
  destruct (network round l x y) as [a b]. destruct Hw as [Ha Hb]. cbn [fst snd] in Ha, Hb. destruct (load_save a b Ha Hb) as (H1 & H2 & ->).
  rewrite Hi. by split_and!.
Qed.

Lemma encrypt_transform s : DesSmallFipsEncrypt r s = transform up s.
Proof. unfold DesSmallFipsEncrypt, transform. destruct (LOADFIPS s) as [x y]. by rewrite encr_network. Qed.

Lemma decrypt_transform s : DesSmallFipsDecrypt r s = transform (rev up) s.
Proof. unfold DesSmallFipsDecrypt, transform. destruct (LOADFIPS s) as [x y]. by rewrite decr_network. Qed.
End Key.

Definition des_block (mode : bool) (ctx : des_ctx) (b : bytes) : bytes :=
  if mode then DesSmallFipsEncrypt (key ctx) b else DesSmallFipsDecrypt (key ctx) b.

Lemma des_block_ok mode ctx b : bytes_ok b -> zlen b = 8 ->
  bytes_ok (des_block mode ctx b) /\ zlen (des_block mode ctx b) = 8 /\ des_block (negb mode) ctx (des_block mode ctx b) = b.
Proof.
  intros Hb Hl. destruct mode; cbn [des_block negb]; rewrite ?encrypt_transform, ?decrypt_transform.
  - by apply transform_ok.
  - rewrite <- (rev_involutive up) at 3. by apply transform_ok.
Qed.

#[export, program] Instance des_laws : BlockCipherLaws des_ctx :=
  {| bc_ready := ready; bc_block := des_block; bc_ok ctx := ready ctx = true |}.
Next Obligation. done. Qed.
Next Obligation. done. Qed.
Next Obligation. done. Qed.
Next Obligation. done. Qed.
Next Obligation.
  intros mode x b Hl. cbn in *. unfold des_block, DesSmallFipsEncrypt, DesSmallFipsDecrypt. destruct mode, (LOADFIPS b) as [u v], (iterations _ _ _ _) as [c d];
    unfold SAVEFIPS; repeat (case_match); apply block_octets.
Qed.
Next Obligation. intros mode x b _ Hb Hl. by apply des_block_ok. Qed.
Next Obligation. intros mode x b _ Hb Hl. by apply des_block_ok. Qed.

(** ** Which keys are accepted *)

(** The weak and semi-weak keys, as the comments of the source list them. *)
Definition weak_keys : list bytes :=
  [[0x01; 0x01; 0x01; 0x01; 0x01; 0x01; 0x01; 0x01];
   [0x01; 0x1F; 0x01; 0x1F; 0x01; 0x0E; 0x01; 0x0E];
   [0x01; 0xE0; 0x01; 0xE0; 0x01; 0xF1; 0x01; 0xF1];
   [0x01; 0xFE; 0x01; 0xFE; 0x01; 0xFE; 0x01; 0xFE];
   [0x1F; 0x01; 0x1F; 0x01; 0x0E; 0x01; 0x0E; 0x01];
   [0x1F; 0x1F; 0x1F; 0x1F; 0x0E; 0x0E; 0x0E; 0x0E];
   [0x1F; 0xE0; 0x1F; 0xE0; 0x0E; 0xF1; 0x0E; 0xF1];
   [0x1F; 0xFE; 0x1F; 0xFE; 0x0E; 0xFE; 0x0E; 0xFE];
   [0xE0; 0x01; 0xE0; 0x01; 0xF1; 0x01; 0xF1; 0x01];
   [0xE0; 0x1F; 0xE0; 0x1F; 0xF1; 0x0E; 0xF1; 0x0E];
   [0xE0; 0xE0; 0xE0; 0xE0; 0xF1; 0xF1; 0xF1; 0xF1];
   [0xE0; 0xFE; 0xE0; 0xFE; 0xF1; 0xFE; 0xF1; 0xFE];
   [0xFE; 0x01; 0xFE; 0x01; 0xFE; 0x01; 0xFE; 0x01];
   [0xFE; 0x1F; 0xFE; 0x1F; 0xFE; 0x0E; 0xFE; 0x0E];
   [0xFE; 0xE0; 0xFE; 0xE0; 0xFE; 0xF1; 0xFE; 0xF1];
   [0xFE; 0xFE; 0xFE; 0xFE; 0xFE; 0xFE; 0xFE; 0xFE]].

Definition weak_words : list Z :=
  [0x11111111; 0x13131212; 0x14141515; 0x16161616; 0x31312121; 0x33332222; 0x34342525; 0x36362626;
   0x41415151; 0x43435252; 0x44445555; 0x46465656; 0x61616161; 0x63636262; 0x64646565; 0x66666666].

Lemma weak_words_keys : mapM parity_word weak_keys = Done weak_words.
Proof. by vm_compute. Qed.

Lemma weak_key_in n : weak_key n = bool_decide (n ∈ weak_words).
Proof.
  destruct (bool_decide_reflect (n ∈ weak_words)) as [Hin|Hin].
  - unfold weak_words in Hin. rewrite !elem_of_cons, elem_of_nil in Hin. repeat (destruct Hin as [->|Hin]; [by vm_compute|]). done.
  - unfold weak_words in Hin. rewrite !not_elem_of_cons in Hin. destruct_and? Hin. unfold weak_key.
    repeat match goal with H : n <> ?c |- _ => rewrite (proj2 (Z.eqb_neq n c) H); clear H end. by repeat case_match.
Qed.

(** What holds of every octet, checked on all of them. *)
Lemma all_octets (f : Z -> bool) : forallb f (seqZ 0 256) = true -> forall k, is_byte k -> f k = true.
Proof. intros H k Hk. rewrite forallb_forall in H. apply H, list_elem_of_In, elem_of_seqZ. unfold is_byte in Hk. lia. Qed.

Lemma fix_parity_ok k : is_byte k -> is_byte (fix_parity k) /\ 0 <= entry parity (fix_parity k) < 8.
Proof.
  intros Hk. pose proof (all_octets (fun k => bool_decide (is_byte (fix_parity k) /\ 0 <= entry parity (fix_parity k) < 8)) ltac:(by vm_compute) k Hk) as H.
  by apply bool_decide_eq_true in H.
Qed.

(** The octets of weak keys have numbers of their own. *)
Lemma parity_inj a b : is_byte a -> is_byte b -> entry parity a = entry parity b -> 1 <= entry parity b < 8 -> a = b.
Proof.
  intros Ha Hb E Hr.
  pose proof (all_octets (fun a => forallb (fun b => (a =? b) || negb (entry parity a =? entry parity b) || negb ((1 <=? entry parity b) && (entry parity b <? 8))) (seqZ 0 256))
    ltac:(by vm_compute) a Ha) as H. cbv beta in H. pose proof (all_octets _ H b Hb) as H'. cbv beta in H'.
  rewrite (proj2 (Z.eqb_eq _ _) E), (proj2 (Z.leb_le 1 _)), (proj2 (Z.ltb_lt _ 8)) in H' by lia. cbn in H'. rewrite !orb_false_r in H'. by apply Z.eqb_eq.
Qed.

(** A number in base 16. *)
Definition base16 (l : list Z) : Z := foldl (fun n d => n * 16 + d) 0 l.

Lemma land_base16 a b d e : 0 <= d < 16 -> 0 <= e < 16 -> Z.land (a * 16 + d) (b * 16 + e) = Z.land a b * 16 + Z.land d e.
Proof.
  intros Hd He. assert (H16 : forall x y, 0 <= y < 16 -> (x * 16 + y) mod 2 ^ 4 = y /\ (x * 16 + y) / 2 ^ 4 = x) by (intros; change (2 ^ 4) with 16; div_lia).
  destruct (H16 a d Hd) as [M1 D1]. destruct (H16 b e He) as [M2 D2]. set (x := a * 16 + d) in *. set (y := b * 16 + e) in *.
  assert (Eq : Z.land x y / 2 ^ 4 = Z.land a b) by (rewrite <- shiftr_div, Z.shiftr_land, !shiftr_div by lia; by rewrite D1, D2).
  assert (Er : Z.land x y mod 2 ^ 4 = Z.land d e).
  { rewrite <- M1, <- M2, <- !Z.land_ones by lia. apply Z.bits_inj'. intros k _. rewrite !Z.land_spec.
    by destruct (Z.testbit x k), (Z.testbit y k), (Z.testbit (Z.ones 4) k). }
  rewrite (Z.div_mod (Z.land x y) (2 ^ 4)), Eq, Er by lia. change (2 ^ 4) with 16. lia.
Qed.
Lemma base16_inj l l' : length l = length l' -> Forall (fun d => 0 <= d < 16) l -> Forall (fun d => 0 <= d < 16) l' -> base16 l = base16 l' -> l = l'.
Proof.
  unfold base16. revert l'. induction l as [|d l IH] using rev_ind; intros l' Hlen.
  { by destruct l'. }
  destruct l' as [|e l' _] using rev_ind; rewrite ?length_app in Hlen; [cbn in Hlen; lia|]. cbn in Hlen.
  rewrite !Forall_app, !Forall_singleton, !foldl_app. cbn [foldl]. intros [Hl Hd] [Hl' He] E.
  assert (d = e /\ foldl (fun n d => n * 16 + d) 0 l = foldl (fun n d => n * 16 + d) 0 l') as [-> E'] by lia.
  by rewrite (IH l') by (done || lia).
Qed.

(** What the loops over the octets of a key read. *)
Lemma first_octets k rest : length k = 8%nat -> mapM (arr_get (k ++ rest)) [0; 1; 2; 3; 4; 5; 6; 7] = Done k.
Proof. intros Hk. do 8 (destruct k as [|? k]; [discriminate Hk|]). by destruct k. Qed.

Lemma parity_word_ok k : length k = 8%nat -> Forall (fun b => 0 <= entry parity b < 8) k -> parity_word k = Done (base16 (entry parity <$> k)).
Proof.
  intros Hk Hp. unfold parity_word. rewrite <- (app_nil_r k) at 1. rewrite first_octets by done. cbn [mbind outcome_bind]. f_equal. unfold base16.
  enough (E : forall n, 0 <= n -> (n + 1) * 16 ^ zlen k <= 2 ^ 32 ->
    foldl (fun n b => Z.lor (u32 (Z.shiftl n 4)) (entry parity b)) n k = foldl (fun n d => n * 16 + d) n (entry parity <$> k)).
  { apply E; [done|]. unfold zlen. by rewrite Hk. }
  clear Hk. induction Hp as [|b k Hb _ IH]; intros n Hn Hle; [done|]. cbn [foldl fmap list_fmap].
  rewrite zlen_cons, Z.pow_add_r, Z.pow_1_r in Hle by (pose proof (zlen_nonneg k); lia).
  pose proof (Z.pow_pos_nonneg 16 (zlen k) ltac:(lia) (zlen_nonneg k)).
  assert (Hn' : n < 2 ^ 28) by nia. rewrite u32_small by (rewrite Z.shiftl_mul_pow2; lia). rewrite lor_shiftl_add by lia. apply IH; [lia|nia].
Qed.

(** The octets of the key with their parity set, as [des_set_key] gets them. *)
Definition adjusted (key : bytes) : bytes := fix_parity <$> take 8 key.

Lemma adjusted_ok key : bytes_ok key -> 8 <= zlen key ->
  length (adjusted key) = 8%nat /\ bytes_ok (adjusted key) /\ Forall (fun b => 0 <= entry parity b < 8) (adjusted key).
Proof.
  intros Hk Hl. unfold adjusted, bytes_ok. rewrite length_fmap, length_take. split; [unfold zlen in Hl; lia|].
  rewrite !Forall_fmap. split; (eapply Forall_impl; [by apply Forall_take, Hk|]); intros b Hb; by apply fix_parity_ok.
Qed.

Lemma no_bad_parity l : length l = 8%nat -> Forall (fun d => 0 <= d < 8) l -> Z.land (base16 l) 0x88888888 = 0.
Proof.
  intros Hl Hd. change 0x88888888 with (base16 [8; 8; 8; 8; 8; 8; 8; 8]). do 8 (destruct l as [|? l]; [discriminate Hl|]). destruct l; [|discriminate Hl].
  rewrite !Forall_cons in Hd. destruct_and? Hd. unfold base16. cbn [foldl].
  assert (E : forall d, 0 <= d < 8 -> Z.land d 8 = 0).
  { intros d Hd. assert (Hc : d = 0 \/ d = 1 \/ d = 2 \/ d = 3 \/ d = 4 \/ d = 5 \/ d = 6 \/ d = 7) by lia. by destruct Hc as [->|[->|[->|[->|[->|[->|[->| ->]]]]]]]. }
  rewrite !land_base16 by lia. by rewrite !E by lia.
Qed.

Lemma weak_iff k : length k = 8%nat -> bytes_ok k -> Forall (fun b => 0 <= entry parity b < 8) k ->
  base16 (entry parity <$> k) ∈ weak_words <-> k ∈ weak_keys.
Proof.
  intros Hk Hb Hp. assert (Hwords : weak_words = (fun w => base16 (entry parity <$> w)) <$> weak_keys) by by vm_compute.
  assert (Hweak : Forall (fun w => length w = 8%nat /\ bytes_ok w /\ Forall (fun b => 1 <= entry parity b < 8) w) weak_keys) by (apply (bool_decide_unpack _); by vm_compute).
  rewrite Hwords, list_elem_of_fmap. split.
  - intros (w & E & Hw). rewrite Forall_forall in Hweak. destruct (Hweak w Hw) as (Hlw & Hbw & Hpw). enough (k = w) by congruence.
    apply base16_inj in E; [|by rewrite !length_fmap, Hk| |].
    + clear Hw Hweak Hwords. revert w Hlw Hbw Hpw E. rewrite <- Hk. clear Hk. induction k as [|a k IH]; intros [|b w] Hl Hbw Hpw E; try done.
      unfold bytes_ok in *. rewrite Forall_cons in *. destruct Hb as [Ha Hb], Hbw as [Hb' Hbw], Hp as [Hpa Hp], Hpw as [Hpb Hpw]. cbn in E. injection E as E1 E2.
      rewrite (parity_inj a b) by done. f_equal. apply IH; try done. by injection Hl.
    + rewrite Forall_fmap. eapply Forall_impl; [exact Hp|]. cbn. lia.
    + rewrite Forall_fmap. eapply Forall_impl; [exact Hpw|]. cbn. lia.
  - intros Hin. by exists k.
Qed.
(** Exploding a key fills both arrays. *)
Lemma explode_octet_frame fuel w b1 b0 :
  explode_octet fuel w b1 b0 = '(x, y) ← explode_octet fuel w [] []; Done (x ++ b1, y ++ b0).
Proof.
  revert w b1 b0. induction fuel as [|fuel IH]; intros w b1 b0; cbn [explode_octet]; [done|]. destruct (16 <=? _); [|done].
  rewrite IH, (IH _ [Z.land 8 w]). destruct (explode_octet fuel _ [] []) as [[x y]| |]; cbn [mbind outcome_bind]; [|done..]. by rewrite <- !app_assoc.
Qed.

Lemma explode_octet_ok k b1 b0 : is_byte k -> exists x y, explode_octet 8 (Z.shiftl (Z.lor 256 k) 2) b1 b0 = Done (x ++ b1, y ++ b0) /\ zlen x = 7.
Proof.
  intros Hk. rewrite explode_octet_frame.
  pose proof (all_octets (fun k => match explode_octet 8 (Z.shiftl (Z.lor 256 k) 2) [] [] with Done (x, _) => zlen x =? 7 | _ => false end) ltac:(by vm_compute) k Hk) as H.
  cbv beta in H. destruct (explode_octet 8 _ [] []) as [[x y]| |]; try done. apply Z.eqb_eq in H. by exists x, y.
Qed.

Lemma explode_key_ok k b1 b0 : bytes_ok k -> zlen b1 + 7 * zlen k = 56 -> k <> [] -> exists r, explode_key k b1 b0 = Done r.
Proof.
  intros Hk. revert b1 b0. induction Hk as [|a k Ha Hk IH]; intros b1 b0 Hl Hne; [done|]. cbn [explode_key].
  destruct (explode_octet_ok a b1 b0 Ha) as (x & y & -> & Hx). cbn [mbind outcome_bind]. rewrite zlen_app, Hx.
  rewrite zlen_cons in Hl. destruct (Z.eqb_spec (7 + zlen b1) 56) as [|Hn]; [by eexists|].
  apply IH; [rewrite zlen_app; lia|]. intros ->. rewrite zlen_nil in Hl. lia.
Qed.

Lemma des_set_key_ok key : bytes_ok key -> 8 <= zlen key ->
  if bool_decide (adjusted key ∈ weak_keys) then des_set_key (adjusted key) = Done (mkDes [] DES_WEAK_KEY)
  else exists ctx, des_set_key (adjusted key) = Done ctx /\ status ctx = DES_OK.
Proof.
  intros Hk Hl. destruct (adjusted_ok key Hk Hl) as (Hlen & Hb & Hp). unfold des_set_key. rewrite parity_word_ok by done. cbn [mbind outcome_bind].
  rewrite no_bad_parity; [|by rewrite length_fmap|by rewrite Forall_fmap]. cbn [Z.eqb negb]. rewrite weak_key_in.
  rewrite (bool_decide_ext _ _ (weak_iff _ Hlen Hb Hp)). destruct (bool_decide_reflect (adjusted key ∈ weak_keys)); [done|].
  destruct (explode_key_ok (adjusted key) [] [] Hb) as [[b1 b0] ->]; [unfold zlen; rewrite Hlen; done|by intros E; rewrite E in Hlen|].
  cbn [mbind outcome_bind]. by eexists.
Qed.

Lemma make_des_instance_ok key iv : bytes_ok key -> 8 <= zlen key ->
  if bool_decide (adjusted key ∈ weak_keys) then forall mode, make_des_instance mode key iv = Done None
  else exists ctx, (forall mode, make_des_instance mode key iv = Done (Some (mkInstance mode ctx))) /\ ready ctx = true.
Proof.
  intros Hk Hl. pose proof (des_set_key_ok key Hk Hl) as H0. unfold make_des_instance.
  assert (E8 : mapM (arr_get key) [0; 1; 2; 3; 4; 5; 6; 7] = Done (take 8 key)).
  { rewrite <- (take_drop 8 key) at 1. apply first_octets. rewrite length_take. unfold zlen in Hl. lia. }
  rewrite E8. cbn [mbind outcome_bind]. fold (adjusted key). destruct (bool_decide _).
  - intros mode. by rewrite H0.
  - destruct H0 as (ctx & -> & Hs). exists ctx. cbn [mbind outcome_bind]. unfold ready. by rewrite Hs.
Qed.

(** C34. With the parity of its octets set, a key is refused exactly if it is one of the sixteen weak and semi-weak keys (bad parity, on which the program would stop, never occurs); the instances that any other key gives invert each other on every text of whole blocks. *)
Theorem des_instances key iv (Hk : bytes_ok key) (Hl : 8 <= zlen key) :
  if bool_decide (adjusted key ∈ weak_keys) then forall mode, make_des_instance mode key iv = Done None
  else exists e d, make_des_instance CRYPTO_ENCRYPT key iv = Done (Some e) /\ make_des_instance CRYPTO_DECRYPT key iv = Done (Some d)
    /\ forall text, bytes_ok text -> zlen text mod 8 = 0 ->
       exists c, do_crypt e text = Done (e, c) /\ do_crypt d c = Done (d, text) /\ do_crypt d text ≫= (fun r => do_crypt e r.2) = Done (e, text)
         /\ zlen c = zlen text /\ bytes_ok c.
Proof.
  pose proof (make_des_instance_ok key iv Hk Hl) as H0. destruct (bool_decide _); [done|]. destruct H0 as (self & E & Hr).
  exists (mkInstance true self), (mkInstance false self). split; [apply E|]. split; [apply E|]. intros text Hb Hm.
  assert (Hok : bc_ok self) by done.
  destruct (block_inverse (mkInstance true self) text Hok Hb Hm) as (c & E1 & E2 & Hlc & Hc).
  destruct (block_inverse (mkInstance false self) text Hok Hb Hm) as (c' & F1 & F2 & _ & _).
  exists c. split; [by rewrite do_crypt_ok, E1|]. split; [rewrite do_crypt_ok by done; cbn [mode ctx negb] in E2 |- *; by rewrite E2|]. split; [|done].
  rewrite (do_crypt_ok (mkInstance false self)), F1 by done. cbn [mbind outcome_bind snd]. rewrite do_crypt_ok by done. cbn [mode ctx negb] in F2 |- *. by rewrite F2.
Qed.

Lemma des_serves : serves reversible crypto_des_algorithm.
Proof.
  unfold serves. split; [done|]. split; [done|]. split; [done|]. intros key iv Hk _ Hl _. pose proof (make_des_instance_ok key iv Hk Hl) as H0. unfold reversible. cbn [crypto_des_algorithm make_crypt].
  destruct (bool_decide _); [by right|]. left. destruct H0 as (ctx & E & Hr). exists (mkInstance true ctx), (mkInstance false ctx). rewrite !E. by split_and!.
Qed.

(** Triple DES: encryption, decryption and encryption with three keys. *)
Lemma des3_serves : exists a, make_des3 = Done a /\ key_size a = 24 /\ iv_size a = 0 /\ a_block_size a = 8 /\ serves reversible a.
Proof.
  set (l := [crypto_des_algorithm; crypto_invert crypto_des_algorithm; crypto_des_algorithm]).
  assert (Es : cascade_sizes l 1 0 0 = Done (8, 24, 0)) by by vm_compute.
  exists (mkAlgorithm 8 24 0 (do_make_cascade l)). split; [unfold make_des3; fold l; unfold crypto_cascadel; by rewrite Es|]. split; [done|]. split; [done|]. split; [done|].
  unfold l. apply cascade_serves; try done. rewrite !Forall_cons. split_and!; try apply des_serves; [by apply invert_serves, des_serves|by apply Forall_nil].
Qed.

Lemma des3_cbc_serves : exists a, make_des3 = Done a /\ key_size (crypto_cbc a) = 24 /\ Blocks.iv_size (crypto_cbc a) = 8 /\ serves partners (crypto_cbc a).
Proof.
  destruct des3_serves as (a & E & Hk & Hi & Hb & Ha). exists a. split; [done|]. cbn [crypto_cbc key_size Blocks.iv_size]. rewrite Hi, Hb. split; [done|]. split; [done|].
  apply cbc_serves; [by apply reversible_partners|]. rewrite Hi, Hb. done.
Qed.

Lemma des_instances_witness :
  let key := [0x01; 0x23; 0x45; 0x67; 0x89; 0xAB; 0xCD; 0xEF] in
  (bytes_ok key /\ 8 <= zlen key /\ adjusted key ∉ weak_keys /\ adjusted (replicate 8 0) ∈ weak_keys)
  /\ if bool_decide (adjusted key ∈ weak_keys) then forall mode, make_des_instance mode key [] = Done None
  else exists e d, make_des_instance CRYPTO_ENCRYPT key [] = Done (Some e) /\ make_des_instance CRYPTO_DECRYPT key [] = Done (Some d)
    /\ forall text, bytes_ok text -> zlen text mod 8 = 0 ->
       exists c, do_crypt e text = Done (e, c) /\ do_crypt d c = Done (d, text) /\ do_crypt d text ≫= (fun r => do_crypt e r.2) = Done (e, text)
         /\ zlen c = zlen text /\ bytes_ok c.
Proof.
  split.
  - split; [apply (bool_decide_unpack _); by vm_compute|]. split; [done|]. split; apply (bool_decide_unpack _); by vm_compute.
  - apply des_instances; [apply (bool_decide_unpack _); by vm_compute|done].
Defined.

End Des.
