(* ===== verification/Aes.v ===== *)
(** The AES, Rijndael (nettle/aes.c and lsh/src/rijndael.c): the tables, the
    key schedule with the inverse keys, the cipher by tables, and its
    instances; the cipher of FIPS 197 over columns of octets. *)
From S2P Require Import Prelude Window Hash Crypto Blocks Feistel.
From Stdlib Require Import Btauto.
Import Crypto Blocks Feistel.

Module Aes.

(** ** Tables *)

Definition dtbl : list Z :=
  [0xa56363c6; 0x847c7cf8; 0x997777ee; 0x8d7b7bf6; 0x0df2f2ff; 0xbd6b6bd6; 0xb16f6fde; 0x54c5c591;
   0x50303060; 0x03010102; 0xa96767ce; 0x7d2b2b56; 0x19fefee7; 0x62d7d7b5; 0xe6abab4d; 0x9a7676ec;
   0x45caca8f; 0x9d82821f; 0x40c9c989; 0x877d7dfa; 0x15fafaef; 0xeb5959b2; 0xc947478e; 0x0bf0f0fb;
   0xecadad41; 0x67d4d4b3; 0xfda2a25f; 0xeaafaf45; 0xbf9c9c23; 0xf7a4a453; 0x967272e4; 0x5bc0c09b;
   0xc2b7b775; 0x1cfdfde1; 0xae93933d; 0x6a26264c; 0x5a36366c; 0x413f3f7e; 0x02f7f7f5; 0x4fcccc83;
   0x5c343468; 0xf4a5a551; 0x34e5e5d1; 0x08f1f1f9; 0x937171e2; 0x73d8d8ab; 0x53313162; 0x3f15152a;
   0x0c040408; 0x52c7c795; 0x65232346; 0x5ec3c39d; 0x28181830; 0xa1969637; 0x0f05050a; 0xb59a9a2f;
   0x0907070e; 0x36121224; 0x9b80801b; 0x3de2e2df; 0x26ebebcd; 0x6927274e; 0xcdb2b27f; 0x9f7575ea;
   0x1b090912; 0x9e83831d; 0x742c2c58; 0x2e1a1a34; 0x2d1b1b36; 0xb26e6edc; 0xee5a5ab4; 0xfba0a05b;
   0xf65252a4; 0x4d3b3b76; 0x61d6d6b7; 0xceb3b37d; 0x7b292952; 0x3ee3e3dd; 0x712f2f5e; 0x97848413;
   0xf55353a6; 0x68d1d1b9; 0x00000000; 0x2cededc1; 0x60202040; 0x1ffcfce3; 0xc8b1b179; 0xed5b5bb6;
   0xbe6a6ad4; 0x46cbcb8d; 0xd9bebe67; 0x4b393972; 0xde4a4a94; 0xd44c4c98; 0xe85858b0; 0x4acfcf85;
   0x6bd0d0bb; 0x2aefefc5; 0xe5aaaa4f; 0x16fbfbed; 0xc5434386; 0xd74d4d9a; 0x55333366; 0x94858511;
   0xcf45458a; 0x10f9f9e9; 0x06020204; 0x817f7ffe; 0xf05050a0; 0x443c3c78; 0xba9f9f25; 0xe3a8a84b;
   0xf35151a2; 0xfea3a35d; 0xc0404080; 0x8a8f8f05; 0xad92923f; 0xbc9d9d21; 0x48383870; 0x04f5f5f1;
   0xdfbcbc63; 0xc1b6b677; 0x75dadaaf; 0x63212142; 0x30101020; 0x1affffe5; 0x0ef3f3fd; 0x6dd2d2bf;
   0x4ccdcd81; 0x140c0c18; 0x35131326; 0x2fececc3; 0xe15f5fbe; 0xa2979735; 0xcc444488; 0x3917172e;
   0x57c4c493; 0xf2a7a755; 0x827e7efc; 0x473d3d7a; 0xac6464c8; 0xe75d5dba; 0x2b191932; 0x957373e6;
   0xa06060c0; 0x98818119; 0xd14f4f9e; 0x7fdcdca3; 0x66222244; 0x7e2a2a54; 0xab90903b; 0x8388880b;
   0xca46468c; 0x29eeeec7; 0xd3b8b86b; 0x3c141428; 0x79dedea7; 0xe25e5ebc; 0x1d0b0b16; 0x76dbdbad;
   0x3be0e0db; 0x56323264; 0x4e3a3a74; 0x1e0a0a14; 0xdb494992; 0x0a06060c; 0x6c242448; 0xe45c5cb8;
   0x5dc2c29f; 0x6ed3d3bd; 0xefacac43; 0xa66262c4; 0xa8919139; 0xa4959531; 0x37e4e4d3; 0x8b7979f2;
   0x32e7e7d5; 0x43c8c88b; 0x5937376e; 0xb76d6dda; 0x8c8d8d01; 0x64d5d5b1; 0xd24e4e9c; 0xe0a9a949;
   0xb46c6cd8; 0xfa5656ac; 0x07f4f4f3; 0x25eaeacf; 0xaf6565ca; 0x8e7a7af4; 0xe9aeae47; 0x18080810;
   0xd5baba6f; 0x887878f0; 0x6f25254a; 0x722e2e5c; 0x241c1c38; 0xf1a6a657; 0xc7b4b473; 0x51c6c697;
   0x23e8e8cb; 0x7cdddda1; 0x9c7474e8; 0x211f1f3e; 0xdd4b4b96; 0xdcbdbd61; 0x868b8b0d; 0x858a8a0f;
   0x907070e0; 0x423e3e7c; 0xc4b5b571; 0xaa6666cc; 0xd8484890; 0x05030306; 0x01f6f6f7; 0x120e0e1c;
   0xa36161c2; 0x5f35356a; 0xf95757ae; 0xd0b9b969; 0x91868617; 0x58c1c199; 0x271d1d3a; 0xb99e9e27;
   0x38e1e1d9; 0x13f8f8eb; 0xb398982b; 0x33111122; 0xbb6969d2; 0x70d9d9a9; 0x898e8e07; 0xa7949433;
   0xb69b9b2d; 0x221e1e3c; 0x92878715; 0x20e9e9c9; 0x49cece87; 0xff5555aa; 0x78282850; 0x7adfdfa5;
   0x8f8c8c03; 0xf8a1a159; 0x80898909; 0x170d0d1a; 0xdabfbf65; 0x31e6e6d7; 0xc6424284; 0xb86868d0;
   0xc3414182; 0xb0999929; 0x772d2d5a; 0x110f0f1e; 0xcbb0b07b; 0xfc5454a8; 0xd6bbbb6d; 0x3a16162c].

Definition itbl : list Z :=
  [0x50a7f451; 0x5365417e; 0xc3a4171a; 0x965e273a; 0xcb6bab3b; 0xf1459d1f; 0xab58faac; 0x9303e34b;
   0x55fa3020; 0xf66d76ad; 0x9176cc88; 0x254c02f5; 0xfcd7e54f; 0xd7cb2ac5; 0x80443526; 0x8fa362b5;
   0x495ab1de; 0x671bba25; 0x980eea45; 0xe1c0fe5d; 0x02752fc3; 0x12f04c81; 0xa397468d; 0xc6f9d36b;
   0xe75f8f03; 0x959c9215; 0xeb7a6dbf; 0xda595295; 0x2d83bed4; 0xd3217458; 0x2969e049; 0x44c8c98e;
   0x6a89c275; 0x78798ef4; 0x6b3e5899; 0xdd71b927; 0xb64fe1be; 0x17ad88f0; 0x66ac20c9; 0xb43ace7d;
   0x184adf63; 0x82311ae5; 0x60335197; 0x457f5362; 0xe07764b1; 0x84ae6bbb; 0x1ca081fe; 0x942b08f9;
   0x58684870; 0x19fd458f; 0x876cde94; 0xb7f87b52; 0x23d373ab; 0xe2024b72; 0x578f1fe3; 0x2aab5566;
   0x0728ebb2; 0x03c2b52f; 0x9a7bc586; 0xa50837d3; 0xf2872830; 0xb2a5bf23; 0xba6a0302; 0x5c8216ed;
   0x2b1ccf8a; 0x92b479a7; 0xf0f207f3; 0xa1e2694e; 0xcdf4da65; 0xd5be0506; 0x1f6234d1; 0x8afea6c4;
   0x9d532e34; 0xa055f3a2; 0x32e18a05; 0x75ebf6a4; 0x39ec830b; 0xaaef6040; 0x069f715e; 0x51106ebd;
   0xf98a213e; 0x3d06dd96; 0xae053edd; 0x46bde64d; 0xb58d5491; 0x055dc471; 0x6fd40604; 0xff155060;
   0x24fb9819; 0x97e9bdd6; 0xcc434089; 0x779ed967; 0xbd42e8b0; 0x888b8907; 0x385b19e7; 0xdbeec879;
   0x470a7ca1; 0xe90f427c; 0xc91e84f8; 0x00000000; 0x83868009; 0x48ed2b32; 0xac70111e; 0x4e725a6c;
   0xfbff0efd; 0x5638850f; 0x1ed5ae3d; 0x27392d36; 0x64d90f0a; 0x21a65c68; 0xd1545b9b; 0x3a2e3624;
   0xb1670a0c; 0x0fe75793; 0xd296eeb4; 0x9e919b1b; 0x4fc5c080; 0xa220dc61; 0x694b775a; 0x161a121c;
   0x0aba93e2; 0xe52aa0c0; 0x43e0223c; 0x1d171b12; 0x0b0d090e; 0xadc78bf2; 0xb9a8b62d; 0xc8a91e14;
   0x8519f157; 0x4c0775af; 0xbbdd99ee; 0xfd607fa3; 0x9f2601f7; 0xbcf5725c; 0xc53b6644; 0x347efb5b;
   0x7629438b; 0xdcc623cb; 0x68fcedb6; 0x63f1e4b8; 0xcadc31d7; 0x10856342; 0x40229713; 0x2011c684;
   0x7d244a85; 0xf83dbbd2; 0x1132f9ae; 0x6da129c7; 0x4b2f9e1d; 0xf330b2dc; 0xec52860d; 0xd0e3c177;
   0x6c16b32b; 0x99b970a9; 0xfa489411; 0x2264e947; 0xc48cfca8; 0x1a3ff0a0; 0xd82c7d56; 0xef903322;
   0xc74e4987; 0xc1d138d9; 0xfea2ca8c; 0x360bd498; 0xcf81f5a6; 0x28de7aa5; 0x268eb7da; 0xa4bfad3f;
   0xe49d3a2c; 0x0d927850; 0x9bcc5f6a; 0x62467e54; 0xc2138df6; 0xe8b8d890; 0x5ef7392e; 0xf5afc382;
   0xbe805d9f; 0x7c93d069; 0xa92dd56f; 0xb31225cf; 0x3b99acc8; 0xa77d1810; 0x6e639ce8; 0x7bbb3bdb;
   0x097826cd; 0xf418596e; 0x01b79aec; 0xa89a4f83; 0x656e95e6; 0x7ee6ffaa; 0x08cfbc21; 0xe6e815ef;
   0xd99be7ba; 0xce366f4a; 0xd4099fea; 0xd67cb029; 0xafb2a431; 0x31233f2a; 0x3094a5c6; 0xc066a235;
   0x37bc4e74; 0xa6ca82fc; 0xb0d090e0; 0x15d8a733; 0x4a9804f1; 0xf7daec41; 0x0e50cd7f; 0x2ff69117;
   0x8dd64d76; 0x4db0ef43; 0x544daacc; 0xdf0496e4; 0xe3b5d19e; 0x1b886a4c; 0xb81f2cc1; 0x7f516546;
   0x04ea5e9d; 0x5d358c01; 0x737487fa; 0x2e410bfb; 0x5a1d67b3; 0x52d2db92; 0x335610e9; 0x1347d66d;
   0x8c61d79a; 0x7a0ca137; 0x8e14f859; 0x893c13eb; 0xee27a9ce; 0x35c961b7; 0xede51ce1; 0x3cb1477a;
   0x59dfd29c; 0x3f73f255; 0x79ce1418; 0xbf37c773; 0xeacdf753; 0x5baafd5f; 0x146f3ddf; 0x86db4478;
   0x81f3afca; 0x3ec468b9; 0x2c342438; 0x5f40a3c2; 0x72c31d16; 0x0c25e2bc; 0x8b493c28; 0x41950dff;
   0x7101a839; 0xdeb30c08; 0x9ce4b4d8; 0x90c15664; 0x6184cb7b; 0x70b632d5; 0x745c6c48; 0x4257b8d0].

Definition sbox : list Z :=
  [99; 124; 119; 123; 242; 107; 111; 197; 48; 1; 103; 43; 254; 215; 171; 118;
   202; 130; 201; 125; 250; 89; 71; 240; 173; 212; 162; 175; 156; 164; 114; 192;
   183; 253; 147; 38; 54; 63; 247; 204; 52; 165; 229; 241; 113; 216; 49; 21;
   4; 199; 35; 195; 24; 150; 5; 154; 7; 18; 128; 226; 235; 39; 178; 117;
   9; 131; 44; 26; 27; 110; 90; 160; 82; 59; 214; 179; 41; 227; 47; 132;
   83; 209; 0; 237; 32; 252; 177; 91; 106; 203; 190; 57; 74; 76; 88; 207;
   208; 239; 170; 251; 67; 77; 51; 133; 69; 249; 2; 127; 80; 60; 159; 168;
   81; 163; 64; 143; 146; 157; 56; 245; 188; 182; 218; 33; 16; 255; 243; 210;
   205; 12; 19; 236; 95; 151; 68; 23; 196; 167; 126; 61; 100; 93; 25; 115;
   96; 129; 79; 220; 34; 42; 144; 136; 70; 238; 184; 20; 222; 94; 11; 219;
   224; 50; 58; 10; 73; 6; 36; 92; 194; 211; 172; 98; 145; 149; 228; 121;
   231; 200; 55; 109; 141; 213; 78; 169; 108; 86; 244; 234; 101; 122; 174; 8;
   186; 120; 37; 46; 28; 166; 180; 198; 232; 221; 116; 31; 75; 189; 139; 138;
   112; 62; 181; 102; 72; 3; 246; 14; 97; 53; 87; 185; 134; 193; 29; 158;
   225; 248; 152; 17; 105; 217; 142; 148; 155; 30; 135; 233; 206; 85; 40; 223;
   140; 161; 137; 13; 191; 230; 66; 104; 65; 153; 45; 15; 176; 84; 187; 22].

Definition isbox : list Z :=
  [82; 9; 106; 213; 48; 54; 165; 56; 191; 64; 163; 158; 129; 243; 215; 251;
   124; 227; 57; 130; 155; 47; 255; 135; 52; 142; 67; 68; 196; 222; 233; 203;
   84; 123; 148; 50; 166; 194; 35; 61; 238; 76; 149; 11; 66; 250; 195; 78;
   8; 46; 161; 102; 40; 217; 36; 178; 118; 91; 162; 73; 109; 139; 209; 37;
   114; 248; 246; 100; 134; 104; 152; 22; 212; 164; 92; 204; 93; 101; 182; 146;
   108; 112; 72; 80; 253; 237; 185; 218; 94; 21; 70; 87; 167; 141; 157; 132;
   144; 216; 171; 0; 140; 188; 211; 10; 247; 228; 88; 5; 184; 179; 69; 6;
   208; 44; 30; 143; 202; 63; 15; 2; 193; 175; 189; 3; 1; 19; 138; 107;
   58; 145; 17; 65; 79; 103; 220; 234; 151; 242; 207; 206; 240; 180; 230; 115;
   150; 172; 116; 34; 231; 173; 53; 133; 226; 249; 55; 232; 28; 117; 223; 110;
   71; 241; 26; 113; 29; 41; 197; 137; 111; 183; 98; 14; 170; 24; 190; 27;
   252; 86; 62; 75; 198; 210; 121; 32; 154; 219; 192; 254; 120; 205; 90; 244;
   31; 221; 168; 51; 136; 7; 199; 49; 177; 18; 16; 89; 39; 128; 236; 95;
   96; 81; 127; 169; 25; 181; 74; 13; 45; 229; 122; 159; 147; 201; 156; 239;
   160; 224; 59; 77; 174; 42; 245; 176; 200; 235; 187; 60; 131; 83; 153; 97;
   23; 43; 4; 126; 186; 119; 214; 38; 225; 105; 20; 99; 85; 33; 12; 125].

Definition Logtable : list Z :=
  [0; 0; 25; 1; 50; 2; 26; 198; 75; 199; 27; 104; 51; 238; 223; 3;
   100; 4; 224; 14; 52; 141; 129; 239; 76; 113; 8; 200; 248; 105; 28; 193;
   125; 194; 29; 181; 249; 185; 39; 106; 77; 228; 166; 114; 154; 201; 9; 120;
   101; 47; 138; 5; 33; 15; 225; 36; 18; 240; 130; 69; 53; 147; 218; 142;
   150; 143; 219; 189; 54; 208; 206; 148; 19; 92; 210; 241; 64; 70; 131; 56;
   102; 221; 253; 48; 191; 6; 139; 98; 179; 37; 226; 152; 34; 136; 145; 16;
   126; 110; 72; 195; 163; 182; 30; 66; 58; 107; 40; 84; 250; 133; 61; 186;
   43; 121; 10; 21; 155; 159; 94; 202; 78; 212; 172; 229; 243; 115; 167; 87;
   175; 88; 168; 80; 244; 234; 214; 116; 79; 174; 233; 213; 231; 230; 173; 232;
   44; 215; 117; 122; 235; 22; 11; 245; 89; 203; 95; 176; 156; 169; 81; 160;
   127; 12; 246; 111; 23; 196; 73; 236; 216; 67; 31; 45; 164; 118; 123; 183;
   204; 187; 62; 90; 251; 96; 177; 134; 59; 82; 161; 108; 170; 85; 41; 157;
   151; 178; 135; 144; 97; 190; 220; 252; 188; 149; 207; 205; 55; 63; 91; 209;
   83; 57; 132; 60; 65; 162; 109; 71; 20; 42; 158; 93; 86; 242; 211; 171;
   68; 17; 146; 217; 35; 32; 46; 137; 180; 124; 184; 38; 119; 153; 227; 165;
   103; 74; 237; 222; 197; 49; 254; 24; 13; 99; 140; 128; 192; 247; 112; 7].

Definition Alogtable : list Z :=
  [1; 3; 5; 15; 17; 51; 85; 255; 26; 46; 114; 150; 161; 248; 19; 53;
   95; 225; 56; 72; 216; 115; 149; 164; 247; 2; 6; 10; 30; 34; 102; 170;
   229; 52; 92; 228; 55; 89; 235; 38; 106; 190; 217; 112; 144; 171; 230; 49;
   83; 245; 4; 12; 20; 60; 68; 204; 79; 209; 104; 184; 211; 110; 178; 205;
   76; 212; 103; 169; 224; 59; 77; 215; 98; 166; 241; 8; 24; 40; 120; 136;
   131; 158; 185; 208; 107; 189; 220; 127; 129; 152; 179; 206; 73; 219; 118; 154;
   181; 196; 87; 249; 16; 48; 80; 240; 11; 29; 39; 105; 187; 214; 97; 163;
   254; 25; 43; 125; 135; 146; 173; 236; 47; 113; 147; 174; 233; 32; 96; 160;
   251; 22; 58; 78; 210; 109; 183; 194; 93; 231; 50; 86; 250; 21; 63; 65;
   195; 94; 226; 61; 71; 201; 64; 192; 91; 237; 44; 116; 156; 191; 218; 117;
   159; 186; 213; 100; 172; 239; 42; 126; 130; 157; 188; 223; 122; 142; 137; 128;
   155; 182; 193; 88; 232; 35; 101; 175; 234; 37; 111; 177; 200; 67; 197; 84;
   252; 31; 33; 99; 165; 244; 7; 9; 27; 45; 119; 153; 176; 203; 70; 202;
   69; 207; 74; 222; 121; 139; 134; 145; 168; 227; 62; 66; 198; 81; 243; 14;
   18; 54; 90; 238; 41; 123; 141; 140; 143; 138; 133; 148; 167; 242; 13; 23;
   57; 75; 221; 124; 132; 151; 162; 253; 28; 36; 108; 180; 199; 82; 246; 1].

Definition AES_BLOCK_SIZE : Z := 16.
Definition AES_MIN_KEY_SIZE : Z := 16.
Definition AES_MAX_KEY_SIZE : Z := 32.

Record aes_ctx := mkAes { keys : list Z; ikeys : list Z; nrounds : Z }.

(** ** Octets of a word *)

(** [p0 | p1 << 8 | p2 << 16 | p3 << 24] *)
Definition join (p0 p1 p2 p3 : Z) : Z := Z.lor (Z.lor (Z.lor p0 (Z.shiftl p1 8)) (Z.shiftl p2 16)) (Z.shiftl p3 24).

(** [(x >> 8*i) & 0xff] *)
Definition octet (x i : Z) : Z := Z.land (Z.shiftr x (8 * i)) 0xff.

Definition ROTBYTE (x : Z) : Z := Z.lor (Z.shiftr x 8) (u32 (Z.shiftl (Z.land x 0xff) 24)).
Definition ROTRBYTE (x : Z) : Z := Z.lor (u32 (Z.shiftl x 8)) (Z.land (Z.shiftr x 24) 0xff).
Definition SUBBYTE (x : Z) (box : list Z) : Z :=
  join (entry box (octet x 0)) (entry box (octet x 1)) (entry box (octet x 2)) (entry box (octet x 3)).

Definition xtime (a : Z) : Z :=
  let b := if negb (Z.land a 0x80 =? 0) then 0x1b else 0 in
  let a := u8 (Z.shiftl a 1) in
  Z.lxor a b.

Definition mul (a b : Z) : Z :=
  if negb (a =? 0) && negb (b =? 0) then entry Alogtable ((entry Logtable a + entry Logtable b) mod 255) else 0.

(** One word of [inv_mix_column]. *)
Definition inv_mix_word (a : Z) : Z :=
  let c i := Z.lxor (Z.lxor (Z.lxor (mul 0xe (octet a i)) (mul 0xb (octet a ((i + 1) mod 4))))
                       (mul 0xd (octet a ((i + 2) mod 4)))) (mul 0x9 (octet a ((i + 3) mod 4))) in
  join (c 0) (c 1) (c 2) (c 3).
Definition inv_mix_column (a : list Z) : list Z := inv_mix_word <$> a.

(** ** Keys *)

Definition key_word (key : bytes) (i : Z) : outcome Z :=
  k0 ← arr_get key (i * 4);
  k1 ← arr_get key (i * 4 + 1);
  k2 ← arr_get key (i * 4 + 2);
  k3 ← arr_get key (i * 4 + 3);
  Done (u32 (k0 + Z.shiftl k1 8 + Z.shiftl k2 16 + Z.shiftl k3 24)).

(** What is made of the word before the [i]th, and the next constant. *)
Definition temp_word (nk i rcon temp : Z) : Z * Z :=
  if i mod nk =? 0 then (Z.lxor (SUBBYTE (ROTBYTE temp) sbox) rcon, xtime (Z.land (u8 rcon) 0xff))
  else if (6 <? nk) && (i mod nk =? 4) then (SUBBYTE temp sbox, rcon) else (temp, rcon).

(** The loop from the [i]th key on, for [n] keys. *)
Fixpoint expand (n : nat) (i nk rcon : Z) (keys : list Z) : list Z :=
  match n with
  | O => keys
  | S n =>
    let '(temp, rcon) := temp_word nk i rcon (entry keys (i - 1)) in
    expand n (i + 1) nk rcon (keys ++ [Z.lxor (entry keys (i - nk)) temp])
  end.

(** The number of words of the key and of rounds. *)
Definition sizes (keysize : Z) : Z * Z :=
  if keysize =? 32 then (8, 14) else if 24 <=? keysize then (6, 12) else (4, 10).

Definition inverse_keys (keys : list Z) (nr : Z) : list Z :=
  take 4 keys ++ (seqZ 1 (nr - 1) ≫= fun r => inv_mix_column (slice (4 * r) 4 keys)) ++ drop (Z.to_nat (4 * nr)) keys.

Definition aes_set_key (keysize : Z) (key : bytes) : outcome aes_ctx :=
  _ ← assert_that (AES_MIN_KEY_SIZE <=? keysize);
  _ ← assert_that (keysize <=? AES_MAX_KEY_SIZE);
  let '(nk, nr) := sizes keysize in
  let lastkey := AES_BLOCK_SIZE / 4 * (nr + 1) in
  k ← mapM (key_word key) (seqZ 0 nk);
  let keys := expand (Z.to_nat (lastkey - nk)) nk nk 1 k in
  Done (mkAes keys (inverse_keys keys nr) nr).

(** ** The cipher *)

Definition words_at (keys : list Z) (r : Z) : list Z := slice (4 * r) 4 keys.

(** [key_addition_8to32] *)
Definition key_addition_8to32 (txt : bytes) (keys : list Z) : list Z :=
  (fun i => Z.lxor (entry keys i) (join (entry txt (4 * i)) (entry txt (4 * i + 1)) (entry txt (4 * i + 2)) (entry txt (4 * i + 3)))) <$> [0; 1; 2; 3].

Definition key_addition32 (txt keys : list Z) : list Z := (fun i => Z.lxor (entry keys i) (entry txt i)) <$> [0; 1; 2; 3].

Definition key_addition32to8 (txt keys : list Z) : bytes :=
  [0; 1; 2; 3] ≫= fun i => let val := Z.lxor (entry txt i) (entry keys i) in (fun j => octet val j) <$> [0; 1; 2; 3].

(** [idx[1]] to [idx[3]] *)
Definition idx : list Z * list Z * list Z := ([1; 2; 3; 0], [2; 3; 0; 1], [3; 0; 1; 2]).
Definition iidx : list Z * list Z * list Z := ([3; 0; 1; 2], [2; 3; 0; 1], [1; 2; 3; 0]).

Section Rounds.
Variables (tbl box : list Z) (index : list Z * list Z * list Z).

Definition table_word (w : list Z) (j : Z) : Z :=
  let '(i1, i2, i3) := index in
  Z.lxor (entry tbl (Z.land (entry w j) 0xff))
    (ROTRBYTE (Z.lxor (entry tbl (octet (entry w (entry i1 j)) 1))
      (ROTRBYTE (Z.lxor (entry tbl (octet (entry w (entry i2 j)) 2))
        (ROTRBYTE (entry tbl (octet (entry w (entry i3 j)) 3))))))).

(** The rounds with the keys of the numbers [l]. *)
Fixpoint table_rounds (keys : list Z) (l : list Z) (wtxt : list Z) : list Z :=
  match l with
  | [] => wtxt
  | r :: l => table_rounds keys l (key_addition32 (table_word wtxt <$> [0; 1; 2; 3]) (words_at keys r))
  end.

(** The last round. *)
Definition last_word (w : list Z) (j : Z) : Z :=
  let '(i1, i2, i3) := index in
  let e := Z.land (entry w j) 0xff in
  let e := Z.lor e (Z.land (entry w (entry i1 j)) (Z.shiftl 0xff 8)) in
  let e := Z.lor e (Z.land (entry w (entry i2 j)) (Z.shiftl 0xff 16)) in
  let e := Z.lor e (Z.land (entry w (entry i3 j)) (Z.shiftl 0xff 24)) in
  e.
Definition last_words (w : list Z) : list Z := (fun e => SUBBYTE e box) <$> (last_word w <$> [0; 1; 2; 3]).
End Rounds.

Definition encrypt_block (ctx : aes_ctx) (src : bytes) : bytes :=
  let wtxt := key_addition_8to32 src (words_at (keys ctx) 0) in
  let wtxt := table_rounds dtbl idx (keys ctx) (seqZ 1 (nrounds ctx - 1)) wtxt in
  key_addition32to8 (last_words sbox idx wtxt) (words_at (keys ctx) (nrounds ctx)).

Definition decrypt_block (ctx : aes_ctx) (src : bytes) : bytes :=
  let wtxt := key_addition_8to32 src (words_at (ikeys ctx) (nrounds ctx)) in
  let wtxt := table_rounds itbl iidx (ikeys ctx) (rev (seqZ 1 (nrounds ctx - 1))) wtxt in
  key_addition32to8 (last_words isbox iidx wtxt) (words_at (ikeys ctx) 0).

Definition aes_encrypt (ctx : aes_ctx) (src : bytes) : outcome bytes := for_blocks AES_BLOCK_SIZE (encrypt_block ctx) src.
Definition aes_decrypt (ctx : aes_ctx) (src : bytes) : outcome bytes := for_blocks AES_BLOCK_SIZE (decrypt_block ctx) src.

#[export] Instance aes_cipher : BlockCipher aes_ctx := {| bc_size := AES_BLOCK_SIZE; bc_encrypt := aes_encrypt; bc_decrypt := aes_decrypt |}.

(** ** Instances (lsh/src/rijndael.c) *)

Definition make_rijndael_instance (keysize : Z) (mode : bool) (key iv : bytes) : outcome (option (block_instance aes_ctx)) :=
  self ← aes_set_key keysize key;
  Done (Some (mkInstance mode self)).

Definition make_rijndael_algorithm (key_size : Z) : outcome (crypto_algorithm (block_instance aes_ctx)) :=
  _ ← assert_that (key_size <=? AES_MAX_KEY_SIZE);
  _ ← assert_that (AES_MIN_KEY_SIZE <=? key_size);
  Done (mkAlgorithm AES_BLOCK_SIZE key_size 0 (make_rijndael_instance key_size)).

Definition rijndael128_algorithm := mkAlgorithm AES_BLOCK_SIZE 16 0 (make_rijndael_instance 16).
Definition rijndael192_algorithm := mkAlgorithm AES_BLOCK_SIZE 24 0 (make_rijndael_instance 24).
Definition rijndael256_algorithm := mkAlgorithm AES_BLOCK_SIZE 32 0 (make_rijndael_instance 32).

(** The vectors of FIPS 197, appendix C. *)
Definition fips_text : bytes := [0x00; 0x11; 0x22; 0x33; 0x44; 0x55; 0x66; 0x77; 0x88; 0x99; 0xaa; 0xbb; 0xcc; 0xdd; 0xee; 0xff].

Example aes_known_answers :
  (c ← aes_set_key 16 (seqZ 0 16); aes_encrypt c fips_text)
    = Done [0x69; 0xc4; 0xe0; 0xd8; 0x6a; 0x7b; 0x04; 0x30; 0xd8; 0xcd; 0xb7; 0x80; 0x70; 0xb4; 0xc5; 0x5a]
  /\ (c ← aes_set_key 24 (seqZ 0 24); aes_encrypt c fips_text)
    = Done [0xdd; 0xa9; 0x7c; 0xa4; 0x86; 0x4c; 0xdf; 0xe0; 0x6e; 0xaf; 0x70; 0xa0; 0xec; 0x0d; 0x71; 0x91]
  /\ (c ← aes_set_key 32 (seqZ 0 32); aes_encrypt c fips_text)
    = Done [0x8e; 0xa2; 0xb7; 0xca; 0x51; 0x67; 0x45; 0xbf; 0xea; 0xfc; 0x49; 0x90; 0x4b; 0x49; 0x60; 0x89]
  /\ (c ← aes_set_key 32 (seqZ 0 32); x ← aes_encrypt c fips_text; aes_decrypt c x) = Done fips_text.
Proof. vm_compute. by split_and!. Qed.

(** ** The cipher of FIPS 197 *)

(** Multiplication by [x] and by any octet, modulo the polynomial of the
    standard. *)
Definition fips_xtime (b : Z) : Z := if b <? 0x80 then 2 * b else Z.lxor (2 * b) 0x11b.
Definition gmul (c b : Z) : Z :=
  foldr (fun i acc => Z.lxor (if Z.testbit c (Z.of_nat i) then Nat.iter i fips_xtime b else 0) acc) 0 (seq 0 8).

Definition gf_inverse (b : Z) : Z := default 0 (head (List.filter (fun x => gmul b x =? 1) (seqZ 0 256))).
Definition rot8 (n x : Z) : Z := Z.lor (Z.land (Z.shiftl x n) 0xff) (Z.shiftr x (8 - n)).
Definition affine (x : Z) : Z := foldl Z.lxor x [rot8 1 x; rot8 2 x; rot8 3 x; rot8 4 x; 0x63].
Definition fips_sbox (b : Z) : Z := affine (gf_inverse b).

(** A column of four octets, and a state of four columns. *)
Definition column := (Z * Z * Z * Z)%type.
Definition state := (column * column * column * column)%type.

Definition each_octet (f : Z -> Z) (c : column) : column := let '(a0, a1, a2, a3) := c in (f a0, f a1, f a2, f a3).
Definition each_column (f : column -> column) (s : state) : state := let '(a, b, c, d) := s in (f a, f b, f c, f d).

Definition ShiftRows (s : state) : state :=
  let '((a0, a1, a2, a3), (b0, b1, b2, b3), (c0, c1, c2, c3), (d0, d1, d2, d3)) := s in
  ((a0, b1, c2, d3), (b0, c1, d2, a3), (c0, d1, a2, b3), (d0, a1, b2, c3)).
Definition InvShiftRows (s : state) : state :=
  let '((a0, a1, a2, a3), (b0, b1, b2, b3), (c0, c1, c2, c3), (d0, d1, d2, d3)) := s in
  ((a0, d1, c2, b3), (b0, a1, d2, c3), (c0, b1, a2, d3), (d0, c1, b2, a3)).

#[local] Infix "⊕" := Z.lxor (at level 50, left associativity) : Z_scope.

Definition MixColumn (c : column) : column :=
  let '(a0, a1, a2, a3) := c in
  (gmul 2 a0 ⊕ gmul 3 a1 ⊕ a2 ⊕ a3, a0 ⊕ gmul 2 a1 ⊕ gmul 3 a2 ⊕ a3,
   a0 ⊕ a1 ⊕ gmul 2 a2 ⊕ gmul 3 a3, gmul 3 a0 ⊕ a1 ⊕ a2 ⊕ gmul 2 a3).
Definition InvMixColumn (c : column) : column :=
  let '(a0, a1, a2, a3) := c in
  (gmul 0xe a0 ⊕ gmul 0xb a1 ⊕ gmul 0xd a2 ⊕ gmul 0x9 a3, gmul 0x9 a0 ⊕ gmul 0xe a1 ⊕ gmul 0xb a2 ⊕ gmul 0xd a3,
   gmul 0xd a0 ⊕ gmul 0x9 a1 ⊕ gmul 0xe a2 ⊕ gmul 0xb a3, gmul 0xb a0 ⊕ gmul 0xd a1 ⊕ gmul 0x9 a2 ⊕ gmul 0xe a3).

Definition add_column (c d : column) : column :=
  let '(a0, a1, a2, a3) := c in let '(b0, b1, b2, b3) := d in (a0 ⊕ b0, a1 ⊕ b1, a2 ⊕ b2, a3 ⊕ b3).
Definition AddRoundKey (s k : state) : state :=
  let '(a, b, c, d) := s in let '(e, f, g, h) := k in (add_column a e, add_column b f, add_column c g, add_column d h).

Definition SubBytes : state -> state := each_column (each_octet fips_sbox).
Definition MixColumns : state -> state := each_column MixColumn.

(** Cipher() of the standard, with [k r] the key of round [r]. *)
Definition fips_round (k : Z -> state) (s : state) (r : Z) : state := AddRoundKey (MixColumns (ShiftRows (SubBytes s))) (k r).
Definition fips_cipher (k : Z -> state) (nr : Z) (s : state) : state :=
  AddRoundKey (ShiftRows (SubBytes (foldl (fips_round k) (AddRoundKey s (k 0)) (seqZ 1 (nr - 1))))) (k nr).

(** The octets of a block, column by column, and the words of a round's key. *)
Definition to_state (b : bytes) : state :=
  match b with
  | [a0; a1; a2; a3; b0; b1; b2; b3; c0; c1; c2; c3; d0; d1; d2; d3] => ((a0, a1, a2, a3), (b0, b1, b2, b3), (c0, c1, c2, c3), (d0, d1, d2, d3))
  | _ => ((0, 0, 0, 0), (0, 0, 0, 0), (0, 0, 0, 0), (0, 0, 0, 0))
  end.
Definition of_state (s : state) : bytes :=
  let '((a0, a1, a2, a3), (b0, b1, b2, b3), (c0, c1, c2, c3), (d0, d1, d2, d3)) := s in
  [a0; a1; a2; a3; b0; b1; b2; b3; c0; c1; c2; c3; d0; d1; d2; d3].
Definition unpack (w : Z) : column := (octet w 0, octet w 1, octet w 2, octet w 3).
Definition round_key (keys : list Z) (r : Z) : state :=
  (unpack (entry keys (4 * r)), unpack (entry keys (4 * r + 1)), unpack (entry keys (4 * r + 2)), unpack (entry keys (4 * r + 3))).

(** The words of the key expansion, as columns: the word [i] from [nk] on is
    the word [nk] back plus what is made of the word before. *)
Definition RotWord (c : column) : column := let '(a0, a1, a2, a3) := c in (a1, a2, a3, a0).
Definition Rcon (j : Z) : column := (Nat.iter (Z.to_nat (j - 1)) fips_xtime 1, 0, 0, 0).
Definition fips_temp (nk i : Z) (t : column) : column :=
  if i mod nk =? 0 then add_column (each_octet fips_sbox (RotWord t)) (Rcon (i / nk))
  else if (6 <? nk) && (i mod nk =? 4) then each_octet fips_sbox t else t.
Definition key_word_of (w : list Z) (i : Z) : column := unpack (entry w i).
Definition fips_schedule (nk : Z) (key : bytes) (w : list Z) : Prop :=
  (forall i, 0 <= i < nk -> key_word_of w i = (entry key (4 * i), entry key (4 * i + 1), entry key (4 * i + 2), entry key (4 * i + 3)))
  /\ (forall i, nk <= i < zlen w -> key_word_of w i = add_column (key_word_of w (i - nk)) (fips_temp nk i (key_word_of w (i - 1)))).

(** ** Octets *)

Definition column_ok (c : column) : Prop := let '(a0, a1, a2, a3) := c in is_byte a0 /\ is_byte a1 /\ is_byte a2 /\ is_byte a3.
Definition state_ok (s : state) : Prop := let '(a, b, c, d) := s in column_ok a /\ column_ok b /\ column_ok c /\ column_ok d.

(** What holds of every octet, checked on all of them. *)
Lemma every_octet (P : Z -> Prop) `{forall x, Decision (P x)} : forallb (fun x => bool_decide (P x)) (seqZ 0 256) = true -> forall x, is_byte x -> P x.
Proof.
  intros Hall x Hx. rewrite forallb_forall in Hall. apply (bool_decide_eq_true_1 (P x)), Hall, list_elem_of_In, elem_of_seqZ. unfold is_byte in Hx. lia.
Qed.

Ltac check_octets := lazymatch goal with |- forall x, is_byte x -> @?P x => apply (every_octet P); vm_compute; reflexivity end.

Lemma join_fields a b c d : is_byte a -> is_byte b -> is_byte c -> is_byte d -> join a b c d = a + b * 2 ^ 8 + c * 2 ^ 16 + d * 2 ^ 24.
Proof.
  intros Ha Hb Hc Hd. pose proof (read32_fields d c b a Hd Hc Hb Ha) as E. unfold BE_READ_UINT32 in E. unfold join.
  rewrite (Z.lor_comm a), (Z.lor_comm _ (Z.shiftl c 16)), Z.lor_assoc, (Z.lor_comm _ (Z.shiftl d 24)), !Z.lor_assoc, E. lia.
Qed.

Lemma octet_join a b c d : is_byte a -> is_byte b -> is_byte c -> is_byte d ->
  octet (join a b c d) 0 = a /\ octet (join a b c d) 1 = b /\ octet (join a b c d) 2 = c /\ octet (join a b c d) 3 = d.
Proof.
  intros Ha Hb Hc Hd. unfold octet. rewrite join_fields by done. rewrite !land_255, !shiftr_div by lia. unfold is_byte in *. cbn [Z.mul]. split_and!; div_lia.
Qed.

Lemma octet_byte w i : is_byte (octet w i).
Proof. unfold octet. rewrite land_255. apply Z.mod_pos_bound. lia. Qed.
Lemma join_octets w : word w -> join (octet w 0) (octet w 1) (octet w 2) (octet w 3) = w.
Proof.
  intros Hw. rewrite join_fields by apply octet_byte. unfold octet. cbn [Z.mul]. rewrite !land_255, !shiftr_div by lia. unfold word in Hw. div_lia.
Qed.

Lemma join_word a b c d : is_byte a -> is_byte b -> is_byte c -> is_byte d -> word (join a b c d).
Proof. intros Ha Hb Hc Hd. rewrite join_fields by done. unfold is_byte, word in *. lia. Qed.

Lemma octet_lxor x y i : octet (x ⊕ y) i = octet x i ⊕ octet y i.
Proof.
  unfold octet. rewrite Z.shiftr_lxor. apply Z.bits_inj'. intros k _. rewrite !Z.land_spec, !Z.lxor_spec, !Z.land_spec.
  by destruct (Z.testbit (Z.shiftr x _) k), (Z.testbit (Z.shiftr y _) k), (Z.testbit 255 k).
Qed.

(** The word of a column. *)
Definition pack (c : column) : Z := let '(a0, a1, a2, a3) := c in join a0 a1 a2 a3.

Lemma pack_word c : column_ok c -> word (pack c).
Proof. destruct c as [[[a b] c] d]. intros (? & ? & ? & ?). by apply join_word. Qed.

Lemma unpack_ok w : column_ok (unpack w).
Proof. split_and!; apply octet_byte. Qed.

Lemma pack_unpack w : word w -> pack (unpack w) = w.
Proof. apply join_octets. Qed.

Lemma unpack_pack c : column_ok c -> unpack (pack c) = c.
Proof. destruct c as [[[a b] c] d]. intros (Ha & Hb & Hc & Hd). unfold unpack, pack. by destruct (octet_join a b c d Ha Hb Hc Hd) as (-> & -> & -> & ->). Qed.

Lemma add_column_ok c d : column_ok c -> column_ok d -> column_ok (add_column c d).
Proof. destruct c as [[[? ?] ?] ?], d as [[[? ?] ?] ?]. intros (? & ? & ? & ?) (? & ? & ? & ?). cbn. split_and!; by apply is_byte_lxor. Qed.

Lemma pack_add c d : column_ok c -> column_ok d -> pack c ⊕ pack d = pack (add_column c d).
Proof.
  intros Hc Hd. rewrite <- (pack_unpack (pack c ⊕ pack d)) by (apply word_lxor; by apply pack_word). f_equal.
  destruct c as [[[a0 a1] a2] a3], d as [[[b0 b1] b2] b3]. destruct Hc as (? & ? & ? & ?), Hd as (? & ? & ? & ?). unfold unpack, pack. rewrite !octet_lxor.
  destruct (octet_join a0 a1 a2 a3) as (-> & -> & -> & ->); [done..|]. by destruct (octet_join b0 b1 b2 b3) as (-> & -> & -> & ->).
Qed.

Lemma rotr_pack a b c d : is_byte a -> is_byte b -> is_byte c -> is_byte d -> ROTRBYTE (join a b c d) = join d a b c.
Proof.
  intros Ha Hb Hc Hd. rewrite (join_fields d a b c), (join_fields a b c d) by done. unfold ROTRBYTE. set (x := a + _ + _ + _). unfold is_byte in *.
  assert (E1 : u32 (Z.shiftl x 8) = Z.shiftl (a + b * 2 ^ 8 + c * 2 ^ 16) 8) by (rewrite !Z.shiftl_mul_pow2 by lia; unfold x; wrap_lia).
  assert (E2 : Z.land (Z.shiftr x 24) 255 = d) by (rewrite land_255, shiftr_div by lia; unfold x; div_lia).
  rewrite E1, E2, lor_shiftl_add by lia. lia.
Qed.

Lemma subbyte_join a b c d box : is_byte a -> is_byte b -> is_byte c -> is_byte d ->
  SUBBYTE (join a b c d) box = join (entry box a) (entry box b) (entry box c) (entry box d).
Proof. intros Ha Hb Hc Hd. unfold SUBBYTE. by destruct (octet_join a b c d Ha Hb Hc Hd) as (-> & -> & -> & ->). Qed.

Lemma masked x n : 0 <= n -> Z.land x (Z.shiftl 0xff n) = Z.shiftl (Z.land (Z.shiftr x n) 0xff) n.
Proof.
  intros Hn. apply Z.bits_inj'. intros k Hk. rewrite Z.land_spec, !Z.shiftl_spec, Z.land_spec by done. destruct (decide (k < n)).
  - rewrite (Z.testbit_neg_r 255) by lia. by rewrite !andb_false_r.
  - rewrite Z.shiftr_spec by lia. do 2 f_equal. lia.
Qed.

Lemma masked_join w0 w1 w2 w3 :
  Z.lor (Z.lor (Z.lor (Z.land w0 0xff) (Z.land w1 (Z.shiftl 0xff 8))) (Z.land w2 (Z.shiftl 0xff 16))) (Z.land w3 (Z.shiftl 0xff 24))
  = join (octet w0 0) (octet w1 1) (octet w2 2) (octet w3 3).
Proof. unfold join, octet. cbn [Z.mul]. rewrite !masked by lia. by rewrite Z.shiftr_0_r. Qed.

(** ** The tables *)

Lemma sbox_fips x : is_byte x -> entry sbox x = fips_sbox x.
Proof. revert x. check_octets. Qed.

Lemma boxes x : is_byte x -> is_byte (entry sbox x) /\ is_byte (entry isbox x) /\ entry isbox (entry sbox x) = x /\ entry sbox (entry isbox x) = x.
Proof. revert x. check_octets. Qed.

Lemma dtbl_ok x : is_byte x -> entry dtbl x = join (gmul 2 (entry sbox x)) (entry sbox x) (entry sbox x) (gmul 3 (entry sbox x)).
Proof. revert x. check_octets. Qed.

Lemma itbl_ok x : is_byte x ->
  entry itbl x = join (gmul 0xe (entry isbox x)) (gmul 0x9 (entry isbox x)) (gmul 0xd (entry isbox x)) (gmul 0xb (entry isbox x)).
Proof. revert x. check_octets. Qed.

Lemma mul_gmul x : is_byte x -> mul 0xe x = gmul 0xe x /\ mul 0xb x = gmul 0xb x /\ mul 0xd x = gmul 0xd x /\ mul 0x9 x = gmul 0x9 x.
Proof. revert x. check_octets. Qed.

(** *** The multiplication is linear *)

Lemma lxor_regroup x y p q : x ⊕ y ⊕ (p ⊕ q) = x ⊕ p ⊕ (y ⊕ q).
Proof. rewrite !Z.lxor_assoc. f_equal. by rewrite <- !Z.lxor_assoc, (Z.lxor_comm y p). Qed.

Lemma xtime_byte x : is_byte x -> is_byte (fips_xtime x).
Proof. revert x. check_octets. Qed.

Lemma xtime_lxor a b : is_byte a -> is_byte b -> fips_xtime (a ⊕ b) = fips_xtime a ⊕ fips_xtime b.
Proof.
  intros Ha Hb. assert (H : forall a, is_byte a -> forallb (fun b => fips_xtime (a ⊕ b) =? fips_xtime a ⊕ fips_xtime b) (seqZ 0 256) = true) by check_octets.
  specialize (H a Ha). rewrite forallb_forall in H. apply Z.eqb_eq, H, list_elem_of_In, elem_of_seqZ. unfold is_byte in Hb. lia.
Qed.

Lemma iter_xtime i a b : is_byte a -> is_byte b ->
  Nat.iter i fips_xtime (a ⊕ b) = Nat.iter i fips_xtime a ⊕ Nat.iter i fips_xtime b /\ is_byte (Nat.iter i fips_xtime a) /\ is_byte (Nat.iter i fips_xtime b).
Proof.
  intros Ha Hb. induction i as [|i (IH & IHa & IHb)]; [done|]. rewrite !Nat.iter_succ, IH, xtime_lxor by done. split_and!; [done|by apply xtime_byte..].
Qed.

Lemma gmul_lxor c a b : is_byte a -> is_byte b -> gmul c (a ⊕ b) = gmul c a ⊕ gmul c b.
Proof.
  intros Ha Hb. unfold gmul. induction (seq 0 8) as [|i l IH]; [done|]. cbn [foldr]. rewrite IH, lxor_regroup. f_equal.
  destruct (Z.testbit c _); [by apply iter_xtime|done].
Qed.

(** Sums of four rows of four, by columns. *)
Lemma lxor_transpose a0 a1 a2 a3 b0 b1 b2 b3 c0 c1 c2 c3 d0 d1 d2 d3 :
  (a0 ⊕ a1 ⊕ a2 ⊕ a3) ⊕ (b0 ⊕ b1 ⊕ b2 ⊕ b3) ⊕ (c0 ⊕ c1 ⊕ c2 ⊕ c3) ⊕ (d0 ⊕ d1 ⊕ d2 ⊕ d3)
  = (a0 ⊕ b0 ⊕ c0 ⊕ d0) ⊕ (a1 ⊕ b1 ⊕ c1 ⊕ d1) ⊕ (a2 ⊕ b2 ⊕ c2 ⊕ d2) ⊕ (a3 ⊕ b3 ⊕ c3 ⊕ d3).
Proof. apply Z.bits_inj'. intros k _. rewrite !Z.lxor_spec. btauto. Qed.

(** The two matrices are inverse. *)
Lemma inverse_matrix x : is_byte x ->
  gmul 14 (gmul 2 x) ⊕ gmul 11 x ⊕ gmul 13 x ⊕ gmul 9 (gmul 3 x) = x
  /\ gmul 14 (gmul 3 x) ⊕ gmul 11 (gmul 2 x) ⊕ gmul 13 x ⊕ gmul 9 x = 0
  /\ gmul 14 x ⊕ gmul 11 (gmul 3 x) ⊕ gmul 13 (gmul 2 x) ⊕ gmul 9 x = 0
  /\ gmul 14 x ⊕ gmul 11 x ⊕ gmul 13 (gmul 3 x) ⊕ gmul 9 (gmul 2 x) = 0
  /\ gmul 9 (gmul 2 x) ⊕ gmul 14 x ⊕ gmul 11 x ⊕ gmul 13 (gmul 3 x) = 0
  /\ gmul 9 (gmul 3 x) ⊕ gmul 14 (gmul 2 x) ⊕ gmul 11 x ⊕ gmul 13 x = x
  /\ gmul 9 x ⊕ gmul 14 (gmul 3 x) ⊕ gmul 11 (gmul 2 x) ⊕ gmul 13 x = 0
  /\ gmul 9 x ⊕ gmul 14 x ⊕ gmul 11 (gmul 3 x) ⊕ gmul 13 (gmul 2 x) = 0
  /\ gmul 13 (gmul 2 x) ⊕ gmul 9 x ⊕ gmul 14 x ⊕ gmul 11 (gmul 3 x) = 0
  /\ gmul 13 (gmul 3 x) ⊕ gmul 9 (gmul 2 x) ⊕ gmul 14 x ⊕ gmul 11 x = 0
  /\ gmul 13 x ⊕ gmul 9 (gmul 3 x) ⊕ gmul 14 (gmul 2 x) ⊕ gmul 11 x = x
  /\ gmul 13 x ⊕ gmul 9 x ⊕ gmul 14 (gmul 3 x) ⊕ gmul 11 (gmul 2 x) = 0
  /\ gmul 11 (gmul 2 x) ⊕ gmul 13 x ⊕ gmul 9 x ⊕ gmul 14 (gmul 3 x) = 0
  /\ gmul 11 (gmul 3 x) ⊕ gmul 13 (gmul 2 x) ⊕ gmul 9 x ⊕ gmul 14 x = 0
  /\ gmul 11 x ⊕ gmul 13 (gmul 3 x) ⊕ gmul 9 (gmul 2 x) ⊕ gmul 14 x = 0
  /\ gmul 11 x ⊕ gmul 13 x ⊕ gmul 9 (gmul 3 x) ⊕ gmul 14 (gmul 2 x) = x.
Proof. revert x. check_octets. Qed.

Lemma matrix_inverse x : is_byte x ->
  gmul 2 (gmul 14 x) ⊕ gmul 3 (gmul 9 x) ⊕ gmul 13 x ⊕ gmul 11 x = x
  /\ gmul 2 (gmul 11 x) ⊕ gmul 3 (gmul 14 x) ⊕ gmul 9 x ⊕ gmul 13 x = 0
  /\ gmul 2 (gmul 13 x) ⊕ gmul 3 (gmul 11 x) ⊕ gmul 14 x ⊕ gmul 9 x = 0
  /\ gmul 2 (gmul 9 x) ⊕ gmul 3 (gmul 13 x) ⊕ gmul 11 x ⊕ gmul 14 x = 0
  /\ gmul 14 x ⊕ gmul 2 (gmul 9 x) ⊕ gmul 3 (gmul 13 x) ⊕ gmul 11 x = 0
  /\ gmul 11 x ⊕ gmul 2 (gmul 14 x) ⊕ gmul 3 (gmul 9 x) ⊕ gmul 13 x = x
  /\ gmul 13 x ⊕ gmul 2 (gmul 11 x) ⊕ gmul 3 (gmul 14 x) ⊕ gmul 9 x = 0
  /\ gmul 9 x ⊕ gmul 2 (gmul 13 x) ⊕ gmul 3 (gmul 11 x) ⊕ gmul 14 x = 0
  /\ gmul 14 x ⊕ gmul 9 x ⊕ gmul 2 (gmul 13 x) ⊕ gmul 3 (gmul 11 x) = 0
  /\ gmul 11 x ⊕ gmul 14 x ⊕ gmul 2 (gmul 9 x) ⊕ gmul 3 (gmul 13 x) = 0
  /\ gmul 13 x ⊕ gmul 11 x ⊕ gmul 2 (gmul 14 x) ⊕ gmul 3 (gmul 9 x) = x
  /\ gmul 9 x ⊕ gmul 13 x ⊕ gmul 2 (gmul 11 x) ⊕ gmul 3 (gmul 14 x) = 0
  /\ gmul 3 (gmul 14 x) ⊕ gmul 9 x ⊕ gmul 13 x ⊕ gmul 2 (gmul 11 x) = 0
  /\ gmul 3 (gmul 11 x) ⊕ gmul 14 x ⊕ gmul 9 x ⊕ gmul 2 (gmul 13 x) = 0
  /\ gmul 3 (gmul 13 x) ⊕ gmul 11 x ⊕ gmul 14 x ⊕ gmul 2 (gmul 9 x) = 0
  /\ gmul 3 (gmul 9 x) ⊕ gmul 13 x ⊕ gmul 11 x ⊕ gmul 2 (gmul 14 x) = x.
Proof. revert x. check_octets. Qed.

Lemma gmul_byte c x : is_byte x -> is_byte (gmul c x).
Proof.
  intros Hx. unfold gmul. induction (seq 0 8) as [|i l IH]; [done|]. cbn [foldr]. apply is_byte_lxor; [|done].
  destruct (Z.testbit c _); [by apply (iter_xtime i x x)|done].
Qed.

Ltac octet_tac := repeat lazymatch goal with
  | |- is_byte (gmul _ _) => apply gmul_byte
  | |- is_byte (_ ⊕ _) => apply is_byte_lxor
  | |- is_byte (entry sbox _) => apply boxes
  | |- is_byte (entry isbox _) => apply boxes
  | |- is_byte (octet _ _) => apply octet_byte
  | |- is_byte _ => assumption
  end.

Lemma column_eq a b c d a' b' c' d' : a = a' -> b = b' -> c = c' -> d = d' -> (a, b, c, d) = (a', b', c', d') :> column.
Proof. congruence. Qed.

Ltac by_columns Ha Hb Hc Hd :=
  pose proof Ha as Fa; pose proof Hb as Fb; pose proof Hc as Fc; pose proof Hd as Fd;
  destruct_and! Fa; destruct_and! Fb; destruct_and! Fc; destruct_and! Fd;
  apply column_eq; (etransitivity; [apply lxor_transpose|]);
  (repeat match goal with H : _ = _ |- _ => rewrite H; clear H end); by rewrite ?Z.lxor_0_l, ?Z.lxor_0_r.

Lemma InvMixColumn_Mix c : column_ok c -> InvMixColumn (MixColumn c) = c.
Proof.
  destruct c as [[[a b] c] d]. intros (Ha & Hb & Hc & Hd). unfold InvMixColumn, MixColumn. cbv beta iota. rewrite !gmul_lxor by octet_tac.
  by_columns (inverse_matrix a Ha) (inverse_matrix b Hb) (inverse_matrix c Hc) (inverse_matrix d Hd).
Qed.

Lemma MixColumn_Inv c : column_ok c -> MixColumn (InvMixColumn c) = c.
Proof.
  destruct c as [[[a b] c] d]. intros (Ha & Hb & Hc & Hd). unfold InvMixColumn, MixColumn. cbv beta iota. rewrite !gmul_lxor by octet_tac.
  by_columns (matrix_inverse a Ha) (matrix_inverse b Hb) (matrix_inverse c Hc) (matrix_inverse d Hd).
Qed.

(** *** A round by the tables *)

Definition rot_column (c : column) : column := let '(a0, a1, a2, a3) := c in (a3, a0, a1, a2).

Lemma rotr_column c : column_ok c -> ROTRBYTE (pack c) = pack (rot_column c) /\ column_ok (rot_column c).
Proof. destruct c as [[[a b] c] d]. intros (Ha & Hb & Hc & Hd). split; [by apply rotr_pack|by split_and!]. Qed.

(** The sum of four columns of a table, each turned once more than the one
    before. *)
Definition spread (col : Z -> column) (x0 x1 x2 x3 : Z) : column :=
  add_column (col x0) (rot_column (add_column (col x1) (rot_column (add_column (col x2) (rot_column (col x3)))))).

Lemma land_octet x : Z.land x 0xff = octet x 0.
Proof. unfold octet. by rewrite Z.shiftr_0_r. Qed.

Lemma table_word_spread tbl col i1 i2 i3 w j : (forall x, is_byte x -> entry tbl x = pack (col x) /\ column_ok (col x)) ->
  table_word tbl (i1, i2, i3) w j
  = pack (spread col (octet (entry w j) 0) (octet (entry w (entry i1 j)) 1) (octet (entry w (entry i2 j)) 2) (octet (entry w (entry i3 j)) 3)).
Proof.
  intros Htbl. unfold table_word, spread. rewrite land_octet.
  destruct (Htbl _ (octet_byte (entry w j) 0)) as [-> H0]. destruct (Htbl _ (octet_byte (entry w (entry i1 j)) 1)) as [-> H1].
  destruct (Htbl _ (octet_byte (entry w (entry i2 j)) 2)) as [-> H2]. destruct (Htbl _ (octet_byte (entry w (entry i3 j)) 3)) as [-> H3].
  destruct (rotr_column _ H3) as [-> H3']. rewrite pack_add by done.
  destruct (rotr_column _ (add_column_ok _ _ H2 H3')) as [-> H2']. rewrite pack_add by done.
  destruct (rotr_column _ (add_column_ok _ _ H1 H2')) as [-> H1']. by rewrite pack_add.
Qed.

Definition dcol (x : Z) : column := (gmul 2 (entry sbox x), entry sbox x, entry sbox x, gmul 3 (entry sbox x)).
Definition icol (x : Z) : column := (gmul 0xe (entry isbox x), gmul 0x9 (entry isbox x), gmul 0xd (entry isbox x), gmul 0xb (entry isbox x)).

Lemma dcol_table x : is_byte x -> entry dtbl x = pack (dcol x) /\ column_ok (dcol x).
Proof. intros Hx. split; [by apply dtbl_ok|]. destruct (boxes x Hx) as (? & _). split_and!; octet_tac. Qed.
Lemma icol_table x : is_byte x -> entry itbl x = pack (icol x) /\ column_ok (icol x).
Proof. intros Hx. split; [by apply itbl_ok|]. destruct (boxes x Hx) as (_ & ? & _). split_and!; octet_tac. Qed.

Lemma spread_dcol x0 x1 x2 x3 : spread dcol x0 x1 x2 x3 = MixColumn (each_octet (entry sbox) (x0, x1, x2, x3)).
Proof. cbn [each_octet]. unfold spread, dcol, MixColumn. cbn [add_column rot_column]. by rewrite !Z.lxor_assoc. Qed.
Lemma spread_icol x0 x1 x2 x3 : spread icol x0 x1 x2 x3 = InvMixColumn (each_octet (entry isbox) (x0, x1, x2, x3)).
Proof. cbn [each_octet]. unfold spread, icol, InvMixColumn. cbn [add_column rot_column]. by rewrite !Z.lxor_assoc. Qed.

(** The four words of a state. *)
Definition packs (s : state) : list Z := let '(a, b, c, d) := s in [pack a; pack b; pack c; pack d].

Definition BoxBytes (box : list Z) : state -> state := each_column (each_octet (entry box)).

#[local] Opaque dtbl itbl sbox isbox.

Lemma each_octet_pack box a b c d : is_byte a -> is_byte b -> is_byte c -> is_byte d ->
  SUBBYTE (join a b c d) box = pack (each_octet (entry box) (a, b, c, d)).
Proof. apply subbyte_join. Qed.

Lemma octets_pack c : column_ok c -> let '(a0, a1, a2, a3) := c in octet (pack c) 0 = a0 /\ octet (pack c) 1 = a1 /\ octet (pack c) 2 = a2 /\ octet (pack c) 3 = a3.
Proof. destruct c as [[[a b] c] d]. intros (? & ? & ? & ?). by apply octet_join. Qed.

(** Takes the octets out of the words of a state. *)
Ltac by_octets s :=
  destruct s as [[[a b] c] d]; intros (Ha & Hb & Hc & Hd);
  pose proof (octets_pack a Ha) as Fa; pose proof (octets_pack b Hb) as Fb; pose proof (octets_pack c Hc) as Fc; pose proof (octets_pack d Hd) as Fd;
  destruct a as [[[a0 a1] a2] a3], b as [[[b0 b1] b2] b3], c as [[[c0 c1] c2] c3], d as [[[d0 d1] d2] d3];
  destruct Fa as (Fa0 & Fa1 & Fa2 & Fa3), Fb as (Fb0 & Fb1 & Fb2 & Fb3), Fc as (Fc0 & Fc1 & Fc2 & Fc3), Fd as (Fd0 & Fd1 & Fd2 & Fd3).

Ltac entries := cbn [packs]; repeat match goal with |- context[entry (?a :: ?l) ?i] =>
  let v := eval cbv [entry nth Z.to_nat Pos.to_nat Pos.iter_op Nat.add] in (entry (a :: l) i) in change (entry (a :: l) i) with v end.

Lemma encrypt_table s : state_ok s -> (table_word dtbl idx (packs s) <$> [0; 1; 2; 3]) = packs (MixColumns (ShiftRows (BoxBytes sbox s))).
Proof.
  by_octets s. unfold idx. cbn [fmap list_fmap]. rewrite !(table_word_spread _ _ _ _ _ _ _ dcol_table), !spread_dcol.
  entries. by rewrite Fa0, Fa1, Fa2, Fa3, Fb0, Fb1, Fb2, Fb3, Fc0, Fc1, Fc2, Fc3, Fd0, Fd1, Fd2, Fd3.
Qed.

Lemma decrypt_table s : state_ok s -> (table_word itbl iidx (packs s) <$> [0; 1; 2; 3]) = packs (each_column InvMixColumn (InvShiftRows (BoxBytes isbox s))).
Proof.
  by_octets s. unfold iidx. cbn [fmap list_fmap]. rewrite !(table_word_spread _ _ _ _ _ _ _ icol_table), !spread_icol.
  entries. by rewrite Fa0, Fa1, Fa2, Fa3, Fb0, Fb1, Fb2, Fb3, Fc0, Fc1, Fc2, Fc3, Fd0, Fd1, Fd2, Fd3.
Qed.

Lemma last_word_join i1 i2 i3 w j :
  last_word (i1, i2, i3) w j = join (octet (entry w j) 0) (octet (entry w (entry i1 j)) 1) (octet (entry w (entry i2 j)) 2) (octet (entry w (entry i3 j)) 3).
Proof. apply masked_join. Qed.

Lemma encrypt_last s : state_ok s -> last_words sbox idx (packs s) = packs (ShiftRows (BoxBytes sbox s)).
Proof.
  by_octets s. unfold idx, last_words. cbn [fmap list_fmap]. rewrite !last_word_join, !each_octet_pack by apply octet_byte.
  entries. by rewrite Fa0, Fa1, Fa2, Fa3, Fb0, Fb1, Fb2, Fb3, Fc0, Fc1, Fc2, Fc3, Fd0, Fd1, Fd2, Fd3.
Qed.

Lemma decrypt_last s : state_ok s -> last_words isbox iidx (packs s) = packs (InvShiftRows (BoxBytes isbox s)).
Proof.
  by_octets s. unfold iidx, last_words. cbn [fmap list_fmap]. rewrite !last_word_join, !each_octet_pack by apply octet_byte.
  entries. by rewrite Fa0, Fa1, Fa2, Fa3, Fb0, Fb1, Fb2, Fb3, Fc0, Fc1, Fc2, Fc3, Fd0, Fd1, Fd2, Fd3.
Qed.

(** *** Round keys *)

Lemma add_keys s k : state_ok s -> state_ok k -> key_addition32 (packs s) (packs k) = packs (AddRoundKey s k).
Proof.
  destruct s as [[[a b] c] d], k as [[[e f] g] h]. intros (? & ? & ? & ?) (? & ? & ? & ?). unfold key_addition32. cbn [fmap list_fmap]. entries.
  rewrite !(Z.lxor_comm (pack e)), !(Z.lxor_comm (pack f)), !(Z.lxor_comm (pack g)), !(Z.lxor_comm (pack h)). by rewrite !pack_add.
Qed.

Lemma write_keys s k : state_ok s -> state_ok k -> key_addition32to8 (packs s) (packs k) = of_state (AddRoundKey s k).
Proof.
  destruct s as [[[a b] c] d], k as [[[e f] g] h]. intros (Ha & Hb & Hc & Hd) (He & Hf & Hg & Hh). unfold key_addition32to8.
  cbn [mbind list_bind fmap list_fmap app]. entries. rewrite !pack_add by done. cbn [AddRoundKey].
  pose proof (octets_pack _ (add_column_ok _ _ Ha He)) as F0. pose proof (octets_pack _ (add_column_ok _ _ Hb Hf)) as F1.
  pose proof (octets_pack _ (add_column_ok _ _ Hc Hg)) as F2. pose proof (octets_pack _ (add_column_ok _ _ Hd Hh)) as F3.
  destruct (add_column a e) as [[[? ?] ?] ?], (add_column b f) as [[[? ?] ?] ?], (add_column c g) as [[[? ?] ?] ?], (add_column d h) as [[[? ?] ?] ?].
  destruct F0 as (-> & -> & -> & ->), F1 as (-> & -> & -> & ->), F2 as (-> & -> & -> & ->), F3 as (-> & -> & -> & ->). done.
Qed.

Lemma sixteen_octets (b : bytes) : zlen b = 16 -> exists a0 a1 a2 a3 b0 b1 b2 b3 c0 c1 c2 c3 d0 d1 d2 d3,
  b = [a0; a1; a2; a3; b0; b1; b2; b3; c0; c1; c2; c3; d0; d1; d2; d3].
Proof. intros H. unfold zlen in H. do 16 (destruct b as [|? b]; [cbn in H; lia|]). destruct b; [by repeat eexists|cbn in H; lia]. Qed.

Lemma of_to_state b : zlen b = 16 -> of_state (to_state b) = b.
Proof. by intros (? & ? & ? & ? & ? & ? & ? & ? & ? & ? & ? & ? & ? & ? & ? & ? & ->)%sixteen_octets. Qed.

Lemma to_of_state s : to_state (of_state s) = s.
Proof. by destruct s as [[[[[[? ?] ?] ?] [[[? ?] ?] ?]] [[[? ?] ?] ?]] [[[? ?] ?] ?]]. Qed.

Lemma to_state_ok b : bytes_ok b -> zlen b = 16 -> state_ok (to_state b).
Proof.
  intros Hb (? & ? & ? & ? & ? & ? & ? & ? & ? & ? & ? & ? & ? & ? & ? & ? & ->)%sixteen_octets. unfold bytes_ok in Hb. rewrite !Forall_cons in Hb.
  destruct Hb as (? & ? & ? & ? & ? & ? & ? & ? & ? & ? & ? & ? & ? & ? & ? & ? & _). by split_and!.
Qed.

Lemma of_state_ok s : state_ok s -> bytes_ok (of_state s).
Proof. destruct s as [[[[[[? ?] ?] ?] [[[? ?] ?] ?]] [[[? ?] ?] ?]] [[[? ?] ?] ?]]. intros ((? & ? & ? & ?) & (? & ? & ? & ?) & (? & ? & ? & ?) & ? & ? & ? & ?). cbn [of_state]. repeat (apply Forall_cons; split; [done|]). by apply Forall_nil. Qed.

Lemma read_keys b k : bytes_ok b -> zlen b = 16 -> state_ok k -> key_addition_8to32 b (packs k) = packs (AddRoundKey (to_state b) k).
Proof.
  intros Hb Hl. pose proof (to_state_ok b Hb Hl) as Ht. intros Hk. rewrite <- add_keys by done.
  destruct (sixteen_octets b Hl) as (? & ? & ? & ? & ? & ? & ? & ? & ? & ? & ? & ? & ? & ? & ? & ? & ->). destruct k as [[[e f] g] h].
  unfold key_addition_8to32, key_addition32. cbn [fmap list_fmap Z.mul Z.add]. entries. done.
Qed.

(** *** Shifts and substitutions *)

Ltac by_state s := destruct s as [[[[[[? ?] ?] ?] [[[? ?] ?] ?]] [[[? ?] ?] ?]] [[[? ?] ?] ?]]; intros ((? & ? & ? & ?) & (? & ? & ? & ?) & (? & ? & ? & ?) & ? & ? & ? & ?).

Lemma each_column_ok f s : (forall c, column_ok c -> column_ok (f c)) -> state_ok s -> state_ok (each_column f s).
Proof. intros Hf. destruct s as [[[a b] c] d]. intros (? & ? & ? & ?). cbn [each_column]. split_and!; by apply Hf. Qed.

Lemma each_octet_ok f c : (forall x, is_byte x -> is_byte (f x)) -> column_ok c -> column_ok (each_octet f c).
Proof. intros Hf. destruct c as [[[a b] c] d]. intros (? & ? & ? & ?). cbn [each_octet]. split_and!; by apply Hf. Qed.

Lemma BoxBytes_ok s : state_ok s -> state_ok (BoxBytes sbox s) /\ state_ok (BoxBytes isbox s).
Proof. intros Hs. split; (apply each_column_ok; [|done]); intros c; apply each_octet_ok; intros x Hx; by apply boxes. Qed.

Lemma ShiftRows_ok s : state_ok s -> state_ok (ShiftRows s) /\ state_ok (InvShiftRows s).
Proof. by_state s. split; by split_and!. Qed.

Lemma SubBytes_box s : state_ok s -> SubBytes s = BoxBytes sbox s.
Proof. by_state s. unfold SubBytes, BoxBytes. cbn [each_column each_octet]. by rewrite !sbox_fips. Qed.

Lemma shift_unshift s : InvShiftRows (ShiftRows s) = s /\ ShiftRows (InvShiftRows s) = s.
Proof. by destruct s as [[[[[[? ?] ?] ?] [[[? ?] ?] ?]] [[[? ?] ?] ?]] [[[? ?] ?] ?]]. Qed.

Lemma box_shift box s : BoxBytes box (ShiftRows s) = ShiftRows (BoxBytes box s) /\ BoxBytes box (InvShiftRows s) = InvShiftRows (BoxBytes box s).
Proof. by destruct s as [[[[[[? ?] ?] ?] [[[? ?] ?] ?]] [[[? ?] ?] ?]] [[[? ?] ?] ?]]. Qed.

Lemma box_unbox s : state_ok s -> BoxBytes isbox (BoxBytes sbox s) = s /\ BoxBytes sbox (BoxBytes isbox s) = s.
Proof.
  by_state s. unfold BoxBytes. cbn [each_column each_octet].
  assert (E : forall x, is_byte x -> entry isbox (entry sbox x) = x /\ entry sbox (entry isbox x) = x) by (intros x Hx; by destruct (boxes x Hx) as (_ & _ & ? & ?)).
  split; by rewrite !(fun x Hx => proj1 (E x Hx)) || rewrite !(fun x Hx => proj2 (E x Hx)).
Qed.

Lemma MixColumn_ok c : column_ok c -> column_ok (MixColumn c) /\ column_ok (InvMixColumn c).
Proof. destruct c as [[[a b] c] d]. intros (? & ? & ? & ?). split; split_and!; octet_tac. Qed.

Lemma mix_unmix s : state_ok s -> each_column InvMixColumn (MixColumns s) = s /\ MixColumns (each_column InvMixColumn s) = s.
Proof.
  destruct s as [[[a b] c] d]. intros (? & ? & ? & ?). unfold MixColumns. cbn [each_column]. split; [by rewrite !InvMixColumn_Mix|by rewrite !MixColumn_Inv].
Qed.

Lemma InvMixColumn_add c d : column_ok c -> column_ok d -> InvMixColumn (add_column c d) = add_column (InvMixColumn c) (InvMixColumn d).
Proof.
  destruct c as [[[a b] c] d'], d as [[[e f] g] h]. intros (? & ? & ? & ?) (? & ? & ? & ?). unfold InvMixColumn, add_column. cbv beta iota.
  rewrite !gmul_lxor by done. apply column_eq; apply Z.bits_inj'; intros k _; rewrite !Z.lxor_spec; btauto.
Qed.

Lemma inv_mix_add s k : state_ok s -> state_ok k -> each_column InvMixColumn (AddRoundKey s k) = AddRoundKey (each_column InvMixColumn s) (each_column InvMixColumn k).
Proof.
  destruct s as [[[a b] c] d], k as [[[e f] g] h]. intros (? & ? & ? & ?) (? & ? & ? & ?). cbn [each_column AddRoundKey]. by rewrite !InvMixColumn_add.
Qed.

Lemma AddRoundKey_ok s k : state_ok s -> state_ok k -> state_ok (AddRoundKey s k).
Proof. destruct s as [[[a b] c] d], k as [[[e f] g] h]. intros (? & ? & ? & ?) (? & ? & ? & ?). cbn [AddRoundKey]. split_and!; by apply add_column_ok. Qed.

Lemma add_twice s k : AddRoundKey (AddRoundKey s k) k = s.
Proof.
  destruct s as [[[[[[? ?] ?] ?] [[[? ?] ?] ?]] [[[? ?] ?] ?]] [[[? ?] ?] ?]], k as [[[[[[? ?] ?] ?] [[[? ?] ?] ?]] [[[? ?] ?] ?]] [[[? ?] ?] ?]].
  cbn [AddRoundKey add_column]. by rewrite !Z.lxor_assoc, !Z.lxor_nilpotent, !Z.lxor_0_r.
Qed.

(** *** The cipher and its inverse *)

Definition forward (s : state) : state := ShiftRows (BoxBytes sbox s).
Definition backward (s : state) : state := InvShiftRows (BoxBytes isbox s).

Lemma forward_ok s : state_ok s -> state_ok (forward s) /\ state_ok (backward s).
Proof. intros Hs. split; by apply ShiftRows_ok, BoxBytes_ok. Qed.

Lemma forward_backward s : state_ok s -> backward (forward s) = s /\ forward (backward s) = s.
Proof.
  intros Hs. destruct (BoxBytes_ok s Hs) as [H1 H2]. unfold forward, backward.
  rewrite (proj1 (box_shift isbox _)), (proj2 (box_shift sbox _)), (proj1 (shift_unshift _)), (proj2 (shift_unshift _)). by apply box_unbox.
Qed.

Section Ciphers.
Context (k : Z -> state) (Hk : forall r, state_ok (k r)).

Definition enc (s : state) (r : Z) : state := AddRoundKey (MixColumns (forward s)) (k r).
Definition dec (s : state) (r : Z) : state := AddRoundKey (each_column InvMixColumn (backward s)) (each_column InvMixColumn (k r)).

Lemma mix_ok s : state_ok s -> state_ok (MixColumns s) /\ state_ok (each_column InvMixColumn s).
Proof. intros Hs. split; (apply each_column_ok; [|done]); intros c Hc; by apply MixColumn_ok. Qed.

Lemma enc_ok s r : state_ok s -> state_ok (enc s r) /\ state_ok (dec s r).
Proof. intros Hs. destruct (forward_ok s Hs). split; (apply AddRoundKey_ok; [by apply mix_ok|try apply mix_ok; apply Hk]). Qed.

Lemma rounds_ok l s : state_ok s -> state_ok (foldl enc s l) /\ state_ok (foldl dec s l).
Proof. intros Hs. split; revert s Hs; induction l as [|r l IH]; intros s Hs; cbn [foldl]; try done; by apply IH, enc_ok. Qed.

Lemma dec_enc s r : state_ok s -> dec (forward (enc s r)) r = forward s.
Proof.
  intros Hs. destruct (enc_ok s r Hs) as [He _]. unfold dec. rewrite (proj1 (forward_backward _ He)). unfold enc.
  destruct (forward_ok s Hs) as [Hf _]. rewrite inv_mix_add by (by apply mix_ok || done). by rewrite (proj1 (mix_unmix _ Hf)), add_twice.
Qed.

Lemma enc_dec s r : state_ok s -> enc (backward (dec s r)) r = backward s.
Proof.
  intros Hs. destruct (enc_ok s r Hs) as [_ Hd]. unfold enc. rewrite (proj2 (forward_backward _ Hd)). unfold dec.
  destruct (forward_ok s Hs) as [_ Hb]. rewrite <- inv_mix_add by done. by rewrite (proj2 (mix_unmix _ (AddRoundKey_ok _ _ Hb (Hk r)))), add_twice.
Qed.

Lemma undo_rounds l s : state_ok s -> foldl dec (forward (foldl enc s l)) (rev l) = forward s.
Proof.
  revert s. induction l as [|r l IH]; intros s Hs; [done|]. cbn [foldl rev]. rewrite foldl_app, IH by by apply enc_ok. by apply dec_enc.
Qed.

Lemma redo_rounds l s : state_ok s -> foldl enc (backward (foldl dec s (rev l))) l = backward s.
Proof.
  revert s. induction l as [|r l IH]; intros s Hs; [done|]. cbn [rev foldl]. rewrite foldl_app. cbn [foldl]. rewrite enc_dec by by apply rounds_ok. by apply IH.
Qed.

Definition cipher (nr : Z) (s : state) : state := AddRoundKey (forward (foldl enc (AddRoundKey s (k 0)) (seqZ 1 (nr - 1)))) (k nr).
Definition decipher (nr : Z) (s : state) : state := AddRoundKey (backward (foldl dec (AddRoundKey s (k nr)) (rev (seqZ 1 (nr - 1))))) (k 0).

Lemma cipher_ok nr s : state_ok s -> state_ok (cipher nr s) /\ state_ok (decipher nr s).
Proof.
  intros Hs. split; (apply AddRoundKey_ok; [|done]); apply forward_ok, rounds_ok; by apply AddRoundKey_ok.
Qed.

Lemma decipher_cipher nr s : state_ok s -> decipher nr (cipher nr s) = s /\ cipher nr (decipher nr s) = s.
Proof.
  intros Hs. unfold cipher, decipher. split.
  - rewrite add_twice, undo_rounds by by apply AddRoundKey_ok. rewrite (proj1 (forward_backward _ (AddRoundKey_ok _ _ Hs (Hk 0)))). apply add_twice.
  - rewrite add_twice, redo_rounds by by apply AddRoundKey_ok. rewrite (proj2 (forward_backward _ (AddRoundKey_ok _ _ Hs (Hk nr)))). apply add_twice.
Qed.

Lemma cipher_fips nr s : state_ok s -> cipher nr s = fips_cipher k nr s.
Proof.
  intros Hs. unfold cipher, fips_cipher.
  assert (E : forall l s, state_ok s -> foldl enc s l = foldl (fips_round k) s l).
  { induction l as [|r l IH]; intros t Ht; [done|]. cbn [foldl]. rewrite IH by by apply enc_ok. f_equal. unfold enc, fips_round. by rewrite SubBytes_box. }
  rewrite <- E by by apply AddRoundKey_ok. by rewrite SubBytes_box by by apply rounds_ok, AddRoundKey_ok.
Qed.
End Ciphers.

(** *** The words of the keys *)

Lemma round_key_ok keys r : state_ok (round_key keys r).
Proof. split_and!; apply unpack_ok. Qed.

Lemma slice_four (l : list Z) i : 0 <= i -> i + 4 <= zlen l -> slice i 4 l = [entry l i; entry l (i + 1); entry l (i + 2); entry l (i + 3)].
Proof.
  intros Hi Hl. unfold slice, zlen in *. change (Z.to_nat 4) with 4%nat.
  assert (E : forall j, 0 <= j -> entry l (i + j) = nth (Z.to_nat j) (drop (Z.to_nat i) l) 0).
  { intros j Hj. unfold entry. rewrite !nth_lookup, lookup_drop. repeat f_equal. lia. }
  rewrite <- (Z.add_0_r i) at 2. rewrite !E by lia. pose proof (length_drop l (Z.to_nat i)) as Hd.
  destruct (drop (Z.to_nat i) l) as [|a [|b [|c [|d r]]]]; cbn [length] in Hd; try lia. done.
Qed.

Lemma words_at_packs keys r : words keys -> 0 <= r -> 4 * r + 4 <= zlen keys -> words_at keys r = packs (round_key keys r).
Proof.
  intros Hw Hr Hl. unfold words_at. rewrite slice_four by lia. unfold round_key. cbn [packs]. by rewrite !pack_unpack by by apply word_entry.
Qed.

Lemma inv_mix_pack c : column_ok c -> inv_mix_word (pack c) = pack (InvMixColumn c).
Proof.
  intros Hc. pose proof (octets_pack c Hc) as F. destruct c as [[[a b] c] d], F as (Fa & Fb & Fc & Fd), Hc as (Ha & Hb & Hc & Hd). unfold inv_mix_word. cbv zeta beta.
  repeat match goal with |- context[(?i + ?n) mod 4] => let v := eval cbv in ((i + n) mod 4) in change ((i + n) mod 4) with v end.
  rewrite Fa, Fb, Fc, Fd. destruct (mul_gmul a Ha) as (-> & -> & -> & ->), (mul_gmul b Hb) as (-> & -> & -> & ->), (mul_gmul c Hc) as (-> & -> & -> & ->), (mul_gmul d Hd) as (-> & -> & -> & ->).
  unfold InvMixColumn, pack. f_equal; apply Z.bits_inj'; intros k _; rewrite !Z.lxor_spec; btauto.
Qed.

Lemma inv_mix_packs k : state_ok k -> inv_mix_column (packs k) = packs (each_column InvMixColumn k).
Proof. destruct k as [[[a b] c] d]. intros (? & ? & ? & ?). unfold inv_mix_column. cbn [packs fmap list_fmap each_column]. by rewrite !inv_mix_pack. Qed.

(** The keys of decryption: those of the first and the last round as they
    are, the others through the inverse of the mixing. *)
Section InverseKeys.
Context (keys : list Z) (nr : Z) (Hw : words keys) (Hnr : 1 <= nr) (Hl : zlen keys = 4 * (nr + 1)).

Lemma concat_cons (f : Z -> list Z) a n : 0 <= n -> (seqZ a (1 + n) ≫= f) = f a ++ (seqZ (Z.succ a) n ≫= f).
Proof. intros Hn. rewrite seqZ_cons by lia. by replace (Z.pred (1 + n)) with n by lia. Qed.

Lemma concat_zlen (f : Z -> list Z) a n : 0 <= n -> (forall r, a <= r < a + n -> zlen (f r) = 4) -> zlen (seqZ a n ≫= f) = 4 * n.
Proof.
  intros Hn. revert a. pattern n. apply natlike_ind; [done| |done]. intros m Hm IH a Hf.
  replace (Z.succ m) with (1 + m) in * by lia. rewrite concat_cons, zlen_app, Hf, IH by (intros; apply Hf; lia) || lia. lia.
Qed.

Definition middle_key (r : Z) : list Z := inv_mix_column (slice (4 * r) 4 keys).

Lemma middle_zlen r : 1 <= r < nr -> zlen (middle_key r) = 4.
Proof. intros Hr. unfold middle_key, inv_mix_column, zlen. rewrite length_fmap. apply zlen_slice; lia. Qed.

Lemma slice_app_at {A} (p m r : list A) i n : zlen p = i -> zlen m = n -> slice i n (p ++ m ++ r) = m.
Proof. intros <- <-. apply slice_app_exact. Qed.

Lemma inverse_keys_middle r : 1 <= r < nr -> words_at (inverse_keys keys nr) r = inv_mix_column (words_at keys r).
Proof.
  intros Hr. change (inv_mix_column (words_at keys r)) with (middle_key r).
  assert (E : inverse_keys keys nr = (take 4 keys ++ (seqZ 1 (r - 1) ≫= middle_key)) ++ middle_key r ++ ((seqZ (Z.succ r) (nr - 1 - r) ≫= middle_key) ++ drop (Z.to_nat (4 * nr)) keys)).
  { unfold inverse_keys. change (fun r => inv_mix_column (slice (4 * r) 4 keys)) with middle_key.
    replace (nr - 1) with ((r - 1) + (1 + (nr - 1 - r))) at 1 by lia. rewrite seqZ_app, bind_app by lia. replace (1 + (r - 1)) with r by lia.
    rewrite concat_cons by lia. by rewrite <- !app_assoc. }
  rewrite E. unfold words_at. apply slice_app_at; [|by apply middle_zlen]. rewrite zlen_app, concat_zlen by (intros; apply middle_zlen; lia) || lia.
  rewrite (proj1 (zlen_take_drop 4 keys ltac:(lia)) : zlen (take 4 keys) = 4). lia.
Qed.

Lemma inverse_keys_ends : words_at (inverse_keys keys nr) 0 = words_at keys 0 /\ words_at (inverse_keys keys nr) nr = words_at keys nr.
Proof.
  destruct (zlen_take_drop 4 keys ltac:(lia)) as [Ht _]. destruct (zlen_take_drop (4 * nr) keys ltac:(lia)) as [_ Hd].
  unfold inverse_keys, words_at. change (fun r => inv_mix_column (slice (4 * r) 4 keys)) with middle_key. split.
  - exact (slice_app_at [] (take 4 keys) _ 0 4 eq_refl Ht).
  - rewrite app_assoc. rewrite <- (app_nil_r (drop (Z.to_nat (4 * nr)) keys)) at 1. rewrite slice_app_at; [| |lia].
    + unfold slice. rewrite take_ge; [done|]. unfold zlen in *. lia.
    + rewrite zlen_app, concat_zlen by (intros; apply middle_zlen; lia) || lia. change (Z.to_nat 4) with 4%nat in Ht. lia.
Qed.
End InverseKeys.

(** *** Blocks *)

Record schedule_ok (c : aes_ctx) : Prop := {
  rounds_some : 1 <= nrounds c;
  keys_words : words (keys c);
  keys_zlen : zlen (keys c) = 4 * (nrounds c + 1);
  keys_inverse : ikeys c = inverse_keys (keys c) (nrounds c) }.

Lemma encrypt_cipher c b : schedule_ok c -> bytes_ok b -> zlen b = 16 -> encrypt_block c b = of_state (cipher (round_key (keys c)) (nrounds c) (to_state b)).
Proof.
  intros [Hnr Hw Hl _] Hb Hlb. pose proof (to_state_ok b Hb Hlb) as Hs. unfold encrypt_block, cipher. set (k := round_key (keys c)).
  assert (Hk : forall r, state_ok (k r)) by (intros; apply round_key_ok).
  assert (E : forall l s, Forall (fun r => 0 <= r <= nrounds c) l -> state_ok s -> table_rounds dtbl idx (keys c) l (packs s) = packs (foldl (enc k) s l)).
  { induction l as [|r l IH]; intros s Hall Ht; [done|]. apply Forall_cons in Hall as [Hr Hall]. cbn [table_rounds foldl].
    rewrite encrypt_table, words_at_packs, add_keys by (done || lia || (apply mix_ok, ShiftRows_ok, BoxBytes_ok; done)). apply IH; [done|by apply enc_ok]. }
  rewrite !words_at_packs by (done || lia). fold (k 0) (k (nrounds c)). rewrite read_keys, E by (done || (apply Forall_forall; intros r Hr%elem_of_seqZ; lia) || by apply AddRoundKey_ok).
  rewrite encrypt_last by by apply rounds_ok, AddRoundKey_ok. apply write_keys; [|done]. by apply forward_ok, rounds_ok, AddRoundKey_ok.
Qed.

Lemma decrypt_decipher c b : schedule_ok c -> bytes_ok b -> zlen b = 16 -> decrypt_block c b = of_state (decipher (round_key (keys c)) (nrounds c) (to_state b)).
Proof.
  intros [Hnr Hw Hl Hi] Hb Hlb. pose proof (to_state_ok b Hb Hlb) as Hs. unfold decrypt_block, decipher. rewrite Hi. set (k := round_key (keys c)).
  assert (Hk : forall r, state_ok (k r)) by (intros; apply round_key_ok).
  destruct (inverse_keys_ends (keys c) (nrounds c) Hnr Hl) as [-> ->].
  assert (E : forall l s, Forall (fun r => 1 <= r < nrounds c) l -> state_ok s -> table_rounds itbl iidx (inverse_keys (keys c) (nrounds c)) l (packs s) = packs (foldl (dec k) s l)).
  { induction l as [|r l IH]; intros s Hall Ht; [done|]. apply Forall_cons in Hall as [Hr Hall]. cbn [table_rounds foldl].
    rewrite decrypt_table, inverse_keys_middle, words_at_packs, inv_mix_packs, add_keys by (done || lia || (try apply mix_ok; by apply forward_ok || done)). apply IH; [done|by apply enc_ok]. }
  rewrite !words_at_packs by (done || lia). fold (k 0) (k (nrounds c)).
  rewrite read_keys, E by (done || (apply Forall_rev, Forall_forall; intros r Hr%elem_of_seqZ; lia) || by apply AddRoundKey_ok).
  rewrite decrypt_last by by apply rounds_ok, AddRoundKey_ok. apply write_keys; [|done]. by apply forward_ok, rounds_ok, AddRoundKey_ok.
Qed.

Lemma state_zlen s : zlen (of_state s) = 16.
Proof. by destruct s as [[[[[[? ?] ?] ?] [[[? ?] ?] ?]] [[[? ?] ?] ?]] [[[? ?] ?] ?]]. Qed.

(** *** The key schedule *)

Lemma unpack_lxor x y : unpack (x ⊕ y) = add_column (unpack x) (unpack y).
Proof. unfold unpack. cbn [add_column]. by rewrite !octet_lxor. Qed.

Lemma each_sbox_fips c : column_ok c -> each_octet (entry sbox) c = each_octet fips_sbox c.
Proof. destruct c as [[[a b] c] d]. intros (? & ? & ? & ?). cbn [each_octet]. by rewrite !sbox_fips. Qed.

Lemma subword_box w : word w -> unpack (SUBBYTE w sbox) = each_octet fips_sbox (unpack w) /\ word (SUBBYTE w sbox).
Proof.
  intros Hw. pose proof (unpack_ok w) as Ho. rewrite <- (pack_unpack w Hw) at 1 3. rewrite <- each_sbox_fips by done.
  destruct (unpack w) as [[[a b] c] d]. destruct Ho as (? & ? & ? & ?). unfold pack. rewrite each_octet_pack by done.
  assert (column_ok (each_octet (entry sbox) (a, b, c, d))) by (apply each_octet_ok; [intros x Hx; by apply boxes|done]).
  split; [by apply unpack_pack|by apply pack_word].
Qed.

Lemma rotword_box w : word w -> unpack (ROTBYTE w) = RotWord (unpack w) /\ word (ROTBYTE w).
Proof.
  intros Hw. pose proof (unpack_ok w) as Ho. rewrite <- (pack_unpack w Hw) at 1 3. destruct (unpack w) as [[[a b] c] d]. destruct Ho as (Ha & Hb & Hc & Hd).
  assert (E : ROTBYTE (pack (a, b, c, d)) = pack (b, c, d, a)); [|rewrite E; split; [by apply unpack_pack|by apply pack_word]].
  unfold pack. rewrite !join_fields by done. unfold ROTBYTE. set (x := a + _ + _ + _). unfold is_byte in *.
  assert (E1 : Z.shiftr x 8 = b + c * 2 ^ 8 + d * 2 ^ 16) by (rewrite shiftr_div by lia; unfold x; div_lia).
  assert (E2 : Z.land x 255 = a) by (rewrite land_255; unfold x; div_lia).
  rewrite E1, E2. assert (E3 : u32 (Z.shiftl a 24) = Z.shiftl a 24) by (rewrite !Z.shiftl_mul_pow2 by lia; wrap_lia).
  rewrite E3, Z.lor_comm, lor_shiftl_add by lia. lia.
Qed.

Lemma xtime_fips x : is_byte x -> xtime (Z.land (u8 x) 0xff) = fips_xtime x.
Proof. revert x. check_octets. Qed.

Lemma unpack_octet x : is_byte x -> unpack x = (x, 0, 0, 0) /\ word x.
Proof.
  intros Hx. split; [|unfold word, is_byte in *; lia].
  rewrite <- (unpack_pack (x, 0, 0, 0)) by by split_and!. f_equal. unfold pack. rewrite join_fields by done. lia.
Qed.

Lemma entry_app_l (l r : list Z) i : 0 <= i < zlen l -> entry (l ++ r) i = entry l i.
Proof. unfold entry, zlen. intros Hi. apply app_nth1. lia. Qed.
Lemma entry_snoc (l : list Z) x i : i = zlen l -> entry (l ++ [x]) i = x.
Proof. intros ->. unfold entry, zlen. rewrite Nat2Z.id. apply nth_middle. Qed.

Definition recurrence (nk : Z) (w : list Z) : Prop :=
  forall i, nk <= i < zlen w -> key_word_of w i = add_column (key_word_of w (i - nk)) (fips_temp nk i (key_word_of w (i - 1))).

Lemma recurrence_snoc nk w x : 0 < nk <= zlen w -> recurrence nk w -> unpack x = add_column (key_word_of w (zlen w - nk)) (fips_temp nk (zlen w) (key_word_of w (zlen w - 1))) ->
  recurrence nk (w ++ [x]).
Proof.
  intros Hnk Hw Hx i Hi. rewrite zlen_app in Hi. change (zlen [x]) with 1 in Hi. unfold key_word_of in *.
  rewrite !(entry_app_l w [x] (i - _)) by lia. destruct (decide (i = zlen w)) as [->|Hne]; [by rewrite entry_snoc|]. rewrite entry_app_l by lia. apply Hw. lia.
Qed.

Definition rcon_at (nk i : Z) : Z := Nat.iter (Z.to_nat ((i - 1) / nk)) fips_xtime 1.

Lemma rcon_byte nk i : is_byte (rcon_at nk i).
Proof. apply (iter_xtime _ 1 1); done. Qed.

Lemma temp_word_fips nk i temp : 0 < nk <= i -> word temp ->
  unpack (temp_word nk i (rcon_at nk i) temp).1 = fips_temp nk i (unpack temp) /\ word (temp_word nk i (rcon_at nk i) temp).1
  /\ (temp_word nk i (rcon_at nk i) temp).2 = rcon_at nk (i + 1).
Proof.
  intros Hnk Ht. pose proof (rcon_byte nk i) as Hr. destruct (unpack_octet _ Hr) as [Er Hrw]. destruct (rotword_box temp Ht) as [E1 W1].
  destruct (subword_box _ W1) as [E2 W2]. destruct (subword_box temp Ht) as [E3 W3].
  pose proof (Z.div_mod i nk ltac:(lia)) as Hdm. pose proof (Z.mod_pos_bound i nk ltac:(lia)) as Hmb.
  unfold temp_word, fips_temp. destruct (i mod nk =? 0) eqn:E0.
  - apply Z.eqb_eq in E0. assert (Ej : (i - 1) / nk = i / nk - 1) by (symmetry; apply Z.div_unique with (nk - 1); nia).
    cbn [fst snd]. rewrite unpack_lxor, E2, E1, Er. unfold Rcon, rcon_at at 1. rewrite Ej. split; [done|]. split; [by apply word_lxor|].
    rewrite xtime_fips by done. unfold rcon_at. rewrite Ej. replace (i + 1 - 1) with i by lia.
    replace (Z.to_nat (i / nk)) with (S (Z.to_nat (i / nk - 1))) by nia. done.
  - apply Z.eqb_neq in E0. assert (Ej : rcon_at nk (i + 1) = rcon_at nk i).
    { unfold rcon_at. do 2 f_equal. replace (i + 1 - 1) with i by lia. apply Z.div_unique with (i mod nk - 1); nia. }
    rewrite Ej. by destruct ((6 <? nk) && (i mod nk =? 4)).
Qed.

Lemma expand_fips n nk w : 0 < nk <= zlen w -> words w -> recurrence nk w ->
  let w' := expand n (zlen w) nk (rcon_at nk (zlen w)) w in
  words w' /\ zlen w' = zlen w + Z.of_nat n /\ recurrence nk w' /\ forall i, 0 <= i < zlen w -> entry w' i = entry w i.
Proof.
  revert w. induction n as [|n IH]; intros w Hnk Hw Hr; cbn [expand]; [split_and!; auto; lia|].
  destruct (temp_word_fips nk (zlen w) (entry w (zlen w - 1)) Hnk ltac:(by apply word_entry)) as (E1 & W1 & E2).
  destruct (temp_word nk _ _ _) as [t rcon]. cbn [fst snd] in *. subst rcon. set (x := entry w (zlen w - nk) ⊕ t).
  assert (Hz : zlen (w ++ [x]) = zlen w + 1) by by rewrite zlen_app.
  assert (Hwx : words (w ++ [x])) by (apply Forall_app; split; [done|]; apply Forall_singleton, word_lxor; [by apply word_entry|done]).
  assert (Hrx : recurrence nk (w ++ [x])) by (apply recurrence_snoc; [done|done|]; unfold x; by rewrite unpack_lxor, E1).
  destruct (IH (w ++ [x]) ltac:(lia) Hwx Hrx) as (H1 & H2 & H3 & H4). rewrite Hz in *. split_and!; [done|lia|done|].
  intros i Hi. rewrite H4 by lia. by apply entry_app_l.
Qed.

Lemma mapM_Done {A B} (f : A -> outcome B) (g : A -> B) l : (forall x, x ∈ l -> f x = Done (g x)) -> mapM f l = Done (g <$> l).
Proof.
  induction l as [|x l IH]; intros Hf; [done|]. cbn [mapM]. rewrite Hf by left. cbn [mbind outcome_bind]. rewrite IH; [done|]. intros y Hy. apply Hf. by right.
Qed.

Lemma byte_entry (l : bytes) i : bytes_ok l -> is_byte (entry l i).
Proof.
  intros Hl. unfold entry. destruct (nth_in_or_default (Z.to_nat i) l 0) as [Hin| ->]; [|done]. eapply Forall_forall; [exact Hl|]. by apply list_elem_of_In.
Qed.

Lemma arr_get_entry (l : bytes) i : 0 <= i < zlen l -> arr_get l i = Done (entry l i).
Proof.
  intros Hi. destruct (lookup_lt_is_Some_2 l (Z.to_nat i) ltac:(unfold zlen in Hi; lia)) as [v Ev].
  rewrite (arr_get_Done l i v ltac:(lia) Ev). unfold entry. by rewrite nth_lookup, Ev.
Qed.

Definition key_column (key : bytes) (i : Z) : column := (entry key (4 * i), entry key (4 * i + 1), entry key (4 * i + 2), entry key (4 * i + 3)).

Lemma key_column_ok key i : bytes_ok key -> column_ok (key_column key i).
Proof. intros Hk. split_and!; by apply byte_entry. Qed.

Lemma key_word_pack key i : bytes_ok key -> 0 <= i -> 4 * i + 4 <= zlen key -> key_word key i = Done (pack (key_column key i)).
Proof.
  intros Hk Hi Hl. unfold key_word. rewrite !arr_get_entry by lia. cbn [mbind outcome_bind]. f_equal. unfold pack, key_column. rewrite (Z.mul_comm i 4).
  pose proof (byte_entry key (4 * i) Hk). pose proof (byte_entry key (4 * i + 1) Hk). pose proof (byte_entry key (4 * i + 2) Hk). pose proof (byte_entry key (4 * i + 3) Hk).
  rewrite join_fields by done. rewrite !Z.shiftl_mul_pow2 by lia. unfold is_byte in *. wrap_lia.
Qed.

Lemma key_words_read key n : 0 <= n -> bytes_ok key -> 4 * n <= zlen key ->
  exists k, mapM (key_word key) (seqZ 0 n) = Done k /\ words k /\ zlen k = n /\ forall i, 0 <= i < n -> key_word_of k i = key_column key i.
Proof.
  intros Hn Hk Hl. exists ((fun i => pack (key_column key i)) <$> seqZ 0 n).
  rewrite (mapM_Done _ (fun i => pack (key_column key i))) by (intros i Hi%elem_of_seqZ; apply key_word_pack; auto; lia). split_and!; [done| | |].
  - apply Forall_fmap, Forall_forall. intros i _. by apply pack_word, key_column_ok.
  - unfold zlen. rewrite length_fmap, length_seqZ. lia.
  - intros i Hi. unfold key_word_of, entry. rewrite nth_lookup, list_lookup_fmap, lookup_seqZ_lt by lia. cbn [fmap option_fmap option_map default].
    rewrite Z.add_0_l, Z2Nat.id by lia. by apply unpack_pack, key_column_ok.
Qed.

Lemma sizes_cases keysize : 16 <= keysize <= 32 -> let '(nk, nr) := sizes keysize in nr = nk + 6 /\ 4 <= nk <= 8 /\ 4 * nk <= keysize.
Proof. intros H. unfold sizes. destruct (Z.eqb_spec keysize 32), (Z.leb_spec 24 keysize); lia. Qed.

Lemma set_key_ok keysize key : 16 <= keysize <= 32 -> bytes_ok key -> keysize <= zlen key ->
  exists c, aes_set_key keysize key = Done c /\ schedule_ok c /\ nrounds c = (sizes keysize).2 /\ fips_schedule (sizes keysize).1 key (keys c).
Proof.
  intros Hs Hk Hl. pose proof (sizes_cases keysize Hs) as Hz. unfold aes_set_key.
  rewrite (proj2 (Z.leb_le AES_MIN_KEY_SIZE keysize)), (proj2 (Z.leb_le keysize AES_MAX_KEY_SIZE)) by (change AES_MIN_KEY_SIZE with 16; change AES_MAX_KEY_SIZE with 32; lia).
  cbn [mbind outcome_bind assert_that]. destruct (sizes keysize) as [nk nr]. destruct Hz as (-> & Hnk & Hks). cbn [fst snd].
  destruct (key_words_read key nk ltac:(lia) Hk ltac:(lia)) as (w & -> & Hw & Hlw & Hread). cbn [mbind outcome_bind].
  change (AES_BLOCK_SIZE / 4) with 4. eexists. split; [done|].
  assert (H1 : recurrence nk w) by (intros i Hi; lia).
  assert (Hr : rcon_at nk (zlen w) = 1) by (unfold rcon_at; rewrite Hlw, Z.div_small by lia; done).
  pose proof (expand_fips (Z.to_nat (4 * (nk + 6 + 1) - nk)) nk w ltac:(lia) Hw H1) as H. rewrite Hr, Hlw in H. destruct H as (Hw' & Hl' & Hrec & Hpre).
  split; [constructor; cbn [keys ikeys nrounds]; [lia|done|lia|done]|]. split; [done|]. cbn [keys]. split; [|done].
  intros i Hi. unfold key_word_of. rewrite Hpre by lia. apply Hread. lia.
Qed.

(** ** The laws *)

Definition aes_block (mode : bool) (c : aes_ctx) (b : bytes) : bytes := if mode then encrypt_block c b else decrypt_block c b.

Lemma aes_inverse mode c b : schedule_ok c -> bytes_ok b -> zlen b = 16 -> aes_block (negb mode) c (aes_block mode c b) = b.
Proof.
  intros Hc Hb Hl. pose proof (to_state_ok b Hb Hl) as Hs. set (k := round_key (keys c)).
  assert (Hk : forall r, state_ok (k r)) by (intros; apply round_key_ok). destruct (cipher_ok k Hk (nrounds c) _ Hs) as [H1 H2].
  destruct (decipher_cipher k Hk (nrounds c) _ Hs) as [E1 E2]. unfold aes_block. destruct mode; cbn [negb].
  - rewrite (encrypt_cipher c b) by done. rewrite decrypt_decipher by (done || apply state_zlen || by apply of_state_ok). fold k. rewrite to_of_state, E1. by apply of_to_state.
  - rewrite (decrypt_decipher c b) by done. rewrite encrypt_cipher by (done || apply state_zlen || by apply of_state_ok). fold k. rewrite to_of_state, E2. by apply of_to_state.
Qed.

Lemma aes_block_bytes mode c b : bytes_ok (aes_block mode c b) /\ zlen (aes_block mode c b) = 16.
Proof.
  unfold aes_block. destruct mode; unfold encrypt_block, decrypt_block, key_addition32to8; (split; [|done]);
  repeat (apply Forall_cons; split; [apply octet_byte|]); apply Forall_nil; done.
Qed.

#[export, program] Instance aes_laws : BlockCipherLaws aes_ctx :=
  {| bc_ready _ := true; bc_block := aes_block; bc_ok := schedule_ok |}.
Next Obligation. done. Qed.
Next Obligation. done. Qed.
Next Obligation. done. Qed.
Next Obligation. done. Qed.
Next Obligation. intros mode x b _. apply aes_block_bytes. Qed.
Next Obligation. intros mode x b _ _ _. apply aes_block_bytes. Qed.
Next Obligation. intros mode x b. apply aes_inverse. Qed.

Lemma rijndael_serves size : 16 <= size <= 32 -> serves reversible (mkAlgorithm AES_BLOCK_SIZE size 0 (make_rijndael_instance size)).
Proof.
  intros Hs. split_and!; [done|cbn; lia|done|]. intros key iv Hk _ Hl _. left. cbn [key_size] in Hl.
  destruct (set_key_ok size key Hs Hk Hl) as (c & E & Hc & _). exists (mkInstance CRYPTO_ENCRYPT c), (mkInstance CRYPTO_DECRYPT c).
  cbn [make_crypt]. unfold make_rijndael_instance. rewrite E. cbn [mbind outcome_bind]. by split_and!.
Qed.

(** ** The standard *)

Lemma for_blocks_concat n (f : bytes -> bytes) bs : 0 < n -> Forall (fun b => zlen b = n) bs ->
  for_blocks n f (concat bs) = Done (concat (f <$> bs)) /\ zlen (concat bs) mod n = 0.
Proof.
  intros Hn. induction 1 as [|b bs Hb _ [IH Hm]]; [by rewrite for_blocks_nil|]. cbn [concat fmap list_fmap]. split; [|by apply aligned_cons].
  by rewrite for_blocks_cons, IH.
Qed.

(** C33. The AES of FIPS 197: for every key length the program accepts and
    every key, the key schedule succeeds and is the standard's; encryption by
    the tables is, block by block and for any number of blocks, the cipher of
    the standard with those round keys; and decryption with the inverse keys
    takes it back. *)
Theorem aes_fips keysize key bs (Hs : 16 <= keysize <= 32) (Hk : bytes_ok key) (Hl : keysize <= zlen key)
  (Hb : Forall (fun b => bytes_ok b /\ zlen b = AES_BLOCK_SIZE) bs) :
  exists c, aes_set_key keysize key = Done c
  /\ fips_schedule (sizes keysize).1 key (keys c) /\ zlen (keys c) = 4 * ((sizes keysize).2 + 1)
  /\ aes_encrypt c (concat bs) = Done (concat ((fun b => of_state (fips_cipher (round_key (keys c)) (sizes keysize).2 (to_state b))) <$> bs))
  /\ (x ← aes_encrypt c (concat bs); aes_decrypt c x) = Done (concat bs).
Proof.
  destruct (set_key_ok keysize key Hs Hk Hl) as (c & E & Hc & En & Hf). exists c. split; [done|]. split; [done|]. split; [rewrite <- En; by apply keys_zlen|].
  change AES_BLOCK_SIZE with 16 in Hb. assert (Hz : Forall (fun b => zlen b = 16) bs) by (eapply Forall_impl; [exact Hb|by intros b []]).
  unfold aes_encrypt, aes_decrypt. change AES_BLOCK_SIZE with 16. rewrite (proj1 (for_blocks_concat 16 _ bs ltac:(lia) Hz)). cbn [mbind outcome_bind]. split.
  - do 2 f_equal. apply list_fmap_ext. intros i b Hi. pose proof (Forall_lookup_1 _ _ _ _ Hb Hi) as [Hb1 Hb2]. rewrite encrypt_cipher, En by done.
    by rewrite cipher_fips by (intros; apply round_key_ok) || by apply to_state_ok.
  - assert (Hc16 : Forall (fun b => zlen b = 16) (encrypt_block c <$> bs)) by (apply Forall_fmap, Forall_true; intros b; apply (aes_block_bytes true c b)).
    rewrite (proj1 (for_blocks_concat 16 _ _ ltac:(lia) Hc16)).
    do 2 f_equal. rewrite <- list_fmap_compose. transitivity (id <$> bs); [|by rewrite list_fmap_id]. apply list_fmap_ext. intros i b Hi.
    pose proof (Forall_lookup_1 _ _ _ _ Hb Hi) as [Hb1 Hb2]. exact (aes_inverse true c b Hc Hb1 Hb2).
Qed.

Lemma aes_fips_witness : exists c, aes_set_key 16 (seqZ 0 16) = Done c /\ fips_schedule 4 (seqZ 0 16) (keys c).
Proof.
  destruct (aes_fips 16 (seqZ 0 16) [fips_text; seqZ 7 16]) as (c & E & Hf & _); [lia|by apply (bool_decide_unpack _); vm_compute|done| |].
  - repeat constructor; try done; by apply (bool_decide_unpack _); vm_compute.
  - by exists c.
Defined.
End Aes.
