(* ===== verification/Packet.v ===== *)
(** * The packet layer

    [lsh/src/pad.c], [encrypt.c], [read_packet.c] and [unpad.c]: what is
    done to a payload on its way to the wire and back.  The cipher and the
    MAC are those of the interfaces of [Crypto]. *)

From S2P Require Import Prelude Format Crypto.

Module Packet.
Import Format Crypto.

Definition SSH_MAX_PACKET : Z := 0x8000.
Definition SSH_MAX_PACKET_FUZZ : Z := 35000 - SSH_MAX_PACKET.

(** ** Buffers obtained from [ssh_format] with reserved space *)

(** [memcpy(data + off, src, n)] into a buffer that may still have octets
    nobody has written. *)
Definition store (off : Z) (src : bytes) (buffer : cells) : outcome cells :=
  if (0 <=? off) && (off + zlen src <=? zlen buffer) then
    Done (take (Z.to_nat off) buffer ++ octets src ++ drop (Z.to_nat (off + zlen src)) buffer)
  else Crash OutOfBounds.

(** The finished string: every octet must have been written. *)
Definition finished (buffer : cells) : outcome bytes :=
  match mapM (M:=option) id buffer with Some l => Done l | None => Crash OutOfBounds end.

(** The pointer stored through a [%r] argument. *)
Definition pointer (ptrs : list Z) : outcome Z :=
  match ptrs with p :: _ => Done p | [] => Crash BadArgument end.

Section Packet.
Context {C : Type} `{CL : CipherLaws C} {M : Type} `{ML : MacLaws M}.

(** The fields of [struct ssh_connection] the packet layer uses. *)
Record connection := {
  rec_max_packet : Z;
  rec_crypto : option C;
  rec_mac : option M;
  send_crypto : option C;
  send_mac : option M }.

Definition crypto_block_size (crypto : option C) : Z :=
  match crypto with Some _ => block_size | None => 8 end.

(** ** [do_pad] *)

Definition do_pad (c : connection) (random : Z -> bytes) (packet : bytes) : outcome bytes :=
  let block_size := crypto_block_size (send_crypto c) in
  let length := zlen packet in
  let new_size := u32 (block_size * u32 (1 + u32 (8 + length) / block_size)) in
  let padding := u8 (u32 (new_size - length - 5)) in
  _ ← assert_that (4 <=? padding);
  '(new, ptrs) ← ssh_format_cells "%i%c%lr"
    [VWord (u32 (length + padding + 1)); VWord padding; VWord (u32 (length + padding)); VOut true];
  _ ← assert_that (zlen new =? new_size);
  data ← pointer ptrs;
  new ← store data packet new;
  new ← store (data + length) (random padding) new;
  finished new.

(** ** [do_encrypt] *)

Definition set_send (c : connection) (crypto : option C) (mac : option M) : connection :=
  {| rec_max_packet := rec_max_packet c; rec_crypto := rec_crypto c; rec_mac := rec_mac c;
     send_crypto := crypto; send_mac := mac |}.

(** Encrypting, or copying, the packet into the new buffer. *)
Definition crypt_into (crypto : option C) (packet : bytes) (new : cells) : outcome (option C * cells) :=
  match crypto with
  | Some k => '(k, d) ← crypt k packet; new ← store 0 d new; Done (Some k, new)
  | None => new ← store 0 packet new; Done (None, new)
  end.

(** The new connection and sequence number, and what goes to the wire. *)
Definition do_encrypt (c : connection) (sequence_number : Z) (packet : bytes)
    : outcome (connection * Z * bytes) :=
  '(new, ptrs) ← ssh_format_cells "%lr%lr"
    [VWord (zlen packet); VOut false;
     VWord (match send_mac c with Some _ => mac_size | None => 0 end); VOut true];
  mac ← pointer ptrs;
  '(crypto, new) ← crypt_into (send_crypto c) packet new;
  '(m, new) ←
    match send_mac c with
    | Some m =>
        m ← mac_update m (WRITE_UINT32 sequence_number);
        m ← mac_update m packet;
        '(m, d) ← mac_digest m;
        new ← store mac d new;
        Done (Some m, new)
    | None => Done (None, new)
    end;
  wire ← finished new;
  Done (set_send c crypto m, u32 (sequence_number + 1), wire).

(** ** [do_read_packet] *)

Inductive read_state := WAIT_START | WAIT_HEADER | WAIT_CONTENTS | WAIT_MAC.

Record read_packet := {
  state : read_state;
  sequence_number : Z;
  pos : Z;
  block_buffer : option bytes;
  mac_buffer : option bytes;
  packet_buffer : option (bytes * Z);   (** the octets and the packet's number *)
  crypt_pos : Z }.                      (** as an offset in [packet_buffer] *)

Inductive protocol_exception := Unexpected_EOF | Packet_too_large | Invalid_packet_length | MAC_error.

(** What a call of the handler does besides consuming input: it raises an
    exception or hands a packet to the next handler. *)
Inductive event :=
  | Raise (e : protocol_exception)
  | Deliver (packet : bytes) (sequence_number : Z).

(** The state, the connection, [total] and the event. *)
Definition result : Type := read_packet * connection * Z * option event.

Definition set_rec (c : connection) (crypto : option C) (mac : option M) : connection :=
  {| rec_max_packet := rec_max_packet c; rec_crypto := crypto; rec_mac := mac;
     send_crypto := send_crypto c; send_mac := send_mac c |}.

Definition deref {A} (p : option A) : outcome A :=
  match p with Some a => Done a | None => Crash NullDeref end.

(** What an octet of fresh memory happens to be. *)
Variable garbage : Z.

Definition lsh_string_alloc (length : Z) : bytes := replicate (Z.to_nat length) garbage.

Definition lsh_string_realloc (s : option bytes) (length : Z) : bytes :=
  match s with
  | None => lsh_string_alloc length
  | Some s => if zlen s <? length then lsh_string_alloc length else s
  end.

Definition with_state (r : read_packet) (s : read_state) (p : Z) : read_packet :=
  {| state := s; sequence_number := sequence_number r; pos := p; block_buffer := block_buffer r;
     mac_buffer := mac_buffer r; packet_buffer := packet_buffer r; crypt_pos := crypt_pos r |}.

Definition with_block (r : read_packet) (p : Z) (b : bytes) : read_packet :=
  {| state := state r; sequence_number := sequence_number r; pos := p; block_buffer := Some b;
     mac_buffer := mac_buffer r; packet_buffer := packet_buffer r; crypt_pos := crypt_pos r |}.

Definition with_mac (r : read_packet) (p : Z) (b : bytes) : read_packet :=
  {| state := state r; sequence_number := sequence_number r; pos := p; block_buffer := block_buffer r;
     mac_buffer := Some b; packet_buffer := packet_buffer r; crypt_pos := crypt_pos r |}.

Definition with_packet (r : read_packet) (p : Z) (b : option (bytes * Z)) : read_packet :=
  {| state := state r; sequence_number := sequence_number r; pos := p; block_buffer := block_buffer r;
     mac_buffer := mac_buffer r; packet_buffer := b; crypt_pos := crypt_pos r |}.

(** [READ(n, dst)] *)
Definition READ (n : Z) (data : bytes) (r : read_packet) (dst : bytes) : outcome (bytes * bytes) :=
  b ← memcpy_to (pos r) (take (Z.to_nat n) data) dst;
  Done (b, drop (Z.to_nat n) data).

(** The end of [case WAIT_MAC]: send the packet on. *)
Definition send_packet_on (r : read_packet) (c : connection) (total : Z) : outcome result :=
  '(packet, seq) ← deref (packet_buffer r);
  Done (with_state (with_packet r (pos r) None) WAIT_START (pos r), c, total, Some (Deliver packet seq)).

(** [case WAIT_MAC] *)
Definition wait_mac (r : read_packet) (c : connection) (total : Z) (data : bytes) : outcome result :=
  match rec_mac c with
  | None => send_packet_on r c total
  | Some m =>
      let left := u32 (mac_size - pos r) in
      _ ← assert_that (negb (left =? 0));
      buffer ← deref (mac_buffer r);
      if zlen data <? left then
        '(buffer, _) ← READ (zlen data) data r buffer;
        Done (with_mac r (u32 (pos r + zlen data)) buffer, c, total + zlen data, None)
      else
        '(buffer, _) ← READ left data r buffer;
        let r := with_mac r (u32 (pos r + left)) buffer in
        '(m, mac) ← mac_digest m;
        let c := set_rec c (rec_crypto c) (Some m) in
        if bool_decide (mac = take (Z.to_nat mac_size) buffer) then send_packet_on r c (total + left)
        else Done (r, c, total + left, Some (Raise MAC_error))
  end.

(** [do_mac:] *)
Definition do_mac (r : read_packet) : read_packet := with_state r WAIT_MAC 0.

(** [case WAIT_CONTENTS] *)
Definition wait_contents (r : read_packet) (c : connection) (total : Z) (data : bytes) : outcome result :=
  '(packet, seq) ← deref (packet_buffer r);
  let left := u32 (zlen packet - pos r) in
  _ ← assert_that (negb (left =? 0));
  if zlen data <? left then
    '(packet, _) ← READ (zlen data) data r packet;
    Done (with_packet r (u32 (pos r + zlen data)) (Some (packet, seq)), c, total + zlen data, None)
  else
    '(packet, data) ← READ left data r packet;
    let r := with_packet r (u32 (pos r + left)) (Some (packet, seq)) in
    let text := drop (Z.to_nat (crypt_pos r)) packet in
    '(crypto, text) ←
      match rec_crypto c with
      | Some k => '(k, text) ← crypt k text; Done (Some k, text)
      | None => Done (None, text)
      end;
    packet ← memcpy_to (crypt_pos r) text packet;
    m ← match rec_mac c with
        | Some m => m ← mac_update m text; Done (Some m)
        | None => Done None
        end;
    let r := with_packet r (pos r) (Some (packet, seq)) in
    wait_mac (do_mac r) (set_rec c crypto m) (total + left) data.

(** The last part of [case WAIT_HEADER]: the block is authenticated, the
    packet allocated and begun with what follows its length field. *)
Definition accept_header (r : read_packet) (c : connection) (total : Z) (block data : bytes) : outcome result :=
  let block_size := crypto_block_size (rec_crypto c) in
  let length := READ_UINT32 block in
  m ← match rec_mac c with
      | Some m =>
          m ← mac_update m (WRITE_UINT32 (sequence_number r));
          m ← mac_update m (take (Z.to_nat block_size) block);
          Done (Some m)
      | None => Done None
      end;
  let done := block_size - 4 in
  _ ← assert_that (bool_decide (packet_buffer r = None));
  '(buffer, ptrs) ← ssh_format_cells "%ls%lr"
    [VWord done; VData (drop 4 block); VWord (length - done); VOut true];
  ptr ← pointer ptrs;
  let packet := (fun o => match o with Some b => b | None => garbage end) <$> buffer in
  let r := {| state := state r; sequence_number := u32 (sequence_number r + 1); pos := done;
              block_buffer := block_buffer r; mac_buffer := mac_buffer r;
              packet_buffer := Some (packet, sequence_number r); crypt_pos := ptr |} in
  let c := set_rec c (rec_crypto c) m in
  if done =? length then wait_mac (do_mac r) c total data
  else wait_contents (with_state r WAIT_CONTENTS (pos r)) c total data.

(** [case WAIT_HEADER] *)
Definition wait_header (r : read_packet) (c : connection) (total : Z) (data : bytes) : outcome result :=
  let block_size := crypto_block_size (rec_crypto c) in
  let left := u32 (block_size - pos r) in
  _ ← assert_that (negb (left =? 0));
  block ← deref (block_buffer r);
  if zlen data <? left then
    '(block, _) ← READ (zlen data) data r block;
    Done (with_block r (u32 (pos r + zlen data)) block, c, total + zlen data, None)
  else
    '(block, data) ← READ left data r block;
    let total := total + left in
    '(crypto, block) ←
      match rec_crypto c with
      | Some k =>
          '(k, text) ← crypt k (take (Z.to_nat block_size) block);
          block ← memcpy_to 0 text block;
          Done (Some k, block)
      | None => Done (None, block)
      end;
    let r := with_block r (u32 (pos r + left)) block in
    let c := set_rec c crypto (rec_mac c) in
    let length := READ_UINT32 block in
    if u32 (rec_max_packet c + SSH_MAX_PACKET_FUZZ) <? length then
      Done (r, c, total, Some (Raise Packet_too_large))
    else if (length <? 12) || (length <? block_size - 4) || negb (u32 (length + 4) mod block_size =? 0) then
      Done (r, c, total, Some (Raise Invalid_packet_length))
    else accept_header r c total block data.

(** [case WAIT_START] *)
Definition wait_start (r : read_packet) (c : connection) : read_packet :=
  let r := with_block r (pos r) (lsh_string_realloc (block_buffer r) (crypto_block_size (rec_crypto c))) in
  let r := match rec_mac c with
           | Some _ => with_mac r (pos r) (lsh_string_realloc (mac_buffer r) mac_size)
           | None => r
           end in
  with_state r WAIT_HEADER 0.

(** The [switch] on the state. *)
Definition read_switch (r : read_packet) (c : connection) (total : Z) (data : bytes) : outcome result :=
  match state r with
  | WAIT_START => wait_header (wait_start r c) c total data
  | WAIT_HEADER => wait_header r c total data
  | WAIT_CONTENTS => wait_contents r c total data
  | WAIT_MAC => wait_mac r c total data
  end.

(** The handler; [None] in the first component when it resets itself. *)
Definition do_read_packet (r : read_packet) (c : connection) (data : bytes)
    : outcome (option read_packet * connection * Z * option event) :=
  match data with
  | [] => Done (None, c, 0, Some (Raise Unexpected_EOF))
  | _ => '(r, c, total, e) ← read_switch r c 0 data; Done (Some r, c, total, e)
  end.

Definition make_read_packet : read_packet :=
  {| state := WAIT_START; sequence_number := 0; pos := 0; block_buffer := None;
     mac_buffer := None; packet_buffer := None; crypt_pos := 0 |}.

(** ** [do_unpad] *)

Definition do_unpad (c : connection) (packet : bytes) : outcome bytes :=
  match packet with
  | [] => Reject
  | padding_length :: _ =>
      if (padding_length <? 4) || (zlen packet <=? padding_length) then Reject
      else
        let payload_length := zlen packet - 1 - padding_length in
        if u32 (rec_max_packet c + SSH_MAX_PACKET_FUZZ) <? payload_length then Reject
        else ssh_format "%ls" [VWord payload_length; VData (drop 1 packet)]
  end.

(** ** Lemmas: reserved space *)

Definition reserved (n : Z) : cells := replicate (Z.to_nat n) None.

Lemma zlen_reserved n : 0 <= n -> zlen (reserved n) = n.
Proof. intros. unfold reserved. rewrite zlen_replicate. lia. Qed.

Lemma octets_app a b : octets (a ++ b) = octets a ++ octets b.
Proof. apply fmap_app. Qed.

(** Run the two passes of [ssh_format] on a fixed format string. *)
Ltac run_format :=
  unfold ssh_format_cells, ssh_vformat_length, ssh_vformat_write;
  cbn -[u32 WRITE_UINT32 u8 Z.ltb Z.eqb Z.leb memcpy].

Lemma format_pad_header a b n :
  0 <= n -> 5 + n < 2 ^ 32 ->
  ssh_format_cells "%i%c%lr" [VWord a; VWord b; VWord n; VOut true]
  = Done (octets (WRITE_UINT32 a ++ [u8 b]) ++ reserved n, [5]).
Proof.
  intros Hn Hmax. run_format. change (u32 (0 + 4)) with 4. change (u32 (4 + 1)) with 5.
  rewrite Z.add_0_r, u32_small by lia.
  assert (Hl : zlen (((Some <$> WRITE_UINT32 a) ++ [Some (u8 b)]) ++ replicate (Z.to_nat n) None) = 5 + n)
    by (rewrite zlen_app, zlen_replicate; change (zlen _) with 5; lia).
  rewrite Hl, Z.ltb_irrefl, Z.eqb_refl. done.
Qed.

Lemma format_encrypted n m :
  0 <= n -> 0 <= m -> n + m < 2 ^ 32 ->
  ssh_format_cells "%lr%lr" [VWord n; VOut false; VWord m; VOut true]
  = Done (reserved n ++ reserved m, [n]).
Proof.
  intros Hn Hm Hmax. run_format. rewrite !Z.add_0_r, (u32_small (0 + n)), u32_small by lia.
  assert (Hl : zlen (reserved n ++ reserved m) = 0 + n + m) by (rewrite zlen_app, !zlen_reserved by done; lia).
  unfold reserved in Hl |- *. rewrite Hl, Z.ltb_irrefl, Z.eqb_refl. cbn [assert_that mbind outcome_bind].
  rewrite zlen_replicate, Z2Nat.id by done. done.
Qed.

Lemma format_first_block d src n :
  0 <= d <= zlen src -> 0 <= n -> d + n < 2 ^ 32 ->
  ssh_format_cells "%ls%lr" [VWord d; VData src; VWord n; VOut true]
  = Done (octets (take (Z.to_nat d) src) ++ reserved n, [d]).
Proof.
  intros Hd Hn Hmax. run_format. rewrite !Z.add_0_r, (u32_small (0 + d)), u32_small by lia.
  unfold memcpy. rewrite (proj2 (Z.leb_le _ _)) by lia. cbn -[u32 Z.ltb Z.eqb].
  destruct (zlen_take_drop d src Hd) as [Ht _].
  assert (Hl : zlen ((Some <$> take (Z.to_nat d) src) ++ replicate (Z.to_nat n) None) = 0 + d + n)
    by (rewrite zlen_app, zlen_replicate, zlen_fmap; lia).
  rewrite Hl, Z.ltb_irrefl, Z.eqb_refl. cbn [assert_that mbind outcome_bind].
  rewrite zlen_fmap, Ht, zlen_nil, Z.add_0_r. done.
Qed.

Lemma store_spec p old src q :
  zlen old = zlen src -> store (zlen p) src (p ++ old ++ q) = Done (p ++ octets src ++ q).
Proof.
  intros Hl. unfold store. rewrite !zlen_app, Hl.
  pose proof (zlen_nonneg p). pose proof (zlen_nonneg q).
  rewrite (proj2 (Z.leb_le 0 _)), (proj2 (Z.leb_le (zlen p + zlen src) _)) by lia. simpl.
  unfold zlen in *. rewrite Nat2Z.id, take_app_length, <- Nat2Z.inj_add, Nat2Z.id.
  do 3 f_equal. rewrite drop_app_ge by lia. rewrite drop_app_ge by lia.
  replace (_ - _ - _)%nat with 0%nat by lia. done.
Qed.

Lemma finished_octets l : finished (octets l) = Done l.
Proof.
  unfold finished. replace (mapM id (octets l)) with (Some l); [done|].
  induction l as [|b l IH]; [done|]. simpl. by rewrite <- IH.
Qed.

(** ** Padding *)

(** A padded packet: length, padding length, payload, padding. *)
Definition padded (payload pad : bytes) : bytes :=
  WRITE_UINT32 (zlen payload + zlen pad + 1) ++ [zlen pad] ++ payload ++ pad.

Lemma zlen_padded payload pad : zlen (padded payload pad) = 5 + zlen payload + zlen pad.
Proof. unfold padded. rewrite !zlen_app, zlen_WRITE_UINT32. change (zlen [zlen pad]) with 1. lia. Qed.

(** The amount of padding [do_pad] chooses. *)
Definition padding_size (bs len : Z) : Z := bs * (1 + (8 + len) / bs) - len - 5.

Lemma padding_size_spec bs len :
  8 <= bs <= 64 /\ bs mod 8 = 0 -> 0 <= len ->
  4 <= padding_size bs len <= bs + 3 /\ (5 + len + padding_size bs len) mod bs = 0
  /\ 16 <= 5 + len + padding_size bs len /\ bs <= 5 + len + padding_size bs len.
Proof.
  intros [Hb H8] Hl. unfold padding_size. pose proof (Z.mod_pos_bound (8 + len) bs ltac:(lia)).
  pose proof (Z.div_mod (8 + len) bs ltac:(lia)).
  assert (0 <= (8 + len) / bs) by (apply Z.div_pos; lia).
  split_and!; [nia|nia| | |nia].
  - replace (5 + len + (bs * (1 + (8 + len) / bs) - len - 5)) with ((1 + (8 + len) / bs) * bs) by lia.
    apply Z.mod_mul. lia.
  - assert (bs = 8 \/ 16 <= bs) as [-> | ?] by div_lia; [div_lia|nia].
Qed.

Lemma crypto_block_size_bounds crypto :
  8 <= crypto_block_size crypto <= 64 /\ crypto_block_size crypto mod 8 = 0.
Proof. destruct crypto; [apply block_size_bounds|split; [simpl; lia|done]]. Qed.

Lemma do_pad_spec c random payload :
  let bs := crypto_block_size (send_crypto c) in
  let n := padding_size bs (zlen payload) in
  zlen (random n) = n -> zlen payload + 128 < 2 ^ 32 ->
  do_pad c random payload = Done (padded payload (random n)).
Proof.
  intros bs n Hr Hl. pose proof (crypto_block_size_bounds (send_crypto c)) as Hb. fold bs in Hb.
  pose proof (zlen_nonneg payload) as H0'.
  pose proof (padding_size_spec bs (zlen payload) Hb H0') as (Hp&Hm&_). fold n in Hp, Hm.
  unfold do_pad. fold bs.
  assert (Hd : 0 <= (8 + zlen payload) / bs <= 8 + zlen payload).
  { split; [apply Z.div_pos; lia|]. apply Z.div_le_upper_bound; nia. }
  rewrite (u32_small (8 + _)), (u32_small (1 + _)) by lia.
  assert (En : bs * (1 + (8 + zlen payload) / bs) = 5 + zlen payload + n) by (unfold n, padding_size; lia).
  rewrite En, !(u32_small (5 + _ + _)) by lia.
  replace (5 + zlen payload + n - zlen payload - 5) with n by lia.
  rewrite (u32_small n), (u8_small n) by lia. unfold assert_that.
  rewrite (proj2 (Z.leb_le 4 n)), !u32_small by lia. cbn [mbind outcome_bind].
  rewrite format_pad_header by lia. cbn [mbind outcome_bind].
  rewrite zlen_app, zlen_reserved, zlen_octets, zlen_app by lia.
  change (zlen (WRITE_UINT32 _)) with 4. change (zlen [u8 n]) with 1.
  rewrite (proj2 (Z.eqb_eq _ _)) by lia. cbn [mbind outcome_bind pointer].
  replace (reserved (zlen payload + n)) with (reserved (zlen payload) ++ reserved n ++ [])
    by (unfold reserved; rewrite app_nil_r, <- replicate_add; f_equal; lia).
  rewrite (u8_small n) by lia. set (h := WRITE_UINT32 _ ++ [n]).
  change 5 with (zlen (octets h)).
  rewrite store_spec by (rewrite zlen_reserved; lia). cbn [mbind outcome_bind].
  replace (zlen (octets h) + zlen payload) with (zlen (octets (h ++ payload)))
    by (rewrite !zlen_octets, zlen_app; lia).
  rewrite app_assoc, <- octets_app, store_spec by (rewrite zlen_reserved; lia). cbn [mbind outcome_bind].
  rewrite app_nil_r, <- octets_app, finished_octets. unfold padded, h.
  by rewrite Hr, <- !app_assoc.
Qed.

(** ** Safety of the reader *)

Hypothesis garbage_byte : is_byte garbage.

Lemma lsh_string_realloc_ok s n :
  0 <= n -> (forall b, s = Some b -> bytes_ok b) ->
  n <= zlen (lsh_string_realloc s n) /\ bytes_ok (lsh_string_realloc s n).
Proof.
  intros Hn Hs. assert (Ha : zlen (lsh_string_alloc n) = n /\ bytes_ok (lsh_string_alloc n)).
  { unfold lsh_string_alloc. rewrite zlen_replicate. split; [lia|]. by apply Forall_replicate. }
  destruct s as [b|]; simpl; [|split; [lia|apply Ha]].
  destruct (Z.ltb_spec (zlen b) n); [split; [lia|apply Ha]|]. split; [done|by apply Hs].
Qed.

Lemma WRITE_READ_UINT32 b : bytes_ok b -> 4 <= zlen b -> WRITE_UINT32 (READ_UINT32 b) = take 4 b.
Proof.
  intros Hb Hl. destruct b as [|a0 [|a1 [|a2 [|a3 b]]]]; try (unfold zlen in Hl; simpl in Hl; lia).
  apply Forall_cons in Hb as [? Hb]. apply Forall_cons in Hb as [? Hb].
  apply Forall_cons in Hb as [? Hb]. apply Forall_cons in Hb as [? _].
  change (a0 :: a1 :: a2 :: a3 :: b) with ([a0; a1; a2; a3] ++ b).
  rewrite READ_UINT32_be_val by (done || (repeat (constructor; [done|]); constructor)).
  assert (E : be_val [a0; a1; a2; a3] = a0 * 2 ^ 24 + a1 * 2 ^ 16 + a2 * 2 ^ 8 + a3)
    by (unfold be_val, zlen; cbn [length]; lia).
  unfold is_byte in *. rewrite E.
  rewrite WRITE_UINT32_spec by lia. simpl take. repeat f_equal; div_lia.
Qed.

(** The tag function of the connection. *)
Variable tag : bytes -> bytes.

Definition absorbed_opt (m : option M) (l : bytes) : Prop :=
  match m with Some m => absorbed tag m l | None => True end.

Definition usable_opt (k : option C) : Prop := match k with Some k => usable k | None => True end.

(** The octets authenticated with a packet. *)
Definition covered (seq : Z) (packet : bytes) : bytes :=
  WRITE_UINT32 seq ++ WRITE_UINT32 (zlen packet) ++ packet.

Definition limit (c : connection) : Z := rec_max_packet c + SSH_MAX_PACKET_FUZZ.

Definition mac_buffer_ok (c : connection) (r : read_packet) : Prop :=
  match rec_mac c with
  | Some _ => exists b, mac_buffer r = Some b /\ mac_size <= zlen b /\ bytes_ok b
  | None => True
  end.

Definition packet_ok (c : connection) (r : read_packet) (packet : bytes) (seq : Z) : Prop :=
  packet_buffer r = Some (packet, seq) /\ bytes_ok packet /\ zlen packet <= limit c
  /\ 0 <= seq < 2 ^ 32 /\ sequence_number r = u32 (seq + 1) /\ mac_buffer_ok c r.

(** The states in which the reader waits for input. *)
Definition waiting (c : connection) (r : read_packet) : Prop :=
  match state r with
  | WAIT_START => packet_buffer r = None /\ absorbed_opt (rec_mac c) []
  | WAIT_HEADER =>
      packet_buffer r = None /\ absorbed_opt (rec_mac c) [] /\ mac_buffer_ok c r
      /\ 0 <= pos r < crypto_block_size (rec_crypto c)
      /\ exists b, block_buffer r = Some b /\ crypto_block_size (rec_crypto c) <= zlen b
  | WAIT_CONTENTS =>
      exists packet seq, packet_ok c r packet seq /\ 0 <= crypt_pos r <= pos r /\ pos r < zlen packet
      /\ (zlen packet - crypt_pos r) mod crypto_block_size (rec_crypto c) = 0
      /\ absorbed_opt (rec_mac c)
           (WRITE_UINT32 seq ++ WRITE_UINT32 (zlen packet) ++ take (Z.to_nat (crypt_pos r)) packet)
  | WAIT_MAC =>
      exists packet seq, packet_ok c r packet seq /\ absorbed_opt (rec_mac c) (covered seq packet)
      /\ 0 <= pos r < mac_size /\ is_Some (rec_mac c)
  end.

Record reader_ok (c : connection) (r : read_packet) : Prop := {
  ok_crypto : usable_opt (rec_crypto c);
  ok_limit : 0 <= rec_max_packet c /\ limit c + 64 < 2 ^ 32;
  ok_seq : 0 <= sequence_number r < 2 ^ 32;
  ok_block : forall b, block_buffer r = Some b -> bytes_ok b;
  ok_mac : forall b, mac_buffer r = Some b -> bytes_ok b;
  ok_waiting : waiting c r }.

(** After an exception: another call fails its [assert(left)]. *)
Definition dead (c : connection) (r : read_packet) : Prop :=
  forall total data, read_switch r c total data = Crash AssertFail.

(** What a call may do. *)
Definition result_ok (seq total : Z) (data : bytes) (res : outcome result) : Prop :=
  exists r c total' e, res = Done (r, c, total', e) /\ total <= total' <= total + zlen data /\
  match e with
  | None => total' = total + zlen data /\ reader_ok c r
  | Some (Raise _) => dead c r
  | Some (Deliver packet n) =>
      reader_ok c r /\ state r = WAIT_START /\ n = seq /\ sequence_number r = u32 (seq + 1)
      /\ bytes_ok packet /\ zlen packet <= limit c
      /\ (is_Some (rec_mac c) -> exists b, mac_buffer r = Some b
           /\ take (Z.to_nat mac_size) b = tag (covered n packet))
  end.

Lemma send_packet_on_ok seq total total' data r c packet :
  usable_opt (rec_crypto c) -> 0 <= rec_max_packet c /\ limit c + 64 < 2 ^ 32 ->
  packet_ok c r packet seq -> absorbed_opt (rec_mac c) [] ->
  (forall b, block_buffer r = Some b -> bytes_ok b) ->
  (forall b, mac_buffer r = Some b -> bytes_ok b) ->
  (is_Some (rec_mac c) -> exists b, mac_buffer r = Some b
           /\ take (Z.to_nat mac_size) b = tag (covered seq packet)) ->
  total <= total' <= total + zlen data ->
  result_ok seq total data (send_packet_on r c total').
Proof.
  intros Hk Hlim (Hp&Hb&Hl&Hs&Hn&Hmb) Ha Hblk Hmac Htag Ht. unfold send_packet_on. rewrite Hp.
  cbn [mbind outcome_bind deref]. eexists _, _, _, _. split; [reflexivity|]. split; [done|].
  assert (Hr : reader_ok c (with_state (with_packet r (pos r) None) WAIT_START (pos r))).
  { split; [done|done|simpl; rewrite Hn; apply u32_range|done|done|split; done]. }
  split_and!; done.
Qed.

Lemma result_ok_later seq total data n res :
  0 <= n <= zlen data ->
  result_ok seq (total + n) (drop (Z.to_nat n) data) res -> result_ok seq total data res.
Proof.
  intros Hn (r&c&t&e&->&Ht&He). destruct (zlen_take_drop n data Hn) as [_ Hd].
  exists r, c, t, e. split; [done|]. split; [lia|]. destruct e as [[]|]; [done|done|].
  destruct He. split; [lia|done].
Qed.

(** A [READ] of [n] octets into a buffer that has room for them. *)
Lemma READ_ok n data r dst :
  0 <= n <= zlen data -> 0 <= pos r -> pos r + n <= zlen dst -> bytes_ok data -> bytes_ok dst ->
  exists d, READ n data r dst = Done (d, drop (Z.to_nat n) data) /\ zlen d = zlen dst /\ bytes_ok d
  /\ take (Z.to_nat (pos r)) d = take (Z.to_nat (pos r)) dst
  /\ take (Z.to_nat (pos r + n)) d = take (Z.to_nat (pos r)) dst ++ take (Z.to_nat n) data.
Proof.
  intros Hn Hp Hd Hb Hbd. destruct (zlen_take_drop n data Hn) as [Ht _].
  destruct (memcpy_to_ok (pos r) (take (Z.to_nat n) data) dst) as (d&E&Hl&Hok&Hpre&Hsl&_);
    [done|lia|by apply Forall_take|done|].
  exists d. unfold READ. rewrite E. split_and!; try done.
  rewrite <- Hpre, <- Hsl, Ht. unfold slice. rewrite take_take_drop. f_equal. lia.
Qed.

Lemma dead_mac c r m :
  state r = WAIT_MAC -> rec_mac c = Some m -> pos r = mac_size -> dead c r.
Proof.
  intros Hs Hm Hp total data. unfold read_switch, wait_mac. by rewrite Hs, Hm, Hp, Z.sub_diag.
Qed.

Lemma dead_header c r :
  state r = WAIT_HEADER -> pos r = crypto_block_size (rec_crypto c) -> dead c r.
Proof.
  intros Hs Hp total data. unfold read_switch, wait_header. by rewrite Hs, Hp, Z.sub_diag.
Qed.

Lemma wait_mac_ok c r packet seq total data :
  usable_opt (rec_crypto c) -> 0 <= rec_max_packet c /\ limit c + 64 < 2 ^ 32 ->
  packet_ok c r packet seq -> absorbed_opt (rec_mac c) (covered seq packet) ->
  0 <= pos r < mac_size -> state r = WAIT_MAC -> bytes_ok data ->
  (forall b, block_buffer r = Some b -> bytes_ok b) ->
  (forall b, mac_buffer r = Some b -> bytes_ok b) ->
  result_ok seq total data (wait_mac r c total data).
Proof.
  intros Hk Hlim Hp Ha Hpos Hs Hd Hblk Hmac. pose proof Hp as (Hpb&Hb&Hl&Hq&Hn&Hmb).
  pose proof (zlen_nonneg data). unfold wait_mac. unfold mac_buffer_ok in Hmb.
  destruct (rec_mac c) as [m|] eqn:Em.
  - pose proof mac_size_pos. destruct Hmb as (b&Eb&Hbl&Hbb).
    rewrite u32_small by lia. unfold assert_that. rewrite (proj2 (Z.eqb_neq _ _)) by lia.
    rewrite Eb. cbn [negb mbind outcome_bind deref].
    destruct (Z.ltb_spec (zlen data) (mac_size - pos r)) as [Hlt|Hge].
    + destruct (READ_ok (zlen data) data r b) as (d&E&Hdl&Hdo&_); [lia|lia|lia|done|done|].
      rewrite E. cbn [mbind outcome_bind]. eexists _, _, _, None. split; [reflexivity|]. split; [lia|].
      split; [done|]. rewrite u32_small by lia. split; simpl; try done.
      * rewrite Hn. apply u32_range.
      * intros ? [= <-]. done.
      * unfold waiting. simpl. rewrite Hs. exists packet, seq. split; [|split; [by rewrite Em|split; [lia|by rewrite Em]]].
        split_and!; try (done || lia). unfold mac_buffer_ok. rewrite Em. exists d. simpl. split_and!; (done || lia).
    + destruct (READ_ok (mac_size - pos r) data r b) as (d&E&Hdl&Hdo&_); [lia|lia|lia|done|done|].
      rewrite E. cbn [mbind outcome_bind].
      destruct (absorbed_digest _ _ _ Ha) as (m'&->&Ha'). cbn [mbind outcome_bind].
      replace (u32 (pos r + (mac_size - pos r))) with mac_size by (rewrite u32_small; lia).
      destruct (bool_decide_reflect (tag (covered seq packet) = take (Z.to_nat mac_size) d)) as [Et|Et].
      * apply (send_packet_on_ok _ _ _ _ _ _ packet); simpl; try done; [|by intros ? [= <-]| |lia].
        -- split_and!; try (done || lia). unfold mac_buffer_ok. simpl. exists d. split_and!; (done || lia).
        -- intros _. by exists d.
      * eexists _, _, _, (Some (Raise _)). split; [reflexivity|]. split; [lia|].
        by apply (dead_mac _ _ m').
  - apply (send_packet_on_ok _ _ _ _ _ _ packet); try done; [by rewrite Em| |lia].
    intros [? ?]. congruence.
Qed.

(** Decrypting whole blocks, or copying them when there is no cipher. *)
Lemma crypt_opt_total k text :
  usable_opt k -> bytes_ok text -> zlen text mod crypto_block_size k = 0 ->
  exists k' text', match k with
      | Some k => '(k, text) ← crypt k text; Done (Some k, text)
      | None => Done (None, text)
      end = Done (k', text')
  /\ usable_opt k' /\ bytes_ok text' /\ zlen text' = zlen text
  /\ crypto_block_size k' = crypto_block_size k.
Proof.
  intros Hk Ht Hm. destruct k as [k|]; [|by exists None, text].
  destruct (crypt_total k text Hk Ht Hm) as (k'&x&E&Hk'&Hx). exists (Some k'), x.
  rewrite E. split_and!; try done. by apply (crypt_length k text k').
Qed.

Lemma mac_opt_update m l d :
  absorbed_opt m l ->
  exists m', match m with Some m => m ← mac_update m d; Done (Some m) | None => Done None end = Done m'
  /\ absorbed_opt m' (l ++ d) /\ (is_Some m' <-> is_Some m).
Proof.
  intros Ha. destruct m as [m|]; [|by exists None].
  destruct (absorbed_update _ _ _ d Ha) as (m'&->&Ha'). exists (Some m'). split_and!; [done|done|].
  split; eauto.
Qed.

Lemma mac_buffer_ok_ext c c' r r' :
  (is_Some (rec_mac c') <-> is_Some (rec_mac c)) -> mac_buffer r' = mac_buffer r ->
  mac_buffer_ok c r -> mac_buffer_ok c' r'.
Proof.
  unfold mac_buffer_ok. intros Hm ->. destruct (rec_mac c') as [m|]; [|done].
  destruct (proj1 Hm) as [x ->]; [by eexists|done].
Qed.

(** Overwriting the tail of a buffer. *)
Lemma memcpy_tail off text d :
  0 <= off -> off + zlen text = zlen d -> memcpy_to off text d = Done (take (Z.to_nat off) d ++ text).
Proof.
  intros Ho Hl. unfold memcpy_to.
  rewrite (proj2 (Z.leb_le 0 off)), (proj2 (Z.leb_le _ (zlen d))) by lia. simpl. do 2 f_equal.
  rewrite drop_ge, app_nil_r; [done|]. unfold zlen in *. lia.
Qed.

Lemma wait_contents_ok c r packet seq total data :
  usable_opt (rec_crypto c) -> 0 <= rec_max_packet c /\ limit c + 64 < 2 ^ 32 ->
  packet_ok c r packet seq -> 0 <= crypt_pos r <= pos r -> pos r < zlen packet ->
  (zlen packet - crypt_pos r) mod crypto_block_size (rec_crypto c) = 0 ->
  absorbed_opt (rec_mac c)
    (WRITE_UINT32 seq ++ WRITE_UINT32 (zlen packet) ++ take (Z.to_nat (crypt_pos r)) packet) ->
  state r = WAIT_CONTENTS -> bytes_ok data ->
  (forall b, block_buffer r = Some b -> bytes_ok b) ->
  (forall b, mac_buffer r = Some b -> bytes_ok b) ->
  result_ok seq total data (wait_contents r c total data).
Proof.
  intros Hk Hlim Hp Hcp Hpos Hm Ha Hs Hd Hblk Hmac. pose proof Hp as (Hpb&Hb&Hl&Hq&Hn&Hmb).
  pose proof (zlen_nonneg data). unfold wait_contents. rewrite Hpb. cbn [deref mbind outcome_bind].
  rewrite u32_small by lia. unfold assert_that. rewrite (proj2 (Z.eqb_neq _ _)) by lia.
  cbn [negb mbind outcome_bind].
  destruct (Z.ltb_spec (zlen data) (zlen packet - pos r)) as [Hlt|Hge].
  - destruct (READ_ok (zlen data) data r packet) as (d&E&Hdl&Hdo&Hdt&_); [lia|lia|lia|done|done|].
    rewrite E. cbn [mbind outcome_bind]. eexists _, _, _, None. split; [reflexivity|]. split; [lia|].
    split; [done|]. rewrite u32_small by lia. split; simpl; try done.
    + rewrite Hn. apply u32_range.
    + unfold waiting. simpl. rewrite Hs. exists d, seq. rewrite Hdl.
      split; [by split_and!; try lia|]. split; [lia|]. split; [lia|]. split; [done|].
      replace (take (Z.to_nat (crypt_pos r)) d) with (take (Z.to_nat (crypt_pos r)) packet); [done|].
      rewrite <- (Nat.min_l (Z.to_nat (crypt_pos r)) (Z.to_nat (pos r))), <- !take_take by lia.
      by rewrite Hdt.
  - destruct (READ_ok (zlen packet - pos r) data r packet) as (d&E&Hdl&Hdo&Hdt&_); [lia|lia|lia|done|done|].
    rewrite E. cbn [mbind outcome_bind with_packet crypt_pos pos].
    destruct (zlen_take_drop (crypt_pos r) d ltac:(lia)) as [Htl Hdrl].
    destruct (crypt_opt_total (rec_crypto c) (drop (Z.to_nat (crypt_pos r)) d)) as (k'&x&->&Hk'&Hx&Hxl&Hbs);
      [done|by apply Forall_drop|by rewrite Hdrl, Hdl|].
    cbn [mbind outcome_bind]. rewrite memcpy_tail by lia. cbn [mbind outcome_bind].
    destruct (mac_opt_update (rec_mac c) _ x Ha) as (m'&->&Ha'&Hmm). cbn [mbind outcome_bind].
    assert (Hpre : take (Z.to_nat (crypt_pos r)) d = take (Z.to_nat (crypt_pos r)) packet).
    { rewrite <- (Nat.min_l (Z.to_nat (crypt_pos r)) (Z.to_nat (pos r))), <- !take_take by lia.
      by rewrite Hdt. }
    assert (Hnl : zlen (take (Z.to_nat (crypt_pos r)) d ++ x) = zlen packet) by (rewrite zlen_app; lia).
    pose proof mac_size_pos.
    apply (result_ok_later _ _ _ (zlen packet - pos r)); [lia|].
    apply (wait_mac_ok _ _ (take (Z.to_nat (crypt_pos r)) d ++ x)); simpl; try done.
    + split; [done|]. split; [apply Forall_app_2; [by apply Forall_take|done]|].
      split; [by rewrite Hnl|]. split; [done|]. split; [done|]. by apply (mac_buffer_ok_ext c _ r).
    + unfold covered. rewrite Hnl, Hpre. by rewrite <- !app_assoc in Ha'.
    + lia.
    + by apply Forall_drop.
Qed.

Lemma take_split_4 n (l : bytes) : (4 <= n)%nat -> take n l = take 4 l ++ take (n - 4) (drop 4 l).
Proof.
  intros Hn. rewrite <- (take_drop 4 l) at 1. rewrite take_app.
  destruct (decide (4 <= length l)%nat).
  - rewrite (take_ge (take 4 l)), length_take by (rewrite length_take; lia). f_equal. f_equal. lia.
  - rewrite (take_ge (take 4 l)) by (rewrite length_take; lia). by rewrite !(drop_ge l 4), !take_nil by lia.
Qed.

Lemma accept_header_ok c r block total data :
  let bs := crypto_block_size (rec_crypto c) in
  let len := READ_UINT32 block in
  usable_opt (rec_crypto c) -> 0 <= rec_max_packet c /\ limit c + 64 < 2 ^ 32 ->
  0 <= sequence_number r < 2 ^ 32 -> packet_buffer r = None -> absorbed_opt (rec_mac c) [] ->
  mac_buffer_ok c r -> bytes_ok block -> bs <= zlen block -> WRITE_UINT32 len = take 4 block ->
  bs - 4 <= len -> len <= limit c -> (len + 4) mod bs = 0 -> bytes_ok data ->
  (forall b, block_buffer r = Some b -> bytes_ok b) ->
  (forall b, mac_buffer r = Some b -> bytes_ok b) ->
  result_ok (sequence_number r) total data (accept_header r c total block data).
Proof.
  intros bs len Hk Hlim Hseq Hpn Ha Hmb Hb Hbl Hw Hmin Hmax Hmod Hd Hblk Hmac.
  pose proof (crypto_block_size_bounds (rec_crypto c)) as [Hbs _]. fold bs in Hbs.
  pose proof (zlen_nonneg data). pose proof mac_size_pos.
  unfold accept_header. fold bs. fold len.
  assert (exists m', match rec_mac c with
          | Some m => m ← mac_update m (WRITE_UINT32 (sequence_number r));
                      m ← mac_update m (take (Z.to_nat bs) block); Done (Some m)
          | None => Done None end = Done m'
    /\ absorbed_opt m' (WRITE_UINT32 (sequence_number r) ++ WRITE_UINT32 len ++ take (Z.to_nat (bs - 4)) (drop 4 block))
    /\ (is_Some m' <-> is_Some (rec_mac c))) as (m'&->&Ha'&Hmm).
  { destruct (rec_mac c) as [m|]; [|by exists None].
    destruct (absorbed_update _ _ _ (WRITE_UINT32 (sequence_number r)) Ha) as (m1&->&Ha1).
    destruct (absorbed_update _ _ _ (take (Z.to_nat bs) block) Ha1) as (m2&E&Ha2).
    cbn [mbind outcome_bind]. rewrite E. exists (Some m2). split; [done|]. split; [|by split; eauto].
    rewrite take_split_4, <- Hw in Ha2 by lia.
    replace (Z.to_nat bs - 4)%nat with (Z.to_nat (bs - 4)) in Ha2 by lia. done. }
  cbn [mbind outcome_bind]. unfold assert_that. rewrite bool_decide_eq_true_2 by done. cbn [mbind outcome_bind].
  destruct (zlen_take_drop 4 block ltac:(lia)) as [_ Hd4]. change (Z.to_nat 4) with 4%nat in Hd4.
  rewrite format_first_block by (unfold limit, SSH_MAX_PACKET_FUZZ, SSH_MAX_PACKET in *; lia). cbn [mbind outcome_bind pointer].
  set (first := take (Z.to_nat (bs - 4)) (drop 4 block)).
  assert (Hf : zlen first = bs - 4).
  { unfold first. destruct (zlen_take_drop (bs - 4) (drop 4 block) ltac:(lia)) as [E _]. done. }
  assert (Hfb : bytes_ok first) by by apply Forall_take, Forall_drop.
  replace ((fun o : option Z => match o with Some b => b | None => garbage end) <$> octets first ++ reserved (len - (bs - 4)))
    with (first ++ lsh_string_alloc (len - (bs - 4))).
  2: { rewrite fmap_app. unfold octets, reserved, lsh_string_alloc. rewrite fmap_replicate.
       rewrite <- list_fmap_compose. f_equal. by rewrite list_fmap_id. }
  set (packet := first ++ lsh_string_alloc (len - (bs - 4))).
  assert (Hpl : zlen packet = len).
  { unfold packet. rewrite zlen_app, Hf. unfold lsh_string_alloc. rewrite zlen_replicate. lia. }
  assert (Hpb : bytes_ok packet).
  { apply Forall_app_2; [done|]. by apply Forall_replicate. }
  assert (Hpre : take (Z.to_nat (bs - 4)) packet = first).
  { apply take_app_length'. unfold zlen in Hf. lia. }
  assert (Hpok : forall r', packet_buffer r' = Some (packet, sequence_number r) ->
    sequence_number r' = u32 (sequence_number r + 1) -> mac_buffer r' = mac_buffer r ->
    packet_ok (set_rec c (rec_crypto c) m') r' packet (sequence_number r)).
  { intros r' E1 E2 E3. split; [done|]. split; [done|]. split; [by rewrite Hpl|].
    split; [done|]. split; [done|]. by apply (mac_buffer_ok_ext c _ r). }
  destruct (Z.eqb_spec (bs - 4) len) as [Heq|Hneq].
  - assert (Hpf : packet = first).
    { rewrite <- Hpre. rewrite take_ge; [done|]. unfold zlen in Hpl. lia. }
    apply (wait_mac_ok _ _ packet); simpl; try done; try lia; [by apply Hpok|].
    unfold covered. by rewrite Hpl, Hpf.
  - apply (wait_contents_ok _ _ packet); simpl; try done; try lia.
    + by apply Hpok.
    + fold bs. rewrite Hpl. replace (len - (bs - 4)) with (len + 4 + (-1) * bs) by lia.
      rewrite Z.mod_add by lia. done.
    + by rewrite Hpl, Hpre.
Qed.

(** The first block is read; what the header of a packet leads to. *)
Lemma wait_header_ok c r total data :
  reader_ok c r -> state r = WAIT_HEADER -> bytes_ok data ->
  result_ok (sequence_number r) total data (wait_header r c total data).
Proof.
  intros [Hk Hlim Hseq Hblk Hmac Hw] Hs Hd. unfold waiting in Hw. rewrite Hs in Hw.
  destruct Hw as (Hpn&Ha&Hmb&Hpos&b&Eb&Hbl). pose proof (Hblk b Eb) as Hbb.
  pose proof (zlen_nonneg data). pose proof (crypto_block_size_bounds (rec_crypto c)) as [Hbs _].
  set (bs := crypto_block_size (rec_crypto c)) in *. unfold wait_header. fold bs.
  rewrite u32_small by lia. unfold assert_that. rewrite (proj2 (Z.eqb_neq _ _)) by lia.
  rewrite Eb. cbn [negb mbind outcome_bind deref].
  destruct (Z.ltb_spec (zlen data) (bs - pos r)) as [Hlt|Hge].
  { destruct (READ_ok (zlen data) data r b) as (d&E&Hdl&Hdo&Hdt&_); [lia|lia|lia|done|done|].
    rewrite E. cbn [mbind outcome_bind]. eexists _, _, _, None. split; [reflexivity|]. split; [lia|].
    split; [done|]. rewrite u32_small by lia. split; simpl; try done; [by intros ? [= <-]|].
    unfold waiting. simpl. rewrite Hs. split; [done|]. split; [done|]. split; [done|].
    fold bs. split; [lia|]. exists d. split; [done|lia]. }
  destruct (READ_ok (bs - pos r) data r b) as (d&E&Hdl&Hdo&_); [lia|lia|lia|done|done|].
  rewrite E. cbn [mbind outcome_bind].
  destruct (zlen_take_drop bs d ltac:(lia)) as [Hdt Hdd].
  assert (exists k' t, match rec_crypto c with
      | Some k => '(k, text) ← crypt k (take (Z.to_nat bs) d); block ← memcpy_to 0 text d; Done (Some k, block)
      | None => Done (None, d)
      end = Done (k', t) /\ usable_opt k' /\ bytes_ok t /\ zlen t = zlen d /\ crypto_block_size k' = bs)
    as (k'&t&->&Hk'&Ht&Htl&Hbs').
  { unfold bs in *. destruct (rec_crypto c) as [k|]; [|by exists None, d].
    destruct (crypt_total k (take (Z.to_nat block_size) d) Hk) as (k'&x&E'&Hk'&Hx).
    - by apply Forall_take.
    - simpl in Hdt. rewrite Hdt. apply Z.mod_same. simpl in Hbs. lia.
    - simpl in *. rewrite E'. cbn [mbind outcome_bind]. pose proof (crypt_length _ _ _ _ E') as Hxl.
      destruct (memcpy_to_ok 0 x d) as (t&->&Htl&Hto&_); [lia|lia|done|done|].
      by exists (Some k'), t. }
  cbn [mbind outcome_bind]. replace (u32 (pos r + (bs - pos r))) with bs by (rewrite u32_small; lia).
  set (r1 := with_block r bs t). set (c1 := set_rec c k' (rec_mac c)).
  set (length := READ_UINT32 t).
  change (rec_max_packet c1 + SSH_MAX_PACKET_FUZZ) with (limit c).
  assert (Hlen : 0 <= length < 2 ^ 32 /\ WRITE_UINT32 length = take 4 t).
  { split; [|apply WRITE_READ_UINT32; [done|lia]]. unfold length.
    rewrite <- (take_drop 4 t). destruct (zlen_take_drop 4 t ltac:(lia)) as [H4 _].
    rewrite READ_UINT32_be_val by (try done; by apply Forall_take).
    pose proof (be_val_range (take 4 t) ltac:(by apply Forall_take)) as Hr.
    change (Z.to_nat 4) with 4%nat in H4. rewrite H4 in Hr. lia. }
  destruct Hlen as [Hlen Hwl]. rewrite (u32_small (limit c)) by (unfold limit, SSH_MAX_PACKET_FUZZ, SSH_MAX_PACKET in *; lia).
  destruct (Z.ltb_spec (limit c) length) as [Hbig|Hlim'].
  { eexists _, _, _, (Some (Raise _)). split; [reflexivity|]. split; [lia|]. by apply dead_header. }
  destruct ((length <? 12) || (length <? bs - 4) || negb (u32 (length + 4) mod bs =? 0)) eqn:Ebad.
  { eexists _, _, _, (Some (Raise _)). split; [reflexivity|]. split; [lia|]. by apply dead_header. }
  apply orb_false_iff in Ebad as [Ebad Hmod]. apply orb_false_iff in Ebad as [H12 Hmin].
  apply Z.ltb_ge in H12, Hmin. apply negb_false_iff, Z.eqb_eq in Hmod.
  rewrite u32_small in Hmod by (unfold limit, SSH_MAX_PACKET_FUZZ, SSH_MAX_PACKET in *; lia).
  apply (result_ok_later _ _ _ (bs - pos r)); [lia|].
  apply (accept_header_ok c1 r1 t); try done; simpl; rewrite ?Hbs'; try (done || lia).
  - by apply Forall_drop.
  - by intros ? [= <-].
Qed.

Lemma wait_start_ok c r :
  reader_ok c r -> state r = WAIT_START ->
  reader_ok c (wait_start r c) /\ state (wait_start r c) = WAIT_HEADER
  /\ sequence_number (wait_start r c) = sequence_number r.
Proof.
  intros [Hk Hlim Hseq Hblk Hmac Hw] Hs. unfold waiting in Hw. rewrite Hs in Hw. destruct Hw as [Hp Ha].
  pose proof (crypto_block_size_bounds (rec_crypto c)) as [Hbs _]. pose proof mac_size_pos.
  destruct (lsh_string_realloc_ok (block_buffer r) (crypto_block_size (rec_crypto c)) ltac:(lia) Hblk) as [Hl Hb].
  assert (Hms : 0 <= mac_size) by lia.
  destruct (lsh_string_realloc_ok (mac_buffer r) _ Hms Hmac) as [Hml Hmb].
  unfold wait_start, mac_buffer_ok in *. split; [|by destruct (rec_mac c)].
  split; try done.
  - by destruct (rec_mac c).
  - by destruct (rec_mac c); intros ? [= <-].
  - destruct (rec_mac c); simpl; [by intros ? [= <-]|done].
  - unfold waiting, mac_buffer_ok. destruct (rec_mac c); simpl; split_and!; try (done || lia); eauto.
Qed.

(** The number of the packet being received. *)
Definition current (r : read_packet) : Z :=
  match packet_buffer r with Some (_, n) => n | None => sequence_number r end.

Lemma read_switch_ok c r total data :
  reader_ok c r -> bytes_ok data -> result_ok (current r) total data (read_switch r c total data).
Proof.
  intros Hr Hd. unfold read_switch, current. pose proof Hr as [Hk Hlim Hseq Hblk Hmac Hw].
  destruct (state r) eqn:Es.
  - destruct (wait_start_ok c r Hr Es) as (Hr'&Hs'&<-). unfold waiting in Hw. rewrite Es in Hw.
    destruct Hw as [-> _]. by apply wait_header_ok.
  - unfold waiting in Hw. rewrite Es in Hw. destruct Hw as [-> _]. by apply wait_header_ok.
  - unfold waiting in Hw. rewrite Es in Hw. destruct Hw as (p&q&Hp&Hc&Hl&Hm&Ha).
    pose proof Hp as (->&_). by apply (wait_contents_ok c r p).
  - unfold waiting in Hw. rewrite Es in Hw. destruct Hw as (p&q&Hp&Ha&Hl&_).
    pose proof Hp as (->&_). by apply (wait_mac_ok c r p).
Qed.

(** ** The reader does not see how its input was cut *)

Lemma READ_more n d1 d2 r dst b rest :
  0 <= n <= zlen d1 -> READ n d1 r dst = Done (b, rest) -> READ n (d1 ++ d2) r dst = Done (b, rest ++ d2).
Proof.
  unfold READ. intros Hn E. rewrite take_app_le, drop_app_le by (unfold zlen in Hn; lia).
  destruct (memcpy_to _ _ _); [|done..]. cbn [mbind outcome_bind] in *. by injection E as -> <-.
Qed.

Lemma READ_rest n d1 d2 r r' dst b x :
  0 <= pos r -> zlen d1 <= n -> READ (zlen d1) d1 r dst = Done (b, x) -> pos r' = pos r + zlen d1 ->
  READ n (d1 ++ d2) r dst = READ (n - zlen d1) d2 r' b.
Proof.
  unfold READ. intros Hp Hn E Hr. pose proof (zlen_nonneg d1).
  assert (Hl : (length d1 <= Z.to_nat n)%nat) by (unfold zlen in *; lia).
  rewrite (take_app_ge d1), (drop_app_ge d1), memcpy_to_app by done.
  assert (Ht : take (Z.to_nat (zlen d1)) d1 = d1) by (apply take_ge; unfold zlen; lia).
  rewrite Ht in E. destruct (memcpy_to (pos r) d1 dst) as [d| |]; try done.
  cbn [mbind outcome_bind] in *. injection E as -> _. rewrite Hr.
  replace (Z.to_nat (n - zlen d1)) with (Z.to_nat n - length d1)%nat by (unfold zlen; lia). done.
Qed.

(** What the result on the first piece says about the whole. *)
Definition continues (d2 : bytes) (first whole : outcome result) : Prop :=
  forall r c t e, first = Done (r, c, t, e) ->
  whole = match e with Some _ => Done (r, c, t, e) | None => read_switch r c t d2 end.

Lemma wait_mac_split c r total d1 d2 :
  0 <= pos r < mac_size -> state r = WAIT_MAC ->
  continues d2 (wait_mac r c total d1) (wait_mac r c total (d1 ++ d2)).
Proof.
  intros Hpos Hs r1 c1 t1 e. pose proof mac_size_pos. pose proof (zlen_nonneg d1). pose proof (zlen_nonneg d2).
  unfold wait_mac. destruct (rec_mac c) as [m|] eqn:Em.
  - rewrite u32_small by lia. unfold assert_that. rewrite (proj2 (Z.eqb_neq _ _)) by lia.
    cbn [negb mbind outcome_bind]. destruct (mac_buffer r) as [b|]; [|done]. cbn [deref mbind outcome_bind].
    rewrite zlen_app. destruct (Z.ltb_spec (zlen d1) (mac_size - pos r)) as [Hlt|Hge].
    + destruct (READ (zlen d1) d1 r b) as [[b1 x]| |] eqn:E1; try done. cbn [mbind outcome_bind].
      intros [= <- <- <- <-]. rewrite (u32_small (pos r + zlen d1)) by lia.
      set (r1' := with_mac r (pos r + zlen d1) b1).
      unfold read_switch, wait_mac. change (state r1') with (state r). rewrite Hs, Em.
      change (pos r1') with (pos r + zlen d1). rewrite (u32_small (mac_size - _)) by lia.
      rewrite (proj2 (Z.eqb_neq _ _)) by lia. cbn [negb assert_that mbind outcome_bind deref mac_buffer r1' with_mac].
      assert (Hr1 : pos r1' = pos r + zlen d1) by reflexivity.
      rewrite (READ_rest (zlen d1 + zlen d2) d1 d2 r r1' b b1 x) by (exact E1 || exact Hr1 || lia).
      rewrite (READ_rest (mac_size - pos r) d1 d2 r r1' b b1 x) by (done || lia).
      replace (zlen d1 + zlen d2 - zlen d1) with (zlen d2) by lia.
      replace (mac_size - pos r - zlen d1) with (mac_size - (pos r + zlen d1)) by lia.
      destruct (Z.ltb_spec (zlen d1 + zlen d2) (mac_size - pos r)), (Z.ltb_spec (zlen d2) (mac_size - (pos r + zlen d1)));
        try lia.
      * destruct (READ (zlen d2) d2 r1' b1) as [[b2 y]| |]; try done. cbn [mbind outcome_bind].
        by rewrite !Z.add_assoc.
      * destruct (READ (mac_size - (pos r + zlen d1)) d2 r1' b1) as [[b2 y]| |]; try done. cbn [mbind outcome_bind].
        replace (pos r + zlen d1 + (mac_size - (pos r + zlen d1))) with (pos r + (mac_size - pos r)) by lia.
        replace (total + zlen d1 + (mac_size - (pos r + zlen d1))) with (total + (mac_size - pos r)) by lia.
        done.
    + rewrite (proj2 (Z.ltb_ge _ _)) by lia. intros E.
      destruct (READ (mac_size - pos r) d1 r b) as [[b1 x]| |] eqn:E1; try done.
      rewrite (READ_more _ d1 d2 r b b1 x) by (done || lia). cbn [mbind outcome_bind] in *.
      destruct (mac_digest m) as [[m' d]| |]; try done. cbn [mbind outcome_bind] in *.
      destruct (bool_decide _); [|by injection E as <- <- <- <-].
      unfold send_packet_on in *. destruct (deref _) as [[p q]| |]; try done. cbn [mbind outcome_bind] in *.
      by injection E as <- <- <- <-.
  - unfold send_packet_on. destruct (deref _) as [[p q]| |]; try done. cbn [mbind outcome_bind].
    by intros [= <- <- <- <-].
Qed.

Lemma wait_contents_split c r total d1 d2 packet seq :
  packet_buffer r = Some (packet, seq) -> 0 <= pos r < zlen packet -> zlen packet < 2 ^ 32 ->
  state r = WAIT_CONTENTS ->
  continues d2 (wait_contents r c total d1) (wait_contents r c total (d1 ++ d2)).
Proof.
  intros Hpb Hpos Hmax Hs r1 c1 t1 e. pose proof mac_size_pos. pose proof (zlen_nonneg d1). pose proof (zlen_nonneg d2).
  unfold wait_contents. rewrite Hpb. cbn [deref mbind outcome_bind].
  rewrite u32_small by lia. unfold assert_that. rewrite (proj2 (Z.eqb_neq _ _)) by lia.
  cbn [negb mbind outcome_bind]. rewrite zlen_app.
  destruct (Z.ltb_spec (zlen d1) (zlen packet - pos r)) as [Hlt|Hge].
  - destruct (READ (zlen d1) d1 r packet) as [[b1 x]| |] eqn:E1; try done. cbn [mbind outcome_bind].
    assert (Hb1 : zlen b1 = zlen packet).
    { unfold READ in E1. apply outcome_bind_Done in E1 as (b'&E'&[= -> _]).
      unfold memcpy_to in E'. destruct (_ && _) eqn:Ec; [|done]. injection E' as <-.
      apply andb_true_iff in Ec as [_ Ec]. apply Z.leb_le in Ec. unfold zlen in *.
      rewrite !length_app, length_take, length_drop, length_take in *. lia. }
    intros [= <- <- <- <-]. rewrite (u32_small (pos r + zlen d1)) by lia.
    set (r1' := with_packet r (pos r + zlen d1) (Some (b1, seq))).
    unfold read_switch, wait_contents. change (state r1') with (state r). rewrite Hs.
    cbn [deref mbind outcome_bind packet_buffer with_packet r1'].
    change (pos r1') with (pos r + zlen d1). rewrite Hb1, (u32_small (zlen packet - _)) by lia.
    unfold assert_that. rewrite (proj2 (Z.eqb_neq _ _)) by lia. cbn [negb mbind outcome_bind].
    rewrite (READ_rest _ d1 d2 r r1' packet b1 x) by (done || lia).
    rewrite (READ_rest (zlen packet - pos r) d1 d2 r r1' packet b1 x) by (done || lia).
    replace (zlen d1 + zlen d2 - zlen d1) with (zlen d2) by lia.
    replace (zlen packet - pos r - zlen d1) with (zlen packet - (pos r + zlen d1)) by lia.
    destruct (Z.ltb_spec (zlen d1 + zlen d2) (zlen packet - pos r)),
      (Z.ltb_spec (zlen d2) (zlen packet - (pos r + zlen d1))); try lia.
    + destruct (READ (zlen d2) d2 r1' b1) as [[b2 y]| |]; try done. cbn [mbind outcome_bind].
      by rewrite !Z.add_assoc.
    + destruct (READ (zlen packet - (pos r + zlen d1)) d2 r1' b1) as [[b2 y]| |]; try done.
      cbn [mbind outcome_bind].
      replace (pos r + zlen d1 + (zlen packet - (pos r + zlen d1))) with (pos r + (zlen packet - pos r)) by lia.
      replace (total + zlen d1 + (zlen packet - (pos r + zlen d1))) with (total + (zlen packet - pos r)) by lia.
      done.
  - rewrite (proj2 (Z.ltb_ge _ _)) by lia. intros E.
    destruct (READ (zlen packet - pos r) d1 r packet) as [[b1 x]| |] eqn:E1; try done.
    rewrite (READ_more _ d1 d2 r packet b1 x) by (done || lia). cbn [mbind outcome_bind] in *.
    destruct (match rec_crypto c with Some k => _ | None => _ end) as [[k' t]| |]; try done.
    cbn [mbind outcome_bind] in *. destruct (memcpy_to _ t b1) as [b2| |]; try done. cbn [mbind outcome_bind] in *.
    destruct (match rec_mac c with Some k => _ | None => _ end) as [m'| |]; try done. cbn [mbind outcome_bind] in *.
    revert E. apply wait_mac_split; [simpl; lia|done].
Qed.

Lemma accept_header_split c r total block d1 d2 :
  let bs := crypto_block_size (rec_crypto c) in
  bs <= zlen block -> bs - 4 <= READ_UINT32 block < 2 ^ 32 ->
  continues d2 (accept_header r c total block d1) (accept_header r c total block (d1 ++ d2)).
Proof.
  intros bs Hb Hlen r1 c1 t1 e. unfold accept_header. fold bs.
  pose proof (crypto_block_size_bounds (rec_crypto c)) as [Hbs _]. fold bs in Hbs. pose proof mac_size_pos.
  set (len := READ_UINT32 block) in *.
  destruct (match rec_mac c with Some m => _ | None => _ end) as [m'| |]; try done.
  cbn [mbind outcome_bind]. destruct (assert_that _); try done. cbn [mbind outcome_bind].
  destruct (zlen_take_drop 4 block ltac:(lia)) as [_ Hd4]. change (Z.to_nat 4) with 4%nat in Hd4.
  rewrite format_first_block by lia. cbn [mbind outcome_bind pointer].
  set (packet := _ <$> _).
  assert (Hpl : zlen packet = len).
  { unfold packet. rewrite zlen_fmap, zlen_app, zlen_octets, zlen_reserved by lia.
    destruct (zlen_take_drop (bs - 4) (drop 4 block) ltac:(lia)) as [-> _]. lia. }
  destruct (Z.eqb_spec (bs - 4) len).
  - apply wait_mac_split; [simpl; lia|done].
  - eapply (wait_contents_split _ _ _ _ _ packet); simpl; done || lia.
Qed.

Lemma wait_header_split c r total d1 d2 :
  reader_ok c r -> state r = WAIT_HEADER -> bytes_ok (d1 ++ d2) ->
  continues d2 (wait_header r c total d1) (wait_header r c total (d1 ++ d2)).
Proof.
  intros [Hk Hlim Hseq Hblk Hmac Hw] Hs Hd r1 c1 t1 e. unfold waiting in Hw. rewrite Hs in Hw.
  destruct Hw as (Hpn&Ha&Hmb&Hpos&b&Eb&Hbl). apply Forall_app in Hd as [Hd1 Hd2].
  pose proof (zlen_nonneg d1). pose proof (zlen_nonneg d2).
  pose proof (crypto_block_size_bounds (rec_crypto c)) as [Hbs _].
  unfold wait_header. set (bs := crypto_block_size (rec_crypto c)) in *.
  rewrite u32_small by lia. unfold assert_that. rewrite (proj2 (Z.eqb_neq _ _)) by lia.
  rewrite Eb. cbn [negb mbind outcome_bind deref]. rewrite zlen_app.
  destruct (Z.ltb_spec (zlen d1) (bs - pos r)) as [Hlt|Hge].
  - destruct (READ_ok (zlen d1) d1 r b) as (b1&E1&Hb1&_); [lia|lia|lia|done|by apply Hblk|].
    rewrite E1. cbn [mbind outcome_bind]. intros [= <- <- <- <-].
    rewrite (u32_small (pos r + zlen d1)) by lia. set (r1' := with_block r (pos r + zlen d1) b1).
    unfold read_switch, wait_header. change (state r1') with (state r). rewrite Hs. fold bs.
    change (pos r1') with (pos r + zlen d1). rewrite (u32_small (bs - _)) by lia.
    unfold assert_that. rewrite (proj2 (Z.eqb_neq _ _)) by lia.
    cbn [negb mbind outcome_bind deref block_buffer r1' with_block].
    rewrite (READ_rest (zlen d1 + zlen d2) d1 d2 r r1' b b1 (drop (Z.to_nat (zlen d1)) d1)) by (done || lia).
    rewrite (READ_rest (bs - pos r) d1 d2 r r1' b b1 (drop (Z.to_nat (zlen d1)) d1)) by (done || lia).
    replace (zlen d1 + zlen d2 - zlen d1) with (zlen d2) by lia.
    replace (bs - pos r - zlen d1) with (bs - (pos r + zlen d1)) by lia.
    replace (pos r + zlen d1 + (bs - (pos r + zlen d1))) with (pos r + (bs - pos r)) by lia.
    replace (total + zlen d1 + (bs - (pos r + zlen d1))) with (total + (bs - pos r)) by lia.
    destruct (Z.ltb_spec (zlen d1 + zlen d2) (bs - pos r)), (Z.ltb_spec (zlen d2) (bs - (pos r + zlen d1)));
      try lia; [|done].
    destruct (READ (zlen d2) d2 r1' b1) as [[b2 y]| |]; try done. cbn [mbind outcome_bind].
    by rewrite !Z.add_assoc.
  - rewrite (proj2 (Z.ltb_ge _ _)) by lia.
    destruct (READ_ok (bs - pos r) d1 r b) as (b1&E1&Hb1&Hb1o&_); [lia|lia|lia|done|by apply Hblk|].
    rewrite E1, (READ_more (bs - pos r) d1 d2 r b b1 (drop (Z.to_nat (bs - pos r)) d1)) by (exact E1 || lia).
    cbn [mbind outcome_bind].
    assert (Hx : forall k' t, match rec_crypto c with
      | Some k => '(k, text) ← crypt k (take (Z.to_nat bs) b1); block ← memcpy_to 0 text b1; Done (Some k, block)
      | None => Done (None, b1)
      end = Done (k', t) -> bs <= zlen t /\ crypto_block_size k' = bs /\ bytes_ok t).
    { destruct (zlen_take_drop bs b1 ltac:(lia)) as [Hdt _]. unfold bs in *.
      destruct (rec_crypto c) as [k|]; [|intros ? ? [= <- <-]; split; [lia|done]].
      destruct (crypt_total k (take (Z.to_nat block_size) b1) Hk) as (k'&x&E'&Hk'&Hx).
      - by apply Forall_take.
      - simpl in Hdt. rewrite Hdt. apply Z.mod_same. simpl in Hbs. lia.
      - intros k2 t. simpl in *. rewrite E'. cbn [mbind outcome_bind].
        pose proof (crypt_length _ _ _ _ E') as Hxl.
        destruct (memcpy_to_ok 0 x b1) as (t'&->&Htl&Hto&_); [lia|lia|done|done|].
        intros [= <- <-]. split_and!; [lia|done|done]. }
    destruct (match rec_crypto c with Some k => _ | None => _ end) as [[k' t]| |]; try done.
    destruct (Hx k' t eq_refl) as (Htl&Hk'&Hto). cbn [mbind outcome_bind].
    set (len := READ_UINT32 t). change (rec_max_packet _ + SSH_MAX_PACKET_FUZZ) with (limit c).
    destruct (u32 (limit c) <? len) eqn:El; [by intros [= <- <- <- <-]|].
    destruct ((len <? 12) || (len <? bs - 4) || _) eqn:Eb'; [by intros [= <- <- <- <-]|].
    apply Z.ltb_ge in El. apply orb_false_iff in Eb' as [Eb' _]. apply orb_false_iff in Eb' as [_ Hmin].
    apply Z.ltb_ge in Hmin. pose proof (u32_range (limit c)).
    apply accept_header_split; simpl; rewrite Hk'; fold len; lia.
Qed.

(** Cutting the input anywhere: the reader waits at the cut and goes on. *)
Lemma read_switch_split c r total d1 d2 :
  reader_ok c r -> bytes_ok (d1 ++ d2) ->
  continues d2 (read_switch r c total d1) (read_switch r c total (d1 ++ d2)).
Proof.
  intros Hr Hd. unfold read_switch. destruct (state r) eqn:Es.
  - destruct (wait_start_ok c r Hr Es) as (Hr'&Hs'&_). by apply wait_header_split.
  - by apply wait_header_split.
  - destruct Hr as [_ Hlim _ _ _ Hw]. unfold waiting in Hw. rewrite Es in Hw.
    destruct Hw as (p&q&(Hpb&_&Hpl&_)&Hc&Hl&_). apply (wait_contents_split _ _ _ _ _ p q); try done; lia.
  - destruct Hr as [_ _ _ _ _ Hw]. unfold waiting in Hw. rewrite Es in Hw.
    destruct Hw as (p&q&_&_&Hl&_). by apply wait_mac_split.
Qed.

(** ** Progress *)

Definition advances (lo total : Z) (res : outcome result) : Prop :=
  forall r c t e, res = Done (r, c, t, e) -> total + lo <= t.

Lemma advances_bind {A} lo total (m : outcome A) k :
  (forall a, advances lo total (k a)) -> advances lo total (m ≫= k).
Proof. intros Hk r c t e E. apply outcome_bind_Done in E as (a&_&E). by apply (Hk a r c t e). Qed.

Lemma advances_done lo total r c t e : total + lo <= t -> advances lo total (Done (r, c, t, e)).
Proof. intros Ht ? ? ? ? [= <- <- <- <-]. done. Qed.

Lemma advances_later lo n total res : lo <= n -> advances 0 (total + n) res -> advances lo total res.
Proof. intros Hn Ht r c t e E. specialize (Ht r c t e E). lia. Qed.

(** Step through a bind of [advances]. *)
Ltac advance := repeat match goal with
  | |- advances _ _ (Done _) => apply advances_done; lia
  | |- advances _ _ (mbind _ _) => apply advances_bind; intros
  | |- advances _ _ (if ?b then _ else _) => destruct b
  | |- advances _ _ (match ?p with pair _ _ => _ end) => destruct p
  end.

Lemma wait_mac_advances c r total data :
  advances 0 total (wait_mac r c total data)
  /\ (data <> [] -> is_Some (rec_mac c) -> advances 1 total (wait_mac r c total data)).
Proof.
  assert (Hd : data <> [] -> 1 <= zlen data).
  { destruct data; [done|]. intros _. rewrite zlen_cons. pose proof (zlen_nonneg data). lia. }
  pose proof (zlen_nonneg data). pose proof (u32_range (mac_size - pos r)).
  unfold wait_mac, send_packet_on. split.
  - destruct (rec_mac c); advance.
  - intros Hne [m ->]. intros r1 c1 t1 e E.
    apply outcome_bind_Done in E as (u&Ea&E). unfold assert_that in Ea.
    destruct (Z.eqb_spec (u32 (mac_size - pos r)) 0); [done|].
    revert E. apply (advances_bind 1 total). intros b.
    specialize (Hd Hne). advance.
Qed.

Lemma wait_contents_advances c r total data :
  advances 0 total (wait_contents r c total data)
  /\ (data <> [] -> advances 1 total (wait_contents r c total data)).
Proof.
  assert (Hd : data <> [] -> 1 <= zlen data).
  { destruct data; [done|]. intros _. rewrite zlen_cons. pose proof (zlen_nonneg data). lia. }
  pose proof (zlen_nonneg data). unfold wait_contents.
  assert (G : forall lo, lo <= 1 -> lo <= zlen data -> advances lo total (wait_contents r c total data)).
  { intros lo Hlo1 Hlo2. unfold wait_contents. apply advances_bind. intros [packet seq].
    pose proof (u32_range (zlen packet - pos r)). intros r1 c1 t1 e E.
    apply outcome_bind_Done in E as (u&Ea&E). unfold assert_that in Ea.
    destruct (Z.eqb_spec (u32 (zlen packet - pos r)) 0); [done|]. revert E.
    apply (advances_later _ (if zlen data <? u32 (zlen packet - pos r) then zlen data else u32 (zlen packet - pos r))).
    { destruct (_ <? _); lia. }
    destruct (_ <? _).
    - apply advances_bind. intros [b x]. apply advances_done. lia.
    - apply advances_bind. intros [b x]. apply advances_bind. intros [k t]. apply advances_bind. intros p.
      apply advances_bind. intros m. apply wait_mac_advances. }
  split; [apply G; lia|]. intros Hne. apply G; [lia|by apply Hd].
Qed.

Lemma wait_header_advances c r total data :
  data <> [] -> advances 1 total (wait_header r c total data).
Proof.
  intros Hne. assert (Hd : 1 <= zlen data).
  { destruct data; [done|]. rewrite zlen_cons. pose proof (zlen_nonneg data). lia. }
  unfold wait_header. set (bs := crypto_block_size _). pose proof (u32_range (bs - pos r)).
  intros r1 c1 t1 e E. apply outcome_bind_Done in E as (u&Ea&E). unfold assert_that in Ea.
  destruct (Z.eqb_spec (u32 (bs - pos r)) 0); [done|]. revert E.
  apply (advances_bind 1 total). intros b. destruct (_ <? _).
  - apply advances_bind. intros [b' x]. apply advances_done. lia.
  - apply (advances_later _ (u32 (bs - pos r))); [lia|].
    apply advances_bind. intros [b' x]. apply advances_bind. intros [k t].
    destruct (_ <? _); [apply advances_done; lia|]. destruct (_ || _); [apply advances_done; lia|].
    unfold accept_header. apply advances_bind. intros m. apply advances_bind. intros _.
    apply advances_bind. intros [buf ptrs]. apply advances_bind. intros ptr.
    destruct (_ =? _); [apply wait_mac_advances|apply wait_contents_advances].
Qed.

Lemma read_switch_advances c r total data :
  reader_ok c r -> data <> [] -> advances 1 total (read_switch r c total data).
Proof.
  intros Hr Hne. unfold read_switch. destruct (state r) eqn:Es.
  - by apply wait_header_advances.
  - by apply wait_header_advances.
  - by apply wait_contents_advances.
  - destruct Hr as [_ _ _ _ _ Hw]. unfold waiting in Hw. rewrite Es in Hw.
    destruct Hw as (p&q&_&_&_&Hm). by apply wait_mac_advances.
Qed.

(** [total] only accumulates. *)
Definition shift (k : Z) (res : outcome result) : outcome result :=
  '(r, c, t, e) ← res; Done (r, c, t + k, e).

Definition shifts (k : Z) (f : Z -> outcome result) : Prop :=
  forall total, f (total + k) = shift k (f total).

Lemma shift_bind {A} k (m : outcome A) f g :
  (forall a, f a = shift k (g a)) -> (m ≫= f) = shift k (m ≫= g).
Proof. intros Hf. destruct m; simpl; [apply Hf|done|done]. Qed.

Lemma shift_done k r c t t' e : t' = t + k -> Done (r, c, t', e) = shift k (Done (r, c, t, e)).
Proof. by intros ->. Qed.

(** Step through both sides of a [shift] equation. *)
Ltac shifting := repeat match goal with
  | |- Done _ = shift _ (Done _) => apply shift_done; lia
  | |- mbind _ _ = shift _ _ => apply shift_bind; intros
  | |- (if ?b then _ else _) = shift _ _ => destruct b
  | |- (match ?p with pair _ _ => _ end) = shift _ _ => destruct p
  end.

Lemma wait_mac_shift k r c data : shifts k (fun t => wait_mac r c t data).
Proof. intros t. unfold wait_mac, send_packet_on. destruct (rec_mac c); shifting. Qed.

Lemma wait_contents_shift k r c data : shifts k (fun t => wait_contents r c t data).
Proof.
  intros t. unfold wait_contents. shifting.
  rewrite <- wait_mac_shift. f_equal. lia.
Qed.

Lemma read_switch_shift k r c data : shifts k (fun t => read_switch r c t data).
Proof.
  assert (Hh : forall r, shifts k (fun t => wait_header r c t data)).
  { intros r' t. unfold wait_header, accept_header. shifting.
    - rewrite <- wait_mac_shift. f_equal. lia.
    - rewrite <- wait_contents_shift. f_equal. lia. }
  intros t. unfold read_switch. destruct (state r); try apply Hh; [apply wait_contents_shift|apply wait_mac_shift].
Qed.

(** ** Reading a stream *)

Definition raised (es : list event) : bool :=
  existsb (fun e => match e with Raise _ => true | _ => false end) es.

(** The caller's loop: the handler is called until the input is used up or
    an exception has put an end to the connection. *)
Fixpoint read_all (fuel : nat) (r : read_packet) (c : connection) (data : bytes)
    : option (outcome (read_packet * connection * list event)) :=
  match data, fuel with
  | [], _ => Some (Done (r, c, []))
  | _, O => None
  | _, S fuel =>
      match do_read_packet r c data with
      | Done (Some r, c, total, e) =>
          match e with
          | Some (Raise x) => Some (Done (r, c, [Raise x]))
          | Some ev =>
              res ← read_all fuel r c (drop (Z.to_nat total) data);
              Some ('(r, c, es) ← res; Done (r, c, ev :: es))
          | None => read_all fuel r c (drop (Z.to_nat total) data)
          end
      | Done (None, _, _, _) => Some (Crash NullDeref)
      | Reject => Some Reject
      | Crash x => Some (Crash x)
      end
  end.

(** The input arriving in pieces. *)
Fixpoint read_chunks (r : read_packet) (c : connection) (chunks : list bytes)
    : option (outcome (read_packet * connection * list event)) :=
  match chunks with
  | [] => Some (Done (r, c, []))
  | d :: chunks =>
      res ← read_all (length d) r c d;
      match res with
      | Done (r, c, es) =>
          if raised es then Some (Done (r, c, es))
          else res ← read_chunks r c chunks; Some ('(r, c, es') ← res; Done (r, c, es ++ es'))
      | Reject => Some Reject
      | Crash x => Some (Crash x)
      end
  end.

(** One call on a reader in a consistent state. *)
Lemma do_read_packet_step r c data :
  reader_ok c r -> bytes_ok data -> data <> [] ->
  exists r' c' t e, do_read_packet r c data = Done (Some r', c', t, e) /\ 1 <= t <= zlen data
  /\ read_switch r c 0 data = Done (r', c', t, e)
  /\ match e with
     | None => t = zlen data /\ reader_ok c' r'
     | Some (Deliver _ _) => reader_ok c' r'
     | Some (Raise _) => True
     end.
Proof.
  intros Hr Hd Hne. destruct (read_switch_ok c r 0 data Hr Hd) as (r'&c'&t&e&E&Ht&He).
  pose proof (read_switch_advances c r 0 data Hr Hne _ _ _ _ E).
  exists r', c', t, e. unfold do_read_packet. destruct data; [done|]. rewrite E.
  split_and!; try (done || lia). destruct e as [[]|]; [done|tauto|]. by destruct He.
Qed.

Lemma drop_shorter t (data : bytes) fuel :
  1 <= t <= zlen data -> (length data <= S fuel)%nat -> (length (drop (Z.to_nat t) data) <= fuel)%nat.
Proof. unfold zlen. rewrite length_drop. lia. Qed.

Lemma read_all_unfold fuel r c data :
  data <> [] ->
  read_all (S fuel) r c data
  = match do_read_packet r c data with
    | Done (Some r, c, total, e) =>
        match e with
        | Some (Raise x) => Some (Done (r, c, [Raise x]))
        | Some ev =>
            res ← read_all fuel r c (drop (Z.to_nat total) data);
            Some ('(r, c, es) ← res; Done (r, c, ev :: es))
        | None => read_all fuel r c (drop (Z.to_nat total) data)
        end
    | Done (None, _, _, _) => Some (Crash NullDeref)
    | Reject => Some Reject
    | Crash x => Some (Crash x)
    end.
Proof. by destruct data. Qed.

(** The loop ends: every call consumes something. *)
Lemma read_all_ok fuel r c data :
  reader_ok c r -> bytes_ok data -> (length data <= fuel)%nat ->
  exists r' c' es, read_all fuel r c data = Some (Done (r', c', es))
  /\ (raised es = false -> reader_ok c' r').
Proof.
  revert r c data. induction fuel as [|fuel IH]; intros r c data Hr Hd Hf.
  { destruct data; [|simpl in Hf; lia]. by exists r, c, []. }
  destruct (decide (data = [])) as [->|Hne]; [by exists r, c, []|].
  destruct (do_read_packet_step r c data Hr Hd Hne) as (r1&c1&t&e&E&Ht&_&He).
  rewrite read_all_unfold, E by done.
  assert (Hdr : bytes_ok (drop (Z.to_nat t) data)) by by apply Forall_drop.
  pose proof (drop_shorter t data fuel Ht Hf) as Hl.
  destruct e as [[x|p n]|].
  - by exists r1, c1, [Raise x].
  - destruct (IH r1 c1 _ He Hdr Hl) as (r2&c2&es&->&H2). exists r2, c2, (Deliver p n :: es). done.
  - destruct He as [_ He]. destruct (IH r1 c1 _ He Hdr Hl) as (r2&c2&es&->&H2). by exists r2, c2, es.
Qed.

Lemma read_all_fuel f1 f2 r c data :
  reader_ok c r -> bytes_ok data -> (length data <= f1)%nat -> (length data <= f2)%nat ->
  read_all f1 r c data = read_all f2 r c data.
Proof.
  revert f2 r c data. induction f1 as [|f1 IH]; intros f2 r c data Hr Hd H1' H2'.
  { destruct data; [by destruct f2|simpl in H1'; lia]. }
  destruct (decide (data = [])) as [->|Hne]; [by destruct f2|].
  destruct f2 as [|f2]; [destruct data; [done|simpl in H2'; lia]|].
  destruct (do_read_packet_step r c data Hr Hd Hne) as (r1&c1&t&e&E&Ht&_&He).
  rewrite !read_all_unfold, E by done.
  assert (Hdr : bytes_ok (drop (Z.to_nat t) data)) by by apply Forall_drop.
  destruct e as [[x|p n]|]; [done| |].
  - rewrite (IH f2 r1 c1 _ He Hdr); [done|by apply drop_shorter..].
  - destruct He as [_ He]. apply (IH f2 r1 c1 _ He Hdr); by apply drop_shorter.
Qed.

(** Continue with more input after a first run. *)
Definition and_then (res : option (outcome (read_packet * connection * list event)))
    (k : read_packet -> connection -> option (outcome (read_packet * connection * list event))) :=
  res ← res;
  match res with
  | Done (r, c, es) =>
      if raised es then Some (Done (r, c, es))
      else res ← k r c; Some ('(r, c, es') ← res; Done (r, c, es ++ es'))
  | Reject => Some Reject
  | Crash x => Some (Crash x)
  end.

Lemma and_then_deliver p n res k :
  (x ← and_then res k; Some ('(r, c, es) ← x; Done (r, c, Deliver p n :: es)))
  = and_then (x ← res; Some ('(r, c, es) ← x; Done (r, c, Deliver p n :: es))) k.
Proof.
  destruct res as [[[[r c] es]| |]|]; try done. simpl. destruct (raised es); [done|].
  by destruct (k r c) as [[[[??]?]| |]|].
Qed.

Lemma and_then_nil res k r c :
  res = Some (Done (r, c, [])) -> and_then res k = k r c.
Proof. intros ->. simpl. by destruct (k r c) as [[[[??]?]| |]|]. Qed.

Lemma read_all_app fuel r c d1 d2 :
  reader_ok c r -> bytes_ok (d1 ++ d2) -> (length d1 <= fuel)%nat -> d2 <> [] ->
  read_all (fuel + length d2) r c (d1 ++ d2)
  = and_then (read_all fuel r c d1) (fun r c => read_all (length d2) r c d2).
Proof.
  intros Hr Hd Hf Hne. revert r c d1 Hr Hd Hf. induction fuel as [|fuel IH]; intros r c d1 Hr Hd Hf.
  { destruct d1; [|simpl in Hf; lia]. by rewrite (and_then_nil _ _ r c). }
  destruct (decide (d1 = [])) as [->|Hne1].
  { rewrite (and_then_nil _ _ r c) by done. apply read_all_fuel; [done|done|simpl; lia|lia]. }
  pose proof Hd as Hd12. apply Forall_app in Hd12 as [Hd1 Hd2].
  destruct (do_read_packet_step r c d1 Hr Hd1 Hne1) as (r1&c1&t&e&E&Ht&Esw&He).
  pose proof (read_switch_split c r 0 d1 d2 Hr Hd r1 c1 t e Esw) as Hs.
  assert (Hne12 : d1 ++ d2 <> []) by by destruct d1.
  assert (Hcall : do_read_packet r c (d1 ++ d2)
    = '(r, c, total, e) ← read_switch r c 0 (d1 ++ d2); Done (Some r, c, total, e)) by by destruct d1.
  change (S fuel + length d2)%nat with (S (fuel + length d2)).
  rewrite !read_all_unfold, Hcall, Hs, E by done. clear Hcall Hs.
  assert (Hdrop : drop (Z.to_nat t) (d1 ++ d2) = drop (Z.to_nat t) d1 ++ d2)
    by (apply drop_app_le; unfold zlen in Ht; lia).
  assert (Hdr : bytes_ok (drop (Z.to_nat t) d1 ++ d2)) by (apply Forall_app_2; [by apply Forall_drop|done]).
  destruct e as [[x|p n]|]; cbn [mbind outcome_bind].
  - done.
  - rewrite Hdrop, (IH r1 c1 _ He Hdr) by by apply drop_shorter. apply and_then_deliver.
  - destruct He as [Et He]. assert (Hnil : drop (Z.to_nat t) d1 = []).
    { apply drop_ge. unfold zlen in Et. lia. }
    rewrite Hnil, (and_then_nil _ _ r1 c1) by by destruct fuel.
    destruct (do_read_packet_step r1 c1 d2 He Hd2 Hne) as (r2&c2&t2&e2&E2&Ht2&Esw2&He2).
    pose proof (read_switch_shift t r1 c1 d2 0) as Hsh. cbv beta in Hsh. rewrite Esw2 in Hsh.
    rewrite Z.add_0_l in Hsh. rewrite Hsh. cbn [shift mbind outcome_bind].
    assert (Hdrop2 : drop (Z.to_nat (t2 + t)) (d1 ++ d2) = drop (Z.to_nat t2) d2).
    { unfold zlen in *. rewrite drop_app_ge by lia. f_equal. lia. }
    rewrite Hdrop2. destruct (length d2) as [|n2] eqn:El2; [by destruct d2|].
    assert (Hdr2 : bytes_ok (drop (Z.to_nat t2) d2)) by by apply Forall_drop.
    assert (Hl2 : (length (drop (Z.to_nat t2) d2) <= n2)%nat) by (apply drop_shorter; done || lia).
    rewrite read_all_unfold, E2 by done.
    destruct e2 as [[x|p n]|]; [done| |].
    + rewrite (read_all_fuel (fuel + S n2) n2 r2 c2); done || lia.
    + destruct He2 as [_ He2]. apply read_all_fuel; done || lia.
Qed.

Lemma and_then_ret res : and_then res (fun r c => Some (Done (r, c, []))) = res.
Proof.
  destruct res as [[[[r c] es]| |]|]; try done. simpl. rewrite app_nil_r. by destruct (raised es).
Qed.

(** However the input is cut, the events and the final state are those of the
    whole input. *)
Lemma read_chunks_spec r c chunks :
  reader_ok c r -> bytes_ok (mjoin chunks) ->
  read_chunks r c chunks = read_all (length (mjoin chunks)) r c (mjoin chunks).
Proof.
  revert r c. induction chunks as [|d chunks IH]; intros r c Hr Hd; [done|].
  change (mjoin (d :: chunks)) with (d ++ mjoin chunks) in *.
  pose proof Hd as Hds. apply Forall_app in Hds as [Hd1 Hd2].
  change (read_chunks r c (d :: chunks))
    with (and_then (read_all (length d) r c d) (fun r c => read_chunks r c chunks)).
  destruct (read_all_ok (length d) r c d Hr Hd1 ltac:(done)) as (r1&c1&es&E&H1').
  assert (Hk : and_then (read_all (length d) r c d) (fun r c => read_chunks r c chunks)
    = and_then (read_all (length d) r c d) (fun r c => read_all (length (mjoin chunks)) r c (mjoin chunks))).
  { rewrite E. simpl. destruct (raised es); [done|]. by rewrite (IH r1 c1 (H1' eq_refl) Hd2). }
  rewrite Hk. destruct (decide (mjoin chunks = [])) as [->|Hne].
  - rewrite app_nil_r. apply and_then_ret.
  - rewrite length_app. by rewrite (read_all_app (length d)).
Qed.

(** ** What the sender sends, the reader delivers *)

Definition tag_opt (m : option M) (l : bytes) : bytes :=
  match m with Some _ => tag l | None => [] end.

Definition decrypt_opt (k : option C) (text : bytes) : outcome (option C * bytes) :=
  match k with
  | Some k => '(k, text) ← crypt k text; Done (Some k, text)
  | None => Done (None, text)
  end.

(** [res] delivers [body] under number [seq], having consumed [n] octets and
    left the cipher in state [k]. *)
Definition delivers (res : outcome result) (n : Z) (c : connection) (k : option C) (body : bytes) (seq : Z) : Prop :=
  exists r' c', res = Done (r', c', n, Some (Deliver body seq)) /\ rec_crypto c' = k
  /\ rec_max_packet c' = rec_max_packet c /\ (is_Some (rec_mac c') <-> is_Some (rec_mac c)).

Lemma wait_mac_delivers c r total body seq :
  packet_buffer r = Some (body, seq) -> pos r = 0 -> mac_buffer_ok c r ->
  absorbed_opt (rec_mac c) (covered seq body) -> bytes_ok (tag_opt (rec_mac c) (covered seq body)) ->
  delivers (wait_mac r c total (tag_opt (rec_mac c) (covered seq body)))
    (total + zlen (tag_opt (rec_mac c) (covered seq body))) c (rec_crypto c) body seq.
Proof.
  intros Hp Hpos Hmb Ha Hb. unfold wait_mac, mac_buffer_ok, tag_opt in *. pose proof mac_size_pos.
  destruct (rec_mac c) as [m|] eqn:Em.
  - destruct Hmb as (b&Eb&Hbl&Hbb). rewrite Hpos, Z.sub_0_r, u32_small by lia.
    unfold assert_that. rewrite (proj2 (Z.eqb_neq _ _)) by lia. rewrite Eb. cbn [negb mbind outcome_bind deref].
    pose proof (tag_length tag m _ (covered seq body) Ha) as Htl.
    rewrite Htl, Z.ltb_irrefl.
    destruct (READ_ok mac_size (tag (covered seq body)) r b) as (d&E&Hdl&Hdo&_&Hdt);
      [lia|lia|lia|done|done|].
    rewrite E. cbn [mbind outcome_bind]. destruct (absorbed_digest _ _ _ Ha) as (m'&->&Ha').
    cbn [mbind outcome_bind]. rewrite Hpos, Z.add_0_l in Hdt.
    rewrite bool_decide_eq_true_2 by (rewrite Hdt; simpl; symmetry; apply take_ge; unfold zlen in Htl; lia).
    unfold send_packet_on. cbn [packet_buffer with_mac]. rewrite Hp. cbn [mbind outcome_bind deref].
    eexists _, _. split; [reflexivity|]. simpl. rewrite Em. split_and!; [done|done|split; eauto].
  - unfold send_packet_on. rewrite Hp. cbn [mbind outcome_bind deref]. rewrite zlen_nil, Z.add_0_r.
    eexists _, _. split; [reflexivity|]. by rewrite Em.
Qed.

Lemma delivers_conn res n c c' k body seq :
  rec_max_packet c' = rec_max_packet c -> (is_Some (rec_mac c') <-> is_Some (rec_mac c)) ->
  delivers res n c' k body seq -> delivers res n c k body seq.
Proof.
  intros E1 E2 (r1&c1&->&Hk&Hm&Hs). exists r1, c1. split_and!; [done|done|congruence|].
  by rewrite Hs, E2.
Qed.

Lemma wait_contents_delivers c r total first junk seq c2 k' y :
  packet_buffer r = Some (first ++ junk, seq) -> zlen junk = zlen c2 -> 0 < zlen c2 ->
  zlen first + zlen c2 < 2 ^ 32 -> pos r = zlen first -> crypt_pos r = zlen first ->
  bytes_ok first -> bytes_ok junk -> bytes_ok c2 -> bytes_ok y -> mac_buffer_ok c r ->
  decrypt_opt (rec_crypto c) c2 = Done (k', y) -> zlen y = zlen c2 ->
  absorbed_opt (rec_mac c) (WRITE_UINT32 seq ++ WRITE_UINT32 (zlen first + zlen c2) ++ first) ->
  let t := tag_opt (rec_mac c) (covered seq (first ++ y)) in
  bytes_ok t ->
  delivers (wait_contents r c total (c2 ++ t)) (total + zlen c2 + zlen t) c k' (first ++ y) seq.
Proof.
  intros Hp Hj Hc2 Hmax Hpos Hcp Hfb Hjb Hcb Hyb Hmb Hdec Hyl Ha t Htb.
  pose proof (zlen_nonneg first). pose proof (zlen_nonneg t). pose proof mac_size_pos.
  unfold wait_contents. rewrite Hp. cbn [deref mbind outcome_bind]. rewrite Hpos, (zlen_app first junk), Hj.
  replace (zlen first + zlen c2 - zlen first) with (zlen c2) by lia. rewrite u32_small by lia.
  unfold assert_that. rewrite (proj2 (Z.eqb_neq _ _)) by lia. cbn [negb mbind outcome_bind].
  rewrite zlen_app, (proj2 (Z.ltb_ge _ _)) by lia.
  destruct (READ_ok (zlen c2) (c2 ++ t) r (first ++ junk)) as (d&E&Hdl&Hdo&_&Hdt);
    [rewrite zlen_app; lia|lia|rewrite zlen_app; lia|by apply Forall_app_2|by apply Forall_app_2|].
  rewrite E. cbn [mbind outcome_bind with_packet crypt_pos pos]. rewrite Hcp.
  assert (Ed : d = first ++ c2).
  { rewrite Hpos in Hdt. rewrite zlen_app in Hdl. unfold zlen in *.
    rewrite (take_ge d) in Hdt by lia. rewrite Hdt, !Nat2Z.id, !take_app_length. done. }
  subst d. assert (Hz : forall l : bytes, Z.to_nat (zlen l) = length l) by (intros; unfold zlen; lia).
  rewrite !Hz, !drop_app_length. unfold decrypt_opt in Hdec. rewrite Hdec. cbn [mbind outcome_bind].
  rewrite memcpy_tail by (rewrite ?zlen_app; lia). rewrite ?Hz, take_app_length. cbn [mbind outcome_bind].
  destruct (mac_opt_update (rec_mac c) _ y Ha) as (m'&->&Ha'&Hmm). cbn [mbind outcome_bind].
  rewrite ?Hz, ?drop_app_length.
  assert (Ecov : covered seq (first ++ y) = (WRITE_UINT32 seq ++ WRITE_UINT32 (zlen first + zlen c2) ++ first) ++ y).
  { unfold covered. rewrite zlen_app, Hyl, <- !app_assoc. done. }
  assert (Et : t = tag_opt m' (covered seq (first ++ y))).
  { unfold t, tag_opt. destruct (rec_mac c), m'; try done; destruct Hmm as [Hx Hy];
      [destruct (Hy ltac:(by eexists)) as [? ?]; done|destruct (Hx ltac:(by eexists)) as [? ?]; done]. }
  rewrite Et in Htb |- *. set (c' := set_rec c k' m').
  change m' with (rec_mac c') at 1 2. change k' with (rec_crypto c').
  apply (delivers_conn _ _ c c'); [done|done|].
  apply wait_mac_delivers; simpl; try done.
  - by apply (mac_buffer_ok_ext c _ r).
  - by rewrite Ecov.
Qed.

Lemma decrypt_opt_nil k k' y : decrypt_opt k [] = Done (k', y) -> k' = k /\ y = [].
Proof.
  destruct k as [k|]; simpl; [|by intros [= <- <-]].
  destruct (crypt k []) as [[k1 y1]| |] eqn:E; try done. intros [= <- <-]. by destruct (crypt_nil _ _ _ E) as [-> ->].
Qed.

Lemma tag_opt_same m m' l : (is_Some m' <-> is_Some m) -> tag_opt m l = tag_opt m' l.
Proof.
  intros [Hx Hy]. destruct m, m'; try done; [destruct (Hy ltac:(by eexists))|destruct (Hx ltac:(by eexists))]; done.
Qed.

Lemma accept_header_delivers c r block total first y c2 k' :
  let bs := crypto_block_size (rec_crypto c) in
  let body := first ++ y in
  packet_buffer r = None -> 0 <= sequence_number r < 2 ^ 32 -> mac_buffer_ok c r ->
  absorbed_opt (rec_mac c) [] ->
  bs <= zlen block -> bytes_ok block -> take (Z.to_nat bs) block = WRITE_UINT32 (zlen body) ++ first ->
  READ_UINT32 block = zlen body -> zlen first = bs - 4 -> zlen body < 2 ^ 32 ->
  bytes_ok c2 -> bytes_ok y -> decrypt_opt (rec_crypto c) c2 = Done (k', y) -> zlen y = zlen c2 ->
  let t := tag_opt (rec_mac c) (covered (sequence_number r) body) in
  bytes_ok t ->
  delivers (accept_header r c total block (c2 ++ t)) (total + zlen c2 + zlen t) c k' body (sequence_number r).
Proof.
  intros bs body Hpn Hseq Hmb Ha Hbl Hbb Htk Hlen Hf Hmax Hcb Hyb Hdec Hyl t Htb.
  pose proof (crypto_block_size_bounds (rec_crypto c)) as [Hbs _]. fold bs in Hbs.
  assert (Hbody : zlen body = bs - 4 + zlen c2) by (unfold body; rewrite zlen_app; lia).
  pose proof (zlen_nonneg c2). unfold accept_header. fold bs. rewrite Hlen.
  assert (exists m', match rec_mac c with
          | Some m => m ← mac_update m (WRITE_UINT32 (sequence_number r));
                      m ← mac_update m (take (Z.to_nat bs) block); Done (Some m)
          | None => Done None end = Done m'
    /\ absorbed_opt m' (WRITE_UINT32 (sequence_number r) ++ WRITE_UINT32 (zlen body) ++ first)
    /\ (is_Some m' <-> is_Some (rec_mac c))) as (m'&->&Ha'&Hmm).
  { rewrite Htk. destruct (rec_mac c) as [m|]; [|by exists None].
    destruct (absorbed_update _ _ _ (WRITE_UINT32 (sequence_number r)) Ha) as (m1&->&Ha1).
    destruct (absorbed_update _ _ _ (WRITE_UINT32 (zlen body) ++ first) Ha1) as (m2&E&Ha2).
    cbn [mbind outcome_bind]. rewrite E. exists (Some m2). split; [done|]. split; [done|by split; eauto]. }
  cbn [mbind outcome_bind]. unfold assert_that. rewrite bool_decide_eq_true_2 by done. cbn [mbind outcome_bind].
  destruct (zlen_take_drop 4 block ltac:(lia)) as [_ Hd4]. change (Z.to_nat 4) with 4%nat in Hd4.
  rewrite format_first_block by lia. cbn [mbind outcome_bind pointer].
  assert (Hfirst : take (Z.to_nat (bs - 4)) (drop 4 block) = first).
  { rewrite <- (take_drop 4 (take (Z.to_nat bs) block)), (take_split_4 (Z.to_nat bs)) in Htk by lia.
    assert (H4 : length (take 4 block) = 4%nat) by (rewrite length_take; unfold zlen in Hbl; lia).
    rewrite (take_app_length' (take 4 block)), (drop_app_length' (take 4 block)) in Htk by done.
    apply app_inj_1 in Htk as [_ Htk]; [|by rewrite H4].
    by replace (Z.to_nat bs - 4)%nat with (Z.to_nat (bs - 4)) in Htk by lia. }
  rewrite Hfirst.
  replace ((fun o : option Z => match o with Some b => b | None => garbage end) <$> octets first ++ reserved (zlen body - (bs - 4)))
    with (first ++ lsh_string_alloc (zlen c2)).
  2: { rewrite fmap_app. unfold octets, reserved, lsh_string_alloc. rewrite fmap_replicate, <- list_fmap_compose.
       rewrite list_fmap_id. do 3 f_equal. lia. }
  assert (Hal : zlen (lsh_string_alloc (zlen c2)) = zlen c2)
    by (unfold lsh_string_alloc; rewrite zlen_replicate; lia).
  assert (Hfb : bytes_ok first) by (rewrite <- Hfirst; by apply Forall_take, Forall_drop).
  assert (Hab : bytes_ok (lsh_string_alloc (zlen c2))) by by apply Forall_replicate.
  set (c1 := set_rec c (rec_crypto c) m').
  assert (Et : t = tag_opt (rec_mac c1) (covered (sequence_number r) body)) by by apply tag_opt_same.
  rewrite Et in Htb |- *. destruct (Z.eqb_spec (bs - 4) (zlen body)) as [Heq|Hneq].
  - assert (c2 = []) as -> by (destruct c2 as [|x c2]; [done|]; rewrite zlen_cons in Hbody; pose proof (zlen_nonneg c2); lia).
    apply decrypt_opt_nil in Hdec as [-> ->].
    assert (Hb' : body = first) by (unfold body; by rewrite app_nil_r). rewrite zlen_nil, Z.add_0_r.
    apply (delivers_conn _ _ c c1); [done|done|]. rewrite app_nil_l.
    apply (wait_mac_delivers c1); simpl; [by rewrite Hb', app_nil_r|done|by apply (mac_buffer_ok_ext c _ r)| |done].
    rewrite Hb' in Ha' |- *. exact Ha'.
  - apply (delivers_conn _ _ c c1); [done|done|].
    apply (wait_contents_delivers c1 _ total first (lsh_string_alloc (zlen c2))); simpl; try done; try lia.
    + by apply (mac_buffer_ok_ext c _ r).
    + by rewrite Hbody, <- Hf in Ha'.
Qed.

Definition paired_opt (e d : option C) : Prop :=
  match e, d with Some e, Some d => paired e d | None, None => True | _, _ => False end.

Lemma paired_opt_block e d : paired_opt e d -> crypto_block_size e = crypto_block_size d.
Proof. by destruct e, d. Qed.

Lemma decrypt_opt_split e d a b k' p :
  paired_opt e d -> zlen a mod crypto_block_size d = 0 -> zlen b mod crypto_block_size d = 0 ->
  decrypt_opt d (a ++ b) = Done (k', p) ->
  exists k1 x y, decrypt_opt d a = Done (k1, x) /\ decrypt_opt k1 b = Done (k', y) /\ p = x ++ y
  /\ zlen x = zlen a /\ zlen y = zlen b /\ crypto_block_size k1 = crypto_block_size d.
Proof.
  destruct d as [d|]; simpl; intros Hp Ha Hb.
  - destruct e as [e|]; [|done]. intros ([d2 q] & E & [= <- <-])%outcome_bind_Done.
    destruct (crypt_app e d a b d2 q Hp Ha Hb E) as (d1 & x & y & E1 & E2 & ->).
    exists (Some d1), x, y. simpl. rewrite E1, E2. split_and!; try done; by eapply crypt_length.
  - intros [= <- <-]. by exists None, a, b.
Qed.

(** One whole packet on the wire, read from the start state. *)
Lemma read_packet_delivers c r e cph body k' :
  let bs := crypto_block_size (rec_crypto c) in
  reader_ok c r -> state r = WAIT_START -> paired_opt e (rec_crypto c) ->
  12 <= zlen body <= limit c -> bs - 4 <= zlen body -> (zlen body + 4) mod bs = 0 ->
  bytes_ok body -> bytes_ok cph ->
  decrypt_opt (rec_crypto c) cph = Done (k', WRITE_UINT32 (zlen body) ++ body) ->
  zlen cph = 4 + zlen body ->
  let t := tag_opt (rec_mac c) (covered (sequence_number r) body) in
  bytes_ok t ->
  delivers (read_switch r c 0 (cph ++ t)) (zlen (cph ++ t)) c k' body (sequence_number r).
Proof.
  intros bs Hr Hs Hpair Hlen Hmin Hmod Hbb Hcb Hdec Hcl t Htb.
  destruct (wait_start_ok c r Hr Hs) as (Hr'&Hs'&Hseq).
  unfold read_switch. rewrite Hs. set (r0 := wait_start r c) in *.
  pose proof Hr' as [Hk Hlim Hsq Hblk Hmac Hw]. unfold waiting in Hw. rewrite Hs' in Hw.
  destruct Hw as (Hpn&Ha&Hmb&Hpos&b&Eb&Hbl). fold bs in Hpos, Hbl.
  assert (Hpos0 : pos r0 = 0) by done. pose proof (Hblk b Eb) as Hbb0.
  pose proof (crypto_block_size_bounds (rec_crypto c)) as [Hbs _]. fold bs in Hbs.
  pose proof (zlen_nonneg t).
  destruct (zlen_take_drop bs cph ltac:(lia)) as [Hc1 Hc2].
  set (c1 := take (Z.to_nat bs) cph) in *. set (c2 := drop (Z.to_nat bs) cph) in *.
  assert (Ecph : cph = c1 ++ c2) by (symmetry; apply take_drop).
  assert (Hm1 : zlen c1 mod bs = 0) by (rewrite Hc1; apply Z.mod_same; lia).
  assert (Hm2 : zlen c2 mod bs = 0).
  { rewrite Hc2, Hcl. replace (4 + zlen body - bs) with (zlen body + 4 + (-1) * bs) by lia.
    by rewrite Z.mod_add by lia. }
  rewrite Ecph in Hdec.
  destruct (decrypt_opt_split e _ c1 c2 k' _ Hpair Hm1 Hm2 Hdec) as (k1&x&y&Ex&Ey&Ep&Hxl&Hyl&Hk1).
  fold bs in Hk1.
  (* the first block *)
  set (first := drop 4 x).
  destruct (zlen_take_drop 4 x ltac:(lia)) as [Hx4 Hxd]. change (Z.to_nat 4) with 4%nat in Hx4, Hxd.
  assert (Ep' : take 4 x = WRITE_UINT32 (zlen body) /\ body = first ++ y).
  { rewrite <- (take_drop 4 x), <- app_assoc in Ep. apply app_inj_1 in Ep as [? ?]; [done|].
    change (length (WRITE_UINT32 _)) with 4%nat. unfold zlen in Hx4. lia. }
  destruct Ep' as [Ex4 Ebody].
  assert (Hxb : bytes_ok x /\ bytes_ok y).
  { apply Forall_app. rewrite <- Ep. apply Forall_app_2; [apply WRITE_UINT32_ok|done]. }
  destruct Hxb as [Hxb Hyb].
  unfold wait_header. fold bs. rewrite Hpos0, Z.sub_0_r, u32_small by lia.
  unfold assert_that. rewrite (proj2 (Z.eqb_neq _ _)), Eb by lia. cbn [negb mbind outcome_bind deref].
  rewrite zlen_app, (proj2 (Z.ltb_ge _ _)) by lia.
  destruct (READ_ok bs (cph ++ t) r0 b) as (d&E&Hdl&Hdo&_&Hdt);
    [rewrite zlen_app; lia|lia|lia|by apply Forall_app_2|done|].
  rewrite E. cbn [mbind outcome_bind]. rewrite Hpos0, Z.add_0_l in Hdt. simpl app in Hdt.
  assert (Edrop : drop (Z.to_nat bs) (cph ++ t) = c2 ++ t) by (apply drop_app_le; unfold zlen in Hcl, Hmin; lia).
  assert (Etake : take (Z.to_nat bs) d = c1) by (rewrite Hdt; apply take_app_le; unfold zlen in Hcl, Hmin; lia).
  rewrite Edrop.
  assert (exists blk, match rec_crypto c with
      | Some k => '(k, text) ← crypt k (take (Z.to_nat bs) d); block ← memcpy_to 0 text d; Done (Some k, block)
      | None => Done (None, d)
      end = Done (k1, blk) /\ bytes_ok blk /\ zlen blk = zlen d /\ take (Z.to_nat bs) blk = x)
    as (blk&->&Hblkb&Hblkl&Hblkt).
  { rewrite Etake. unfold decrypt_opt in Ex. destruct (rec_crypto c) as [k|].
    - destruct (crypt k c1) as [[k2 x2]| |]; try done. cbn [mbind outcome_bind] in *. injection Ex as <- ->.
      destruct (memcpy_to_ok 0 x d) as (blk&->&Hl&Hok&_&Hsl&_); [lia|lia|done|done|].
      exists blk. split_and!; try done. unfold slice in Hsl. simpl drop in Hsl.
      by rewrite Hxl, Hc1 in Hsl.
    - injection Ex as <- <-. exists d. done. }
  cbn [mbind outcome_bind]. rewrite (u32_small (0 + bs)) by lia.
  assert (Hrd : READ_UINT32 blk = zlen body).
  { rewrite <- (take_drop (Z.to_nat bs) blk), Hblkt, <- (take_drop 4 x), Ex4, <- app_assoc.
    apply READ_WRITE_UINT32. lia. }
  rewrite Hrd. change (rec_max_packet (set_rec c k1 (rec_mac c)) + SSH_MAX_PACKET_FUZZ) with (limit c).
  rewrite (u32_small (limit c)), (proj2 (Z.ltb_ge (limit c) _)) by (unfold limit, SSH_MAX_PACKET_FUZZ, SSH_MAX_PACKET in *; lia).
  rewrite (u32_small (zlen body + 4)) by lia. rewrite Hmod.
  rewrite (proj2 (Z.ltb_ge (zlen body) 12)), (proj2 (Z.ltb_ge (zlen body) (bs - 4))) by lia.
  cbn [orb negb Z.eqb]. set (c' := set_rec c k1 (rec_mac c)). set (r1 := with_block r0 _ blk).
  apply (delivers_conn _ _ c c'); [done|done|].
  replace (zlen cph + zlen t) with (0 + bs + zlen c2 + zlen t) by lia.
  unfold t in *. rewrite Ebody in *. rewrite <- Hseq in Htb |- *.
  apply (accept_header_delivers c' r1 blk (0 + bs) first y c2 k'); simpl; rewrite ?Hk1; try done; try lia.
  - change (take (Z.to_nat bs) blk = WRITE_UINT32 (zlen (first ++ y)) ++ first).
    rewrite Hblkt, <- Ex4. symmetry. apply take_drop.
  - unfold first. lia.
  - by apply Forall_drop.
Qed.

(** ** The sender *)

Lemma store_first src rest buffer :
  zlen src = zlen buffer -> store 0 src (buffer ++ rest) = Done (octets src ++ rest).
Proof. intros Hl. apply (store_spec [] buffer src rest). done. Qed.

Lemma tag_opt_bytes m l l' : absorbed_opt m l -> bytes_ok (tag_opt m l').
Proof. destruct m as [m|]; simpl; [apply tag_bytes|intros _; constructor]. Qed.

Lemma encrypt_opt_spec e d p rest :
  paired_opt e d -> bytes_ok p -> zlen p mod crypto_block_size d = 0 ->
  exists e' d' cph,
    crypt_into e p (reserved (zlen p) ++ rest) = Done (e', octets cph ++ rest)
  /\ decrypt_opt d cph = Done (d', p) /\ paired_opt e' d' /\ zlen cph = zlen p /\ bytes_ok cph.
Proof.
  intros Hp Hb Hm. pose proof (zlen_nonneg p). destruct e as [e|], d as [d|]; try done.
  - destruct (crypt_paired e d p Hp Hb Hm) as (e'&d'&cph&E1&E2&Hp'&Hl&Hcb).
    exists (Some e'), (Some d'), cph. simpl. rewrite E1. simpl. rewrite E2.
    rewrite store_first by (rewrite zlen_reserved; lia). done.
  - exists None, None, p. simpl. rewrite store_first by (rewrite zlen_reserved; lia). done.
Qed.

Lemma do_encrypt_spec c seq p d :
  paired_opt (send_crypto c) d -> absorbed_opt (send_mac c) [] -> bytes_ok p ->
  zlen p mod crypto_block_size d = 0 -> zlen p + 2 ^ 16 < 2 ^ 32 ->
  exists c' d' cph,
    do_encrypt c seq p = Done (c', u32 (seq + 1), cph ++ tag_opt (send_mac c) (WRITE_UINT32 seq ++ p))
  /\ decrypt_opt d cph = Done (d', p) /\ paired_opt (send_crypto c') d' /\ absorbed_opt (send_mac c') []
  /\ (is_Some (send_mac c') <-> is_Some (send_mac c)) /\ zlen cph = zlen p /\ bytes_ok cph.
Proof.
  intros Hp Ha Hb Hm Hmax. pose proof (zlen_nonneg p). pose proof mac_size_pos.
  unfold do_encrypt. set (ms := match send_mac c with Some _ => mac_size | None => 0 end).
  assert (Hms : 0 <= ms < 2 ^ 16) by (unfold ms; destruct (send_mac c); lia).
  rewrite format_encrypted by lia. cbn [mbind outcome_bind pointer].
  destruct (encrypt_opt_spec (send_crypto c) d p (reserved ms) Hp Hb Hm) as (e'&d'&cph&->&Ed&Hp'&Hl&Hcb).
  cbn [mbind outcome_bind]. destruct (send_mac c) as [m|] eqn:Em.
  - destruct (absorbed_update _ _ _ (WRITE_UINT32 seq) Ha) as (m1&->&Ha1). cbn [mbind outcome_bind].
    destruct (absorbed_update _ _ _ p Ha1) as (m2&->&Ha2). cbn [mbind outcome_bind].
    destruct (absorbed_digest _ _ _ Ha2) as (m3&->&Ha3). cbn [mbind outcome_bind].
    rewrite app_nil_l in *. rewrite <- Hl, <- (zlen_octets cph), <- (app_nil_r (reserved ms)).
    rewrite store_spec by (rewrite zlen_reserved by lia; symmetry; eapply tag_length, Ha2).
    cbn [mbind outcome_bind]. rewrite app_nil_r, <- octets_app, finished_octets. cbn [mbind outcome_bind].
    exists (set_send c e' (Some m3)), d', cph. split_and!; try done; try (by rewrite zlen_octets); eauto.
  - cbn [mbind outcome_bind]. change (reserved ms) with (@nil (option Z)). rewrite (app_nil_r (octets cph)), finished_octets. cbn [mbind outcome_bind].
    exists (set_send c e' None), d', cph. simpl tag_opt. split_and!; try done. by rewrite app_nil_r.
Qed.

(** A payload on its way to the wire. *)
Definition send_packet (c : connection) (seq : Z) (random : Z -> bytes) (payload : bytes)
    : outcome (connection * Z * bytes) :=
  p ← do_pad c random payload; do_encrypt c seq p.

Fixpoint send_all (c : connection) (seq : Z) (ps : list (bytes * (Z -> bytes)))
    : outcome (connection * Z * bytes) :=
  match ps with
  | [] => Done (c, seq, [])
  | (payload, random) :: ps =>
      '(c, seq, w) ← send_packet c seq random payload;
      '(c, seq, ws) ← send_all c seq ps;
      Done (c, seq, w ++ ws)
  end.

(** A source of random octets delivers as many as it is asked for. *)
Definition random_ok (random : Z -> bytes) : Prop :=
  forall n, 0 <= n -> zlen (random n) = n /\ bytes_ok (random n).

(** The body of a padded packet: what the reader delivers. *)
Definition body_of (payload pad : bytes) : bytes := [zlen pad] ++ payload ++ pad.

Lemma format_payload n d :
  0 <= n <= zlen d -> n < 2 ^ 32 -> ssh_format "%ls" [VWord n; VData d] = Done (take (Z.to_nat n) d).
Proof.
  intros Hn Hmax. unfold ssh_format. run_format. rewrite !Z.add_0_r, u32_small by lia.
  unfold memcpy. rewrite (proj2 (Z.leb_le _ _)) by lia. cbn -[u32 Z.ltb Z.eqb].
  destruct (zlen_take_drop n d Hn) as [Ht _].
  change (Some <$> take (Z.to_nat n) d) with (octets (take (Z.to_nat n) d)).
  rewrite zlen_octets, Ht, Z.add_0_l, Z.ltb_irrefl, Z.eqb_refl. cbn [assert_that mbind outcome_bind].
  pose proof (finished_octets (take (Z.to_nat n) d)) as Hf. unfold finished in Hf.
  destruct (mapM id (octets (take (Z.to_nat n) d))); [|done]. by injection Hf as ->.
Qed.

Lemma do_unpad_body c payload pad :
  4 <= zlen pad < 256 -> zlen payload <= limit c -> 0 <= limit c < 2 ^ 32 ->
  do_unpad c (body_of payload pad) = Done payload.
Proof.
  intros Hp Hl Hlim. unfold do_unpad, body_of. cbn [app]. pose proof (zlen_nonneg payload).
  rewrite zlen_cons, zlen_app, (proj2 (Z.ltb_ge _ _)), (proj2 (Z.leb_gt _ _)) by lia. cbn [orb].
  change (rec_max_packet c + SSH_MAX_PACKET_FUZZ) with (limit c). rewrite u32_small by lia.
  replace (zlen payload + zlen pad + 1 - 1 - zlen pad) with (zlen payload) by lia.
  rewrite (proj2 (Z.ltb_ge _ _)) by lia. cbn [drop].
  rewrite drop_0, format_payload by (rewrite ?zlen_app; lia). do 2 f_equal.
  unfold zlen. rewrite Nat2Z.id. apply take_app_length.
Qed.

(** Sender and receiver use the same keys and are between packets. *)
Record synced (cs cr : connection) (r : read_packet) (seq : Z) : Prop := {
  sync_crypto : paired_opt (send_crypto cs) (rec_crypto cr);
  sync_mac : absorbed_opt (send_mac cs) [];
  sync_macs : is_Some (send_mac cs) <-> is_Some (rec_mac cr);
  sync_reader : reader_ok cr r;
  sync_state : state r = WAIT_START;
  sync_seq : sequence_number r = seq }.

Lemma covered_padded seq payload pad :
  WRITE_UINT32 seq ++ padded payload pad = covered seq (body_of payload pad)
  /\ padded payload pad = WRITE_UINT32 (zlen (body_of payload pad)) ++ body_of payload pad.
Proof.
  unfold covered, padded, body_of. cbn [app]. rewrite zlen_cons, zlen_app. done.
Qed.

(** One packet: the sender's octets make the reader deliver its body, and the
    two are in step again. *)
Lemma one_packet cs cr r seq payload random :
  synced cs cr r seq -> bytes_ok payload -> zlen payload + 128 <= limit cr -> limit cr < 2 ^ 31 ->
  random_ok random ->
  exists cs' w body r' cr', send_packet cs seq random payload = Done (cs', u32 (seq + 1), w)
  /\ bytes_ok w /\ w <> [] /\ read_switch r cr 0 w = Done (r', cr', zlen w, Some (Deliver body seq))
  /\ do_unpad cr body = Done payload /\ synced cs' cr' r' (u32 (seq + 1))
  /\ limit cr' = limit cr.
Proof.
  intros [Hp Ha Hm Hr Hs Hseq] Hb Hl Hmax Hrnd. pose proof Hr as [_ Hlim _ _ _ _].
  pose proof (zlen_nonneg payload). pose proof (paired_opt_block _ _ Hp) as Hbe.
  pose proof (crypto_block_size_bounds (rec_crypto cr)) as Hbs.
  set (bs := crypto_block_size (rec_crypto cr)) in *. set (n := padding_size bs (zlen payload)).
  pose proof (padding_size_spec bs (zlen payload) Hbs ltac:(lia)) as (Hn&Hmod&H16&Hmin). fold n in Hn, Hmod, H16, Hmin.
  destruct (Hrnd n ltac:(lia)) as [Hrl Hrb]. set (pad := random n) in *.
  pose proof (do_pad_spec cs random payload) as Epad. rewrite Hbe in Epad. fold bs n pad in Epad.
  specialize (Epad Hrl ltac:(lia)).
  destruct (covered_padded seq payload pad) as [Ecov Ebody].
  assert (Hbodyl : zlen (body_of payload pad) = 1 + zlen payload + n).
  { unfold body_of. cbn [app]. rewrite zlen_cons, zlen_app. lia. }
  assert (Hbodyb : bytes_ok (body_of payload pad)).
  { unfold body_of. apply Forall_app_2; [|by apply Forall_app_2]. constructor; [|done]. unfold is_byte. lia. }
  assert (Hpb : bytes_ok (padded payload pad)).
  { rewrite Ebody. apply Forall_app_2; [apply WRITE_UINT32_ok|done]. }
  pose proof (zlen_padded payload pad) as Hpl. rewrite Hrl in Hpl.
  destruct (do_encrypt_spec cs seq (padded payload pad) (rec_crypto cr) Hp Ha Hpb)
    as (cs'&d'&cph&Eenc&Edec&Hp'&Ha'&Hm'&Hcl&Hcb).
  { fold bs. rewrite Hpl. by replace (5 + zlen payload + n) with (5 + zlen payload + n) by lia. }
  { lia. }
  set (w := cph ++ tag_opt (send_mac cs) (WRITE_UINT32 seq ++ padded payload pad)) in *.
  assert (Ew : w = cph ++ tag_opt (rec_mac cr) (covered seq (body_of payload pad))).
  { unfold w. rewrite Ecov. f_equal. apply tag_opt_same. by symmetry. }
  assert (Htb : bytes_ok (tag_opt (rec_mac cr) (covered seq (body_of payload pad)))).
  { rewrite <- (tag_opt_same (send_mac cs) (rec_mac cr)); [by apply (tag_opt_bytes _ [])|by symmetry]. }
  rewrite Ebody in Edec.
  assert (Hdel : delivers (read_switch r cr 0 w) (zlen w) cr d' (body_of payload pad) (sequence_number r)).
  { rewrite Ew, <- Hseq in *. apply (read_packet_delivers cr r (send_crypto cs) cph _ d'); try done; fold bs;
      rewrite ?Hbodyl; try lia. replace (1 + zlen payload + n + 4) with (5 + zlen payload + n) by lia. done. }
  destruct Hdel as (r'&cr'&Erd&Hk'&Hlim'&Hmm').
  assert (Hw : bytes_ok w) by (rewrite Ew; by apply Forall_app_2).
  destruct (read_switch_ok cr r 0 w Hr Hw) as (r2&c2&t2&e2&E2&_&He2). rewrite Erd in E2.
  injection E2 as <- <- <- <-. destruct He2 as (Hr'&Hs'&_&Hq'&_).
  assert (Hcur : current r = sequence_number r).
  { unfold current. destruct Hr as [_ _ _ _ _ Hw']. unfold waiting in Hw'. rewrite Hs in Hw'.
    by destruct Hw' as [-> _]. }
  rewrite Hseq in Erd. exists cs', w, (body_of payload pad), r', cr'. split_and!; try done.
  - unfold send_packet. rewrite Epad. exact Eenc.
  - intros E. assert (Hz : zlen cph = 0) by (destruct cph; [done|by rewrite Ew in E]). lia.
  - apply do_unpad_body; unfold limit, SSH_MAX_PACKET_FUZZ, SSH_MAX_PACKET in *; lia.
  - split; try done.
    + by rewrite Hk'.
    + by rewrite Hm', Hmm'.
    + by rewrite Hq', Hcur, Hseq.
  - unfold limit. by rewrite Hlim'.
Qed.

(** The events are the deliveries of packets numbered from [seq], which
    unpad to the payloads. *)
Fixpoint receives (c : connection) (seq : Z) (es : list event) (payloads : list bytes) : Prop :=
  match es, payloads with
  | [], [] => True
  | Deliver body n :: es, p :: payloads =>
      n = seq /\ do_unpad c body = Done p /\ receives c (u32 (seq + 1)) es payloads
  | _, _ => False
  end.

Lemma receives_conn c c' seq es ps :
  limit c' = limit c -> receives c' seq es ps -> receives c seq es ps.
Proof.
  intros Hl. revert seq ps. induction es as [|[e|body n] es IH]; intros seq [|p ps]; simpl; try done.
  intros (->&Hu&Hr). split_and!; [done| |by apply IH].
  rewrite <- Hu. unfold do_unpad. change (rec_max_packet ?c + SSH_MAX_PACKET_FUZZ) with (limit c).
  by rewrite Hl.
Qed.

Definition sendable (c : connection) (p : bytes * (Z -> bytes)) : Prop :=
  bytes_ok p.1 /\ zlen p.1 + 128 <= limit c /\ random_ok p.2.

Lemma channel ps cs cr r seq :
  synced cs cr r seq -> limit cr < 2 ^ 31 -> Forall (sendable cr) ps ->
  exists cs' seq' wire r' cr' es, send_all cs seq ps = Done (cs', seq', wire) /\ bytes_ok wire
  /\ read_all (length wire) r cr wire = Some (Done (r', cr', es))
  /\ receives cr seq es (ps.*1) /\ synced cs' cr' r' seq'.
Proof.
  revert cs cr r seq. induction ps as [|[payload random] ps IH]; intros cs cr r seq Hs Hmax Hps.
  { exists cs, seq, [], r, cr, []. split_and!; try done. constructor. }
  apply Forall_cons in Hps as [(Hb&Hl&Hr) Hps].
  destruct (one_packet cs cr r seq payload random Hs Hb Hl Hmax Hr)
    as (cs1&w&body&r1&cr1&Es&Hw&Hne&Erd&Eun&Hs1&Hlim).
  destruct (IH cs1 cr1 r1 (u32 (seq + 1)) Hs1) as (cs2&seq2&ws&r2&cr2&es&E2&Hws&Erd2&Hrec&Hs2).
  { by rewrite Hlim. }
  { eapply Forall_impl; [exact Hps|]. intros [q rnd] (?&?&?). split_and!; [done|by rewrite Hlim|done]. }
  exists cs2, seq2, (w ++ ws), r2, cr2, (Deliver body seq :: es).
  assert (Hwws : bytes_ok (w ++ ws)) by by apply Forall_app_2.
  split_and!; [|done| | |done].
  - cbn [send_all]. rewrite Es. cbn [mbind outcome_bind]. by rewrite E2.
  - pose proof (sync_reader _ _ _ _ Hs) as Hro.
    pose proof (read_switch_split cr r 0 w ws Hro Hwws _ _ _ _ Erd) as Esp. cbv iota in Esp.
    destruct (length (w ++ ws)) as [|n] eqn:En; [destruct w; done|].
    rewrite read_all_unfold by by destruct w.
    assert (Ecall : do_read_packet r cr (w ++ ws) = Done (Some r1, cr1, zlen w, Some (Deliver body seq))).
    { unfold do_read_packet. destruct (w ++ ws) eqn:E; [destruct w; done|]. by rewrite Esp. }
    rewrite Ecall. assert (Edr : drop (Z.to_nat (zlen w)) (w ++ ws) = ws).
    { unfold zlen. rewrite Nat2Z.id. apply drop_app_length. }
    rewrite Edr, (read_all_fuel n (length ws)), Erd2; [done|apply Hs1|done| |done].
    rewrite length_app in En. destruct w; [done|]. simpl in En. lia.
  - simpl. split_and!; [done|done|]. by apply (receives_conn cr cr1).
Qed.
End Packet.

(** C2.  Whatever octets the peer sends, a reader in a consistent state stays
    within its buffers and passes every assertion; it consumes no more than
    it is given and everything while it waits.  A packet is delivered with
    the next sequence number, within the size limit, and, when a MAC is in
    force, only after the tag received was compared equal to the tag of
    sequence number, length and plaintext.  After an exception the reader is
    of no further use: any other call fails its [assert(left)]. *)
Theorem read_packet_safe {C} `{CL : CipherLaws C} {M} `{ML : MacLaws M} garbage tag
    (c : connection (C:=C) (M:=M)) r data
    (Hg : is_byte garbage) (Hr : reader_ok tag c r) (Hd : bytes_ok data) (Hn : data <> []) :
  exists r' c' total e,
    do_read_packet garbage r c data = Done (Some r', c', total, e) /\ 0 <= total <= zlen data /\
    match e with
    | None => total = zlen data /\ reader_ok tag c' r'
    | Some (Raise _) => forall data', data' <> [] -> do_read_packet garbage r' c' data' = Crash AssertFail
    | Some (Deliver packet n) =>
        reader_ok tag c' r' /\ n = current r /\ sequence_number r' = u32 (n + 1)
        /\ zlen packet <= rec_max_packet c' + SSH_MAX_PACKET_FUZZ
        /\ (is_Some (rec_mac c') -> exists b, mac_buffer r' = Some b
             /\ take (Z.to_nat mac_size) b
                = tag (WRITE_UINT32 n ++ WRITE_UINT32 (zlen packet) ++ packet))
    end.
Proof.
  destruct (read_switch_ok garbage Hg tag c r 0 data Hr Hd) as (r'&c'&t&e&E&Ht&He).
  exists r', c', t, e. unfold do_read_packet. destruct data as [|b data]; [done|]. rewrite E.
  split; [done|]. split; [lia|]. destruct e as [[e|p n]|]; [| |done].
  - intros [|b' data'] Hne; [done|]. by rewrite (He 0 (b' :: data')).
  - destruct He as (?&_&->&?&_&?&?). by split_and!.
Qed.

(** C1.  The packet layer is a channel: with the same keys at both ends, any
    sequence of payloads that fit is padded, authenticated and encrypted, and
    whatever pieces the octets arrive in, the reader delivers exactly the
    payloads, in order, under consecutive sequence numbers; both ends are then
    ready for more. *)
Theorem packet_channel {C} `{CL : CipherLaws C} {M} `{ML : MacLaws M} garbage tag
    (cs cr : connection (C:=C) (M:=M)) r seq ps
    (Hg : is_byte garbage) (Hs : synced tag cs cr r seq)
    (Hmax : rec_max_packet cr + SSH_MAX_PACKET_FUZZ < 2 ^ 31) (Hps : Forall (sendable cr) ps) :
  exists cs' seq' wire, send_all cs seq ps = Done (cs', seq', wire) /\
  forall chunks, mjoin chunks = wire ->
  exists r' cr' es, read_chunks garbage r cr chunks = Some (Done (r', cr', es))
  /\ receives cr seq es (ps.*1) /\ synced tag cs' cr' r' seq'.
Proof.
  destruct (channel garbage Hg tag ps cs cr r seq Hs Hmax Hps)
    as (cs'&seq'&wire&r'&cr'&es&Es&Hw&Erd&Hrec&Hs').
  exists cs', seq', wire. split; [done|]. intros chunks <-. exists r', cr', es.
  split; [|done]. rewrite (read_chunks_spec garbage Hg tag); [done|apply Hs|done].
Qed.

(** *** A connection with arcfour and HMAC-MD5 *)

#[local] Existing Instances Arcfour.arcfour_cipher Arcfour.arcfour_laws.
#[local] Existing Instances Hashes.md5_algorithm Hashes.md5_laws HMAC.hmac_mac HMAC.hmac_laws.

Definition sample_key : bytes := bytes_of_string "0123456789abcdef".

Definition sample_cipher : Arcfour.arcfour_ctx :=
  match Arcfour.arcfour_set_key sample_key with
  | Done c => c | _ => {| Arcfour.S := []; Arcfour.i := 0; Arcfour.j := 0 |}
  end.

Definition sample_mac : HMAC.hmac_instance (H := Hashes.md5_instance) :=
  match HMAC.make_hmac_instance sample_key with
  | Done m => m
  | _ => {| HMAC.hinner := Hashes.make_md5_instance; HMAC.houter := Hashes.make_md5_instance;
            HMAC.state := Hashes.make_md5_instance |}
  end.

Definition sample_connection : connection (C := Arcfour.arcfour_ctx) (M := HMAC.hmac_instance (H := Hashes.md5_instance)) :=
  {| rec_max_packet := SSH_MAX_PACKET; rec_crypto := Some sample_cipher; rec_mac := Some sample_mac;
     send_crypto := Some sample_cipher; send_mac := Some sample_mac |}.

Definition sample_tag : bytes -> bytes := HMAC.rfc_hmac (H := Hashes.md5_instance) sample_key.

Lemma sample_cipher_ok : Arcfour.ctx_ok sample_cipher.
Proof.
  assert (HS : bool_decide (Arcfour.S sample_cipher ≡ₚ Z.of_nat <$> seq 0 256) = true) by by vm_compute.
  apply bool_decide_eq_true in HS. by split.
Qed.

Lemma sample_mac_ok : absorbed sample_tag sample_mac [].
Proof.
  destruct (HMAC.make_hmac_spec (H := Hashes.md5_instance) sample_key) as (m&E&Hm).
  exists sample_key. split; [done|]. unfold sample_mac. by rewrite E.
Qed.

Lemma sample_synced : synced sample_tag sample_connection sample_connection make_read_packet 0.
Proof.
  split; try done.
  - split; [done|apply sample_cipher_ok].
  - apply sample_mac_ok.
  - split; try done.
    + apply sample_cipher_ok.
    + split; [done|apply sample_mac_ok].
Qed.

Definition zeros (n : Z) : bytes := replicate (Z.to_nat n) 0.

Lemma zeros_ok : random_ok zeros.
Proof.
  intros n Hn. unfold zeros. rewrite zlen_replicate. split; [lia|]. by apply Forall_replicate.
Qed.

Lemma packet_channel_witness :
  exists cs' seq' wire,
    send_all sample_connection 0 [(bytes_of_string "hello", zeros); ([], zeros)] = Done (cs', seq', wire) /\
  forall chunks, mjoin chunks = wire ->
  exists r' cr' es, read_chunks 0 make_read_packet sample_connection chunks = Some (Done (r', cr', es))
  /\ receives sample_connection 0 es [bytes_of_string "hello"; []]
  /\ synced sample_tag cs' cr' r' seq'.
Proof.
  apply (packet_channel 0 sample_tag sample_connection sample_connection make_read_packet 0
    [(bytes_of_string "hello", zeros); ([], zeros)]); [done|apply sample_synced|done|].
  repeat constructor; try apply zeros_ok; try done.
Defined.

Lemma read_packet_safe_witness :
  exists r' c' total e,
    do_read_packet 0 make_read_packet sample_connection (bytes_of_string "hello") = Done (Some r', c', total, e)
    /\ 0 <= total <= 5 /\
    match e with
    | None => total = 5 /\ reader_ok sample_tag c' r'
    | Some (Raise _) => forall data', data' <> [] -> do_read_packet 0 r' c' data' = Crash AssertFail
    | Some (Deliver packet n) =>
        reader_ok sample_tag c' r' /\ n = 0 /\ sequence_number r' = u32 (n + 1)
        /\ zlen packet <= rec_max_packet c' + SSH_MAX_PACKET_FUZZ
        /\ (is_Some (rec_mac c') -> exists b, mac_buffer r' = Some b
             /\ take (Z.to_nat mac_size) b
                = sample_tag (WRITE_UINT32 n ++ WRITE_UINT32 (zlen packet) ++ packet))
    end.
Proof.
  apply (read_packet_safe 0 sample_tag sample_connection make_read_packet (bytes_of_string "hello"));
    [done|apply sample_synced|apply bytes_of_string_ok|done].
Defined.
End Packet.
