(* ===== verification/Channel.v ===== *)
(** The SSH connection protocol (lsh/src/channel.c, channel_commands.c): the
    table of channel numbers, the channels with their flow control, the
    messages that are written, and one handler for every message that is
    received. The packets are taken apart by the parsers of [Parse] and put
    together by [ssh_format].

    Channel objects live in a store of their own, because callbacks refer to
    them after they have left the table. What the rest of the program does when
    it is called back (the handlers of requests and of new channels, the
    receivers of data, the continuations) is recorded in the field [trace] and
    answered by further operations of this file; the two callbacks that run in
    the middle of a handler are those of the program, [close_callback]. *)
From S2P Require Import Prelude Window Bignum Atoms Format Parse.
Import Bignum Atoms Format Parse.

Module Channel.

(** ** Constants *)

Definition SSH_MSG_DISCONNECT : Z := 1.
Definition SSH_MSG_GLOBAL_REQUEST : Z := 80.
Definition SSH_MSG_REQUEST_SUCCESS : Z := 81.
Definition SSH_MSG_REQUEST_FAILURE : Z := 82.
Definition SSH_MSG_CHANNEL_OPEN : Z := 90.
Definition SSH_MSG_CHANNEL_OPEN_CONFIRMATION : Z := 91.
Definition SSH_MSG_CHANNEL_OPEN_FAILURE : Z := 92.
Definition SSH_MSG_CHANNEL_WINDOW_ADJUST : Z := 93.
Definition SSH_MSG_CHANNEL_DATA : Z := 94.
Definition SSH_MSG_CHANNEL_EXTENDED_DATA : Z := 95.
Definition SSH_MSG_CHANNEL_EOF : Z := 96.
Definition SSH_MSG_CHANNEL_CLOSE : Z := 97.
Definition SSH_MSG_CHANNEL_REQUEST : Z := 98.
Definition SSH_MSG_CHANNEL_SUCCESS : Z := 99.
Definition SSH_MSG_CHANNEL_FAILURE : Z := 100.
Definition SSH_DISCONNECT_PROTOCOL_ERROR : Z := 2.
Definition SSH_OPEN_ADMINISTRATIVELY_PROHIBITED : Z := 1.
Definition SSH_OPEN_UNKNOWN_CHANNEL_TYPE : Z := 3.
Definition SSH_OPEN_RESOURCE_SHORTAGE : Z := 4.
Definition SSH_EXTENDED_DATA_STDERR : Z := 1.
Definition SSH_MAX_PACKET : Z := 0x8000.
Definition SSH_CHANNEL_MAX_PACKET_FUZZ : Z := 100.

Definition CHANNEL_DATA : Z := 0.
Definition CHANNEL_STDERR_DATA : Z := 1.

(** The flags of a channel. *)
Definition CHANNEL_SENT_CLOSE : Z := 1.
Definition CHANNEL_RECEIVED_CLOSE : Z := 2.
Definition CHANNEL_SENT_EOF : Z := 4.
Definition CHANNEL_RECEIVED_EOF : Z := 8.
Definition CHANNEL_CLOSE_AT_EOF : Z := 0x10.
Definition CHANNEL_NO_WAIT_FOR_EOF : Z := 0x20.

(** The entries of [in_use]. *)
Definition CHANNEL_FREE : Z := 0.
Definition CHANNEL_RESERVED : Z := 1.
Definition CHANNEL_IN_USE : Z := 2.

Definition INITIAL_CHANNELS : Z := 32.
Definition MAX_CHANNELS : Z := Z.shiftl 1 17.

(** ** Channels *)

Inductive exn :=
  | EXC_FINISH_PENDING
  | EXC_FINISH_CHANNEL
  | EXC_CHANNEL_OPEN (error_code : Z)
  | EXC_OTHER (type : Z).

(** Exception handlers: none, that of the connection, one of the rest of the
    program, and [exc_finish_channel_handler], with its [dead] flag. *)
Inductive handler :=
  | HNull
  | HConnection
  | HOther (h : Z)
  | HFinish (channel_number : Z) (dead : bool) (parent : handler).

(** The callbacks for a channel that is closed: [do_client_session_close],
    which lets the connection end with its last channel, and that of a
    gateway, which closes a channel of another connection. *)
Inductive close_callback := CloseSession | CloseChain.

(** [struct ssh_channel]. Of the other callbacks it is known whether they are
    set; the lists of request types hold the atoms that have a handler, the
    queues the identities of the requests. *)
Record ssh_channel := mkChannel {
  channel_number : Z; rec_window_size : Z; rec_max_packet : Z; send_window_size : Z; send_max_packet : Z;
  flags : Z; sources : Z; receive : bool; send_adjust : bool; close : option close_callback; eof : bool;
  request_types : option (list Z); request_fallback : bool; open_continuation : bool;
  pending_requests : list Z; active_requests : list Z; e : handler; alive : bool
}.

(** The fields of [struct channel_table]. The arrays hold the initialised
    entries; [channels] has the objects by their identity. *)
Record channel_table := mkTable {
  channels : list (option Z); in_use : list Z;
  allocated_channels : Z; used_channels : Z; next_channel : Z; channel_count : Z; max_channels : Z;
  pending_close : bool; global_requests : list Z; channel_types : list Z; open_fallback : bool;
  active_global_requests : list Z; pending_global_requests : list Z
}.

(** What is written to the peer. *)
Inductive message :=
  | Disconnect (reason : Z) (msg : bytes)
  | GlobalFailure | GlobalSuccess
  | OpenConfirmation (channel number window max_packet : Z)
  | OpenFailure (channel reason : Z) (msg : bytes)
  | ChannelSuccess (channel : Z) | ChannelFailure (channel : Z)
  | WindowAdjust (channel add : Z)
  | ChannelClose (channel : Z) | ChannelEof (channel : Z)
  | Data (channel : Z) (data : bytes)
  | ExtendedData (channel type : Z) (data : bytes)
  | ChannelOpen (type number window max_packet : Z) (args : bytes)
  | ChannelRequest (channel type want_reply : Z) (args : bytes)
  | GlobalRequest (type want_reply : Z) (args : bytes).

(** What the handlers do to the outside: a packet to the peer, the end of
    reading, an exception for a handler of the program (0: that of the
    connection), and the callbacks, with the channel, the request and its
    arguments. *)
Inductive effect :=
  | Wrote (m : message)
  | FinishRead
  | Raise (h : Z) (x : exn)
  | Receive (id type : Z) (data : bytes)
  | SendAdjust (id increment : Z)
  | EofCallback (id : Z)
  | CloseCallback (id : Z)
  | Kill (id : Z)
  | HandleGlobal (name : Z) (status : option Z) (args : bytes)
  | HandleRequest (id type : Z) (status : option Z) (args : bytes)
  | HandleOpen (type local remote window max_packet : Z) (args : bytes)
  | CommandReturn (context : Z)
  | CommandRaise (context : Z)
  | OpenReturn (id : Z).

(** A connection: the table, the channel objects and the statuses of requests
    by their identity (-1 active, 0 failure, 1 success). *)
Record conn := mkConn {
  table : channel_table; objects : gmap Z ssh_channel; statuses : gmap Z Z; fresh : Z; trace : list effect
}.

#[export] Instance set_channel_number : Setter channel_number := fun f x => mkChannel (f (channel_number x)) (rec_window_size x) (rec_max_packet x) (send_window_size x) (send_max_packet x) (flags x) (sources x) (receive x) (send_adjust x) (close x) (eof x) (request_types x) (request_fallback x) (open_continuation x) (pending_requests x) (active_requests x) (e x) (alive x).
#[export] Instance set_rec_window_size : Setter rec_window_size := fun f x => mkChannel (channel_number x) (f (rec_window_size x)) (rec_max_packet x) (send_window_size x) (send_max_packet x) (flags x) (sources x) (receive x) (send_adjust x) (close x) (eof x) (request_types x) (request_fallback x) (open_continuation x) (pending_requests x) (active_requests x) (e x) (alive x).
#[export] Instance set_rec_max_packet : Setter rec_max_packet := fun f x => mkChannel (channel_number x) (rec_window_size x) (f (rec_max_packet x)) (send_window_size x) (send_max_packet x) (flags x) (sources x) (receive x) (send_adjust x) (close x) (eof x) (request_types x) (request_fallback x) (open_continuation x) (pending_requests x) (active_requests x) (e x) (alive x).
#[export] Instance set_send_window_size : Setter send_window_size := fun f x => mkChannel (channel_number x) (rec_window_size x) (rec_max_packet x) (f (send_window_size x)) (send_max_packet x) (flags x) (sources x) (receive x) (send_adjust x) (close x) (eof x) (request_types x) (request_fallback x) (open_continuation x) (pending_requests x) (active_requests x) (e x) (alive x).
#[export] Instance set_send_max_packet : Setter send_max_packet := fun f x => mkChannel (channel_number x) (rec_window_size x) (rec_max_packet x) (send_window_size x) (f (send_max_packet x)) (flags x) (sources x) (receive x) (send_adjust x) (close x) (eof x) (request_types x) (request_fallback x) (open_continuation x) (pending_requests x) (active_requests x) (e x) (alive x).
#[export] Instance set_flags : Setter flags := fun f x => mkChannel (channel_number x) (rec_window_size x) (rec_max_packet x) (send_window_size x) (send_max_packet x) (f (flags x)) (sources x) (receive x) (send_adjust x) (close x) (eof x) (request_types x) (request_fallback x) (open_continuation x) (pending_requests x) (active_requests x) (e x) (alive x).
#[export] Instance set_sources : Setter sources := fun f x => mkChannel (channel_number x) (rec_window_size x) (rec_max_packet x) (send_window_size x) (send_max_packet x) (flags x) (f (sources x)) (receive x) (send_adjust x) (close x) (eof x) (request_types x) (request_fallback x) (open_continuation x) (pending_requests x) (active_requests x) (e x) (alive x).
#[export] Instance set_receive : Setter receive := fun f x => mkChannel (channel_number x) (rec_window_size x) (rec_max_packet x) (send_window_size x) (send_max_packet x) (flags x) (sources x) (f (receive x)) (send_adjust x) (close x) (eof x) (request_types x) (request_fallback x) (open_continuation x) (pending_requests x) (active_requests x) (e x) (alive x).
#[export] Instance set_send_adjust : Setter send_adjust := fun f x => mkChannel (channel_number x) (rec_window_size x) (rec_max_packet x) (send_window_size x) (send_max_packet x) (flags x) (sources x) (receive x) (f (send_adjust x)) (close x) (eof x) (request_types x) (request_fallback x) (open_continuation x) (pending_requests x) (active_requests x) (e x) (alive x).
#[export] Instance set_close : Setter close := fun f x => mkChannel (channel_number x) (rec_window_size x) (rec_max_packet x) (send_window_size x) (send_max_packet x) (flags x) (sources x) (receive x) (send_adjust x) (f (close x)) (eof x) (request_types x) (request_fallback x) (open_continuation x) (pending_requests x) (active_requests x) (e x) (alive x).
#[export] Instance set_eof : Setter eof := fun f x => mkChannel (channel_number x) (rec_window_size x) (rec_max_packet x) (send_window_size x) (send_max_packet x) (flags x) (sources x) (receive x) (send_adjust x) (close x) (f (eof x)) (request_types x) (request_fallback x) (open_continuation x) (pending_requests x) (active_requests x) (e x) (alive x).
#[export] Instance set_request_types : Setter request_types := fun f x => mkChannel (channel_number x) (rec_window_size x) (rec_max_packet x) (send_window_size x) (send_max_packet x) (flags x) (sources x) (receive x) (send_adjust x) (close x) (eof x) (f (request_types x)) (request_fallback x) (open_continuation x) (pending_requests x) (active_requests x) (e x) (alive x).
#[export] Instance set_request_fallback : Setter request_fallback := fun f x => mkChannel (channel_number x) (rec_window_size x) (rec_max_packet x) (send_window_size x) (send_max_packet x) (flags x) (sources x) (receive x) (send_adjust x) (close x) (eof x) (request_types x) (f (request_fallback x)) (open_continuation x) (pending_requests x) (active_requests x) (e x) (alive x).
#[export] Instance set_open_continuation : Setter open_continuation := fun f x => mkChannel (channel_number x) (rec_window_size x) (rec_max_packet x) (send_window_size x) (send_max_packet x) (flags x) (sources x) (receive x) (send_adjust x) (close x) (eof x) (request_types x) (request_fallback x) (f (open_continuation x)) (pending_requests x) (active_requests x) (e x) (alive x).
#[export] Instance set_pending_requests : Setter pending_requests := fun f x => mkChannel (channel_number x) (rec_window_size x) (rec_max_packet x) (send_window_size x) (send_max_packet x) (flags x) (sources x) (receive x) (send_adjust x) (close x) (eof x) (request_types x) (request_fallback x) (open_continuation x) (f (pending_requests x)) (active_requests x) (e x) (alive x).
#[export] Instance set_active_requests : Setter active_requests := fun f x => mkChannel (channel_number x) (rec_window_size x) (rec_max_packet x) (send_window_size x) (send_max_packet x) (flags x) (sources x) (receive x) (send_adjust x) (close x) (eof x) (request_types x) (request_fallback x) (open_continuation x) (pending_requests x) (f (active_requests x)) (e x) (alive x).
#[export] Instance set_e : Setter e := fun f x => mkChannel (channel_number x) (rec_window_size x) (rec_max_packet x) (send_window_size x) (send_max_packet x) (flags x) (sources x) (receive x) (send_adjust x) (close x) (eof x) (request_types x) (request_fallback x) (open_continuation x) (pending_requests x) (active_requests x) (f (e x)) (alive x).
#[export] Instance set_alive : Setter alive := fun f x => mkChannel (channel_number x) (rec_window_size x) (rec_max_packet x) (send_window_size x) (send_max_packet x) (flags x) (sources x) (receive x) (send_adjust x) (close x) (eof x) (request_types x) (request_fallback x) (open_continuation x) (pending_requests x) (active_requests x) (e x) (f (alive x)).

#[export] Instance set_channels : Setter channels := fun f x => mkTable (f (channels x)) (in_use x) (allocated_channels x) (used_channels x) (next_channel x) (channel_count x) (max_channels x) (pending_close x) (global_requests x) (channel_types x) (open_fallback x) (active_global_requests x) (pending_global_requests x).
#[export] Instance set_in_use : Setter in_use := fun f x => mkTable (channels x) (f (in_use x)) (allocated_channels x) (used_channels x) (next_channel x) (channel_count x) (max_channels x) (pending_close x) (global_requests x) (channel_types x) (open_fallback x) (active_global_requests x) (pending_global_requests x).
#[export] Instance set_allocated_channels : Setter allocated_channels := fun f x => mkTable (channels x) (in_use x) (f (allocated_channels x)) (used_channels x) (next_channel x) (channel_count x) (max_channels x) (pending_close x) (global_requests x) (channel_types x) (open_fallback x) (active_global_requests x) (pending_global_requests x).
#[export] Instance set_used_channels : Setter used_channels := fun f x => mkTable (channels x) (in_use x) (allocated_channels x) (f (used_channels x)) (next_channel x) (channel_count x) (max_channels x) (pending_close x) (global_requests x) (channel_types x) (open_fallback x) (active_global_requests x) (pending_global_requests x).
#[export] Instance set_next_channel : Setter next_channel := fun f x => mkTable (channels x) (in_use x) (allocated_channels x) (used_channels x) (f (next_channel x)) (channel_count x) (max_channels x) (pending_close x) (global_requests x) (channel_types x) (open_fallback x) (active_global_requests x) (pending_global_requests x).
#[export] Instance set_channel_count : Setter channel_count := fun f x => mkTable (channels x) (in_use x) (allocated_channels x) (used_channels x) (next_channel x) (f (channel_count x)) (max_channels x) (pending_close x) (global_requests x) (channel_types x) (open_fallback x) (active_global_requests x) (pending_global_requests x).
#[export] Instance set_max_channels : Setter max_channels := fun f x => mkTable (channels x) (in_use x) (allocated_channels x) (used_channels x) (next_channel x) (channel_count x) (f (max_channels x)) (pending_close x) (global_requests x) (channel_types x) (open_fallback x) (active_global_requests x) (pending_global_requests x).
#[export] Instance set_pending_close : Setter pending_close := fun f x => mkTable (channels x) (in_use x) (allocated_channels x) (used_channels x) (next_channel x) (channel_count x) (max_channels x) (f (pending_close x)) (global_requests x) (channel_types x) (open_fallback x) (active_global_requests x) (pending_global_requests x).
#[export] Instance set_global_requests : Setter global_requests := fun f x => mkTable (channels x) (in_use x) (allocated_channels x) (used_channels x) (next_channel x) (channel_count x) (max_channels x) (pending_close x) (f (global_requests x)) (channel_types x) (open_fallback x) (active_global_requests x) (pending_global_requests x).
#[export] Instance set_channel_types : Setter channel_types := fun f x => mkTable (channels x) (in_use x) (allocated_channels x) (used_channels x) (next_channel x) (channel_count x) (max_channels x) (pending_close x) (global_requests x) (f (channel_types x)) (open_fallback x) (active_global_requests x) (pending_global_requests x).
#[export] Instance set_open_fallback : Setter open_fallback := fun f x => mkTable (channels x) (in_use x) (allocated_channels x) (used_channels x) (next_channel x) (channel_count x) (max_channels x) (pending_close x) (global_requests x) (channel_types x) (f (open_fallback x)) (active_global_requests x) (pending_global_requests x).
#[export] Instance set_active_global_requests : Setter active_global_requests := fun f x => mkTable (channels x) (in_use x) (allocated_channels x) (used_channels x) (next_channel x) (channel_count x) (max_channels x) (pending_close x) (global_requests x) (channel_types x) (open_fallback x) (f (active_global_requests x)) (pending_global_requests x).
#[export] Instance set_pending_global_requests : Setter pending_global_requests := fun f x => mkTable (channels x) (in_use x) (allocated_channels x) (used_channels x) (next_channel x) (channel_count x) (max_channels x) (pending_close x) (global_requests x) (channel_types x) (open_fallback x) (active_global_requests x) (f (pending_global_requests x)).

#[export] Instance set_table : Setter table := fun f x => mkConn (f (table x)) (objects x) (statuses x) (fresh x) (trace x).
#[export] Instance set_objects : Setter objects := fun f x => mkConn (table x) (f (objects x)) (statuses x) (fresh x) (trace x).
#[export] Instance set_statuses : Setter statuses := fun f x => mkConn (table x) (objects x) (f (statuses x)) (fresh x) (trace x).
#[export] Instance set_fresh : Setter fresh := fun f x => mkConn (table x) (objects x) (statuses x) (f (fresh x)) (trace x).
#[export] Instance set_trace : Setter trace := fun f x => mkConn (table x) (objects x) (statuses x) (fresh x) (f (trace x)).

(** ** Messages *)

Definition DISCONNECT_format (code : Z) (msg : bytes) : outcome bytes :=
  ssh_format "%c%i%z%z" [VWord SSH_MSG_DISCONNECT; VWord code; VCstr msg; VCstr []].
Definition format_global_failure : outcome bytes := ssh_format "%c" [VWord SSH_MSG_REQUEST_FAILURE].
Definition format_global_success : outcome bytes := ssh_format "%c" [VWord SSH_MSG_REQUEST_SUCCESS].
Definition format_open_failure (channel reason : Z) (msg : bytes) : outcome bytes :=
  ssh_format "%c%i%i%z%z" [VWord SSH_MSG_CHANNEL_OPEN_FAILURE; VWord channel; VWord reason; VCstr msg; VCstr []].
Definition format_channel_success (channel : Z) : outcome bytes :=
  ssh_format "%c%i" [VWord SSH_MSG_CHANNEL_SUCCESS; VWord channel].
Definition format_channel_failure (channel : Z) : outcome bytes :=
  ssh_format "%c%i" [VWord SSH_MSG_CHANNEL_FAILURE; VWord channel].
Definition format_window_adjust (channel add : Z) : outcome bytes :=
  ssh_format "%c%i%i" [VWord SSH_MSG_CHANNEL_WINDOW_ADJUST; VWord channel; VWord add].
Definition format_channel_close (channel : Z) : outcome bytes :=
  ssh_format "%c%i" [VWord SSH_MSG_CHANNEL_CLOSE; VWord channel].
Definition format_channel_eof (channel : Z) : outcome bytes :=
  ssh_format "%c%i" [VWord SSH_MSG_CHANNEL_EOF; VWord channel].
Definition format_data (channel : Z) (data : bytes) : outcome bytes :=
  ssh_format "%c%i%fS" [VWord SSH_MSG_CHANNEL_DATA; VWord channel; VString data].
Definition format_extended_data (channel type : Z) (data : bytes) : outcome bytes :=
  ssh_format "%c%i%i%fS" [VWord SSH_MSG_CHANNEL_EXTENDED_DATA; VWord channel; VWord type; VString data].

(** A packet of two parts: the length of each is found, and each is written in
    its place. The arguments of the second part are already formatted. *)
Definition two_parts (f : string) (args : list fmt_arg) (rest : bytes) : outcome bytes :=
  head ← ssh_format f args; Done (head ++ rest).

Definition format_open_confirmation (channel number window max_packet : Z) : outcome bytes :=
  two_parts "%c%i%i%i%i"
    [VWord SSH_MSG_CHANNEL_OPEN_CONFIRMATION; VWord channel; VWord number; VWord window; VWord max_packet] [].
Definition format_channel_open (type number window max_packet : Z) (args : bytes) : outcome bytes :=
  two_parts "%c%a%i%i%i" [VWord SSH_MSG_CHANNEL_OPEN; VWord type; VWord number; VWord window; VWord max_packet] args.
Definition format_channel_request (channel type want_reply : Z) (args : bytes) : outcome bytes :=
  two_parts "%c%i%a%c" [VWord SSH_MSG_CHANNEL_REQUEST; VWord channel; VWord type; VWord want_reply] args.
Definition format_global_request (type want_reply : Z) (args : bytes) : outcome bytes :=
  two_parts "%c%a%c" [VWord SSH_MSG_GLOBAL_REQUEST; VWord type; VWord want_reply] args.

(** The octets of a message. *)
Definition encode (m : message) : outcome bytes :=
  match m with
  | Disconnect reason msg => DISCONNECT_format reason msg
  | GlobalFailure => format_global_failure
  | GlobalSuccess => format_global_success
  | OpenConfirmation channel number window max_packet => format_open_confirmation channel number window max_packet
  | OpenFailure channel reason msg => format_open_failure channel reason msg
  | ChannelSuccess channel => format_channel_success channel
  | ChannelFailure channel => format_channel_failure channel
  | WindowAdjust channel add => format_window_adjust channel add
  | ChannelClose channel => format_channel_close channel
  | ChannelEof channel => format_channel_eof channel
  | Data channel data => format_data channel data
  | ExtendedData channel type data => format_extended_data channel type data
  | ChannelOpen type number window max_packet args => format_channel_open type number window max_packet args
  | ChannelRequest channel type want_reply args => format_channel_request channel type want_reply args
  | GlobalRequest type want_reply args => format_global_request type want_reply args
  end.

(** ** The connection *)

Definition note (x : effect) (c : conn) : conn := c <| trace := trace c ++ [x] |>.

Definition C_WRITE (m : message) (c : conn) : conn := note (Wrote m) c.

(** [PROTOCOL_ERROR (connection->e, msg)]: the handler of the connection sends
    a disconnect message and stops reading. *)
Definition PROTOCOL_ERROR (msg : string) (c : conn) : conn :=
  note FinishRead (C_WRITE (Disconnect SSH_DISCONNECT_PROTOCOL_ERROR (bytes_of_string msg)) c).

(** The object behind a pointer. *)
Definition object (id : Z) (c : conn) : outcome ssh_channel :=
  match objects c !! id with Some x => Done x | None => Crash NullDeref end.

Definition put_object (id : Z) (x : ssh_channel) (c : conn) : conn := c <| objects := <[id := x]> (objects c) |>.

Definition has (f : Z) (x : ssh_channel) : bool := negb (Z.land (flags x) f =? 0).
Definition set_flag (f : Z) (x : ssh_channel) : ssh_channel := x <| flags := Z.lor (flags x) f |>.

(** ** The table *)

(** An entry of an array; those beyond the initialised ones are not there. *)
Definition entry {A} (i : Z) (l : list A) : outcome A :=
  if 0 <=? i then match l !! Z.to_nat i with Some v => Done v | None => Crash OutOfBounds end else Crash OutOfBounds.

(** Writing an entry, which may be the first that is not initialised yet. *)
Definition put_entry {A} (allocated i : Z) (v : A) (l : list A) : outcome (list A) :=
  if (0 <=? i) && (i <? zlen l) then Done (<[Z.to_nat i := v]> l)
  else if (i =? zlen l) && (i <? allocated) then Done (l ++ [v])
  else Crash OutOfBounds.

Definition make_channel_table : channel_table :=
  mkTable [] [] INITIAL_CHANNELS 0 0 0 MAX_CHANNELS false [] [] false [] [].

(** The loop of [alloc_channel] over [n] entries from [i] on. *)
Fixpoint free_from (n : nat) (i : Z) (t : channel_table) : outcome (option Z) :=
  match n with
  | O => Done None
  | S n =>
    u ← entry i (in_use t);
    if u =? CHANNEL_FREE then
      x ← entry i (channels t);
      _ ← assert_that (bool_decide (x = None));
      Done (Some i)
    else free_from n (i + 1) t
  end.

Definition put_in_use (i v : Z) (t : channel_table) : outcome channel_table :=
  l ← put_entry (allocated_channels t) i v (in_use t); Done (t <| in_use := l |>).
Definition put_channel (i : Z) (v : option Z) (t : channel_table) : outcome channel_table :=
  l ← put_entry (allocated_channels t) i v (channels t); Done (t <| channels := l |>).

(** The number, or -1 when no more are allowed. *)
Definition alloc_channel (t : channel_table) : outcome (Z * channel_table) :=
  r ← free_from (Z.to_nat (used_channels t - next_channel t)) (next_channel t) t;
  match r with
  | Some i =>
    t ← put_in_use i CHANNEL_RESERVED t;
    Done (i, t <| next_channel := i + 1 |> <| channel_count := channel_count t + 1 |>)
  | None =>
    let i := Z.max (next_channel t) (used_channels t) in
    if i =? max_channels t then Done (-1, t)
    else
      let t := if i =? allocated_channels t then t <| allocated_channels := u32 (allocated_channels t * 2) |> else t in
      let t := t <| used_channels := i + 1 |> <| next_channel := i + 1 |> in
      t ← put_in_use i CHANNEL_RESERVED t;
      t ← put_channel i None t;
      Done (i, t <| channel_count := channel_count t + 1 |>)
  end.

Definition dealloc_channel (i : Z) (t : channel_table) : outcome channel_table :=
  _ ← assert_that (0 <=? i);
  _ ← assert_that (i <? used_channels t);
  _ ← assert_that (negb (channel_count t =? 0));
  t ← put_channel i None t;
  t ← put_in_use i CHANNEL_FREE t;
  let t := t <| channel_count := channel_count t - 1 |> in
  Done (if i <? next_channel t then t <| next_channel := i |> else t).

Definition use_channel (local : Z) (t : channel_table) : outcome channel_table :=
  x ← entry local (channels t);
  _ ← assert_that (bool_decide (x <> None));
  u ← entry local (in_use t);
  _ ← assert_that (u =? CHANNEL_RESERVED);
  put_in_use local CHANNEL_IN_USE t.

(** The channel object [x] is stored under [id]. The connection remembers its
    resources. *)
Definition register_channel (local id : Z) (x : ssh_channel) (take_into_use : bool) (c : conn) : outcome conn :=
  u ← entry local (in_use (table c));
  _ ← assert_that (u =? CHANNEL_RESERVED);
  o ← entry local (channels (table c));
  _ ← assert_that (bool_decide (o = None));
  let parent := match e x with HNull => HConnection | h => h end in
  let c := put_object id (x <| e := HFinish local false parent |>) c in
  t ← put_channel local (Some id) (table c);
  t ← (if take_into_use then use_channel local t else Done t);
  Done (c <| table := t |>).

Definition lookup_entry (state i : Z) (t : channel_table) : outcome (option Z) :=
  if i <? used_channels t then
    u ← entry i (in_use t); if u =? state then entry i (channels t) else Done None
  else Done None.
Definition lookup_channel : Z -> channel_table -> outcome (option Z) := lookup_entry CHANNEL_IN_USE.
Definition lookup_channel_reserved : Z -> channel_table -> outcome (option Z) := lookup_entry CHANNEL_RESERVED.

(** Applying an operation of the table. *)
Definition on_table (f : channel_table -> outcome channel_table) (c : conn) : outcome conn :=
  t ← f (table c); Done (c <| table := t |>).

(** ** Exceptions of a channel *)

(** [EXC_FINISH_PENDING], raised by a closed session: the connection is to end
    with its last channel. *)
Definition raise_pending (h : handler) (c : conn) : outcome conn :=
  match h with
  | HNull => Crash NullDeref
  | HConnection => Done (note (Raise 0 EXC_FINISH_PENDING) c)
  | HOther h => Done (note (Raise h EXC_FINISH_PENDING) c)
  | HFinish _ _ _ => on_table (fun t => Done (t <| pending_close := true |>)) c
  end.

(** [EXC_FINISH_CHANNEL] on a channel that is not dead. The callbacks of the
    files that are closed with the channel are further operations
    ([channel_read_close_callback]). *)
Definition finish_channel (number : Z) (c : conn) : outcome conn :=
  o ← entry number (channels (table c));
  match o with
  | None => Crash AssertFail
  | Some id =>
    x ← object id c;
    _ ← assert_that (alive x);
    c ← match close x with
        | Some CloseSession => raise_pending (e x) (note (CloseCallback id) c)
        | Some CloseChain => Done (note (CloseCallback id) c)
        | None => Done c
        end;
    x ← object id c;
    c ← on_table (dealloc_channel number) (note (Kill id) (put_object id (x <| alive := false |>) c));
    Done (if pending_close (table c) && (channel_count (table c) =? 0) then note FinishRead c else c)
  end.

(** Raising an exception: the handler afterwards, whose [dead] flag may be
    set. *)
Fixpoint raise_handler (h : handler) (x : exn) (c : conn) : outcome (handler * conn) :=
  match h with
  | HNull => Crash NullDeref
  | HConnection => Done (h, note (Raise 0 x) c)
  | HOther k => Done (h, note (Raise k x) c)
  | HFinish number dead parent =>
    match x with
    | EXC_FINISH_PENDING => c ← raise_pending h c; Done (h, c)
    | EXC_FINISH_CHANNEL =>
      if dead then Done (h, c) else c ← finish_channel number c; Done (HFinish number true parent, c)
    | _ => '(parent, c) ← raise_handler parent x c; Done (HFinish number dead parent, c)
    end
  end.

(** [EXCEPTION_RAISE (channel->e, x)] *)
Definition raise_channel (id : Z) (x : exn) (c : conn) : outcome conn :=
  ch ← object id c;
  '(h, c) ← raise_handler (e ch) x c;
  ch ← object id c;
  Done (put_object id (ch <| e := h |>) c).

(** ** Closing *)

Definition channel_close (id : Z) (c : conn) : outcome conn :=
  x ← object id c;
  if has CHANNEL_SENT_CLOSE x then Done c
  else
    let c := C_WRITE (ChannelClose (channel_number x)) (put_object id (set_flag CHANNEL_SENT_CLOSE x) c) in
    if has CHANNEL_RECEIVED_CLOSE x then raise_channel id EXC_FINISH_CHANNEL c else Done c.

Definition channel_eof (id : Z) (c : conn) : outcome conn :=
  x ← object id c;
  if has (Z.lor CHANNEL_SENT_EOF (Z.lor CHANNEL_SENT_CLOSE CHANNEL_RECEIVED_CLOSE)) x then Done c
  else
    let c := C_WRITE (ChannelEof (channel_number x)) (put_object id (set_flag CHANNEL_SENT_EOF x) c) in
    if has CHANNEL_CLOSE_AT_EOF x && has (Z.lor CHANNEL_RECEIVED_EOF CHANNEL_NO_WAIT_FOR_EOF) x then channel_close id c
    else Done c.

(** ** Flow control *)

Definition grant (add : Z) (x : ssh_channel) : ssh_channel := x <| rec_window_size := u32 (rec_window_size x + add) |>.

Definition prepare_window_adjust (id add : Z) (c : conn) : outcome conn :=
  x ← object id c; Done (C_WRITE (WindowAdjust (channel_number x) add) (put_object id (grant add x) c)).

(** [FLOW_CONTROL_REPORT]: so many octets were consumed. *)
Definition adjust_rec_window (id written : Z) (c : conn) : outcome conn :=
  x ← object id c;
  if has (Z.lor CHANNEL_RECEIVED_EOF (Z.lor CHANNEL_RECEIVED_CLOSE CHANNEL_SENT_CLOSE)) x then Done c
  else prepare_window_adjust id written c.

Definition channel_start_receive (id initial_window_size : Z) (c : conn) : outcome conn :=
  x ← object id c;
  if rec_window_size x <? initial_window_size then
    prepare_window_adjust id (u32 (initial_window_size - rec_window_size x)) c
  else Done c.

(** What a channel takes of the data received, cut to the packet size and to
    the window. *)
Definition accept_data (data : bytes) (x : ssh_channel) : bytes * ssh_channel :=
  let data := if rec_max_packet x <? zlen data then take (Z.to_nat (rec_max_packet x)) data else data in
  let data := if rec_window_size x <? zlen data then take (Z.to_nat (rec_window_size x)) data else data in
  (data, x <| rec_window_size := u32 (rec_window_size x - zlen data) |>).

(** The window the peer grants. *)
Definition widen (size : Z) (x : ssh_channel) : ssh_channel := x <| send_window_size := u32 (send_window_size x + size) |>.

(** What [channel_transmit_data] and [channel_transmit_extended] do to the
    channel. *)
Definition transmit (data : bytes) (x : ssh_channel) : outcome ssh_channel :=
  _ ← assert_that (zlen data <=? send_window_size x);
  _ ← assert_that (zlen data <=? send_max_packet x);
  Done (x <| send_window_size := u32 (send_window_size x - zlen data) |>).

Definition channel_transmit_data (id : Z) (data : bytes) (c : conn) : outcome conn :=
  x ← object id c; x ← transmit data x; Done (C_WRITE (Data (channel_number x) data) (put_object id x c)).

Definition channel_transmit_extended (id type : Z) (data : bytes) (c : conn) : outcome conn :=
  x ← object id c; x ← transmit data x; Done (C_WRITE (ExtendedData (channel_number x) type data) (put_object id x c)).

(** The end of a source: nothing is sent while there are others. *)
Definition source_eof (id : Z) (c : conn) : outcome conn :=
  x ← object id c;
  _ ← assert_that (negb (sources x =? 0));
  if sources x =? 1 then channel_eof id c else Done c.

Definition do_channel_write (id : Z) (packet : option bytes) (c : conn) : outcome conn :=
  match packet with None => source_eof id c | Some data => channel_transmit_data id data c end.

Definition do_channel_write_extended (id type : Z) (packet : option bytes) (c : conn) : outcome conn :=
  match packet with None => source_eof id c | Some data => channel_transmit_extended id type data c end.

Definition make_read_data (id : Z) (c : conn) : outcome conn :=
  x ← object id c; Done (put_object id (x <| sources := sources x + 1 |>) c).

(** How much may be read from a source. *)
Definition do_read_data_query (x : ssh_channel) : outcome Z :=
  _ ← assert_that (negb (sources x =? 0));
  Done (if has (Z.lor CHANNEL_RECEIVED_CLOSE (Z.lor CHANNEL_SENT_CLOSE CHANNEL_SENT_EOF)) x then 0
        else Z.min (send_max_packet x) (send_window_size x)).

Definition channel_read_close_callback (id : Z) (c : conn) : outcome conn :=
  x ← object id c;
  _ ← assert_that (negb (sources x =? 0));
  let c := put_object id (x <| sources := sources x - 1 |>) c in
  if sources x =? 1 then channel_eof id c else Done c.

(** An input/output error. *)
Definition do_channel_io_exception_handler : Z -> conn -> outcome conn := channel_close.

(** ** Replies to requests *)

Definition status (n : Z) (c : conn) : Z := default (-1) (statuses c !! n).

(** The requests at the head of a queue that are not active any more, with
    their statuses, and the rest of the queue. *)
Fixpoint decided (st : gmap Z Z) (q : list Z) : list Z * list Z :=
  match q with
  | [] => ([], [])
  | n :: r =>
    let s := default (-1) (st !! n) in
    if s <? 0 then ([], q) else let '(l, q) := decided st r in (s :: l, q)
  end.

Definition write_all (ms : list message) (c : conn) : conn := foldl (fun c m => C_WRITE m c) c ms.

Definition global_reply (s : Z) : message := if s =? 0 then GlobalFailure else GlobalSuccess.
Definition channel_reply (channel s : Z) : message := if s =? 0 then ChannelFailure channel else ChannelSuccess channel.

Definition send_global_request_responses (c : conn) : conn :=
  let '(l, q) := decided (statuses c) (active_global_requests (table c)) in
  write_all (global_reply <$> l) (c <| table := (table c) <| active_global_requests := q |> |>).

Definition send_channel_request_responses (id : Z) (c : conn) : outcome conn :=
  x ← object id c;
  let '(l, q) := decided (statuses c) (active_requests x) in
  Done (write_all (channel_reply (channel_number x) <$> l) (put_object id (x <| active_requests := q |>) c)).

Definition set_status (n s : Z) (c : conn) : conn := c <| statuses := <[n := s]> (statuses c) |>.

(** A global request succeeded ([do_global_request_response], 1) or failed
    ([do_exc_global_request_handler], 0). *)
Definition do_global_request_response (n s : Z) (c : conn) : outcome conn :=
  _ ← assert_that (status n c =? -1);
  _ ← assert_that (bool_decide (active_global_requests (table c) <> []));
  Done (send_global_request_responses (set_status n s c)).

(** The same for a request on a channel. *)
Definition do_channel_request_response (id n s : Z) (c : conn) : outcome conn :=
  _ ← assert_that (status n c =? -1);
  x ← object id c;
  _ ← assert_that (bool_decide (active_requests x <> []));
  send_channel_request_responses id (set_status n s c).

(** A new request with status -1. *)
Definition make_request_status (c : conn) : Z * conn := (fresh c, set_status (fresh c) (-1) c <| fresh := fresh c + 1 |>).

(** ** Parsing the messages *)

Definition message_number (m : Z) : Parser unit := n ← parse_uint8; if n =? m then mret tt else reject.
Definition end_of_data : Parser unit := eod ← parse_eod; if (eod : bool) then mret tt else reject.

(** A packet that a handler takes apart with [p]; the octets [p] leaves are
    arguments for somebody else. *)
Definition parsing {A} (p : Parser A) (packet : bytes) (bad : string) (k : A -> bytes -> conn -> outcome conn) (c : conn) : outcome conn :=
  match p (simple_buffer_init (zlen packet) packet) with
  | (Done a, b) => k a (rest b) c
  | (Reject, _) => Done (PROTOCOL_ERROR bad c)
  | (Crash x, _) => Crash x
  end.

Definition parse_global_request : Parser (Z * Z) :=
  _ ← message_number SSH_MSG_GLOBAL_REQUEST; name ← parse_atom; want ← parse_boolean; mret (name, want).

Definition parse_channel_request : Parser (Z * bytes * Z) :=
  _ ← message_number SSH_MSG_CHANNEL_REQUEST; n ← parse_uint32; type ← parse_string; want ← parse_boolean; mret (n, type, want).

Definition parse_channel_open : Parser (bytes * Z * Z * Z) :=
  _ ← message_number SSH_MSG_CHANNEL_OPEN; type ← parse_string; remote ← parse_uint32; window ← parse_uint32; size ← parse_uint32;
  mret (type, remote, window, if SSH_MAX_PACKET - SSH_CHANNEL_MAX_PACKET_FUZZ <? size then SSH_MAX_PACKET - SSH_CHANNEL_MAX_PACKET_FUZZ else size).

Definition parse_window_adjust : Parser (Z * Z) :=
  _ ← message_number SSH_MSG_CHANNEL_WINDOW_ADJUST; n ← parse_uint32; size ← parse_uint32; _ ← end_of_data; mret (n, size).

Definition parse_data : Parser (Z * bytes) :=
  _ ← message_number SSH_MSG_CHANNEL_DATA; n ← parse_uint32; data ← parse_string_copy; _ ← end_of_data; mret (n, data).

Definition parse_extended_data : Parser (Z * Z * bytes) :=
  _ ← message_number SSH_MSG_CHANNEL_EXTENDED_DATA; n ← parse_uint32; type ← parse_uint32; data ← parse_string_copy; _ ← end_of_data;
  mret (n, type, data).

(** A message that holds a channel number only. *)
Definition parse_channel_message (m : Z) : Parser Z := _ ← message_number m; n ← parse_uint32; _ ← end_of_data; mret n.

Definition parse_open_confirmation : Parser (Z * Z * Z * Z) :=
  _ ← message_number SSH_MSG_CHANNEL_OPEN_CONFIRMATION; local ← parse_uint32; remote ← parse_uint32; window ← parse_uint32; size ← parse_uint32;
  _ ← end_of_data; mret (local, remote, window, size).

Definition parse_open_failure : Parser (Z * Z) :=
  _ ← message_number SSH_MSG_CHANNEL_OPEN_FAILURE; n ← parse_uint32; reason ← parse_uint32; _ ← parse_string; _ ← parse_string; _ ← end_of_data;
  mret (n, reason).

(** ** The handlers *)

Definition global_request_handler (packet : bytes) : conn -> outcome conn :=
  parsing parse_global_request packet "Invalid SSH_MSG_GLOBAL_REQUEST message." (fun '(name, want) args c =>
    if negb (name =? 0) && bool_decide (name ∈ global_requests (table c)) then
      if want =? 0 then Done (note (HandleGlobal name None args) c)
      else
        let '(n, c) := make_request_status c in
        let c := c <| table := (table c) <| active_global_requests := active_global_requests (table c) ++ [n] |> |> in
        Done (note (HandleGlobal name (Some n) args) c)
    else Done (C_WRITE GlobalFailure c)).

(** The next command that waits for a reply, and the others. *)
Definition next_pending (q : list Z) (f : Z -> list Z -> conn -> conn) (c : conn) : conn :=
  match q with [] => c | ctx :: q => f ctx q c end.

Definition set_pending_global (q : list Z) (c : conn) : conn := c <| table := (table c) <| pending_global_requests := q |> |>.

Definition global_success_handler (packet : bytes) (c : conn) : outcome conn :=
  match packet with
  | [b] =>
    _ ← assert_that (b =? SSH_MSG_REQUEST_SUCCESS);
    Done (next_pending (pending_global_requests (table c)) (fun ctx q c => note (CommandReturn ctx) (set_pending_global q c)) c)
  | _ => Done (PROTOCOL_ERROR "Invalid GLOBAL_REQUEST_SUCCESS message." c)
  end.

Definition global_failure_handler (packet : bytes) (c : conn) : outcome conn :=
  match packet with
  | [b] =>
    _ ← assert_that (b =? SSH_MSG_REQUEST_FAILURE);
    Done (next_pending (pending_global_requests (table c)) (fun ctx q c => note (CommandRaise ctx) (set_pending_global q c)) c)
  | _ => Done (PROTOCOL_ERROR "Invalid GLOBAL_REQUEST_FAILURE message." c)
  end.

(** Whether a request type has a handler. *)
Definition handles (type : Z) (x : ssh_channel) : bool :=
  negb (type =? 0) && match request_types x with Some l => bool_decide (type ∈ l) | None => false end || request_fallback x.

Definition channel_request_handler (packet : bytes) : conn -> outcome conn :=
  parsing parse_channel_request packet "Invalid SSH_MSG_CHANNEL_REQUEST message." (fun '(number, name, want) args c =>
    let type := lookup_atom name in
    o ← lookup_channel number (table c);
    match o with
    | None => Done c
    | Some id =>
      x ← object id c;
      if handles type x then
        if want =? 0 then Done (note (HandleRequest id type None args) c)
        else
          let '(n, c) := make_request_status c in
          let c := put_object id (x <| active_requests := active_requests x ++ [n] |>) c in
          Done (note (HandleRequest id type (Some n) args) c)
      else Done (if want =? 0 then c else C_WRITE (ChannelFailure (channel_number x)) c)
    end).

(** A failed allocation is answered, but the handler of the new channel is
    called all the same, with the number -1. *)
Definition channel_open_handler (packet : bytes) : conn -> outcome conn :=
  parsing parse_channel_open packet "Invalid SSH_MSG_CHANNEL_OPEN message." (fun '(name, remote, window, size) args c =>
    let type := lookup_atom name in
    if pending_close (table c) then
      Done (C_WRITE (OpenFailure remote SSH_OPEN_ADMINISTRATIVELY_PROHIBITED (bytes_of_string "Waiting for channels to close.")) c)
    else if negb (type =? 0) && bool_decide (type ∈ channel_types (table c)) || open_fallback (table c) then
      '(local, t) ← alloc_channel (table c);
      let c := c <| table := t |> in
      let c := if local <? 0 then C_WRITE (OpenFailure remote SSH_OPEN_RESOURCE_SHORTAGE (bytes_of_string "Channel limit exceeded.")) c else c in
      Done (note (HandleOpen type local remote window size args) c)
    else Done (C_WRITE (OpenFailure remote SSH_OPEN_UNKNOWN_CHANNEL_TYPE (bytes_of_string "Unknown channel type")) c)).

Definition window_adjust_handler (packet : bytes) : conn -> outcome conn :=
  parsing parse_window_adjust packet "Invalid CHANNEL_WINDOW_ADJUST message." (fun '(number, size) _ c =>
    let bad := Done (PROTOCOL_ERROR "Unexpected CHANNEL_WINDOW_ADJUST" c) in
    o ← lookup_channel number (table c);
    match o with
    | None => bad
    | Some id =>
      x ← object id c;
      if has CHANNEL_RECEIVED_CLOSE x then bad
      else if has (Z.lor CHANNEL_SENT_CLOSE CHANNEL_SENT_EOF) x then Done c
      else
        let x := widen size x in
        let c := put_object id x c in
        Done (if negb (send_window_size x =? 0) && send_adjust x then note (SendAdjust id size) c else c)
    end).

(** Data of either kind for a channel: [k] is what becomes of it. *)
Definition deliver (number : Z) (data : bytes) (k : Z -> bytes -> conn -> conn) (c : conn) : outcome conn :=
  o ← lookup_channel number (table c);
  match o with
  | None => Done c
  | Some id =>
    x ← object id c;
    if receive x && negb (has (Z.lor CHANNEL_RECEIVED_EOF CHANNEL_RECEIVED_CLOSE) x) then
      if has CHANNEL_SENT_CLOSE x then Done c
      else
        let '(data, x) := accept_data data x in
        Done (match data with [] => c | _ :: _ => k id data (put_object id x c) end)
    else Done c
  end.

Definition channel_data_handler (packet : bytes) : conn -> outcome conn :=
  parsing parse_data packet "Invalid CHANNEL_DATA message." (fun '(number, data) _ =>
    deliver number data (fun id data => note (Receive id CHANNEL_DATA data))).

Definition channel_extended_data_handler (packet : bytes) : conn -> outcome conn :=
  parsing parse_extended_data packet "Invalid CHANNEL_EXTENDED_DATA message." (fun '(number, type, data) _ =>
    deliver number data (fun id data c => if type =? SSH_EXTENDED_DATA_STDERR then note (Receive id CHANNEL_STDERR_DATA data) c else c)).

Definition channel_eof_handler (packet : bytes) : conn -> outcome conn :=
  parsing (parse_channel_message SSH_MSG_CHANNEL_EOF) packet "Invalid CHANNEL_EOF message" (fun number _ c =>
    o ← lookup_channel number (table c);
    match o with
    | None => Done (PROTOCOL_ERROR "EOF on non-existant channel" c)
    | Some id =>
      x ← object id c;
      if has (Z.lor CHANNEL_RECEIVED_EOF CHANNEL_RECEIVED_CLOSE) x then
        Done (PROTOCOL_ERROR "Received EOF on channel on closed channel." c)
      else
        let c := put_object id (set_flag CHANNEL_RECEIVED_EOF x) c in
        if eof x then
          let c := note (EofCallback id) c in
          if has CHANNEL_SENT_EOF x && has CHANNEL_CLOSE_AT_EOF x then channel_close id c else Done c
        else channel_close id c
    end).

Definition channel_close_handler (packet : bytes) : conn -> outcome conn :=
  parsing (parse_channel_message SSH_MSG_CHANNEL_CLOSE) packet "Invalid CHANNEL_CLOSE message" (fun number _ c =>
    o ← lookup_channel number (table c);
    match o with
    | None => Done (PROTOCOL_ERROR "CLOSE on non-existant channel" c)
    | Some id =>
      x ← object id c;
      if has CHANNEL_RECEIVED_CLOSE x then Done (PROTOCOL_ERROR "Receiving multiple CLOSE on channel." c)
      else
        let c := put_object id (set_flag CHANNEL_RECEIVED_CLOSE x) c in
        if has CHANNEL_SENT_CLOSE x then raise_channel id EXC_FINISH_CHANNEL c else channel_close id c
    end).

Definition channel_open_confirm_handler (packet : bytes) : conn -> outcome conn :=
  parsing parse_open_confirmation packet "Invalid CHANNEL_OPEN_CONFIRMATION message." (fun '(local, remote, window, size) _ c =>
    o ← lookup_channel_reserved local (table c);
    match o with
    | None => Done (PROTOCOL_ERROR "Unexpected CHANNEL_OPEN_CONFIRMATION." c)
    | Some id =>
      x ← object id c;
      _ ← assert_that (open_continuation x);
      let x := x <| open_continuation := false |> <| channel_number := remote |> <| send_window_size := window |> <| send_max_packet := size |> in
      c ← on_table (use_channel local) (put_object id x c);
      Done (note (OpenReturn id) c)
    end).

(** [make_channel_open_exception] insists on the reasons it knows. *)
Definition make_channel_open_exception (error_code : Z) : outcome exn :=
  _ ← assert_that (0 <? error_code); _ ← assert_that (error_code <=? 4); Done (EXC_CHANNEL_OPEN error_code).

Definition channel_open_failure_handler (packet : bytes) : conn -> outcome conn :=
  parsing parse_open_failure packet "Invalid CHANNEL_OPEN_FAILURE message." (fun '(number, reason) _ c =>
    o ← lookup_channel_reserved number (table c);
    match o with
    | None => Done c
    | Some id =>
      x ← object id c;
      _ ← assert_that (open_continuation x);
      exc ← make_channel_open_exception reason;
      c ← raise_channel id exc c;
      raise_channel id EXC_FINISH_CHANNEL c
    end).

(** A reply to a request on a channel: [answer] is what the command that waits
    gets. *)
Definition channel_reply_handler (m : Z) (bad : string) (answer : Z -> effect) (packet : bytes) : conn -> outcome conn :=
  parsing (parse_channel_message m) packet bad (fun number _ c =>
    o ← lookup_channel number (table c);
    match o with
    | None => Done (PROTOCOL_ERROR bad c)
    | Some id =>
      x ← object id c;
      Done (next_pending (pending_requests x) (fun ctx q c => note (answer ctx) (put_object id (x <| pending_requests := q |>) c)) c)
    end).

Definition channel_success_handler : bytes -> conn -> outcome conn :=
  channel_reply_handler SSH_MSG_CHANNEL_SUCCESS "Invalid CHANNEL_SUCCESS message" CommandReturn.
Definition channel_failure_handler : bytes -> conn -> outcome conn :=
  channel_reply_handler SSH_MSG_CHANNEL_FAILURE "Invalid CHANNEL_FAILURE message." CommandRaise.

(** The entries [init_connection_service] makes in the dispatch table; the
    other messages are not its business. *)
Definition dispatch (packet : bytes) (c : conn) : outcome conn :=
  match packet with
  | [] => Done c
  | b :: _ =>
    if b =? SSH_MSG_GLOBAL_REQUEST then global_request_handler packet c
    else if b =? SSH_MSG_CHANNEL_OPEN then channel_open_handler packet c
    else if b =? SSH_MSG_CHANNEL_REQUEST then channel_request_handler packet c
    else if b =? SSH_MSG_CHANNEL_WINDOW_ADJUST then window_adjust_handler packet c
    else if b =? SSH_MSG_CHANNEL_DATA then channel_data_handler packet c
    else if b =? SSH_MSG_CHANNEL_EXTENDED_DATA then channel_extended_data_handler packet c
    else if b =? SSH_MSG_CHANNEL_EOF then channel_eof_handler packet c
    else if b =? SSH_MSG_CHANNEL_CLOSE then channel_close_handler packet c
    else if b =? SSH_MSG_CHANNEL_OPEN_CONFIRMATION then channel_open_confirm_handler packet c
    else if b =? SSH_MSG_CHANNEL_OPEN_FAILURE then channel_open_failure_handler packet c
    else if b =? SSH_MSG_CHANNEL_SUCCESS then channel_success_handler packet c
    else if b =? SSH_MSG_CHANNEL_FAILURE then channel_failure_handler packet c
    else if b =? SSH_MSG_REQUEST_SUCCESS then global_success_handler packet c
    else if b =? SSH_MSG_REQUEST_FAILURE then global_failure_handler packet c
    else Done c
  end.

(** ** Opening channels *)

(** A channel as [init_channel] leaves it, with the sizes its maker gives it. *)
Definition init_channel (rec_window rec_max : Z) : ssh_channel :=
  mkChannel 0 rec_window rec_max 0 0 CHANNEL_CLOSE_AT_EOF 0 false false None false None false false [] [] HNull true.

(** A new object. *)
Definition new_object (c : conn) : Z * conn := (fresh c, c <| fresh := fresh c + 1 |>).

(** The handler of a new channel has made [x]. The number is that of
    [channel_open_handler] as a [UINT32]. *)
Definition do_channel_open_continue (local remote window size : Z) (x : ssh_channel) (c : conn) : outcome conn :=
  let x := x <| send_window_size := window |> <| send_max_packet := size |> <| channel_number := remote |> in
  let '(id, c) := new_object c in
  c ← register_channel (u32 local) id x true c;
  x ← object id c;
  Done (C_WRITE (OpenConfirmation (channel_number x) (u32 local) (rec_window_size x) (rec_max_packet x)) c).

(** The handler of a new channel has raised [EXC_CHANNEL_OPEN]. *)
Definition do_exc_channel_open_handler (local remote error_code : Z) (msg : bytes) (c : conn) : outcome conn :=
  u ← entry (u32 local) (in_use (table c));
  _ ← assert_that (negb (u =? 0));
  o ← entry (u32 local) (channels (table c));
  _ ← assert_that (bool_decide (o = None));
  c ← on_table (dealloc_channel (s32 local)) c;
  Done (C_WRITE (OpenFailure remote error_code msg) c).

(** What [NEW_CHANNEL] returns: a channel, its type and the arguments of the
    request. *)
Definition do_channel_open_command (new : option (ssh_channel * Z * bytes)) (h : Z) (c : conn) : outcome conn :=
  '(index, t) ← alloc_channel (table c);
  let c := c <| table := t |> in
  let c := if index <? 0 then note (Raise h (EXC_CHANNEL_OPEN SSH_OPEN_RESOURCE_SHORTAGE)) c else c in
  match new with
  | None => on_table (dealloc_channel index) c
  | Some (x, type, args) =>
    let '(id, c) := new_object c in
    c ← register_channel (u32 index) id (x <| open_continuation := true |> <| e := HOther h |>) false c;
    Done (C_WRITE (ChannelOpen type (u32 index) (rec_window_size x) (rec_max_packet x) args) c)
  end.

(** Requests of our own. [context] is the command that waits for the reply, if
    one is wanted. *)
Definition do_channel_request_command (id type : Z) (context : option Z) (args : bytes) (c : conn) : outcome conn :=
  x ← object id c;
  let '(want, c) :=
    match context with
    | Some ctx => (1, put_object id (x <| pending_requests := pending_requests x ++ [ctx] |>) c)
    | None => (0, c)
    end in
  Done (C_WRITE (ChannelRequest (channel_number x) type want args) c).

Definition do_channel_global_command (type : Z) (context : option Z) (args : bytes) (c : conn) : conn :=
  let '(want, c) :=
    match context with
    | Some ctx => (1, set_pending_global (pending_global_requests (table c) ++ [ctx]) c)
    | None => (0, c)
    end in
  C_WRITE (GlobalRequest type want args) c.

(** [do_install_fix_global_request_handler] and
    [do_install_fix_channel_open_handler] *)
Definition install_global_request_handler (name : Z) (c : conn) : conn :=
  c <| table := (table c) <| global_requests := name :: global_requests (table c) |> |>.
Definition install_channel_open_handler (name : Z) (c : conn) : conn :=
  c <| table := (table c) <| channel_types := name :: channel_types (table c) |> |>.

(** ** The channels of the client *)

(** The channel of a session (client_session.c). *)
Definition make_client_session_channel (initial_window : Z) : ssh_channel :=
  (init_channel initial_window (SSH_MAX_PACKET - SSH_CHANNEL_MAX_PACKET_FUZZ))
    <| close := Some CloseSession |> <| request_types := Some [] |>.

(** [ALIST_SET] of a handler. *)
Definition alist_set (name : Z) (x : ssh_channel) : ssh_channel :=
  x <| request_types := (fun l => if bool_decide (name ∈ l) then l else name :: l) <$> request_types x |>.

Definition ATOM_EXIT_STATUS : Z := lookup_atom (bytes_of_string "exit-status").
Definition ATOM_EXIT_SIGNAL : Z := lookup_atom (bytes_of_string "exit-signal").

(** The remote shell runs: the callbacks and the source are set up. *)
Definition do_client_io (id : Z) (c : conn) : outcome conn :=
  x ← object id c;
  c ← make_read_data id (put_object id (x <| receive := true |> <| send_adjust := true |>) c);
  x ← object id c;
  Done (put_object id ((alist_set ATOM_EXIT_SIGNAL (alist_set ATOM_EXIT_STATUS x)) <| eof := true |>) c).

(** The channel of a forwarded port (channel_forward.c). *)
Definition make_channel_forward (initial_window : Z) : ssh_channel :=
  init_channel initial_window (SSH_MAX_PACKET - SSH_CHANNEL_MAX_PACKET_FUZZ).

Definition channel_forward_start_io (id : Z) (c : conn) : outcome conn :=
  x ← object id c;
  make_read_data id (put_object id (x <| receive := true |> <| send_adjust := true |> <| eof := true |>) c).

(** ** Runs *)

(** What can happen on a connection: a packet arrives, or the rest of the
    program calls one of the operations. *)
Inductive event :=
  | Packet (packet : bytes)
  | Opened (local remote window size : Z) (x : ssh_channel)
  | Refused (local remote error_code : Z) (msg : bytes)
  | OpenCommand (new : option (ssh_channel * Z * bytes)) (h : Z)
  | RequestCommand (id type : Z) (context : option Z) (args : bytes)
  | GlobalCommand (type : Z) (context : option Z) (args : bytes)
  | RequestDone (id n s : Z)
  | GlobalDone (n s : Z)
  | StartSession (id : Z)
  | StartForward (id : Z)
  | StartReceive (id window : Z)
  | Consumed (id written : Z)
  | Write (id : Z) (packet : option bytes)
  | WriteExtended (id type : Z) (packet : option bytes)
  | SourceClosed (id : Z)
  | IOError (id : Z).

Definition step (ev : event) (c : conn) : outcome conn :=
  match ev with
  | Packet packet => dispatch packet c
  | Opened local remote window size x => do_channel_open_continue local remote window size x c
  | Refused local remote error_code msg => do_exc_channel_open_handler local remote error_code msg c
  | OpenCommand new h => do_channel_open_command new h c
  | RequestCommand id type context args => do_channel_request_command id type context args c
  | GlobalCommand type context args => Done (do_channel_global_command type context args c)
  | RequestDone id n s => do_channel_request_response id n s c
  | GlobalDone n s => do_global_request_response n s c
  | StartSession id => do_client_io id c
  | StartForward id => channel_forward_start_io id c
  | StartReceive id window => channel_start_receive id window c
  | Consumed id written => adjust_rec_window id written c
  | Write id packet => do_channel_write id packet c
  | WriteExtended id type packet => do_channel_write_extended id type packet c
  | SourceClosed id => channel_read_close_callback id c
  | IOError id => do_channel_io_exception_handler id c
  end.

Fixpoint run (evs : list event) (c : conn) : outcome conn :=
  match evs with [] => Done c | ev :: evs => c ← step ev c; run evs c end.

Definition init_connection_service : conn := mkConn make_channel_table ∅ ∅ 0 [].

End Channel.
