(* ===== verification/Table.v ===== *)
(** The table of channel numbers: the invariant of its arrays, what its
    operations do to the slots, and the allocation of the least free number. *)
From S2P Require Import Prelude Window Bignum Atoms Format Parse Channel.
Import Channel.

Module Table.

(** ** Slots *)

(** The state of a channel number and the channel registered under it. *)
Definition slot (t : channel_table) (i : Z) : option (Z * option Z) :=
  if 0 <=? i then u ← in_use t !! Z.to_nat i; o ← channels t !! Z.to_nat i; Some (u, o) else None.

(** A number that is not taken. *)
Definition free (t : channel_table) (i : Z) : Prop := slot t i = None \/ slot t i = Some (CHANNEL_FREE, None).

(** The number of entries that are not free. *)
Definition taken (l : list Z) : Z := zlen (filter (fun u => u <> CHANNEL_FREE) l).

Record table_ok (t : channel_table) : Prop := {
  ok_channels : zlen (channels t) = used_channels t;
  ok_in_use : zlen (in_use t) = used_channels t;
  ok_next : 0 <= next_channel t <= used_channels t;
  ok_used : used_channels t <= allocated_channels t /\ used_channels t <= max_channels t;
  ok_allocated : 1 <= allocated_channels t <= 2 * MAX_CHANNELS;
  ok_max : max_channels t = MAX_CHANNELS;
  ok_states : Forall (fun u => u = CHANNEL_FREE \/ u = CHANNEL_RESERVED \/ u = CHANNEL_IN_USE) (in_use t);
  ok_low : forall i u o, i < next_channel t -> slot t i = Some (u, o) -> u <> CHANNEL_FREE;
  ok_count : channel_count t = taken (in_use t);
  ok_free : forall i o, slot t i = Some (CHANNEL_FREE, o) -> o = None;
  ok_busy : forall i o, slot t i = Some (CHANNEL_IN_USE, o) -> o <> None
}.

(** The fields that are no slots. *)
Definition settings (t : channel_table) :=
  (pending_close t, global_requests t, channel_types t, open_fallback t, active_global_requests t, pending_global_requests t).

(** [t'] differs from [t] in slot [i] alone. *)
Definition only (i : Z) (t t' : channel_table) : Prop := (forall j, j <> i -> slot t' j = slot t j) /\ settings t' = settings t.

(** ** Entries *)

Lemma entry_Done {A} i (l : list A) v : 0 <= i -> l !! Z.to_nat i = Some v -> entry i l = Done v.
Proof. intros Hi E. unfold entry. by rewrite (proj2 (Z.leb_le _ _) Hi), E. Qed.

Lemma put_entry_Done {A} n i (v : A) l : 0 <= i < zlen l -> put_entry n i v l = Done (<[Z.to_nat i := v]> l).
Proof. intros Hi. unfold put_entry. by rewrite (proj2 (Z.leb_le 0 i)), (proj2 (Z.ltb_lt i (zlen l))) by lia. Qed.

Lemma put_entry_snoc {A} n (v : A) l : zlen l < n -> put_entry n (zlen l) v l = Done (l ++ [v]).
Proof.
  intros Hn. unfold put_entry. rewrite (proj2 (Z.ltb_ge (zlen l) _)), andb_false_r, Z.eqb_refl by lia.
  by rewrite (proj2 (Z.ltb_lt _ _) Hn).
Qed.

Lemma slot_inv t i u o : slot t i = Some (u, o) -> 0 <= i /\ in_use t !! Z.to_nat i = Some u /\ channels t !! Z.to_nat i = Some o.
Proof.
  unfold slot. destruct (Z.leb_spec 0 i); [|done]. destruct (in_use t !! _) as [u'|]; simpl; [|done].
  destruct (channels t !! _) as [o'|]; simpl; [|done]. by intros [= -> ->].
Qed.

Lemma slot_intro t i u o : 0 <= i -> in_use t !! Z.to_nat i = Some u -> channels t !! Z.to_nat i = Some o -> slot t i = Some (u, o).
Proof. intros Hi Hu Ho. unfold slot. by rewrite (proj2 (Z.leb_le _ _) Hi), Hu, Ho. Qed.

Lemma slot_lt t i u o : table_ok t -> slot t i = Some (u, o) -> 0 <= i < used_channels t.
Proof.
  intros H (Hi & Hu & _)%slot_inv. apply lookup_lt_Some in Hu. pose proof (ok_in_use _ H). unfold zlen in *. lia.
Qed.

Lemma slot_within t i : table_ok t -> 0 <= i < used_channels t -> exists u o, slot t i = Some (u, o).
Proof.
  intros H Hi. pose proof (ok_channels _ H). pose proof (ok_in_use _ H). unfold zlen in *.
  destruct (lookup_lt_is_Some_2 (in_use t) (Z.to_nat i)) as [u Hu]; [lia|].
  destruct (lookup_lt_is_Some_2 (channels t) (Z.to_nat i)) as [o Ho]; [lia|].
  exists u, o. apply slot_intro; [lia | done | done].
Qed.

Lemma slot_beyond t i : table_ok t -> used_channels t <= i -> slot t i = None.
Proof.
  intros H Hi. destruct (slot t i) as [[u o]|] eqn:E; [|done]. apply (slot_lt _ _ _ _ H) in E. lia.
Qed.

Lemma slot_state t i u o : table_ok t -> slot t i = Some (u, o) -> u = CHANNEL_FREE \/ u = CHANNEL_RESERVED \/ u = CHANNEL_IN_USE.
Proof. intros H (_ & Hu & _)%slot_inv. exact (Forall_lookup_1 _ _ _ _ (ok_states _ H) Hu). Qed.

(** ** Counting *)

Lemma taken_app a b : taken (a ++ b) = taken a + taken b.
Proof. unfold taken. by rewrite filter_app, zlen_app. Qed.

Lemma taken_one u : taken [u] = if decide (u = CHANNEL_FREE) then 0 else 1.
Proof. unfold taken. rewrite filter_cons, filter_nil. by repeat case_decide. Qed.

Lemma taken_insert l n u v : l !! n = Some u -> taken (<[n := v]> l) = taken l - taken [u] + taken [v].
Proof.
  intros E. rewrite <- (take_drop_middle l n u E) at 2. rewrite insert_take_drop by (by eapply lookup_lt_Some).
  change (v :: drop (S n) l) with ([v] ++ drop (S n) l). change (u :: drop (S n) l) with ([u] ++ drop (S n) l).
  rewrite !taken_app. lia.
Qed.

Lemma taken_nonneg l : 0 <= taken l.
Proof. apply zlen_nonneg. Qed.

Lemma taken_pos l n u : l !! n = Some u -> u <> CHANNEL_FREE -> 0 < taken l.
Proof.
  intros E Hu. rewrite <- (take_drop_middle l n u E). change (u :: drop (S n) l) with ([u] ++ drop (S n) l).
  rewrite !taken_app, taken_one, decide_False by done. pose proof (taken_nonneg (take n l)). pose proof (taken_nonneg (drop (S n) l)). lia.
Qed.

(** ** Changing a slot *)

(** The table with slot [i], which is there, set to [(u, o)]. *)
Definition with_slot (i u : Z) (o : option Z) (t : channel_table) : channel_table :=
  t <| in_use := <[Z.to_nat i := u]> (in_use t) |> <| channels := <[Z.to_nat i := o]> (channels t) |>
    <| channel_count := taken (<[Z.to_nat i := u]> (in_use t)) |>.

Lemma slot_with_slot i u o t j : table_ok t -> 0 <= i < used_channels t ->
  slot (with_slot i u o t) j = if decide (j = i) then Some (u, o) else slot t j.
Proof.
  intros H Hi. pose proof (ok_channels _ H). pose proof (ok_in_use _ H). unfold zlen in *.
  case_decide as E.
  - subst j. apply slot_intro; [lia | |]; cbn; by rewrite list_lookup_insert_eq by lia.
  - unfold slot. destruct (Z.leb_spec 0 j); [|done]. cbn. by rewrite !list_lookup_insert_ne by lia.
Qed.

(** The invariant after a change, with the hint [next]. *)
Lemma with_slot_ok i u o t next : table_ok t -> 0 <= i < used_channels t -> 0 <= next <= used_channels t ->
  (u = CHANNEL_FREE /\ o = None /\ next <= i \/ u = CHANNEL_RESERVED \/ u = CHANNEL_IN_USE /\ o <> None) ->
  (forall j v p, j < next -> j <> i -> slot t j = Some (v, p) -> v <> CHANNEL_FREE) ->
  table_ok ((with_slot i u o t) <| next_channel := next |>).
Proof.
  intros H Hi Hn Hu Hlow. set (t' := (with_slot i u o t) <| next_channel := next |>).
  assert (HS : forall j, slot t' j = if decide (j = i) then Some (u, o) else slot t j) by (intros j; by apply slot_with_slot).
  pose proof H as [Hc Hl _ ? ? ? Hst _ _ Hfr Hb]. split; try done.
  - change (channels t') with (<[Z.to_nat i := o]> (channels t)). by rewrite zlen_insert.
  - change (in_use t') with (<[Z.to_nat i := u]> (in_use t)). by rewrite zlen_insert.
  - change (in_use t') with (<[Z.to_nat i := u]> (in_use t)). apply Forall_insert; [done|]. tauto.
  - intros j v p Hj. change (next_channel t') with next in Hj. rewrite HS. case_decide as E; [|by apply Hlow].
    intros [= <- <-]. unfold CHANNEL_FREE, CHANNEL_RESERVED, CHANNEL_IN_USE in *. lia.
  - intros j p. rewrite HS. case_decide; [|apply Hfr]. intros [= -> <-]. destruct Hu as [(_ & -> & _)|[?|[? _]]]; done.
  - intros j p. rewrite HS. case_decide; [|apply Hb]. intros [= -> <-]. destruct Hu as [(? & _ & _)|[?|[_ ?]]]; done.
Qed.

Lemma only_with_slot i u o t next : table_ok t -> 0 <= i < used_channels t -> only i t ((with_slot i u o t) <| next_channel := next |>).
Proof.
  intros H Hi. split; [|done]. intros j Hj.
  change (slot (with_slot i u o t) j = slot t j). rewrite slot_with_slot by done. by rewrite decide_False.
Qed.

(** ** The operations *)

Lemma dealloc_channel_Done t i u o : table_ok t -> slot t i = Some (u, o) -> u <> CHANNEL_FREE ->
  dealloc_channel i t = Done ((with_slot i CHANNEL_FREE None t) <| next_channel := if i <? next_channel t then i else next_channel t |>).
Proof.
  intros H HS Hu. pose proof (slot_lt _ _ _ _ H HS) as Hi. apply slot_inv in HS as (_ & Eu & Eo).
  pose proof (taken_pos _ _ _ Eu Hu) as Hp. pose proof (taken_insert _ _ _ CHANNEL_FREE Eu) as HT.
  rewrite !taken_one, decide_False, decide_True in HT by done. pose proof (ok_count _ H). pose proof (ok_channels _ H). pose proof (ok_in_use _ H).
  unfold dealloc_channel, assert_that.
  rewrite (proj2 (Z.leb_le 0 i)), (proj2 (Z.ltb_lt i _)), (proj2 (Z.eqb_neq (channel_count t) 0)) by lia.
  cbn [negb mbind outcome_bind]. unfold put_channel, put_in_use.
  rewrite put_entry_Done by lia. cbn [mbind outcome_bind]. rewrite put_entry_Done by (cbn; lia). cbn [mbind outcome_bind].
  assert (E : channel_count t - 1 = taken (<[Z.to_nat i:=CHANNEL_FREE]> (in_use t))) by lia.
  f_equal. cbn. rewrite E. by destruct (i <? next_channel t).
Qed.

Lemma dealloc_channel_ok t i u o : table_ok t -> slot t i = Some (u, o) -> u <> CHANNEL_FREE ->
  exists t', dealloc_channel i t = Done t' /\ table_ok t' /\ slot t' i = Some (CHANNEL_FREE, None) /\ only i t t'.
Proof.
  intros H HS Hu. pose proof (slot_lt _ _ _ _ H HS) as Hi. pose proof (ok_next _ H). eexists. split; [by eapply dealloc_channel_Done|]. split; [|split].
  - apply with_slot_ok; try done; [destruct (Z.ltb_spec i (next_channel t)); lia | destruct (Z.ltb_spec i (next_channel t)); left; split_and!; (done || lia)|].
    intros j v p Hj _. apply (ok_low _ H). destruct (Z.ltb_spec i (next_channel t)); lia.
  - change (slot (with_slot i CHANNEL_FREE None t) i = Some (CHANNEL_FREE, None)). by rewrite slot_with_slot, decide_True.
  - by apply only_with_slot.
Qed.

(** Writing one of the arrays of a slot. *)
Lemma put_channel_ok t i o : table_ok t -> slot t i = Some (CHANNEL_RESERVED, None) ->
  exists t', put_channel i o t = Done t' /\ table_ok t' /\ slot t' i = Some (CHANNEL_RESERVED, o) /\ only i t t'.
Proof.
  intros H HS. pose proof (slot_lt _ _ _ _ H HS) as Hi. apply slot_inv in HS as (_ & Eu & _). pose proof (ok_channels _ H). pose proof (ok_next _ H).
  exists ((with_slot i CHANNEL_RESERVED o t) <| next_channel := next_channel t |>). split; [|split; [|split]].
  - unfold put_channel. rewrite put_entry_Done by lia. cbn [mbind outcome_bind]. pose proof (ok_count _ H) as HC.
    f_equal. unfold with_slot. rewrite (list_insert_id (in_use t)), <- HC by done. by destruct t.
  - apply with_slot_ok; try done; [tauto|]. intros j v p Hj _. by apply (ok_low _ H).
  - change (slot (with_slot i CHANNEL_RESERVED o t) i = Some (CHANNEL_RESERVED, o)). by rewrite slot_with_slot, decide_True.
  - by apply only_with_slot.
Qed.

Lemma use_channel_ok t i id : table_ok t -> slot t i = Some (CHANNEL_RESERVED, Some id) ->
  exists t', use_channel i t = Done t' /\ table_ok t' /\ slot t' i = Some (CHANNEL_IN_USE, Some id) /\ only i t t'.
Proof.
  intros H HS. pose proof (slot_lt _ _ _ _ H HS) as Hi. apply slot_inv in HS as (_ & Eu & Eo). pose proof (ok_in_use _ H). pose proof (ok_next _ H).
  exists ((with_slot i CHANNEL_IN_USE (Some id) t) <| next_channel := next_channel t |>). split; [|split; [|split]].
  - unfold use_channel. rewrite (entry_Done _ _ _ (proj1 Hi) Eo). cbn [mbind outcome_bind].
    rewrite bool_decide_true by done. cbn [assert_that]. rewrite (entry_Done _ _ _ (proj1 Hi) Eu). cbn.
    unfold put_in_use. rewrite put_entry_Done by lia. cbn [mbind outcome_bind]. pose proof (ok_count _ H) as HC.
    pose proof (taken_insert _ _ _ CHANNEL_IN_USE Eu) as HT. rewrite !taken_one, !decide_False in HT by done.
    assert (E : taken (<[Z.to_nat i:=CHANNEL_IN_USE]> (in_use t)) = channel_count t) by lia.
    f_equal. unfold with_slot. rewrite (list_insert_id (channels t)), E by done. by destruct t.
  - apply with_slot_ok; try done; [by right; right|]. intros j v p Hj _. by apply (ok_low _ H).
  - change (slot (with_slot i CHANNEL_IN_USE (Some id) t) i = Some (CHANNEL_IN_USE, Some id)). by rewrite slot_with_slot, decide_True.
  - by apply only_with_slot.
Qed.

(** ** Allocation *)

(** The loop finds the first free slot, and passes its assertion. *)
Lemma free_from_spec n i t : table_ok t -> 0 <= i -> Z.of_nat n + i = used_channels t ->
  exists r, free_from n i t = Done r /\
  match r with
  | Some k => i <= k < used_channels t /\ slot t k = Some (CHANNEL_FREE, None) /\ forall j, i <= j < k -> ~ free t j
  | None => forall j, i <= j < used_channels t -> ~ free t j
  end.
Proof.
  intros H. revert i. induction n as [|n IH]; intros i Hi Hn.
  { exists None. split; [done|]. lia. }
  destruct (slot_within t i H ltac:(lia)) as (u & o & HS). pose proof (slot_inv _ _ _ _ HS) as (_ & Eu & Eo).
  cbn [free_from]. rewrite (entry_Done _ _ _ Hi Eu). cbn [mbind outcome_bind].
  destruct (Z.eqb_spec u CHANNEL_FREE) as [->|Hu].
  - rewrite (entry_Done _ _ _ Hi Eo). pose proof (ok_free _ H _ _ HS) as ->. exists (Some i). split; [done|]. split; [lia|]. split; [done|]. lia.
  - destruct (IH (i + 1) ltac:(lia) ltac:(lia)) as (r & E & Hr). exists r. split; [exact E|].
    assert (Hf : ~ free t i) by (unfold free; rewrite HS; intros [?|[= ? _]]; done).
    destruct r as [k|].
    + destruct Hr as (Hk & Ek & Hj). split; [lia|]. split; [done|]. intros j Hj'. destruct (decide (j = i)) as [->|]; [done|]. apply Hj. lia.
    + intros j Hj'. destruct (decide (j = i)) as [->|]; [done|]. apply Hr. lia.
Qed.

Lemma below_next t j : table_ok t -> 0 <= j < next_channel t -> ~ free t j.
Proof.
  intros H Hj. pose proof (ok_next _ H). destruct (slot_within t j H ltac:(lia)) as (u & o & HS).
  pose proof (ok_low _ H _ _ _ (proj2 Hj) HS). unfold free. rewrite HS. intros [?|[= ? _]]; done.
Qed.

(** A number that was freed is handed out again. *)
Lemma alloc_reuse t i : table_ok t -> slot t i = Some (CHANNEL_FREE, None) -> (forall j, 0 <= j < i -> ~ free t j) ->
  exists t', (t ← put_in_use i CHANNEL_RESERVED t; Done (t <| next_channel := i + 1 |> <| channel_count := channel_count t + 1 |>)) = Done t'
  /\ table_ok t' /\ slot t' i = Some (CHANNEL_RESERVED, None) /\ only i t t'.
Proof.
  intros H HS Hlow. pose proof (slot_lt _ _ _ _ H HS) as Hi. apply slot_inv in HS as (_ & Eu & Eo). pose proof (ok_in_use _ H).
  exists ((with_slot i CHANNEL_RESERVED None t) <| next_channel := i + 1 |>). split; [|split; [|split]].
  - unfold put_in_use. rewrite put_entry_Done by lia. cbn [mbind outcome_bind]. pose proof (ok_count _ H) as HC.
    pose proof (taken_insert _ _ _ CHANNEL_RESERVED Eu) as HT. rewrite !taken_one, decide_True, decide_False in HT by done.
    assert (E : channel_count t + 1 = taken (<[Z.to_nat i:=CHANNEL_RESERVED]> (in_use t))) by lia.
    f_equal. cbn. rewrite E. unfold with_slot. rewrite (list_insert_id (channels t)) by done. by destruct t.
  - apply with_slot_ok; try done; [lia | tauto|]. intros j v p Hj Hne HS' ->. pose proof (slot_inv _ _ _ _ HS') as [Hj0 _].
    apply (Hlow j); [lia|]. right. pose proof (ok_free _ H _ _ HS') as ->. done.
  - change (slot (with_slot i CHANNEL_RESERVED None t) i = Some (CHANNEL_RESERVED, None)). by rewrite slot_with_slot, decide_True.
  - by apply only_with_slot.
Qed.

(** The table with one more slot. *)
Definition extended (n : Z) (t : channel_table) : channel_table :=
  mkTable (channels t ++ [None]) (in_use t ++ [CHANNEL_RESERVED]) n (used_channels t + 1) (used_channels t + 1) (channel_count t + 1)
    (max_channels t) (pending_close t) (global_requests t) (channel_types t) (open_fallback t) (active_global_requests t) (pending_global_requests t).

Lemma slot_extended n t j : table_ok t ->
  slot (extended n t) j = if decide (j = used_channels t) then Some (CHANNEL_RESERVED, None) else slot t j.
Proof.
  intros H. pose proof (ok_channels _ H) as Hc. pose proof (ok_in_use _ H) as Hu. pose proof (ok_next _ H). unfold zlen in *. case_decide as E.
  - subst j. apply slot_intro; [lia | |]; cbn; apply list_lookup_middle; lia.
  - unfold slot. destruct (Z.leb_spec 0 j); [|done]. cbn. destruct (decide (j < used_channels t)).
    + by rewrite !lookup_app_l by lia.
    + by rewrite !lookup_ge_None_2 by (rewrite ?length_app; cbn; lia).
Qed.

Lemma extended_ok n t : table_ok t -> used_channels t < n <= 2 * MAX_CHANNELS -> used_channels t < MAX_CHANNELS ->
  (forall j, 0 <= j < used_channels t -> ~ free t j) ->
  table_ok (extended n t) /\ slot (extended n t) (used_channels t) = Some (CHANNEL_RESERVED, None) /\ only (used_channels t) t (extended n t).
Proof.
  intros H Hn Hm Hlow. pose proof (fun j => slot_extended n t j H) as HS. pose proof H as [Hc Hl Hnx Hal ? Hmx Hst _ Hct Hfr Hb]. split; [|split].
  - split; try done.
    + cbn. rewrite zlen_app, Hc. done.
    + cbn. rewrite zlen_app, Hl. done.
    + cbn. lia.
    + cbn. lia.
    + cbn. lia.
    + cbn. apply Forall_app. split; [done|]. constructor; [tauto | done].
    + intros i u o Hi. rewrite HS. case_decide; [by intros [= <- <-]|]. intros Ei ->. pose proof (slot_inv _ _ _ _ Ei) as [Hi0 _].
      pose proof (Hfr _ _ Ei) as ->. apply (Hlow i); [|by right]. cbn in Hi. lia.
    + cbn. rewrite taken_app, taken_one, decide_False, Hct by done. done.
    + intros i o. rewrite HS. case_decide; [done | apply Hfr].
    + intros i o. rewrite HS. case_decide; [done | apply Hb].
  - by rewrite HS, decide_True.
  - split; [|done]. intros j Hj. by rewrite HS, decide_False.
Qed.

Lemma alloc_extend t : table_ok t -> used_channels t <> max_channels t -> (forall j, 0 <= j < used_channels t -> ~ free t j) ->
  exists t', (let i := used_channels t in
    let t := if i =? allocated_channels t then t <| allocated_channels := u32 (allocated_channels t * 2) |> else t in
    let t := t <| used_channels := i + 1 |> <| next_channel := i + 1 |> in
    t ← put_in_use i CHANNEL_RESERVED t; t ← put_channel i None t; Done (t <| channel_count := channel_count t + 1 |>)) = Done t'
  /\ table_ok t' /\ slot t' (used_channels t) = Some (CHANNEL_RESERVED, None) /\ only (used_channels t) t t'.
Proof.
  intros H Hm Hlow. pose proof H as [Hc Hl Hn Hal Hal' Hmx _ _ _ _ _]. change MAX_CHANNELS with 131072 in *.
  set (n := if used_channels t =? allocated_channels t then u32 (allocated_channels t * 2) else allocated_channels t).
  assert (Hn' : used_channels t < n <= 2 * 131072).
  { unfold n. destruct (Z.eqb_spec (used_channels t) (allocated_channels t)); [rewrite u32_small by lia|]; lia. }
  exists (extended n t). split; [|apply extended_ok; change MAX_CHANNELS with 131072; try done; lia].
  cbn [mbind outcome_bind]. set (t1 := _ <| next_channel := _ |>).
  assert (E1 : in_use t1 = in_use t /\ channels t1 = channels t /\ allocated_channels t1 = n) by (unfold t1, n; by destruct (_ =? _)).
  destruct E1 as (E1 & E2 & E3). unfold put_in_use at 1. rewrite E1, E3, <- Hl, put_entry_snoc by lia. cbn [mbind outcome_bind].
  unfold put_channel. set (t2 := t1 <| in_use := _ |>). change (channels t2) with (channels t1). change (allocated_channels t2) with (allocated_channels t1).
  rewrite E2, E3, Hl, <- Hc, put_entry_snoc by lia. cbn [mbind outcome_bind]. f_equal. unfold t2, t1, extended, n. by destruct (_ =? _).
Qed.

Lemma alloc_channel_ok t (H : table_ok t) :
  exists i t', alloc_channel t = Done (i, t') /\ table_ok t' /\
  ((i = -1 /\ t' = t /\ forall j, 0 <= j < MAX_CHANNELS -> ~ free t j) \/
   (0 <= i < MAX_CHANNELS /\ free t i /\ (forall j, 0 <= j < i -> ~ free t j)
    /\ slot t' i = Some (CHANNEL_RESERVED, None) /\ only i t t')).
Proof.
  pose proof (ok_next _ H) as Hn. pose proof (ok_used _ H) as [_ Hm]. rewrite (ok_max _ H) in Hm.
  destruct (free_from_spec (Z.to_nat (used_channels t - next_channel t)) (next_channel t) t H ltac:(lia) ltac:(lia)) as (r & E & Hr).
  unfold alloc_channel. rewrite E. cbn [mbind outcome_bind]. destruct r as [k|].
  - destruct Hr as (Hk & HS & Hj). assert (Hlow : forall j, 0 <= j < k -> ~ free t j).
    { intros j Hj'. destruct (decide (j < next_channel t)); [apply below_next; [done | lia] | apply Hj; lia]. }
    destruct (alloc_reuse t k H HS Hlow) as (t' & E' & H1 & H2 & H3). exists k, t'. split; [|split; [done|]; right; split_and!; try done; try lia; by right].
    destruct (put_in_use k CHANNEL_RESERVED t) as [t1| |]; [|done|done]. cbn [mbind outcome_bind] in *. by injection E' as <-.
  - assert (Hlow : forall j, 0 <= j < used_channels t -> ~ free t j).
    { intros j Hj'. destruct (decide (j < next_channel t)); [apply below_next; [done | lia] | apply Hr; lia]. }
    rewrite Z.max_r by lia. destruct (Z.eqb_spec (used_channels t) (max_channels t)) as [Eu|Eu].
    + exists (-1), t. split; [done|]. split; [done|]. left. split; [done|]. split; [done|]. by rewrite <- (ok_max _ H), <- Eu.
    + destruct (alloc_extend t H Eu Hlow) as (t' & E' & H1 & H2 & H3). exists (used_channels t), t'. rewrite (ok_max _ H) in Eu. split; [|split; [done|]; right].
      * revert E'. cbv zeta. set (t1 := _ <| next_channel := _ |>). destruct (put_in_use _ _ t1) as [t2| |]; [|done|done]. cbn [mbind outcome_bind].
        destruct (put_channel _ _ t2) as [t3| |]; [|done|done]. cbn [mbind outcome_bind]. by intros [= <-].
      * split_and!; try done; try lia. left. by apply slot_beyond.
Qed.

Lemma make_channel_table_ok : table_ok make_channel_table.
Proof.
  assert (HS : forall i, slot make_channel_table i = None) by (intros i; unfold slot; by destruct (0 <=? i)).
  split; try done; intros *; by rewrite HS.
Qed.

(** C17. Channel numbers are handed out like file descriptors: in a table in
    order [alloc_channel] reserves the least number that is free, changes no
    other number, and leaves the table in order; it gives up, with -1 and the
    table unchanged, exactly when all of the 2{^17} numbers are taken. *)
Theorem alloc_channel_least t (H : table_ok t) :
  exists i t', alloc_channel t = Done (i, t') /\ table_ok t' /\
  ((i = -1 /\ t' = t /\ forall j, 0 <= j < MAX_CHANNELS -> ~ free t j) \/
   (0 <= i < MAX_CHANNELS /\ free t i /\ (forall j, 0 <= j < i -> ~ free t j)
    /\ slot t' i = Some (CHANNEL_RESERVED, None) /\ only i t t')).
Proof. exact (alloc_channel_ok t H). Qed.

Lemma alloc_channel_least_witness :
  exists i t', alloc_channel make_channel_table = Done (i, t') /\ table_ok t' /\
  ((i = -1 /\ t' = make_channel_table /\ forall j, 0 <= j < MAX_CHANNELS -> ~ free make_channel_table j) \/
   (0 <= i < MAX_CHANNELS /\ free make_channel_table i /\ (forall j, 0 <= j < i -> ~ free make_channel_table j)
    /\ slot t' i = Some (CHANNEL_RESERVED, None) /\ only i make_channel_table t')).
Proof. exact (alloc_channel_least make_channel_table make_channel_table_ok). Defined.

End Table.
