(* ===== verification/Protocol.v ===== *)
(** The invariant of a connection: every channel number in use leads to a live
    channel whose handler knows the number, and no channel stays in the table
    once it was closed in both directions. Every packet of the peer and every
    call of the program keeps it, and none of the assertions of channel.c
    fails, but for one message. *)
From S2P Require Import Prelude Window Bignum Atoms Format Parse Channel Table.
Import Bignum Atoms Format Parse Channel Table.

Module Protocol.

(** ** The invariant *)

(** Closed in both directions. *)
Definition closing (x : ssh_channel) : bool := has CHANNEL_SENT_CLOSE x && has CHANNEL_RECEIVED_CLOSE x.

Definition outside (h : handler) : Prop := match h with HConnection | HOther _ => True | _ => False end.

(** A channel object: it has been registered once, and is in the table unless
    its handler says that it is dead. *)
Definition object_ok (c : conn) (id : Z) (x : ssh_channel) : Prop :=
  id < fresh c /\ exists n d p, e x = HFinish n d p /\ outside p /\ (d = false -> exists u, slot (table c) n = Some (u, Some id)).

(** A channel number that leads to an object. *)
Definition registered_ok (c : conn) (i u id : Z) : Prop :=
  exists x p, objects c !! id = Some x /\ e x = HFinish i false p /\ outside p /\ alive x = true
  /\ (u = CHANNEL_RESERVED -> open_continuation x = true) /\ u <> CHANNEL_FREE.

Record store_ok (c : conn) : Prop := {
  st_table : table_ok (table c);
  st_object : forall id x, objects c !! id = Some x -> object_ok c id x;
  st_slot : forall i u id, slot (table c) i = Some (u, Some id) -> registered_ok c i u id
}.

(** No channel in the table is closed in both directions, but for one. *)
Definition live_but (but : option Z) (c : conn) : Prop :=
  forall i u id x, slot (table c) i = Some (u, Some id) -> but <> Some id -> objects c !! id = Some x -> closing x = false.

Definition wf (c : conn) : Prop := store_ok c /\ live_but None c.

(** ** Changes the invariant does not see *)

Definition numbers (t : channel_table) :=
  (channels t, in_use t, allocated_channels t, used_channels t, next_channel t, channel_count t, max_channels t).

Lemma slot_numbers t t' i : numbers t' = numbers t -> slot t' i = slot t i.
Proof. unfold numbers, slot. intros [= -> -> _ _ _ _ _]. done. Qed.

Lemma table_ok_numbers t t' : numbers t' = numbers t -> table_ok t -> table_ok t'.
Proof.
  intros E H. pose proof (fun i => slot_numbers t t' i E) as HS. unfold numbers in E. injection E as E1 E2 E3 E4 E5 E6 E7.
  destruct H. split; rewrite ?E1, ?E2, ?E3, ?E4, ?E5, ?E6, ?E7; try done; intros *; rewrite HS; eauto.
Qed.

(** The same numbers and objects. *)
Definition same (c c' : conn) : Prop := numbers (table c') = numbers (table c) /\ objects c' = objects c /\ fresh c <= fresh c'.

Lemma same_refl c : same c c.
Proof. by split_and!. Qed.
Lemma same_trans a b c : same a b -> same b c -> same a c.
Proof. unfold same. intros (? & ? & ?) (? & ? & ?). split_and!; [congruence | congruence | lia]. Qed.
Lemma same_note x c : same c (note x c).
Proof. by split_and!. Qed.
Lemma same_write m c : same c (C_WRITE m c).
Proof. apply same_note. Qed.
Lemma same_error s c : same c (PROTOCOL_ERROR s c).
Proof. by split_and!. Qed.
Lemma same_status n s c : same c (set_status n s c).
Proof. by split_and!. Qed.
Lemma same_write_all ms c : same c (write_all ms c).
Proof.
  revert c. induction ms as [|m ms IH]; intros c; [apply same_refl|]. cbn. eapply same_trans; [apply same_write | apply IH].
Qed.
#[local] Hint Resolve same_refl same_note same_write same_error same_status same_write_all : core.

Lemma same_store c c' : same c c' -> store_ok c -> store_ok c'.
Proof.
  intros (En & Eo & Ef) [Ht Ho Hs]. pose proof (fun i => slot_numbers _ _ i En) as HS. split.
  - by eapply table_ok_numbers.
  - intros id x. rewrite Eo. intros H. destruct (Ho id x H) as (Hf & n & d & p & E & Hp & Hd). split; [lia|].
    exists n, d, p. split_and!; try done. intros Hd'. rewrite HS. auto.
  - intros i u id. rewrite HS. intros H. unfold registered_ok. rewrite Eo. by apply Hs.
Qed.

Lemma same_live b c c' : same c c' -> live_but b c -> live_but b c'.
Proof.
  intros (En & Eo & _) H i u id x. rewrite (slot_numbers _ _ i En), Eo. apply H.
Qed.

Lemma same_wf c c' : same c c' -> wf c -> wf c'.
Proof. intros HS [H1 H2]. split; [by eapply same_store | by eapply same_live]. Qed.

Lemma live_weaken b c : live_but None c -> live_but b c.
Proof. intros H i u id x HS _. by apply (H i u). Qed.

(** ** Changing an object *)

(** What is remembered of an object. *)
Definition like (x x' : ssh_channel) : Prop :=
  e x' = e x /\ alive x' = alive x /\ (open_continuation x = true -> open_continuation x' = true).

Lemma like_refl x : like x x.
Proof. by split_and!. Qed.

Lemma object_Done id x c : objects c !! id = Some x -> object id c = Done x.
Proof. intros E. unfold object. by rewrite E. Qed.

Lemma put_store id x x' c : store_ok c -> objects c !! id = Some x -> like x x' -> store_ok (put_object id x' c).
Proof.
  intros [Ht Ho Hs] Hx (E1 & E2 & E3). split; [done| |].
  - intros j y. change (objects (put_object id x' c)) with (<[id := x']> (objects c)). destruct (decide (j = id)) as [->|Hj].
    + rewrite lookup_insert_eq. intros [= <-]. unfold object_ok. rewrite E1. by apply Ho.
    + rewrite lookup_insert_ne by done. apply Ho.
  - intros i u j H. destruct (Hs i u j H) as (y & p & Hy & Ey & Hp & Ha & Hr & Hu). unfold registered_ok.
    change (objects (put_object id x' c)) with (<[id := x']> (objects c)). destruct (decide (j = id)) as [->|Hj].
    + rewrite Hx in Hy. injection Hy as <-. exists x', p. rewrite lookup_insert_eq, E1, E2. split_and!; auto.
    + exists y, p. rewrite lookup_insert_ne by done. done.
Qed.

Lemma put_live b id x c : live_but (Some id) c -> (b = Some id \/ closing x = false) -> (b = None \/ b = Some id) -> live_but b (put_object id x c).
Proof.
  intros H Hx Hb i u j y HS Hj. change (objects (put_object id x c)) with (<[id := x]> (objects c)). destruct (decide (j = id)) as [->|Hne].
  - rewrite lookup_insert_eq. intros [= <-]. destruct Hx as [Hx|Hx]; [by subst b | done].
  - rewrite lookup_insert_ne by done. apply (H i u); [exact HS | congruence].
Qed.

Lemma put_wf id x x' c : wf c -> objects c !! id = Some x -> like x x' -> closing x' = false -> wf (put_object id x' c).
Proof. intros [H1 H2] Hx HL HC. split; [by eapply put_store|]. apply put_live; auto. by apply live_weaken. Qed.

Lemma live_object i u id x c : wf c -> slot (table c) i = Some (u, Some id) -> objects c !! id = Some x -> closing x = false.
Proof. intros [_ H] HS. apply (H i u); [exact HS | done]. Qed.

(** A change that does not close the object, which may be registered or not. *)
Lemma put_like id x x' c : wf c -> objects c !! id = Some x -> like x x' -> closing x' = closing x -> wf (put_object id x' c).
Proof.
  intros [H1 H2] Hx HL HF. split; [by eapply put_store|]. intros i u j y HS _.
  change (objects (put_object id x' c)) with (<[id := x']> (objects c)). change (table (put_object id x' c)) with (table c) in HS.
  destruct (decide (j = id)) as [->|Hne].
  - rewrite lookup_insert_eq. intros [= <-]. rewrite HF. by apply (H2 i u id x HS).
  - rewrite lookup_insert_ne by done. by apply (H2 i u).
Qed.

(** ** Flags *)

Lemma has_lor a b x : has (Z.lor a b) x = has a x || has b x.
Proof.
  unfold has. rewrite Z.land_lor_distr_r. destruct (Z.eqb_spec (Z.land (flags x) a) 0) as [->|Ha]; [by rewrite Z.lor_0_l|]. simpl.
  destruct (Z.eqb_spec (Z.lor (Z.land (flags x) a) (Z.land (flags x) b)) 0) as [E|]; [|done]. apply Z.lor_eq_0_iff in E. lia.
Qed.

Lemma has_set a f x : has a (set_flag f x) = has a x || negb (Z.land f a =? 0).
Proof.
  unfold has. change (flags (set_flag f x)) with (Z.lor (flags x) f). rewrite Z.land_lor_distr_l.
  destruct (Z.eqb_spec (Z.land (flags x) a) 0) as [->|Ha]; [by rewrite Z.lor_0_l|]. simpl.
  destruct (Z.eqb_spec (Z.lor (Z.land (flags x) a) (Z.land f a)) 0) as [E|]; [|done]. apply Z.lor_eq_0_iff in E. lia.
Qed.

(** ** The end of a channel *)

Lemma slot_entry t i u o : slot t i = Some (u, o) -> entry i (channels t) = Done o /\ entry i (in_use t) = Done u.
Proof. intros (Hi & Hu & Ho)%slot_inv. by rewrite !(entry_Done _ _ _ Hi Hu), !(entry_Done _ _ _ Hi Ho). Qed.

(** A registered channel is finished: it leaves the table, and nothing else
    changes. *)
Lemma finish_channel_Done c i u id x : store_ok c -> slot (table c) i = Some (u, Some id) -> objects c !! id = Some x ->
  exists c', finish_channel i c = Done c' /\ objects c' = <[id := x <| alive := false |>]> (objects c) /\ fresh c' = fresh c
  /\ table_ok (table c') /\ slot (table c') i = Some (CHANNEL_FREE, None) /\ forall j, j <> i -> slot (table c') j = slot (table c) j.
Proof.
  intros HW HS Hx. pose proof (st_slot _ HW _ _ _ HS) as (y & p & Hy & Ey & Hp & Ha & _ & Hu).
  rewrite Hx in Hy. injection Hy as <-. unfold finish_channel. rewrite (proj1 (slot_entry _ _ _ _ HS)). cbn [mbind outcome_bind].
  rewrite (object_Done _ _ _ Hx). cbn [mbind outcome_bind]. rewrite Ha. cbn [assert_that mbind outcome_bind].
  match goal with |- context [?m ≫= (fun c => x ← object id c; _)] => assert (E1 : exists c1, m = Done c1 /\ same c c1 /\ fresh c1 = fresh c) end.
  { rewrite Ey. destruct (close x) as [[|]|]; eexists; (split; [reflexivity | split; [by split_and! | reflexivity]]). }
  destruct E1 as (c1 & -> & (En & Eo & _) & Ef). cbn [mbind outcome_bind]. rewrite (object_Done id x) by (by rewrite Eo). cbn [mbind outcome_bind].
  pose proof (table_ok_numbers _ _ En (st_table _ HW)) as HT. rewrite <- (slot_numbers _ _ i En) in HS.
  destruct (dealloc_channel_ok _ _ _ _ HT HS Hu) as (t & Et & Ht & Hf & [Ho _]). unfold on_table.
  set (c2 := note (Kill id) _). change (table c2) with (table c1). rewrite Et. cbn [mbind outcome_bind].
  set (c3 := c2 <| table := t |>). eexists. split; [reflexivity|]. rewrite <- Eo, <- Ef.
  assert (HN : forall j, slot (table c) j = slot (table c1) j) by (intros j; symmetry; by apply slot_numbers).
  destruct (_ && _); (split_and!; [done | done | done | done | intros j Hj; rewrite HN; by apply Ho]).
Qed.

(** [EXC_FINISH_CHANNEL] restores the invariant for a channel that is closed in
    both directions. *)
Lemma raise_finish c id x : store_ok c -> live_but (Some id) c -> objects c !! id = Some x ->
  exists c', raise_channel id EXC_FINISH_CHANNEL c = Done c' /\ wf c'.
Proof.
  intros HW HL Hx. destruct (st_object _ HW _ _ Hx) as (Hf & n & d & p & Ee & Hp & Hd).
  unfold raise_channel. rewrite (object_Done _ _ _ Hx). cbn [mbind outcome_bind]. rewrite Ee. cbn [raise_handler]. destruct d.
  - cbn [mbind outcome_bind]. rewrite (object_Done _ _ _ Hx). cbn [mbind outcome_bind]. eexists. split; [reflexivity|].
    rewrite <- Ee. split; [by eapply put_store|]. intros i u j y HS _.
    change (table (put_object id (x <| e := e x |>) c)) with (table c) in HS.
    assert (Hj : j <> id).
    { intros ->. destruct (st_slot _ HW _ _ _ HS) as (y' & p' & Hy & Ey & _). rewrite Hx in Hy. injection Hy as <-. congruence. }
    change (objects (put_object id (x <| e := e x |>) c)) with (<[id := x <| e := e x |>]> (objects c)).
    rewrite lookup_insert_ne by done. apply (HL i u); [exact HS | congruence].
  - destruct (Hd eq_refl) as [u HS]. destruct (finish_channel_Done _ _ _ _ _ HW HS Hx) as (c1 & -> & Eo & Ef & Ht & Hn & Hj).
    cbn [mbind outcome_bind]. rewrite (object_Done id (x <| alive := false |>)) by (by rewrite Eo, lookup_insert_eq). cbn [mbind outcome_bind].
    eexists. split; [reflexivity|]. set (x' := (x <| alive := false |>) <| e := HFinish n true p |>). set (c2 := put_object id x' c1).
    assert (E2 : objects c2 = <[id := x']> (objects c)).
    { change (objects c2) with (<[id := x']> (objects c1)). by rewrite Eo, insert_insert_eq. }
    assert (HR : forall i u j, slot (table c2) i = Some (u, Some j) -> i <> n /\ j <> id /\ slot (table c) i = Some (u, Some j)).
    { intros i v j Hi. change (table c2) with (table c1) in Hi. destruct (decide (i = n)) as [->|Hne]; [by rewrite Hn in Hi|].
      rewrite Hj in Hi by done. split; [done|]. split; [|done]. intros ->.
      destruct (st_slot _ HW _ _ _ Hi) as (y & q & Hy & Ey & _). rewrite Hx in Hy. injection Hy as <-. congruence. }
    split; [split|].
    + exact Ht.
    + intros j y. rewrite E2. destruct (decide (j = id)) as [->|Hne].
      * rewrite lookup_insert_eq. intros [= <-]. split; [change (fresh c2) with (fresh c1); lia|]. exists n, true, p. done.
      * rewrite lookup_insert_ne by done. intros Hy. destruct (st_object _ HW _ _ Hy) as (Hf' & n' & d' & p' & Ey & Hp' & Hd').
        split; [change (fresh c2) with (fresh c1); lia|]. exists n', d', p'. split_and!; try done. intros E. destruct (Hd' E) as [v HS'].
        exists v. change (table c2) with (table c1). rewrite Hj; [done|]. intros ->. rewrite HS in HS'. injection HS' as _ E'. congruence.
    + intros i v j Hi. apply HR in Hi as (_ & Hne & Hi). destruct (st_slot _ HW _ _ _ Hi) as (y & q & Hy & Hy'). exists y, q.
      by rewrite E2, lookup_insert_ne.
    + intros i v j y Hi _. apply HR in Hi as (_ & Hne & Hi). rewrite E2, lookup_insert_ne by done. apply (HL i v); [done | congruence].
Qed.

(** A run that succeeds and keeps the invariant. *)
Definition fine (m : outcome conn) : Prop := exists c', m = Done c' /\ wf c'.

Lemma fine_Done c : wf c -> fine (Done c).
Proof. by exists c. Qed.
Lemma fine_same c c' : wf c -> same c c' -> fine (Done c').
Proof. intros. apply fine_Done. by eapply same_wf. Qed.

Lemma put_objects id x c : objects (put_object id x c) !! id = Some x.
Proof. apply lookup_insert_eq. Qed.

Lemma channel_close_fine id x c : wf c -> objects c !! id = Some x -> fine (channel_close id c).
Proof.
  intros HW Hx. unfold channel_close. rewrite (object_Done _ _ _ Hx). cbn [mbind outcome_bind]. destruct (has CHANNEL_SENT_CLOSE x) eqn:ES; [by apply fine_Done|].
  set (c1 := put_object id (set_flag CHANNEL_SENT_CLOSE x) c). destruct (has CHANNEL_RECEIVED_CLOSE x) eqn:ER.
  - assert (HS : same c1 (C_WRITE (ChannelClose (channel_number x)) c1)) by auto. destruct HW as [H1 H2].
    apply (raise_finish _ _ (set_flag CHANNEL_SENT_CLOSE x)).
    + eapply same_store; [exact HS|]. by eapply put_store.
    + eapply same_live; [exact HS|]. apply put_live; [by apply live_weaken | by left | by right].
    + apply put_objects.
  - eapply fine_same; [|apply same_write]. eapply put_wf; [done | done | by split_and! |]. unfold closing. rewrite !has_set, ER. apply andb_false_r.
Qed.

Lemma channel_eof_fine id x c : wf c -> objects c !! id = Some x -> fine (channel_eof id c).
Proof.
  intros HW Hx. unfold channel_eof. rewrite (object_Done _ _ _ Hx). cbn [mbind outcome_bind]. destruct (has (Z.lor _ _) x); [by apply fine_Done|].
  set (c1 := put_object id (set_flag CHANNEL_SENT_EOF x) c).
  assert (HW1 : wf (C_WRITE (ChannelEof (channel_number x)) c1)).
  { eapply same_wf; [apply same_write|]. eapply put_like; [done | done | by split_and! |]. unfold closing. by rewrite !has_set, !orb_false_r. }
  destruct (_ && _); [|by apply fine_Done]. eapply channel_close_fine; [done | apply put_objects].
Qed.

(** ** The table and the objects *)

Lemma lookup_entry_ok st t n : table_ok t -> 0 <= n ->
  exists o, lookup_entry st n t = Done o /\ forall id, o = Some id -> slot t n = Some (st, Some id).
Proof.
  intros H Hn. unfold lookup_entry. destruct (Z.ltb_spec n (used_channels t)); [|by exists None].
  destruct (slot_within t n H ltac:(lia)) as (u & o & HS). destruct (slot_entry _ _ _ _ HS) as [-> ->]. cbn [mbind outcome_bind].
  destruct (Z.eqb_spec u st) as [->|]; [|by exists None]. exists o. split; [done|]. by intros id ->.
Qed.

(** Looking up a channel for a message. *)
Lemma with_channel st c n (k : option Z -> outcome conn) : wf c -> 0 <= n -> fine (k None) ->
  (forall id x, slot (table c) n = Some (st, Some id) -> objects c !! id = Some x -> registered_ok c n st id -> closing x = false -> fine (k (Some id))) ->
  fine (o ← lookup_entry st n (table c); k o).
Proof.
  intros HW Hn HN HS. destruct (lookup_entry_ok st _ _ (st_table _ (proj1 HW)) Hn) as (o & -> & Ho). cbn [mbind outcome_bind].
  destruct o as [id|]; [|done]. specialize (Ho id eq_refl). pose proof (st_slot _ (proj1 HW) _ _ _ Ho) as (x & p & Hx & HR).
  apply (HS id x); [done | done | by exists x, p | by eapply live_object].
Qed.

(** A slot whose number was reserved gets a new channel. *)
Lemma register_channel_ok c i id x take_into_use : wf c -> id < fresh c -> objects c !! id = None ->
  slot (table c) i = Some (CHANNEL_RESERVED, None) -> e x = HNull \/ outside (e x) -> alive x = true -> closing x = false ->
  (take_into_use = false -> open_continuation x = true) ->
  exists c' x', register_channel i id x take_into_use c = Done c' /\ wf c' /\ objects c' !! id = Some x'.
Proof.
  intros [HW HL] Hid Hnew HS He Ha Hc Ht. destruct (slot_entry _ _ _ _ HS) as [E1 E2]. unfold register_channel.
  rewrite E2. cbn [mbind outcome_bind]. rewrite Z.eqb_refl. cbn [assert_that mbind outcome_bind]. rewrite E1. cbn [mbind outcome_bind].
  rewrite bool_decide_true by done. cbn [assert_that mbind outcome_bind].
  set (p := match e x with HNull => HConnection | h => h end). assert (Hp : outside p) by (unfold p; by destruct He as [->|He]; [|destruct (e x)]).
  set (x' := x <| e := HFinish i false p |>). set (c1 := put_object id x' c). change (table c1) with (table c).
  destruct (put_channel_ok _ _ (Some id) (st_table _ HW) HS) as (t1 & -> & H1 & S1 & O1 & _). cbn [mbind outcome_bind].
  assert (E3 : exists t2 u, (if take_into_use then use_channel i t1 else Done t1) = Done t2 /\ table_ok t2 /\ slot t2 i = Some (u, Some id)
    /\ (forall j, j <> i -> slot t2 j = slot (table c) j) /\ (u = CHANNEL_RESERVED -> open_continuation x = true) /\ u <> CHANNEL_FREE).
  { destruct take_into_use.
    - destruct (use_channel_ok _ _ _ H1 S1) as (t2 & E & H2 & S2 & O2 & _). exists t2, CHANNEL_IN_USE. split_and!; try done.
      intros j Hj. by rewrite O2, O1.
    - exists t1, CHANNEL_RESERVED. split_and!; auto. }
  destruct E3 as (t2 & u & -> & H2 & S2 & O2 & Hu & Hu'). cbn [mbind outcome_bind]. exists (c1 <| table := t2 |>), x'.
  split; [done|]. assert (EO : objects (c1 <| table := t2 |>) = <[id := x']> (objects c)) by done. rewrite !EO, lookup_insert_eq. split; [|done].
  assert (HD : forall j v k, slot t2 j = Some (v, Some k) -> (j = i /\ k = id /\ v = u) \/ (j <> i /\ k <> id /\ slot (table c) j = Some (v, Some k))).
  { intros j v k Hj. destruct (decide (j = i)) as [->|Hne]; [left; rewrite S2 in Hj; by injection Hj as <- <-|].
    rewrite O2 in Hj by done. right. split; [done|]. split; [|done]. intros ->. destruct (st_slot _ HW _ _ _ Hj) as (y & q & Hy & _). congruence. }
  split; [split|].
  - done.
  - intros j y. rewrite EO. destruct (decide (j = id)) as [->|Hne].
    + rewrite lookup_insert_eq. intros [= <-]. split; [done|]. exists i, false, p. split_and!; try done. intros _. by exists u.
    + rewrite lookup_insert_ne by done. intros Hy. destruct (st_object _ HW _ _ Hy) as (Hf & n & d & q & Ey & Hq & Hd). split; [done|].
      exists n, d, q. split_and!; try done. intros E. destruct (Hd E) as [v Hv]. exists v. change (slot t2 n = Some (v, Some j)).
      rewrite O2; [done|]. intros ->. congruence.
  - intros j v k Hj. change (slot t2 j = Some (v, Some k)) in Hj. unfold registered_ok. rewrite EO. apply HD in Hj as [(-> & -> & ->)|(Hne & Hk & Hj)].
    + exists x', p. rewrite lookup_insert_eq. done.
    + rewrite lookup_insert_ne by done. by apply (st_slot _ HW).
  - intros j v k y Hj _. change (slot t2 j = Some (v, Some k)) in Hj. rewrite EO. apply HD in Hj as [(-> & -> & ->)|(Hne & Hk & Hj)].
    + rewrite lookup_insert_eq. by intros [= <-].
    + rewrite lookup_insert_ne by done. by apply (HL j v).
Qed.

(** ** Packets *)

(** A packet the reader of packets delivers. *)
Definition packet_ok (packet : bytes) : Prop := bytes_ok packet /\ zlen packet < 2 ^ 32.

Lemma parsing_fine {A} (p : Parser A) Q packet bad k c : safe p Q -> packet_ok packet -> wf c ->
  (forall a args, Q a -> fine (k a args c)) -> fine (parsing p packet bad k c).
Proof.
  intros HP [Hb Hl] HW HK. unfold parsing. pose proof (HP _ (proj1 (pending_init packet Hb Hl))) as H.
  destruct (p _) as [[a| |x] b]; [apply HK; tauto | by eapply fine_same; [|apply same_error] | tauto].
Qed.

Lemma safe_message_number m : safe (message_number m) (fun _ => True).
Proof. eapply safe_bind; [apply safe_parse_uint8|]. intros n _. destruct (_ =? _); [by apply safe_ret | apply safe_reject]. Qed.

Lemma safe_left : safe left (fun _ => True).
Proof. intros b Hb. simpl. auto with lia. Qed.

Lemma safe_end_of_data : safe end_of_data (fun _ => True).
Proof.
  eapply safe_bind; [eapply (safe_bind _ _ _ (fun _ => True)); [apply safe_left | by intros; apply safe_ret]|].
  intros [|] _; [by apply safe_ret | apply safe_reject].
Qed.

Create HintDb parsers.
#[export] Hint Resolve safe_message_number safe_end_of_data safe_parse_uint32 safe_parse_string safe_parse_string_copy safe_parse_atom
  safe_parse_boolean : parsers.

(** One parser after the other, down to the value. *)
Ltac parse_safe :=
  repeat (eapply safe_bind; [by eauto with parsers|]; cbv beta; intros ? ?); apply safe_ret; done || lia.

Lemma safe_global_request : safe parse_global_request (fun _ => True). Proof. unfold parse_global_request. parse_safe. Qed.
Lemma safe_channel_request : safe parse_channel_request (fun '(n, _, _) => 0 <= n). Proof. unfold parse_channel_request. parse_safe. Qed.
Lemma safe_channel_open : safe parse_channel_open (fun _ => True). Proof. unfold parse_channel_open. parse_safe. Qed.
Lemma safe_window_adjust : safe parse_window_adjust (fun '(n, _) => 0 <= n). Proof. unfold parse_window_adjust. parse_safe. Qed.
Lemma safe_data : safe parse_data (fun '(n, _) => 0 <= n). Proof. unfold parse_data. parse_safe. Qed.
Lemma safe_extended_data : safe parse_extended_data (fun '(n, _, _) => 0 <= n). Proof. unfold parse_extended_data. parse_safe. Qed.
Lemma safe_channel_message m : safe (parse_channel_message m) (fun n => 0 <= n). Proof. unfold parse_channel_message. parse_safe. Qed.
Lemma safe_open_confirmation : safe parse_open_confirmation (fun '(n, _, _, _) => 0 <= n). Proof. unfold parse_open_confirmation. parse_safe. Qed.
Lemma safe_open_failure : safe parse_open_failure (fun '(n, _) => 0 <= n). Proof. unfold parse_open_failure. parse_safe. Qed.

(** ** The handlers *)

Lemma fine_note x c : wf c -> fine (Done (note x c)).
Proof. intros. by eapply fine_same. Qed.
Lemma fine_write m c : wf c -> fine (Done (C_WRITE m c)).
Proof. intros. by eapply fine_same. Qed.
Lemma fine_error s c : wf c -> fine (Done (PROTOCOL_ERROR s c)).
Proof. intros. by eapply fine_same. Qed.
#[local] Hint Resolve fine_Done fine_note fine_write fine_error : core.

(** A new request status, and an addition to a queue of the table. *)
Lemma same_request c : same c (make_request_status c).2.
Proof. split_and!; [done | done | cbn; lia]. Qed.
Lemma same_settings t' c : numbers t' = numbers (table c) -> same c (c <| table := t' |>).
Proof. intros E. by split_and!. Qed.

Lemma global_request_fine packet c : packet_ok packet -> wf c -> fine (global_request_handler packet c).
Proof.
  intros HP HW. eapply parsing_fine; [apply safe_global_request | done | done |]. intros [name want] args _.
  destruct (_ && _); [|auto]. destruct (want =? 0); [auto|]. apply fine_note. eapply same_wf; [apply same_settings; reflexivity|].
  eapply same_wf; [apply same_request | done].
Qed.

Lemma global_reply_fine f packet (m : Z) bad c : wf c -> (forall b r, packet = b :: r -> b = m) ->
  fine (match packet with
        | [b] => _ ← assert_that (b =? m); Done (next_pending (pending_global_requests (table c)) (fun ctx q c => note (f ctx) (set_pending_global q c)) c)
        | _ => Done (PROTOCOL_ERROR bad c)
        end).
Proof.
  intros HW Hm. destruct packet as [|b [|]]; auto. rewrite (Hm b []), Z.eqb_refl by done. cbn [assert_that mbind outcome_bind].
  destruct (pending_global_requests (table c)); [auto|]. apply fine_note. by eapply same_wf; [apply same_settings|].
Qed.

Lemma global_success_fine r c : wf c -> fine (global_success_handler (SSH_MSG_REQUEST_SUCCESS :: r) c).
Proof. intros HW. apply (global_reply_fine CommandReturn (_ :: r)); [done | by intros ? ? [= <- _]]. Qed.
Lemma global_failure_fine r c : wf c -> fine (global_failure_handler (SSH_MSG_REQUEST_FAILURE :: r) c).
Proof. intros HW. apply (global_reply_fine CommandRaise (_ :: r)); [done | by intros ? ? [= <- _]]. Qed.

Lemma channel_request_fine packet c : packet_ok packet -> wf c -> fine (channel_request_handler packet c).
Proof.
  intros HP HW. eapply parsing_fine; [apply safe_channel_request | done | done |]. intros [[n name] want] args Hn.
  apply with_channel; [done | done | auto |]. intros id x _ Hx _ _. rewrite (object_Done _ _ _ Hx). cbn [mbind outcome_bind].
  destruct (handles _ x); [|destruct (want =? 0); auto]. destruct (want =? 0); [auto|]. apply fine_note.
  eapply put_like; [by eapply same_wf; [apply same_request|] | exact Hx | by split_and! | done].
Qed.

(** A table in order with the same channels under the same numbers. *)
Lemma table_wf t c : wf c -> table_ok t -> (forall j u id, slot t j = Some (u, Some id) <-> slot (table c) j = Some (u, Some id)) -> wf (c <| table := t |>).
Proof.
  intros [[_ Ho Hs] HL] Ht HS. split; [split|].
  - done.
  - intros id x Hx. destruct (Ho id x Hx) as (Hf & n & d & p & E & Hp & Hd). split; [done|]. exists n, d, p. split_and!; try done.
    intros Hd'. destruct (Hd Hd') as [u Hu]. exists u. by apply HS.
  - intros i u id Hi. apply (Hs i u id). by apply HS.
  - intros i u id x Hi _. apply (HL i u); [by apply HS | done].
Qed.

Lemma alloc_wf c : wf c -> exists i t, alloc_channel (table c) = Done (i, t) /\ wf (c <| table := t |>)
  /\ (i = -1 /\ (forall j, 0 <= j < MAX_CHANNELS -> ~ free (table c) j) \/ 0 <= i < MAX_CHANNELS /\ slot t i = Some (CHANNEL_RESERVED, None)).
Proof.
  intros HW. destruct (alloc_channel_ok _ (st_table _ (proj1 HW))) as (i & t & E & Ht & Hi). exists i, t. split; [done|].
  destruct Hi as [(-> & -> & Hfull)|(Hi & Hf & _ & HS & Ho & _)].
  - split; [|by left]. by apply table_wf.
  - split; [|by right]. apply table_wf; [done | done |]. intros j u id. destruct (decide (j = i)) as [->|Hne].
    + rewrite HS. destruct Hf as [-> | ->]; done.
    + by rewrite Ho.
Qed.

Lemma channel_open_fine packet c : packet_ok packet -> wf c -> fine (channel_open_handler packet c).
Proof.
  intros HP HW. eapply parsing_fine; [apply safe_channel_open | done | done |]. intros [[[name remote] window] size] args _.
  cbv beta iota zeta. destruct (pending_close (table c)); [auto|].
  match goal with |- context [if ?b then _ else _] => destruct b end; [|auto].
  destruct (alloc_wf c HW) as (i & t & -> & Ht & _). cbn [mbind outcome_bind]. apply fine_note. destruct (i <? 0); [|done].
  by eapply same_wf; [apply same_write|].
Qed.

Lemma window_adjust_fine packet c : packet_ok packet -> wf c -> fine (window_adjust_handler packet c).
Proof.
  intros HP HW. eapply parsing_fine; [apply safe_window_adjust | done | done |]. intros [n size] args Hn.
  apply with_channel; [done | done | auto |]. intros id x _ Hx _ _. rewrite (object_Done _ _ _ Hx). cbn [mbind outcome_bind].
  destruct (has CHANNEL_RECEIVED_CLOSE x); [auto|]. destruct (has (Z.lor _ _) x); [auto|].
  assert (HW1 : wf (put_object id (widen size x) c)) by (eapply put_like; [done | exact Hx | by split_and! | done]). destruct (_ && _); auto.
Qed.

Lemma deliver_fine n data k c : 0 <= n -> wf c -> (forall id d c', same c' (k id d c')) -> fine (deliver n data k c).
Proof.
  intros Hn HW HK. apply with_channel; [done | done | auto |]. intros id x _ Hx _ _. rewrite (object_Done _ _ _ Hx). cbn [mbind outcome_bind].
  destruct (_ && _); [|auto]. destruct (has CHANNEL_SENT_CLOSE x); [auto|].
  assert (HA : like x (accept_data data x).2 /\ closing (accept_data data x).2 = closing x) by (split; [by split_and! | done]).
  destruct (accept_data data x) as [[|b d] x']; [auto|]. eapply fine_same; [|apply HK]. eapply put_like; [done | exact Hx | apply HA | apply HA].
Qed.

Lemma channel_data_fine packet c : packet_ok packet -> wf c -> fine (channel_data_handler packet c).
Proof.
  intros HP HW. eapply parsing_fine; [apply safe_data | done | done |]. intros [n data] args Hn. by apply deliver_fine.
Qed.

Lemma channel_extended_data_fine packet c : packet_ok packet -> wf c -> fine (channel_extended_data_handler packet c).
Proof.
  intros HP HW. eapply parsing_fine; [apply safe_extended_data | done | done |]. intros [[n type] data] args Hn. apply deliver_fine; [done | done |].
  intros id d c'. by destruct (type =? _).
Qed.

Lemma channel_eof_handler_fine packet c : packet_ok packet -> wf c -> fine (channel_eof_handler packet c).
Proof.
  intros HP HW. eapply parsing_fine; [apply safe_channel_message | done | done |]. intros n args Hn.
  apply with_channel; [done | done | auto |]. intros id x _ Hx _ Hc. rewrite (object_Done _ _ _ Hx). cbn [mbind outcome_bind].
  destruct (has (Z.lor _ _) x) eqn:EF; [auto|]. set (c1 := put_object id _ c). rewrite has_lor in EF. apply orb_false_iff in EF as [_ ER].
  assert (HW1 : wf c1) by (eapply put_wf; [done | exact Hx | by split_and! | unfold closing; rewrite !has_set, ER; apply andb_false_r]).
  assert (Hx1 : objects c1 !! id = Some (set_flag CHANNEL_RECEIVED_EOF x)) by apply put_objects.
  destruct (eof x); [|by eapply channel_close_fine]. destruct (_ && _); [|auto]. eapply channel_close_fine; [|exact Hx1]. by eapply same_wf; [apply same_note|].
Qed.

Lemma channel_close_handler_fine packet c : packet_ok packet -> wf c -> fine (channel_close_handler packet c).
Proof.
  intros HP HW. eapply parsing_fine; [apply safe_channel_message | done | done |]. intros n args Hn.
  apply with_channel; [done | done | auto |]. intros id x _ Hx _ Hc. rewrite (object_Done _ _ _ Hx). cbn [mbind outcome_bind].
  destruct (has CHANNEL_RECEIVED_CLOSE x) eqn:ER; [auto|]. set (x' := set_flag _ x). destruct (has CHANNEL_SENT_CLOSE x) eqn:ES.
  - destruct HW as [H1 H2]. apply (raise_finish _ _ x'); [by eapply put_store| |apply put_objects].
    apply put_live; [by apply live_weaken | by left | by right].
  - eapply channel_close_fine; [|apply put_objects]. eapply put_wf; [done | exact Hx | by split_and! |]. unfold closing, x'. by rewrite !has_set, ES.
Qed.

Lemma channel_reply_fine m bad f packet c : packet_ok packet -> wf c -> fine (channel_reply_handler m bad f packet c).
Proof.
  intros HP HW. eapply parsing_fine; [apply safe_channel_message | done | done |]. intros n args Hn.
  apply with_channel; [done | done | auto |]. intros id x _ Hx _ Hc. rewrite (object_Done _ _ _ Hx). cbn [mbind outcome_bind].
  destruct (pending_requests x); [auto|]. apply fine_note. eapply put_like; [done | exact Hx | by split_and! | done].
Qed.

(** A reserved channel is taken into use. *)
Lemma confirm_wf c n id x x' t : wf c -> slot (table c) n = Some (CHANNEL_RESERVED, Some id) -> objects c !! id = Some x ->
  e x' = e x -> alive x' = alive x -> closing x' = false ->
  table_ok t -> slot t n = Some (CHANNEL_IN_USE, Some id) -> (forall j, j <> n -> slot t j = slot (table c) j) -> wf ((put_object id x' c) <| table := t |>).
Proof.
  intros [HW HL] HS Hx E1 E2 HC Ht Sn So. set (c' := _ <| table := t |>). assert (EO : objects c' = <[id := x']> (objects c)) by done.
  pose proof (st_slot _ HW _ _ _ HS) as (y & p & Hy & Ey & Hp & Ha & _). rewrite Hx in Hy. injection Hy as <-.
  assert (HD : forall j v k, slot t j = Some (v, Some k) -> (j = n /\ k = id /\ v = CHANNEL_IN_USE) \/ (j <> n /\ k <> id /\ slot (table c) j = Some (v, Some k))).
  { intros j v k Hj. destruct (decide (j = n)) as [->|Hne]; [left; rewrite Sn in Hj; by injection Hj as <- <-|].
    rewrite So in Hj by done. right. split; [done|]. split; [|done]. intros ->. destruct (st_slot _ HW _ _ _ Hj) as (y & q & Hy & Ey' & _). congruence. }
  assert (HB : forall j v k, slot (table c) j = Some (v, Some k) -> exists v', slot t j = Some (v', Some k)).
  { intros j v k Hj. destruct (decide (j = n)) as [->|Hne]; [|exists v; by rewrite So]. rewrite HS in Hj. injection Hj as _ <-. by exists CHANNEL_IN_USE. }
  split; [split|].
  - done.
  - intros j y Hj. assert (HO : exists y0, objects c !! j = Some y0 /\ e y = e y0).
    { rewrite EO in Hj. destruct (decide (j = id)) as [->|Hne]; [rewrite lookup_insert_eq in Hj; injection Hj as <-; by exists x|].
      rewrite lookup_insert_ne in Hj by done. by exists y. }
    destruct HO as (y0 & Hy0 & E0). destruct (st_object _ HW _ _ Hy0) as (Hf & m & d & q & Eq & Hq & Hd). split; [done|].
    exists m, d, q. rewrite E0. split_and!; try done. intros E. destruct (Hd E) as [v Hv]. by apply HB in Hv.
  - intros j v k Hj. unfold registered_ok. rewrite EO. apply HD in Hj as [(-> & -> & ->)|(Hne & Hk & Hj)].
    + exists x', p. rewrite lookup_insert_eq, E1, E2. done.
    + rewrite lookup_insert_ne by done. by apply (st_slot _ HW).
  - intros j v k y Hj _. rewrite EO. apply HD in Hj as [(-> & -> & ->)|(Hne & Hk & Hj)].
    + rewrite lookup_insert_eq. by intros [= <-].
    + rewrite lookup_insert_ne by done. by apply (HL j v).
Qed.

Lemma open_confirm_fine packet c : packet_ok packet -> wf c -> fine (channel_open_confirm_handler packet c).
Proof.
  intros HP HW. eapply parsing_fine; [apply safe_open_confirmation | done | done |]. intros [[[n remote] window] size] args Hn.
  apply with_channel; [done | done | auto |]. intros id x HS Hx (y & p & Hy & Ey & Hp & Ha & Ho & _) Hc. rewrite Hx in Hy. injection Hy as <-.
  rewrite (object_Done _ _ _ Hx). cbn [mbind outcome_bind]. rewrite (Ho eq_refl). cbn [assert_that mbind outcome_bind].
  destruct (use_channel_ok _ _ _ (st_table _ (proj1 HW)) HS) as (t & Et & Ht & Sn & So & _). unfold on_table. cbn zeta.
  set (x' := x <| open_continuation := _ |> <| channel_number := _ |> <| send_window_size := _ |> <| send_max_packet := _ |>).
  change (table (put_object id x' c)) with (table c). rewrite Et. cbn [mbind outcome_bind]. apply fine_note. by eapply confirm_wf.
Qed.

(** An exception that is not about the channel goes to the handlers outside. *)
Lemma raise_other id x y c : objects c !! id = Some x -> y <> EXC_FINISH_PENDING -> y <> EXC_FINISH_CHANNEL -> wf c ->
  exists c' x', raise_channel id y c = Done c' /\ wf c' /\ objects c' !! id = Some x' /\ (forall i, slot (table c') i = slot (table c) i).
Proof.
  intros Hx H1 H2 HW. destruct (st_object _ (proj1 HW) _ _ Hx) as (_ & n & d & p & Ee & Hp & _).
  assert (HR : exists k, raise_handler (e x) y c = Done (e x, note (Raise k y) c)).
  { rewrite Ee. cbn [raise_handler]. destruct y; try done; (destruct p; try done; by eexists). }
  destruct HR as [k HR]. unfold raise_channel. rewrite (object_Done _ _ _ Hx). cbn [mbind outcome_bind]. rewrite HR. cbn [mbind outcome_bind].
  rewrite (object_Done id x (note _ c)) by done. cbn [mbind outcome_bind]. eexists _, (x <| e := e x |>). split; [reflexivity|].
  split; [|split; [apply put_objects | done]]. eapply put_like; [by eapply same_wf; [apply same_note|] | exact Hx | by split_and! | done].
Qed.

(** The one message whose contents an assertion insists on: the refusal of a
    channel this end asked for, with a reason that is not one of the four. *)
Definition bad_refusal (packet : bytes) (c : conn) : Prop :=
  exists n reason b id, parse_open_failure (simple_buffer_init (zlen packet) packet) = (Done (n, reason), b)
  /\ slot (table c) n = Some (CHANNEL_RESERVED, Some id) /\ ~ 1 <= reason <= 4.

Lemma open_failure_fine packet c : packet_ok packet -> wf c ->
  fine (channel_open_failure_handler packet c) \/ (bad_refusal packet c /\ channel_open_failure_handler packet c = Crash AssertFail).
Proof.
  intros [Hb Hl] HW. unfold channel_open_failure_handler, parsing.
  pose proof (safe_open_failure _ (proj1 (pending_init packet Hb Hl))) as H.
  destruct (parse_open_failure _) as [[[n reason]| |x] b] eqn:EP; [|left; by apply fine_error | tauto]. destruct H as (_ & _ & _ & Hn).
  destruct (lookup_entry_ok CHANNEL_RESERVED _ n (st_table _ (proj1 HW)) Hn) as (o & Eo & Ho). unfold lookup_channel_reserved. rewrite Eo.
  cbn [mbind outcome_bind]. destruct o as [id|]; [|left; auto]. specialize (Ho id eq_refl).
  pose proof (st_slot _ (proj1 HW) _ _ _ Ho) as (x & p & Hx & _ & _ & _ & HC & _). rewrite (object_Done _ _ _ Hx). cbn [mbind outcome_bind].
  rewrite (HC eq_refl). cbn [assert_that mbind outcome_bind]. unfold make_channel_open_exception.
  destruct (Z.ltb_spec 0 reason); cbn [assert_that mbind outcome_bind]; [|right; split; [|done]; exists n, reason, b, id; split_and!; [done | done | lia]].
  destruct (Z.leb_spec reason 4); cbn [assert_that mbind outcome_bind]; [|right; split; [|done]; exists n, reason, b, id; split_and!; [done | done | lia]].
  left. destruct (raise_other _ _ (EXC_CHANNEL_OPEN reason) _ Hx ltac:(done) ltac:(done) HW) as (c1 & x1 & -> & [H1 H2] & Hx1 & _).
  cbn [mbind outcome_bind]. eapply raise_finish; [done | by apply live_weaken | done].
Qed.

Lemma packets_step packet c (HP : packet_ok packet) (HW : wf c) :
  fine (dispatch packet c) \/ (bad_refusal packet c /\ dispatch packet c = Crash AssertFail).
Proof.
  change (fine (dispatch packet c) \/ bad_refusal packet c /\ dispatch packet c = Crash AssertFail).
  destruct packet as [|b r]; [left; by apply fine_Done|]. unfold dispatch.
  repeat match goal with |- context [if ?x =? ?y then _ else _] =>
    destruct (Z.eqb_spec x y) as [->|];
    [first [ by left; eauto using global_request_fine, channel_open_fine, channel_request_fine, window_adjust_fine, channel_data_fine,
               channel_extended_data_fine, channel_eof_handler_fine, channel_close_handler_fine, open_confirm_fine, channel_reply_fine,
               global_success_fine, global_failure_fine
           | by apply open_failure_fine ]|] end.
  left. by apply fine_Done.
Qed.

(** ** The calls of the program *)

(** A channel object that was not registered yet. *)
Definition new_channel (x : ssh_channel) : Prop := e x = HNull /\ alive x = true /\ closing x = false.

Definition exists_channel (id : Z) (c : conn) (P : ssh_channel -> Prop) : Prop := exists x, objects c !! id = Some x /\ P x.

(** What the program keeps to when it calls: it answers for numbers and
    requests it was asked about and once only, sends what the window allows,
    ends sources it has started, and opens a channel when there is a number. *)
Definition valid (ev : event) (c : conn) : Prop :=
  match ev with
  | Packet packet => packet_ok packet /\ ~ bad_refusal packet c
  | Opened local _ _ _ x => slot (table c) local = Some (CHANNEL_RESERVED, None) /\ new_channel x
  | Refused local _ _ _ => slot (table c) local = Some (CHANNEL_RESERVED, None)
  | OpenCommand new _ =>
    (exists j, 0 <= j < MAX_CHANNELS /\ free (table c) j) /\ match new with Some (x, _, _) => new_channel x | None => True end
  | RequestCommand id _ _ _ | StartSession id | StartForward id | StartReceive id _ | Consumed id _ | IOError id => exists_channel id c (fun _ => True)
  | GlobalCommand _ _ _ => True
  | RequestDone id n _ => status n c = -1 /\ exists_channel id c (fun x => active_requests x <> [])
  | GlobalDone n _ => status n c = -1 /\ active_global_requests (table c) <> []
  | Write id packet | WriteExtended id _ packet =>
    exists_channel id c (fun x => match packet with
                                  | Some data => zlen data <= send_window_size x /\ zlen data <= send_max_packet x
                                  | None => sources x <> 0
                                  end)
  | SourceClosed id => exists_channel id c (fun x => sources x <> 0)
  end.

(** A program that keeps to it as long as it runs. *)
Fixpoint valid_run (evs : list event) (c : conn) : Prop :=
  match evs with
  | [] => True
  | ev :: evs => valid ev c /\ forall c', step ev c = Done c' -> valid_run evs c'
  end.

Lemma fresh_object c : store_ok c -> objects c !! fresh c = None.
Proof. intros [_ Ho _]. destruct (objects c !! fresh c) as [x|] eqn:E; [|done]. destruct (Ho _ _ E) as [? _]. lia. Qed.

Lemma slot_small t i u o : table_ok t -> slot t i = Some (u, o) -> 0 <= i < 131072.
Proof. intros H HS. pose proof (slot_lt _ _ _ _ H HS). pose proof (ok_used _ H) as [_ Hm]. rewrite (ok_max _ H) in Hm. change MAX_CHANNELS with 131072 in Hm. lia. Qed.

(** Registering a new object under a reserved number. *)
Lemma register_new c i x take_into_use : wf c -> slot (table c) i = Some (CHANNEL_RESERVED, None) ->
  e x = HNull \/ outside (e x) -> alive x = true -> closing x = false -> (take_into_use = false -> open_continuation x = true) ->
  exists c' x', register_channel i (fresh c) x take_into_use (c <| fresh := fresh c + 1 |>) = Done c' /\ wf c' /\ objects c' !! fresh c = Some x'.
Proof.
  intros HW HS He Ha Hc Ht. pose proof (fresh_object c (proj1 HW)) as Hn. set (c1 := c <| fresh := fresh c + 1 |>).
  assert (HW1 : wf c1) by (eapply same_wf; [|exact HW]; split_and!; [done | done | cbn; lia]).
  destruct (register_channel_ok c1 i (fresh c) x take_into_use HW1) as (c' & x' & E & H1 & H2); try done; [cbn; lia|]. by exists c', x'.
Qed.

Lemma opened_fine local remote window size x c : wf c -> slot (table c) local = Some (CHANNEL_RESERVED, None) -> new_channel x ->
  fine (do_channel_open_continue local remote window size x c).
Proof.
  intros HW HS (H1 & H2 & H3). pose proof (slot_small _ _ _ _ (st_table _ (proj1 HW)) HS). unfold do_channel_open_continue. cbv zeta.
  rewrite u32_small by lia. unfold new_object.
  set (x1 := x <| send_window_size := _ |> <| send_max_packet := _ |> <| channel_number := _ |>).
  destruct (register_new c local x1 true HW HS) as (c' & x' & -> & HW' & Hx'); try done; [by left|].
  cbn [mbind outcome_bind]. rewrite (object_Done _ _ _ Hx'). cbn [mbind outcome_bind]. by apply fine_write.
Qed.

Lemma refused_fine local remote error_code msg c : wf c -> slot (table c) local = Some (CHANNEL_RESERVED, None) ->
  fine (do_exc_channel_open_handler local remote error_code msg c).
Proof.
  intros HW HS. pose proof (slot_small _ _ _ _ (st_table _ (proj1 HW)) HS). unfold do_exc_channel_open_handler.
  rewrite u32_small by lia. destruct (slot_entry _ _ _ _ HS) as [-> ->]. cbn [mbind outcome_bind assert_that negb]. rewrite bool_decide_true by done.
  cbn [mbind outcome_bind assert_that]. assert (Es : s32 local = local) by wrap_lia. rewrite Es. unfold on_table.
  destruct (dealloc_channel_ok _ _ _ _ (st_table _ (proj1 HW)) HS ltac:(done)) as (t & -> & Ht & Hf & Ho & _). cbn [mbind outcome_bind].
  apply fine_write. apply table_wf; [done | done|]. intros j u id. destruct (decide (j = local)) as [->|Hne]; [by rewrite Hf, HS | by rewrite Ho].
Qed.

Lemma open_command_fine new h c : wf c -> (exists j, 0 <= j < MAX_CHANNELS /\ free (table c) j) ->
  match new with Some (x, _, _) => new_channel x | None => True end -> fine (do_channel_open_command new h c).
Proof.
  intros HW (j & Hj & Hfree) Hx. unfold do_channel_open_command. destruct (alloc_wf c HW) as (i & t & -> & HW1 & Hi). cbn [mbind outcome_bind].
  destruct Hi as [(_ & Hfull)|(Hi & HS)]; [by destruct (Hfull j Hj)|]. set (c1 := c <| table := t |>) in *. change t with (table c1) in HS.
  rewrite (proj2 (Z.ltb_ge i 0)) by lia. change MAX_CHANNELS with 131072 in Hi. destruct new as [[[x type] args]|].
  - destruct Hx as (H1 & H2 & H3). unfold new_object. rewrite u32_small by lia. change (c <| table := t |>) with c1.
    set (x1 := x <| open_continuation := _ |> <| e := _ |>).
    destruct (register_new c1 i x1 false HW1 HS) as (c' & x' & -> & HW' & _); try done; [by right|]. cbn [mbind outcome_bind]. by apply fine_write.
  - unfold on_table. change (c <| table := t |>) with c1. destruct (dealloc_channel_ok _ _ _ _ (st_table _ (proj1 HW1)) HS ltac:(done)) as (t2 & -> & Ht & Hf & Ho & _).
    cbn [mbind outcome_bind]. apply fine_Done. apply table_wf; [done | done|]. intros k u id. destruct (decide (k = i)) as [->|Hne]; [by rewrite Hf, HS | by rewrite Ho].
Qed.

(** An operation on one object. *)
Lemma adjust_fine id n x c : wf c -> objects c !! id = Some x -> fine (prepare_window_adjust id n c).
Proof.
  intros HW Hx. unfold prepare_window_adjust. rewrite (object_Done _ _ _ Hx). cbn [mbind outcome_bind]. apply fine_write.
  eapply put_like; [done | exact Hx | by split_and! | done].
Qed.

Lemma transmit_Done data x : zlen data <= send_window_size x -> zlen data <= send_max_packet x ->
  transmit data x = Done (x <| send_window_size := u32 (send_window_size x - zlen data) |>).
Proof. intros H1 H2. unfold transmit. by rewrite (proj2 (Z.leb_le _ _) H1), (proj2 (Z.leb_le _ _) H2). Qed.

Lemma source_eof_fine id x c : wf c -> objects c !! id = Some x -> sources x <> 0 -> fine (source_eof id c).
Proof.
  intros HW Hx Hs. unfold source_eof. rewrite (object_Done _ _ _ Hx). cbn [mbind outcome_bind]. rewrite (proj2 (Z.eqb_neq _ _) Hs).
  cbn [assert_that mbind outcome_bind negb]. destruct (_ =? 1); [by eapply channel_eof_fine | auto].
Qed.

Lemma write_fine id packet x c : wf c -> objects c !! id = Some x ->
  match packet with Some data => zlen data <= send_window_size x /\ zlen data <= send_max_packet x | None => sources x <> 0 end ->
  fine (do_channel_write id packet c) /\ forall type, fine (do_channel_write_extended id type packet c).
Proof.
  intros HW Hx HP. destruct packet as [data|]; [|split; intros; by eapply source_eof_fine]. destruct HP as [H1 H2].
  unfold do_channel_write, do_channel_write_extended, channel_transmit_data, channel_transmit_extended.
  rewrite (object_Done _ _ _ Hx). cbn [mbind outcome_bind]. rewrite (transmit_Done _ _ H1 H2). cbn [mbind outcome_bind].
  split; intros; apply fine_write; (eapply put_like; [done | exact Hx | by split_and! | done]).
Qed.

Lemma read_data_fine id x c : wf c -> objects c !! id = Some x ->
  exists c' x', make_read_data id c = Done c' /\ wf c' /\ objects c' !! id = Some x'.
Proof.
  intros HW Hx. unfold make_read_data. rewrite (object_Done _ _ _ Hx). cbn [mbind outcome_bind]. eexists _, _. split; [reflexivity|].
  split; [|apply put_objects]. eapply put_like; [done | exact Hx | by split_and! | done].
Qed.

Lemma client_io_fine id x c : wf c -> objects c !! id = Some x -> fine (do_client_io id c).
Proof.
  intros HW Hx. unfold do_client_io. rewrite (object_Done _ _ _ Hx). cbn [mbind outcome_bind]. set (x1 := x <| receive := true |> <| send_adjust := true |>).
  assert (HW1 : wf (put_object id x1 c)) by (eapply put_like; [done | exact Hx | by split_and! | done]).
  destruct (read_data_fine id x1 _ HW1 (put_objects _ _ _)) as (c' & x' & -> & HW' & Hx'). cbn [mbind outcome_bind].
  rewrite (object_Done _ _ _ Hx'). cbn [mbind outcome_bind]. apply fine_Done. eapply put_like; [done | exact Hx' | by split_and! | done].
Qed.

Lemma forward_fine id x c : wf c -> objects c !! id = Some x -> fine (channel_forward_start_io id c).
Proof.
  intros HW Hx. unfold channel_forward_start_io. rewrite (object_Done _ _ _ Hx). cbn [mbind outcome_bind].
  set (x1 := x <| receive := true |> <| send_adjust := true |> <| eof := true |>).
  assert (HW1 : wf (put_object id x1 c)) by (eapply put_like; [done | exact Hx | by split_and! | done]).
  destruct (read_data_fine id x1 _ HW1 (put_objects _ _ _)) as (c' & x' & E & HW' & _). by exists c'.
Qed.

Lemma request_done_fine id n s x c : wf c -> status n c = -1 -> objects c !! id = Some x -> active_requests x <> [] ->
  fine (do_channel_request_response id n s c).
Proof.
  intros HW Hn Hx Hq. unfold do_channel_request_response. rewrite Hn. cbn [assert_that mbind outcome_bind Z.eqb Pos.eqb]. rewrite (object_Done _ _ _ Hx).
  cbn [mbind outcome_bind]. rewrite bool_decide_true by done. cbn [assert_that mbind outcome_bind]. unfold send_channel_request_responses.
  rewrite (object_Done id x (set_status n s c)) by done. cbn [mbind outcome_bind]. destruct (decided _ _) as [l q].
  eapply fine_same; [|apply same_write_all]. eapply put_like; [by eapply same_wf; [apply same_status|] | exact Hx | by split_and! | done].
Qed.

Lemma global_done_fine n s c : wf c -> status n c = -1 -> active_global_requests (table c) <> [] -> fine (do_global_request_response n s c).
Proof.
  intros HW Hn Hq. unfold do_global_request_response. rewrite Hn. cbn [assert_that mbind outcome_bind Z.eqb Pos.eqb]. rewrite bool_decide_true by done.
  cbn [assert_that mbind outcome_bind]. unfold send_global_request_responses. destruct (decided _ _) as [l q].
  eapply fine_same; [|apply same_write_all]. eapply same_wf; [by apply same_settings|]. by eapply same_wf; [apply same_status|].
Qed.

Lemma request_command_fine id type context args x c : wf c -> objects c !! id = Some x -> fine (do_channel_request_command id type context args c).
Proof.
  intros HW Hx. unfold do_channel_request_command. rewrite (object_Done _ _ _ Hx). cbn [mbind outcome_bind]. destruct context; apply fine_write; [|done].
  eapply put_like; [done | exact Hx | by split_and! | done].
Qed.

Lemma step_fine ev c : wf c -> valid ev c -> fine (step ev c).
Proof.
  intros HW. destruct ev; simpl.
  - intros [HP HB]. pose proof (packets_step packet c HP HW) as [?|[? _]]; [done | by destruct HB].
  - intros [HS Hx]. by apply opened_fine.
  - by apply refused_fine.
  - intros [Hf Hx]. by apply open_command_fine.
  - intros (x & Hx & _). by eapply request_command_fine.
  - intros _. apply fine_Done. destruct context; (eapply same_wf; [apply same_write|]); [|done]. by eapply same_wf; [apply same_settings|].
  - intros (Hn & x & Hx & Hq). by eapply request_done_fine.
  - intros (Hn & Hq). by apply global_done_fine.
  - intros (x & Hx & _). by eapply client_io_fine.
  - intros (x & Hx & _). by eapply forward_fine.
  - intros (x & Hx & _). unfold channel_start_receive. rewrite (object_Done _ _ _ Hx). cbn [mbind outcome_bind]. destruct (_ <? _); [|auto]. by eapply adjust_fine.
  - intros (x & Hx & _). unfold adjust_rec_window. rewrite (object_Done _ _ _ Hx). cbn [mbind outcome_bind]. destruct (has _ x); [auto|]. by eapply adjust_fine.
  - intros (x & Hx & HP). by apply (write_fine _ _ x).
  - intros (x & Hx & HP). by apply (write_fine _ _ x).
  - intros (x & Hx & Hs). unfold channel_read_close_callback. rewrite (object_Done _ _ _ Hx). cbn [mbind outcome_bind].
    rewrite (proj2 (Z.eqb_neq _ _) Hs). cbn [assert_that mbind outcome_bind negb]. set (x' := x <| sources := _ |>).
    assert (HW1 : wf (put_object id x' c)) by (eapply put_like; [done | exact Hx | by split_and! | done]).
    destruct (_ =? 1); [eapply channel_eof_fine; [done | apply put_objects] | auto].
  - intros (x & Hx & _). by eapply channel_close_fine.
Qed.

(** ** Theorems *)

Lemma init_wf : wf init_connection_service.
Proof.
  split; [split|].
  - exact make_channel_table_ok.
  - intros id x. simpl. by rewrite lookup_empty.
  - intros i u id. unfold slot. by destruct (0 <=? i).
  - intros i u id x. unfold slot. by destruct (0 <=? i).
Qed.

(** C9. No packet of the peer, whatever its type and contents, makes the
    connection protocol fail or breaks its invariant, but for one: the refusal
    of a channel with a reason that is not one of the four known fails an
    assertion. (In the invariant every number in the table leads to a live
    channel whose handler knows it, and none of these is closed in both
    directions: when the two CLOSE messages have passed the number is free.) *)
Theorem packets_safe packet c (HP : packet_ok packet) (HW : wf c) :
  (exists c', dispatch packet c = Done c' /\ wf c') \/ (bad_refusal packet c /\ dispatch packet c = Crash AssertFail).
Proof. exact (packets_step packet c HP HW). Qed.

(** C13. A connection stays in order: from its beginning, through every run of
    packets of the peer and of calls of a program that keeps to its side
    ([valid]), no assertion fails, no array is left, and the invariant holds
    at the end. *)
Theorem connection_runs evs (HV : valid_run evs init_connection_service) :
  exists c, run evs init_connection_service = Done c /\ wf c.
Proof.
  pose proof init_wf as HW.
  revert HW HV. generalize init_connection_service. induction evs as [|ev evs IH]; intros c HW HV; [by exists c|].
  destruct HV as [Hv HR]. destruct (step_fine ev c HW Hv) as (c' & E & HW'). cbn [run]. rewrite E. cbn [mbind outcome_bind]. auto.
Qed.

(** ** A session *)

(** The client asks for a session, with a window of ten thousand octets. *)
Definition session_open : event := OpenCommand (Some (make_client_session_channel 10000, lookup_atom (bytes_of_string "session"), [])) 7.
Definition session_conn : conn := match step session_open init_connection_service with Done c => c | _ => init_connection_service end.

Definition octets (m : message) : bytes := match encode m with Done packet => packet | _ => [] end.

Lemma session_valid : valid session_open init_connection_service.
Proof.
  split; [|by split_and!]. exists 0. split; [done|]. left. by unfold slot.
Qed.

Lemma session_wf : wf session_conn.
Proof.
  destruct (step_fine _ _ init_wf session_valid) as (c & E & HW). unfold session_conn. by rewrite E.
Qed.

#[local] Instance packet_ok_dec packet : Decision (packet_ok packet).
Proof. unfold packet_ok. apply _. Defined.

(** The peer refuses the session. *)
Lemma packets_safe_witness :
  let packet := octets (OpenFailure 0 2 (bytes_of_string "no")) in
  (exists c', dispatch packet session_conn = Done c' /\ wf c') \/ (bad_refusal packet session_conn /\ dispatch packet session_conn = Crash AssertFail).
Proof. intros packet. apply (packets_safe packet session_conn); [apply (bool_decide_eq_true_1 _); vm_compute; reflexivity | exact session_wf]. Defined.

(** A session that is opened, used in both directions and closed. *)
Definition session_run : list event :=
  [session_open; Packet (octets (OpenConfirmation 0 5 1000 500)); StartSession 0; Write 0 (Some (bytes_of_string "ls"));
   Packet (octets (Data 0 (bytes_of_string "src"))); Consumed 0 3; Packet (octets (ChannelClose 0)); SourceClosed 0].

#[local] Ltac follow := let c := fresh in let E := fresh in intros c E; vm_compute in E; injection E as <-.
#[local] Ltac no_refusal := intros (? & ? & ? & ? & H & _); vm_compute in H; discriminate H.
#[local] Ltac the_session := eexists; split; [vm_compute; reflexivity | try done].

Lemma session_run_valid : valid_run session_run init_connection_service.
Proof.
  split; [exact session_valid|]. follow.
  split; [split; [apply (bool_decide_eq_true_1 _); vm_compute; reflexivity | no_refusal]|]. follow.
  split; [the_session|]. follow.
  split; [the_session|]. follow.
  split; [split; [apply (bool_decide_eq_true_1 _); vm_compute; reflexivity | no_refusal]|]. follow.
  split; [the_session|]. follow.
  split; [split; [apply (bool_decide_eq_true_1 _); vm_compute; reflexivity | no_refusal]|]. follow.
  split; [the_session|]. follow. done.
Qed.

Lemma connection_runs_witness : exists c, run session_run init_connection_service = Done c /\ wf c.
Proof. exact (connection_runs session_run session_run_valid). Defined.

End Protocol.
