(* ===== verification/Messages.v ===== *)
(** The messages of the connection protocol on the wire: what [encode] writes
    is what the handler of the peer takes apart. *)
From S2P Require Import Prelude Window Bignum Atoms Format Parse Wire Channel.
Import Bignum Atoms Format Parse Wire Channel.

Module Messages.

(** ** The octets of a message *)

(** The fields of a message, and the arguments behind them. *)
Definition fields (m : message) : list field :=
  match m with
  | Disconnect reason msg => [FByte SSH_MSG_DISCONNECT; FUint32 reason; FString msg; FString []]
  | GlobalFailure => [FByte SSH_MSG_REQUEST_FAILURE]
  | GlobalSuccess => [FByte SSH_MSG_REQUEST_SUCCESS]
  | OpenConfirmation channel number window max_packet =>
    [FByte SSH_MSG_CHANNEL_OPEN_CONFIRMATION; FUint32 channel; FUint32 number; FUint32 window; FUint32 max_packet]
  | OpenFailure channel reason msg => [FByte SSH_MSG_CHANNEL_OPEN_FAILURE; FUint32 channel; FUint32 reason; FString msg; FString []]
  | ChannelSuccess channel => [FByte SSH_MSG_CHANNEL_SUCCESS; FUint32 channel]
  | ChannelFailure channel => [FByte SSH_MSG_CHANNEL_FAILURE; FUint32 channel]
  | WindowAdjust channel add => [FByte SSH_MSG_CHANNEL_WINDOW_ADJUST; FUint32 channel; FUint32 add]
  | ChannelClose channel => [FByte SSH_MSG_CHANNEL_CLOSE; FUint32 channel]
  | ChannelEof channel => [FByte SSH_MSG_CHANNEL_EOF; FUint32 channel]
  | Data channel data => [FByte SSH_MSG_CHANNEL_DATA; FUint32 channel; FString data]
  | ExtendedData channel type data => [FByte SSH_MSG_CHANNEL_EXTENDED_DATA; FUint32 channel; FUint32 type; FString data]
  | ChannelOpen type number window max_packet _ =>
    [FByte SSH_MSG_CHANNEL_OPEN; FAtom type; FUint32 number; FUint32 window; FUint32 max_packet]
  | ChannelRequest channel type want_reply _ => [FByte SSH_MSG_CHANNEL_REQUEST; FUint32 channel; FAtom type; FByte want_reply]
  | GlobalRequest type want_reply _ => [FByte SSH_MSG_GLOBAL_REQUEST; FAtom type; FByte want_reply]
  end.

Definition arguments (m : message) : bytes :=
  match m with ChannelOpen _ _ _ _ args | ChannelRequest _ _ _ args | GlobalRequest _ _ args => args | _ => [] end.

Definition wire_octets (m : message) : bytes := packet_octets (fields m) ++ arguments m.

(** A message that can be sent. *)
Definition message_ok (m : message) : Prop := Forall fits (fields m) /\ bytes_ok (arguments m) /\ zlen (wire_octets m) < 2 ^ 32.

Lemma wire_octets_ok m : message_ok m -> bytes_ok (wire_octets m).
Proof. intros (Hf & Ha & _). apply Forall_app. split; [by apply packet_octets_fit | done]. Qed.

Lemma encode_octets m : message_ok m -> encode m = Done (wire_octets m).
Proof.
  intros (Hf & _ & Hl). unfold wire_octets in *. pose proof (zlen_nonneg (arguments m)). rewrite zlen_app in Hl.
  assert (HT : forall f args rest, format_consistent f None = true -> Forall arg_ok args ->
    write_loop f None args [] [] = Done (Format.octets (packet_octets (fields m)), []) ->
    two_parts f args rest = Done (packet_octets (fields m) ++ rest)).
  { intros f args rest H1 H2 H3. unfold two_parts. by rewrite (ssh_format_Done f args _ [] H1 H2 H3) by lia. }
  destruct m; cbn [encode arguments]; rewrite ?app_nil_r; cbn [fields] in *;
    (apply HT || (eapply (ssh_format_Done _ _ _ []); [| | |lia])); try done;
    repeat match goal with H : Forall fits (_ :: _) |- _ => apply Forall_cons in H as [? H] end.
  all: try (repeat match goal with H : fits _ |- _ => apply fits_word in H end; by repeat (apply Forall_cons; split; [assumption|])).
  all: cbn -[write_item zlen packet_octets Format.octets field_octets].
  all: repeat (rewrite ?write_c, ?write_i, ?write_z, ?write_S, ?write_a by done; cbn [mbind outcome_bind]).
  all: by unfold packet_octets, Format.octets; cbn [mbind list_bind]; rewrite ?fmap_app, ?app_nil_r, ?app_assoc.
Qed.

(** ** Parsing *)

Lemma takes_end {A} (a : A) : takes_all (_ ← end_of_data; mret a) [] a.
Proof.
  intros b Hb. exists b. unfold end_of_data, parse_eod, mbind, parser_bind, Parse.left. by rewrite (LEFT_pending b [] Hb).
Qed.

Lemma takes_number m : fits (FByte m) -> takes (message_number m) (field_octets (FByte m)) tt.
Proof.
  intros H. unfold message_number. rewrite <- (app_nil_r (field_octets _)). eapply takes_bind; [by apply takes_byte|].
  rewrite Z.eqb_refl. apply takes_ret.
Qed.

(** ** Both ends *)

(** What a parser makes of a packet, and the octets it leaves. *)
Definition reads {A} (p : Parser A) (packet : bytes) (a : A) (args : bytes) : Prop :=
  exists b, p (simple_buffer_init (zlen packet) packet) = (Done a, b) /\ rest b = args.
Definition reads_all {A} (p : Parser A) (packet : bytes) (a : A) : Prop :=
  exists b, p (simple_buffer_init (zlen packet) packet) = (Done a, b).

(** The handler of the peer finds the message in the packet. The type of a
    channel or of a request on one is looked up by the handler, and a packet
    size larger than this implementation uses is cut. *)
Definition heard (m : message) (packet : bytes) : Prop :=
  match m with
  | Disconnect _ _ => exists args, packet = SSH_MSG_DISCONNECT :: args
  | GlobalFailure => packet = [SSH_MSG_REQUEST_FAILURE]
  | GlobalSuccess => packet = [SSH_MSG_REQUEST_SUCCESS]
  | OpenConfirmation channel number window max_packet => reads_all parse_open_confirmation packet (channel, number, window, max_packet)
  | OpenFailure channel reason _ => reads_all parse_open_failure packet (channel, reason)
  | ChannelSuccess channel => reads_all (parse_channel_message SSH_MSG_CHANNEL_SUCCESS) packet channel
  | ChannelFailure channel => reads_all (parse_channel_message SSH_MSG_CHANNEL_FAILURE) packet channel
  | WindowAdjust channel add => reads_all parse_window_adjust packet (channel, add)
  | ChannelClose channel => reads_all (parse_channel_message SSH_MSG_CHANNEL_CLOSE) packet channel
  | ChannelEof channel => reads_all (parse_channel_message SSH_MSG_CHANNEL_EOF) packet channel
  | Data channel data => reads_all parse_data packet (channel, data)
  | ExtendedData channel type data => reads_all parse_extended_data packet (channel, type, data)
  | ChannelOpen type number window max_packet args =>
    reads parse_channel_open packet (get_atom_name type, number, window, Z.min max_packet (SSH_MAX_PACKET - SSH_CHANNEL_MAX_PACKET_FUZZ)) args
    /\ lookup_atom (get_atom_name type) = type
  | ChannelRequest channel type want_reply args =>
    reads parse_channel_request packet (channel, get_atom_name type, want_reply) args /\ lookup_atom (get_atom_name type) = type
  | GlobalRequest type want_reply args => reads parse_global_request packet (type, want_reply) args
  end.

Lemma takes_reads {A} (p : Parser A) m a args : message_ok m -> arguments m = args -> takes p (packet_octets (fields m)) a -> reads p (wire_octets m) a args.
Proof.
  intros HM <- HT. destruct (HT _ _ (pending_init _ (wire_octets_ok m HM) (proj2 (proj2 HM)))) as (b & E & [_ Hb]). by exists b.
Qed.

Lemma takes_reads_all {A} (p : Parser A) m a : message_ok m -> arguments m = [] -> takes_all p (packet_octets (fields m)) a -> reads_all p (wire_octets m) a.
Proof.
  intros HM HA HT. pose proof (pending_init _ (wire_octets_ok m HM) (proj2 (proj2 HM))) as Hb. unfold wire_octets in *. rewrite HA, app_nil_r in *.
  exact (HT _ Hb).
Qed.

#[local] Hint Resolve takes_number : takes.

Lemma heard_octets m : message_ok m -> heard m (wire_octets m).
Proof.
  intros HM. pose proof (proj1 HM) as Hf.
  destruct m; cbn [heard]; cbn [fields] in Hf;
    repeat match goal with H : Forall fits (_ :: _) |- _ => apply Forall_cons in H as [? H] end.
  all: try (apply takes_reads_all; [done | done|]; unfold parse_open_confirmation, parse_open_failure, parse_channel_message, parse_window_adjust, parse_data, parse_extended_data;
    cbn [fields]; repeat (eapply takes_all_field; [by eauto with takes|]; cbn beta); apply takes_end).
  - by eexists.
  - done.
  - done.
  - split; [|by apply atom_string]. apply takes_reads; [done | done|]. unfold parse_channel_open. cbn [fields].
    repeat (eapply takes_field; [by eauto with takes|]; cbn beta). rewrite Z.min_comm. unfold Z.min.
    destruct (Z.ltb_spec (SSH_MAX_PACKET - SSH_CHANNEL_MAX_PACKET_FUZZ) max_packet), (Z.compare_spec (SSH_MAX_PACKET - SSH_CHANNEL_MAX_PACKET_FUZZ) max_packet); try lia; subst; apply takes_ret.
  - split; [|by apply atom_string]. apply takes_reads; [done | done|]. unfold parse_channel_request. cbn [fields].
    repeat (eapply takes_field; [by eauto with takes|]; cbn beta). apply takes_ret.
  - apply takes_reads; [done | done|]. unfold parse_global_request. cbn [fields].
    repeat (eapply takes_field; [by eauto with takes|]; cbn beta). apply takes_ret.
Qed.

(** C18. The two ends of a connection understand each other: every message
    whose parts fit their fields is written without an error, and the parser
    of the handler that receives it finds the same parts in the packet, the
    message number and the end included. *)
Theorem messages_roundtrip m (HM : message_ok m) : exists packet, encode m = Done packet /\ bytes_ok packet /\ heard m packet.
Proof. exists (wire_octets m). split_and!; [by apply encode_octets | by apply wire_octets_ok | by apply heard_octets]. Qed.

Definition sample_message : message := ChannelRequest 7 24 1 [0; 0; 0; 2; 108; 115].

Lemma messages_roundtrip_witness : exists packet, encode sample_message = Done packet /\ bytes_ok packet /\ heard sample_message packet.
Proof.
  apply messages_roundtrip. split_and!; [repeat constructor; vm_compute; try done | by apply (bool_decide_eq_true_1 _); vm_compute | by vm_compute].
Defined.

End Messages.
