(* ===== verification/Flow.v ===== *)
(** Flow control between the two ends of a channel: what the sender wrote is
    what the receiver got and what is still on its way, the window the sender
    believes in never exceeds that of the receiver, and so no data is cut or
    refused, nor does any of the 32-bit windows wrap around. *)
From S2P Require Import Prelude Window Bignum Atoms Format Parse Channel Table Protocol Messages.
Import Bignum Atoms Format Parse Channel Table Protocol Messages.

Module Flow.

(** ** Two connections *)

(** The data written to channel [n] of the peer, and the data the receiver of
    the channel [id] was given. *)
Definition sent (n : Z) (tr : list effect) : bytes :=
  tr ≫= fun x => match x with Wrote (Data k data) => if k =? n then data else [] | _ => [] end.
Definition received (id : Z) (tr : list effect) : bytes :=
  tr ≫= fun x => match x with Receive i t data => if (i =? id) && (t =? CHANNEL_DATA) then data else [] | _ => [] end.

(** The sender, the receiver, the messages of the channel on their way in each
    direction, and the number of octets the receiver has reported as
    consumed. *)
Record link := mkLink { near : conn; far : conn; flight : list message; credits : list message; eaten : Z }.

(** No end of file and no close in either direction. *)
Record quiet (x : ssh_channel) : Prop := {
  no_sent_close : has CHANNEL_SENT_CLOSE x = false;
  no_received_close : has CHANNEL_RECEIVED_CLOSE x = false;
  no_sent_eof : has CHANNEL_SENT_EOF x = false;
  no_received_eof : has CHANNEL_RECEIVED_EOF x = false
}.

Definition total (l : list Z) : Z := foldr Z.add 0 l.

Section TwoEnds.

(** The channel is the object [a] with the number [na] at the sender and the
    object [b] with the number [nb] at the receiver; the receiver began with a
    window of [W] octets. *)
Context (a na b nb W : Z).

(** What happens on the link. Everything that does not concern the channel may
    happen at either end, at any time. *)
Inductive exchange : link -> link -> Prop :=
  | Send l x data near' m :
    objects (near l) !! a = Some x -> zlen data <= send_window_size x -> zlen data <= send_max_packet x -> bytes_ok data ->
    step (Write a (Some data)) (near l) = Done near' -> trace near' = trace (near l) ++ [Wrote m] ->
    exchange l (mkLink near' (far l) (flight l ++ [m]) (credits l) (eaten l))
  | Deliver l m fl packet far' :
    flight l = m :: fl -> encode m = Done packet -> step (Packet packet) (far l) = Done far' ->
    exchange l (mkLink (near l) far' fl (credits l) (eaten l))
  | Consume l n far' m :
    0 <= n -> eaten l + n <= zlen (received b (trace (far l))) ->
    step (Consumed b n) (far l) = Done far' -> trace far' = trace (far l) ++ [Wrote m] ->
    exchange l (mkLink (near l) far' (flight l) (credits l ++ [m]) (eaten l + n))
  | Credit l m cr packet near' :
    credits l = m :: cr -> encode m = Done packet -> step (Packet packet) (near l) = Done near' ->
    exchange l (mkLink near' (far l) (flight l) cr (eaten l))
  | NearElsewhere l ev near' :
    step ev (near l) = Done near' -> objects near' !! a = objects (near l) !! a ->
    lookup_channel na (table near') = lookup_channel na (table (near l)) -> sent nb (trace near') = sent nb (trace (near l)) ->
    exchange l (mkLink near' (far l) (flight l) (credits l) (eaten l))
  | FarElsewhere l ev far' :
    step ev (far l) = Done far' -> objects far' !! b = objects (far l) !! b ->
    lookup_channel nb (table far') = lookup_channel nb (table (far l)) -> received b (trace far') = received b (trace (far l)) ->
    exchange l (mkLink (near l) far' (flight l) (credits l) (eaten l)).

(** ** The invariant *)

Record sender_ok (x : ssh_channel) (c : conn) : Prop := {
  s_object : objects c !! a = Some x;
  s_lookup : lookup_channel na (table c) = Done (Some a);
  s_number : channel_number x = nb;
  s_quiet : quiet x
}.

Record receiver_ok (y : ssh_channel) (c : conn) : Prop := {
  r_object : objects c !! b = Some y;
  r_lookup : lookup_channel nb (table c) = Done (Some b);
  r_number : channel_number y = na;
  r_quiet : quiet y;
  r_receive : receive y = true
}.

(** The channel in use. *)
Definition flows (l : link) : Prop := exists x y ds ns,
  sender_ok x (near l) /\ receiver_ok y (far l)
  /\ flight l = Data nb <$> ds /\ credits l = WindowAdjust na <$> ns
  /\ Forall (fun d => bytes_ok d /\ zlen d <= rec_max_packet y) ds /\ Forall (fun n => 0 <= n) ns
  /\ send_max_packet x <= rec_max_packet y /\ rec_max_packet y < 2 ^ 31
  /\ sent nb (trace (near l)) = received b (trace (far l)) ++ mjoin ds
  /\ send_window_size x + total ns + zlen (mjoin ds) = rec_window_size y
  /\ rec_window_size y + zlen (received b (trace (far l))) = W + eaten l
  /\ 0 <= send_window_size x /\ 0 <= eaten l <= zlen (received b (trace (far l))) /\ W < 2 ^ 32
  /\ 0 <= na < 2 ^ 32 /\ 0 <= nb < 2 ^ 32.

(** ** The steps *)

Lemma sent_app n t1 t2 : sent n (t1 ++ t2) = sent n t1 ++ sent n t2.
Proof. apply bind_app. Qed.
Lemma received_app id t1 t2 : received id (t1 ++ t2) = received id t1 ++ received id t2.
Proof. apply bind_app. Qed.
Lemma total_app l1 l2 : total (l1 ++ l2) = total l1 + total l2.
Proof. unfold total. induction l1 as [|n l1 IH]; [done|]. cbn [app foldr]. lia. Qed.

Lemma send_step x c data : sender_ok x c -> zlen data <= send_window_size x -> zlen data <= send_max_packet x -> send_window_size x < 2 ^ 32 ->
  exists c', step (Write a (Some data)) c = Done c' /\ trace c' = trace c ++ [Wrote (Data nb data)] /\
  sender_ok (x <| send_window_size := send_window_size x - zlen data |>) c'.
Proof.
  intros [Ho Hl Hn [? ? ? ?]] H1 H2 H3. eexists. pose proof (zlen_nonneg data). split; [|split].
  - cbn [step]. unfold do_channel_write, channel_transmit_data. rewrite (object_Done _ _ _ Ho). cbn [mbind outcome_bind].
    rewrite (transmit_Done _ _ H1 H2), u32_small by lia. cbn [mbind outcome_bind]. reflexivity.
  - cbn. by rewrite Hn.
  - split; [apply put_objects | done | done | by split].
Qed.

Lemma consume_step y c n : receiver_ok y c -> 0 <= rec_window_size y + n < 2 ^ 32 ->
  exists c', step (Consumed b n) c = Done c' /\ trace c' = trace c ++ [Wrote (WindowAdjust na n)] /\
  receiver_ok (y <| rec_window_size := rec_window_size y + n |>) c'.
Proof.
  intros [Ho Hl Hn [? ? ? ?] ?] H. eexists. split; [|split].
  - cbn [step]. unfold adjust_rec_window. rewrite (object_Done _ _ _ Ho). cbn [mbind outcome_bind].
    rewrite !has_lor, no_received_eof0, no_received_close0, no_sent_close0. cbn [orb]. unfold prepare_window_adjust.
    rewrite (object_Done _ _ _ Ho). cbn [mbind outcome_bind]. unfold grant. rewrite u32_small by lia. reflexivity.
  - cbn. by rewrite Hn.
  - split; [apply put_objects | done | done | by split | done].
Qed.

(** A packet that carries a message is what the peer hears. *)
Lemma encoded m packet : message_ok m -> encode m = Done packet -> packet = wire_octets m.
Proof. intros HM. rewrite (encode_octets m HM). by intros [= <-]. Qed.

Lemma dispatch_data n data c : message_ok (Data n data) ->
  dispatch (wire_octets (Data n data)) c = deliver n data (fun id data => note (Receive id CHANNEL_DATA data)) c.
Proof.
  intros HM. pose proof (heard_octets _ HM) as (b' & E). change (dispatch ?p c) with (channel_data_handler p c). unfold channel_data_handler, parsing. by rewrite E.
Qed.

Lemma data_ok data : 0 <= nb < 2 ^ 32 -> bytes_ok data -> zlen data < 2 ^ 31 -> message_ok (Data nb data).
Proof.
  intros ? ? ?. split; [repeat (apply Forall_cons; split; [(done || by split)|]); done|]. split; [constructor|]. unfold wire_octets, packet_octets. cbn [fields mbind list_bind arguments].
  rewrite !app_nil_r, !zlen_app. cbn [field_octets]. unfold counted. rewrite zlen_app, !zlen_WRITE_UINT32. change (zlen [_]) with 1. lia.
Qed.

Lemma deliver_step y c data packet : receiver_ok y c -> 0 <= nb < 2 ^ 32 -> bytes_ok data -> rec_max_packet y < 2 ^ 31 ->
  zlen data <= rec_max_packet y -> zlen data <= rec_window_size y < 2 ^ 32 -> encode (Data nb data) = Done packet ->
  exists c', step (Packet packet) c = Done c' /\ received b (trace c') = received b (trace c) ++ data /\
  receiver_ok (y <| rec_window_size := rec_window_size y - zlen data |>) c'.
Proof.
  intros [Ho Hl Hn [? ? ? ?] Hr] Hnb Hb H1 H2 H3 E. assert (HM : message_ok (Data nb data)) by (apply data_ok; [done | done | lia]).
  rewrite (encoded _ _ HM E). cbn [step]. rewrite dispatch_data by done. unfold deliver. rewrite Hl. cbn [mbind outcome_bind].
  rewrite (object_Done _ _ _ Ho). cbn [mbind outcome_bind]. rewrite Hr, has_lor, no_received_eof0, no_received_close0, no_sent_close0. cbn [orb negb andb].
  unfold accept_data. pose proof (zlen_nonneg data).
  rewrite (proj2 (Z.ltb_ge (rec_max_packet y) _)), (proj2 (Z.ltb_ge (rec_window_size y) _)), u32_small by lia.
  destruct data as [|d data]; eexists; (split; [reflexivity|]); split.
  - by rewrite app_nil_r.
  - change (zlen []) with 0. rewrite Z.sub_0_r. split; [|done|done|by split|done]. rewrite Ho. by destruct y.
  - cbn -[received]. rewrite received_app. f_equal. cbn. rewrite Z.eqb_refl. by rewrite app_nil_r.
  - split; [apply put_objects | done | done | by split | done].
Qed.

Lemma adjust_ok n : 0 <= na < 2 ^ 32 -> 0 <= n < 2 ^ 32 -> message_ok (WindowAdjust na n).
Proof.
  intros ? ?. split; [repeat (apply Forall_cons; split; [done|]); done|]. split; [constructor | done].
Qed.

Lemma credit_step x c n packet : sender_ok x c -> 0 <= na < 2 ^ 32 -> 0 <= n -> 0 <= send_window_size x -> send_window_size x + n < 2 ^ 32 ->
  encode (WindowAdjust na n) = Done packet ->
  exists c', step (Packet packet) c = Done c' /\ sent nb (trace c') = sent nb (trace c) /\
  sender_ok (x <| send_window_size := send_window_size x + n |>) c'.
Proof.
  intros [Ho Hl Hn [? ? ? ?]] Hna Hn0 H1 H2 E. assert (HM : message_ok (WindowAdjust na n)) by (apply adjust_ok; [done | lia]).
  rewrite (encoded _ _ HM E). cbn [step]. change (dispatch ?p c) with (window_adjust_handler p c). unfold window_adjust_handler, parsing.
  pose proof (heard_octets _ HM) as (b' & ->). rewrite Hl. cbn [mbind outcome_bind]. rewrite (object_Done _ _ _ Ho). cbn [mbind outcome_bind].
  rewrite no_received_close0, has_lor, no_sent_close0, no_sent_eof0. cbn [orb]. unfold widen. rewrite u32_small by lia.
  eexists. split; [reflexivity|]. case_match.
  - split; [cbn -[sent]; rewrite sent_app; apply app_nil_r | split; [apply put_objects | done | done | by split]].
  - split; [done | split; [apply put_objects | done | done | by split]].
Qed.

(** ** The invariant is kept *)

Lemma total_nonneg ns : Forall (fun n => 0 <= n) ns -> 0 <= total ns.
Proof. unfold total. induction 1; cbn [foldr]; lia. Qed.

Lemma fmap_cons_inv {A B} (f : A -> B) l y t : f <$> l = y :: t -> exists x k, l = x :: k /\ y = f x /\ t = f <$> k.
Proof. destruct l as [|x k]; [done|]. intros [= <- <-]. by exists x, k. Qed.

Lemma flows_exchange l l' : flows l -> exchange l l' -> flows l'.
Proof.
  intros (x & y & ds & ns & HS & HR & Hfl & Hcr & Hds & Hns & Hmax & Hrec & Hsent & Hwin & HW & Hsw & Heat & HWb & Hna & Hnb) HX.
  pose proof (total_nonneg _ Hns) as P1. pose proof (zlen_nonneg (mjoin ds)) as P2. pose proof (zlen_nonneg (received b (trace (far l)))) as P3.
  destruct HX as [l x' data near' m Hx H1 H2 Hb E T|l m fl packet far' F EM E|l n far' m Hn He E T|l m cr packet near' F EM E|l ev near' E O L T|l ev far' E O L T].
  - rewrite (s_object _ _ HS) in Hx. injection Hx as <-.
    destruct (send_step _ _ _ HS H1 H2 ltac:(lia)) as (c' & E' & T' & HS'). rewrite E in E'. injection E' as <-.
    rewrite T' in T. apply app_inv_head in T as [= <-]. eexists _, y, (ds ++ [data]), ns. pose proof (zlen_nonneg data).
    split_and!; [exact HS' | exact HR | .. ]; cbn [flight credits near far eaten set_send_window_size send_window_size send_max_packet]; try done; try (cbn; lia).
    + by rewrite Hfl, fmap_app.
    + apply Forall_app. split; [done|]. constructor; [|done]. split; [done | lia].
    + rewrite T', sent_app, Hsent, join_app. cbn. by rewrite Z.eqb_refl, <- app_assoc.
    + rewrite join_app, zlen_app. cbn. rewrite app_nil_r. lia.
  - rewrite Hfl in F. apply fmap_cons_inv in F as (data & ds' & -> & -> & ->). apply Forall_cons in Hds as [[Hb Hd] Hds].
    change (mjoin (data :: ds')) with (data ++ mjoin ds') in Hwin, Hsent, P2. rewrite zlen_app in Hwin, P2. pose proof (zlen_nonneg data). pose proof (zlen_nonneg (mjoin ds')).
assert (HD : zlen data <= rec_window_size y < 2 ^ 32) by (split; lia).     destruct (deliver_step y _ data packet HR Hnb Hb Hrec Hd HD EM) as (c' & E' & T' & HR'). rewrite E in E'. injection E' as <-.
    eexists x, _, ds', ns. split_and!; [exact HS | exact HR' | ..]; cbn [flight credits near far eaten set_rec_window_size rec_window_size rec_max_packet]; try done; rewrite ?T'; try (cbn; lia).
    + by rewrite Hsent, app_assoc.
    + rewrite zlen_app. cbn. lia.
    + rewrite zlen_app. lia.
  - destruct (consume_step _ _ n HR ltac:(lia)) as (c' & E' & T' & HR'). rewrite E in E'. injection E' as <-.
    rewrite T' in T. apply app_inv_head in T as [= <-]. assert (ER : received b (trace far') = received b (trace (far l))) by (rewrite T', received_app; apply app_nil_r).
    eexists x, _, ds, (ns ++ [n]). split_and!; [exact HS | exact HR' | ..]; cbn [flight credits near far eaten set_rec_window_size rec_window_size rec_max_packet]; try done; rewrite ?ER; try done; try (cbn; lia).
    + by rewrite Hcr, fmap_app.
    + apply Forall_app. auto.
    + rewrite total_app. cbn. lia.
  - rewrite Hcr in F. apply fmap_cons_inv in F as (n & ns' & -> & -> & ->). apply Forall_cons in Hns as [Hn Hns].
    pose proof (total_nonneg _ Hns). change (total (n :: ns')) with (n + total ns') in *.
    destruct (credit_step _ _ n packet HS Hna Hn Hsw ltac:(lia) EM) as (c' & E' & T' & HS'). rewrite E in E'. injection E' as <-.
    eexists _, y, ds, ns'. split_and!; [exact HS' | exact HR | ..]; cbn [flight credits near far eaten set_send_window_size send_window_size send_max_packet]; try done; rewrite ?T'; try done; try (cbn; lia).
  - exists x, y, ds, ns. destruct HS. split_and!; cbn [near far flight credits eaten]; rewrite ?T; try done; try lia. split; congruence.
  - exists x, y, ds, ns. destruct HR. split_and!; try done; cbn [near far flight credits eaten]; rewrite ?T; try done; try lia. split; congruence.
Qed.

(** Both ends after the channel was opened. *)
Definition starts (l : link) : Prop := exists x y,
  sender_ok x (near l) /\ receiver_ok y (far l) /\ flight l = [] /\ credits l = [] /\ eaten l = 0
  /\ sent nb (trace (near l)) = [] /\ received b (trace (far l)) = []
  /\ send_window_size x = W /\ rec_window_size y = W /\ 0 <= W < 2 ^ 32
  /\ send_max_packet x <= rec_max_packet y /\ rec_max_packet y < 2 ^ 31 /\ 0 <= na < 2 ^ 32 /\ 0 <= nb < 2 ^ 32.

Lemma starts_flows l : starts l -> flows l.
Proof.
  intros (x & y & HS & HR & Hfl & Hcr & He & H1 & H2 & H3 & H4 & HW & Hm & Hr & Hna & Hnb). exists x, y, [], [].
  rewrite Hfl, Hcr, He, H1, H2. split_and!; try done; try lia; unfold total, zlen; cbn; lia.
Qed.

Lemma flows_reachable l l' : starts l -> rtc exchange l l' -> flows l'.
Proof. intros HS HX. apply starts_flows in HS. induction HX; eauto using flows_exchange. Qed.

End TwoEnds.

(** C4. Flow control is lossless and exact. Whatever the order in which the
    data of a channel, the reports that it was consumed and everything else on
    the two connections happen: what the sender wrote is what the receiver got
    followed by what is on its way; the windows add up to the one the receiver
    began with; and the next message of data is taken as it is, uncut, while
    the next credit widens the window of the sender by just its amount. *)
Theorem flow_control_lossless a na b nb W l l' (HS : starts a na b nb W l) (HX : rtc (exchange a na b nb) l l') :
  exists x y ds ns,
    objects (near l') !! a = Some x /\ objects (far l') !! b = Some y
    /\ flight l' = Data nb <$> ds /\ credits l' = WindowAdjust na <$> ns
    /\ sent nb (trace (near l')) = received b (trace (far l')) ++ mjoin ds
    /\ send_window_size x + total ns + zlen (mjoin ds) + (zlen (received b (trace (far l'))) - eaten l') = W
    /\ 0 <= send_window_size x <= rec_window_size y /\ rec_window_size y <= W
    /\ (forall d ds', ds = d :: ds' -> exists packet far', encode (Data nb d) = Done packet /\ step (Packet packet) (far l') = Done far'
        /\ received b (trace far') = received b (trace (far l')) ++ d)
    /\ (forall n ns', ns = n :: ns' -> exists packet near' x', encode (WindowAdjust na n) = Done packet /\ step (Packet packet) (near l') = Done near'
        /\ objects near' !! a = Some x' /\ send_window_size x' = send_window_size x + n).
Proof.
  destruct (flows_reachable _ _ _ _ _ _ _ HS HX) as (x & y & ds & ns & H1 & H2 & Hfl & Hcr & Hds & Hns & Hmax & Hrec & Hsent & Hwin & HW & Hsw & Heat & HWb & Hna & Hnb).
  pose proof (total_nonneg _ Hns) as P1. pose proof (zlen_nonneg (mjoin ds)) as P2.
  exists x, y, ds, ns. split_and!; try (done || apply H1 || apply H2 || lia).
  - intros d ds' ->. apply Forall_cons in Hds as [[Hb Hd] _]. change (mjoin (d :: ds')) with (d ++ mjoin ds') in *. rewrite zlen_app in *.
    pose proof (zlen_nonneg d). pose proof (zlen_nonneg (mjoin ds')).
    destruct (deliver_step _ _ _ y _ d _ H2 Hnb Hb Hrec Hd ltac:(lia) (encode_octets _ (data_ok _ _ Hnb Hb ltac:(lia)))) as (c' & E & T & _).
    eexists _, c'. split; [by apply encode_octets, data_ok; [| |lia]|]. done.
  - intros n ns' ->. apply Forall_cons in Hns as [Hn Hns]. pose proof (total_nonneg _ Hns). change (total (n :: ns')) with (n + total ns') in *.
    assert (HM : message_ok (WindowAdjust na n)) by (apply adjust_ok; [done | lia]).
    destruct (credit_step _ _ _ x _ n _ H1 Hna Hn Hsw ltac:(lia) (encode_octets _ HM)) as (c' & E & T & HS').
    eexists _, c', _. split; [by apply encode_octets|]. split; [exact E|]. split; [apply HS' | done].
Qed.

(** ** Two ends, opened *)

Definition after (evs : list event) (c : conn) : conn := match run evs c with Done c => c | _ => c end.

(** The client asks for a session, the peer makes a channel that takes a
    thousand octets, in packets of at most five hundred. *)
Definition near0 : conn := Eval vm_compute in
  after [session_open; Packet (Protocol.octets (OpenConfirmation 0 0 1000 500))] init_connection_service.
Definition far0 : conn := Eval vm_compute in
  after [Packet (Protocol.octets (ChannelOpen (lookup_atom (bytes_of_string "session")) 0 10000 32668 [])); Opened 0 0 10000 32668 (make_channel_forward 1000); StartForward 0]
     (install_channel_open_handler (lookup_atom (bytes_of_string "session")) init_connection_service).
Definition link0 : link := Eval vm_compute in
  mkLink near0 far0 [] [] 0.

Definition text : bytes := bytes_of_string "ls src".

(** Six octets are written, delivered and consumed, and the credit returns. *)
Definition link1 : link := Eval vm_compute in
  mkLink (after [Write 0 (Some text)] near0) far0 [Data 0 text] [] 0.
Definition link2 : link := Eval vm_compute in
  mkLink (near link1) (after [Packet (Protocol.octets (Data 0 text))] far0) [] [] 0.
Definition link3 : link := Eval vm_compute in
  mkLink (near link2) (after [Consumed 0 6] (far link2)) [] [WindowAdjust 0 6] 6.
Definition link4 : link := Eval vm_compute in
  mkLink (after [Packet (Protocol.octets (WindowAdjust 0 6))] (near link3)) (far link3) [] [] 6.

Lemma links : rtc (exchange 0 0 0 0) link0 link4.
Proof.
  apply rtc_l with link1.
  { eapply (Send 0 0 0 0 link0 _ text (near link1) (Data 0 text)); vm_compute; try reflexivity; try done. by repeat constructor. }
  apply rtc_l with link2.
  { by eapply (Deliver 0 0 0 0 link1 (Data 0 text) [] (Protocol.octets (Data 0 text)) (far link2)); vm_compute. }
  apply rtc_l with link3.
  { by eapply (Consume 0 0 0 0 link2 6 (far link3) (WindowAdjust 0 6)); vm_compute. }
  apply rtc_once. by eapply (Credit 0 0 0 0 link3 (WindowAdjust 0 6) [] (Protocol.octets (WindowAdjust 0 6)) (near link4)); vm_compute.
Qed.

Lemma link0_starts : starts 0 0 0 0 1000 link0.
Proof.
  eexists _, _. split; [split; [vm_compute; reflexivity | by vm_compute | done | by split]|].
  split; [split; [vm_compute; reflexivity | by vm_compute | done | by split | done]|]. split_and!; by vm_compute.
Qed.

Lemma flow_control_lossless_witness :
  rtc (exchange 0 0 0 0) link0 link4 /\
  exists x y ds ns,
    objects (near link4) !! 0 = Some x /\ objects (far link4) !! 0 = Some y
    /\ flight link4 = Data 0 <$> ds /\ credits link4 = WindowAdjust 0 <$> ns
    /\ sent 0 (trace (near link4)) = received 0 (trace (far link4)) ++ mjoin ds
    /\ send_window_size x + total ns + zlen (mjoin ds) + (zlen (received 0 (trace (far link4))) - eaten link4) = 1000
    /\ 0 <= send_window_size x <= rec_window_size y /\ rec_window_size y <= 1000
    /\ (forall d ds', ds = d :: ds' -> exists packet far', encode (Data 0 d) = Done packet /\ step (Packet packet) (far link4) = Done far'
        /\ received 0 (trace far') = received 0 (trace (far link4)) ++ d)
    /\ (forall n ns', ns = n :: ns' -> exists packet near' x', encode (WindowAdjust 0 n) = Done packet /\ step (Packet packet) (near link4) = Done near'
        /\ objects near' !! 0 = Some x' /\ send_window_size x' = send_window_size x + n).
Proof. split; [exact links | exact (flow_control_lossless 0 0 0 0 1000 link0 link4 link0_starts links)]. Defined.

End Flow.
