(* ===== verification/Requests.v ===== *)
(** Requests on a channel and their replies. Whatever else happens on the
    connection, the peer gets the replies to the requests of known types in the
    order of its requests. A request of an unknown type is refused at once,
    before the earlier ones are answered; and a table with no channel number
    left is a condition the callers of [alloc_channel] do not survive. *)
From S2P Require Import Prelude Window Bignum Atoms Format Parse Channel Table Protocol Messages.
Import Bignum Atoms Format Parse Channel Table Protocol Messages.

Module Requests.

(** ** The history of a channel *)

(** The requests of the channel [id] that wait for a reply, as they came, and
    the replies that were written to the channel [ch] of the peer. *)
Definition asked (id : Z) (tr : list effect) : list Z :=
  tr ≫= fun x => match x with HandleRequest i _ (Some n) _ => if i =? id then [n] else [] | _ => [] end.
Definition answers (ch : Z) (tr : list effect) : list message :=
  tr ≫= fun x =>
    match x with Wrote (ChannelSuccess k) => if k =? ch then [ChannelSuccess k] else [] | Wrote (ChannelFailure k) => if k =? ch then [ChannelFailure k] else [] | _ => [] end.

Lemma asked_app id t1 t2 : asked id (t1 ++ t2) = asked id t1 ++ asked id t2.
Proof. apply bind_app. Qed.
Lemma answers_app ch t1 t2 : answers ch (t1 ++ t2) = answers ch t1 ++ answers ch t2.
Proof. apply bind_app. Qed.

Lemma trace_write_all ms c : trace (write_all ms c) = trace c ++ (Wrote <$> ms).
Proof.
  revert c. induction ms as [|m ms IH]; intros c; [by rewrite app_nil_r|]. change (write_all (m :: ms) c) with (write_all ms (C_WRITE m c)).
  rewrite IH. cbn. by rewrite <- app_assoc.
Qed.

Lemma objects_write_all ms c : objects (write_all ms c) = objects c.
Proof. revert c. induction ms as [|m ms IH]; intros c; [done|]. apply (IH (C_WRITE m c)). Qed.
Lemma statuses_write_all ms c : statuses (write_all ms c) = statuses c.
Proof. revert c. induction ms as [|m ms IH]; intros c; [done|]. apply (IH (C_WRITE m c)). Qed.
Lemma fresh_write_all ms c : fresh (write_all ms c) = fresh c.
Proof. revert c. induction ms as [|m ms IH]; intros c; [done|]. apply (IH (C_WRITE m c)). Qed.
Lemma table_write_all ms c : table (write_all ms c) = table c.
Proof. revert c. induction ms as [|m ms IH]; intros c; [done|]. apply (IH (C_WRITE m c)). Qed.

Lemma answers_replies ch l : answers ch (Wrote <$> (channel_reply ch <$> l)) = channel_reply ch <$> l.
Proof.
  induction l as [|s l IH]; [done|]. change (answers ch ([Wrote (channel_reply ch s)] ++ (Wrote <$> (channel_reply ch <$> l))) = [channel_reply ch s] ++ (channel_reply ch <$> l)).
  rewrite answers_app, IH. f_equal. unfold channel_reply. destruct (s =? 0); cbn; by rewrite Z.eqb_refl.
Qed.

Lemma asked_replies id ch l : asked id (Wrote <$> (channel_reply ch <$> l)) = [].
Proof. induction l as [|s l IH]; [done | exact IH]. Qed.

(** The status of a request in a store of statuses. *)
Definition status_in (st : gmap Z Z) (n : Z) : Z := default (-1) (st !! n).

(** What [decided] finds: the requests at the head with a status, and the rest,
    which begins with one that is still active. *)
Lemma decided_spec st q : exists p r, decided st q = (status_in st <$> p, r) /\ q = p ++ r
  /\ Forall (fun n => 0 <= status_in st n) p /\ (forall n r', r = n :: r' -> status_in st n < 0).
Proof.
  induction q as [|n q (p & r & E & Hq & Hp & Hr)]; [exists [], []; by split_and!|]. cbn [decided]. fold (status_in st n).
  destruct (Z.ltb_spec (status_in st n) 0).
  - exists [], (n :: q). split_and!; try done. by intros ? ? [= -> _].
  - rewrite E. exists (n :: p), r. split_and!; [done | by rewrite Hq | by constructor | done].
Qed.

Lemma status_put n s c m : status m (set_status n s c) = if decide (m = n) then s else status m c.
Proof. unfold status, set_status. cbn. destruct (decide (m = n)) as [->|]; [by rewrite lookup_insert_eq | by rewrite lookup_insert_ne]. Qed.

(** ** What leaves a channel alone *)

Section Alone.

(** The channel object and its number at the peer. *)
Context (id ch : Z).

(** The object has no reserved number: its opening is over. *)
Definition unreserved (t : channel_table) : Prop :=
  forall k : nat, in_use t !! k = Some CHANNEL_RESERVED -> channels t !! k <> Some (Some id).

(** A channel of the store that is open. *)
Definition opened (c : conn) : Prop := id < fresh c /\ unreserved (table c).

(** From [c] to [c'] the channel [id] keeps its number and its queue, no request
    was made on it or decided, and no reply went to the channel [ch]. *)
Definition apart (c c' : conn) : Prop := opened c ->
  opened c'
  /\ (forall x, objects c !! id = Some x -> exists x', objects c' !! id = Some x' /\ channel_number x' = channel_number x /\ active_requests x' = active_requests x)
  /\ fresh c <= fresh c' /\ (forall n, n < fresh c -> n ∈ asked id (trace c) -> statuses c' !! n = statuses c !! n)
  /\ asked id (trace c') = asked id (trace c) /\ answers ch (trace c') = answers ch (trace c).

Lemma apart_refl c : apart c c.
Proof. intros H. split_and!; eauto. done. Qed.

Lemma apart_trans c1 c2 c3 : apart c1 c2 -> apart c2 c3 -> apart c1 c3.
Proof.
  intros H1 H2 H. destruct (H1 H) as (H' & O1 & F1 & S1 & A1 & W1). destruct (H2 H') as (H'' & O2 & F2 & S2 & A2 & W2). split_and!; try congruence.
  - intros x Hx. destruct (O1 x Hx) as (y & Hy & E1 & E2). destruct (O2 y Hy) as (z & Hz & E3 & E4). exists z. split_and!; congruence.
  - lia.
  - intros n Hn Ha. rewrite S2; [by apply S1 | lia | by rewrite A1].
Qed.

(** Effects that are no request on [id] and no reply to [ch]. *)
Definition harmless (x : effect) : Prop := asked id [x] = [] /\ answers ch [x] = [].

Lemma apart_note c x : harmless x -> apart c (note x c).
Proof.
  intros [E1 E2] H. split_and!; try done; [eauto | |]; cbn -[asked answers]; [rewrite asked_app, E1 | rewrite answers_app, E2]; apply app_nil_r.
Qed.

Lemma apart_put c i x x' : objects c !! i = Some x -> channel_number x' = channel_number x -> active_requests x' = active_requests x -> apart c (put_object i x' c).
Proof.
  intros Hi E1 E2 H. split_and!; try done. intros y Hy. cbn. destruct (decide (i = id)) as [->|Hn].
  - rewrite lookup_insert_eq. simplify_eq. eauto.
  - rewrite lookup_insert_ne by done. eauto.
Qed.

Lemma apart_put_other c i x' : i <> id -> apart c (put_object i x' c).
Proof. intros Hn H. split_and!; try done. intros y Hy. cbn. rewrite lookup_insert_ne by done. eauto. Qed.

Lemma apart_table c t : (unreserved (table c) -> unreserved t) -> apart c (c <| table := t |>).
Proof. intros Ht [H1 H2]. split_and!; try done; [split; auto | eauto]. Qed.

Lemma apart_pending c q : apart c (set_pending_global q c).
Proof. by apply (apart_table c (table (set_pending_global q c))). Qed.

Lemma apart_fresh c : apart c (new_object c).2.
Proof. intros [H1 H2]. split_and!; try done; [split; cbn; [lia | done] | eauto | cbn; lia]. Qed.

Lemma apart_status c n s : n ∉ asked id (trace c) \/ fresh c <= n -> apart c (set_status n s c).
Proof.
  intros Hn H. split_and!; try done; [eauto|]. intros m Hm Ha. cbn. rewrite lookup_insert_ne; [done|]. intros ->. destruct Hn; [done | lia].
Qed.

Lemma apart_request c : apart c (make_request_status c).2.
Proof.
  eapply apart_trans; [apply (apart_status c (fresh c) (-1)); right; lia | apply (apart_fresh (set_status (fresh c) (-1) c))].
Qed.

(** A computation that leaves the channel alone when it completes. *)
Definition leaves (c : conn) (m : outcome conn) : Prop := forall c', m = Done c' -> apart c c'.

Lemma leaves_ret c c' : apart c c' -> leaves c (Done c').
Proof. by intros H ? [= <-]. Qed.
Lemma leaves_crash c x : leaves c (Crash x).
Proof. by intros ? [=]. Qed.
Lemma leaves_done c : leaves c (Done c).
Proof. apply leaves_ret, apart_refl. Qed.
Lemma leaves_after c c1 m : apart c c1 -> leaves c1 m -> leaves c m.
Proof. intros H1 H2 c' E. eapply apart_trans; [exact H1 | by apply H2]. Qed.
Lemma leaves_bind c m k : leaves c m -> (forall c1, m = Done c1 -> leaves c1 (k c1)) -> leaves c (m ≫= k).
Proof. intros Hm Hk c' (c1 & E1 & E2)%outcome_bind_Done. eapply apart_trans; [by apply Hm | by apply (Hk c1)]. Qed.
Lemma leaves_let {A} c (m : outcome A) k : (forall a, m = Done a -> leaves c (k a)) -> leaves c (m ≫= k).
Proof. intros Hk c' (a & E1 & E2)%outcome_bind_Done. by apply (Hk a). Qed.
Lemma leaves_object c i k : (forall x, objects c !! i = Some x -> leaves c (k x)) -> leaves c (object i c ≫= k).
Proof. intros Hk. apply leaves_let. intros x E. apply Hk. revert E. unfold object. destruct (objects c !! i); [by intros [= ->] | done]. Qed.
Lemma leaves_parsing {A} (p : Parser A) packet bad (k : A -> bytes -> conn -> outcome conn) c : (forall a b, p (simple_buffer_init (zlen packet) packet) = (Done a, b) -> leaves c (k a (rest b) c)) -> leaves c (parsing p packet bad k c).
Proof.
  intros Hk. unfold parsing. destruct (p _) as [[a| |] b] eqn:E; [by eapply Hk | | apply leaves_crash].
  apply leaves_ret. eapply apart_trans; by apply apart_note.
Qed.

(** *** The table *)

Lemma put_entry_spec {A} n i (v : A) l l' (k : nat) : put_entry n i v l = Done l' -> 0 <= i /\ l' !! k = if decide (k = Z.to_nat i) then Some v else l !! k.
Proof.
  unfold put_entry. destruct (_ && _) eqn:E1; [|destruct ((i =? zlen l) && _) eqn:E2]; intros [= <-].
  - apply andb_true_iff in E1 as [H1 H2]. unfold zlen in *. split; [lia|]. case_decide as Hk; [subst; apply list_lookup_insert_eq; lia | by apply list_lookup_insert_ne].
  - apply andb_true_iff in E2 as [->%Z.eqb_eq H2]. clear E1. unfold zlen in *. split; [lia|]. case_decide as Hk.
    + subst. rewrite lookup_app_r by lia. rewrite Nat2Z.id, Nat.sub_diag. done.
    + destruct (decide (k < length l)%nat); [by apply lookup_app_l|]. rewrite !lookup_ge_None_2; [done | lia | rewrite length_app; simpl; lia].
Qed.

Lemma put_in_use_unreserved i v t t' : v <> CHANNEL_RESERVED \/ channels t !! Z.to_nat i <> Some (Some id) -> put_in_use i v t = Done t' -> unreserved t -> unreserved t'.
Proof.
  intros Hv (l & E & [= <-])%outcome_bind_Done HU k. cbn. rewrite (proj2 (put_entry_spec _ _ _ _ _ k E)). case_decide as Hk; [|apply HU].
  subst k. intros [= ->]. by destruct Hv.
Qed.

Lemma put_channel_unreserved i v t t' : v <> Some id -> put_channel i v t = Done t' -> unreserved t -> unreserved t'.
Proof.
  intros Hv (l & E & [= <-])%outcome_bind_Done HU k. cbn. rewrite (proj2 (put_entry_spec _ _ _ _ _ k E)). case_decide as Hk; [congruence | apply HU].
Qed.

Lemma free_from_empty n i t j : free_from n i t = Done (Some j) -> channels t !! Z.to_nat j = Some None.
Proof.
  revert i. induction n as [|n IH]; intros i; [done|]. cbn [free_from]. intros (u & _ & E)%outcome_bind_Done. destruct (u =? _); [|by eapply IH].
  apply outcome_bind_Done in E as (x & E & (y & Ex & [= <-])%outcome_bind_Done). revert E. unfold entry.
  destruct (0 <=? i); [|done]. destruct (channels t !! _) as [o|]; [intros [= ->] | done]. revert Ex. unfold assert_that. case_bool_decide; [by subst | done].
Qed.

Lemma alloc_channel_unreserved t i t' : alloc_channel t = Done (i, t') -> unreserved t -> unreserved t'.
Proof.
  unfold alloc_channel. intros (r & Er & E)%outcome_bind_Done HU. destruct r as [j|].
  - apply outcome_bind_Done in E as (t1 & E & [= <- <-]). apply free_from_empty in Er.
    change (unreserved t1). eapply (put_in_use_unreserved j); [right; by rewrite Er | exact E | done].
  - cbv zeta in E. destruct (_ =? max_channels t); [by injection E as <- <-|].
    apply outcome_bind_Done in E as (t1 & E1 & (t2 & E2 & [= <- <-])%outcome_bind_Done).
    apply outcome_bind_Done in E1 as (l1 & E1 & [= <-]). apply outcome_bind_Done in E2 as (l2 & E2 & [= <-]).
    intros k. cbn. rewrite (proj2 (put_entry_spec _ _ _ _ _ k E2)). case_decide as Hk; [done|].
    rewrite (proj2 (put_entry_spec _ _ _ _ _ k E1)), decide_False by done. destruct (_ =? allocated_channels t); apply HU.
Qed.

Lemma dealloc_channel_unreserved i t t' : dealloc_channel i t = Done t' -> unreserved t -> unreserved t'.
Proof.
  unfold dealloc_channel. intros (_ & _ & (_ & _ & (_ & _ & (t1 & E1 & (t2 & E2 & [= <-])%outcome_bind_Done)%outcome_bind_Done)%outcome_bind_Done)%outcome_bind_Done)%outcome_bind_Done HU.
  assert (H2 : unreserved t2) by (apply (put_in_use_unreserved i CHANNEL_FREE t1); [by left | exact E2 | by apply (put_channel_unreserved i None t)]).
  destruct (i <? _); exact H2.
Qed.

Lemma use_channel_unreserved i t t' : use_channel i t = Done t' -> unreserved t -> unreserved t'.
Proof.
  unfold use_channel. intros (? & _ & (_ & _ & (? & _ & (_ & _ & E)%outcome_bind_Done)%outcome_bind_Done)%outcome_bind_Done)%outcome_bind_Done.
  apply put_in_use_unreserved with i CHANNEL_IN_USE; [by left | exact E].
Qed.

Lemma leaves_on_table c f : (forall t', f (table c) = Done t' -> unreserved (table c) -> unreserved t') -> leaves c (on_table f c).
Proof. intros Hf. apply leaves_let. intros t E. apply leaves_ret, apart_table. by apply Hf. Qed.

(** *** The operations *)

Lemma leaves_note c x : harmless x -> leaves c (Done (note x c)).
Proof. intros H. by apply leaves_ret, apart_note. Qed.

(** A new channel gets an object of its own. *)
Lemma register_leaves c local i x u : i <> id -> leaves c (register_channel local i x u c).
Proof.
  intros Hi. unfold register_channel. do 4 (apply leaves_let; intros ? _).
  eapply leaves_after; [by apply (apart_put_other c i)|]. apply leaves_let. intros t Et. apply leaves_let. intros t' Et'.
  apply leaves_ret, apart_table. intros HU. assert (Ht : unreserved t) by (eapply put_channel_unreserved; [|exact Et | exact HU]; congruence).
  destruct u; [by eapply use_channel_unreserved | by injection Et' as <-].
Qed.

Lemma raise_pending_leaves c h : leaves c (raise_pending h c).
Proof. destruct h; try apply leaves_crash; try by apply leaves_note. by apply leaves_on_table; intros t [= <-]. Qed.

Lemma finish_leaves c number : leaves c (finish_channel number c).
Proof.
  unfold finish_channel. apply leaves_let. intros [i|] _; [|apply leaves_crash]. apply leaves_object. intros x Hx. apply leaves_let. intros _ _.
  apply leaves_bind.
  - destruct (close x) as [[]|]; [|by apply leaves_note | apply leaves_done].
    eapply leaves_after; [by apply (apart_note c (CloseCallback i)) | apply raise_pending_leaves].
  - intros c1 _. apply leaves_object. intros y Hy. apply leaves_bind.
    + eapply leaves_after; [by apply (apart_put c1 i y (y <| alive := false |>))|]. eapply leaves_after; [by apply (apart_note _ (Kill i))|].
      apply leaves_on_table. intros t. apply dealloc_channel_unreserved.
    + intros c2 _. destruct (_ && _); [by apply leaves_note | apply leaves_done].
Qed.

Lemma raise_handler_leaves h x c h' c' : raise_handler h x c = Done (h', c') -> apart c c'.
Proof.
  revert h' c'. induction h as [| |k|number dead parent IH]; intros h' c'; cbn [raise_handler]; try done; try (intros [= <- <-]; by apply apart_note).
  destruct x.
  - intros (c1 & E & [= <- <-])%outcome_bind_Done. by eapply raise_pending_leaves.
  - destruct dead; [intros [= <- <-]; apply apart_refl|]. intros (c1 & E & [= <- <-])%outcome_bind_Done. by eapply finish_leaves.
  - intros ([p c1] & E & [= <- <-])%outcome_bind_Done. by eapply IH.
  - intros ([p c1] & E & [= <- <-])%outcome_bind_Done. by eapply IH.
Qed.

Lemma raise_leaves c i x : leaves c (raise_channel i x c).
Proof.
  unfold raise_channel. apply leaves_object. intros y _. apply leaves_let. intros [h c1] E%raise_handler_leaves.
  eapply leaves_after; [exact E|]. apply leaves_object. intros z Hz. by apply leaves_ret, (apart_put c1 i z).
Qed.

(** A change of the object [i] and an effect. *)
Lemma put_note_apart c i x x' y : objects c !! i = Some x -> channel_number x' = channel_number x -> active_requests x' = active_requests x -> harmless y ->
  apart c (note y (put_object i x' c)).
Proof. intros. eapply apart_trans; [by apply (apart_put c i x) | by apply apart_note]. Qed.

Lemma close_leaves c i : leaves c (channel_close i c).
Proof.
  unfold channel_close. apply leaves_object. intros x Hx. destruct (has _ _); [apply leaves_done|].
  eapply leaves_after; [by apply (put_note_apart c i x (set_flag CHANNEL_SENT_CLOSE x) (Wrote (ChannelClose (channel_number x))))|].
  destruct (has _ _); [apply raise_leaves | apply leaves_done].
Qed.

Lemma eof_leaves c i : leaves c (channel_eof i c).
Proof.
  unfold channel_eof. apply leaves_object. intros x Hx. destruct (has _ _); [apply leaves_done|].
  eapply leaves_after; [by apply (put_note_apart c i x (set_flag CHANNEL_SENT_EOF x) (Wrote (ChannelEof (channel_number x))))|].
  destruct (_ && _); [apply close_leaves | apply leaves_done].
Qed.

Lemma adjust_leaves c i add : leaves c (prepare_window_adjust i add c).
Proof. apply leaves_object. intros x Hx. by apply leaves_ret, (put_note_apart c i x). Qed.

Lemma source_eof_leaves c i : leaves c (source_eof i c).
Proof. apply leaves_object. intros x Hx. apply leaves_let. intros _ _. destruct (_ =? 1); [apply eof_leaves | apply leaves_done]. Qed.

Lemma transmit_same data x y : transmit data x = Done y -> channel_number y = channel_number x /\ active_requests y = active_requests x.
Proof. by intros (_ & _ & (_ & _ & [= <-])%outcome_bind_Done)%outcome_bind_Done. Qed.

Lemma transmit_leaves c i data m : (forall x, harmless (Wrote (m x))) ->
  leaves c (x ← object i c; x ← transmit data x; Done (C_WRITE (m x) (put_object i x c))).
Proof. intros Hm. apply leaves_object. intros x Hx. apply leaves_let. intros y [E1 E2]%transmit_same. by apply leaves_ret, (put_note_apart c i x). Qed.

Lemma read_data_leaves c i : leaves c (make_read_data i c).
Proof. apply leaves_object. intros x Hx. by apply leaves_ret, (apart_put c i x). Qed.

(** *** Packets and calls *)

(** The channel is the only open one with the number [ch] at the peer; the
    program decides its requests through it, and those of others elsewhere. *)
Definition fair (ev : event) (c : conn) : Prop :=
  match ev with
  | Packet _ => forall n i x, lookup_channel n (table c) = Done (Some i) -> objects c !! i = Some x -> channel_number x = ch -> i = id
  | RequestDone i n s =>
    if decide (i = id) then 0 <= s else n ∉ asked id (trace c) /\ forall x, objects c !! i = Some x -> channel_number x <> ch
  | GlobalDone n _ => n ∉ asked id (trace c)
  | _ => True
  end.

(** Whether an event is a request of the peer on the channel that wants a
    reply, and then whether its type is known. *)
Definition request (ev : event) (c : conn) : option bool :=
  match ev with
  | Packet (b :: r) =>
    if b =? SSH_MSG_CHANNEL_REQUEST then
      match parse_channel_request (simple_buffer_init (zlen (b :: r)) (b :: r)), objects c !! id with
      | (Done (number, name, want), _), Some x =>
        match lookup_channel number (table c) with
        | Done (Some i) => if (i =? id) && negb (want =? 0) then Some (handles (lookup_atom name) x) else None
        | _ => None
        end
      | _, _ => None
      end
    else None
  | _ => None
  end.

Lemma write_all_apart ms c : Forall (fun m => harmless (Wrote m)) ms -> apart c (write_all ms c).
Proof.
  intros H. revert c. induction H as [|m ms Hm _ IH]; intros c; [apply apart_refl|]. eapply apart_trans; [by apply (apart_note c (Wrote m)) | apply IH].
Qed.

Lemma reply_harmless k s : k <> ch -> harmless (Wrote (channel_reply k s)).
Proof. intros Hk. unfold channel_reply. destruct (s =? 0); (split; [done|]); cbn; by rewrite (proj2 (Z.eqb_neq _ _) Hk). Qed.

Lemma request_other_leaves b r c : request (Packet (b :: r)) c = None -> b = SSH_MSG_CHANNEL_REQUEST -> fair (Packet (b :: r)) c -> leaves c (channel_request_handler (b :: r) c).
Proof.
  intros HR -> HF. cbn [request] in HR. rewrite Z.eqb_refl in HR. apply leaves_parsing. intros [[number name] want] bf E. rewrite E in HR. cbv zeta.
  apply leaves_let. intros [i|] El; [|apply leaves_done]. apply leaves_object. intros x Hx. specialize (HF _ _ _ El Hx).
  destruct (decide (i = id)) as [->|Hi].
  - rewrite Hx, El, Z.eqb_refl in HR. destruct (want =? 0); [|done]. destruct (handles _ x); [by apply leaves_note | apply leaves_done].
  - destruct (handles _ x); destruct (want =? 0).
    + by apply leaves_note.
    + cbn. eapply leaves_after; [apply (apart_request c)|]. eapply leaves_after; [by apply (apart_put_other _ i)|]. apply leaves_note. split; [|done].
      cbn. by rewrite (proj2 (Z.eqb_neq _ _) Hi).
    + apply leaves_done.
    + apply leaves_note. change (harmless (Wrote (channel_reply (channel_number x) 0))). apply reply_harmless. auto.
Qed.

Lemma deliver_leaves number data k c : (forall i d c, apart c (k i d c)) -> leaves c (deliver number data k c).
Proof.
  intros Hk. unfold deliver. apply leaves_let. intros [i|] _; [|apply leaves_done]. apply leaves_object. intros x Hx.
  destruct (_ && _); [|apply leaves_done]. destruct (has _ x); [apply leaves_done|]. destruct (accept_data data x) as [d y] eqn:E.
  assert (Hy : channel_number y = channel_number x /\ active_requests y = active_requests x) by (unfold accept_data in E; injection E as _ <-; done).
  destruct Hy as [E1 E2]. destruct d; [apply leaves_done|]. eapply leaves_after; [by apply (apart_put c i x y) | apply leaves_ret, Hk].
Qed.

Lemma protocol_error_leaves c msg : leaves c (Done (PROTOCOL_ERROR msg c)).
Proof. apply leaves_ret. eapply apart_trans; by apply apart_note. Qed.

Lemma reply_leaves m bad f packet c : (forall k, harmless (f k)) -> leaves c (channel_reply_handler m bad f packet c).
Proof.
  intros Hf. apply leaves_parsing. intros n _ _. apply leaves_let. intros [i|] _; [|apply protocol_error_leaves].
  apply leaves_object. intros x Hx. apply leaves_ret. unfold next_pending. destruct (pending_requests x); [apply apart_refl | by apply (put_note_apart c i x)].
Qed.

Lemma open_confirm_leaves packet c : opened c -> leaves c (channel_open_confirm_handler packet c).
Proof.
  intros [_ HU]. apply leaves_parsing. intros [[[n remote] window] size] _ _. apply leaves_let. intros [i|] El; [|apply protocol_error_leaves].
  assert (Hi : i <> id).
  { intros ->. revert El. unfold lookup_channel_reserved, lookup_entry, entry. destruct (_ <? _); [|done]. destruct (0 <=? n); [|done].
    destruct (in_use _ !! _) as [u|] eqn:Eu; [|done]. cbn [mbind outcome_bind]. destruct (Z.eqb_spec u CHANNEL_RESERVED) as [->|]; [|done].
    destruct (channels _ !! _) eqn:Ec; [|done]. intros [= ->]. by apply (HU (Z.to_nat n)). }
  apply leaves_object. intros x _. apply leaves_let. intros _ _. eapply leaves_after; [by apply (apart_put_other c i)|].
  apply leaves_bind; [apply leaves_on_table; intros t; apply use_channel_unreserved | intros c1 _; by apply leaves_note].
Qed.

Lemma global_reply_harmless s : harmless (Wrote (global_reply s)).
Proof. unfold global_reply. by destruct (s =? 0). Qed.

Lemma dispatch_leaves packet c : opened c -> fair (Packet packet) c -> request (Packet packet) c = None -> leaves c (dispatch packet c).
Proof.
  intros HO HF HR. destruct packet as [|b r]; [apply leaves_done|]. unfold dispatch.
  destruct (b =? SSH_MSG_GLOBAL_REQUEST).
  { apply leaves_parsing. intros [name want] bf _. destruct (_ && _); [|by apply leaves_note]. destruct (want =? 0); [by apply leaves_note|].
    cbn. eapply leaves_after; [apply (apart_request c)|].
    match goal with |- context [note _ (update (fun _ => ?t) _)] => eapply leaves_after; [by apply (apart_table (make_request_status c).2 t) | by apply leaves_note] end. }
  destruct (b =? SSH_MSG_CHANNEL_OPEN).
  { apply leaves_parsing. intros [[[name remote] window] size] bf _. cbv zeta. destruct (pending_close _); [by apply leaves_note|].
    destruct (_ || _); [|by apply leaves_note]. apply leaves_let. intros [local t] Et. eapply leaves_after; [by apply (apart_table c t), (alloc_channel_unreserved _ local)|].
    apply leaves_ret. eapply apart_trans; [|by apply apart_note]. destruct (local <? 0); [by apply apart_note | apply apart_refl]. }
  destruct (Z.eqb_spec b SSH_MSG_CHANNEL_REQUEST) as [Hb|_]; [by apply request_other_leaves|].
  destruct (b =? SSH_MSG_CHANNEL_WINDOW_ADJUST).
  { apply leaves_parsing. intros [n size] _ _. cbv zeta. apply leaves_let. intros [i|] _; [|apply protocol_error_leaves]. apply leaves_object. intros x Hx.
    destruct (has _ x); [apply protocol_error_leaves|]. destruct (has _ x); [apply leaves_done|].
    eapply leaves_after; [by apply (apart_put c i x (widen size x))|]. destruct (_ && _); [by apply leaves_note | apply leaves_done]. }
  destruct (b =? SSH_MSG_CHANNEL_DATA).
  { apply leaves_parsing. intros [n data] _ _. apply deliver_leaves. intros. by apply apart_note. }
  destruct (b =? SSH_MSG_CHANNEL_EXTENDED_DATA).
  { apply leaves_parsing. intros [[n type] data] _ _. apply deliver_leaves. intros. destruct (type =? _); [by apply apart_note | apply apart_refl]. }
  destruct (b =? SSH_MSG_CHANNEL_EOF).
  { apply leaves_parsing. intros n _ _. apply leaves_let. intros [i|] _; [|apply protocol_error_leaves]. apply leaves_object. intros x Hx.
    destruct (has _ x); [apply protocol_error_leaves|]. eapply leaves_after; [by apply (apart_put c i x (set_flag CHANNEL_RECEIVED_EOF x))|].
    destruct (eof x); [|apply close_leaves]. eapply leaves_after; [by apply (apart_note _ (EofCallback i))|].
    destruct (_ && _); [apply close_leaves | apply leaves_done]. }
  destruct (b =? SSH_MSG_CHANNEL_CLOSE).
  { apply leaves_parsing. intros n _ _. apply leaves_let. intros [i|] _; [|apply protocol_error_leaves]. apply leaves_object. intros x Hx.
    destruct (has _ x); [apply protocol_error_leaves|]. eapply leaves_after; [by apply (apart_put c i x (set_flag CHANNEL_RECEIVED_CLOSE x))|].
    destruct (has _ x); [apply raise_leaves | apply close_leaves]. }
  destruct (b =? SSH_MSG_CHANNEL_OPEN_CONFIRMATION); [by apply open_confirm_leaves|].
  destruct (b =? SSH_MSG_CHANNEL_OPEN_FAILURE).
  { apply leaves_parsing. intros [n reason] _ _. apply leaves_let. intros [i|] _; [|apply leaves_done]. apply leaves_object. intros x Hx.
    apply leaves_let. intros _ _. apply leaves_let. intros exc _. apply leaves_bind; [apply raise_leaves | intros; apply raise_leaves]. }
  do 2 (destruct (b =? _); [by apply reply_leaves|]).
  do 2 (destruct (b =? _); [destruct r; [|apply protocol_error_leaves]; apply leaves_let; intros _ _; apply leaves_ret; unfold next_pending;
    destruct (pending_global_requests _); [apply apart_refl | eapply apart_trans; [apply apart_pending | by apply apart_note]]|]).
  apply leaves_done.
Qed.

(** Every event but a request on the channel and a decision of the program on
    one leaves the channel alone. *)
Lemma step_leaves ev c : opened c -> fair ev c -> request ev c = None -> (forall n s, ev <> RequestDone id n s) -> leaves c (step ev c).
Proof.
  intros HO HF HR HD. destruct ev; cbn [step].
  - by apply dispatch_leaves.
  - unfold do_channel_open_continue. cbn. eapply leaves_after; [apply (apart_fresh c)|]. apply leaves_bind; [apply register_leaves; destruct HO; lia|].
    intros c1 _. apply leaves_object. intros. by apply leaves_note.
  - unfold do_exc_channel_open_handler. do 4 (apply leaves_let; intros ? _).
    apply leaves_bind; [apply leaves_on_table; intros t; apply dealloc_channel_unreserved | intros; by apply leaves_note].
  - unfold do_channel_open_command. apply leaves_let. intros [i t] Et. eapply leaves_after; [by apply (apart_table c t), (alloc_channel_unreserved _ i)|].
    cbv zeta. set (c1 := if i <? 0 then _ else _). apply leaves_after with c1; [destruct (i <? 0); [by apply apart_note | apply apart_refl]|].
    destruct new as [[[x type] args]|]; [|apply leaves_on_table; intros t'; apply dealloc_channel_unreserved]. cbn.
    eapply leaves_after; [apply (apart_fresh c1)|]. apply leaves_bind; [apply register_leaves | intros; by apply leaves_note].
    subst c1. destruct HO. destruct (i <? 0); cbn; lia.
  - apply leaves_object. intros x Hx. destruct context as [k|]; [|by apply leaves_note].
    by apply leaves_ret, (put_note_apart c id0 x).
  - destruct context; apply leaves_ret; [eapply apart_trans; [apply apart_pending | by apply apart_note] | by apply apart_note].
  - cbn [fair] in HF. rewrite decide_False in HF by (intros ->; by eapply HD). destruct HF as [Hn Hch]. unfold do_channel_request_response.
    apply leaves_let. intros _ _. apply leaves_object. intros x Hx. apply leaves_let. intros _ _. eapply leaves_after; [by apply apart_status; left|].
    apply leaves_object. intros y Hy. destruct (decided _ _) as [l q]. apply leaves_ret. eapply apart_trans; [apply (apart_put_other _ id0); naive_solver|].
    apply write_all_apart, Forall_fmap, Forall_forall. intros k _. apply reply_harmless. by apply (Hch y).
  - unfold do_global_request_response. apply leaves_let. intros _ _. apply leaves_let. intros _ _. apply leaves_ret.
    eapply apart_trans; [by apply apart_status; left|]. unfold send_global_request_responses. destruct (decided _ _) as [l q].
    eapply apart_trans; [by apply (apart_table (set_status n s c) ((table c) <| active_global_requests := q |>))|]. apply write_all_apart, Forall_fmap, Forall_forall. intros k _. apply global_reply_harmless.
  - unfold do_client_io. apply leaves_object. intros x Hx. apply leaves_bind.
    + eapply leaves_after; [by apply (apart_put c id0 x (x <| receive := true |> <| send_adjust := true |>))|]. apply read_data_leaves.
    + intros c1 _. apply leaves_object. intros y Hy. by apply leaves_ret, (apart_put c1 id0 y).
  - unfold channel_forward_start_io. apply leaves_object. intros x Hx.
    eapply leaves_after; [by apply (apart_put c id0 x (x <| receive := true |> <| send_adjust := true |> <| eof := true |>))|]. apply read_data_leaves.
  - apply leaves_object. intros x Hx. destruct (_ <? _); [apply adjust_leaves | apply leaves_done].
  - apply leaves_object. intros x Hx. destruct (has _ x); [apply leaves_done | apply adjust_leaves].
  - destruct packet; [by apply transmit_leaves | apply source_eof_leaves].
  - destruct packet; [by apply transmit_leaves | apply source_eof_leaves].
  - apply leaves_object. intros x Hx. apply leaves_let. intros _ _. eapply leaves_after; [by apply (apart_put c id0 x (x <| sources := sources x - 1 |>))|].
    destruct (_ =? 1); [apply eof_leaves | apply leaves_done].
  - apply close_leaves.
Qed.

End Alone.

(** ** Replies in turn *)

Section Turns.
Context (id ch : Z).

(** The reply to a request of a known type, by its identity, and to one of a
    type that is not known. *)
Definition reply_to (c : conn) (r : option Z) : message :=
  match r with Some n => channel_reply ch (status n c) | None => ChannelFailure ch end.

(** How many of the replies are refusals of unknown types. *)
Definition unknown (log : list (option Z)) : nat := length (filter (fun r => r = None) log).

(** After [known] and [other] requests of known and unknown types: the requests
    are those answered, with their statuses, and the queue. *)
Definition in_turn (known other : nat) (c : conn) : Prop := opened id c /\ exists x log,
  objects c !! id = Some x /\ channel_number x = ch
  /\ asked id (trace c) = omap (fun r => r) log ++ active_requests x /\ NoDup (asked id (trace c)) /\ Forall (fun n => n < fresh c) (asked id (trace c))
  /\ answers ch (trace c) = reply_to c <$> log
  /\ length (asked id (trace c)) = known /\ unknown log = other
  /\ Forall (fun n => 0 <= status n c) (omap (fun r => r) log)
  /\ (forall n r, active_requests x = n :: r -> status n c < 0).

Lemma reply_to_ext c c' (log : list (option Z)) : (forall n, n ∈ omap (fun r => r) log -> status n c' = status n c) -> reply_to c' <$> log = reply_to c <$> log.
Proof.
  induction log as [|[n|] log IH]; intros H; [done | | cbn; by rewrite IH]. cbn in *. rewrite H by by left. rewrite IH; [done|]. intros m Hm. apply H. by right.
Qed.

(** What leaves the channel alone keeps its turns. *)
Lemma in_turn_apart k u c c' : apart id ch c c' -> in_turn k u c -> in_turn k u c'.
Proof.
  intros HA [HO (x & log & H1 & H2 & H3 & H4 & H5 & H6 & H7 & H8 & H9 & H10)]. destruct (HA HO) as (HO' & Ho & Hf & Hs & Ha & Hw).
  split; [done|]. destruct (Ho x H1) as (x' & Hx' & En & Eq). exists x', log. rewrite Ha, Hw, Eq, En.
  assert (HS : forall n, n ∈ omap (fun r => r) log ++ active_requests x -> status n c' = status n c).
  { intros n Hn. rewrite <- H3 in Hn. unfold status. rewrite Hs; [done | | done]. rewrite Forall_forall in H5. auto. }
  split_and!; try done.
  - eapply Forall_impl; [exact H5|]. cbn. lia.
  - rewrite H6. symmetry. apply reply_to_ext. intros n Hn. apply HS, elem_of_app. by left.
  - rewrite Forall_forall in *. intros n Hn. rewrite HS by (apply elem_of_app; auto). auto.
  - intros n r Er. rewrite HS by (rewrite Er; apply elem_of_app; right; by left). by eapply H10.
Qed.

(** A request of a known type is queued and handed to the program. *)
Lemma in_turn_ask k u c x type args : in_turn k u c -> objects c !! id = Some x ->
  in_turn (S k) u (note (HandleRequest id type (Some (fresh c)) args) (put_object id (x <| active_requests := active_requests x ++ [fresh c] |>) (make_request_status c).2)).
Proof.
  intros [[HO HU] (x' & log & Hx' & H2 & H3 & H4 & H5 & H6 & H7 & H8 & H9 & H10)] Hx. rewrite Hx in Hx'. injection Hx' as <-.
  assert (HS : forall m, m ∈ asked id (trace c) -> status m (set_status (fresh c) (-1) c) = status m c).
  { intros m Hm. rewrite Forall_forall in H5. specialize (H5 m Hm). rewrite status_put, decide_False by lia. done. }
  set (c' := note _ _). split; [split; cbn; [lia | done]|]. exists (x <| active_requests := active_requests x ++ [fresh c] |>), log.
  assert (EA : asked id (trace c') = asked id (trace c) ++ [fresh c]).
  { subst c'. cbn -[asked]. rewrite asked_app. f_equal. cbn. by rewrite Z.eqb_refl. }
  rewrite EA. split_and!; try done.
  - apply put_objects.
  - rewrite H3. cbn. by rewrite app_assoc.
  - apply NoDup_app. split; [done|]. split; [|apply NoDup_singleton]. intros m Hm ->%list_elem_of_singleton. rewrite Forall_forall in H5. specialize (H5 _ Hm). lia.
  - apply Forall_app. split; [|constructor; [cbn; lia | done]]. eapply Forall_impl; [exact H5|]. cbn. lia.
  - subst c'. cbn -[answers]. rewrite answers_app, H6. cbn. rewrite app_nil_r. symmetry. apply reply_to_ext. intros m Hm. apply HS. rewrite H3. apply elem_of_app. by left.
  - rewrite length_app, H7. cbn. lia.
  - rewrite Forall_forall in H9 |- *. intros m Hm. etrans; [apply (H9 m Hm)|]. apply Z.eq_le_incl. symmetry. apply HS. rewrite H3. apply elem_of_app. auto.
  - cbn. intros m r. destruct (active_requests x) as [|j q] eqn:Eq; cbn.
    + intros [= <- _]. change (status (fresh c) (set_status (fresh c) (-1) c) < 0). by rewrite status_put, decide_True.
    + intros [= <- _]. change (status j (set_status (fresh c) (-1) c) < 0). rewrite HS; [by apply (H10 j q)|]. rewrite H3. apply elem_of_app. right. by left.
Qed.

(** One of an unknown type is refused at once. *)
Lemma in_turn_refuse k u c x : in_turn k u c -> objects c !! id = Some x -> in_turn k (S u) (C_WRITE (ChannelFailure (channel_number x)) c).
Proof.
  intros [HO (x' & log & Hx' & H2 & H3 & H4 & H5 & H6 & H7 & H8 & H9 & H10)] Hx. rewrite Hx in Hx'. injection Hx' as <-. split; [done|].
  exists x, (log ++ [None]). cbn -[asked answers]. rewrite asked_app, answers_app, omap_app, H2. cbn. rewrite !app_nil_r, Z.eqb_refl.
  split_and!; try done.
  - by rewrite H6, fmap_app.
  - unfold unknown in *. rewrite filter_app, length_app, H8. change (length _) with 1%nat. lia.
Qed.

(** The program decides a request of the channel. *)
Lemma in_turn_answer k u c n s c' : in_turn k u c -> 0 <= s -> step (RequestDone id n s) c = Done c' -> in_turn k u c'.
Proof.
  intros [HO (x & log & Hx & H2 & H3 & H4 & H5 & H6 & H7 & H8 & H9 & H10)] Hs. cbn [step]. unfold do_channel_request_response.
  intros (y & En & E)%outcome_bind_Done. rewrite (object_Done _ _ _ Hx) in E. cbn [mbind outcome_bind] in E. apply outcome_bind_Done in E as (_ & _ & E).
  assert (Hn : status n c = -1) by (revert En; unfold assert_that; destruct (Z.eqb_spec (status n c) (-1)); done). clear y En.
  revert E. unfold send_channel_request_responses. rewrite (object_Done id x (set_status n s c)) by done. cbn [mbind outcome_bind].
  destruct (decided_spec (statuses (set_status n s c)) (active_requests x)) as (p & r & -> & Hq & Hp & Hr). intros [= <-].
  set (st := statuses (set_status n s c)) in *. set (c0 := put_object _ _ _). rewrite H2. set (c1 := write_all _ c0).
  assert (Eo : objects c1 = objects c0) by apply objects_write_all. assert (Ef : fresh c1 = fresh c) by (etrans; [apply fresh_write_all | done]).
  assert (Et : table c1 = table c) by (etrans; [apply table_write_all | done]). assert (Es : statuses c1 = st) by (etrans; [apply statuses_write_all | done]).
  assert (Etr : trace c1 = trace c ++ (Wrote <$> (channel_reply ch <$> (status_in st <$> p)))) by (etrans; [apply trace_write_all | done]). clearbody c1.
  assert (HS : forall m, status m c1 = status_in st m) by (intros m; unfold status, status_in; by rewrite Es).
  assert (HN : forall m, m ∈ omap (fun r => r) log -> status_in st m = status m c).
  { intros m Hm. rewrite Forall_forall in H9. specialize (H9 m Hm). change (status m (set_status n s c) = status m c). rewrite status_put, decide_False; [done|]. intros ->. lia. }
  assert (HC : omap (fun r : option Z => r) (Some <$> p) = p) by (clear; induction p as [|? ? IHl]; [done | cbn; by rewrite IHl]).
  split; [split; rewrite ?Ef, ?Et; apply HO|]. exists (x <| active_requests := r |>), (log ++ (Some <$> p)).
  rewrite Eo, Ef, Etr, asked_app, answers_app, asked_replies, answers_replies, app_nil_r. change (active_requests (x <| active_requests := r |>)) with r.
  rewrite omap_app, HC, <- app_assoc, <- Hq. split_and!; try done; try apply put_objects.
  - rewrite fmap_app, H6. f_equal.
    + symmetry. apply reply_to_ext. intros m Hm. by rewrite HS, HN.
    + rewrite <- !list_fmap_compose. apply list_fmap_ext. intros i m _. cbn. by rewrite HS.
  - unfold unknown in *. rewrite filter_app, length_app, H8. replace (filter _ (Some <$> p)) with (@nil (option Z)); [cbn; lia|]. clear. by induction p.
  - apply Forall_app. split; rewrite Forall_forall in *; intros m Hm; rewrite HS; [rewrite HN by done|]; auto.
  - intros m r' Er. rewrite HS. by eapply Hr.
Qed.

(** What a step adds to the requests. *)
Definition count_request (b : bool) (r : option bool) : nat := if decide (r = Some b) then 1 else 0.

Lemma request_step ev c b c' : request id ev c = Some b -> step ev c = Done c' -> exists x type args, objects c !! id = Some x
  /\ c' = if b then note (HandleRequest id type (Some (fresh c)) args) (put_object id (x <| active_requests := active_requests x ++ [fresh c] |>) (make_request_status c).2)
          else C_WRITE (ChannelFailure (channel_number x)) c.
Proof.
  destruct ev as [[|o r]| | | | | | | | | | | | | | |]; try done. cbn [request step]. destruct (Z.eqb_spec o SSH_MSG_CHANNEL_REQUEST) as [->|]; [|done].
  change (dispatch (?m :: ?r) c) with (channel_request_handler (m :: r) c). unfold channel_request_handler, parsing.
  destruct (parse_channel_request _) as [[[[number name] want]| |] bf]; try done. destruct (objects c !! id) as [x|] eqn:Hx; [|done].
  destruct (lookup_channel number (table c)) as [[i|]| |]; try done. destruct (Z.eqb_spec i id) as [->|]; [|done]. cbn [andb mbind outcome_bind].
  rewrite (object_Done _ _ _ Hx). cbn [mbind outcome_bind]. destruct (want =? 0); [done|]. cbn [negb]. intros [= <-].
  destruct (handles _ x); intros [= <-]; by exists x, (lookup_atom name), (rest bf).
Qed.

Lemma in_turn_step k u ev c c' : fair id ch ev c -> step ev c = Done c' -> in_turn k u c ->
  in_turn (k + count_request true (request id ev c)) (u + count_request false (request id ev c)) c'.
Proof.
  intros HF E HI. destruct (request id ev c) as [b|] eqn:ER.
  - destruct (request_step _ _ _ _ ER E) as (x & type & args & Hx & ->). destruct b; unfold count_request; cbn; rewrite Nat.add_0_r, Nat.add_1_r; [by apply in_turn_ask | by apply in_turn_refuse].
  - cbn. rewrite !Nat.add_0_r. 
    assert (Hd : (exists n s, ev = RequestDone id n s) \/ forall n s, ev <> RequestDone id n s).
    { destruct ev as [| | | | | |i n s| | | | | | | | |]; try (by right). destruct (decide (i = id)) as [->|Hi]; [left; eauto | right; congruence]. }
    destruct Hd as [(n & s & ->)|Hn].
    + cbn [fair] in HF. rewrite decide_True in HF by done. by eapply in_turn_answer.
    + eapply in_turn_apart; [|exact HI]. by eapply step_leaves; [apply HI | | | |].
Qed.

(** The requests on the channel in a run: whether each is of a known type. *)
Fixpoint requests (evs : list event) (c : conn) : list bool :=
  match evs with
  | [] => []
  | ev :: evs =>
    match request id ev c with Some b => [b] | None => [] end ++ match step ev c with Done c' => requests evs c' | _ => [] end
  end.

Fixpoint fair_run (evs : list event) (c : conn) : Prop :=
  match evs with [] => True | ev :: evs => fair id ch ev c /\ forall c', step ev c = Done c' -> fair_run evs c' end.

Definition count (b : bool) (l : list bool) : nat := length (filter (fun k => k = b) l).

Lemma count_cons b r l : count b (match r with Some k => [k] | None => [] end ++ l) = (count_request b r + count b l)%nat.
Proof. unfold count, count_request. by destruct r as [[]|], b. Qed.

(** An open channel that has had no requests yet. *)
Definition unasked (c : conn) : Prop := opened id c /\ exists x,
  objects c !! id = Some x /\ channel_number x = ch /\ active_requests x = [] /\ asked id (trace c) = [] /\ answers ch (trace c) = [].

Lemma unasked_in_turn c : unasked c -> in_turn 0 0 c.
Proof.
  intros [HO (x & H1 & H2 & H3 & H4 & H5)]. split; [done|]. exists x, []. rewrite H3, H4, H5. split_and!; try done. by apply NoDup_nil.
Qed.

Lemma in_turn_run evs k u c c' : fair_run evs c -> run evs c = Done c' -> in_turn k u c ->
  in_turn (k + count true (requests evs c)) (u + count false (requests evs c)) c'.
Proof.
  revert k u c. induction evs as [|ev evs IH]; intros k u c; cbn [fair_run run requests].
  - intros _ [= <-]. cbn. by rewrite !Nat.add_0_r.
  - intros [HF HR] (c1 & E & E2)%outcome_bind_Done HI. rewrite E, !count_cons, !Nat.add_assoc. apply IH; [auto | done | by apply (in_turn_step _ _ ev c)].
Qed.

End Turns.

(** C16. Replies keep the order of the requests. Take any run of a connection,
    of packets and calls of the program, from a moment when the channel [id] is
    open and has had no requests, in which the peer's number [ch] is that of no
    other open channel. However the program takes its time with the requests on
    the channel and in whatever order it decides them, the replies written to
    [ch] are those to the requests of known types, in the order of the requests
    and each with its own status, and the refusals of the requests of unknown
    types ([None] in the log), as many as there were of either: the requests of
    known types are those answered, followed by the queue. And none is held
    back: the first request of the queue is one the program has not decided
    yet. A refusal is written in the step of its request, so that it stands
    before the replies to the earlier requests that are still in the queue
    ([jumps_the_queue]). *)
Theorem replies_in_order id ch evs c c' (HU : unasked id ch c) (HF : fair_run id ch evs c) (HR : run evs c = Done c') : exists x log,
  objects c' !! id = Some x /\ channel_number x = ch
  /\ asked id (trace c') = omap (fun r => r) log ++ active_requests x /\ NoDup (asked id (trace c'))
  /\ answers ch (trace c') = reply_to ch c' <$> log
  /\ length (asked id (trace c')) = count true (requests id evs c)
  /\ length (filter (fun r => r = None) log) = count false (requests id evs c)
  /\ Forall (fun n => 0 <= status n c') (omap (fun r => r) log)
  /\ (forall n r, active_requests x = n :: r -> status n c' < 0).
Proof.
  destruct (in_turn_run id ch evs 0 0 c c' HF HR (unasked_in_turn id ch c HU)) as [_ (x & log & H1 & H2 & H3 & H4 & _ & H6 & H7 & H8 & H9 & H10)].
  exists x, log. by split_and!.
Qed.

(** Two requests, of which the second is decided first, and between them one of
    an unknown type. *)
Definition after (evs : list event) (c : conn) : conn := match run evs c with Done c => c | _ => c end.

Definition exit_status : message := ChannelRequest 0 (lookup_atom (bytes_of_string "exit-status")) 1 [0; 0; 0; 0].
Definition unknown_request : message := ChannelRequest 0 (lookup_atom (bytes_of_string "shell")) 1 [].
Definition asking : event := Packet (Protocol.octets exit_status).
Definition asking_unknown : event := Packet (Protocol.octets unknown_request).
Definition turn0 : conn := Eval vm_compute in after [session_open; Packet (Protocol.octets (OpenConfirmation 0 5 1000 500)); StartSession 0] init_connection_service.
Definition turns : list event := [asking; asking_unknown; Packet (Protocol.octets (WindowAdjust 0 100)); asking; RequestDone 0 2 1; RequestDone 0 1 0].

Lemma turn0_unasked : unasked 0 5 turn0.
Proof. split; [split; [done | intros [|[|]]; vm_compute; done]|]. eexists. by split_and!; vm_compute. Qed.

Lemma turn0_alone p c : table c = table turn0 -> fair 0 5 (Packet p) c.
Proof.
  intros E n i x. rewrite E. unfold lookup_channel, lookup_entry, entry. change (used_channels (table turn0)) with 1. destruct (Z.ltb_spec n 1); [|done].
  destruct (Z.leb_spec 0 n); [|done]. replace n with 0 by lia. by intros [= <-].
Qed.

Lemma turns_fair : fair_run 0 5 turns turn0.
Proof.
  split; [by apply turn0_alone|]. intros c1 E1. vm_compute in E1. injection E1 as <-. split; [by apply turn0_alone|]. intros c2 E2. vm_compute in E2. injection E2 as <-.
  split; [by apply turn0_alone|]. intros c3 E3. vm_compute in E3. injection E3 as <-. split; [by apply turn0_alone|]. intros c4 E4. vm_compute in E4. injection E4 as <-.
  split; [done|]. intros c5 E5. vm_compute in E5. injection E5 as <-. by split.
Qed.

Definition turn_end : conn := Eval vm_compute in after turns turn0.

(** The refusal of the second request comes first. *)
Lemma replies_in_order_witness :
  answers 5 (trace turn_end) = [ChannelFailure 5; ChannelFailure 5; ChannelSuccess 5] /\ requests 0 turns turn0 = [true; false; true] /\
  exists x log, objects turn_end !! 0 = Some x /\ channel_number x = 5
  /\ asked 0 (trace turn_end) = omap (fun r => r) log ++ active_requests x /\ NoDup (asked 0 (trace turn_end))
  /\ answers 5 (trace turn_end) = reply_to 5 turn_end <$> log
  /\ length (asked 0 (trace turn_end)) = count true (requests 0 turns turn0)
  /\ length (filter (fun r => r = None) log) = count false (requests 0 turns turn0)
  /\ Forall (fun n => 0 <= status n turn_end) (omap (fun r => r) log)
  /\ (forall n r, active_requests x = n :: r -> status n turn_end < 0).
Proof. split; [done|]. split; [by vm_compute|]. apply (replies_in_order 0 5 turns turn0 turn_end turn0_unasked turns_fair). by vm_compute. Defined.


(** A request of a type that is not known is refused at once, whatever the
    queue holds: the peer takes the refusal for the answer to its first open
    request. *)
Lemma unknown_request_refused c id na x type want args : objects c !! id = Some x -> lookup_channel na (table c) = Done (Some id) ->
  handles type x = false -> want <> 0 -> message_ok (ChannelRequest na type want args) ->
  step (Packet (wire_octets (ChannelRequest na type want args))) c = Done (C_WRITE (ChannelFailure (channel_number x)) c).
Proof.
  intros Hx Hl Hh Hw HM. pose proof (heard_octets _ HM) as ((b & E & Eb) & Et). cbn [step].
  change (dispatch ?p c) with (channel_request_handler p c). unfold channel_request_handler, parsing. rewrite E, Et, Eb, Hl.
  cbn [mbind outcome_bind]. rewrite (object_Done _ _ _ Hx). cbn [mbind outcome_bind]. by rewrite Hh, (proj2 (Z.eqb_neq _ _) Hw).
Qed.

Example jumps_the_queue : answers 5 (trace (after [asking; asking; asking_unknown] turn0)) = [ChannelFailure 5]
  /\ (active_requests <$> objects (after [asking; asking; asking_unknown] turn0) !! 0) = Some [1; 2].
Proof. by vm_compute. Qed.

(** A global request that asks for no reply is answered when it is not known. *)
Example unwanted_reply : trace (after [Packet (Protocol.octets (GlobalRequest (lookup_atom (bytes_of_string "tcpip-forward")) 0 []))] init_connection_service)
  = [Wrote GlobalFailure].
Proof. by vm_compute. Qed.

(** ** No number left *)

Definition full (t : channel_table) : Prop := table_ok t /\ forall j, 0 <= j < MAX_CHANNELS -> ~ free t j.

Lemma full_alloc t : full t -> alloc_channel t = Done (-1, t).
Proof.
  intros [H Hf]. destruct (alloc_channel_ok t H) as (i & t' & E & _ & [(-> & -> & _)|(Hi & Hi' & _)]); [done|]. by destruct (Hf i Hi).
Qed.

Lemma entry_minus_one {A} t (l : list A) : table_ok t -> zlen l = used_channels t -> entry (u32 (-1)) l = Crash OutOfBounds.
Proof.
  intros H Hl. unfold entry. change (u32 (-1)) with 4294967295. cbn [Z.leb Z.compare]. rewrite lookup_ge_None_2; [done|].
  pose proof (ok_used _ H) as [_ Hm]. rewrite (ok_max _ H) in Hm. change MAX_CHANNELS with 131072 in Hm. unfold zlen in Hl. lia.
Qed.

Lemma full_register c id x u : full (table c) -> register_channel (u32 (-1)) id x u c = Crash OutOfBounds.
Proof. intros [H _]. unfold register_channel. by rewrite (entry_minus_one _ _ H (ok_in_use _ H)). Qed.

(** C38. The last channel number. When all numbers are taken, a request of the
    peer for a new channel is answered with a resource shortage, and the handler
    of the new channel is called all the same: as soon as it makes a channel or
    refuses one, [in_use] is read four thousand million entries beyond its
    start. A channel the program asks for goes the same way. *)
Theorem full_table_overruns c type remote window size args
  (HF : full (table c)) (HP : pending_close (table c) = false) (HT : type ∈ channel_types (table c)) (HM : message_ok (ChannelOpen type remote window size args)) :
  exists c', step (Packet (wire_octets (ChannelOpen type remote window size args))) c = Done c'
  /\ (exists msg size', trace c' = trace c ++ [Wrote (OpenFailure remote SSH_OPEN_RESOURCE_SHORTAGE msg); HandleOpen type (-1) remote window size' args])
  /\ (forall x, step (Opened (-1) remote window size x) c' = Crash OutOfBounds)
  /\ (forall code msg, step (Refused (-1) remote code msg) c' = Crash OutOfBounds)
  /\ (forall x t a h, step (OpenCommand (Some (x, t, a)) h) c = Crash OutOfBounds).
Proof.
  pose proof (ok_in_use _ (proj1 HF)) as Hu. pose proof (heard_octets _ HM) as ((b & E & Eb) & Et).
  assert (Ht : type <> 0) by (destruct HM as ((_ & [H _]%Forall_cons)%Forall_cons & _); cbn in H; unfold is_atom in H; lia).
  eexists. split; [|split; [|split; [|split]]].
  - cbn [step]. change (dispatch ?p c) with (channel_open_handler p c). unfold channel_open_handler, parsing. rewrite E, Et, Eb, HP.
    rewrite (proj2 (Z.eqb_neq _ _) Ht), bool_decide_true by done. cbn [negb andb orb]. rewrite (full_alloc _ HF). cbn [mbind outcome_bind]. reflexivity.
  - eexists _, _. cbn. by rewrite <- app_assoc.
  - intros x. cbn [step]. unfold do_channel_open_continue. cbn [new_object]. by rewrite full_register by exact HF.
  - intros code msg. change (step (Refused (-1) remote code msg) ?c0) with (do_exc_channel_open_handler (-1) remote code msg c0). unfold do_exc_channel_open_handler.
    match goal with |- (entry ?i ?l ≫= _) = _ => change l with (in_use (table c)) end. by rewrite (entry_minus_one _ _ (proj1 HF) Hu).
  - intros x t a h. cbn [step]. unfold do_channel_open_command. rewrite (full_alloc _ HF). cbn [mbind outcome_bind new_object].
    by rewrite full_register by exact HF.
Qed.

(** A table of [n] reserved numbers. *)
Definition reserved_table (n : Z) : channel_table :=
  make_channel_table <| channels := replicate (Z.to_nat n) None |> <| in_use := replicate (Z.to_nat n) CHANNEL_RESERVED |>
    <| allocated_channels := n |> <| used_channels := n |> <| next_channel := n |> <| channel_count := n |>
    <| channel_types := [39] |>.

Lemma reserved_slot n i u o : slot (reserved_table n) i = Some (u, o) -> u = CHANNEL_RESERVED /\ o = None.
Proof.
  intros (_ & Hu & Ho)%slot_inv. apply lookup_replicate in Hu as [-> _]. by apply lookup_replicate in Ho as [-> _].
Qed.

Lemma taken_reserved n : taken (replicate n CHANNEL_RESERVED) = Z.of_nat n.
Proof.
  induction n as [|n IH]; [done|]. change (replicate (S n) ?u) with ([u] ++ replicate n u). rewrite taken_app, IH, taken_one, decide_False by done. lia.
Qed.

Lemma reserved_full n : n = MAX_CHANNELS -> full (reserved_table n).
Proof.
  intros Hn. assert (Hm : n = 131072) by done. assert (H : table_ok (reserved_table n)).
  { split; cbn -[MAX_CHANNELS replicate slot].
    - rewrite zlen_replicate. lia.
    - rewrite zlen_replicate. lia.
    - lia.
    - change MAX_CHANNELS with 131072. lia.
    - change MAX_CHANNELS with 131072. lia.
    - done.
    - apply Forall_replicate. tauto.
    - by intros i u o _ [-> _]%reserved_slot.
    - rewrite taken_reserved. lia.
    - by intros i o [? _]%reserved_slot.
    - by intros i o [? _]%reserved_slot. }
  split; [done|]. intros j Hj [HN|HS]; [|by apply reserved_slot in HS as [? _]].
  rewrite <- Hn in Hj. destruct (slot_within _ j H Hj) as (u & o & E). congruence.
Qed.

Definition full_table : channel_table := reserved_table MAX_CHANNELS.

(** Atom 39 is "session". *)
Definition one_more : message := ChannelOpen 39 3 10000 32668 [].

Definition full_conn : conn := init_connection_service <| table := full_table |>.

Lemma full_table_overruns_witness : exists c',
  step (Packet (wire_octets one_more)) full_conn = Done c'
  /\ (exists msg size', trace c' = trace full_conn ++ [Wrote (OpenFailure 3 SSH_OPEN_RESOURCE_SHORTAGE msg); HandleOpen 39 (-1) 3 10000 size' []])
  /\ (forall x, step (Opened (-1) 3 10000 32668 x) c' = Crash OutOfBounds)
  /\ (forall code msg, step (Refused (-1) 3 code msg) c' = Crash OutOfBounds)
  /\ (forall x t a h, step (OpenCommand (Some (x, t, a)) h) full_conn = Crash OutOfBounds).
Proof.
  apply (full_table_overruns full_conn 39 3 10000 32668 []); [exact (reserved_full _ eq_refl) | done | by left |].
  split_and!; [repeat constructor; vm_compute; try done | constructor | by vm_compute].
Defined.

End Requests.
