(* ===== verification/Keyexchange.v ===== *)
(** The transport protocol of SSH above its packets: connection.c (what is
    done with a packet in which state of the key exchange, and the queue of a
    paused connection), keyexchange.c (the negotiation of algorithms, session
    keys), dh_exchange.c, client_keyexchange.c and server_keyexchange.c (the
    Diffie-Hellman exchange), with the groups of publickey_crypto.c, and
    handshake.c (version strings). The SRP exchange, which is compiled in on
    request, and the fallback to version 1 are left out. *)
From S2P Require Import Prelude Window Bignum Atoms Format Parse Hash Crypto.
From S2P Require Channel.
From Stdlib Require Import Zpow_facts.
Import Bignum Atoms Format Parse Crypto.

Module Keyexchange.

(** ** Constants *)

Definition SSH_MSG_DISCONNECT : Z := 1.
Definition SSH_MSG_IGNORE : Z := 2.
Definition SSH_MSG_UNIMPLEMENTED : Z := 3.
Definition SSH_MSG_DEBUG : Z := 4.
Definition SSH_MSG_SERVICE_REQUEST : Z := 5.
Definition SSH_MSG_SERVICE_ACCEPT : Z := 6.
Definition SSH_MSG_KEXINIT : Z := 20.
Definition SSH_MSG_NEWKEYS : Z := 21.
Definition SSH_MSG_KEXDH_INIT : Z := 30.
Definition SSH_MSG_KEXDH_REPLY : Z := 31.

Definition SSH_DISCONNECT_PROTOCOL_ERROR : Z := 2.
Definition SSH_DISCONNECT_KEY_EXCHANGE_FAILED : Z := 3.
Definition SSH_DISCONNECT_RESERVED : Z := 4.
Definition SSH_DISCONNECT_PROTOCOL_VERSION_NOT_SUPPORTED : Z := 8.
Definition SSH_MAX_PACKET : Z := 0x8000.

Definition KEX_ENCRYPTION_CLIENT_TO_SERVER : Z := 0.
Definition KEX_ENCRYPTION_SERVER_TO_CLIENT : Z := 1.
Definition KEX_MAC_CLIENT_TO_SERVER : Z := 2.
Definition KEX_MAC_SERVER_TO_CLIENT : Z := 3.
Definition KEX_COMPRESSION_CLIENT_TO_SERVER : Z := 4.
Definition KEX_COMPRESSION_SERVER_TO_CLIENT : Z := 5.
Definition KEX_PARAMETERS : Z := 6.

Definition KEX_STATE_INIT : Z := 0.
Definition KEX_STATE_IGNORE : Z := 1.
Definition KEX_STATE_IN_PROGRESS : Z := 2.
Definition KEX_STATE_NEWKEYS : Z := 3.

Definition CONNECTION_MODE : Z := 1.
Definition CONNECTION_CLIENT : Z := 0.
Definition CONNECTION_SERVER : Z := 1.

Definition PEER_SSH_DSS_KLUDGE : Z := 1.
Definition PEER_SERVICE_ACCEPT_KLUDGE : Z := 2.
Definition PEER_USERAUTH_REQUEST_KLUDGE : Z := 4.
Definition PEER_SEND_NO_DEBUG : Z := 8.
Definition PEER_X11_OPEN_KLUDGE : Z := 0x10.
Definition PEER_WRONG_PK_OK : Z := 0x20.

Definition NLISTS : Z := 10.
Definition KEXINIT_MAX_ALGORITMS : Z := 1024.

Definition ATOM_NONE : Z := lookup_atom (bytes_of_string "none").
Definition ATOM_SSH_DSS : Z := lookup_atom (bytes_of_string "ssh-dss").
Definition ATOM_SSH_DSS_KLUDGE_LOCAL : Z := lookup_atom (bytes_of_string "ssh-dss-kludge@lysator.liu.se").

(** ** Data *)

(** The two-element arrays of a connection, indexed by the mode. *)
Record two (A : Type) := mkTwo { of_client : A; of_server : A }.
Arguments mkTwo {A}. Arguments of_client {A}. Arguments of_server {A}.

Definition at_mode {A} (mode : Z) (t : two A) : A := if mode =? CONNECTION_CLIENT then of_client t else of_server t.
Definition set_mode {A} (mode : Z) (v : A) (t : two A) : two A :=
  if mode =? CONNECTION_CLIENT then mkTwo v (of_server t) else mkTwo (of_client t) v.

(** [struct kexinit] *)
Record kexinit := mkKexinit {
  cookie : bytes; kex_algorithms : list Z; server_hostkey_algorithms : list Z; parameters : list (list Z);
  languages_client_to_server : list Z; languages_server_to_client : list Z;
  first_kex_packet_follows : Z; first_kex_packet : option bytes
}.

(** [struct simple_kexinit] *)
Record simple_kexinit := mkSimple {
  s_kex_algorithms : list Z; s_hostkey_algorithms : list Z; s_crypto_algorithms : list Z;
  s_mac_algorithms : list Z; s_compression_algorithms : list Z; s_languages : list Z
}.

(** [struct abstract_group], as far as the exchange uses it. *)
Record abstract_group := mkGroup { order : Z; generator : Z; range : Z -> bool; power : Z -> Z -> Z }.

(** The objects of algorithms: what they make are instances of the types [C],
    [M] and [P]. A block cipher may refuse a weak key. *)
Record crypto_algorithm (C : Type) := mkCrypto {
  crypto_key_size : Z; iv_size : Z; make_encrypt : bytes -> option bytes -> option C; make_decrypt : bytes -> option bytes -> option C
}.
Arguments mkCrypto {C}. Arguments crypto_key_size {C}. Arguments iv_size {C}. Arguments make_encrypt {C}. Arguments make_decrypt {C}.

Record mac_algorithm (M : Type) := mkMac { mac_key_size : Z; make_mac : bytes -> M }.
Arguments mkMac {M}. Arguments mac_key_size {M}. Arguments make_mac {M}.

Record compress_algorithm (P : Type) := mkCompress { make_deflate : P; make_inflate : P }.
Arguments mkCompress {P}. Arguments make_deflate {P}. Arguments make_inflate {P}.

(** [struct keyexchange_algorithm] *)
Inductive keyexchange_algorithm := dh_client_exchange (G : abstract_group) | dh_server_exchange (G : abstract_group).

(** What an [alist] of algorithms holds. *)
Inductive algorithm (C M P : Type) :=
  | ACrypto (a : crypto_algorithm C) | AMac (a : mac_algorithm M) | ACompress (a : compress_algorithm P) | AKex (a : keyexchange_algorithm).
Arguments ACrypto {C M P}. Arguments AMac {C M P}. Arguments ACompress {C M P}. Arguments AKex {C M P}.

(** The chosen algorithms in the order of the [KEX_*] numbers; [None] stands
    for the null pointer of an algorithm that is not in the list. *)
Definition object_list (C M P : Type) := list (option (algorithm C M P)).

(** [struct keypair]: the public key and what the private key signs. *)
Record keypair := mkKeypair { public : bytes; private : Z -> bytes -> bytes }.

(** The argument of [KEYEXCHANGE_INIT]: the lookup of a verifier for the host
    key of the server, or the host keys by their algorithm. *)
Inductive extra_object :=
  | lookup_verifier (f : Z -> bytes -> option (Z -> bytes -> bytes -> bool))
  | host_keys (f : Z -> option keypair).

(** [struct dh_instance], with its group. *)
Record dh_instance (H : Type) := mkDh {
  dh_group : abstract_group; dh_e : Z; dh_f : Z; dh_secret : Z; dh_K : bytes; dh_hash : H; exchange_hash : bytes
}.
Arguments mkDh {H}. Arguments dh_group {H}. Arguments dh_e {H}. Arguments dh_f {H}. Arguments dh_secret {H}.
Arguments dh_K {H}. Arguments dh_hash {H}. Arguments exchange_hash {H}.

(** The closures of the packet handlers. *)
Record kexinit_closure (C M P : Type) := mkClosure { init : simple_kexinit; extra : extra_object; algorithms : Z -> option (algorithm C M P) }.
Arguments mkClosure {C M P}. Arguments init {C M P}. Arguments extra {C M P}. Arguments algorithms {C M P}.

Record dh_client (C M P H : Type) := mkDhClient {
  c_dh : dh_instance H; c_hostkey_algorithm : Z; verifier : Z -> bytes -> option (Z -> bytes -> bytes -> bool); c_algorithms : object_list C M P
}.
Arguments mkDhClient {C M P H}. Arguments c_dh {C M P H}. Arguments c_hostkey_algorithm {C M P H}. Arguments verifier {C M P H}. Arguments c_algorithms {C M P H}.

Record dh_server (C M P H : Type) := mkDhServer {
  s_dh : dh_instance H; s_hostkey_algorithm : Z; server_key : bytes; signer : Z -> bytes -> bytes; s_algorithms : object_list C M P
}.
Arguments mkDhServer {C M P H}. Arguments s_dh {C M P H}. Arguments s_hostkey_algorithm {C M P H}. Arguments server_key {C M P H}.
Arguments signer {C M P H}. Arguments s_algorithms {C M P H}.

(** The entries of the dispatch table; [NULL] is the null pointer and
    [service_handler] a handler of the services of the rest of the program. *)
Inductive packet_handler (C M P H : Type) :=
  | NULL
  | connection_unimplemented_handler | connection_fail_handler | connection_ignore_handler | connection_debug_handler
  | disconnect_handler
  | kexinit_handler (c : kexinit_closure C M P)
  | newkeys_handler (crypto : C) (mac : option M) (compression : option P)
  | dh_reply_handler (c : dh_client C M P H)
  | dh_init_handler (c : dh_server C M P H)
  | service_handler (n : Z).
Arguments NULL {C M P H}. Arguments connection_unimplemented_handler {C M P H}. Arguments connection_fail_handler {C M P H}.
Arguments connection_ignore_handler {C M P H}. Arguments connection_debug_handler {C M P H}. Arguments disconnect_handler {C M P H}.
Arguments kexinit_handler {C M P H}. Arguments newkeys_handler {C M P H}. Arguments dh_reply_handler {C M P H}.
Arguments dh_init_handler {C M P H}. Arguments service_handler {C M P H}.

(** What happens outside: packets to the peer, the end of reading or of the
    connection, the continuation of a connection that is established, the
    packets that are handed to their handlers, those of the services, and the
    moments when new keys are taken. *)
Inductive effect :=
  | Wrote (packet : bytes)
  | FinishRead
  | FinishIO
  | PauseRead
  | StartRead
  | Established
  | Handling (packet : bytes)
  | Service (n : Z) (packet : bytes)
  | Debugged (msg : bytes)
  | SendKeys
  | RecKeys.

(** [struct ssh_connection], with the number of times the source of randomness
    was asked and the trace of what happened. *)
Record ssh_connection (C M P H : Type) := mkConnection {
  flags : Z;
  versions : two (option bytes);
  session_id : option bytes;
  peer_flags : Z;
  rec_max_packet : Z;
  rec_crypto : option C;
  rec_mac : option M;
  rec_compress : option P;
  send_crypto : option C;
  send_mac : option M;
  send_compress : option P;
  paused : bool;
  pending : list (Z * bytes);
  kex_state : Z;
  established : bool;
  kexinits : two (option kexinit);
  literal_kexinits : two (option bytes);
  dispatch : Z -> packet_handler C M P H;
  draws : Z;
  trace : list effect
}.
Arguments mkConnection {C M P H}.
Arguments flags {C M P H}.
Arguments versions {C M P H}.
Arguments session_id {C M P H}.
Arguments peer_flags {C M P H}.
Arguments rec_max_packet {C M P H}.
Arguments rec_crypto {C M P H}.
Arguments rec_mac {C M P H}.
Arguments rec_compress {C M P H}.
Arguments send_crypto {C M P H}.
Arguments send_mac {C M P H}.
Arguments send_compress {C M P H}.
Arguments paused {C M P H}.
Arguments pending {C M P H}.
Arguments kex_state {C M P H}.
Arguments established {C M P H}.
Arguments kexinits {C M P H}.
Arguments literal_kexinits {C M P H}.
Arguments dispatch {C M P H}.
Arguments draws {C M P H}.
Arguments trace {C M P H}.

#[export] Instance set_flags {C M P H} : Setter (@flags C M P H) := fun f x => mkConnection (f (flags x)) (versions x) (session_id x) (peer_flags x) (rec_max_packet x) (rec_crypto x) (rec_mac x) (rec_compress x) (send_crypto x) (send_mac x) (send_compress x) (paused x) (pending x) (kex_state x) (established x) (kexinits x) (literal_kexinits x) (dispatch x) (draws x) (trace x).
#[export] Instance set_versions {C M P H} : Setter (@versions C M P H) := fun f x => mkConnection (flags x) (f (versions x)) (session_id x) (peer_flags x) (rec_max_packet x) (rec_crypto x) (rec_mac x) (rec_compress x) (send_crypto x) (send_mac x) (send_compress x) (paused x) (pending x) (kex_state x) (established x) (kexinits x) (literal_kexinits x) (dispatch x) (draws x) (trace x).
#[export] Instance set_session_id {C M P H} : Setter (@session_id C M P H) := fun f x => mkConnection (flags x) (versions x) (f (session_id x)) (peer_flags x) (rec_max_packet x) (rec_crypto x) (rec_mac x) (rec_compress x) (send_crypto x) (send_mac x) (send_compress x) (paused x) (pending x) (kex_state x) (established x) (kexinits x) (literal_kexinits x) (dispatch x) (draws x) (trace x).
#[export] Instance set_peer_flags {C M P H} : Setter (@peer_flags C M P H) := fun f x => mkConnection (flags x) (versions x) (session_id x) (f (peer_flags x)) (rec_max_packet x) (rec_crypto x) (rec_mac x) (rec_compress x) (send_crypto x) (send_mac x) (send_compress x) (paused x) (pending x) (kex_state x) (established x) (kexinits x) (literal_kexinits x) (dispatch x) (draws x) (trace x).
#[export] Instance set_rec_max_packet {C M P H} : Setter (@rec_max_packet C M P H) := fun f x => mkConnection (flags x) (versions x) (session_id x) (peer_flags x) (f (rec_max_packet x)) (rec_crypto x) (rec_mac x) (rec_compress x) (send_crypto x) (send_mac x) (send_compress x) (paused x) (pending x) (kex_state x) (established x) (kexinits x) (literal_kexinits x) (dispatch x) (draws x) (trace x).
#[export] Instance set_rec_crypto {C M P H} : Setter (@rec_crypto C M P H) := fun f x => mkConnection (flags x) (versions x) (session_id x) (peer_flags x) (rec_max_packet x) (f (rec_crypto x)) (rec_mac x) (rec_compress x) (send_crypto x) (send_mac x) (send_compress x) (paused x) (pending x) (kex_state x) (established x) (kexinits x) (literal_kexinits x) (dispatch x) (draws x) (trace x).
#[export] Instance set_rec_mac {C M P H} : Setter (@rec_mac C M P H) := fun f x => mkConnection (flags x) (versions x) (session_id x) (peer_flags x) (rec_max_packet x) (rec_crypto x) (f (rec_mac x)) (rec_compress x) (send_crypto x) (send_mac x) (send_compress x) (paused x) (pending x) (kex_state x) (established x) (kexinits x) (literal_kexinits x) (dispatch x) (draws x) (trace x).
#[export] Instance set_rec_compress {C M P H} : Setter (@rec_compress C M P H) := fun f x => mkConnection (flags x) (versions x) (session_id x) (peer_flags x) (rec_max_packet x) (rec_crypto x) (rec_mac x) (f (rec_compress x)) (send_crypto x) (send_mac x) (send_compress x) (paused x) (pending x) (kex_state x) (established x) (kexinits x) (literal_kexinits x) (dispatch x) (draws x) (trace x).
#[export] Instance set_send_crypto {C M P H} : Setter (@send_crypto C M P H) := fun f x => mkConnection (flags x) (versions x) (session_id x) (peer_flags x) (rec_max_packet x) (rec_crypto x) (rec_mac x) (rec_compress x) (f (send_crypto x)) (send_mac x) (send_compress x) (paused x) (pending x) (kex_state x) (established x) (kexinits x) (literal_kexinits x) (dispatch x) (draws x) (trace x).
#[export] Instance set_send_mac {C M P H} : Setter (@send_mac C M P H) := fun f x => mkConnection (flags x) (versions x) (session_id x) (peer_flags x) (rec_max_packet x) (rec_crypto x) (rec_mac x) (rec_compress x) (send_crypto x) (f (send_mac x)) (send_compress x) (paused x) (pending x) (kex_state x) (established x) (kexinits x) (literal_kexinits x) (dispatch x) (draws x) (trace x).
#[export] Instance set_send_compress {C M P H} : Setter (@send_compress C M P H) := fun f x => mkConnection (flags x) (versions x) (session_id x) (peer_flags x) (rec_max_packet x) (rec_crypto x) (rec_mac x) (rec_compress x) (send_crypto x) (send_mac x) (f (send_compress x)) (paused x) (pending x) (kex_state x) (established x) (kexinits x) (literal_kexinits x) (dispatch x) (draws x) (trace x).
#[export] Instance set_paused {C M P H} : Setter (@paused C M P H) := fun f x => mkConnection (flags x) (versions x) (session_id x) (peer_flags x) (rec_max_packet x) (rec_crypto x) (rec_mac x) (rec_compress x) (send_crypto x) (send_mac x) (send_compress x) (f (paused x)) (pending x) (kex_state x) (established x) (kexinits x) (literal_kexinits x) (dispatch x) (draws x) (trace x).
#[export] Instance set_pending {C M P H} : Setter (@pending C M P H) := fun f x => mkConnection (flags x) (versions x) (session_id x) (peer_flags x) (rec_max_packet x) (rec_crypto x) (rec_mac x) (rec_compress x) (send_crypto x) (send_mac x) (send_compress x) (paused x) (f (pending x)) (kex_state x) (established x) (kexinits x) (literal_kexinits x) (dispatch x) (draws x) (trace x).
#[export] Instance set_kex_state {C M P H} : Setter (@kex_state C M P H) := fun f x => mkConnection (flags x) (versions x) (session_id x) (peer_flags x) (rec_max_packet x) (rec_crypto x) (rec_mac x) (rec_compress x) (send_crypto x) (send_mac x) (send_compress x) (paused x) (pending x) (f (kex_state x)) (established x) (kexinits x) (literal_kexinits x) (dispatch x) (draws x) (trace x).
#[export] Instance set_established {C M P H} : Setter (@established C M P H) := fun f x => mkConnection (flags x) (versions x) (session_id x) (peer_flags x) (rec_max_packet x) (rec_crypto x) (rec_mac x) (rec_compress x) (send_crypto x) (send_mac x) (send_compress x) (paused x) (pending x) (kex_state x) (f (established x)) (kexinits x) (literal_kexinits x) (dispatch x) (draws x) (trace x).
#[export] Instance set_kexinits {C M P H} : Setter (@kexinits C M P H) := fun f x => mkConnection (flags x) (versions x) (session_id x) (peer_flags x) (rec_max_packet x) (rec_crypto x) (rec_mac x) (rec_compress x) (send_crypto x) (send_mac x) (send_compress x) (paused x) (pending x) (kex_state x) (established x) (f (kexinits x)) (literal_kexinits x) (dispatch x) (draws x) (trace x).
#[export] Instance set_literal_kexinits {C M P H} : Setter (@literal_kexinits C M P H) := fun f x => mkConnection (flags x) (versions x) (session_id x) (peer_flags x) (rec_max_packet x) (rec_crypto x) (rec_mac x) (rec_compress x) (send_crypto x) (send_mac x) (send_compress x) (paused x) (pending x) (kex_state x) (established x) (kexinits x) (f (literal_kexinits x)) (dispatch x) (draws x) (trace x).
#[export] Instance set_dispatch {C M P H} : Setter (@dispatch C M P H) := fun f x => mkConnection (flags x) (versions x) (session_id x) (peer_flags x) (rec_max_packet x) (rec_crypto x) (rec_mac x) (rec_compress x) (send_crypto x) (send_mac x) (send_compress x) (paused x) (pending x) (kex_state x) (established x) (kexinits x) (literal_kexinits x) (f (dispatch x)) (draws x) (trace x).
#[export] Instance set_draws {C M P H} : Setter (@draws C M P H) := fun f x => mkConnection (flags x) (versions x) (session_id x) (peer_flags x) (rec_max_packet x) (rec_crypto x) (rec_mac x) (rec_compress x) (send_crypto x) (send_mac x) (send_compress x) (paused x) (pending x) (kex_state x) (established x) (kexinits x) (literal_kexinits x) (dispatch x) (f (draws x)) (trace x).
#[export] Instance set_trace {C M P H} : Setter (@trace C M P H) := fun f x => mkConnection (flags x) (versions x) (session_id x) (peer_flags x) (rec_max_packet x) (rec_crypto x) (rec_mac x) (rec_compress x) (send_crypto x) (send_mac x) (send_compress x) (paused x) (pending x) (kex_state x) (established x) (kexinits x) (literal_kexinits x) (dispatch x) (draws x) (f (trace x)).

(** ** Groups (publickey_crypto.c) *)

(** The integers modulo [p], as [make_group_zn] sets them up. *)
Definition make_group_zn (p g order : Z) : abstract_group :=
  mkGroup order g (fun x => (Z.sgn x =? 1) && (x <? p)) (fun b e => Zpow_mod b e p).

Definition ssh_group1_prime : Z :=
  0xFFFFFFFFFFFFFFFFC90FDAA22168C234C4C6628B80DC1CD129024E088A67CC74020BBEA63B139B22514A08798E3404DDEF9519B3CD3A431B302B0A6DF25F14374FE1356D6D51C245E485B576625E7EC6F44C42E9A637ED6B0BFF5CB6F406B7EDEE386BFB5A899FA5AE9F24117C4B1FE649286651ECE65381FFFFFFFFFFFFFFFF.
Definition make_ssh_group1 : abstract_group := make_group_zn ssh_group1_prime 2 (Z.shiftr (ssh_group1_prime - 1) 1).

(** ** The messages of a key exchange *)

Fixpoint parse_lists (n : nat) : Parser (list (list Z)) :=
  match n with
  | O => mret []
  | S n => l ← parse_atom_list KEXINIT_MAX_ALGORITMS; ls ← parse_lists n; mret (l :: ls)
  end.

Definition must (b : bool) : Parser unit := if b then mret tt else reject.

Definition parse_kexinit_packet : Parser kexinit :=
  msg_number ← parse_uint8; _ ← must (msg_number =? SSH_MSG_KEXINIT);
  cookie ← parse_octets 16;
  lists ← parse_lists (Z.to_nat NLISTS);
  follows ← parse_boolean;
  reserved ← parse_uint32; _ ← must (reserved =? 0);
  eod ← parse_eod; _ ← must eod;
  let list i := nth i lists [] in
  mret (mkKexinit cookie (list 0%nat) (list 1%nat) (take 6 (drop 2 lists)) (list 8%nat) (list 9%nat) follows None).

(** A packet taken apart by a parser; [None] if it does not match. *)
Definition parse_with {A} (p : Parser A) (packet : bytes) : outcome (option A) :=
  match p (simple_buffer_init (zlen packet) packet) with
  | (Done a, _) => Done (Some a)
  | (Reject, _) => Done None
  | (Crash x, _) => Crash x
  end.

Definition parse_kexinit (packet : bytes) : outcome (option kexinit) := parse_with parse_kexinit_packet packet.

Definition parameter (i : Z) (k : kexinit) : list Z := nth (Z.to_nat i) (parameters k) [].

Definition format_kex (k : kexinit) : outcome bytes :=
  ssh_format "%c%ls%A%A%A%A%A%A%A%A%A%A%c%i"
    [VWord SSH_MSG_KEXINIT; VWord 16; VData (cookie k); VList (kex_algorithms k); VList (server_hostkey_algorithms k);
     VList (parameter KEX_ENCRYPTION_CLIENT_TO_SERVER k); VList (parameter KEX_ENCRYPTION_SERVER_TO_CLIENT k);
     VList (parameter KEX_MAC_CLIENT_TO_SERVER k); VList (parameter KEX_MAC_SERVER_TO_CLIENT k);
     VList (parameter KEX_COMPRESSION_CLIENT_TO_SERVER k); VList (parameter KEX_COMPRESSION_SERVER_TO_CLIENT k);
     VList (languages_client_to_server k); VList (languages_server_to_client k); VWord (first_kex_packet_follows k); VWord 0].

(** [do_make_simple_kexinit], with the cookie it draws. *)
Definition do_make_simple_kexinit (s : simple_kexinit) (cookie : bytes) : kexinit :=
  mkKexinit cookie (s_kex_algorithms s) (s_hostkey_algorithms s)
    [s_crypto_algorithms s; s_crypto_algorithms s; s_mac_algorithms s; s_mac_algorithms s; s_compression_algorithms s; s_compression_algorithms s]
    (s_languages s) (s_languages s) 0 None.

(** The first algorithm of the client that the server has, too; 0 if there is
    none. *)
Fixpoint select_algorithm (client_list server_list : list Z) : Z :=
  match client_list with
  | [] => 0
  | a :: client_list =>
    if a =? 0 then select_algorithm client_list server_list
    else if bool_decide (a ∈ server_list) then a
    else select_algorithm client_list server_list
  end.

(** [filter_algorithms] (algorithms.c): a list that is not empty, or nothing. *)
Definition filter_algorithms {A} (supported : Z -> option A) (candidates : list Z) : option (list Z) :=
  match filter (fun atom => is_Some (supported atom) \/ atom = ATOM_NONE) candidates with [] => None | l => Some l end.

(** [do_kexinit_filter]: only host key algorithms that have a key. *)
Definition kexinit_filter {A} (keys : Z -> option A) (s : simple_kexinit) : simple_kexinit :=
  mkSimple (s_kex_algorithms s) (default [ATOM_NONE] (filter_algorithms keys (s_hostkey_algorithms s)))
    (s_crypto_algorithms s) (s_mac_algorithms s) (s_compression_algorithms s) (s_languages s).


(** ** Session keys *)

Definition IV_TYPE (t : Z) : Z := t + 4.
Definition tags : bytes := bytes_of_string "CDEFAB".

Section Hashes.
Context {H : Type} `{HashAlgorithm H}.

(** The loop of [kex_make_key] over digests that are all used up; [fuel] counts
    the octets that are left. *)
Fixpoint expand_key (fuel : nat) (left : Z) (hash : H) (digest : bytes) : outcome bytes :=
  match fuel with
  | O => Crash Hang
  | S fuel =>
    let left := left - hash_size in
    hash ← hash_update hash digest;
    if left <=? hash_size then
      '(_, last) ← hash_digest hash;
      Done (digest ++ take (Z.to_nat left) last)
    else
      '(_, next) ← hash_digest hash;
      rest ← expand_key fuel left hash next;
      Done (digest ++ rest)
  end.

Definition kex_make_key (secret : H) (key_length type : Z) (session_id : bytes) : outcome bytes :=
  if key_length =? 0 then Done [] else
  hash ← hash_update secret [nth (Z.to_nat type) tags 0];
  hash ← hash_update hash session_id;
  '(_, digest) ← hash_digest hash;
  if key_length <=? hash_size then Done (take (Z.to_nat key_length) digest)
  else expand_key (Z.to_nat key_length) key_length secret digest.

Definition kex_build_secret (exchange_hash K : bytes) : outcome H :=
  s ← ssh_format "%S%lS" [VString K; VString exchange_hash];
  hash_update make_hash s.

Section Algorithms.
Context {C M P : Type}.

(** The algorithm at a place of the list, with the cast to its class. *)
Definition algorithm_at (l : object_list C M P) (type : Z) : outcome (option (algorithm C M P)) :=
  match l !! Z.to_nat type with Some a => Done a | None => Crash OutOfBounds end.

(** Both keys of a cipher, and what [make] makes of them. *)
Definition kex_make_crypt (make : crypto_algorithm C -> bytes -> option bytes -> option C)
    (secret : H) (l : object_list C M P) (type : Z) (session_id : bytes) : outcome (option C) :=
  _ ← assert_that (zlen l =? KEX_PARAMETERS);
  a ← algorithm_at l type;
  match a with
  | None => Done None
  | Some (ACrypto a) =>
    key ← kex_make_key secret (crypto_key_size a) type session_id;
    iv ← (if iv_size a =? 0 then Done None else iv ← kex_make_key secret (iv_size a) (IV_TYPE type) session_id; Done (Some iv));
    Done (make a key iv)
  | Some _ => Crash FatalError
  end.

Definition kex_make_encrypt : H -> object_list C M P -> Z -> bytes -> outcome (option C) := kex_make_crypt make_encrypt.
Definition kex_make_decrypt : H -> object_list C M P -> Z -> bytes -> outcome (option C) := kex_make_crypt make_decrypt.

Definition kex_make_mac (secret : H) (l : object_list C M P) (type : Z) (session_id : bytes) : outcome (option M) :=
  _ ← assert_that (zlen l =? KEX_PARAMETERS);
  a ← algorithm_at l type;
  match a with
  | None => Done None
  | Some (AMac a) => key ← kex_make_key secret (mac_key_size a) type session_id; Done (Some (make_mac a key))
  | Some _ => Crash FatalError
  end.

Definition kex_make_compress (make : compress_algorithm P -> P) (l : object_list C M P) (type : Z) : outcome (option P) :=
  a ← algorithm_at l type;
  match a with None => Done None | Some (ACompress a) => Done (Some (make a)) | Some _ => Crash FatalError end.

Definition kex_make_deflate : object_list C M P -> Z -> outcome (option P) := kex_make_compress make_deflate.
Definition kex_make_inflate : object_list C M P -> Z -> outcome (option P) := kex_make_compress make_inflate.

(** ** The connection *)

(** The source of randomness ([RANDOM], by the number of the request and the
    length), whether verbose messages are sent, whether a handler of the
    services locks the connection for a packet, and what a field that is not
    initialised holds. *)
Context (RANDOM : Z -> Z -> bytes) (verbose_flag : bool) (locks : Z -> bytes -> bool) (uninitialised : Z).

Notation connection := (ssh_connection C M P H).

Definition note (x : effect) (c : connection) : connection := c <| trace := trace c ++ [x] |>.

Definition C_WRITE (packet : outcome bytes) (c : connection) : outcome connection :=
  packet ← packet; Done (note (Wrote packet) c).

(** The messages of [make_protocol_exception]. *)
Definition messages : list string :=
  [EmptyString; "Host not allowed to connect"; "Protocol error"; "Key exchange failed"; "Host authentication failed"; "MAC error"; "Compression error";
   "Service not available"; "Protocol version not supported"; "Host key not verifiable"; "Connection lost"; "By application"; "Too many connections";
   "Auth cancelled by user"; "No more auth methods available"; "Illegal user name"]%string.

(** Raising a protocol exception on a connection ([do_exc_connection_handler]). *)
Definition raise_protocol (reason : Z) (msg : option string) (c : connection) : outcome connection :=
  _ ← assert_that (reason <=? 15);
  _ ← assert_that (negb (reason =? SSH_DISCONNECT_RESERVED));
  let msg := default (nth (Z.to_nat reason) messages EmptyString) msg in
  c ← (if reason =? 0 then Done c else C_WRITE (Channel.Channel.DISCONNECT_format reason (bytes_of_string msg)) c);
  Done (note FinishRead c).

Definition PROTOCOL_ERROR (msg : option string) : connection -> outcome connection := raise_protocol SSH_DISCONNECT_PROTOCOL_ERROR msg.
Definition disconnect_kex_failed (msg : string) : connection -> outcome connection := raise_protocol SSH_DISCONNECT_KEY_EXCHANGE_FAILED (Some msg).

Definition mode (c : connection) : Z := Z.land (flags c) CONNECTION_MODE.

Definition has_flag (f x : Z) : bool := negb (Z.land x f =? 0).

(** [RANDOM] *)
Definition random (n : Z) (c : connection) : bytes * connection := (RANDOM (draws c) n, c <| draws := draws c + 1 |>).

Definition install (msg : Z) (h : packet_handler C M P H) (c : connection) : connection :=
  c <| dispatch := fun m => if m =? msg then h else dispatch c m |>.

(** A pointer of the connection that is followed. *)
Definition deref {A} (o : option A) : outcome A := match o with Some a => Done a | None => Crash NullDeref end.

Definition initiate_keyexchange (c : connection) : outcome connection :=
  kex ← deref (at_mode (mode c) (kexinits c));
  _ ← assert_that (first_kex_packet_follows kex =? (if first_kex_packet kex then 1 else 0));
  _ ← assert_that (kex_state c =? KEX_STATE_INIT);
  s ← format_kex kex;
  c ← C_WRITE (Done s) (c <| literal_kexinits := set_mode (mode c) (Some s) (literal_kexinits c) |>);
  if first_kex_packet_follows kex =? 0 then Done c
  else
    first ← deref (first_kex_packet kex);
    let kex := mkKexinit (cookie kex) (kex_algorithms kex) (server_hostkey_algorithms kex) (parameters kex)
      (languages_client_to_server kex) (languages_server_to_client kex) (first_kex_packet_follows kex) None in
    C_WRITE (Done first) (c <| kexinits := set_mode (mode c) (Some kex) (kexinits c) |>).

(** ** Diffie-Hellman (dh_exchange.c) *)

Definition init_dh_instance (G : abstract_group) (c : connection) : outcome (dh_instance H) :=
  vc ← deref (of_client (versions c)); vs ← deref (of_server (versions c));
  ic ← deref (of_client (literal_kexinits c)); sc ← deref (of_server (literal_kexinits c));
  s ← ssh_format "%S%S%S%S" [VString vc; VString vs; VString ic; VString sc];
  hash ← hash_update make_hash s;
  Done (mkDh G 0 0 0 [] hash []).

(** The secret exponent and the power of the generator. *)
Definition dh_generate_secret (G : abstract_group) (c : connection) : Z * Z * connection :=
  let n := order G - 1 in
  let '(data, c) := random ((mpz_sizeinbase2 n + 10 + 7) / 8) c in
  let r := bignum_random n data + 1 in
  (r, power G (generator G) r, c).

Definition dh_hash_update (s : outcome bytes) (self : dh_instance H) : outcome (dh_instance H) :=
  s ← s; hash ← hash_update (dh_hash self) s;
  Done (mkDh (dh_group self) (dh_e self) (dh_f self) (dh_secret self) (dh_K self) hash (exchange_hash self)).

Definition dh_hash_digest (self : dh_instance H) : outcome (dh_instance H) :=
  self ← dh_hash_update (ssh_format "%n%n%S" [VNum (dh_e self); VNum (dh_f self); VString (dh_K self)]) self;
  '(hash, digest) ← hash_digest (dh_hash self);
  Done (mkDh (dh_group self) (dh_e self) (dh_f self) (dh_secret self) (dh_K self) hash digest).

Definition dh_make_client_msg (self : dh_instance H) (c : connection) : outcome (dh_instance H * bytes * connection) :=
  let '(secret, e, c) := dh_generate_secret (dh_group self) c in
  msg ← ssh_format "%c%n" [VWord SSH_MSG_KEXDH_INIT; VNum e];
  Done (mkDh (dh_group self) e (dh_f self) secret (dh_K self) (dh_hash self) (exchange_hash self), msg, c).

(** A group element a peer may send. *)
Definition acceptable (G : abstract_group) (x : Z) : bool := (1 <? x) && range G x.

Definition parse_client_msg (G : abstract_group) : Parser Z :=
  msg_number ← parse_uint8; _ ← must (msg_number =? SSH_MSG_KEXDH_INIT);
  e ← parse_bignum 0; _ ← must (acceptable G e);
  eod ← parse_eod; _ ← must eod; mret e.

Definition dh_process_client_msg (self : dh_instance H) (packet : bytes) : outcome (option (dh_instance H)) :=
  e ← parse_with (parse_client_msg (dh_group self)) packet;
  match e with
  | None => Done None
  | Some e =>
    K ← ssh_format "%ln" [VNum (power (dh_group self) e (dh_secret self))];
    Done (Some (mkDh (dh_group self) e (dh_f self) (dh_secret self) K (dh_hash self) (exchange_hash self)))
  end.

Definition dh_make_server_secret (self : dh_instance H) (c : connection) : dh_instance H * connection :=
  let '(secret, f, c) := dh_generate_secret (dh_group self) c in
  (mkDh (dh_group self) (dh_e self) f secret (dh_K self) (dh_hash self) (exchange_hash self), c).

Definition dh_make_server_msg (self : dh_instance H) (server_key : bytes) (sign : bytes -> bytes) : outcome (dh_instance H * bytes) :=
  self ← dh_hash_update (ssh_format "%S" [VString server_key]) self;
  self ← dh_hash_digest self;
  msg ← ssh_format "%c%S%n%fS" [VWord SSH_MSG_KEXDH_REPLY; VString server_key; VNum (dh_f self); VString (sign (exchange_hash self))];
  Done (self, msg).

Definition parse_server_msg (G : abstract_group) : Parser (bytes * Z * bytes) :=
  msg_number ← parse_uint8; _ ← must (msg_number =? SSH_MSG_KEXDH_REPLY);
  key ← parse_string_copy;
  f ← parse_bignum 0; _ ← must (acceptable G f);
  s ← parse_string_copy;
  eod ← parse_eod; _ ← must eod; mret (key, f, s).

(** The host key and the signature. *)
Definition dh_process_server_msg (self : dh_instance H) (packet : bytes) : outcome (option (dh_instance H * bytes * bytes)) :=
  r ← parse_with (parse_server_msg (dh_group self)) packet;
  match r with
  | None => Done None
  | Some (key, f, s) =>
    K ← ssh_format "%ln" [VNum (power (dh_group self) f (dh_secret self))];
    self ← dh_hash_update (ssh_format "%S" [VString key])
      (mkDh (dh_group self) (dh_e self) f (dh_secret self) K (dh_hash self) (exchange_hash self));
    self ← dh_hash_digest self;
    Done (Some (self, key, s))
  end.

(** ** The end of a key exchange *)

(** The number of a direction seen from this end ([^ is_server]). *)
Definition from_here (type : Z) (c : connection) : Z := Z.lxor type (Z.land (flags c) CONNECTION_SERVER).

(** Whether the keys could be made. *)
Definition install_keys (l : object_list C M P) (secret : H) (c : connection) : outcome (bool * connection) :=
  session ← deref (session_id c);
  rec ← kex_make_decrypt secret l (from_here KEX_ENCRYPTION_SERVER_TO_CLIENT c) session;
  match rec with
  | None => Done (false, c)
  | Some rec =>
    send ← kex_make_encrypt secret l (from_here KEX_ENCRYPTION_CLIENT_TO_SERVER c) session;
    match send with
    | None => Done (false, c)
    | Some send =>
      rmac ← kex_make_mac secret l (from_here KEX_MAC_SERVER_TO_CLIENT c) session;
      inflate ← kex_make_inflate l (from_here KEX_COMPRESSION_SERVER_TO_CLIENT c);
      let c := install SSH_MSG_NEWKEYS (newkeys_handler rec rmac inflate) c in
      smac ← kex_make_mac secret l (from_here KEX_MAC_CLIENT_TO_SERVER c) session;
      deflate ← kex_make_deflate l (from_here KEX_COMPRESSION_CLIENT_TO_SERVER c);
      Done (true, note SendKeys (c <| send_crypto := Some send |> <| send_mac := smac |> <| send_compress := deflate |>))
    end
  end.

Definition send_verbose (msg : string) (c : connection) : outcome connection :=
  if verbose_flag then C_WRITE (ssh_format "%c%c%z%z" [VWord SSH_MSG_DEBUG; VWord 0; VCstr (bytes_of_string msg); VCstr []]) c else Done c.

Definition keyexchange_finish (l : object_list C M P) (hash K : bytes) (c : connection) : outcome connection :=
  c ← C_WRITE (ssh_format "%c" [VWord SSH_MSG_NEWKEYS]) c;
  secret ← kex_build_secret hash K;
  let c := match session_id c with None => c <| session_id := Some hash |> | Some _ => c end in
  '(ok, c) ← install_keys l secret c;
  if negb ok then PROTOCOL_ERROR (Some "Refusing to use weak key."%string) c
  else
    let c := c <| kex_state := KEX_STATE_NEWKEYS |> in
    c ← (if has_flag PEER_SEND_NO_DEBUG (peer_flags c) then Done c else send_verbose "Key exchange successful!" c);
    Done (if established c then note Established (c <| established := false |>) else c).

(** ** The Diffie-Hellman handlers *)

Definition do_init_client_dh (G : abstract_group) (hostkey_algorithm_atom : Z) (extra : extra_object) (l : object_list C M P) (c : connection)
    : outcome connection :=
  match extra with
  | host_keys _ => Crash FatalError
  | lookup_verifier v =>
    dh ← init_dh_instance G c;
    '(dh, msg, c) ← dh_make_client_msg dh c;
    c ← C_WRITE (Done msg) c;
    Done (install SSH_MSG_KEXDH_REPLY (dh_reply_handler (mkDhClient dh hostkey_algorithm_atom v l)) c)
  end.

(** The algorithm of a signature, with the workaround for the encoding of DSA
    signatures. *)
Definition signature_algorithm (atom : Z) (c : connection) : Z :=
  if (atom =? ATOM_SSH_DSS) && has_flag PEER_SSH_DSS_KLUDGE (peer_flags c) then ATOM_SSH_DSS_KLUDGE_LOCAL else atom.

Definition crlf : string := String (Ascii.ascii_of_nat 13) (String (Ascii.ascii_of_nat 10) EmptyString).

(** The handler works on the exchange in its own object, which the dispatch
    table holds: what it hashed stays there when the reply is refused. *)
Definition do_handle_dh_reply (self : dh_client C M P H) (packet : bytes) (c : connection) : outcome connection :=
  r ← dh_process_server_msg (c_dh self) packet;
  match r with
  | None => disconnect_kex_failed ("Bad dh-reply" ++ crlf) c
  | Some (dh, key, signature) =>
    let c := install SSH_MSG_KEXDH_REPLY (dh_reply_handler (mkDhClient dh (c_hostkey_algorithm self) (verifier self) (c_algorithms self))) c in
    match verifier self (c_hostkey_algorithm self) key with
    | None => disconnect_kex_failed ("Bad server host key" ++ crlf) c
    | Some verify =>
      if negb (verify (signature_algorithm (c_hostkey_algorithm self) c) (exchange_hash dh) signature) then
        disconnect_kex_failed ("Invalid server signature" ++ crlf) c
      else
        keyexchange_finish (c_algorithms self) (exchange_hash dh) (dh_K dh) (install SSH_MSG_KEXDH_REPLY connection_fail_handler c)
    end
  end.

(** With the workaround the argument is changed instead of the field, which is
    then not initialised. *)
Definition do_init_server_dh (G : abstract_group) (hostkey_algorithm : Z) (extra : extra_object) (l : object_list C M P) (c : connection)
    : outcome connection :=
  match extra with
  | lookup_verifier _ => Crash FatalError
  | host_keys keys =>
    match keys hostkey_algorithm with
    | None => disconnect_kex_failed "Configuration error" c
    | Some key =>
      dh ← init_dh_instance G c;
      let field := if signature_algorithm hostkey_algorithm c =? hostkey_algorithm then hostkey_algorithm else uninitialised in
      let '(dh, c) := dh_make_server_secret dh c in
      Done (install SSH_MSG_KEXDH_INIT (dh_init_handler (mkDhServer dh field (public key) (private key) l)) c)
    end
  end.

Definition do_handle_dh_init (self : dh_server C M P H) (packet : bytes) (c : connection) : outcome connection :=
  r ← dh_process_client_msg (s_dh self) packet;
  match r with
  | None => disconnect_kex_failed ("Bad dh-init" ++ crlf) c
  | Some dh =>
    '(dh, msg) ← dh_make_server_msg dh (server_key self) (signer self (s_hostkey_algorithm self));
    c ← C_WRITE (Done msg) c;
    keyexchange_finish (s_algorithms self) (exchange_hash dh) (dh_K dh) (install SSH_MSG_KEXDH_INIT connection_fail_handler c)
  end.

Definition KEYEXCHANGE_INIT (kex : keyexchange_algorithm) : Z -> extra_object -> object_list C M P -> connection -> outcome connection :=
  match kex with dh_client_exchange G => do_init_client_dh G | dh_server_exchange G => do_init_server_dh G end.

(** ** Negotiation *)

(** [LIST(l)[0]] *)
Definition first_of (l : list Z) : outcome Z := match l with a :: _ => Done a | [] => Crash OutOfBounds end.

(** The algorithms for the six parameters, [None] if one has no common
    algorithm. *)
Definition select_parameters (client server : kexinit) : option (list Z) :=
  let chosen := (fun i => select_algorithm (parameter i client) (parameter i server)) <$> [0; 1; 2; 3; 4; 5] in
  if bool_decide (0 ∈ chosen) then None else Some chosen.

(** Our own message, which is made and sent now if it was not before. *)
Definition own_kexinit (s : simple_kexinit) (c : connection) : outcome (kexinit * connection) :=
  match at_mode (mode c) (kexinits c) with
  | Some k => Done (k, c)
  | None =>
    let '(cookie, c) := random 16 c in
    let sent := do_make_simple_kexinit s cookie in
    packet ← format_kex sent;
    let c := c <| kexinits := set_mode (mode c) (Some sent) (kexinits c) |> <| literal_kexinits := set_mode (mode c) (Some packet) (literal_kexinits c) |> in
    c ← C_WRITE (Done packet) c;
    Done (sent, c)
  end.

Definition do_handle_kexinit (closure : kexinit_closure C M P) (packet : bytes) (c : connection) : outcome connection :=
  msg ← parse_kexinit packet;
  if negb (kex_state c =? KEX_STATE_INIT) then PROTOCOL_ERROR (Some "Unexpected KEXINIT message."%string) c else
  match msg with
  | None => disconnect_kex_failed "Invalid KEXINIT message." c
  | Some msg =>
    if bool_decide (kex_algorithms msg = []) then disconnect_kex_failed "No keyexchange method." c
    else
      let peer := 1 - mode c in
      let c := c <| literal_kexinits := set_mode peer (Some packet) (literal_kexinits c) |> <| kexinits := set_mode peer (Some msg) (kexinits c) |> in
      '(own, c) ← own_kexinit (init closure) c;
      let client := if mode c =? CONNECTION_CLIENT then own else msg in
      let server := if mode c =? CONNECTION_CLIENT then msg else own in
      a ← first_of (kex_algorithms client); b ← first_of (kex_algorithms server);
      let '(kex, c) :=
        if a =? b then (a, c <| kex_state := KEX_STATE_IN_PROGRESS |>)
        else (select_algorithm (kex_algorithms client) (kex_algorithms server),
              if first_kex_packet_follows msg =? 0 then c else c <| kex_state := KEX_STATE_IGNORE |>) in
      if negb (a =? b) && (kex =? 0) then disconnect_kex_failed ("No common key exchange method." ++ crlf) c
      else
        let hostkey := select_algorithm (server_hostkey_algorithms client) (server_hostkey_algorithms server) in
        if hostkey =? 0 then disconnect_kex_failed ("No common hostkey algorithm." ++ crlf) c
        else
          match select_parameters client server with
          | None => disconnect_kex_failed "Algorithm negotiation failed." c
          | Some chosen =>
            match algorithms closure kex with
            | None => Crash NullDeref
            | Some (AKex kex) => KEYEXCHANGE_INIT kex hostkey (extra closure) (algorithms closure <$> chosen) c
            | Some _ => Crash FatalError
            end
          end
  end.

(** ** New keys *)

Definition parse_message (m : Z) : Parser unit := n ← parse_uint8; _ ← must (n =? m); eod ← parse_eod; must eod.

Definition do_handle_newkeys (crypto : C) (mac : option M) (compression : option P) (packet : bytes) (c : connection) : outcome connection :=
  r ← parse_with (parse_message SSH_MSG_NEWKEYS) packet;
  match r with
  | Some _ =>
    Done (note RecKeys (install SSH_MSG_NEWKEYS NULL (c <| rec_crypto := Some crypto |> <| rec_mac := mac |> <| rec_compress := compression |>
      <| kex_state := KEX_STATE_INIT |> <| kexinits := mkTwo None None |> <| literal_kexinits := mkTwo None None |>)))
  | None => PROTOCOL_ERROR (Some "Invalid NEWKEYS message"%string) c
  end.

(** ** Packets (connection.c) *)

Definition parse_debug : Parser (Z * bytes) :=
  msg_number ← parse_uint8; always ← parse_uint8; msg ← parse_string; _ ← parse_atom; eod ← parse_eod; _ ← must eod; mret (always, msg).

Definition do_connection_debug_handler (packet : bytes) (c : connection) : outcome connection :=
  r ← parse_with parse_debug packet;
  match r with
  | None => PROTOCOL_ERROR (Some "Invalid DEBUG message."%string) c
  | Some (_, msg) => Done (note (Debugged msg) c)
  end.

Definition connection_lock (c : connection) : outcome connection :=
  _ ← assert_that (negb (paused c)); Done (note PauseRead (c <| paused := true |>)).
Definition connection_unlock (c : connection) : outcome connection :=
  _ ← assert_that (paused c); Done (note StartRead (c <| paused := false |>)).

(** [HANDLE_PACKET]; a packet carries the sequence number it was received
    under. *)
Definition HANDLE_PACKET (h : packet_handler C M P H) (sequence_number : Z) (packet : bytes) (c : connection) : outcome connection :=
  match h with
  | NULL => Crash NullDeref
  | connection_unimplemented_handler => C_WRITE (ssh_format "%c%i" [VWord SSH_MSG_UNIMPLEMENTED; VWord sequence_number]) c
  | connection_fail_handler => PROTOCOL_ERROR None c
  | connection_ignore_handler => Done c
  | connection_debug_handler => do_connection_debug_handler packet c
  | disconnect_handler => Done (note FinishIO c)
  | kexinit_handler closure => do_handle_kexinit closure packet c
  | newkeys_handler crypto mac compression => do_handle_newkeys crypto mac compression packet c
  | dh_reply_handler self => do_handle_dh_reply self packet c
  | dh_init_handler self => do_handle_dh_init self packet c
  | service_handler n => (if locks n packet then connection_lock else Done) (note (Service n packet) c)
  end.

(** What the state of the key exchange says to a message: handle it, ignore it,
    or refuse it. *)
Inductive verdict := Handle | Ignore | Refuse (msg : string).

Definition gate (kex_state msg : Z) : outcome verdict :=
  if kex_state =? KEX_STATE_INIT then
    Done (if msg =? SSH_MSG_NEWKEYS then Refuse "Unexpected NEWKEYS message!" else Handle)
  else if kex_state =? KEX_STATE_IGNORE then Done Ignore
  else if kex_state =? KEX_STATE_IN_PROGRESS then
    Done (if (msg =? SSH_MSG_NEWKEYS) || (msg =? SSH_MSG_KEXINIT) then Refuse "Unexpected KEXINIT or NEWKEYS message!" else Handle)
  else if kex_state =? KEX_STATE_NEWKEYS then
    Done (if negb ((msg =? SSH_MSG_NEWKEYS) || (msg =? SSH_MSG_DISCONNECT) || (msg =? SSH_MSG_IGNORE) || (msg =? SSH_MSG_DEBUG))
          then Refuse "Expected NEWKEYS message" else Handle)
  else Crash FatalError.

Definition connection_handle_packet (sequence_number : Z) (packet : bytes) (c : connection) : outcome connection :=
  _ ← assert_that (negb (paused c));
  let c := note (Handling packet) c in
  match packet with
  | [] => PROTOCOL_ERROR (Some "Received empty packet."%string) c
  | msg :: _ =>
    if rec_max_packet c <? zlen packet then PROTOCOL_ERROR (Some "Packet too large"%string) c
    else
      v ← gate (kex_state c) msg;
      match v with
      | Refuse why => PROTOCOL_ERROR (Some why) c
      | Ignore => Done (c <| kex_state := KEX_STATE_IN_PROGRESS |>)
      | Handle => HANDLE_PACKET (dispatch c msg) sequence_number packet c
      end
  end.

(** The loop over the packets that wait. *)
Fixpoint handle_pending (n : nat) (c : connection) : outcome connection :=
  match n, pending c with
  | S n, (seq, packet) :: rest =>
    if paused c then Done c
    else c ← connection_handle_packet seq packet (c <| pending := rest |>); handle_pending n c
  | _, _ => Done c
  end.

Definition connection_handle_pending (c : connection) : outcome connection := handle_pending (length (pending c)) c.

Definition do_handle_connection (sequence_number : Z) (packet : bytes) (c : connection) : outcome connection :=
  if paused c then Done (c <| pending := pending c ++ [(sequence_number, packet)] |>)
  else if bool_decide (pending c = []) then connection_handle_packet sequence_number packet c
  else connection_handle_pending (c <| pending := pending c ++ [(sequence_number, packet)] |>).

(** ** Setting up a connection *)

(** The dispatch table of a new connection. *)
Definition fail_messages : list Z :=
  [0; SSH_MSG_UNIMPLEMENTED; SSH_MSG_SERVICE_REQUEST; SSH_MSG_SERVICE_ACCEPT; SSH_MSG_NEWKEYS; SSH_MSG_KEXDH_INIT; SSH_MSG_KEXDH_REPLY;
   50; 51; 52; 53; 60; 80; 81; 82; 90; 91; 92; 93; 94; 95; 96; 97; 98; 99; 100].

Definition initial_dispatch (m : Z) : packet_handler C M P H :=
  if m =? SSH_MSG_DISCONNECT then disconnect_handler
  else if m =? SSH_MSG_IGNORE then connection_ignore_handler
  else if m =? SSH_MSG_DEBUG then connection_debug_handler
  else if bool_decide (m ∈ fail_messages) then connection_fail_handler
  else connection_unimplemented_handler.

Definition make_ssh_connection (flags : Z) (draws : Z) : connection :=
  mkConnection flags (mkTwo None None) None 0 SSH_MAX_PACKET None None None None None None false [] KEX_STATE_INIT true
    (mkTwo None None) (mkTwo None None) initial_dispatch draws [].

(** ** The version strings (handshake.c) *)

Inductive version_line := NotVersion | BadVersion | VersionLine (protover swver comment : bytes).

(** The octets before the first [c], and those behind it. *)
Fixpoint split_at (c : Z) (l : bytes) : option (bytes * bytes) :=
  match l with
  | [] => None
  | x :: l => if x =? c then Some ([], l) else '(a, b) ← split_at c l; Some (x :: a, b)
  end.

Definition starts_with (p : string) (l : bytes) : bool := bool_decide (take (String.length p) l = bytes_of_string p).

Definition split_version_string (line : bytes) : version_line :=
  if (zlen line <? 4) || negb (starts_with "SSH-" line) then NotVersion
  else
    match split_at 45 (drop 4 line) with
    | None => BadVersion
    | Some (protover, rest) =>
      match split_at 32 rest with
      | None => VersionLine protover rest []
      | Some (swver, comment) => VersionLine protover swver comment
      end
    end.

(** What becomes of the line handler: it reads another line, packets are read
    from now on, or it is done for. *)
Inductive line_result := AnotherLine | ReadPackets | NoHandler.

(** [memcmp] of two octets with "13" *)
Definition at_most_13 (l : bytes) : bool :=
  match l with a :: b :: _ => (a <? 49) || (a =? 49) && (b <=? 51) | _ => false end.

Definition peer_quirks (swver : bytes) (peer_flags : Z) : Z :=
  let all := Z.lor PEER_SSH_DSS_KLUDGE (Z.lor PEER_SERVICE_ACCEPT_KLUDGE (Z.lor PEER_USERAUTH_REQUEST_KLUDGE (Z.lor PEER_SEND_NO_DEBUG PEER_X11_OPEN_KLUDGE))) in
  let some := Z.lor PEER_SSH_DSS_KLUDGE (Z.lor PEER_USERAUTH_REQUEST_KLUDGE PEER_SEND_NO_DEBUG) in
  let f :=
    if (6 <=? zlen swver) && starts_with "2.0." swver && at_most_13 (drop 4 swver) then Z.lor peer_flags all
    else if (5 <=? zlen swver) && starts_with "2.1.0" swver then Z.lor peer_flags some
    else peer_flags in
  if (6 <=? zlen swver) && starts_with "2.0.13" swver then Z.lor f PEER_WRONG_PK_OK else f.

Definition do_line (line : bytes) (c : connection) : outcome (line_result * connection) :=
  match split_version_string line with
  | NotVersion => Done (AnotherLine, c)
  | BadVersion => c ← PROTOCOL_ERROR (Some "Incorrectly version string."%string) c; Done (NoHandler, c)
  | VersionLine protover swver _ =>
    if (3 <=? zlen protover) && starts_with "2.0" protover || (zlen protover =? 4) && starts_with "1.99" protover then
      s ← ssh_format "%ls" [VWord (zlen line); VData line];
      Done (ReadPackets, c <| peer_flags := peer_quirks swver (peer_flags c) |> <| versions := set_mode (1 - mode c) (Some s) (versions c) |>)
    else c ← raise_protocol SSH_DISCONNECT_PROTOCOL_VERSION_NOT_SUPPORTED None c; Done (NoHandler, c)
  end.

(** [handshake_command]: what is written first, and the connection. [version]
    is our version string, which ends in the comment of the program. *)
Definition handshake_command (flags : Z) (version : bytes) (closure : kexinit_closure C M P) (draws : Z) : outcome (bytes * connection) :=
  let c := make_ssh_connection flags draws in
  let c := c <| versions := set_mode (mode c) (Some version) (versions c) |> in
  let '(cookie, c) := random 16 c in
  let c := c <| kexinits := set_mode (mode c) (Some (do_make_simple_kexinit (init closure) cookie)) (kexinits c) |> in
  let c := install SSH_MSG_KEXINIT (kexinit_handler closure) c in
  hello ← ssh_format ("%lS" ++ crlf) [VString version];
  c ← initiate_keyexchange c;
  Done (hello, c).

End Algorithms.
End Hashes.

End Keyexchange.
