(* ===== verification/Kexmessages.v ===== *)
(** The messages of the key exchange on the wire: what one end writes is what
    the other end takes apart. *)
From S2P Require Import Prelude Window Bignum Atoms Format Parse Wire Hash Crypto Keyexchange.
Import Bignum Atoms Format Parse Wire Crypto Keyexchange.

Module Kexmessages.

(** ** Writing and parsing *)

(** A packet that is taken apart completely. *)
Lemma parse_with_takes {A} (p : Parser A) packet a :
  bytes_ok packet -> zlen packet < 2 ^ 32 -> takes_all p packet a -> parse_with p packet = Done (Some a).
Proof. intros Hb Hl Hp. destruct (Hp _ (pending_init _ Hb Hl)) as [b E]. unfold parse_with. by rewrite E. Qed.

(** A test that is passed. *)
Lemma takes_all_must {A} (b : bool) (k : unit -> Parser A) w a : b = true -> takes_all (k tt) w a -> takes_all (must b ≫= k) w a.
Proof. by intros ->. Qed.

(** The number at the head of a message. *)
Lemma takes_all_number {A} m (k : unit -> Parser A) w a :
  is_byte m -> takes_all (k tt) w a -> takes_all (n ← parse_uint8; x ← must (n =? m); k x) (m :: w) a.
Proof.
  intros Hm Hk. change (m :: w) with ([m] ++ w). eapply takes_all_bind.
  - intros b r Hb. exact (parse_uint8_pending b m r Hb).
  - rewrite Z.eqb_refl. exact Hk.
Qed.

Lemma takes_all_message {A} m (k : unit -> Parser A) fs a :
  is_byte m -> takes_all (k tt) (packet_octets fs) a -> takes_all (n ← parse_uint8; x ← must (n =? m); k x) (packet_octets (FByte m :: fs)) a.
Proof.
  intros Hm. change (packet_octets (FByte m :: fs)) with (u8 m :: packet_octets fs). rewrite u8_small by done. by apply takes_all_number.
Qed.

Lemma format_octets_app a b : Format.octets a ++ Format.octets b = Format.octets (a ++ b).
Proof. unfold Format.octets. by rewrite fmap_app. Qed.

(** ** KEXINIT *)

(** A list of algorithms a message can hold. *)
Definition list_ok (l : list Z) : Prop := Forall is_atom l /\ zlen l <= KEXINIT_MAX_ALGORITMS.

Record kexinit_ok (k : kexinit) : Prop := {
  ok_cookie : bytes_ok (cookie k) /\ zlen (cookie k) = 16;
  ok_kex : list_ok (kex_algorithms k);
  ok_hostkey : list_ok (server_hostkey_algorithms k);
  ok_count : length (parameters k) = 6%nat;
  ok_parameters : Forall list_ok (parameters k);
  ok_languages : list_ok (languages_client_to_server k) /\ list_ok (languages_server_to_client k);
  ok_follows : is_byte (first_kex_packet_follows k)
}.

Definition kexinit_lists (k : kexinit) : list (list Z) :=
  [kex_algorithms k; server_hostkey_algorithms k] ++ parameters k ++ [languages_client_to_server k; languages_server_to_client k].

Definition kexinit_octets (k : kexinit) : bytes :=
  SSH_MSG_KEXINIT :: cookie k ++ packet_octets (FAtoms <$> kexinit_lists k) ++ packet_octets [FByte (first_kex_packet_follows k); FUint32 0].

Lemma join_atoms_bound l n : Forall is_atom l -> zlen (join_atoms n l) <= 65 * zlen l.
Proof.
  intros H. revert n. induction H as [|a l Ha _ IH]; intros n; [done|]. destruct (atom_string a Ha) as (_ & _ & Hn).
  cbn [join_atoms]. rewrite zlen_cons. destruct (a =? 0); [specialize (IH n); lia|]. rewrite !zlen_app. specialize (IH (S n)).
  destruct n; [change (zlen []) with 0 | change (zlen [44]) with 1]; lia.
Qed.

Lemma list_ok_fits l : list_ok l -> fits (FAtoms l) /\ zlen (field_octets (FAtoms l)) <= 2 ^ 17.
Proof.
  unfold list_ok, KEXINIT_MAX_ALGORITMS. intros [Ha Hl]. pose proof (join_atoms_bound l 0 Ha). split; [split; [done | lia]|].
  cbn [field_octets]. unfold counted. rewrite zlen_app, zlen_WRITE_UINT32. lia.
Qed.

Lemma kexinit_lists_ok k : kexinit_ok k -> Forall list_ok (kexinit_lists k).
Proof. intros []. unfold kexinit_lists. rewrite !Forall_app, !Forall_cons. naive_solver. Qed.

Lemma lists_octets ls : Forall list_ok ls ->
  bytes_ok (packet_octets (FAtoms <$> ls)) /\ zlen (packet_octets (FAtoms <$> ls)) <= 2 ^ 17 * zlen ls.
Proof.
  induction 1 as [|l ls Hl _ [IHo IHl]]; [by split; [constructor|]|]. destruct (list_ok_fits l Hl) as [Hf Hb].
  unfold packet_octets in *. cbn [fmap list_fmap mbind list_bind]. split.
  - apply Forall_app. split; [by apply fits_octets | done].
  - rewrite zlen_app, zlen_cons. lia.
Qed.

Lemma kexinit_octets_ok k : kexinit_ok k -> bytes_ok (kexinit_octets k) /\ zlen (kexinit_octets k) < 2 ^ 28.
Proof.
  intros Hk. destruct (lists_octets _ (kexinit_lists_ok k Hk)) as [Ho Hl]. destruct Hk as [[Hc Hz] _ _ Hn _ _ Hf].
  assert (zlen (kexinit_lists k) = 10) as E by (unfold kexinit_lists, zlen; rewrite !length_app, Hn; done). rewrite E in Hl.
  assert (Hfix : packet_octets [FByte (first_kex_packet_follows k); FUint32 0] = [first_kex_packet_follows k; 0; 0; 0; 0])
    by (unfold packet_octets; cbn -[WRITE_UINT32 u8]; by rewrite u8_small).
  unfold kexinit_octets. rewrite Hfix. split.
  - unfold is_byte in *. constructor; [unfold is_byte, SSH_MSG_KEXINIT; lia|].
    apply Forall_app; split; [done|]. apply Forall_app; split; [done|]. repeat constructor; unfold is_byte; lia.
  - rewrite zlen_cons, !zlen_app, !zlen_cons. change (zlen []) with 0. lia.
Qed.

Lemma kexinit_octets_small k : kexinit_ok k -> zlen (kexinit_octets k) < 2 ^ 28.
Proof. intros Hk. by destruct (kexinit_octets_ok k Hk). Qed.

(** The six lists of parameters. *)
Lemma six {A} (l : list (list A)) : length l = 6%nat ->
  l = [nth 0 l []; nth 1 l []; nth 2 l []; nth 3 l []; nth 4 l []; nth 5 l []].
Proof. intros H. do 7 (destruct l as [|? l]; try done). Qed.

Lemma format_kexinit k : kexinit_ok k -> format_kex k = Done (kexinit_octets k).
Proof.
  intros Hk. pose proof (kexinit_octets_ok k Hk) as [_ Hlen]. pose proof (kexinit_lists_ok k Hk) as HL. destruct Hk as [[Hc Hz] _ _ Hn _ _ Hf].
  unfold kexinit_lists in HL. rewrite (six _ Hn) in HL. cbn [app] in HL.
  unfold format_kex. rewrite <- Hz. eapply (ssh_format_Done _ _ _ []); [done| | |lia].
  - rewrite Hz. repeat (apply Forall_cons; split); try apply Forall_nil; try done; cbn [arg_ok]; unfold is_byte in *; lia.
  - repeat match goal with H : Forall list_ok (_ :: _) |- _ => apply Forall_cons in H as [?%list_ok_fits%proj1 H] end.
    cbn -[write_item zlen packet_octets Format.octets field_octets].
    unfold parameter; cbn [Z.to_nat KEX_ENCRYPTION_CLIENT_TO_SERVER].
    change {| literal := true; decimal := false; do_free := false; unsigned_form := false; hex := false |} with (mk_opts true false false false false).
    repeat (rewrite ?write_c, ?write_i, ?write_octets, ?write_A by done; cbn [mbind outcome_bind]).
    rewrite !format_octets_app. unfold kexinit_octets, kexinit_lists. clear - Hn. revert Hn. generalize (parameters k). intros ps Hn.
    do 7 (destruct ps as [|? ps]; try done). unfold packet_octets.
    cbn -[field_octets Format.octets SSH_MSG_KEXINIT]. do 2 f_equal. rewrite ?app_nil_r, <- ?app_assoc. done.
Qed.

(** ** Parsing it *)

Lemma takes_lists {A} ls w (a : A) (k : list (list Z) -> Parser A) :
  Forall list_ok ls -> takes_all (k ls) w a -> takes_all (parse_lists (length ls) ≫= k) (packet_octets (FAtoms <$> ls) ++ w) a.
Proof.
  intros Hl. apply takes_all_bind. induction Hl as [|l ls Hl _ IH]; [apply takes_ret|].
  cbn [length parse_lists fmap list_fmap]. change (packet_octets (FAtoms l :: ?x)) with (field_octets (FAtoms l) ++ packet_octets x).
  eapply takes_bind; [apply takes_atoms; [by apply list_ok_fits | done | apply Hl]|].
  rewrite <- (app_nil_r (packet_octets _)). eapply takes_bind; [exact IH | apply takes_ret].
Qed.

(** C24. A KEXINIT message comes through: what [format_kex] writes for the
    lists of one end, [parse_kexinit] reads back at the other, the cookie, each
    list of algorithms in its place, and the flag; the message is shorter than
    2^28 octets, and the guessed packet does not travel in it. *)
Theorem kexinit_roundtrip k (Hk : kexinit_ok k) :
  exists packet, format_kex k = Done packet /\ zlen packet < 2 ^ 28 /\
    parse_kexinit packet = Done (Some (mkKexinit (cookie k) (kex_algorithms k) (server_hostkey_algorithms k) (parameters k)
      (languages_client_to_server k) (languages_server_to_client k) (first_kex_packet_follows k) None)).
Proof.
  destruct (kexinit_octets_ok k Hk) as [Ho Hl]. exists (kexinit_octets k). split; [by apply format_kexinit|]. split; [done|].
  apply parse_with_takes; [done | lia|]. pose proof (kexinit_lists_ok k Hk) as HL. destruct Hk as [[Hc Hz] _ _ Hn _ _ Hf].
  apply takes_all_number; [done|]. eapply takes_all_bind; [by apply takes_octets|].
  assert (E : Z.to_nat NLISTS = length (kexinit_lists k)) by (unfold kexinit_lists; rewrite !length_app, Hn; done). rewrite E.
  apply takes_lists; [done|]. eapply takes_all_field; [by apply takes_boolean|]. eapply takes_all_field; [by apply takes_uint32|].
  rewrite Z.eqb_refl. unfold kexinit_lists. clear - Hn. revert Hn. generalize (parameters k). intros ps Hn.
  do 7 (destruct ps as [|? ps]; try done). by apply takes_eod.
Qed.

Definition sample_kexinit : kexinit :=
  mkKexinit (replicate 16 7) [ATOM_NONE; ATOM_SSH_DSS] [ATOM_SSH_DSS] [[ATOM_NONE]; [ATOM_NONE]; []; []; [ATOM_NONE]; [ATOM_NONE]] [] [] 0 None.

Definition list_okb (l : list Z) : bool := forallb (fun a => (1 <=? a) && (a <=? TOTAL_KEYWORDS)) l && (zlen l <=? KEXINIT_MAX_ALGORITMS).

Lemma list_okb_ok l : list_okb l = true -> list_ok l.
Proof.
  intros [Hl Hn]%andb_true_iff. split; [|lia]. apply Forall_forall. intros a Ha. rewrite forallb_forall in Hl.
  specialize (Hl a ltac:(by apply list_elem_of_In)). unfold is_atom. lia.
Qed.

Lemma sample_kexinit_ok : kexinit_ok sample_kexinit.
Proof.
  split; try (by apply list_okb_ok); [|done| | |done]; [|repeat (apply Forall_cons; split); first [by apply list_okb_ok | by apply Forall_nil] | split; by apply list_okb_ok].
  split; [|done]. by apply Forall_replicate.
Qed.

Theorem kexinit_roundtrip_witness : kexinit_ok sample_kexinit /\
  exists packet, format_kex sample_kexinit = Done packet /\ zlen packet < 2 ^ 28 /\ parse_kexinit packet = Done (Some sample_kexinit).
Proof. split; [exact sample_kexinit_ok | exact (kexinit_roundtrip sample_kexinit sample_kexinit_ok)]. Defined.

(** ** The messages of the exchange *)

(** Its fields fit a packet. *)
Definition packet_fits (fs : list field) : Prop := Forall fits fs /\ zlen (packet_octets fs) < 2 ^ 32.

Lemma packet_parsed {A} (p : Parser A) fs a : packet_fits fs -> takes_all p (packet_octets fs) a -> parse_with p (packet_octets fs) = Done (Some a).
Proof. intros [Hf Hl]. apply parse_with_takes; [by apply packet_octets_fit | done]. Qed.

Definition client_msg (e : Z) : list field := [FByte SSH_MSG_KEXDH_INIT; FBignum e].
Definition server_msg (key : bytes) (f : Z) (signature : bytes) : list field :=
  [FByte SSH_MSG_KEXDH_REPLY; FString key; FBignum f; FString signature].

Lemma format_client_msg e : packet_fits (client_msg e) ->
  ssh_format "%c%n" [VWord SSH_MSG_KEXDH_INIT; VNum e] = Done (packet_octets (client_msg e)).
Proof. intros [Hf Hl]. exact (format_plain (client_msg e) Hf Hl). Qed.

Lemma format_server_msg key f s : packet_fits (server_msg key f s) ->
  ssh_format "%c%S%n%fS" [VWord SSH_MSG_KEXDH_REPLY; VString key; VNum f; VString s] = Done (packet_octets (server_msg key f s)).
Proof.
  intros [Hf Hl]. repeat apply Forall_cons in Hf as [? Hf].
  eapply (ssh_format_Done _ _ _ []); [done | | |done].
  - repeat (apply Forall_cons; split); [done | by apply (item_arg_ok (FString _)) | by apply (item_arg_ok (FBignum _)) | by apply (item_arg_ok (FString _)) | by apply Forall_nil].
  - cbn -[write_item zlen packet_octets Format.octets field_octets]. rewrite write_c. cbn [mbind outcome_bind].
    rewrite write_plain_S. cbn [mbind outcome_bind].
    rewrite write_n. cbn [mbind outcome_bind]. rewrite write_S. cbn [mbind outcome_bind].
    unfold server_msg, packet_octets. cbn [mbind list_bind app]. by rewrite !format_octets_app, app_nil_r, <- !app_assoc.
Qed.

Lemma parse_client_msg_takes G e : packet_fits (client_msg e) -> acceptable G e = true ->
  parse_with (parse_client_msg G) (packet_octets (client_msg e)) = Done (Some e).
Proof.
  intros Hf Ha. apply packet_parsed; [done|]. destruct Hf as [Hf _]. repeat apply Forall_cons in Hf as [? Hf].
  apply takes_all_message; [done|]. eapply takes_all_field; [by apply takes_bignum|]. rewrite Ha. by apply takes_eod.
Qed.

Lemma parse_server_msg_takes G key f s : packet_fits (server_msg key f s) -> acceptable G f = true ->
  parse_with (parse_server_msg G) (packet_octets (server_msg key f s)) = Done (Some (key, f, s)).
Proof.
  intros Hf Ha. apply packet_parsed; [done|]. destruct Hf as [Hf _]. repeat apply Forall_cons in Hf as [? Hf].
  apply takes_all_message; [done|]. eapply takes_all_field; [by apply takes_string_copy|]. eapply takes_all_field; [by apply takes_bignum|].
  apply takes_all_must; [done|]. eapply takes_all_field; [by apply takes_string_copy|]. by apply takes_eod.
Qed.

End Kexmessages.
