(* ===== verification/Keys.v ===== *)
(** Session keys: [kex_make_key] computes the keys of RFC 4253, section 7.2,
    from the secret of an exchange, and the ends of a connection that agree on
    the secret make keys that match. *)
From S2P Require Import Prelude Window Bignum Atoms Format Parse Wire Hash Crypto Keyexchange.
Import Bignum Atoms Format Parse Wire Crypto Keyexchange.

Module Keys.

(** ** The choice of an algorithm *)

Lemma select_none client server : select_algorithm client server = 0 <-> forall a, a ∈ client -> a <> 0 -> a ∉ server.
Proof.
  induction client as [|x client IH]; cbn [select_algorithm].
  - split; [|done]. intros _ a Ha. by apply elem_of_nil in Ha.
  - split.
    + intros E a Ha Hz Hs. apply elem_of_cons in Ha. destruct (Z.eqb_spec x 0).
      * destruct Ha as [->|Ha]; [done|]. by eapply (proj1 IH E a).
      * case_bool_decide; [done|]. destruct Ha as [->|Ha]; [done|]. by eapply (proj1 IH E a).
    + intros Hn. destruct (Z.eqb_spec x 0); [|rewrite bool_decide_eq_false_2 by (apply Hn; [by constructor | done])];
        apply IH; intros a Ha; apply Hn; by constructor.
Qed.

Lemma select_in client server : select_algorithm client server <> 0 ->
  select_algorithm client server ∈ client /\ select_algorithm client server ∈ server.
Proof.
  induction client as [|x client IH]; cbn [select_algorithm]; [done|]. intros Hz.
  destruct (x =? 0); [|case_bool_decide; [by split; [constructor|]|]]; destruct (IH Hz); (split; [by constructor | done]).
Qed.

(** C23. The algorithm that is chosen is the one RFC 4253, section 7.1, asks
    for: the first of the list of the client that the server lists, too, where
    names that are not known here (number 0) are skipped; and 0 is returned
    exactly if the lists have no known algorithm in common. *)
Theorem select_algorithm_spec client server :
  (forall a, select_algorithm client server = a /\ a <> 0 <->
     exists before after, client = before ++ a :: after /\ a <> 0 /\ a ∈ server /\ Forall (fun b => b = 0 \/ b ∉ server) before)
  /\ (select_algorithm client server = 0 <-> forall a, a ∈ client -> a <> 0 -> a ∉ server).
Proof.
  split; [|apply select_none]. intros a. split.
  - intros [E Hz]. induction client as [|x client IH]; cbn [select_algorithm] in E; [by subst|].
    destruct (Z.eqb_spec x 0) as [->|]; [|case_bool_decide; [by exists [], client; subst; split_and!|]];
      destruct (IH E) as (before & after & -> & _ & Ha & Hb); eexists (_ :: before), after; split_and!; try done; constructor; auto.
  - intros (before & after & -> & Hz & Ha & Hb). split; [|done].
    induction Hb as [|b before [->|Hb] _ IH]; cbn [app select_algorithm].
    + rewrite (proj2 (Z.eqb_neq _ _) Hz). by rewrite bool_decide_eq_true_2.
    + done.
    + destruct (b =? 0); [done|]. by rewrite bool_decide_eq_false_2.
Qed.

(** ** Session keys *)

Section Keys.
Context {H : Type} `{HL : HashLaws H}.

(** K1 || K2 || K3 || ..., the blocks behind [k]. *)
Fixpoint key_material (n : nat) (secret k : bytes) : bytes :=
  match n with O => k | S n => key_material n secret (k ++ hash_of (secret ++ k)) end.

(** The key of [len] octets for a tag: its first octets. *)
Definition derived_key (secret : bytes) (len tag : Z) (session : bytes) : bytes :=
  take (Z.to_nat len) (key_material (Z.to_nat len) secret (hash_of (secret ++ [tag] ++ session))).

Lemma key_material_extends n secret k : exists more, key_material n secret k = k ++ more /\ Z.of_nat n <= zlen more.
Proof.
  revert k. induction n as [|n IH]; intros k; cbn [key_material]; [exists []; by rewrite app_nil_r|].
  destruct (IH (k ++ hash_of (secret ++ k))) as (more & -> & Hl). exists (hash_of (secret ++ k) ++ more). split; [by rewrite app_assoc|].
  rewrite zlen_app, hash_of_length. pose proof hash_sizes. lia.
Qed.

Lemma drop_past (k x : bytes) n : 0 <= n -> drop (Z.to_nat (zlen k + n)) (k ++ x) = drop (Z.to_nat n) x.
Proof. intros Hn. rewrite drop_app_ge by (unfold zlen; lia). f_equal. unfold zlen. lia. Qed.

(** The loop makes the octets that are left. *)
Lemma expand_key_spec fuel n left hash secret k d :
  hashed_so_far hash (secret ++ k) -> zlen d = hash_size -> hash_size < left <= Z.of_nat fuel -> left <= Z.of_nat n ->
  exists r, expand_key fuel left hash d = Done r /\ key_material n secret (k ++ d) = k ++ r ++ drop (Z.to_nat (zlen k + left)) (key_material n secret (k ++ d))
    /\ zlen r = left.
Proof.
  pose proof hash_sizes as [Hs _]. revert n left hash k d. induction fuel as [|fuel IH]; intros n left hash k d Hh Hd [Hl Hf] Hn; [lia|].
  cbn [expand_key]. destruct (hash_update_spec hash _ d Hh) as (h1 & -> & Hh1). cbn [mbind outcome_bind]. rewrite <- app_assoc in Hh1.
  destruct (hash_digest_spec h1 _ Hh1) as (h2 & Ed & _). destruct n as [|n]; [lia|]. cbn [key_material].
  set (next := hash_of (secret ++ k ++ d)) in *. assert (zlen next = hash_size) as Hnext by apply hash_of_length.
  destruct (Z.leb_spec (left - hash_size) hash_size) as [Hle|Hgt].
  - rewrite Ed. cbn [mbind outcome_bind]. eexists. split; [done|].
    destruct (key_material_extends n secret ((k ++ d) ++ next)) as (more & -> & _).
    assert (Hr : zlen (d ++ take (Z.to_nat (left - hash_size)) next) = left).
    { rewrite zlen_app. unfold zlen in *. rewrite length_take. lia. }
    split; [|done]. set (r := d ++ take _ next) in *. rewrite <- !app_assoc. f_equal. rewrite <- (take_drop (Z.to_nat left) (d ++ next ++ more)) at 1. f_equal.
    + unfold r. rewrite take_app_ge by (unfold zlen in *; lia). f_equal. rewrite take_app_le by (unfold zlen in *; lia). f_equal. unfold zlen in *. lia.
    + rewrite (drop_past k) by lia. done.
  - rewrite Ed. cbn [mbind outcome_bind].
    assert (hash_size < left - hash_size <= Z.of_nat fuel) as H1 by lia. assert (left - hash_size <= Z.of_nat n) as H2 by lia.
    destruct (IH n (left - hash_size) h1 (k ++ d) next Hh1 Hnext H1 H2) as (r & -> & E & Hr).
    cbn [mbind outcome_bind]. eexists. split; [done|]. split; [|rewrite zlen_app; lia].
    rewrite E at 1. rewrite zlen_app, Hd, <- !app_assoc. do 4 f_equal. lia.
Qed.

Lemma make_key_spec h secret len type session (Hh : hashed_so_far h secret) (Hlen : 0 <= len) :
  kex_make_key h len type session = Done (derived_key secret len (nth (Z.to_nat type) tags 0) session)
  /\ zlen (derived_key secret len (nth (Z.to_nat type) tags 0) session) = len.
Proof.
  unfold kex_make_key, derived_key. set (tag := nth _ _ _). pose proof hash_sizes as [Hs _].
  destruct (hash_update_spec h _ [tag] Hh) as (h1 & E1 & Hh1). destruct (hash_update_spec h1 _ session Hh1) as (h2 & E2 & Hh2).
  destruct (hash_digest_spec h2 _ Hh2) as (h3 & E3 & _). rewrite <- app_assoc in E3. set (d := hash_of _) in E3 |- *.
  assert (Hd : zlen d = hash_size) by apply hash_of_length.
  destruct (key_material_extends (Z.to_nat len) secret d) as (more & Em & Hm).
  split; [|rewrite Em; unfold zlen in *; rewrite length_take, length_app; lia].
  destruct (Z.eqb_spec len 0) as [->|Hz]; [done|]. rewrite E1. cbn [mbind outcome_bind]. rewrite E2. cbn [mbind outcome_bind].
  rewrite E3. cbn [mbind outcome_bind]. destruct (Z.leb_spec len hash_size).
  - rewrite Em, take_app_le; [done | unfold zlen in *; lia].
  - destruct (expand_key_spec (Z.to_nat len) (Z.to_nat len) len h secret [] d) as (r & -> & E & Hr); try lia; [by rewrite app_nil_r|].
    cbn [app] in E. rewrite E, take_app_le by (unfold zlen in *; lia). by rewrite take_ge by (unfold zlen in *; lia).
Qed.

Lemma make_key_material h secret len type session : hashed_so_far h secret -> 0 <= len ->
  kex_make_key h len type session = Done (derived_key secret len (nth (Z.to_nat type) tags 0) session).
Proof. intros. by apply make_key_spec. Qed.

Lemma key_material_ok n secret k : bytes_ok k -> bytes_ok (key_material n secret k).
Proof.
  revert k. induction n as [|n IH]; intros k Hk; cbn [key_material]; [done|]. apply IH. apply Forall_app. split; [done | apply hash_of_bytes].
Qed.

Lemma derived_key_ok secret len tag session : bytes_ok (derived_key secret len tag session).
Proof. apply Forall_take, key_material_ok, hash_of_bytes. Qed.

Lemma derived_key_length secret len tag session : 0 <= len -> zlen (derived_key secret len tag session) = len.
Proof.
  intros Hl. unfold derived_key. destruct (key_material_extends (Z.to_nat len) secret (hash_of (secret ++ [tag] ++ session))) as (more & -> & Hm).
  unfold zlen in *. rewrite length_take, length_app. lia.
Qed.

(** C22. A session key is what RFC 4253, section 7.2, derives: the first octets
    of K1 || K2 || K3 || ..., where K1 is the hash of the secret, the letter of
    the key and the session identifier, and each further block the hash of the
    secret and all blocks before it. It has the length that was asked for, and
    the loop ends, whatever the sizes of the key and of the hash are. *)
Theorem kex_make_key_correct h secret len type session (Hh : hashed_so_far h secret) (Hlen : 0 <= len) :
  kex_make_key h len type session = Done (derived_key secret len (nth (Z.to_nat type) tags 0) session)
  /\ zlen (derived_key secret len (nth (Z.to_nat type) tags 0) session) = len.
Proof. by apply make_key_spec. Qed.

End Keys.

(** ** What the two ends make of the secret *)

(** The algorithms of both directions, the one from the client to the server
    first. A connection may have no MAC and no compression, but its ciphers are
    objects. *)
Record suite (C M P : Type) := mkSuite { ciphers : two (crypto_algorithm C); macs : two (option (mac_algorithm M)); compressions : two (option (compress_algorithm P)) }.
Arguments mkSuite {C M P}. Arguments ciphers {C M P}. Arguments macs {C M P}. Arguments compressions {C M P}.

Definition objects {C M P} (s : suite C M P) : object_list C M P :=
  [Some (ACrypto (of_client (ciphers s))); Some (ACrypto (of_server (ciphers s))); AMac <$> of_client (macs s); AMac <$> of_server (macs s);
   ACompress <$> of_client (compressions s); ACompress <$> of_server (compressions s)].

Record suite_ok {C M P} (s : suite C M P) : Prop := {
  key_sizes : forall d, 0 <= crypto_key_size (at_mode d (ciphers s)) /\ 0 <= iv_size (at_mode d (ciphers s));
  mac_sizes : forall d a, at_mode d (macs s) = Some a -> 0 <= mac_key_size a
}.

Section Ends.
Context {H : Type} `{HL : HashLaws H} {C M P : Type} (s : suite C M P) (s_ok : suite_ok s).
Notation connection := (ssh_connection C M P H).

Section Secret.
Context (secret session : bytes).

Definition key_of (len type : Z) : bytes := derived_key secret len (nth (Z.to_nat type) tags 0) session.

(** What a direction needs, made by the end that sends or by the end that
    receives. *)
Definition crypt (make : crypto_algorithm C -> bytes -> option bytes -> option C) (d : Z) : option C :=
  let a := at_mode d (ciphers s) in
  make a (key_of (crypto_key_size a) d) (if iv_size a =? 0 then None else Some (key_of (iv_size a) (IV_TYPE d))).
Definition authenticator (d : Z) : option M := (fun a => make_mac a (key_of (mac_key_size a) (KEX_MAC_CLIENT_TO_SERVER + d))) <$> at_mode d (macs s).

Definition sender (d : Z) : option C * option M * option P := (crypt make_encrypt d, authenticator d, make_deflate <$> at_mode d (compressions s)).
Definition receiver (d : Z) : option C * option M * option P := (crypt make_decrypt d, authenticator d, make_inflate <$> at_mode d (compressions s)).

Context (h : H) (Hh : hashed_so_far h secret).

Lemma make_key len type : 0 <= len -> kex_make_key h len type session = Done (key_of len type).
Proof. intros Hl. by apply make_key_material. Qed.

Lemma make_crypt make d : d = 0 \/ d = 1 -> kex_make_crypt make h (objects s) d session = Done (crypt make d).
Proof.
  intros Hd. assert (E : algorithm_at (objects s) d = Done (Some (ACrypto (at_mode d (ciphers s))))) by by destruct Hd as [-> | ->].
  unfold kex_make_crypt. change (zlen (objects s) =? KEX_PARAMETERS) with true. cbn [assert_that mbind outcome_bind]. rewrite E. cbn [mbind outcome_bind].
  destruct (key_sizes s s_ok d). unfold crypt. destruct (Z.eqb_spec (iv_size (at_mode d (ciphers s))) 0); by rewrite !make_key.
Qed.

Lemma make_authenticator d : d = 0 \/ d = 1 -> kex_make_mac h (objects s) (KEX_MAC_CLIENT_TO_SERVER + d) session = Done (authenticator d).
Proof.
  intros Hd. assert (E : algorithm_at (objects s) (KEX_MAC_CLIENT_TO_SERVER + d) = Done (AMac <$> at_mode d (macs s))) by by destruct Hd as [-> | ->].
  unfold kex_make_mac. change (zlen (objects s) =? KEX_PARAMETERS) with true. cbn [assert_that mbind outcome_bind]. rewrite E. cbn [mbind outcome_bind].
  unfold authenticator. destruct (at_mode d (macs s)) as [a|] eqn:Ea; [|done]. cbn [fmap option_fmap option_map].
  rewrite make_key by by eapply mac_sizes. done.
Qed.

Lemma make_compression make d : d = 0 \/ d = 1 ->
  kex_make_compress make (objects s) (KEX_COMPRESSION_CLIENT_TO_SERVER + d) = Done (make <$> at_mode d (compressions s)).
Proof.
  intros Hd. assert (E : algorithm_at (objects s) (KEX_COMPRESSION_CLIENT_TO_SERVER + d) = Done (ACompress <$> at_mode d (compressions s))) by by destruct Hd as [-> | ->].
  unfold kex_make_compress. rewrite E. cbn [mbind outcome_bind]. by destruct (at_mode d (compressions s)).
Qed.

(** The keys of one end. *)
Definition sends (c : connection) : option C * option M * option P := (send_crypto c, send_mac c, send_compress c).
Definition receives (c : connection) : option C * option M * option P := (rec_crypto c, rec_mac c, rec_compress c).

Lemma install_keys_spec c m : mode c = m -> m = 0 \/ m = 1 -> session_id c = Some session ->
  install_keys (objects s) h c = Done
    match crypt make_decrypt (1 - m), crypt make_encrypt m with
    | Some rec, Some send =>
      (true, note SendKeys ((install SSH_MSG_NEWKEYS (newkeys_handler rec (authenticator (1 - m)) (make_inflate <$> at_mode (1 - m) (compressions s))) c)
        <| send_crypto := Some send |> <| send_mac := authenticator m |> <| send_compress := make_deflate <$> at_mode m (compressions s) |>))
    | _, _ => (false, c)
    end.
Proof.
  intros Hm H01 Hs. unfold install_keys. rewrite Hs. cbn [deref mbind outcome_bind].
  assert (HF : forall t, from_here t c = Z.lxor t m) by (intros t; unfold from_here; by rewrite <- Hm).
  assert (HFi : forall t h', from_here t (install SSH_MSG_NEWKEYS h' c) = Z.lxor t m) by (intros t h'; exact (HF t)).
  rewrite !HF. unfold kex_make_decrypt, kex_make_encrypt, kex_make_inflate, kex_make_deflate.
  replace (Z.lxor KEX_ENCRYPTION_SERVER_TO_CLIENT m) with (1 - m) by by destruct H01 as [-> | ->].
  replace (Z.lxor KEX_ENCRYPTION_CLIENT_TO_SERVER m) with m by by destruct H01 as [-> | ->].
  replace (Z.lxor KEX_MAC_SERVER_TO_CLIENT m) with (KEX_MAC_CLIENT_TO_SERVER + (1 - m)) by by destruct H01 as [-> | ->].
  replace (Z.lxor KEX_COMPRESSION_SERVER_TO_CLIENT m) with (KEX_COMPRESSION_CLIENT_TO_SERVER + (1 - m)) by by destruct H01 as [-> | ->].
  rewrite (make_crypt make_decrypt (1 - m)) by lia. cbn [mbind outcome_bind]. destruct (crypt make_decrypt (1 - m)) as [rec|]; [|done].
  rewrite (make_crypt make_encrypt m) by lia. cbn [mbind outcome_bind]. destruct (crypt make_encrypt m) as [send|]; [|done].
  rewrite (make_authenticator (1 - m)) by lia. cbn [mbind outcome_bind]. rewrite (make_compression make_inflate (1 - m)) by lia. cbn [mbind outcome_bind]. rewrite !HFi.
  replace (Z.lxor KEX_MAC_CLIENT_TO_SERVER m) with (KEX_MAC_CLIENT_TO_SERVER + m) by by destruct H01 as [-> | ->].
  replace (Z.lxor KEX_COMPRESSION_CLIENT_TO_SERVER m) with (KEX_COMPRESSION_CLIENT_TO_SERVER + m) by by destruct H01 as [-> | ->].
  rewrite (make_authenticator m) by lia. cbn [mbind outcome_bind]. by rewrite (make_compression make_deflate m) by lia.
Qed.

End Secret.
End Ends.

(** ** An instance: SHA-1 *)

Import Hashes.

(** An instance: a key of three blocks' material from SHA-1. *)
Theorem kex_make_key_correct_witness :
  hashed_so_far make_sha_instance [] /\ kex_make_key make_sha_instance 44 0 [1; 2; 3] = Done (derived_key (H := sha_instance) [] 44 67 [1; 2; 3])
  /\ zlen (derived_key (H := sha_instance) [] 44 67 [1; 2; 3]) = 44.
Proof. split; [exact make_hash_empty | exact (kex_make_key_correct _ [] 44 0 [1; 2; 3] make_hash_empty ltac:(lia))]. Defined.

End Keys.
