(* ===== verification/Agreement.v ===== *)
(** Both ends of an exchange: a client and a server that have sent each other
    their KEXINIT messages complete a Diffie-Hellman exchange over the messages
    they send, and take keys that match, direction by direction, or both refuse
    a weak key. *)
From S2P Require Import Prelude Window Bignum Atoms Format Parse Wire Hash Crypto Keyexchange Kexmessages Keys.
From Stdlib Require Import Zpow_facts.
Import Bignum Atoms Format Parse Wire Crypto Keyexchange Kexmessages Keys.

Module Agreement.

(** ** Elements of a group *)

(** The number of octets of a group element, sign included. *)
Definition group_octets : Z := 4096.

Lemma element_fits p n : p <= 2 ^ (8 * group_octets - 1) -> 0 <= n < p -> fits (FBignum n) /\ zlen (bignum_format_s n) <= group_octets.
Proof.
  intros Hp Hn. assert (Hs : signed_octets n <= group_octets).
  { apply signed_octets_minimal; [done|]. split; [|lia]. trans 0; [|lia]. apply Z.opp_nonpos_nonneg. by apply Z.pow_nonneg. }
  assert (unsigned_octets n <= signed_octets n).
  { unfold unsigned_octets, signed_octets. destruct (n =? 0); [lia|]. rewrite (proj2 (Z.ltb_ge _ _)) by lia. div_lia. }
  cbn [fits]. rewrite zlen_bignum_format_s. unfold octets_max. change group_octets with 4096 in Hs |- *. split; lia.
Qed.

(** A power of a power does not depend on the order of the exponents. *)
Lemma power_power p g q x y : 0 < p -> 0 <= x -> 0 <= y ->
  let G := make_group_zn p g q in power G (power G g x) y = power G (power G g y) x.
Proof.
  intros Hp Hx Hy. cbn [make_group_zn power]. rewrite !Zpow_mod_correct by lia.
  rewrite <- !Zpower_mod, <- !Z.pow_mul_r by lia. by rewrite Z.mul_comm.
Qed.

Lemma power_range p g q x : 0 < p -> 0 <= power (make_group_zn p g q) g x < p.
Proof. intros Hp. cbn [make_group_zn power]. rewrite Zpow_mod_correct by lia. by apply Z.mod_pos_bound. Qed.

(** The secret exponent is positive. *)
Lemma secret_positive {H C M P} RANDOM G (c : ssh_connection C M P H) : 1 < order G -> 1 <= (dh_generate_secret RANDOM G c).1.1.
Proof.
  intros Ho. unfold dh_generate_secret, random, bignum_random. cbn.
  pose proof (Z.mod_pos_bound (bignum_random_size (mpz_sizeinbase2 (order G - 1) + 10) (RANDOM (draws c) ((mpz_sizeinbase2 (order G - 1) + 10 + 7) / 8)))
    (order G - 1) ltac:(lia)). lia.
Qed.

(** ** The exchange hash *)

(** A string that is short enough. *)
Definition short (s : bytes) : Prop := bytes_ok s /\ zlen s < 2 ^ 28.

Lemma short_fits s : short s -> fits (FString s).
Proof. intros [Ho Hl]. split; [done | lia]. Qed.

Lemma zlen_counted s : zlen (counted s) = 4 + zlen s.
Proof. unfold counted. by rewrite zlen_app, zlen_WRITE_UINT32. Qed.

Section Exchange.
Context {H : Type} `{HL : HashLaws H} {C M P : Type}.
Notation connection := (ssh_connection C M P H).

Definition prologue (vc vs kc ks : bytes) : list field := [FString vc; FString vs; FString kc; FString ks].

Lemma dh_hash_update_spec (self : dh_instance H) m fs :
  hashed_so_far (dh_hash self) m -> packet_fits fs ->
  exists h, dh_hash_update (ssh_format (plain_format fs) (item_arg <$> fs)) self
      = Done (mkDh (dh_group self) (dh_e self) (dh_f self) (dh_secret self) (dh_K self) h (exchange_hash self))
    /\ hashed_so_far h (m ++ packet_octets fs).
Proof.
  intros Hm [Hf Hl]. unfold dh_hash_update. rewrite format_plain by done. cbn [mbind outcome_bind].
  destruct (hash_update_spec (dh_hash self) m (packet_octets fs) Hm) as (h & -> & Hh). by exists h.
Qed.

Lemma dh_hash_digest_spec (self : dh_instance H) m :
  hashed_so_far (dh_hash self) m -> packet_fits [FBignum (dh_e self); FBignum (dh_f self); FString (dh_K self)] ->
  exists h, dh_hash_digest self = Done (mkDh (dh_group self) (dh_e self) (dh_f self) (dh_secret self) (dh_K self) h
    (hash_of (m ++ packet_octets [FBignum (dh_e self); FBignum (dh_f self); FString (dh_K self)]))) /\ hashed_so_far h [].
Proof.
  intros Hm Hf. destruct (dh_hash_update_spec self m _ Hm Hf) as (h & E & Hh). unfold dh_hash_digest.
  change (ssh_format "%n%n%S" _) with (ssh_format (plain_format [FBignum (dh_e self); FBignum (dh_f self); FString (dh_K self)])
    (item_arg <$> [FBignum (dh_e self); FBignum (dh_f self); FString (dh_K self)])).
  rewrite E. cbn [mbind outcome_bind dh_hash dh_group dh_e dh_f dh_secret dh_K].
  destruct (hash_digest_spec h _ Hh) as (h' & -> & Hh'). by exists h'.
Qed.

Lemma init_dh_spec G (c : connection) vc vs kc ks :
  versions c = mkTwo (Some vc) (Some vs) -> literal_kexinits c = mkTwo (Some kc) (Some ks) -> packet_fits (prologue vc vs kc ks) ->
  exists h, init_dh_instance G c = Done (mkDh G 0 0 0 [] h []) /\ hashed_so_far h (packet_octets (prologue vc vs kc ks)).
Proof.
  intros Hv Hk [Hf Hl]. unfold init_dh_instance. rewrite Hv, Hk. cbn [of_client of_server deref mbind outcome_bind].
  change (ssh_format "%S%S%S%S" _) with (ssh_format (plain_format (prologue vc vs kc ks)) (item_arg <$> prologue vc vs kc ks)).
  rewrite format_plain by done. cbn [mbind outcome_bind].
  destruct (hash_update_spec make_hash [] (packet_octets (prologue vc vs kc ks)) make_hash_empty) as (h & -> & Hh). by exists h.
Qed.

(** The K of an exchange, as it is hashed. *)
Lemma format_K n : fits (FBignum n) -> ssh_format "%ln" [VNum n] = Done (bignum_format_s n).
Proof.
  intros Hf. eapply (ssh_format_Done _ _ _ []); [done | | done |].
  - apply Forall_cons; split; [by apply (item_arg_ok (FBignum n)) | by apply Forall_nil].
  - destruct Hf as [Hf _]. unfold octets_max in Hf. lia.
Qed.

(** ** The end of an exchange *)

Definition secret_of (K hash : bytes) : bytes := counted K ++ hash.

Lemma build_secret_spec K hash : short K -> short hash -> exists h, kex_build_secret hash K = Done h /\ hashed_so_far h (secret_of K hash).
Proof.
  intros [HKo HKl] [Hho Hhl]. unfold kex_build_secret.
  assert (ssh_format "%S%lS" [VString K; VString hash] = Done (secret_of K hash)) as ->.
  { eapply (ssh_format_Done _ _ _ []); [done | | |].
    - repeat (apply Forall_cons; split); [cbn; lia | cbn; lia | by apply Forall_nil].
    - cbn -[zlen]. by rewrite format_octets_app.
    - unfold secret_of. rewrite zlen_app, zlen_counted. lia. }
  cbn [mbind outcome_bind]. destruct (hash_update_spec make_hash [] (secret_of K hash) make_hash_empty) as (h & -> & Hh). by exists h.
Qed.

Context (s : suite C M P) (s_ok : suite_ok s).

(** A cipher may refuse a weak key; it refuses it for both modes. *)
Definition matched : Prop := forall d key iv, d = 0 \/ d = 1 ->
  let a := at_mode d (ciphers s) in
  bytes_ok key -> zlen key = crypto_key_size a ->
  (if iv_size a =? 0 then iv = None else exists v, iv = Some v /\ bytes_ok v /\ zlen v = iv_size a) ->
  make_encrypt a key iv = None <-> make_decrypt a key iv = None.

(** One of the keys that follow from the secret is refused. *)
Definition weak (secret session : bytes) : bool :=
  match crypt s secret session make_encrypt 0, crypt s secret session make_encrypt 1 with Some _, Some _ => false | _, _ => true end.

(** The message about it. *)
Definition refusal : outcome bytes :=
  Channel.Channel.DISCONNECT_format SSH_DISCONNECT_PROTOCOL_ERROR (bytes_of_string "Refusing to use weak key.").

Lemma refusal_spec (c : connection) : exists msg, refusal = Done msg
  /\ PROTOCOL_ERROR (Some "Refusing to use weak key."%string) c = Done (note FinishRead (note (Wrote msg) c)).
Proof.
  assert (E' : PROTOCOL_ERROR (Some "Refusing to use weak key."%string) c = c ← C_WRITE refusal c; Done (note FinishRead c)) by reflexivity.
  destruct refusal as [msg| |] eqn:E; [|by vm_compute in E..]. exists msg. split; [done|]. by rewrite E'.
Qed.

Lemma crypt_matched secret session d : matched -> d = 0 \/ d = 1 ->
  crypt s secret session make_decrypt d = None <-> crypt s secret session make_encrypt d = None.
Proof.
  intros Hm Hd. unfold crypt. symmetry. destruct (key_sizes s s_ok d) as [H1 H2].
  apply Hm; [done | apply derived_key_ok | by apply derived_key_length |].
  destruct (_ =? 0); [done|]. eexists. split; [done|]. split; [apply derived_key_ok | by apply derived_key_length].
Qed.

Lemma weak_at secret session m : matched -> m = 0 \/ m = 1 ->
  weak secret session = match crypt s secret session make_decrypt (1 - m), crypt s secret session make_encrypt m with Some _, Some _ => false | _, _ => true end.
Proof.
  intros Hm H01. pose proof (crypt_matched secret session (1 - m) Hm ltac:(lia)) as HD. unfold weak.
  destruct H01 as [-> | ->].
  - change (1 - 0) with 1 in *. destruct (crypt s secret session make_encrypt 0), (crypt s secret session make_encrypt 1), (crypt s secret session make_decrypt 1); naive_solver.
  - change (1 - 1) with 0 in *. destruct (crypt s secret session make_encrypt 0), (crypt s secret session make_encrypt 1), (crypt s secret session make_decrypt 0); naive_solver.
Qed.

Record finished (m : Z) (secret session : bytes) (c c' : connection) : Prop := {
  f_mode : flags c' = flags c;
  f_state : kex_state c' = KEX_STATE_NEWKEYS;
  f_session : session_id c' = Some session;
  f_sends : sends c' = sender s secret session m;
  f_handler : exists rec rmac inflate, dispatch c' SSH_MSG_NEWKEYS = newkeys_handler rec rmac inflate /\ (Some rec, rmac, inflate) = receiver s secret session (1 - m);
  f_trace : exists more, trace c' = trace c ++ Wrote [SSH_MSG_NEWKEYS] :: more;
  f_paused : paused c' = paused c;
  f_max : rec_max_packet c' = rec_max_packet c
}.

(** The end of an exchange whose keys are not taken: NEWKEYS is written all the
    same, and the connection is given up with the old keys. *)
Record refused (session : bytes) (c c' : connection) : Prop := {
  u_state : kex_state c' = kex_state c;
  u_session : session_id c' = Some session;
  u_sends : sends c' = sends c;
  u_receives : receives c' = receives c;
  u_handler : dispatch c' SSH_MSG_NEWKEYS = dispatch c SSH_MSG_NEWKEYS;
  u_trace : exists msg, refusal = Done msg /\ trace c' = trace c ++ Wrote [SSH_MSG_NEWKEYS] :: [Wrote msg; FinishRead]
}.

Definition ended (m : Z) (secret session : bytes) (c c' : connection) : Prop :=
  if weak secret session then refused session c c' else finished m secret session c c'.

Lemma keyexchange_finish_spec verbose m hash K session (c : connection) :
  default hash (session_id c) = session -> mode c = m -> m = 0 \/ m = 1 -> matched -> short K -> short hash ->
  exists c', keyexchange_finish verbose (objects s) hash K c = Done c' /\ ended m (secret_of K hash) session c c'.
Proof.
  intros <- Hm H01 Hw HK Hh. set (session := default hash _). destruct (build_secret_spec K hash HK Hh) as (h & Eh & Hh').
  unfold keyexchange_finish. change (ssh_format "%c" _) with (Done [SSH_MSG_NEWKEYS]). unfold C_WRITE at 1. cbn [mbind outcome_bind].
  rewrite Eh. cbn [mbind outcome_bind].
  set (c1 := match session_id (note _ c) with None => _ | Some _ => _ end).
  assert (Hc1 : session_id c1 = Some session /\ mode c1 = m /\ trace c1 = trace c ++ [Wrote [SSH_MSG_NEWKEYS]] /\ paused c1 = paused c
    /\ rec_max_packet c1 = rec_max_packet c /\ established c1 = established c /\ peer_flags c1 = peer_flags c /\ flags c1 = flags c).
  { subst c1 session. unfold note. cbn. by destruct (session_id c) eqn:E. }
  destruct Hc1 as (Es & Em & Et & Ep & Er & _ & _ & Ef).
  rewrite (install_keys_spec s s_ok (secret_of K hash) session h Hh' c1 m Em H01 Es).
  unfold ended. rewrite (weak_at (secret_of K hash) session m Hw H01).
  assert (HR : exists c', (if negb false then PROTOCOL_ERROR (Some "Refusing to use weak key."%string) c1 else Done c1) = Done c' /\ refused session c c').
  { destruct (refusal_spec c1) as (msg & Emsg & E). exists (note FinishRead (note (Wrote msg) c1)). split; [exact E|].
    split; [| exact Es | | | | exists msg; split; [done | cbn; by rewrite Et, <- !app_assoc]];
      subst c1; unfold note; cbn; destruct (session_id c); done. }
  destruct (crypt s (secret_of K hash) session make_decrypt (1 - m)) as [rec|] eqn:Erec; [|exact HR].
  destruct (crypt s (secret_of K hash) session make_encrypt m) as [send|] eqn:Esend; [|exact HR].
  clear HR. cbn [mbind outcome_bind negb].
  set (c2 := note SendKeys _).
  assert (HF : finished m (secret_of K hash) session c (c2 <| kex_state := KEX_STATE_NEWKEYS |>)).
  { subst c2. unfold note. split; [exact Ef | done | exact Es | | | | exact Ep | exact Er].
    - unfold sends, sender. by rewrite Esend.
    - eexists _, _, _. split; [done|]. unfold receiver. by rewrite Erec.
    - cbn. rewrite Et, <- app_assoc. by eexists. }
  assert (HD : forall c', finished m (secret_of K hash) session c c' -> exists c'',
    (if has_flag PEER_SEND_NO_DEBUG (peer_flags c') then Done c' else send_verbose verbose "Key exchange successful!" c') = Done c''
    /\ finished m (secret_of K hash) session c c'').
  { intros c' Hf'. destruct (has_flag _ _); [by exists c'|]. unfold send_verbose. destruct verbose; [|by exists c'].
    destruct (ssh_format "%c%c%z%z" _) as [msg| |] eqn:E; [|by vm_compute in E..]. exists (note (Wrote msg) c'). split; [done|].
    destruct Hf' as [? ? ? ? ? [more Hmore] ? ?]. split; try done. exists (more ++ [Wrote msg]). cbn. by rewrite Hmore, <- app_assoc. }
  destruct (HD _ HF) as (c3 & E3 & H3). cbv zeta. rewrite E3. cbn [mbind outcome_bind].
  destruct (established c3); eexists; (split; [done|]); [|done].
  destruct H3 as [? ? ? ? ? [more Hmore] ? ?]. split; try done. exists (more ++ [Established]). cbn. by rewrite Hmore, <- app_assoc.
Qed.

(** ** The exchange *)

(** What both ends know before the exchange: the version strings, the KEXINIT
    messages, and the algorithm of the host key. *)
Context (vc vs kc ks : bytes) (hk : Z).

Record ready (m : Z) (c : connection) : Prop := {
  r_mode : mode c = m;
  r_versions : versions c = mkTwo (Some vc) (Some vs);
  r_kexinits : literal_kexinits c = mkTwo (Some kc) (Some ks);
  r_state : kex_state c = KEX_STATE_IN_PROGRESS;
  r_paused : paused c = false;
  r_max : rec_max_packet c = SSH_MAX_PACKET;
  r_algorithm : signature_algorithm hk c = hk
}.

Context (Hvc : short vc) (Hvs : short vs) (Hkc : short kc) (Hks : short ks).

(** The group, the host key, and what the client thinks of it. *)
Context (p g q : Z) (Hp : 1 < p <= 2 ^ (8 * group_octets - 1)) (Hq : 1 < q).
Context (kp : keypair) (verify : Z -> bytes -> bytes -> bool).

Notation G := (make_group_zn p g q).

Lemma prologue_fits : packet_fits (prologue vc vs kc ks).
Proof.
  unfold short in *. split; [repeat (apply Forall_cons; split); try (by apply short_fits); by apply Forall_nil|].
  unfold prologue, packet_octets. cbn [mbind list_bind field_octets]. rewrite app_nil_r, !zlen_app, !zlen_counted. lia.
Qed.

Lemma power_fits x : fits (FBignum (power G g x)) /\ zlen (bignum_format_s (power G g x)) <= group_octets.
Proof. apply (element_fits p); [apply Hp | apply power_range; lia]. Qed.

Lemma small_fits (key : bytes) n sig : short key -> short sig -> fits (FBignum n) -> zlen (bignum_format_s n) <= group_octets ->
  packet_fits [FString key] /\ packet_fits (client_msg n) /\ packet_fits (server_msg key n sig).
Proof.
  intros [Hk Hkl] [Hs Hsl] Hn Hl. change group_octets with 4096 in Hl. unfold packet_fits, client_msg, server_msg, packet_octets.
  cbn [mbind list_bind field_octets]. rewrite !app_nil_r, !zlen_app, !zlen_counted, !zlen_cons. change (zlen []) with 0.
  split_and!; try lia; repeat (apply Forall_cons; split); try (apply short_fits; by split); try done; by apply Forall_nil.
Qed.

Lemma client_starts RANDOM v l (c : connection) : ready CONNECTION_CLIENT c ->
  let x := (dh_generate_secret RANDOM G c).1.1 in let e := power G g x in
  exists h, do_init_client_dh RANDOM G hk (lookup_verifier v) l c
      = Done (install SSH_MSG_KEXDH_REPLY (dh_reply_handler (mkDhClient (mkDh G e 0 x [] h []) hk v l))
          (note (Wrote (packet_octets (client_msg e))) (c <| draws := draws c + 1 |>)))
    /\ hashed_so_far h (packet_octets (prologue vc vs kc ks)).
Proof.
  intros Hr x e. destruct (init_dh_spec G c vc vs kc ks (r_versions _ _ Hr) (r_kexinits _ _ Hr) prologue_fits) as (h & E & Hh).
  exists h. split; [|done]. unfold do_init_client_dh. rewrite E. cbn [mbind outcome_bind].
  assert (HG : dh_generate_secret RANDOM G c = (x, e, c <| draws := draws c + 1 |>)) by done.
  unfold dh_make_client_msg. cbn [dh_group]. rewrite HG. destruct (power_fits x) as [Hf Hl].
  destruct (small_fits [] e [] ltac:(split; [constructor | done]) ltac:(split; [constructor | done]) Hf Hl) as (_ & Hm & _).
  rewrite format_client_msg by exact Hm. done.
Qed.

Lemma server_starts RANDOM uninitialised keys l (c : connection) : ready CONNECTION_SERVER c -> keys hk = Some kp ->
  let y := (dh_generate_secret RANDOM G c).1.1 in
  exists h, do_init_server_dh RANDOM uninitialised G hk (host_keys keys) l c
      = Done (install SSH_MSG_KEXDH_INIT (dh_init_handler (mkDhServer (mkDh G 0 (power G g y) y [] h []) hk (public kp) (private kp) l))
          (c <| draws := draws c + 1 |>))
    /\ hashed_so_far h (packet_octets (prologue vc vs kc ks)).
Proof.
  intros Hr Hkeys y. destruct (init_dh_spec G c vc vs kc ks (r_versions _ _ Hr) (r_kexinits _ _ Hr) prologue_fits) as (h & E & Hh).
  exists h. split; [|done]. unfold do_init_server_dh. rewrite Hkeys, E. cbn [mbind outcome_bind].
  by rewrite (r_algorithm _ _ Hr), Z.eqb_refl.
Qed.

(** The octets whose hash is the exchange hash. *)
Definition transcript (key : bytes) (e f K : Z) : bytes :=
  packet_octets (prologue vc vs kc ks) ++ packet_octets [FString key] ++ packet_octets [FBignum e; FBignum f; FString (bignum_format_s K)].

(** The hash of an end that has everything. *)
Lemma exchange_digest (self : dh_instance H) key K :
  hashed_so_far (dh_hash self) (packet_octets (prologue vc vs kc ks)) -> packet_fits [FString key] -> dh_K self = bignum_format_s K ->
  packet_fits [FBignum (dh_e self); FBignum (dh_f self); FString (dh_K self)] ->
  exists h self', dh_hash_update (ssh_format "%S" [VString key]) self = Done self' /\
    dh_hash_digest self' = Done (mkDh (dh_group self) (dh_e self) (dh_f self) (dh_secret self) (dh_K self) h
      (hash_of (transcript key (dh_e self) (dh_f self) K))).
Proof.
  intros Hh Hk HK Hf. destruct (dh_hash_update_spec self _ _ Hh Hk) as (h & E & Hh').
  destruct (dh_hash_digest_spec (mkDh (dh_group self) (dh_e self) (dh_f self) (dh_secret self) (dh_K self) h (exchange_hash self)) _ Hh' Hf) as (h2 & E2 & _).
  exists h2. eexists. split; [exact E|]. rewrite E2. unfold transcript. cbn [dh_group dh_e dh_f dh_secret dh_K]. by rewrite HK, <- app_assoc.
Qed.

Context (locks : Z -> bytes -> bool).

(** A packet of the exchange is handed to its handler. *)
Lemma handle_in_progress RANDOM verbose u seq packet msg rest (c : connection) : packet = msg :: rest ->
  paused c = false -> kex_state c = KEX_STATE_IN_PROGRESS -> zlen packet <= rec_max_packet c -> msg <> SSH_MSG_KEXINIT -> msg <> SSH_MSG_NEWKEYS ->
  connection_handle_packet RANDOM verbose locks u seq packet c
  = HANDLE_PACKET RANDOM verbose locks u (dispatch c msg) seq packet (note (Handling packet) c).
Proof.
  intros -> Hp' Hk Hl H1 H2. unfold connection_handle_packet. rewrite Hp'. cbn [negb assert_that mbind outcome_bind].
  change (rec_max_packet (note _ c)) with (rec_max_packet c). change (kex_state (note _ c)) with (kex_state c).
  rewrite (proj2 (Z.ltb_ge _ _)), Hk by done. unfold gate. cbn [Z.eqb KEX_STATE_IN_PROGRESS KEX_STATE_INIT KEX_STATE_IGNORE Pos.eqb].
  by rewrite (proj2 (Z.eqb_neq _ _) H1), (proj2 (Z.eqb_neq _ _) H2).
Qed.

Lemma K_fits x y : packet_fits [FBignum (power G g x); FBignum (power G g y); FString (bignum_format_s (power G (power G g x) y))]
  /\ short (bignum_format_s (power G (power G g x) y)) /\ fits (FBignum (power G (power G g x) y)).
Proof.
  destruct (power_fits x) as [Hx Hxl], (power_fits y) as [Hy Hyl].
  destruct (element_fits p (power G (power G g x) y)) as [HK HKl]; [lia | |].
  { cbn [make_group_zn power]. rewrite (Zpow_mod_correct (Zpow_mod g x p)) by lia. apply Z.mod_pos_bound. lia. }
  change group_octets with 4096 in *. assert (short (bignum_format_s (power G (power G g x) y))) as HS by (split; [apply bignum_format_s_ok | lia]).
  split; [|done]. unfold packet_fits, packet_octets. cbn [mbind list_bind field_octets]. rewrite !app_nil_r, !zlen_app, !zlen_counted.
  split; [|lia]. repeat (apply Forall_cons; split); try done. by apply short_fits.
Qed.

Lemma hash_short m : short (hash_of m).
Proof. pose proof (hash_of_length m). pose proof hash_size_small. split; [apply hash_of_bytes | lia]. Qed.

(** The exponents of both ends, and what follows from them. *)
Context (x y : Z) (Hx : 1 <= x) (Hy : 1 <= y).
Notation e := (power G g x).
Notation f := (power G g y).
Notation K := (power G e y).
Notation hash := (hash_of (transcript (public kp) e f K)).
Notation signature := (private kp hk hash).

Context (He : acceptable G e = true) (Hf : acceptable G f = true) (Hkey : short (public kp)) (Hsig : short signature).
Context (Hfits : zlen (public kp) + zlen signature <= 2 ^ 14) (Hmatched : matched).

Lemma server_answers RANDOM verbose u seq h (c : connection) :
  ready CONNECTION_SERVER c -> hashed_so_far h (packet_octets (prologue vc vs kc ks)) ->
  dispatch c SSH_MSG_KEXDH_INIT = dh_init_handler (mkDhServer (mkDh G 0 f y [] h []) hk (public kp) (private kp) (objects s)) ->
  exists c', connection_handle_packet RANDOM verbose locks u seq (packet_octets (client_msg e)) c = Done c'
    /\ ended CONNECTION_SERVER (secret_of (bignum_format_s K) hash) (default hash (session_id c))
        (install SSH_MSG_KEXDH_INIT connection_fail_handler (note (Wrote (packet_octets (server_msg (public kp) f signature))) (note (Handling (packet_octets (client_msg e))) c))) c'.
Proof.
  intros Hr Hh Hd. destruct (power_fits x) as [Hx1 Hx2], (power_fits y) as [Hy1 Hy2], (K_fits x y) as (HK & HKs & HKf).
  destruct (small_fits (public kp) e signature Hkey Hsig Hx1 Hx2) as (Hk & Hc & _).
  destruct (small_fits (public kp) f signature Hkey Hsig Hy1 Hy2) as (_ & _ & Hs).
  assert (E : packet_octets (client_msg e) = SSH_MSG_KEXDH_INIT :: packet_octets [FBignum e]) by done.
  rewrite (handle_in_progress _ _ _ _ _ _ _ _ E); [|apply Hr..| |done|done].
  2: { rewrite (r_max _ _ Hr), E. unfold packet_octets. cbn [mbind list_bind field_octets]. rewrite app_nil_r, zlen_cons, zlen_counted.
       change group_octets with 4096 in Hx2. unfold SSH_MAX_PACKET. lia. }
  rewrite Hd. cbn [HANDLE_PACKET]. unfold do_handle_dh_init, dh_process_client_msg. cbn [s_dh dh_group dh_secret].
  rewrite parse_client_msg_takes by done. cbn [mbind outcome_bind dh_f dh_hash exchange_hash]. rewrite format_K by done. cbn [mbind outcome_bind server_key s_hostkey_algorithm signer s_algorithms].
  destruct (exchange_digest (mkDh G e f y (bignum_format_s K) h []) (public kp) K Hh Hk eq_refl HK) as (h2 & self' & E1 & E2).
  unfold dh_make_server_msg. rewrite E1. cbn [mbind outcome_bind]. rewrite E2. cbn [mbind outcome_bind dh_f exchange_hash dh_e dh_K].
  rewrite format_server_msg by exact Hs. unfold C_WRITE at 1. cbn [mbind outcome_bind exchange_hash dh_K].
  apply keyexchange_finish_spec; [done | exact (r_mode _ _ Hr) | by right | done | done | apply hash_short].
Qed.

Lemma client_accepts RANDOM verbose u seq h v (c : connection) :
  ready CONNECTION_CLIENT c -> hashed_so_far h (packet_octets (prologue vc vs kc ks)) -> v hk (public kp) = Some verify -> verify hk hash signature = true ->
  dispatch c SSH_MSG_KEXDH_REPLY = dh_reply_handler (mkDhClient (mkDh G e 0 x [] h []) hk v (objects s)) ->
  exists c', connection_handle_packet RANDOM verbose locks u seq (packet_octets (server_msg (public kp) f signature)) c = Done c'
    /\ ended CONNECTION_CLIENT (secret_of (bignum_format_s K) hash) (default hash (session_id c))
        (install SSH_MSG_KEXDH_REPLY connection_fail_handler (note (Handling (packet_octets (server_msg (public kp) f signature))) c)) c'.
Proof.
  intros Hr Hh Hv Hverify Hd. destruct (power_fits y) as [Hy1 Hy2], (K_fits x y) as (HK & HKs & HKf).
  destruct (small_fits (public kp) f signature Hkey Hsig Hy1 Hy2) as (Hk & _ & Hs).
  assert (E : packet_octets (server_msg (public kp) f signature) = SSH_MSG_KEXDH_REPLY :: packet_octets [FString (public kp); FBignum f; FString signature]) by done.
  rewrite (handle_in_progress _ _ _ _ _ _ _ _ E); [|apply Hr..| |done|done].
  2: { rewrite (r_max _ _ Hr), E. unfold packet_octets. cbn [mbind list_bind field_octets]. rewrite app_nil_r, zlen_cons, !zlen_app, !zlen_counted.
       change group_octets with 4096 in Hy2. unfold SSH_MAX_PACKET. lia. }
  rewrite Hd. cbn [HANDLE_PACKET]. unfold do_handle_dh_reply, dh_process_server_msg. cbn [c_dh dh_group dh_secret].
  rewrite parse_server_msg_takes by done. cbn [mbind outcome_bind dh_e dh_hash exchange_hash].
  assert (EK : power G f x = K) by (apply (power_power p g q); lia). rewrite EK, format_K by done. cbn [mbind outcome_bind].
  destruct (exchange_digest (mkDh G e f x (bignum_format_s K) h []) (public kp) K Hh Hk eq_refl HK) as (h2 & self' & E1 & E2).
  rewrite E1. cbn [mbind outcome_bind]. rewrite E2. cbn [mbind outcome_bind dh_f exchange_hash dh_e dh_K verifier c_hostkey_algorithm c_algorithms].
  rewrite Hv. change (signature_algorithm hk _) with (signature_algorithm hk c). rewrite (r_algorithm _ _ Hr), Hverify. cbn [negb].
  edestruct (keyexchange_finish_spec verbose CONNECTION_CLIENT hash (bignum_format_s K) (default hash (session_id c))) as (c' & E' & F');
    [| | | | | | exists c'; split; [exact E' | revert F'; unfold ended; destruct (weak _ _); intros F'; destruct F'; by split]];
    [done | exact (r_mode _ _ Hr) | by left | done | done | apply hash_short].
Qed.

(** NEWKEYS, when it is due. *)
Lemma takes_keys RANDOM verbose u seq m secret session (c0 c : connection) :
  finished m secret session c0 c -> paused c0 = false -> rec_max_packet c0 = SSH_MAX_PACKET ->
  exists c', connection_handle_packet RANDOM verbose locks u seq [SSH_MSG_NEWKEYS] c = Done c'
    /\ sends c' = sender s secret session m /\ receives c' = receiver s secret session (1 - m)
    /\ session_id c' = Some session /\ kex_state c' = KEX_STATE_INIT /\ paused c' = false.
Proof.
  intros [Hm Hk Hsession Hsend (rec & rmac & inflate & Hd & Hrec) _ Hpaused Hmax] Hp0 Hm0. rewrite Hp0 in Hpaused. rewrite Hm0 in Hmax.
  unfold connection_handle_packet. rewrite Hpaused. cbn [negb assert_that mbind outcome_bind].
  change (rec_max_packet (note _ c)) with (rec_max_packet c). change (kex_state (note _ c)) with (kex_state c).
  change (dispatch (note _ c)) with (dispatch c). rewrite Hmax, Hk. change (SSH_MAX_PACKET <? zlen [SSH_MSG_NEWKEYS]) with false.
  cbn [gate Z.eqb KEX_STATE_NEWKEYS KEX_STATE_IN_PROGRESS KEX_STATE_INIT KEX_STATE_IGNORE Pos.eqb SSH_MSG_NEWKEYS orb negb mbind outcome_bind].
  change 21 with SSH_MSG_NEWKEYS. rewrite Hd. cbn [HANDLE_PACKET]. unfold do_handle_newkeys.
  change (parse_with (parse_message SSH_MSG_NEWKEYS) [SSH_MSG_NEWKEYS]) with (Done (Some tt) : outcome (option unit)). cbn [mbind outcome_bind].
  eexists. split; [done|]. split_and!; [exact Hsend | by rewrite <- Hrec | exact Hsession | done | exact Hpaused].
Qed.

End Exchange.

(** ** The whole exchange *)

Section Complete.
Context {H : Type} `{HL : HashLaws H} {C M P : Type} (s : suite C M P) (s_ok : suite_ok s) (Hmatched : matched s).
Context (vc vs kc ks : bytes) (Hvc : short vc) (Hvs : short vs) (Hkc : short kc) (Hks : short ks).
Context (p g q : Z) (Hp : 1 < p <= 2 ^ (8 * group_octets - 1)) (Hq : 1 < q).
Context (hk : Z) (kp : keypair) (verify : Z -> bytes -> bytes -> bool).
Notation G := (make_group_zn p g q).
Notation connection := (ssh_connection C M P H).

(** A key the client accepts the signatures of, which are not too long. *)
Context (Hkey : short (public kp)).
Context (Hsign : forall m, short (private kp hk m) /\ zlen (public kp) + zlen (private kp hk m) <= 2 ^ 14 /\ verify hk m (private kp hk m) = true).

(** The environment of each end. *)
Context (RANDOM_c RANDOM_s : Z -> Z -> bytes) (verbose_c verbose_s : bool) (locks_c locks_s : Z -> bytes -> bool) (u : Z).
Notation client_handles := (connection_handle_packet RANDOM_c verbose_c locks_c u).
Notation server_handles := (connection_handle_packet RANDOM_s verbose_s locks_s u).

Lemma trace_two n h x y z l (c : connection) : trace (install n h (note x (note y c))) ++ z :: l = trace c ++ [y; x; z] ++ l.
Proof. unfold install, note. cbn. by rewrite <- !app_assoc. Qed.
Lemma trace_one n h y z l (c : connection) : trace (install n h (note y c)) ++ z :: l = trace c ++ [y; z] ++ l.
Proof. unfold install, note. cbn. by rewrite <- !app_assoc. Qed.

(** An end that took no new keys: it still has the old ones, and no handler for
    the NEWKEYS of the other. *)
Definition kept (c c' : connection) : Prop :=
  sends c' = sends c /\ receives c' = receives c /\ dispatch c' SSH_MSG_NEWKEYS = dispatch c SSH_MSG_NEWKEYS /\ kex_state c' = KEX_STATE_IN_PROGRESS.

(** C5. A key exchange between a client and a server of this implementation
    ends, with matching keys or with the same refusal at both ends. Suppose
    both have the same version strings and the same pair of KEXINIT messages,
    chose the same algorithms and the same host key algorithm, the ciphers
    refuse a weak key in both modes alike, and the shares of the secret they
    draw are not the elements that are refused. Then the client writes its
    share, the server answers the packet with its key, its share and a
    signature, which the client accepts; each writes NEWKEYS, and both have the
    same session identifier. If no cipher key that follows from the secret is
    weak, each takes the NEWKEYS of the other, no exchange is in progress any
    more, and for each direction the sender has the cipher, the MAC and the
    compression made of the algorithm and the octets that the receiver's were
    made of. If one is, both ends refuse: each disconnects with the same
    message and keeps its old keys. *)
Theorem exchange_agrees keys v (c0 s0 : connection) n1 n2 n3 n4
  (Hc : ready vc vs kc ks hk CONNECTION_CLIENT c0) (Hs : ready vc vs kc ks hk CONNECTION_SERVER s0) (Hsession : session_id c0 = session_id s0)
  (Hkeys : keys hk = Some kp) (Hv : v hk (public kp) = Some verify)
  (He : acceptable G (power G g (dh_generate_secret RANDOM_c G c0).1.1) = true) (Hf : acceptable G (power G g (dh_generate_secret RANDOM_s G s0).1.1) = true) :
  exists c1 c2 s1 s2 share answer secret session more more',
    do_init_client_dh RANDOM_c G hk (lookup_verifier v) (objects s) c0 = Done c1 /\ trace c1 = trace c0 ++ [Wrote share]
    /\ do_init_server_dh RANDOM_s u G hk (host_keys keys) (objects s) s0 = Done s1
    /\ server_handles n1 share s1 = Done s2 /\ trace s2 = trace s1 ++ [Handling share; Wrote answer; Wrote [SSH_MSG_NEWKEYS]] ++ more
    /\ client_handles n2 answer c1 = Done c2 /\ trace c2 = trace c1 ++ [Handling answer; Wrote [SSH_MSG_NEWKEYS]] ++ more'
    /\ session_id c2 = Some session /\ session_id s2 = Some session
    /\ if weak s secret session then
         exists msg, refusal = Done msg /\ more = [Wrote msg; FinishRead] /\ more' = [Wrote msg; FinishRead] /\ kept c0 c2 /\ kept s0 s2
       else
         exists c3 s3, client_handles n3 [SSH_MSG_NEWKEYS] c2 = Done c3 /\ server_handles n4 [SSH_MSG_NEWKEYS] s2 = Done s3
         /\ kex_state c3 = KEX_STATE_INIT /\ kex_state s3 = KEX_STATE_INIT /\ session_id c3 = Some session /\ session_id s3 = Some session
         /\ sends c3 = sender s secret session 0 /\ receives s3 = receiver s secret session 0
         /\ sends s3 = sender s secret session 1 /\ receives c3 = receiver s secret session 1.
Proof.
  assert (HqG : 1 < order G) by exact Hq.
  pose proof (secret_positive RANDOM_c G c0 HqG) as Hx. pose proof (secret_positive RANDOM_s G s0 HqG) as Hy.
  destruct (client_starts vc vs kc ks hk Hvc Hvs Hkc Hks p g q Hp RANDOM_c v (objects s) c0 Hc) as (hc & Ec & Hhc).
  destruct (server_starts vc vs kc ks hk Hvc Hvs Hkc Hks p g q kp RANDOM_s u keys (objects s) s0 Hs Hkeys) as (hs & Es & Hhs).
  set (x := (dh_generate_secret RANDOM_c G c0).1.1) in *. set (y := (dh_generate_secret RANDOM_s G s0).1.1) in *.
  set (c1 := install _ _ _) in Ec. set (s1 := install _ _ _) in Es.
  set (hash := hash_of (transcript vc vs kc ks (public kp) (power G g x) (power G g y) (power G (power G g x) y))).
  destruct (Hsign hash) as (Hsig & Hlen & Hverify).
  assert (Hc1 : ready vc vs kc ks hk CONNECTION_CLIENT c1) by (destruct Hc; by split).
  assert (Hs1 : ready vc vs kc ks hk CONNECTION_SERVER s1) by (destruct Hs; by split).
  destruct (server_answers s s_ok vc vs kc ks hk p g q Hp kp locks_s x y He Hkey Hsig Hmatched RANDOM_s verbose_s u n1 hs s1 Hs1 Hhs eq_refl) as (s2 & E1 & F1).
  destruct (client_accepts s s_ok vc vs kc ks hk p g q Hp kp verify locks_c x y Hx Hy Hf Hkey Hsig Hlen Hmatched RANDOM_c verbose_c u n2 hc v c1 Hc1 Hhc Hv Hverify eq_refl)
    as (c2 & E2 & F2).
  change (session_id c1) with (session_id c0) in F2. change (session_id s1) with (session_id s0) in F1. rewrite Hsession in F2.
  fold hash in F1, F2. set (secret := secret_of (bignum_format_s (power G (power G g x) y)) hash) in *. set (session := default hash (session_id s0)) in *.
  exists c1, c2, s1, s2. do 2 eexists. exists secret, session.
  unfold ended in F1, F2. destruct (weak s secret session).
  - destruct (u_trace _ _ _ F1) as (msg & Em & T1). destruct (u_trace _ _ _ F2) as (msg' & Em' & T2).
    assert (msg' = msg) as -> by congruence. exists [Wrote msg; FinishRead], [Wrote msg; FinishRead].
    split_and!; [exact Ec | done | exact Es | exact E1 | | exact E2 | | apply F2 | apply F1 |].
    + rewrite T1. apply trace_two.
    + rewrite T2. apply trace_one.
    + exists msg. destruct F1, F2. pose proof (r_state _ _ _ _ _ _ _ Hc1). pose proof (r_state _ _ _ _ _ _ _ Hs1).
      unfold kept. split_and!; first [done | etrans; [eassumption | done]].
  - destruct (f_trace _ _ _ _ _ _ F1) as [more T1]. destruct (f_trace _ _ _ _ _ _ F2) as [more' T2]. exists more, more'.
    destruct (takes_keys s locks_s RANDOM_s verbose_s u n4 _ _ _ _ _ F1 (r_paused _ _ _ _ _ _ _ Hs1) (r_max _ _ _ _ _ _ _ Hs1)) as (s3 & E3 & S1 & S2 & S3 & S4 & _).
    destruct (takes_keys s locks_c RANDOM_c verbose_c u n3 _ _ _ _ _ F2 (r_paused _ _ _ _ _ _ _ Hc1) (r_max _ _ _ _ _ _ _ Hc1)) as (c3 & E4 & C1 & C2 & C3 & C4 & _).
    split_and!; [exact Ec | done | exact Es | exact E1 | | exact E2 | | apply F2 | apply F1 |].
    + rewrite T1. apply trace_two.
    + rewrite T2. apply trace_one.
    + exists c3, s3. by split_and!.
Qed.

End Complete.

(** ** An instance *)

Import Hashes.

Definition sample_cipher : crypto_algorithm (bytes * option bytes) := mkCrypto 24 8 (fun key iv => Some (key, iv)) (fun key iv => Some (key, iv)).
Definition sample_suite : suite (bytes * option bytes) bytes unit :=
  mkSuite (mkTwo sample_cipher sample_cipher) (mkTwo (Some (mkMac 20 id)) None) (mkTwo None (Some (mkCompress tt tt))).
Definition sample_keypair : keypair := mkKeypair [1; 2; 3] (fun _ m => [zlen m mod 256; 7]).
Definition sample_verify (_ : Z) (m sig : bytes) : bool := bool_decide (sig = [zlen m mod 256; 7]).
Definition sample_random (draw n : Z) : bytes := replicate (Z.to_nat n) 9.
Definition sample_connection (m : Z) : ssh_connection (bytes * option bytes) bytes unit sha_instance :=
  (make_ssh_connection m 0) <| versions := mkTwo (Some [83; 83; 72]) (Some [83; 83]) |> <| literal_kexinits := mkTwo (Some [20; 1]) (Some [20; 2]) |>
    <| kex_state := KEX_STATE_IN_PROGRESS |>.

Lemma sample_ready m : m = 0 \/ m = 1 -> ready [83; 83; 72] [83; 83] [20; 1] [20; 2] ATOM_SSH_DSS m (sample_connection m).
Proof. intros [-> | ->]; split; vm_compute; reflexivity. Qed.

Lemma sample_suite_ok : suite_ok sample_suite.
Proof. split; intros d; [unfold at_mode; destruct (d =? CONNECTION_CLIENT); cbn; lia|]. intros a. unfold at_mode. destruct (d =? CONNECTION_CLIENT); intros [= <-]. cbn. lia. Qed.

Lemma sample_matched : matched sample_suite.
Proof. intros d key iv _ a _ _ _. subst a. unfold at_mode. by destruct (d =? CONNECTION_CLIENT). Qed.

(** A cipher for which every key is weak. *)
Definition timid_cipher : crypto_algorithm (bytes * option bytes) := mkCrypto 24 8 (fun _ _ => None) (fun _ _ => None).
Definition timid_suite : suite (bytes * option bytes) bytes unit :=
  mkSuite (mkTwo timid_cipher timid_cipher) (mkTwo (Some (mkMac 20 id)) None) (mkTwo None (Some (mkCompress tt tt))).

Lemma timid_suite_ok : suite_ok timid_suite.
Proof. split; intros d; [unfold at_mode; destruct (d =? CONNECTION_CLIENT); cbn; lia|]. intros a. unfold at_mode. destruct (d =? CONNECTION_CLIENT); intros [= <-]. cbn. lia. Qed.
Lemma timid_matched : matched timid_suite.
Proof. intros d key iv _ a _ _ _. subst a. unfold at_mode. by destruct (d =? CONNECTION_CLIENT). Qed.

Lemma bytes_short (l : bytes) : forallb (fun b => (0 <=? b) && (b <? 256)) l && (zlen l <? 2 ^ 28) = true -> short l.
Proof.
  intros [Hb Hl]%andb_true_iff. split; [|lia]. apply Forall_forall. intros b Hin. rewrite forallb_forall in Hb.
  specialize (Hb b ltac:(by apply list_elem_of_In)). unfold is_byte. lia.
Qed.

Lemma sample_signatures m : short (private sample_keypair ATOM_SSH_DSS m)
  /\ zlen (public sample_keypair) + zlen (private sample_keypair ATOM_SSH_DSS m) <= 2 ^ 14
  /\ sample_verify ATOM_SSH_DSS m (private sample_keypair ATOM_SSH_DSS m) = true.
Proof.
  split; [split; [|done]|split; [by vm_compute | by apply bool_decide_eq_true_2]].
  pose proof (Z.mod_pos_bound (zlen m) 256 ltac:(lia)). repeat constructor; unfold is_byte; lia.
Qed.

Ltac sample_exchange E suite ok matched :=
  pose proof (exchange_agrees (H := sha_instance) suite ok matched [83; 83; 72] [83; 83] [20; 1] [20; 2]
    ltac:(by apply bytes_short) ltac:(by apply bytes_short) ltac:(by apply bytes_short) ltac:(by apply bytes_short)
    23 5 11 ltac:(split; [lia | by apply Z.leb_le; vm_compute]) ltac:(lia) ATOM_SSH_DSS sample_keypair sample_verify
    ltac:(by apply bytes_short) sample_signatures sample_random (fun _ _ => [4; 5]) false true (fun _ _ => false) (fun _ _ => false) 0
    (fun _ => Some sample_keypair) (fun _ _ => Some sample_verify) (sample_connection 0) (sample_connection 1) 3 3 4 4
    (sample_ready 0 (or_introl eq_refl)) (sample_ready 1 (or_intror eq_refl)) eq_refl eq_refl eq_refl ltac:(vm_compute; reflexivity) ltac:(vm_compute; reflexivity)) as E.

Theorem exchange_agrees_witness :
  (exists c3 s3 : ssh_connection (bytes * option bytes) bytes unit sha_instance, exists secret session,
   kex_state c3 = KEX_STATE_INIT /\ kex_state s3 = KEX_STATE_INIT /\ session_id c3 = Some session /\ session_id s3 = Some session
   /\ sends c3 = sender sample_suite secret session 0 /\ receives s3 = receiver sample_suite secret session 0
   /\ sends s3 = sender sample_suite secret session 1 /\ receives c3 = receiver sample_suite secret session 1)
  /\ exists c2 s2 : ssh_connection (bytes * option bytes) bytes unit sha_instance, kept (sample_connection 0) c2 /\ kept (sample_connection 1) s2.
Proof.
  split.
  - sample_exchange E sample_suite sample_suite_ok sample_matched.
    destruct E as (c1 & c2 & s1 & s2 & share & answer & secret & session & more & more' & _ & _ & _ & _ & _ & _ & _ & _ & _ & E).
    change (weak sample_suite secret session) with false in E.
    destruct E as (c3 & s3 & _ & _ & K1 & K2 & I1 & I2 & A1 & A2 & A3 & A4). exists c3, s3, secret, session. split_and!; assumption.
  - sample_exchange E timid_suite timid_suite_ok timid_matched.
    destruct E as (c1 & c2 & s1 & s2 & share & answer & secret & session & more & more' & _ & _ & _ & _ & _ & _ & _ & _ & _ & E).
    change (weak timid_suite secret session) with true in E.
    destruct E as (msg & _ & _ & _ & K1 & K2). exists c2, s2. split; assumption.
Defined.

End Agreement.
