(* ===== verification/Suites.v ===== *)
(** The ciphers the program offers, in the packet layer: an algorithm in the
    mode of chained blocks, with an HMAC, carries packets from the sender to
    the receiver; and the key exchange finds them as it needs them: what one
    mode refuses, the other does. *)
From S2P Require Import Prelude Hash Crypto Blocks Feistel Des Cast Blowfish Aes Packet.
From S2P Require Keyexchange Keys Agreement.
Import Crypto Blocks Packet.

Module Suites.

#[local] Existing Instances HMAC.hmac_mac HMAC.hmac_laws Hashes.md5_algorithm Hashes.md5_laws Hashes.sha1_algorithm Hashes.sha1_laws.
#[local] Existing Instances Des.des_cipher Des.des_laws Cast.cast_cipher Cast.cast_laws Blowfish.blowfish_cipher Blowfish.blowfish_laws Aes.aes_cipher Aes.aes_laws.

Section Suite.
Context {C : Type} `{CL : CipherLaws C} {D : Type} `{HL : HashLaws D}.

(** The two ends of a connection in one direction, and the keys of a MAC. *)
Definition sender (e : C) (m : HMAC.hmac_instance (H := D)) : connection :=
  {| rec_max_packet := SSH_MAX_PACKET; rec_crypto := None; rec_mac := None; send_crypto := Some e; send_mac := Some m |}.
Definition receiver (d : C) (m : HMAC.hmac_instance (H := D)) : connection :=
  {| rec_max_packet := SSH_MAX_PACKET; rec_crypto := Some d; rec_mac := Some m; send_crypto := None; send_mac := None |}.

(** What is sent with the instance [e] is received with [d]. *)
Definition delivers (e d : C) (mac_key : bytes) : Prop :=
  exists m, HMAC.make_hmac_instance mac_key = Done m
  /\ forall ps, Forall (sendable (receiver d m)) ps ->
     exists cs seq wire, send_all (sender e m) 0 ps = Done (cs, seq, wire)
     /\ forall garbage chunks, is_byte garbage -> mjoin chunks = wire ->
        exists r cr es, read_chunks garbage make_read_packet (receiver d m) chunks = Some (Done (r, cr, es))
        /\ receives (receiver d m) 0 es (ps.*1).

(** The instances an algorithm makes of a key for the two modes are the ends
    of a channel; an algorithm with weak keys may refuse the key. *)
Definition carries (weak : bool) (a : crypto_algorithm C) : Prop :=
  forall key iv mac_key, bytes_ok key -> bytes_ok iv -> key_size a <= zlen key -> iv_size a <= zlen iv ->
  (weak = true /\ forall mode, make_crypt a mode key iv = Done None)
  \/ exists e d, make_crypt a CRYPTO_ENCRYPT key iv = Done (Some e) /\ make_crypt a CRYPTO_DECRYPT key iv = Done (Some d) /\ delivers e d mac_key.

Lemma paired_delivers e d mac_key : paired e d -> delivers e d mac_key.
Proof.
  intros Hp. destruct (HMAC.make_hmac_spec mac_key) as (m & Em & Hm). exists m. split; [done|]. intros ps Hps.
  set (tag := HMAC.rfc_hmac mac_key). assert (Hm' : absorbed tag m []) by by exists mac_key.
  assert (Hs : synced tag (sender e m) (receiver d m) make_read_packet 0).
  { split; try done. split; try done. by apply (paired_usable e d). }
  destruct (channel 0 ltac:(done) tag ps _ _ _ _ Hs ltac:(done) Hps) as (cs & seq & wire & r & cr & es & Es & Hw & Erd & Hrec & Hs').
  exists cs, seq, wire. split; [done|]. intros garbage chunks Hg <-.
  destruct (channel garbage Hg tag ps _ _ _ _ Hs ltac:(done) Hps) as (cs1 & seq1 & wire1 & r1 & cr1 & es1 & Es1 & Hw1 & Erd1 & Hrec1 & _).
  rewrite Es in Es1. injection Es1 as <- <- <-. exists r1, cr1, es1. split; [|done]. rewrite (read_chunks_spec garbage Hg tag); [done|apply Hs|done].
Qed.

Lemma serves_carries a : serves partners a -> carries true a.
Proof.
  intros (_ & _ & _ & Ha) key iv mac_key Hk Hi Hkl Hil.
  destruct (Ha key iv Hk Hi Hkl Hil) as [(e & d & E1 & E2 & Hp)|Hw]; [right; exists e, d|left]; [|done]. split_and!; [done|done|by apply paired_delivers].
Qed.

End Suite.

(** Chaining refuses only the keys its cipher does. *)
Lemma cbc_carries {C} `{CL : CipherLaws C} {D} `{HL : HashLaws D} (a : crypto_algorithm C) : serves partners a -> iv_size a + a_block_size a < 2 ^ 32 ->
  (forall key iv, bytes_ok key -> key_size a <= zlen key -> make_crypt a CRYPTO_ENCRYPT key iv <> Done None) -> carries (D := D) false (crypto_cbc a).
Proof.
  intros Ha Hsize Hne key iv mac_key Hk Hi Hkl Hil. destruct (serves_carries _ (cbc_serves a Ha Hsize) key iv mac_key Hk Hi Hkl Hil) as [[_ Hw]|?]; [|by right].
  specialize (Hw CRYPTO_ENCRYPT). cbn [crypto_cbc make_crypt] in Hw. unfold do_make_cbc_instance in Hw.
  destruct (make_crypt a CRYPTO_ENCRYPT key _) as [[i|]| |] eqn:E; try done. by destruct (Hne _ _ Hk Hkl E).
Qed.

(** With either of the two authentication algorithms. *)
Definition offered {C} `{CL : CipherLaws C} (weak : bool) (a : crypto_algorithm C) : Prop :=
  carries (D := Hashes.sha_instance) weak a /\ carries (D := Hashes.md5_instance) weak a.

Lemma rijndael_offered size : 16 <= size <= 32 -> offered false (crypto_cbc (mkAlgorithm Aes.AES_BLOCK_SIZE size 0 (Aes.make_rijndael_instance size))).
Proof.
  intros Hs. pose proof (reversible_partners _ (Aes.rijndael_serves size Hs)) as Ha.
  split; (apply cbc_carries; [done|done|]); intros key iv Hk Hl; cbn [key_size make_crypt] in *; unfold Aes.make_rijndael_instance;
  by destruct (Aes.set_key_ok size key Hs Hk Hl) as (c & -> & _).
Qed.

Lemma cast_offered : offered false (crypto_cbc Cast.cast128_algorithm).
Proof.
  destruct (Cast.cast_serves 16 ltac:(by split)) as (a & E & _ & Ha). injection E as <-. apply reversible_partners in Ha.
  split; (apply cbc_carries; [done|done|]); intros key iv Hk Hl;
  destruct (Cast.cast128_set_key_ok 16 key Hl) as (c & E); cbn [Cast.cast128_algorithm make_crypt]; unfold Cast.make_cast_instance;
  change Cast.CAST128_MAX_KEY_SIZE with 16; by rewrite E.
Qed.

Lemma blowfish_offered : offered true (crypto_cbc Blowfish.blowfish_algorithm).
Proof.
  destruct (Blowfish.blowfish_serves 16 ltac:(by split)) as (a & E & _ & Ha). injection E as <-. apply reversible_partners in Ha.
  split; by apply serves_carries, cbc_serves.
Qed.

(** C3. Every cipher of the list of the program that is modelled, chained and
    with HMAC-SHA1 or HMAC-MD5, carries packets: from the same key, IV and MAC
    key the two ends make instances such that any sequence of payloads is
    padded, authenticated and encrypted, and, in whatever pieces the octets
    arrive, checked, decrypted and delivered in order; triple DES and Blowfish
    may refuse a weak key instead, at both ends alike, AES and CAST-128 never
    do. *)
Theorem suites_carry :
  offered false (crypto_cbc Aes.rijndael128_algorithm) /\ offered false (crypto_cbc Aes.rijndael192_algorithm)
  /\ offered false (crypto_cbc Aes.rijndael256_algorithm) /\ offered false (crypto_cbc Cast.cast128_algorithm)
  /\ offered true (crypto_cbc Blowfish.blowfish_algorithm)
  /\ exists des3, Des.make_des3 = Done des3 /\ offered true (crypto_cbc des3).
Proof.
  split; [by apply rijndael_offered|]. split; [by apply rijndael_offered|]. split; [by apply rijndael_offered|]. split; [apply cast_offered|]. split; [apply blowfish_offered|].
  destruct Des.des3_cbc_serves as (a & E & _ & _ & Ha). exists a. split; [done|]. split; by apply serves_carries.
Qed.

(** A key of triple DES and one of Blowfish that are not refused. *)
Example suites_keys :
  (a ← Des.make_des3; make_crypt (crypto_cbc a) CRYPTO_ENCRYPT (seqZ 1 24) (seqZ 0 8)) <> Done None
  /\ make_crypt (crypto_cbc Blowfish.blowfish_algorithm) CRYPTO_ENCRYPT (seqZ 1 16) (seqZ 0 8) <> Done None.
Proof. split; by vm_compute. Qed.

(** ** The ciphers in a key exchange *)

Section Exchange.
Context {C : Type} `{CL : CipherLaws C} {M P : Type}.

(** The algorithm as the key exchange sees it: no IV for one without. *)
Definition made (o : outcome (option C)) : option C := match o with Done o => o | _ => None end.
Definition exchange_object (a : crypto_algorithm C) : Keyexchange.Keyexchange.crypto_algorithm C :=
  Keyexchange.Keyexchange.mkCrypto (key_size a) (iv_size a)
    (fun key iv => made (make_crypt a CRYPTO_ENCRYPT key (default [] iv))) (fun key iv => made (make_crypt a CRYPTO_DECRYPT key (default [] iv))).

(** Such ciphers, one for each direction, satisfy what [exchange_agrees] asks
    of the ciphers of a suite. *)
Lemma serves_matched a b macs compressions : serves partners a -> serves partners b ->
  Agreement.Agreement.matched (P := P)
    (Keys.Keys.mkSuite (M := M) (Keyexchange.Keyexchange.mkTwo (exchange_object a) (exchange_object b)) macs compressions).
Proof.
  intros Ha Hb d key iv Hd x Hk Hl Hiv.
  assert (exists c, x = exchange_object c /\ serves partners c) as (c & Ex & _ & _ & Hi & Hc).
  { subst x. cbn. destruct Hd as [-> | ->]; [by exists a | by exists b]. }
  rewrite Ex in Hl, Hiv |- *. cbn [exchange_object Keyexchange.Keyexchange.crypto_key_size Keyexchange.Keyexchange.iv_size
    Keyexchange.Keyexchange.make_encrypt Keyexchange.Keyexchange.make_decrypt] in *.
  assert (Hiv' : bytes_ok (default [] iv) /\ iv_size c <= zlen (default [] iv)).
  { destruct (Z.eqb_spec (iv_size c) 0) as [E|E]; [subst iv; cbn [default]; split; [by apply Forall_nil | unfold zlen; cbn; lia]|].
    destruct Hiv as (v & -> & Hv & Hvl). cbn. split; [done | lia]. }
  destruct (Hc key (default [] iv) Hk (proj1 Hiv') ltac:(lia) (proj2 Hiv')) as [(e & dd & -> & -> & _)|Hw]; [done|].
  rewrite !Hw. done.
Qed.

End Exchange.

(** The ciphers of the program that can refuse a key, triple DES, which is its
    default, among them. *)
Lemma weak_ciphers_matched {M P : Type} macs compressions :
  (exists des3, Des.make_des3 = Done des3 /\
     let o := exchange_object (crypto_cbc des3) in
     Agreement.Agreement.matched (M := M) (P := P) (Keys.Keys.mkSuite (Keyexchange.Keyexchange.mkTwo o o) macs compressions))
  /\ let o := exchange_object (crypto_cbc Blowfish.blowfish_algorithm) in
     Agreement.Agreement.matched (M := M) (P := P) (Keys.Keys.mkSuite (Keyexchange.Keyexchange.mkTwo o o) macs compressions).
Proof.
  split.
  - destruct Des.des3_cbc_serves as (a & E & _ & _ & Ha). exists a. split; [done|]. by apply serves_matched.
  - destruct (Blowfish.blowfish_serves 16 ltac:(by split)) as (a & E & _ & Ha). injection E as <-. apply reversible_partners in Ha.
    cbv zeta. apply serves_matched; by apply cbc_serves.
Qed.

End Suites.
