(* ===== verification/Connection.v ===== *)
(** A connection keeps running: whatever packet the peer sends, in whatever
    state, [connection_handle_packet] ends without a crash in a state that is
    well formed again, and the queue of a paused connection loses nothing. *)
From S2P Require Import Prelude Window Bignum Atoms Format Parse Wire Hash Crypto Channel Messages Keyexchange Kexmessages Keys Agreement.
Import Bignum Atoms Format Parse Wire Crypto Messages Keyexchange Kexmessages Keys Agreement.

Module Connection.

(** ** Parsers of packets of a bounded size *)

(** A parser over at most [n] octets. *)
Definition safe_within (n : Z) {A} (p : Parser A) (Q : A -> Prop) : Prop :=
  forall b, sb_ok b -> zlen (data b) <= n ->
  let '(r, b') := p b in
  sb_ok b' /\ data b' = data b /\ match r with Done a => Q a | Reject => True | Crash _ => False end.

Lemma safe_within_of {A} n (p : Parser A) Q : safe p Q -> safe_within n p Q.
Proof. intros Hp b Hb _. specialize (Hp b Hb). destruct (p b). tauto. Qed.

Lemma safe_within_bind {A B} n (p : Parser A) (f : A -> Parser B) P Q :
  safe_within n p P -> (forall a, P a -> safe_within n (f a) Q) -> safe_within n (p ≫= f) Q.
Proof.
  intros Hp Hf b Hb Hn. specialize (Hp b Hb Hn). unfold mbind, parser_bind. destruct (p b) as [[a| |c] b']; [|tauto|tauto].
  destruct Hp as (Hb' & Hd & Ha). specialize (Hf a Ha b' Hb' ltac:(by rewrite Hd)). destruct (f a b') as [r b'']. naive_solver congruence.
Qed.

Lemma safe_within_ret {A} n (a : A) (Q : A -> Prop) : Q a -> safe_within n (mret a) Q.
Proof. intros. by apply safe_within_of, safe_ret. Qed.

Lemma safe_within_must n (b : bool) : safe_within n (must b) (fun _ => b = true).
Proof. apply safe_within_of. destruct b; [by apply safe_ret | apply safe_reject]. Qed.

Lemma safe_within_eod n : safe_within n parse_eod (fun _ => True).
Proof. intros b Hb _. unfold parse_eod, mbind, parser_bind, left. done. Qed.

Lemma safe_within_octets n l : 0 <= l -> safe_within n (parse_octets l) (fun s => bytes_ok s /\ zlen s <= n).
Proof.
  intros Hl b Hb Hn. destruct (decide (zlen (rest b) < l)) as [Hlt|Hge].
  - unfold parse_octets. rewrite (chunk_short l mret b (rest b) (conj Hb eq_refl) Hlt). done.
  - pose proof (safe_parse_octets l Hl b Hb) as Hs. destruct (parse_octets l b) as [[s| |] b']; try tauto.
    destruct Hs as (? & ? & _ & ? & Hz). split_and!; try done. rewrite Hz. pose proof (zlen_rest b Hb). destruct Hb. lia.
Qed.

Lemma safe_within_string n : safe_within n parse_string (fun s => bytes_ok s /\ zlen s <= n).
Proof.
  eapply safe_within_bind; [apply safe_within_of, safe_parse_uint32|]. intros l [Hl Hl']. exact (safe_within_octets n l Hl).
Qed.

Lemma safe_within_string_copy n : n < 2 ^ 32 -> safe_within n parse_string_copy (fun s => bytes_ok s /\ zlen s <= n).
Proof.
  intros Hn. eapply safe_within_bind; [apply safe_within_string|]. intros s [Hok Hs]. apply safe_within_of, safe_lift. by rewrite ssh_format_copy by lia.
Qed.

(** A packet is parsed, or refused. *)
Lemma parse_with_safe {A} (p : Parser A) Q packet : bytes_ok packet -> zlen packet < 2 ^ 32 -> safe_within (zlen packet) p Q ->
  exists r, parse_with p packet = Done r /\ forall a, r = Some a -> Q a.
Proof.
  intros Hb Hl Hp. specialize (Hp _ (proj1 (pending_init packet Hb Hl)) ltac:(done)). unfold parse_with.
  destruct (p _) as [[a| |] b']; [|by exists None | tauto]. exists (Some a). split; [done|]. intros ? [= <-]. tauto.
Qed.

Create HintDb safety.
#[export] Hint Resolve safe_within_of safe_parse_uint8 safe_parse_uint32 safe_parse_octets safe_parse_boolean safe_parse_bignum safe_parse_string
  safe_parse_atom safe_parse_atom_list safe_within_must safe_within_eod safe_within_string_copy : safety.

(** One parser after the other. *)
Ltac safe_steps := repeat (eapply safe_within_bind; [solve [eauto with safety lia | apply safe_within_of, safe_parse_octets; lia | apply safe_within_of, safe_parse_atom_list; done]|]; intros ? ?);
  try (apply safe_within_ret).

Lemma safe_lists n k : safe_within n (parse_lists k) (fun _ => True).
Proof. induction k as [|k IH]; [by apply safe_within_ret|]. cbn [parse_lists]. by safe_steps. Qed.
#[export] Hint Resolve safe_lists : safety.

Lemma safe_kexinit n : safe_within n parse_kexinit_packet (fun _ => True).
Proof. unfold parse_kexinit_packet. by safe_steps. Qed.

Lemma safe_client_msg n G : safe_within n (parse_client_msg G) (fun e => acceptable G e = true).
Proof. unfold parse_client_msg. by safe_steps. Qed.

Lemma safe_server_msg n G : n < 2 ^ 32 ->
  safe_within n (parse_server_msg G) (fun r => acceptable G r.1.2 = true /\ bytes_ok r.1.1 /\ zlen r.1.1 <= n).
Proof. intros Hn. unfold parse_server_msg. safe_steps. cbn in *. tauto. Qed.

Lemma safe_message n m : safe_within n (parse_message m) (fun _ => True).
Proof.
  unfold parse_message. safe_steps. match goal with |- safe_within _ (must ?x) _ => apply safe_within_of; destruct x; [by apply safe_ret | apply safe_reject] end.
Qed.

Lemma safe_debug n : safe_within n parse_debug (fun _ => True).
Proof. unfold parse_debug. by safe_steps. Qed.

(** ** Well-formed connections *)

Section Connection.
Context {H : Type} `{HL : HashLaws H} {C M P : Type}.
Notation connection := (ssh_connection C M P H).

(** The environment, the group of the exchange, and the end this is. *)
Context (RANDOM : Z -> Z -> bytes) (verbose : bool) (locks : Z -> bytes -> bool) (u : Z).
Context (p g q : Z) (m : Z) (cl : kexinit_closure C M P).
Notation G := (make_group_zn p g q).

Definition crypto_class (a : option (algorithm C M P)) : Prop :=
  match a with None => True | Some (ACrypto a) => 0 <= crypto_key_size a /\ 0 <= iv_size a | _ => False end.
Definition mac_class (a : option (algorithm C M P)) : Prop :=
  match a with None => True | Some (AMac a) => 0 <= mac_key_size a | _ => False end.
Definition compress_class (a : option (algorithm C M P)) : Prop :=
  match a with None => True | Some (ACompress _) => True | _ => False end.

(** Six algorithms, each of the class of its place. *)
Definition objects_ok (l : object_list C M P) : Prop := exists a b c d e f, l = [a; b; c; d; e; f]
  /\ crypto_class a /\ crypto_class b /\ mac_class c /\ mac_class d /\ compress_class e /\ compress_class f.

(** A host key: what it signs is not too long for a packet. *)
Definition key_ok (key : bytes) (sign : Z -> bytes -> bytes) : Prop := short key /\ forall a x, short (sign a x).

(** The configuration of a connection: known algorithms, each in the table
    and of its class, an exchange of this end, and its keys. *)
Record configured : Prop := {
  cf_lists : list_ok (s_kex_algorithms (init cl)) /\ list_ok (s_hostkey_algorithms (init cl)) /\ list_ok (s_crypto_algorithms (init cl))
    /\ list_ok (s_mac_algorithms (init cl)) /\ list_ok (s_compression_algorithms (init cl)) /\ list_ok (s_languages (init cl));
  cf_some : s_kex_algorithms (init cl) <> [];
  cf_exchange : forall a, a ∈ s_kex_algorithms (init cl) ->
    algorithms cl a = Some (AKex (if m =? CONNECTION_CLIENT then dh_client_exchange G else dh_server_exchange G));
  cf_crypto : forall a, a ∈ s_crypto_algorithms (init cl) -> crypto_class (algorithms cl a);
  cf_mac : forall a, a ∈ s_mac_algorithms (init cl) -> mac_class (algorithms cl a);
  cf_compress : forall a, a ∈ s_compression_algorithms (init cl) -> compress_class (algorithms cl a);
  cf_extra : match extra cl with
    | lookup_verifier _ => m = CONNECTION_CLIENT
    | host_keys f => m = CONNECTION_SERVER /\ forall a kp, f a = Some kp -> key_ok (public kp) (private kp) end
}.

Definition dh_ok (self : dh_instance H) : Prop :=
  dh_group self = G /\ (exists t, hashed_so_far (dh_hash self) t) /\ 0 <= dh_e self < p /\ 0 <= dh_f self < p.

Definition handler_ok (h : packet_handler C M P H) : Prop :=
  match h with
  | NULL => False
  | kexinit_handler c => c = cl
  | dh_reply_handler d => dh_ok (c_dh d) /\ objects_ok (c_algorithms d)
  | dh_init_handler d => dh_ok (s_dh d) /\ objects_ok (s_algorithms d) /\ key_ok (server_key d) (signer d)
  | _ => True
  end.

Record wf (c : connection) : Prop := {
  wf_mode : mode c = m;
  wf_versions : exists vc vs, versions c = mkTwo (Some vc) (Some vs) /\ short vc /\ short vs;
  wf_literals : forall d l, at_mode d (literal_kexinits c) = Some l -> short l;
  wf_own : forall k, at_mode m (kexinits c) = Some k -> is_Some (at_mode m (literal_kexinits c)) /\
    exists cookie, bytes_ok cookie /\ zlen cookie = 16 /\ k = do_make_simple_kexinit (init cl) cookie;
  wf_max : rec_max_packet c <= SSH_MAX_PACKET;
  wf_state : kex_state c ∈ [KEX_STATE_INIT; KEX_STATE_IGNORE; KEX_STATE_IN_PROGRESS; KEX_STATE_NEWKEYS];
  wf_dispatch : forall n, n <> SSH_MSG_NEWKEYS -> handler_ok (dispatch c n);
  wf_newkeys : handler_ok (dispatch c SSH_MSG_NEWKEYS) \/ dispatch c SSH_MSG_NEWKEYS = NULL /\ kex_state c <> KEX_STATE_NEWKEYS
}.

(** The packets that were handed out so far. *)
Definition handled (c : connection) : list bytes := omap (fun x => match x with Handling p => Some p | _ => None end) (trace c).

(** What the handling of a packet leaves alone. *)
Record after (c c' : connection) : Prop := {
  af_wf : wf c';
  af_pending : pending c' = pending c;
  af_handled : handled c' = handled c
}.

Definition goes (c : connection) (r : outcome connection) : Prop := exists c', r = Done c' /\ after c c'.

Lemma after_refl c : wf c -> after c c.
Proof. by split. Qed.

Lemma after_trans c c' c'' : after c c' -> after c' c'' -> after c c''.
Proof. intros [? E1 E2] [? E3 E4]. split; [done | by rewrite E3 | by rewrite E4]. Qed.

Lemma goes_done c : wf c -> goes c (Done c).
Proof. intros. exists c. split; [done | by apply after_refl]. Qed.

Lemma goes_after c c' r : after c c' -> goes c' r -> goes c r.
Proof. intros Ha (c'' & -> & Hb). exists c''. split; [done | by eapply after_trans]. Qed.

Lemma goes_bind c r k : goes c r -> (forall c', after c c' -> goes c' (k c')) -> goes c (r ≫= k).
Proof. intros (c' & -> & Ha) Hk. cbn [mbind outcome_bind]. eapply goes_after; [exact Ha | by apply Hk]. Qed.

(** A change of the fields that do not matter. *)
Lemma wf_frame c c' : wf c -> flags c' = flags c -> versions c' = versions c -> literal_kexinits c' = literal_kexinits c -> kexinits c' = kexinits c ->
  rec_max_packet c' = rec_max_packet c -> kex_state c' = kex_state c -> dispatch c' = dispatch c -> wf c'.
Proof. intros [Hm ? ? ? ? ? ? ?] Ef Ev El Ek Er Es Ed. unfold mode in *. by split; unfold mode; rewrite ?Ef, ?Ev, ?El, ?Ek, ?Er, ?Es, ?Ed. Qed.

Lemma after_note c x : wf c -> (forall p, x <> Handling p) -> after c (note x c).
Proof.
  intros Hw Hx. split; [by eapply wf_frame | done |]. unfold handled, note. cbn. rewrite omap_app. cbn.
  destruct x; try by rewrite app_nil_r. by destruct (Hx packet).
Qed.

Lemma goes_write c packet : wf c -> goes c (C_WRITE (Done packet) c).
Proof. intros Hw. exists (note (Wrote packet) c). split; [done | by apply after_note]. Qed.

Lemma raise_spec reason msg (c : connection) : 1 <= reason <= 15 -> reason <> SSH_DISCONNECT_RESERVED ->
  zlen (bytes_of_string (default (nth (Z.to_nat reason) messages EmptyString) msg)) <= 100 ->
  exists packet, raise_protocol reason msg c = Done (note FinishRead (note (Wrote packet) c)).
Proof.
  intros Hr Hn Hl. unfold raise_protocol. rewrite (proj2 (Z.leb_le _ _)), (proj2 (Z.eqb_neq _ _) Hn) by lia.
  cbn [negb assert_that mbind outcome_bind]. rewrite (proj2 (Z.eqb_neq reason 0)) by lia.
  set (s := bytes_of_string _) in *. pose proof (bytes_of_string_ok (default (nth (Z.to_nat reason) messages EmptyString) msg) : bytes_ok s) as Hs.
  assert (Hm : message_ok (Channel.Disconnect reason s)).
  { unfold message_ok, wire_octets, packet_octets. cbn [fields arguments mbind list_bind field_octets]. rewrite !app_nil_r, !zlen_app, !zlen_counted, zlen_WRITE_UINT32.
    pose proof (zlen_nonneg s). change (zlen [u8 ?x]) with 1. change (zlen []) with 0. split; [|split; [constructor | lia]].
    repeat (apply Forall_cons; split); cbn [fits]; try done; unfold is_byte; try lia; split; try done; try lia; constructor. }
  pose proof (encode_octets _ Hm) as E. cbn [Channel.encode] in E. rewrite E. by eexists.
Qed.

Lemma goes_raise reason msg c : 1 <= reason <= 15 -> reason <> SSH_DISCONNECT_RESERVED ->
  zlen (bytes_of_string (default (nth (Z.to_nat reason) messages EmptyString) msg)) <= 100 -> wf c -> goes c (raise_protocol reason msg c).
Proof.
  intros Hr Hn Hl Hw. destruct (raise_spec reason msg c Hr Hn Hl) as [packet ->]. eexists. split; [done|].
  pose proof (after_note c (Wrote packet) Hw ltac:(done)) as H1. eapply after_trans; [exact H1|]. apply after_note; [apply H1 | done].
Qed.

Lemma goes_error msg c : zlen (bytes_of_string (default "Protocol error"%string msg)) <= 100 -> wf c -> goes c (PROTOCOL_ERROR msg c).
Proof. intros. by apply goes_raise. Qed.

Lemma goes_failed msg c : zlen (bytes_of_string msg) <= 100 -> wf c -> goes c (disconnect_kex_failed msg c).
Proof. intros. by apply goes_raise. Qed.

Lemma after_install n h c : wf c -> handler_ok h -> after c (install n h c).
Proof.
  intros Hw Hh. split; [|done|done]. destruct Hw as [? ? ? ? ? ? Hd Hn]. split; try done; unfold install; cbn -[Z.eqb].
  - intros k Hk. destruct (Z.eqb_spec k n); [done | by apply Hd].
  - destruct (Z.eqb_spec SSH_MSG_NEWKEYS n); [by left | done].
Qed.

(** ** Keys are made *)

Section Keys.
Context (h : H) (t : bytes) (Hh : hashed_so_far h t) (session : bytes).

Lemma key_total len type : 0 <= len -> exists k, kex_make_key h len type session = Done k.
Proof. intros Hl. eexists. by apply make_key_material. Qed.

Lemma crypt_total make l d : objects_ok l -> d = 0 \/ d = 1 -> exists o, kex_make_crypt make h l d session = Done o.
Proof.
  intros (a & b & c & e & f & i & -> & Ha & Hb & _) Hd. unfold kex_make_crypt. change (zlen [a; b; c; e; f; i] =? KEX_PARAMETERS) with true.
  cbn [assert_that mbind outcome_bind]. assert (exists x, algorithm_at [a; b; c; e; f; i] d = Done x /\ crypto_class x) as (x & -> & Hx) by (destruct Hd as [-> | ->]; by eexists).
  cbn [mbind outcome_bind]. destruct x as [[x| | |]|]; try done; [|by eexists]. destruct Hx as [Hk Hi].
  destruct (key_total (crypto_key_size x) d Hk) as [k ->]. cbn [mbind outcome_bind]. destruct (iv_size x =? 0); [by eexists|].
  destruct (key_total (iv_size x) (IV_TYPE d) Hi) as [iv ->]. by eexists.
Qed.

Lemma mac_total l d : objects_ok l -> d = 2 \/ d = 3 -> exists o, kex_make_mac h l d session = Done o.
Proof.
  intros (a & b & c & e & f & i & -> & _ & _ & Hc & He & _) Hd. unfold kex_make_mac. change (zlen [a; b; c; e; f; i] =? KEX_PARAMETERS) with true.
  cbn [assert_that mbind outcome_bind]. assert (exists x, algorithm_at [a; b; c; e; f; i] d = Done x /\ mac_class x) as (x & -> & Hx) by (destruct Hd as [-> | ->]; by eexists).
  cbn [mbind outcome_bind]. destruct x as [[|x| |]|]; try done; [|by eexists]. destruct (key_total (mac_key_size x) d Hx) as [k ->]. by eexists.
Qed.

Lemma compress_total make l d : objects_ok l -> d = 4 \/ d = 5 -> exists o, kex_make_compress (C := C) (M := M) make l d = Done o.
Proof.
  intros (a & b & c & e & f & i & -> & _ & _ & _ & _ & Hf & Hi) Hd. unfold kex_make_compress.
  assert (exists x, algorithm_at [a; b; c; e; f; i] d = Done x /\ compress_class x) as (x & -> & Hx) by (destruct Hd as [-> | ->]; by eexists).
  destruct x as [[| |x|]|]; try done; by eexists.
Qed.

Context (m_end : m = 0 \/ m = 1).

Lemma from_here_mode c x y : wf c -> (x, y) ∈ [(0, 1); (2, 3); (4, 5)] ->
  (from_here x c = x \/ from_here x c = y) /\ (from_here y c = x \/ from_here y c = y).
Proof.
  intros Hw Hin. unfold from_here. change (Z.land (flags c) CONNECTION_SERVER) with (mode c). rewrite (wf_mode _ Hw).
  rewrite !elem_of_cons, elem_of_nil in Hin. destruct m_end as [-> | ->]; naive_solver.
Qed.

(** New keys are installed, or one was weak. *)
Lemma install_keys_total l c : objects_ok l -> wf c -> session_id c = Some session ->
  exists ok c', install_keys l h c = Done (ok, c') /\ after c c' /\ (ok = true -> handler_ok (dispatch c' SSH_MSG_NEWKEYS)).
Proof.
  intros Hl Hw Hs. unfold install_keys. rewrite Hs. cbn [deref mbind outcome_bind].
  destruct (from_here_mode c KEX_ENCRYPTION_CLIENT_TO_SERVER KEX_ENCRYPTION_SERVER_TO_CLIENT Hw ltac:(by constructor)) as [F0 F1].
  destruct (crypt_total make_decrypt l _ Hl F1) as [[rec|] Erec]; unfold kex_make_decrypt; rewrite Erec; cbn [mbind outcome_bind];
    [|by exists false, c; split_and!; [|apply after_refl|]].
  destruct (crypt_total make_encrypt l _ Hl F0) as [[send|] Esend]; unfold kex_make_encrypt; rewrite Esend; cbn [mbind outcome_bind];
    [|by exists false, c; split_and!; [|apply after_refl|]].
  destruct (from_here_mode c KEX_MAC_CLIENT_TO_SERVER KEX_MAC_SERVER_TO_CLIENT Hw ltac:(by repeat constructor)) as [F2 F3]. destruct (from_here_mode c KEX_COMPRESSION_CLIENT_TO_SERVER KEX_COMPRESSION_SERVER_TO_CLIENT Hw ltac:(by repeat constructor)) as [F4 F5].
  destruct (mac_total l _ Hl F3) as [rmac ->]. cbn [mbind outcome_bind].
  destruct (compress_total make_inflate l _ Hl F5) as [inflate Ei]; unfold kex_make_inflate; rewrite Ei; cbn [mbind outcome_bind].
  set (c1 := install _ _ c).
  destruct (mac_total l (from_here KEX_MAC_CLIENT_TO_SERVER c1) Hl F2) as [smac ->]. cbn [mbind outcome_bind].
  destruct (compress_total make_deflate l (from_here KEX_COMPRESSION_CLIENT_TO_SERVER c1) Hl F4) as [deflate Ed]; unfold kex_make_deflate; rewrite Ed; cbn [mbind outcome_bind].
  eexists true, _. split; [done|]. split; [|done].
  assert (H1 : after c c1) by by apply after_install. eapply after_trans; [exact H1|]. eapply after_trans; [|apply after_note; [|done]].
  - split; [|done|done]. by eapply wf_frame; [apply H1|..].
  - by eapply wf_frame; [apply H1|..].
Qed.

End Keys.

Context (m_end : m = 0 \/ m = 1).

Lemma finish_goes l hash K c : objects_ok l -> short K -> short hash -> wf c -> goes c (keyexchange_finish verbose l hash K c).
Proof.
  intros Hl HK Hh Hw. unfold keyexchange_finish. change (ssh_format "%c" _) with (Done [SSH_MSG_NEWKEYS]).
  apply goes_bind; [by apply goes_write|]. intros c1 [Hw1 _ _]. destruct (build_secret_spec K hash HK Hh) as (h & -> & Hh'). cbn [mbind outcome_bind].
  set (c2 := match session_id c1 with None => _ | Some _ => _ end).
  assert (after c1 c2 /\ exists s, session_id c2 = Some s) as [Ha [s Hs]].
  { subst c2. destruct (session_id c1) eqn:E; [split; [by apply after_refl | by eexists]|]. split; [|by eexists]. split; [|done|done]. by eapply wf_frame. }
  destruct (install_keys_total h _ Hh' s m_end l c2 Hl (af_wf _ _ Ha) Hs) as (ok & c3 & -> & Ha3 & Hok). cbn [mbind outcome_bind].
  eapply goes_after; [exact Ha|]. eapply goes_after; [exact Ha3|]. destruct ok; [|apply goes_error; [by vm_compute | apply Ha3]]. cbn [negb].
  specialize (Hok eq_refl). destruct Ha3 as [Hw3 _ _]. set (c4 := c3 <| kex_state := KEX_STATE_NEWKEYS |>).
  assert (H4 : after c3 c4).
  { split; [|done|done]. destruct Hw3. split; try done; [cbn; by repeat constructor | by left]. }
  eapply goes_after; [exact H4|]. destruct H4 as [Hw4 _ _]. apply goes_bind.
  - destruct (has_flag _ _); [by apply goes_done|]. unfold send_verbose. destruct verbose; [|by apply goes_done].
    destruct (ssh_format "%c%c%z%z" _) as [msg| |] eqn:E; [by apply goes_write | by vm_compute in E..].
  - intros c5 [Hw5 _ _]. eexists. split; [done|]. destruct (established c5); [|by apply after_refl].
    eapply after_trans; [apply (after_note _ Established Hw5); done|]. split; [|done|done]. by eapply wf_frame; [exact Hw5|..].
Qed.

(** ** The handlers *)

Context (Hp : 1 < p <= 2 ^ (8 * group_octets - 1)) (conf : configured) (Hrandom : forall d n, 0 <= n -> bytes_ok (RANDOM d n) /\ zlen (RANDOM d n) = n).

Lemma power_element b x : 0 <= power G b x < p.
Proof. cbn [make_group_zn power]. rewrite Zpow_facts.Zpow_mod_correct by lia. apply Z.mod_pos_bound. lia. Qed.

Lemma element_ok n : 0 <= n < p -> fits (FBignum n) /\ short (bignum_format_s n).
Proof.
  intros Hn. destruct (element_fits p n (proj2 Hp) Hn) as [Hf Hl]. change group_octets with 4096 in Hl. split; [done|]. split; [apply bignum_format_s_ok | lia].
Qed.

Lemma acceptable_element n : acceptable G n = true -> 0 <= n < p.
Proof. unfold acceptable. cbn [make_group_zn range]. intros [Ha Hb]%andb_true_iff. apply andb_true_iff in Hb as [_ Hb]. lia. Qed.

(** The exchange hash, over what was hashed before, the host key, the shares
    and the secret. *)
Definition exchange_digest_of (t key : bytes) (e f : Z) (K : bytes) : bytes :=
  hash_of ((t ++ packet_octets [FString key]) ++ packet_octets [FBignum e; FBignum f; FString K]).

Lemma digest_total (self : dh_instance H) key t : hashed_so_far (dh_hash self) t -> 0 <= dh_e self < p -> 0 <= dh_f self < p ->
  short key -> short (dh_K self) -> exists self1 h,
  dh_hash_update (ssh_format "%S" [VString key]) self = Done self1 /\
  dh_hash_digest self1 = Done (mkDh (dh_group self) (dh_e self) (dh_f self) (dh_secret self) (dh_K self) h
    (exchange_digest_of t key (dh_e self) (dh_f self) (dh_K self))) /\ hashed_so_far h [].
Proof.
  intros Ht He Hf Hkey HK. destruct (element_ok _ He) as [Fe [_ Le]], (element_ok _ Hf) as [Ff [_ Lf]].
  assert (Hk : packet_fits [FString key]).
  { destruct Hkey. split; [apply Forall_cons; split; [by apply short_fits | by apply Forall_nil]|].
    unfold packet_octets. cbn [mbind list_bind field_octets]. rewrite app_nil_r, zlen_counted. lia. }
  destruct (dh_hash_update_spec self t _ Ht Hk) as (h & E & Hh).
  destruct (dh_hash_digest_spec (mkDh (dh_group self) (dh_e self) (dh_f self) (dh_secret self) (dh_K self) h (exchange_hash self)) _ Hh) as (h2 & E2 & Hh2).
  { cbn [dh_e dh_f dh_K]. split; [repeat (apply Forall_cons; split); try done; by apply short_fits|].
    destruct HK. unfold packet_octets. cbn [mbind list_bind field_octets]. rewrite !app_nil_r, !zlen_app, !zlen_counted. lia. }
  eexists _, h2. split; [exact E|]. split; [exact E2 | exact Hh2].
Qed.

Lemma client_msg_total e : 0 <= e < p -> exists msg, ssh_format "%c%n" [VWord SSH_MSG_KEXDH_INIT; VNum e] = Done msg.
Proof.
  intros He. destruct (element_ok _ He) as [Fe [_ Le]]. eexists. apply format_client_msg. split; [repeat (apply Forall_cons; split); try done; by apply Forall_nil|].
  unfold packet_octets, client_msg. cbn [mbind list_bind field_octets]. rewrite !app_nil_r, !zlen_app, !zlen_counted. change (zlen [u8 ?x]) with 1. lia.
Qed.

Lemma server_msg_total key f s : 0 <= f < p -> short key -> short s ->
  exists msg, ssh_format "%c%S%n%fS" [VWord SSH_MSG_KEXDH_REPLY; VString key; VNum f; VString s] = Done msg.
Proof.
  intros Hf Hk Hs. destruct (element_ok _ Hf) as [Ff [_ Lf]]. eexists. apply format_server_msg.
  split; [repeat (apply Forall_cons; split); try done; by apply short_fits || by apply Forall_nil|]. destruct Hk, Hs.
  unfold packet_octets, server_msg. cbn [mbind list_bind field_octets]. rewrite !app_nil_r, !zlen_app, !zlen_counted. change (zlen [u8 ?x]) with 1. lia.
Qed.

(** A packet the connection takes. *)
Definition packet_ok (packet : bytes) : Prop := bytes_ok packet /\ zlen packet <= SSH_MAX_PACKET.

(** What a reply needs to be accepted: its signature of the exchange hash. *)
Definition signed (self : dh_client C M P H) (t packet : bytes) (c : connection) : Prop := exists key f signature verify,
  parse_with (parse_server_msg G) packet = Done (Some (key, f, signature)) /\ acceptable G f = true
  /\ verifier self (c_hostkey_algorithm self) key = Some verify
  /\ verify (signature_algorithm (c_hostkey_algorithm self) c)
       (exchange_digest_of t key (dh_e (c_dh self)) f (bignum_format_s (power G f (dh_secret (c_dh self))))) signature = true.

(** A refused reply changes at most what the handler has hashed. *)
Definition refused (self : dh_client C M P H) (c c0 : connection) : Prop :=
  c0 = c \/ exists dh, c0 = install SSH_MSG_KEXDH_REPLY (dh_reply_handler (mkDhClient dh (c_hostkey_algorithm self) (verifier self) (c_algorithms self))) c.

Lemma dh_reply_spec self packet c t : dh_group (c_dh self) = G -> hashed_so_far (dh_hash (c_dh self)) t -> 0 <= dh_e (c_dh self) < p ->
  objects_ok (c_algorithms self) -> packet_ok packet -> wf c ->
  goes c (do_handle_dh_reply verbose self packet c) /\
  (signed self t packet c \/ exists msg c0, do_handle_dh_reply verbose self packet c = Done (note FinishRead (note (Wrote msg) c0)) /\ refused self c c0).
Proof.
  intros HG Ht He Hl [Hb Hz] Hw. unfold SSH_MAX_PACKET in Hz.
  assert (HF : forall r msg c0, r = disconnect_kex_failed msg c0 -> zlen (bytes_of_string msg) <= 100 -> refused self c c0 -> after c c0 /\ True ->
    goes c r /\ (signed self t packet c \/ exists msg c1, r = Done (note FinishRead (note (Wrote msg) c1)) /\ refused self c c1)).
  { intros r msg c0 -> Hm Hr [Ha ?]. split; [eapply goes_after; [exact Ha | by apply goes_failed; [|apply Ha]]|]. right.
    destruct (raise_spec SSH_DISCONNECT_KEY_EXCHANGE_FAILED (Some msg) c0 ltac:(done) ltac:(done) Hm) as [packet' E]. by exists packet', c0. }
  unfold do_handle_dh_reply, dh_process_server_msg. rewrite HG.
  destruct (parse_with_safe (parse_server_msg G) _ packet Hb ltac:(lia) (safe_server_msg (zlen packet) _ ltac:(lia))) as (r & Eparse & Hr).
  rewrite Eparse. cbn [mbind outcome_bind]. destruct r as [[[key f] sig]|]; [|eapply HF; [reflexivity | by vm_compute | by left | split; [by apply after_refl | done]]].
  destruct (Hr _ eq_refl) as (Ha & Hk & Hkz). cbn [fst snd] in *. pose proof (acceptable_element _ Ha) as Hf.
  destruct (element_ok _ (power_element f (dh_secret (c_dh self)))) as [FK SK]. rewrite format_K by done. cbn [mbind outcome_bind].
  destruct (digest_total (mkDh G (dh_e (c_dh self)) f (dh_secret (c_dh self)) (bignum_format_s (power G f (dh_secret (c_dh self)))) (dh_hash (c_dh self)) (exchange_hash (c_dh self)))
    key t) as (self1 & h & E1 & E2 & Hh); [exact Ht | exact He | exact Hf | split; [done | lia] | done|].
  rewrite E1. cbn [mbind outcome_bind]. rewrite E2. cbn [mbind outcome_bind exchange_hash dh_K dh_e dh_f].
  set (kept := mkDhClient _ _ _ _). set (c0 := install SSH_MSG_KEXDH_REPLY (dh_reply_handler kept) c).
  assert (Haft : after c c0) by (apply after_install; [done|]; split; [split; [done|]; split; [by exists [] | by split] | done]).
  assert (HR : refused self c c0) by (right; by eexists).
  destruct (verifier self _ key) as [verify|] eqn:Ev; [|by eapply HF; [reflexivity | by vm_compute | |]].
  change (signature_algorithm _ c0) with (signature_algorithm (c_hostkey_algorithm self) c).
  destruct (verify _ _ sig) eqn:Everify; cbn [negb]; [|by eapply HF; [reflexivity | by vm_compute | |]].
  split; [|left; by exists key, f, sig, verify].
  eapply goes_after; [exact Haft|]. destruct Haft as [Hw0 _ _].
  eapply goes_after; [by apply (after_install SSH_MSG_KEXDH_REPLY connection_fail_handler)|]. apply finish_goes; try done; [apply hash_short | by apply after_install].
Qed.

Lemma dh_reply_goes self packet c : dh_ok (c_dh self) -> objects_ok (c_algorithms self) -> packet_ok packet -> wf c -> goes c (do_handle_dh_reply verbose self packet c).
Proof. intros (HG & [t Ht] & He & _) Hl Hok Hw. by eapply dh_reply_spec. Qed.

Lemma dh_init_goes self packet c : dh_ok (s_dh self) -> objects_ok (s_algorithms self) -> key_ok (server_key self) (signer self) -> packet_ok packet -> wf c ->
  goes c (do_handle_dh_init verbose self packet c).
Proof.
  intros (HG & [t Ht] & He & Hf) Hl [Hkey Hsign] [Hb Hz] Hw. unfold SSH_MAX_PACKET in Hz. unfold do_handle_dh_init, dh_process_client_msg.
  destruct (parse_with_safe (parse_client_msg (dh_group (s_dh self))) _ packet Hb ltac:(lia) (safe_client_msg _ _)) as (r & -> & Hr).
  cbn [mbind outcome_bind]. destruct r as [e|]; [|by apply goes_failed; [by vm_compute|]].
  pose proof (Hr _ eq_refl) as Ha. cbn in Ha. rewrite HG in Ha |- *. apply acceptable_element in Ha.
  destruct (element_ok _ (power_element e (dh_secret (s_dh self)))) as [FK SK]. rewrite format_K by done. cbn [mbind outcome_bind].
  destruct (digest_total (mkDh G e (dh_f (s_dh self)) (dh_secret (s_dh self)) (bignum_format_s (power G e (dh_secret (s_dh self)))) (dh_hash (s_dh self)) (exchange_hash (s_dh self)))
    (server_key self) t) as (self1 & h & E1 & E2 & _); [exact Ht | exact Ha | exact Hf | done | done|].
  unfold dh_make_server_msg. rewrite E1. cbn [mbind outcome_bind]. rewrite E2. cbn [mbind outcome_bind exchange_hash dh_K dh_f dh_e].
  destruct (server_msg_total (server_key self) (dh_f (s_dh self)) (signer self (s_hostkey_algorithm self) (exchange_digest_of t (server_key self) e (dh_f (s_dh self)) (bignum_format_s (power G e (dh_secret (s_dh self)))))) Hf Hkey (Hsign _ _)) as [msg ->].
  cbn [mbind outcome_bind exchange_hash dh_K]. apply goes_bind; [by apply goes_write|]. intros c1 [Hw1 _ _].
  eapply goes_after; [by apply (after_install SSH_MSG_KEXDH_INIT connection_fail_handler)|]. apply finish_goes; try done; [apply hash_short | by apply after_install].
Qed.

(** ** The start of an exchange *)

Lemma init_dh_total c kc ks : wf c -> literal_kexinits c = mkTwo (Some kc) (Some ks) ->
  exists h t, init_dh_instance G c = Done (mkDh G 0 0 0 [] h []) /\ hashed_so_far h t.
Proof.
  intros Hw Hl. destruct (wf_versions _ Hw) as (vc & vs & Hv & Hvc & Hvs).
  assert (Hkc : short kc) by (apply (wf_literals _ Hw CONNECTION_CLIENT); by rewrite Hl).
  assert (Hks : short ks) by (apply (wf_literals _ Hw CONNECTION_SERVER); by rewrite Hl).
  destruct (init_dh_spec G c vc vs kc ks Hv Hl (prologue_fits vc vs kc ks Hvc Hvs Hkc Hks)) as (h & E & Hh). by exists h, (packet_octets (prologue vc vs kc ks)).
Qed.

Lemma after_draw c n : wf c -> after c (random RANDOM n c).2.
Proof. intros Hw. split; [by eapply wf_frame; [exact Hw|..] | done | done]. Qed.

Lemma init_client_goes hk v l c kc ks : objects_ok l -> wf c -> literal_kexinits c = mkTwo (Some kc) (Some ks) ->
  goes c (do_init_client_dh RANDOM G hk (lookup_verifier v) l c).
Proof.
  intros Hl Hw Hk. destruct (init_dh_total c kc ks Hw Hk) as (h & t & E & Hh). unfold do_init_client_dh. rewrite E. cbn [mbind outcome_bind].
  unfold dh_make_client_msg, dh_generate_secret. cbn [dh_group]. set (n := _ / 8). pose proof (after_draw c n Hw) as Ha. destruct (random RANDOM n c) as [data c1]. cbn [snd] in Ha.
  set (x := bignum_random _ _ + 1). pose proof (power_element (generator G) x) as He. destruct (client_msg_total _ He) as [msg ->]. cbn [mbind outcome_bind].
  eapply goes_after; [exact Ha|]. apply goes_bind; [apply goes_write, Ha|]. intros c2 [Hw2 _ _]. eexists. split; [done|]. apply after_install; [done|].
  split; [|done]. split_and!; [done | by exists t | apply He | apply He | done | cbn; lia].
Qed.

Lemma init_server_goes hk keys l c kc ks : (forall a kp, keys a = Some kp -> key_ok (public kp) (private kp)) -> objects_ok l -> wf c ->
  literal_kexinits c = mkTwo (Some kc) (Some ks) -> goes c (do_init_server_dh RANDOM u G hk (host_keys keys) l c).
Proof.
  intros Hkeys Hl Hw Hk. unfold do_init_server_dh. destruct (keys hk) as [kp|] eqn:Ekp; [|by apply goes_failed; [by vm_compute|]].
  destruct (init_dh_total c kc ks Hw Hk) as (h & t & E & Hh). rewrite E. cbn [mbind outcome_bind].
  unfold dh_make_server_secret, dh_generate_secret. cbn [dh_group]. set (n := _ / 8). pose proof (after_draw c n Hw) as Ha. destruct (random RANDOM n c) as [data c1]. cbn [snd] in Ha.
  set (x := bignum_random _ _ + 1). pose proof (power_element (generator G) x) as He.
  eapply goes_after; [exact Ha|]. eexists. split; [done|]. apply after_install; [apply Ha|].
  split; [|split; [done | by apply (Hkeys hk)]]. split; [done|]. split; [by exists t|]. cbn. split; [lia | exact He].
Qed.

(** What the other end and this one have in common is in our lists. *)
Lemma selected_in (client server : list Z) (own : bool) : select_algorithm client server <> 0 ->
  select_algorithm client server ∈ (if own then client else server).
Proof. intros Hz. destruct (select_in client server Hz). by destruct own. Qed.

Definition own_shape (k : kexinit) : Prop := exists cookie, bytes_ok cookie /\ zlen cookie = 16 /\ k = do_make_simple_kexinit (init cl) cookie.

Lemma parameters_ok own msg (first : bool) chosen : own_shape own ->
  select_parameters (if first then own else msg) (if first then msg else own) = Some chosen -> objects_ok (algorithms cl <$> chosen).
Proof.
  intros (cookie & _ & _ & ->). unfold select_parameters. case_bool_decide as Hz; [done|]. intros [= <-].
  set (own := do_make_simple_kexinit _ _) in *. set (sel := fun i => _) in *.
  assert (Hs : forall i, i ∈ [0; 1; 2; 3; 4; 5] -> sel i ∈ parameter i own).
  { intros i Hi. assert (sel i <> 0) as Hne by (intros E; apply Hz; pose proof (list_elem_of_fmap_2 sel _ i Hi) as Hin; by rewrite E in Hin).
    pose proof (selected_in _ _ first Hne). by destruct first. }
  exists (algorithms cl (sel 0)), (algorithms cl (sel 1)), (algorithms cl (sel 2)), (algorithms cl (sel 3)), (algorithms cl (sel 4)), (algorithms cl (sel 5)).
  split; [done|]. destruct conf. split_and!; [apply cf_crypto0 | apply cf_crypto0 | apply cf_mac0 | apply cf_mac0 | apply cf_compress0 | apply cf_compress0];
    apply Hs; by repeat constructor.
Qed.

Lemma own_kexinit_ok cookie : bytes_ok cookie -> zlen cookie = 16 -> kexinit_ok (do_make_simple_kexinit (init cl) cookie).
Proof.
  intros Hb Hz. destruct conf as [(L1 & L2 & L3 & L4 & L5 & L6) _ _ _ _ _ _]. split; try done. cbn.
  repeat (apply Forall_cons; split); try done.
Qed.

(** Both KEXINIT messages are recorded when an exchange starts. *)
Lemma set_mode_at {A} d d' (x : A) t : (d = 0 \/ d = 1) -> (d' = 0 \/ d' = 1) -> at_mode d' (set_mode d x t) = if d' =? d then x else at_mode d' t.
Proof. intros [-> | ->] [-> | ->]; done. Qed.

Lemma literals_set d x (t : two (option bytes)) : d = 0 \/ d = 1 -> short x -> (forall d l, at_mode d t = Some l -> short l) ->
  forall d' l, at_mode d' (set_mode d (Some x) t) = Some l -> short l.
Proof.
  intros Hd Hx Ht d' l. pose proof (Ht d') as Hl. unfold at_mode, set_mode in *.
  destruct (d =? CONNECTION_CLIENT), (d' =? CONNECTION_CLIENT); cbn in *; naive_solver.
Qed.

Lemma own_kexinit_total c : wf c -> exists own c', own_kexinit RANDOM (init cl) c = Done (own, c') /\ after c c' /\ own_shape own
  /\ is_Some (at_mode m (literal_kexinits c')) /\ at_mode (1 - m) (literal_kexinits c') = at_mode (1 - m) (literal_kexinits c) /\ kex_state c' = kex_state c.
Proof.
  intros Hw. unfold own_kexinit. rewrite (wf_mode _ Hw). destruct (at_mode m (kexinits c)) as [k|] eqn:Ek.
  - destruct (wf_own _ Hw k Ek) as [Hs Hk]. exists k, c. by split_and!.
  - destruct (Hrandom (draws c) 16 ltac:(lia)) as [Hb Hz]. cbn -[format_kex do_make_simple_kexinit]. set (cookie := RANDOM (draws c) 16) in *. set (own := do_make_simple_kexinit _ _).
    pose proof (own_kexinit_ok cookie Hb Hz) as Hok. rewrite (format_kexinit own Hok). cbn [mbind outcome_bind C_WRITE].
    destruct (kexinit_octets_ok own Hok) as [Ho Hl]. eexists own, _. split; [done|].
    assert (Hshort : short (kexinit_octets own)) by (split; [done | by apply kexinit_octets_small]).
    split_and!; [| by exists cookie | | | done].
    + eapply after_trans; [|apply after_note; [|done]]; [split; [|done|done] | ].
      all: destruct Hw as [Hm Hv Hlit Hown Hmax Hst Hd Hn]; split; try done; cbn; unfold mode in *; cbn; rewrite ?Hm.
      all: try by apply literals_set.
      all: intros k; rewrite !set_mode_at, !Z.eqb_refl by auto; intros [= <-]; split; [by eexists | by exists cookie].
    + pose proof (wf_mode _ Hw) as Hm. unfold mode in *. cbn. rewrite Hm, set_mode_at, Z.eqb_refl by auto. by eexists.
    + pose proof (wf_mode _ Hw) as Hm. unfold mode in *. cbn. rewrite Hm, set_mode_at by lia. by rewrite (proj2 (Z.eqb_neq _ _)) by lia.
Qed.

(** The peer's message is recorded. *)
Lemma after_peer packet msg c : packet_ok packet -> wf c ->
  after c (c <| literal_kexinits := set_mode (1 - m) (Some packet) (literal_kexinits c) |> <| kexinits := set_mode (1 - m) (Some msg) (kexinits c) |>).
Proof.
  intros [Hb Hz] Hw. unfold SSH_MAX_PACKET in Hz. split; [|done|done]. destruct Hw as [Hm Hv Hlit Hown Hmax Hst Hd Hn]. split; try done; cbn.
  - apply literals_set; [lia | split; [done | lia] | done].
  - intros k. rewrite !set_mode_at by lia. rewrite (proj2 (Z.eqb_neq m (1 - m))) by lia. apply Hown.
Qed.

Lemma after_state c state : wf c -> state ∈ [KEX_STATE_INIT; KEX_STATE_IGNORE; KEX_STATE_IN_PROGRESS] -> after c (c <| kex_state := state |>).
Proof.
  intros Hw Hs. assert (state = KEX_STATE_INIT \/ state = KEX_STATE_IGNORE \/ state = KEX_STATE_IN_PROGRESS) as Hc by set_solver.
  split; [|done|done]. destruct Hw as [? ? ? ? ? ? ? Hn]. split; try done; cbn.
  - destruct Hc as [-> | [-> | ->]]; by repeat constructor.
  - destruct Hn as [Hn | [Hn _]]; [by left | right]. split; [done|]. by destruct Hc as [-> | [-> | ->]].
Qed.

Lemma two_literals (t : two (option bytes)) : is_Some (at_mode m t) -> is_Some (at_mode (1 - m) t) -> exists kc ks, t = mkTwo (Some kc) (Some ks).
Proof. destruct t as [x y]. intros [a Ha] [b Hb]. destruct m_end as [E | E]; rewrite E in Ha, Hb; cbv in Ha, Hb; subst; eauto. Qed.

(** The exchange of this end starts. *)
Lemma start_goes kex hk l c : kex ∈ s_kex_algorithms (init cl) -> objects_ok l -> wf c -> is_Some (at_mode m (literal_kexinits c)) ->
  is_Some (at_mode (1 - m) (literal_kexinits c)) ->
  goes c (match algorithms cl kex with
    | None => Crash NullDeref | Some (AKex kex) => KEYEXCHANGE_INIT RANDOM u kex hk (extra cl) l c | Some _ => Crash FatalError end).
Proof.
  intros Hk Hl Hw H1 H2. destruct (two_literals _ H1 H2) as (kc & ks & Hlit). destruct conf. rewrite (cf_exchange0 kex Hk).
  destruct (extra cl) as [v|f]; [|destruct cf_extra0 as [Hm1 Hf]].
  - rewrite cf_extra0. cbn [Z.eqb CONNECTION_CLIENT KEYEXCHANGE_INIT]. by eapply init_client_goes.
  - rewrite Hm1. cbn [Z.eqb CONNECTION_CLIENT CONNECTION_SERVER KEYEXCHANGE_INIT]. by eapply init_server_goes.
Qed.

(** The rest of the negotiation, when both messages are there. *)
Lemma first_of_total l : l <> [] -> exists a, first_of l = Done a /\ a ∈ l.
Proof. destruct l as [|a l]; [done|]. intros _. exists a. split; [done | by constructor]. Qed.

Lemma kexinit_goes packet c : packet_ok packet -> wf c -> goes c (do_handle_kexinit RANDOM u cl packet c).
Proof.
  intros Hok Hw. unfold do_handle_kexinit, parse_kexinit. pose proof Hok as [Hb Hz]. unfold SSH_MAX_PACKET in Hz.
  destruct (parse_with_safe parse_kexinit_packet _ packet Hb ltac:(lia) (safe_kexinit _)) as (r & -> & _). cbn [mbind outcome_bind].
  destruct (negb _); [by apply goes_error; [by vm_compute|]|]. destruct r as [msg|]; [|by apply goes_failed; [by vm_compute|]].
  case_bool_decide as Hne; [by apply goes_failed; [by vm_compute|]|]. rewrite (wf_mode _ Hw).
  pose proof (after_peer packet msg c Hok Hw) as H1. set (c1 := c <| literal_kexinits := _ |> <| kexinits := _ |>) in *.
  eapply goes_after; [exact H1|]. destruct (own_kexinit_total c1 (af_wf _ _ H1)) as (own & c2 & -> & H2 & Hshape & L1 & L2 & _). cbn [mbind outcome_bind].
  eapply goes_after; [exact H2|]. destruct H2 as [Hw2 _ _]. rewrite (wf_mode _ Hw2).
  assert (L3 : is_Some (at_mode (1 - m) (literal_kexinits c2))).
  { rewrite L2. unfold c1. cbn. rewrite set_mode_at, Z.eqb_refl by lia. by eexists. }
  assert (Hown : kex_algorithms own = s_kex_algorithms (init cl)) by by destruct Hshape as (? & _ & _ & ->).
  assert (Hsome : kex_algorithms own <> []) by (rewrite Hown; apply conf). clear H1 L2. clearbody c1.
  set (first := m =? CONNECTION_CLIENT). 
  destruct (first_of_total (kex_algorithms (if first then own else msg))) as (a & -> & Ha); [by destruct first|].
  destruct (first_of_total (kex_algorithms (if first then msg else own))) as (b & -> & Hb'); [by destruct first|]. cbn [mbind outcome_bind].
  assert (HS : exists kex c3, (if a =? b then (a, c2 <| kex_state := KEX_STATE_IN_PROGRESS |>)
        else (select_algorithm (kex_algorithms (if first then own else msg)) (kex_algorithms (if first then msg else own)),
              if first_kex_packet_follows msg =? 0 then c2 else c2 <| kex_state := KEX_STATE_IGNORE |>)) = (kex, c3)
      /\ after c2 c3 /\ literal_kexinits c3 = literal_kexinits c2 /\ (negb (a =? b) && (kex =? 0) = true \/ kex ∈ s_kex_algorithms (init cl))).
  { destruct (Z.eqb_spec a b) as [->|Hab].
    - eexists _, _. split; [done|]. split; [apply after_state; [done | by repeat constructor]|]. split; [done|]. right. rewrite <- Hown. by destruct first.
    - eexists _, _. split; [done|]. destruct (first_kex_packet_follows msg =? 0); (split; [first [by apply after_refl | apply after_state; [done | by repeat constructor]]|]);
        (split; [done|]); cbn [negb andb]; (destruct (Z.eqb_spec (select_algorithm (kex_algorithms (if first then own else msg)) (kex_algorithms (if first then msg else own))) 0) as [|Hz'];
        [by left | right]); pose proof (selected_in _ _ first Hz') as Hin; rewrite <- Hown; by destruct first. }
  destruct HS as (kex & c3 & -> & H3 & Hlit & Hkex). eapply goes_after; [exact H3|]. destruct H3 as [Hw3 _ _].
  destruct (negb (a =? b) && (kex =? 0)); [by apply goes_failed; [by vm_compute|]|]. destruct Hkex as [|Hkex]; [done|].
  destruct (_ =? 0); [by apply goes_failed; [by vm_compute|]|].
  destruct (select_parameters _ _) as [chosen|] eqn:Echosen; [|by apply goes_failed; [by vm_compute|]].
  apply start_goes; [done | by eapply parameters_ok | done | by rewrite Hlit..].
Qed.

(** ** Packets *)

Lemma newkeys_goes crypto mac compression packet c : packet_ok packet -> wf c -> goes c (do_handle_newkeys crypto mac compression packet c).
Proof.
  intros [Hb Hz] Hw. unfold SSH_MAX_PACKET in Hz. unfold do_handle_newkeys.
  destruct (parse_with_safe (parse_message SSH_MSG_NEWKEYS) _ packet Hb ltac:(lia) (safe_message _ _)) as (r & -> & _). cbn [mbind outcome_bind].
  destruct r as [[]|]; [|by apply goes_error; [by vm_compute|]]. eexists. split; [done|].
  set (c1 := c <| rec_crypto := _ |> <| rec_mac := _ |> <| rec_compress := _ |> <| kex_state := _ |> <| kexinits := _ |> <| literal_kexinits := _ |>).
  assert (Hw' : wf (install SSH_MSG_NEWKEYS NULL c1)).
  { destruct Hw as [Hm Hv Hlit Hown Hmax Hst Hd Hn]. split; try done; unfold install, c1; cbn -[Z.eqb].
    - intros d l. unfold at_mode. by destruct (d =? CONNECTION_CLIENT).
    - intros k. unfold at_mode. by destruct (m =? CONNECTION_CLIENT).
    - by constructor.
    - intros n Hne. rewrite (proj2 (Z.eqb_neq _ _) Hne). by apply Hd.
    - by right. }
  eapply after_trans; [|by apply after_note]. by split.
Qed.

Lemma debug_goes packet c : packet_ok packet -> wf c -> goes c (do_connection_debug_handler packet c).
Proof.
  intros [Hb Hz] Hw. unfold SSH_MAX_PACKET in Hz. unfold do_connection_debug_handler.
  destruct (parse_with_safe parse_debug _ packet Hb ltac:(lia) (safe_debug _)) as (r & -> & _). cbn [mbind outcome_bind].
  destruct r as [[always msg]|]; [|by apply goes_error; [by vm_compute|]]. eexists. split; [done|]. by apply after_note.
Qed.

Lemma handler_goes h seq packet c : handler_ok h -> 0 <= seq < 2 ^ 32 -> packet_ok packet -> paused c = false -> wf c ->
  goes c (HANDLE_PACKET RANDOM verbose locks u h seq packet c).
Proof.
  intros Hh Hseq Hok Hpaused Hw. destruct h; cbn [HANDLE_PACKET handler_ok] in *; try done.
  - change (ssh_format "%c%i" _) with (ssh_format (plain_format [FByte SSH_MSG_UNIMPLEMENTED; FUint32 seq]) (item_arg <$> [FByte SSH_MSG_UNIMPLEMENTED; FUint32 seq])).
    rewrite format_plain; [by apply goes_write | by repeat (apply Forall_cons; split); try done; apply Forall_nil|].
    unfold packet_octets. cbn [mbind list_bind field_octets]. rewrite !zlen_app, zlen_WRITE_UINT32. change (zlen [u8 ?x]) with 1. change (zlen []) with 0. lia.
  - apply goes_error; [by vm_compute | done].
  - by apply goes_done.
  - by apply debug_goes.
  - eexists. split; [done|]. by apply after_note.
  - subst c0. by apply kexinit_goes.
  - by apply newkeys_goes.
  - by apply dh_reply_goes; [apply Hh..| |].
  - by apply dh_init_goes; [apply Hh..| |].
  - pose proof (after_note c (Service n packet) Hw ltac:(done)) as H1. eapply goes_after; [exact H1|]. destruct H1 as [H1 _ _].
    destruct (locks n packet); [|by apply goes_done]. unfold connection_lock. change (paused (note _ c)) with (paused c). rewrite Hpaused.
    eexists. split; [done|]. eapply after_trans; [|apply after_note; [|done]]; [split; [|done|done]|]; by eapply wf_frame; [exact H1|..].
Qed.

(** The state of the exchange lets a message through only to a handler. *)
Lemma gate_total c msg : wf c -> exists v, gate (kex_state c) msg = Done v /\ (v = Handle -> handler_ok (dispatch c msg)).
Proof.
  intros Hw. assert (HN : msg <> SSH_MSG_NEWKEYS \/ kex_state c = KEX_STATE_NEWKEYS -> handler_ok (dispatch c msg)).
  { intros Hc. destruct (decide (msg = SSH_MSG_NEWKEYS)) as [->|Hne]; [|by apply Hw]. destruct (wf_newkeys _ Hw) as [|[_ Hs]]; [done|]. by destruct Hc. }
  assert (kex_state c = KEX_STATE_INIT \/ kex_state c = KEX_STATE_IGNORE \/ kex_state c = KEX_STATE_IN_PROGRESS \/ kex_state c = KEX_STATE_NEWKEYS) as HC
    by (pose proof (wf_state _ Hw); set_solver).
  unfold gate. destruct HC as [E|[E|[E|E]]]; rewrite E in *; cbn [Z.eqb Pos.eqb KEX_STATE_INIT KEX_STATE_IGNORE KEX_STATE_IN_PROGRESS KEX_STATE_NEWKEYS];
    eexists; (split; [done|]); try done.
  - destruct (Z.eqb_spec msg SSH_MSG_NEWKEYS); [done|]. auto.
  - destruct (Z.eqb_spec msg SSH_MSG_NEWKEYS); [done|]. auto.
  - auto.
Qed.

(** An octet string of any length that fits the address space. *)
Definition arrival_ok (a : Z * bytes) : Prop := 0 <= a.1 < 2 ^ 32 /\ bytes_ok a.2.

Lemma handle_packet_total seq packet c : arrival_ok (seq, packet) -> wf c -> paused c = false ->
  exists c', connection_handle_packet RANDOM verbose locks u seq packet c = Done c' /\ wf c' /\ pending c' = pending c /\ handled c' = handled c ++ [packet].
Proof.
  intros [Hseq Hb] Hw Hpaused. cbn [fst snd] in *. unfold connection_handle_packet. rewrite Hpaused. cbn [negb assert_that mbind outcome_bind].
  set (c1 := note (Handling packet) c). assert (Hw1 : wf c1) by by eapply wf_frame; [exact Hw|..].
  assert (HG : forall r, goes c1 r -> exists c', r = Done c' /\ wf c' /\ pending c' = pending c /\ handled c' = handled c ++ [packet]).
  { intros r (c' & -> & [Hw' Hpend Hhand]). exists c'. split_and!; try done. rewrite Hhand. unfold c1, handled, note. cbn. by rewrite omap_app. }
  apply HG. destruct packet as [|msg rest]; [by apply goes_error; [by vm_compute|]|].
  destruct (Z.ltb_spec (rec_max_packet c1) (zlen (msg :: rest))) as [|Hl]; [by apply goes_error; [by vm_compute|]|].
  destruct (gate_total c1 msg Hw1) as (v & E & Hv). rewrite E. cbn [mbind outcome_bind].
  assert (Hok : packet_ok (msg :: rest)) by (split; [done | pose proof (wf_max _ Hw1); lia]).
  destruct v as [| |why].
  - by apply handler_goes; [apply Hv|..].
  - exists (c1 <| kex_state := KEX_STATE_IN_PROGRESS |>). split; [done|]. apply after_state; [done|]. by repeat constructor.
  - apply goes_error; [|done]. unfold gate in E.
    repeat match type of E with context [if ?b then _ else _] => destruct b end; try done; injection E as <-; by vm_compute.
Qed.

(** C6. A connection survives every packet. If its state is well formed - it
    knows both version strings, its configuration is in order, the KEXINIT
    messages it recorded are there, every entry of the dispatch table is a
    handler made for this connection, and the entry of NEWKEYS may be the null
    pointer only outside the state in which NEWKEYS is due - then whatever
    octets come in as a packet, [connection_handle_packet] returns, follows no
    null pointer, fails no assertion and meets no internal error, and the state
    it leaves is well formed again. *)
Theorem connection_survives seq packet c (Hc : wf c) (Hpaused : paused c = false) (Harrival : arrival_ok (seq, packet)) :
  exists c', connection_handle_packet RANDOM verbose locks u seq packet c = Done c' /\ wf c'.
Proof. destruct (handle_packet_total seq packet c Harrival Hc Hpaused) as (c' & E & Hw & _). by exists c'. Qed.

(** C7. A client takes keys only from a server that has signed the exchange.
    When the answer to its share comes in, either it holds a host key that the
    lookup of the user accepts, a share of the group that is not refused, and a
    signature under that key of the exchange hash - the hash of everything both
    ends have exchanged, of that key, of both shares and of the secret - or all
    that happens is that a DISCONNECT message is written and that reading ends:
    no key is made, and no field of the connection changes, except for what the
    handler of the reply has hashed so far. *)
Theorem keys_need_signature self packet c t (Hc : wf c) (Hpacket : packet_ok packet) (HG : dh_group (c_dh self) = G) (Ht : hashed_so_far (dh_hash (c_dh self)) t)
  (He : 0 <= dh_e (c_dh self) < p) (Hl : objects_ok (c_algorithms self)) :
  exists c', do_handle_dh_reply verbose self packet c = Done c' /\
    (signed self t packet c \/ exists msg c0, c' = note FinishRead (note (Wrote msg) c0) /\ refused self c c0).
Proof.
  destruct (dh_reply_spec self packet c t HG Ht He Hl Hpacket Hc) as [(c' & E & _) HS]. exists c'. split; [exact E|].
  destruct HS as [HS | (msg & c0 & Em & HR)]; [by left | right]. exists msg, c0. rewrite E in Em. by injection Em as ->.
Qed.

(** ** The queue of a paused connection *)

Notation handle := (do_handle_connection RANDOM verbose locks u).

Record wf_queue (c : connection) : Prop := { wq_wf : wf c; wq_pending : Forall arrival_ok (pending c) }.

(** The packets in the order of their arrival. *)
Definition taken (c : connection) : list bytes := handled c ++ (snd <$> pending c).

Lemma handle_pending_total n c : wf_queue c -> (length (pending c) <= n)%nat ->
  exists c', handle_pending RANDOM verbose locks u n c = Done c' /\ wf_queue c' /\ taken c' = taken c /\ (paused c' = true \/ pending c' = []).
Proof.
  revert c. induction n as [|n IH]; intros c [Hw Hq] Hn.
  - exists c. destruct (pending c) eqn:E; [|cbn in Hn; lia]. cbn. split_and!; try done; [split; [done | by rewrite E] | by right].
  - cbn [handle_pending]. destruct (pending c) as [|[seq packet] rest] eqn:E.
    + exists c. split_and!; try done; [split; [done | by rewrite E] | by right].
    + destruct (paused c) eqn:Ep; [exists c; split_and!; try done; [split; [done | by rewrite E] | by left]|].
      apply Forall_cons in Hq as [Ha Hq]. set (c0 := c <| pending := rest |>).
      destruct (handle_packet_total seq packet c0 Ha) as (c1 & E1 & Hw1 & Hp1 & Hh1); [by eapply wf_frame; [exact Hw|..] | done|].
      rewrite E1. cbn [mbind outcome_bind]. change (pending c0) with rest in Hp1.
      destruct (IH c1) as (c2 & E2 & Hq2 & Ht2 & Hend); [by split; [|rewrite Hp1] | rewrite Hp1; cbn in Hn; lia|].
      exists c2. split_and!; try done. rewrite Ht2. unfold taken. rewrite Hp1, Hh1, E. cbn. by rewrite <- app_assoc.
Qed.

Lemma handle_total seq packet c : wf_queue c -> arrival_ok (seq, packet) ->
  exists c', handle seq packet c = Done c' /\ wf_queue c' /\ taken c' = taken c ++ [packet] /\ (paused c' = true \/ pending c' = []).
Proof.
  intros [Hw Hq] Ha. unfold do_handle_connection. set (queued := c <| pending := pending c ++ [(seq, packet)] |>).
  assert (HQ : wf_queue queued /\ taken queued = taken c ++ [packet]).
  { split; [split; [by eapply wf_frame; [exact Hw|..] | unfold queued; cbn; apply Forall_app; split; [done | by apply Forall_singleton]]|].
    unfold taken, queued. cbn. by rewrite fmap_app, app_assoc. }
  destruct HQ as [HQ1 HQ2]. destruct (paused c) eqn:Ep; [by exists queued; split_and!; [| | |left]|]. case_bool_decide as Hempty.
  - destruct (handle_packet_total seq packet c Ha Hw Ep) as (c' & E & Hw' & Hp' & Hh'). exists c'. rewrite Hempty in Hp'.
    split_and!; [done | by split; [|rewrite Hp'] | | by right]. unfold taken. by rewrite Hp', Hh', Hempty, !app_nil_r.
  - destruct (handle_pending_total (length (pending queued)) queued HQ1 ltac:(done)) as (c' & E & Hq' & Ht' & Hend).
    exists c'. split_and!; try done. by rewrite Ht', HQ2.
Qed.

(** What happens to a connection from outside. *)
Inductive event := Arrives (seq : Z) (packet : bytes) | Unlocks.

Definition event_ok (e : event) : Prop := match e with Arrives seq packet => arrival_ok (seq, packet) | Unlocks => True end.

(** A service unlocks only a connection that is locked. *)
Definition react (e : event) (c : connection) : outcome connection :=
  match e with Arrives seq packet => handle seq packet c | Unlocks => if paused c then connection_unlock c else Done c end.

Fixpoint run (es : list event) (c : connection) : outcome connection :=
  match es with [] => Done c | e :: es => c ← react e c; run es c end.

Definition arrivals (es : list event) : list bytes := omap (fun e => match e with Arrives _ packet => Some packet | Unlocks => None end) es.

Lemma react_total e c : wf_queue c -> event_ok e -> exists c', react e c = Done c' /\ wf_queue c' /\ taken c' = taken c ++ arrivals [e].
Proof.
  intros Hq He. destruct e as [seq packet|]; cbn [react].
  - destruct (handle_total seq packet c Hq He) as (c' & E & Hq' & Ht & _). by exists c'.
  - destruct (paused c) eqn:Ep; [|exists c; split_and!; try done; cbn; by rewrite app_nil_r]. unfold connection_unlock. rewrite Ep. cbn [assert_that mbind outcome_bind].
    eexists. split; [done|]. destruct Hq as [Hw Hp']. set (c1 := c <| paused := false |>). assert (Hw1 : wf c1) by by eapply wf_frame; [exact Hw|..].
    destruct (after_note c1 StartRead Hw1 ltac:(done)) as [Hw2 E1 E2]. split; [by split; [|rewrite E1]|]. unfold taken. rewrite E1, E2. cbn. by rewrite app_nil_r.
Qed.

Lemma run_total es c : wf_queue c -> Forall event_ok es -> exists c', run es c = Done c' /\ wf_queue c' /\ taken c' = taken c ++ arrivals es.
Proof.
  intros Hc Hes. revert c Hc. induction Hes as [|e es He _ IH]; intros c Hc.
  - exists c. cbn. by rewrite app_nil_r.
  - destruct (react_total e c Hc He) as (c1 & E & Hq1 & Ht1). cbn [run]. rewrite E. cbn [mbind outcome_bind].
    destruct (IH c1 Hq1) as (c2 & E2 & Hq2 & Ht2). exists c2. split_and!; try done. rewrite Ht2, Ht1, <- app_assoc. f_equal.
    unfold arrivals. by rewrite <- omap_app.
Qed.

Lemma run_snoc es e c : run (es ++ [e]) c = c' ← run es c; react e c'.
Proof.
  revert c. induction es as [|x es IH]; intros c; cbn [app run mbind outcome_bind]; [by destruct (react e c)|].
  destruct (react x c) as [c1| |]; [exact (IH c1) | done | done].
Qed.

(** C8. No packet is lost, doubled or overtaken, however often a service
    locks the connection while it handles one and unlocks it later: after any
    sequence of arrivals and unlocks, the packets handed to
    [connection_handle_packet] so far, followed by those that wait, are the
    packets in the order in which they came. The run ends, without a crash, and
    if the last event was an arrival, nothing waits unless the connection is
    locked. *)
Theorem packets_in_order es c (Hc : wf_queue c) (Hes : Forall event_ok es) :
  exists c', run es c = Done c' /\ wf_queue c' /\ taken c' = taken c ++ arrivals es
    /\ (forall before seq packet, es = before ++ [Arrives seq packet] -> paused c' = true \/ pending c' = []).
Proof.
  destruct (run_total es c Hc Hes) as (c' & E & Hq & Ht). exists c'. split_and!; try done. intros before seq packet ->.
  apply Forall_app in Hes as [Hb He]. apply Forall_cons in He as [He _]. destruct (run_total before c Hc Hb) as (c1 & E1 & Hq1 & _).
  rewrite run_snoc, E1 in E. destruct (handle_total seq packet c1 Hq1 He) as (c2 & E2 & _ & _ & Hend). cbn [mbind outcome_bind react] in E.
  rewrite E2 in E. by injection E as <-.
Qed.

(** ** A new connection *)

Lemma initial_dispatch_ok n : handler_ok (initial_dispatch n).
Proof. unfold initial_dispatch. repeat case_match; done. Qed.

(** The state when packets are read from the peer, whose version is [line]. *)
Definition greeted (c : connection) (line : bytes) (f : Z) : connection := c <| peer_flags := f |> <| versions := set_mode (1 - mode c) (Some line) (versions c) |>.

(** The version of the peer is accepted. *)
Lemma do_line_accepts line (c c' : connection) : short line -> do_line line c = Done (ReadPackets, c') ->
  exists f, c' = greeted c line f.
Proof.
  intros [Hlo Hll] E. unfold do_line in E. destruct (split_version_string line) as [| |protover swver comment]; [done | | ].
  { by destruct (PROTOCOL_ERROR _ c). }
  destruct (_ || _); [|by destruct (raise_protocol _ _ c)]. rewrite ssh_format_copy in E by lia. cbn [mbind outcome_bind] in E.
  injection E as <-. by eexists.
Qed.

(** The start of [handshake_command], before anything is written. *)
Definition fresh_connection (flags : Z) (version cookie : bytes) (draws : Z) : connection :=
  let c := make_ssh_connection flags draws in
  let c := (c <| versions := set_mode (mode c) (Some version) (versions c) |>) <| Keyexchange.draws := draws + 1 |> in
  let c := c <| kexinits := set_mode (mode c) (Some (do_make_simple_kexinit (init cl) cookie)) (kexinits c) |> in
  install SSH_MSG_KEXINIT (kexinit_handler cl) c.

Lemma handshake_steps flags version draws : handshake_command RANDOM flags version cl draws =
  hello ← ssh_format ("%lS" ++ crlf) [VString version];
  c ← initiate_keyexchange (fresh_connection flags version (RANDOM draws 16) draws);
  Done (hello, c).
Proof. reflexivity. Qed.

Lemma initiate_spec (c : connection) k s : at_mode (mode c) (kexinits c) = Some k -> first_kex_packet_follows k = 0 -> first_kex_packet k = None ->
  kex_state c = KEX_STATE_INIT -> format_kex k = Done s ->
  initiate_keyexchange c = Done (note (Wrote s) (c <| literal_kexinits := set_mode (mode c) (Some s) (literal_kexinits c) |>)).
Proof.
  intros Hk Hf Hp' Hs Hfmt. unfold initiate_keyexchange. rewrite Hk. cbn [deref mbind outcome_bind]. rewrite Hf, Hp', Hs, Hfmt. done.
Qed.

Lemma hello_format version : short version -> ssh_format ("%lS" ++ crlf) [VString version] = Done (version ++ [13; 10]).
Proof.
  intros [_ Hv]. eapply (ssh_format_Done _ _ _ []); [done | | |].
  - repeat (apply Forall_cons; split); [cbn; lia | by apply Forall_nil].
  - set (f := String.append _ crlf). vm_compute in f. subst f. cbn -[zlen Format.octets]. by rewrite !format_octets_app, <- app_assoc.
  - rewrite zlen_app. change (zlen [13; 10]) with 2. lia.
Qed.

Definition ready_connection (flags : Z) (version cookie : bytes) (draws : Z) (s : bytes) : connection :=
  let c := fresh_connection flags version cookie draws in
  note (Wrote s) (c <| literal_kexinits := set_mode (mode c) (Some s) (literal_kexinits c) |>).

Lemma handshake_result flags version draws : Z.land flags CONNECTION_MODE = m -> short version ->
  kexinit_ok (do_make_simple_kexinit (init cl) (RANDOM draws 16)) ->
  handshake_command RANDOM flags version cl draws = Done (version ++ [13; 10],
    ready_connection flags version (RANDOM draws 16) draws (kexinit_octets (do_make_simple_kexinit (init cl) (RANDOM draws 16)))).
Proof.
  intros Hm Hversion Hok. rewrite handshake_steps, hello_format by done. cbn [mbind outcome_bind]. generalize dependent (RANDOM draws 16). intros cookie Hok.
  rewrite (initiate_spec _ (do_make_simple_kexinit (init cl) cookie) (kexinit_octets (do_make_simple_kexinit (init cl) cookie)));
    [done | | done | done | done | by apply format_kexinit].
  change (mode (fresh_connection flags version cookie draws)) with (Z.land flags CONNECTION_MODE).
  change (kexinits (fresh_connection flags version cookie draws)) with (set_mode (Z.land flags CONNECTION_MODE) (Some (do_make_simple_kexinit (init cl) cookie)) (mkTwo None None)).
  by rewrite Hm, set_mode_at, Z.eqb_refl by auto.
Qed.

Lemma ready_facts flags version cookie draws s : Z.land flags CONNECTION_MODE = m ->
  let c := ready_connection flags version cookie draws s in
  mode c = m /\ versions c = set_mode m (Some version) (mkTwo None None) /\ literal_kexinits c = set_mode m (Some s) (mkTwo None None)
  /\ kexinits c = set_mode m (Some (do_make_simple_kexinit (init cl) cookie)) (mkTwo None None)
  /\ (rec_max_packet c = SSH_MAX_PACKET /\ kex_state c = KEX_STATE_INIT /\ pending c = [] /\ paused c = false /\ trace c = [Wrote s])
  /\ forall n, handler_ok (dispatch c n).
Proof.
  intros Hm. rewrite <- Hm. split_and!; try reflexivity. intros n. unfold ready_connection, fresh_connection, note, install.
  cbn -[initial_dispatch]. destruct (n =? SSH_MSG_KEXINIT); [done | apply initial_dispatch_ok].
Qed.

Lemma greeted_wf flags version cookie draws line f : Z.land flags CONNECTION_MODE = m -> short version -> short line -> bytes_ok cookie -> zlen cookie = 16 ->
  let c := greeted (ready_connection flags version cookie draws (kexinit_octets (do_make_simple_kexinit (init cl) cookie))) line f in
  wf_queue c /\ paused c = false /\ versions c = set_mode (1 - m) (Some line) (set_mode m (Some version) (mkTwo None None)).
Proof.
  intros Hm Hversion Hline Hb Hz. pose proof (own_kexinit_ok _ Hb Hz) as Hok. destruct (kexinit_octets_ok _ Hok) as [Ho _]. pose proof (kexinit_octets_small _ Hok) as Hl.
  pose proof (ready_facts flags version cookie draws (kexinit_octets (do_make_simple_kexinit (init cl) cookie)) Hm) as HF. cbv zeta in HF |- *.
  revert HF Ho Hl. generalize (ready_connection flags version cookie draws (kexinit_octets (do_make_simple_kexinit (init cl) cookie))).
  generalize (kexinit_octets (do_make_simple_kexinit (init cl) cookie)). intros s c (Hmode & Hv & Hlit & Hkex & (Hmax & Hst & Hpend & Hpaused & Htrace) & Hd) Ho Hl.
  unfold greeted. rewrite Hmode.
  split; [|split; [exact Hpaused | cbn; by rewrite Hv]]. split; [|cbn; rewrite Hpend; by apply Forall_nil].
  split; [exact Hmode | cbn | cbn | cbn | cbn; by rewrite Hmax | cbn; rewrite Hst; by constructor | intros n _; apply Hd | left; apply Hd].
  - rewrite Hv. destruct m_end as [-> | ->]; eexists _, _; (split; [reflexivity|]); by split.
  - rewrite Hlit. apply literals_set; [done | by split | by intros d l; unfold at_mode; destruct (d =? _)].
  - intros k. rewrite Hlit, Hkex, !set_mode_at, !Z.eqb_refl by auto. intros [= <-]. split; [by eexists | by exists cookie].
Qed.

(** C25. A connection that was set up is well formed: [handshake_command] ends,
    having written our version string and our KEXINIT message, and when the line
    handler accepts the version of the peer, packets find a state from which the
    connection survives. *)
Theorem handshake_ready flags version draws (Hm : Z.land flags CONNECTION_MODE = m) (Hversion : short version) :
  exists hello c own, handshake_command RANDOM flags version cl draws = Done (hello, c)
    /\ hello = version ++ [13; 10] /\ own_shape own /\ trace c = [Wrote (kexinit_octets own)]
    /\ forall line c', short line -> do_line line c = Done (ReadPackets, c') -> wf_queue c' /\ paused c' = false
       /\ versions c' = set_mode (1 - m) (Some line) (set_mode m (Some version) (mkTwo None None)).
Proof.
  destruct (Hrandom draws 16 ltac:(lia)) as [Hb Hz]. pose proof (own_kexinit_ok _ Hb Hz) as Hok.
  eexists _, _, (do_make_simple_kexinit (init cl) (RANDOM draws 16)). split; [by apply handshake_result|]. split; [done|]. split; [by exists (RANDOM draws 16)|].
  split; [apply (ready_facts flags version (RANDOM draws 16) draws _ Hm)|]. intros line c' Hline El. destruct (do_line_accepts line _ c' Hline El) as [f ->].
  exact (greeted_wf flags version (RANDOM draws 16) draws line f Hm Hversion Hline Hb Hz).
Qed.

(** ** A second KEXINIT message *)

(** A client that has sent its KEXINIT message [own] and waits for the peer's. *)
Record awaiting (own : kexinit) (c : connection) : Prop := {
  aw_wf : wf c;
  aw_paused : paused c = false;
  aw_state : kex_state c = KEX_STATE_INIT;
  aw_own : at_mode CONNECTION_CLIENT (kexinits c) = Some own;
  aw_handler : dispatch c SSH_MSG_KEXINIT = kexinit_handler cl
}.

(** A packet with a KEXINIT message that announces no further packet and has
    an algorithm in common with [own] for everything. *)
Record negotiable (own : kexinit) (packet : bytes) (msg : kexinit) : Prop := {
  ng_packet : packet_ok packet;
  ng_number : head packet = Some SSH_MSG_KEXINIT;
  ng_parses : parse_kexinit packet = Done (Some msg);
  ng_some : kex_algorithms msg <> [];
  ng_kex : select_algorithm (kex_algorithms own) (kex_algorithms msg) <> 0;
  ng_hostkey : select_algorithm (server_hostkey_algorithms own) (server_hostkey_algorithms msg) <> 0;
  ng_parameters : is_Some (select_parameters own msg);
  ng_alone : first_kex_packet_follows msg = 0
}.

(** The share drawn from the [d]-th request for randomness. *)
Definition client_share (d : Z) : Z :=
  let n := order G - 1 in power G (generator G) (bignum_random n (RANDOM d ((mpz_sizeinbase2 n + 10 + 7) / 8)) + 1).

(** The client's part of [KEYEXCHANGE_INIT], exactly. *)
Lemma init_client_spec hk v l c kc ks : wf c -> literal_kexinits c = mkTwo (Some kc) (Some ks) ->
  exists dh share, ssh_format "%c%n" [VWord SSH_MSG_KEXDH_INIT; VNum (client_share (draws c))] = Done share
  /\ do_init_client_dh RANDOM G hk (lookup_verifier v) l c
     = Done (install SSH_MSG_KEXDH_REPLY (dh_reply_handler (mkDhClient dh hk v l)) (note (Wrote share) (c <| draws := draws c + 1 |>))).
Proof.
  intros Hw Hk. destruct (init_dh_total c kc ks Hw Hk) as (h & t & E & Hh).
  destruct (client_msg_total (client_share (draws c)) (power_element _ _)) as [share Es].
  exists (mkDh G (client_share (draws c)) 0 (bignum_random (order G - 1) (RANDOM (draws c) ((mpz_sizeinbase2 (order G - 1) + 10 + 7) / 8)) + 1) [] h []), share.
  split; [done|]. unfold do_init_client_dh. rewrite E. cbn [mbind outcome_bind].
  unfold dh_make_client_msg, dh_generate_secret, random. cbn [dh_group dh_f dh_K dh_hash exchange_hash].
  fold (client_share (draws c)). rewrite Es. reflexivity.
Qed.

(** The negotiation of a client, exactly. *)
Lemma handle_kexinit_spec own packet msg c : m = CONNECTION_CLIENT -> wf c -> kex_state c = KEX_STATE_INIT ->
  at_mode CONNECTION_CLIENT (kexinits c) = Some own -> negotiable own packet msg ->
  exists c' share, do_handle_kexinit RANDOM u cl packet c = Done c'
  /\ ssh_format "%c%n" [VWord SSH_MSG_KEXDH_INIT; VNum (client_share (draws c))] = Done share
  /\ trace c' = trace c ++ [Wrote share] /\ draws c' = draws c + 1 /\ wf c' /\ paused c' = paused c
  /\ at_mode CONNECTION_CLIENT (kexinits c') = Some own /\ dispatch c' SSH_MSG_KEXINIT = dispatch c SSH_MSG_KEXINIT /\ rec_max_packet c' = rec_max_packet c
  /\ kex_state c' = if decide (head (kex_algorithms own) = head (kex_algorithms msg)) then KEX_STATE_IN_PROGRESS else KEX_STATE_INIT.
Proof.
  intros Hm Hw Hs Hown [Hok _ Hparse Hsome Hkex Hhk [chosen Hch] Halone].
  pose proof (kexinit_goes packet c Hok Hw) as (c' & E & [Hw' _ _]). revert E Hw'.
  unfold do_handle_kexinit. rewrite Hparse. cbn [mbind outcome_bind]. rewrite Hs. cbn [Z.eqb KEX_STATE_INIT negb].
  rewrite bool_decide_eq_false_2 by done. rewrite (wf_mode _ Hw).
  pose proof (after_peer packet msg c Hok Hw) as [Hw1 _ _]. set (c1 := c <| literal_kexinits := _ |> <| kexinits := _ |>) in *.
  assert (Hown1 : at_mode m (kexinits c1) = Some own).
  { unfold c1. cbn. rewrite set_mode_at, (proj2 (Z.eqb_neq m (1 - m))) by lia. by rewrite Hm. }
  unfold own_kexinit. rewrite (wf_mode _ Hw1), Hown1. cbn [mbind outcome_bind]. rewrite (wf_mode _ Hw1), Hm. cbn [Z.eqb CONNECTION_CLIENT].
  destruct (wf_own _ Hw1 own Hown1) as [Hlit1 Hshape].
  assert (L3 : is_Some (at_mode (1 - m) (literal_kexinits c1))).
  { unfold c1. cbn. rewrite set_mode_at, Z.eqb_refl by lia. by eexists. }
  destruct (two_literals _ Hlit1 L3) as (kc & ks & Hlit).
  assert (Hko : kex_algorithms own = s_kex_algorithms (init cl)) by by destruct Hshape as (? & _ & _ & ->).
  destruct (kex_algorithms own) as [|a as'] eqn:Eo; [exfalso; by apply (cf_some conf)|]. destruct (kex_algorithms msg) as [|b bs] eqn:Em; [done|].
  cbn [first_of mbind outcome_bind head]. rewrite Halone. cbn [Z.eqb].
  set (state := if decide _ then KEX_STATE_IN_PROGRESS else KEX_STATE_INIT).
  assert (HS : exists kex, (if a =? b then (a, c1 <| kex_state := KEX_STATE_IN_PROGRESS |>) else (select_algorithm (a :: as') (b :: bs), c1))
      = (kex, c1 <| kex_state := state |>) /\ kex <> 0 /\ kex ∈ s_kex_algorithms (init cl)).
  { destruct (Z.eqb_spec a b) as [Hab|Hab].
    - exists a. subst state. rewrite decide_True by congruence. split; [done|]. rewrite <- Hko. split; [|by constructor].
      intros E0. destruct (cf_lists conf) as [[Hall _] _]. rewrite <- Hko in Hall. apply Forall_cons_1 in Hall as [Hatom _].
      unfold is_atom in Hatom. lia.
    - exists (select_algorithm (a :: as') (b :: bs)). subst state. rewrite decide_False by congruence.
      assert (c1 <| kex_state := KEX_STATE_INIT |> = c1) as -> by (unfold c1; rewrite <- Hs; by destruct c).
      split; [done|]. split; [done|]. rewrite <- Hko. apply (selected_in _ _ true Hkex). }
  destruct HS as (kex & -> & Hk0 & Hkin). rewrite (proj2 (Z.eqb_neq kex 0) Hk0), andb_false_r.
  rewrite (proj2 (Z.eqb_neq _ 0) Hhk), Hch.
  rewrite (cf_exchange conf kex Hkin), Hm. cbn [Z.eqb CONNECTION_CLIENT KEYEXCHANGE_INIT].
  pose proof (cf_extra conf) as Hx. destruct (extra cl) as [v|f]; [|destruct Hx as [Hx _]; rewrite Hm in Hx; done].
  set (c2 := c1 <| kex_state := state |>).
  assert (Hw2 : wf c2) by (apply after_state; [done|]; subst state; destruct (decide _); by repeat constructor).
  destruct (init_client_spec (select_algorithm (server_hostkey_algorithms own) (server_hostkey_algorithms msg)) v (algorithms cl <$> chosen) c2 kc ks Hw2 Hlit)
    as (dh & share & Es & ->).
  intros [= <-] Hw'. eexists _, share. split; [reflexivity|]. split; [exact Es|]. split; [done|]. split; [done|]. split; [exact Hw'|].
  split; [done|]. split; [|done]. change (at_mode CONNECTION_CLIENT (kexinits c1) = Some own). rewrite <- Hm. exact Hown1.
Qed.

(** The packet that carries it. *)
Lemma client_kexinit own packet msg c seq : m = CONNECTION_CLIENT -> awaiting own c -> negotiable own packet msg -> zlen packet <= rec_max_packet c ->
  exists c' share, connection_handle_packet RANDOM verbose locks u seq packet c = Done c'
  /\ ssh_format "%c%n" [VWord SSH_MSG_KEXDH_INIT; VNum (client_share (draws c))] = Done share
  /\ trace c' = trace c ++ [Handling packet; Wrote share] /\ draws c' = draws c + 1 /\ rec_max_packet c' = rec_max_packet c
  /\ paused c' = false /\ kex_state c' = (if decide (head (kex_algorithms own) = head (kex_algorithms msg)) then KEX_STATE_IN_PROGRESS else KEX_STATE_INIT)
  /\ (kex_state c' = KEX_STATE_INIT -> awaiting own c').
Proof.
  intros Hm [Hw Hp' Hs Hown Hd] Hn Hmax. pose proof (ng_number _ _ _ Hn) as Hhead. unfold connection_handle_packet.
  rewrite Hp'. cbn [negb assert_that mbind outcome_bind]. destruct packet as [|n rest]; [done|]. injection Hhead as ->.
  change (rec_max_packet (note _ c)) with (rec_max_packet c). rewrite (proj2 (Z.ltb_ge _ _) Hmax).
  change (kex_state (note _ c)) with (kex_state c). rewrite Hs. cbn [gate Z.eqb KEX_STATE_INIT SSH_MSG_KEXINIT SSH_MSG_NEWKEYS Pos.eqb mbind outcome_bind].
  change (dispatch (note ?x c)) with (dispatch c). rewrite Hd. cbn [HANDLE_PACKET].
  destruct (handle_kexinit_spec own (SSH_MSG_KEXINIT :: rest) msg (note (Handling (SSH_MSG_KEXINIT :: rest)) c) Hm) as (c' & share & E & Es & Ht & Hdr & Hw' & Hpa & Hk & Hdi & Hmx & Hst);
    [by eapply wf_frame | done..|].
  exists c', share. split; [exact E|]. split; [exact Es|]. split; [rewrite Ht; cbn; by rewrite <- app_assoc|]. split; [exact Hdr|]. split; [exact Hmx|].
  split; [by rewrite Hpa|]. split; [exact Hst|]. intros Hi. split; try done; [by rewrite Hpa | by rewrite Hdi].
Qed.

(** C39. On a client that has sent its KEXINIT message, a KEXINIT message of
    the peer with which an exchange can be agreed on and that announces no
    packet is taken: a share is drawn and sent. Whether the exchange counts as
    under way then depends on the first algorithms of the two messages: if they
    are the same, a second KEXINIT message is refused with a protocol error; if
    they differ, the state is not set, and a second one that can be agreed on
    is taken, too, and another share is drawn and sent. *)
Theorem second_kexinit_restarts own packet1 msg1 packet2 msg2 c seq1 seq2 : m = CONNECTION_CLIENT -> awaiting own c ->
  negotiable own packet1 msg1 -> negotiable own packet2 msg2 -> zlen packet1 <= rec_max_packet c -> zlen packet2 <= rec_max_packet c ->
  let handle := connection_handle_packet RANDOM verbose locks u in
  let shares d s := ssh_format "%c%n" [VWord SSH_MSG_KEXDH_INIT; VNum (client_share d)] = Done s in
  exists c1 share1, handle seq1 packet1 c = Done c1 /\ shares (draws c) share1 /\ trace c1 = trace c ++ [Handling packet1; Wrote share1]
  /\ if decide (head (kex_algorithms own) = head (kex_algorithms msg1)) then
       exists refusal, handle seq2 packet2 c1 = Done (note FinishRead (note (Wrote refusal) (note (Handling packet2) c1)))
     else
       exists c2 share2, handle seq2 packet2 c1 = Done c2 /\ shares (draws c + 1) share2 /\ trace c2 = trace c1 ++ [Handling packet2; Wrote share2].
Proof.
  intros Hm Ha H1 H2 L1 L2 handle shares. subst handle shares. cbv beta.
  destruct (client_kexinit own packet1 msg1 c seq1 Hm Ha H1 L1) as (c1 & s1 & E1 & Es1 & Ht1 & Hd1 & Hx1 & Hp1 & Hk1 & Hn1).
  exists c1, s1. split; [exact E1|]. split; [exact Es1|]. split; [exact Ht1|]. destruct (decide _).
  - unfold connection_handle_packet. rewrite Hp1. cbn [negb assert_that mbind outcome_bind].
    pose proof (ng_number _ _ _ H2) as Hhead. destruct packet2 as [|n rest]; [done|]. injection Hhead as ->.
    change (rec_max_packet (note _ c1)) with (rec_max_packet c1). rewrite Hx1, (proj2 (Z.ltb_ge _ _) L2).
    change (kex_state (note _ c1)) with (kex_state c1). rewrite Hk1.
    cbn [gate Z.eqb KEX_STATE_INIT KEX_STATE_IGNORE KEX_STATE_IN_PROGRESS SSH_MSG_KEXINIT SSH_MSG_NEWKEYS Pos.eqb orb mbind outcome_bind].
    by apply (raise_spec SSH_DISCONNECT_PROTOCOL_ERROR).
  - rewrite <- Hd1. rewrite <- Hx1 in L2.
    destruct (client_kexinit own packet2 msg2 c1 seq2 Hm (Hn1 Hk1) H2 L2) as (c2 & s2 & E2 & Es2 & Ht2 & _). by exists c2, s2.
Qed.

End Connection.

(** ** An instance: a client with one algorithm of each class *)

Import Hashes.

Definition ATOM_DH : Z := lookup_atom (bytes_of_string "diffie-hellman-group1-sha1").
Definition ATOM_3DES : Z := lookup_atom (bytes_of_string "3des-cbc").
Definition ATOM_HMAC : Z := lookup_atom (bytes_of_string "hmac-sha1").

Definition sample_algorithms (a : Z) : option (algorithm (bytes * option bytes) bytes unit) :=
  if a =? ATOM_DH then Some (AKex (dh_client_exchange (make_group_zn 23 5 11)))
  else if a =? ATOM_3DES then Some (ACrypto sample_cipher)
  else if a =? ATOM_HMAC then Some (AMac (mkMac 20 id)) else None.

Definition sample_init : simple_kexinit := mkSimple [ATOM_DH] [ATOM_SSH_DSS] [ATOM_3DES] [ATOM_HMAC] [ATOM_NONE] [].
Definition sample_closure : kexinit_closure (bytes * option bytes) bytes unit :=
  mkClosure sample_init (lookup_verifier (fun _ _ => Some sample_verify)) sample_algorithms.

Lemma sample_configured : configured 23 5 11 0 sample_closure.
Proof.
  split; [split_and!; by apply list_okb_ok | done | | | | | done]; intros a Ha; apply list_elem_of_singleton in Ha as ->; vm_compute; try done.
Qed.

Lemma sample_random_ok d n : 0 <= n -> bytes_ok (sample_random d n) /\ zlen (sample_random d n) = n.
Proof. intros Hn. unfold sample_random. split; [by apply Forall_replicate | unfold zlen; rewrite length_replicate; lia]. Qed.

Lemma sample_prime : 1 < 23 <= 2 ^ (8 * group_octets - 1).
Proof. split; [lia | by apply Z.leb_le; vm_compute]. Qed.

Definition sample_greeted : ssh_connection (bytes * option bytes) bytes unit sha_instance :=
  greeted (ready_connection sample_closure 0 (bytes_of_string "SSH-2.0-lsh") (replicate 16 9) 0
    (kexinit_octets (do_make_simple_kexinit sample_init (replicate 16 9)))) (bytes_of_string "SSH-2.0-peer") 0.

Lemma sample_wf : wf_queue 23 5 11 0 sample_closure sample_greeted.
Proof.
  apply (greeted_wf sample_random (fun _ _ => false) 23 5 11 0 sample_closure (or_introl eq_refl) sample_prime sample_configured sample_random_ok 0 (bytes_of_string "SSH-2.0-lsh") (replicate 16 9) 0 (bytes_of_string "SSH-2.0-peer") 0);
    try done; try (by apply bytes_short).
Qed.

Theorem connection_survives_witness : wf 23 5 11 0 sample_closure sample_greeted /\
  exists c', connection_handle_packet sample_random true (fun _ _ => false) 0 7 [80; 1; 2] sample_greeted = Done c' /\ wf 23 5 11 0 sample_closure c'.
Proof.
  split; [apply sample_wf|]. apply (connection_survives sample_random true (fun _ _ => false) 0 23 5 11 0 sample_closure (or_introl eq_refl) sample_prime sample_configured sample_random_ok 7 [80; 1; 2] sample_greeted (wq_wf _ _ _ _ _ _ sample_wf) eq_refl).
  split; [cbn; lia | by repeat constructor].
Defined.

Definition sample_exchange : dh_client (bytes * option bytes) bytes unit sha_instance :=
  mkDhClient (mkDh (make_group_zn 23 5 11) 2 0 2 [] make_hash []) ATOM_SSH_DSS (fun _ _ => Some sample_verify) [None; None; None; None; None; None].

Theorem keys_need_signature_witness : exists c', do_handle_dh_reply true sample_exchange [31; 0; 0; 0; 0; 0; 0; 0; 1; 4; 0; 0; 0; 1; 7] sample_greeted = Done c' /\
  (signed 23 5 11 sample_exchange [] [31; 0; 0; 0; 0; 0; 0; 0; 1; 4; 0; 0; 0; 1; 7] sample_greeted
   \/ exists msg c0, c' = note FinishRead (note (Wrote msg) c0) /\ refused sample_exchange sample_greeted c0).
Proof.
  apply (keys_need_signature sample_random true (fun _ _ => false) 23 5 11 0 sample_closure (or_introl eq_refl) sample_prime);
    [apply sample_wf | split; [by repeat constructor | done] | done | exact make_hash_empty | cbn; lia |].
  exists None, None, None, None, None, None. by split_and!.
Defined.

Theorem packets_in_order_witness :
  exists c', run sample_random true (fun _ _ => true) 0 [Arrives 1 [2; 0]; Unlocks; Arrives 2 [200]; Arrives 3 [21]] sample_greeted = Done c'
    /\ taken c' = [[2; 0]; [200]; [21]] /\ (paused c' = true \/ pending c' = []).
Proof.
  destruct (packets_in_order sample_random true (fun _ _ => true) 0 23 5 11 0 sample_closure (or_introl eq_refl) sample_prime sample_configured sample_random_ok
    [Arrives 1 [2; 0]; Unlocks; Arrives 2 [200]; Arrives 3 [21]] sample_greeted sample_wf) as (c' & E & _ & Ht & Hend).
  { repeat (apply Forall_cons; split); try done; try (split; [cbn; lia | by repeat constructor]); by apply Forall_nil. }
  exists c'. split; [exact E|]. split; [exact Ht | exact (Hend [Arrives 1 [2; 0]; Unlocks; Arrives 2 [200]] 3 [21] eq_refl)].
Defined.

Theorem handshake_ready_witness : exists hello c own,
  handshake_command (H := sha_instance) sample_random 0 (bytes_of_string "SSH-2.0-lsh") sample_closure 0 = Done (hello, c)
  /\ trace c = [Wrote (kexinit_octets own)].
Proof.
  destruct (handshake_ready (H := sha_instance) sample_random (fun _ _ => false) 23 5 11 0 sample_closure (or_introl eq_refl) sample_prime sample_configured sample_random_ok 0 (bytes_of_string "SSH-2.0-lsh") 0 eq_refl
    ltac:(by apply bytes_short)) as (hello & c & own & E & _ & _ & Ht & _).
  exists hello, c, own. split; assumption.
Defined.

(** ** A second KEXINIT *)

Definition peer_kexinit (kex : list Z) : kexinit :=
  mkKexinit (replicate 16 3) kex [ATOM_SSH_DSS] [[ATOM_3DES]; [ATOM_3DES]; [ATOM_HMAC]; [ATOM_HMAC]; [ATOM_NONE]; [ATOM_NONE]] [] [] 0 None.

Lemma sample_negotiable (differs : bool) :
  let msg := peer_kexinit (if differs then [ATOM_NONE; ATOM_DH] else [ATOM_DH]) in
  negotiable (do_make_simple_kexinit sample_init (replicate 16 9)) (kexinit_octets msg) msg.
Proof.
  split; destruct differs; first
    [ apply (bool_decide_unpack _); by vm_compute | by vm_compute | vm_compute; discriminate | by vm_compute; eexists ].
Qed.

Lemma sample_awaiting : awaiting 23 5 11 0 sample_closure (do_make_simple_kexinit sample_init (replicate 16 9)) sample_greeted.
Proof. split; [apply sample_wf | by vm_compute..]. Qed.

Theorem second_kexinit_restarts_witness :
  let packet := kexinit_octets (peer_kexinit [ATOM_NONE; ATOM_DH]) in
  exists c1 c2 share1 share2, connection_handle_packet sample_random true (fun _ _ => false) 0 7 packet sample_greeted = Done c1
  /\ connection_handle_packet sample_random true (fun _ _ => false) 0 8 packet c1 = Done c2
  /\ trace c2 = trace sample_greeted ++ [Handling packet; Wrote share1; Handling packet; Wrote share2].
Proof.
  intros packet.
  destruct (second_kexinit_restarts sample_random true (fun _ _ => false) 0 23 5 11 0 sample_closure (or_introl eq_refl) sample_prime sample_configured sample_random_ok
    _ packet _ packet _ sample_greeted 7 8 eq_refl sample_awaiting (sample_negotiable true) (sample_negotiable true)) as (c1 & s1 & E1 & _ & T1 & H);
    [by vm_compute..|].
  rewrite decide_False in H by (by vm_compute). destruct H as (c2 & s2 & E2 & _ & T2).
  exists c1, c2, s1, s2. split; [exact E1|]. split; [exact E2|]. rewrite T2, T1, <- app_assoc. done.
Defined.

End Connection.
