(* ===== verification/Linemode.v ===== *)
(** Telnet LINEMODE (Linemode/linemode.c): the table of special characters,
    its negotiation ([negotiateSLC], [respondSLC], [doLinemode]), the forward
    mask and the mode suboption. *)
From S2P Require Import Prelude Window.
Import Window.

(** The Telnet constants of parse.h. *)
Module TelnetConstants.

Definition TEL_EOF : Z := 236.
Definition TEL_SUSP : Z := 237.
Definition TEL_ABORT : Z := 238.
Definition TEL_SE : Z := 240.
Definition TEL_NOP : Z := 241.
Definition TEL_DM : Z := 242.
Definition TEL_BREAK : Z := 243.
Definition TEL_IP : Z := 244.
Definition TEL_AO : Z := 245.
Definition TEL_AYT : Z := 246.
Definition TEL_EC : Z := 247.
Definition TEL_EL : Z := 248.
Definition TEL_GA : Z := 249.
Definition TEL_SB : Z := 250.
Definition TEL_WILLTEL : Z := 251.
Definition TEL_WONTTEL : Z := 252.
Definition TEL_DOTEL : Z := 253.
Definition TEL_DONTTEL : Z := 254.
Definition TEL_IAC : Z := 255.
Definition IAC : Z := 255.
Definition GS : Z := 29.
Definition ESC : Z := 27.

Definition TS_NORM : Z := 0.
Definition TS_SB : Z := 1.
Definition TS_WILL : Z := 3.
Definition TS_WONT : Z := 4.
Definition ESCFOUND : Z := 5.
Definition IACFOUND : Z := 6.
Definition TS_DO : Z := 7.
Definition TS_DONT : Z := 8.

Definition N_ECHO : Z := 1.
Definition N_SGA : Z := 3.
Definition N_TIMING : Z := 6.
Definition N_TERMTYP : Z := 24.
Definition N_NAWS : Z := 31.
Definition N_REMOTEFLOW : Z := 33.
Definition N_LINEMODE : Z := 34.
Definition N_XDISPLOC : Z := 35.
Definition N_AUTHENTICATION : Z := 37.
Definition N_ENCRYPT : Z := 38.
Definition N_NEW_ENVIRON : Z := 39.
Definition FLOW_OFF : Z := 0.
Definition FLOW_ON : Z := 1.
Definition FLOW_RESTART_ANY : Z := 2.
Definition FLOW_RESTART_XON : Z := 3.

Definition L_MODE : Z := 1.
Definition L_FORWARDMASK : Z := 2.
Definition L_SLC : Z := 3.
Definition L_EDIT : Z := 1.
Definition L_MODE_ACK : Z := 4.
Definition L_SOFT_TAB : Z := 8.
Definition L_LIT_ECHO : Z := 16.
Definition L_MODE_MASK : Z := 31.

Definition SLC_NOSUPPORT : Z := 0.
Definition SLC_VALUE : Z := 2.
Definition SLC_DEFAULT : Z := 3.
Definition SLC_LEVELBITS : Z := 3.
Definition SLC_FLUSHOUT : Z := 32.
Definition SLC_FLUSHIN : Z := 64.
Definition SLC_AWK : Z := 128.
Definition SLC_MAX : Z := 30.
Definition SLC_BRK : Z := 2.
Definition SLC_IP : Z := 3.
Definition SLC_AO : Z := 4.
Definition SLC_ABORT : Z := 7.
Definition SLC_EOF : Z := 8.
Definition SLC_SUSP : Z := 9.
Definition SLC_EC : Z := 10.
Definition SLC_EL : Z := 11.
Definition SLC_EW : Z := 12.
Definition SLC_RP : Z := 13.
Definition SLC_LNEXT : Z := 14.
Definition SLC_XON : Z := 15.
Definition SLC_XOFF : Z := 16.
Definition SLC_FORW1 : Z := 17.

End TelnetConstants.
Import TelnetConstants.

Module Linemode.

Definition default_slc : bytes :=
  [255; 255; 255; 3; 21; 0; 0; 28; 4; 26; 127; 21; 23; 18; 22; 17; 19; 22; 254;
   255; 255; 255; 255; 255; 255; 255; 255; 255; 255; 255; 255].

Definition initLinemode (tw : WindRec) : WindRec :=
  tw <| slc := default_slc |>
     <| slcLevel := (fun v => if v =? 255 then SLC_NOSUPPORT else SLC_VALUE) <$> default_slc |>
     <| lmodeBits := 0 |> <| litNext := 0 |> <| lmode := 0 |>.

(** ** The forward mask *)

(** One byte of the mask: [for (j = 0; j < 8; j++)]. *)
Fixpoint forward_bits (js : list Z) (byte i : Z) (tw : WindRec) : outcome WindRec :=
  match js with
  | [] => Done tw
  | j :: js =>
    if negb (Z.land byte (j * 2) =? 0) then
      k ← arr_set (numForwardKeys tw - 1) (u8 ((i - 3) * 8 + j)) (forwardKeys tw);
      forward_bits js byte i
        (tw <| forwardKeys := k |> <| numForwardKeys := s16 (numForwardKeys tw + 1) |>)
    else forward_bits js byte i tw
  end.

(** The [while] of [setForwardMask]; [i] only grows and stays below 36, so
    the fuel of [setForwardMask] is never used up. *)
Fixpoint forward_loop (fuel : nat) (i : Z) (tw : WindRec) : outcome WindRec :=
  match fuel with
  | O => Crash BadArgument
  | S fuel =>
    b ← arr_get (parsedat tw) i;
    if negb (b =? 0) && (i <? 35) then
      if b =? 255 then
        n ← arr_get (parsedat tw) (i + 2);
        if n =? TEL_SE then Done tw
        else
          b ← arr_get (parsedat tw) (i + 1);
          tw ← forward_bits [0; 1; 2; 3; 4; 5; 6; 7] b (i + 1) tw;
          forward_loop fuel (i + 2) tw
      else
        tw ← forward_bits [0; 1; 2; 3; 4; 5; 6; 7] b i tw;
        forward_loop fuel (i + 1) tw
    else Done tw
  end.

Definition setForwardMask (tw : WindRec) : outcome WindRec :=
  tw ← forward_loop 36 3 (tw <| numForwardKeys := 1 |>);
  let n := Z.to_nat (numForwardKeys tw) in
  Done (tw <| forwardKeys := take n (forwardKeys tw)
                             ++ replicate (length (forwardKeys tw) - n) 0 |>).

(** ** Special characters *)

Definition subBeginSeq : bytes := [IAC; TEL_SB; N_LINEMODE; L_SLC].
Definition subEndSeq : bytes := [IAC; TEL_SE].

(** The answer about one character; [alreadySentSB] is returned. *)
Definition respondSLC (optionNumber : Z) (alreadySentSB : bool) (tw : WindRec) (AWK : bool)
    : outcome (bool * WindRec) :=
  level ← arr_get (slcLevel tw) optionNumber;
  value ← arr_get (slc tw) optionNumber;
  let level := if AWK then Z.lor level SLC_AWK else level in
  let tw := if alreadySentSB then tw else netwrite subBeginSeq tw in
  Done (true,
    if value =? IAC then
      netwrite [IAC] (netwrite [IAC] (netwrite [u8 optionNumber; level] tw))
    else netwrite [u8 optionNumber; level; value] tw).

(** Sets the value and the level of a character. *)
Definition set_slc_entry (optionNumber value level : Z) (tw : WindRec) : outcome WindRec :=
  v ← arr_set optionNumber value (slc tw);
  l ← arr_set optionNumber level (slcLevel tw);
  Done (tw <| slc := v |> <| slcLevel := l |>).

(** One triplet of the request, at [parsedat + i]. *)
Definition negotiate_one (i : Z) (lmslcflag : bool) (tw : WindRec) : outcome (bool * WindRec) :=
  optionNumber ← arr_get (parsedat tw) i;
  level ← arr_get (parsedat tw) (i + 1);
  requestedValue ← arr_get (parsedat tw) (i + 2);
  let awked := negb (Z.land level SLC_AWK =? 0) in
  let requestedLevel := Z.land level SLC_LEVELBITS in
  ourValue ← arr_get (slc tw) optionNumber;
  ourLevel ← arr_get (slcLevel tw) optionNumber;
  if negb (ourValue =? requestedValue) || negb (ourLevel =? level) then
    if requestedLevel =? SLC_NOSUPPORT then
      (* [ourLevels[optionNumber] & SLC_LEVELBITS != SLC_NOSUPPORT] is
         [ourLevels[optionNumber] & (SLC_LEVELBITS != SLC_NOSUPPORT)] *)
      if negb (Z.land ourLevel (if negb (SLC_LEVELBITS =? SLC_NOSUPPORT) then 1 else 0) =? 0) then
        tw ← set_slc_entry optionNumber 255 SLC_NOSUPPORT tw;
        if negb awked then respondSLC optionNumber lmslcflag tw true else Done (lmslcflag, tw)
      else Done (lmslcflag, tw)
    else if requestedLevel =? SLC_DEFAULT then
      d ← arr_get default_slc optionNumber;
      tw ← set_slc_entry optionNumber d (if d =? 255 then SLC_NOSUPPORT else SLC_VALUE) tw;
      respondSLC optionNumber lmslcflag tw false
    else if ourLevel <? requestedLevel then respondSLC optionNumber lmslcflag tw false
    else
      let newLevel := if negb (Z.land level SLC_FLUSHIN =? 0)
                      then Z.lor requestedLevel SLC_FLUSHIN else requestedLevel in
      let newLevel := if negb (Z.land level SLC_FLUSHOUT =? 0)
                      then Z.lor newLevel SLC_FLUSHOUT else newLevel in
      tw ← set_slc_entry optionNumber requestedValue newLevel tw;
      if negb awked then respondSLC optionNumber lmslcflag tw true else Done (lmslcflag, tw)
  else Done (lmslcflag, tw).

Fixpoint negotiate_loop (idx : list Z) (lmslcflag : bool) (tw : WindRec) : outcome (bool * WindRec) :=
  match idx with
  | [] => Done (lmslcflag, tw)
  | i :: idx =>
    '(lmslcflag, tw) ← negotiate_one i lmslcflag tw;
    negotiate_loop idx lmslcflag tw
  end.

(** The indices of [for (i = 2; i <= parseIndex - 3; i += 3)]. *)
Definition slc_indices (n : Z) : list Z :=
  (fun k => 2 + 3 * Z.of_nat k) <$> seq 0 (Z.to_nat ((n - 2) / 3)).

Definition negotiateSLC (tw : WindRec) : outcome WindRec :=
  '(lmslcflag, tw) ← negotiate_loop (slc_indices (parseIndex tw)) false tw;
  Done (if lmslcflag : bool then netwrite subEndSeq tw else tw).

(** The answer to a DO LINEMODE: the whole table. *)
Definition doLinemode_entry (i : Z) (tw : WindRec) : outcome WindRec :=
  v ← arr_get (slc tw) i;
  Done (netwrite (if v =? 255 then [i; SLC_NOSUPPORT; 0] else [i; SLC_VALUE; v]) tw).

Fixpoint doLinemode_loop (idx : list Z) (tw : WindRec) : outcome WindRec :=
  match idx with
  | [] => Done tw
  | i :: idx => tw ← doLinemode_entry i tw; doLinemode_loop idx tw
  end.

Definition doLinemode (tw : WindRec) : outcome WindRec :=
  let tw := tw <| lmodeBits := 0 |> <| lmode := 1 |> <| litNext := 0 |> in
  let tw := netwrite subBeginSeq tw in
  tw ← doLinemode_loop (Z.of_nat <$> seq 1 30) tw;
  Done (netwrite subEndSeq tw).

(** ** The suboption *)

Definition linemode_suboption (tw : WindRec) : outcome WindRec :=
  sub ← arr_get (parsedat tw) 1;
  if sub =? L_MODE then
    if negb (lineAllow tw =? 0) then
      mode ← arr_get (parsedat tw) 2;
      if negb (negb (Z.land mode L_MODE_ACK =? 0) || (Z.land mode L_MODE_MASK =? lmodeBits tw)) then
        p ← arr_set 2 (Z.lor mode L_MODE_ACK) (parsedat tw);
        let tw := tw <| lmodeBits := mode |> <| parsedat := p |> in
        let tw := netwrite [IAC; TEL_SB; N_LINEMODE; L_MODE] tw in
        Done (netwrite [Z.lor mode L_MODE_ACK; IAC; TEL_SE] tw)
      else Done tw
    else Done tw
  else if sub =? TEL_DOTEL then
    tw ← setForwardMask (tw <| forwardMask := 1 |>);
    Done (netwrite [TEL_IAC; TEL_SB; N_LINEMODE; TEL_WILLTEL; L_FORWARDMASK; TEL_IAC; TEL_SE] tw)
  else if sub =? TEL_DONTTEL then
    Done (netwrite [TEL_IAC; TEL_SB; N_LINEMODE; TEL_WONTTEL; L_FORWARDMASK; TEL_IAC; TEL_SE]
            (tw <| forwardMask := 0 |>))
  else if sub =? L_SLC then negotiateSLC tw
  else Done tw.


(** ** Correctness of the negotiation *)

(** The tables as the program keeps them: every level is one of the four
    levels with at most the two flush bits. *)
Definition level_ok (l : Z) : Prop := 0 <= l < 100.
Definition lm_ok (tw : WindRec) : Prop :=
  zlen (parsedat tw) = 450 /\ bytes_ok (parsedat tw)
  /\ zlen (slc tw) = 31 /\ bytes_ok (slc tw)
  /\ zlen (slcLevel tw) = 31 /\ Forall level_ok (slcLevel tw)
  /\ zlen (forwardKeys tw) = 32.

(** A triplet on the wire, its IAC doubled, and the reference decoder of a
    special-character suboption (RFC 1184). *)
Definition triplet := (Z * Z * Z)%type.
Definition stuff (l : bytes) : bytes := l ≫= fun b => if b =? IAC then [IAC; IAC] else [b].
Definition flat (t : triplet) : bytes := let '(o, l, v) := t in [o; l; v].
Definition slc_frame (rs : list triplet) : bytes :=
  match rs with [] => [] | _ => subBeginSeq ++ stuff (rs ≫= flat) ++ subEndSeq end.

Fixpoint unstuff (l : bytes) : option bytes :=
  match l with
  | 255 :: 255 :: r => cons 255 <$> unstuff r
  | [255; 240] => Some []
  | 255 :: _ | [] => None
  | b :: r => cons b <$> unstuff r
  end.
Fixpoint triplets (l : bytes) : option (list triplet) :=
  match l with
  | [] => Some []
  | o :: l :: v :: r => cons (o, l, v) <$> triplets r
  | _ => None
  end.
Definition decode_slc (l : bytes) : option (list triplet) :=
  match l with
  | 255 :: 250 :: 34 :: 3 :: r => unstuff r ≫= triplets
  | _ => None
  end.

(** The answer [r] is a legitimate one to the request [q]: it is about the
    same character, it never acknowledges an acknowledgement, and what it
    acknowledges is what was asked (or the withdrawal of the function). *)
Definition slc_legit (q r : triplet) : Prop :=
  let '(o, rl, rv) := q in
  let '(o', l, v) := r in
  o' = o /\ (Z.land l SLC_AWK <> 0 ->
    Z.land rl SLC_AWK = 0 /\ Z.land l SLC_LEVELBITS = Z.land rl SLC_LEVELBITS
    /\ (v = rv \/ (Z.land rl SLC_LEVELBITS = SLC_NOSUPPORT /\ v = 255))).

(** The triplets of the request. *)
Definition request_at (p : bytes) (i : Z) : triplet :=
  (p !!! Z.to_nat i, p !!! Z.to_nat (i + 1), p !!! Z.to_nat (i + 2)).

Lemma netwrite_app a b tw : netwrite b (netwrite a tw) = netwrite (a ++ b) tw.
Proof. unfold netwrite. by rewrite emit_emit, fmap_app. Qed.

Lemma stuff_app a b : stuff (a ++ b) = stuff a ++ stuff b.
Proof. apply bind_app. Qed.

Lemma unstuff_stuff l : bytes_ok l -> unstuff (stuff l ++ subEndSeq) = Some l.
Proof.
  induction 1 as [|b l Hb _ IH]; [done|].
  change (b :: l) with ([b] ++ l). rewrite stuff_app, <- app_assoc.
  unfold stuff at 1. cbn [mbind list_bind app]. destruct (Z.eqb_spec b IAC) as [->|Hn].
  - cbn [app]. change (unstuff (IAC :: IAC :: ?x)) with (cons 255 <$> unstuff x). by rewrite IH.
  - cbn [app]. transitivity (cons b <$> unstuff (stuff l ++ subEndSeq)).
    + unfold IAC, is_byte in *. destruct b as [|b|b]; try done; try lia.
      do 8 (destruct b as [b|b|]; try done; try lia).
    + by rewrite IH.
Qed.

Lemma triplets_flat rs : triplets (rs ≫= flat) = Some rs.
Proof.
  induction rs as [|[[o l] v] rs IH]; [done|]. cbn [mbind list_bind flat app triplets].
  change (list_bind _ _ flat rs) with (rs ≫= flat). by rewrite IH.
Qed.

(** The bytes of an answer, as [respondSLC] writes them. *)
Definition header (flag : bool) : bytes := if flag then [] else subBeginSeq.

Lemma respondSLC_ok o flag tw awk l v :
  0 <= o < 31 -> lm_ok tw ->
  slcLevel tw !! Z.to_nat o = Some l -> slc tw !! Z.to_nat o = Some v ->
  respondSLC o flag tw awk
  = Done (true, netwrite (header flag ++ stuff [o; if awk then Z.lor l SLC_AWK else l; v]) tw).
Proof.
  intros Ho Hok Hl Hv. unfold respondSLC.
  rewrite (arr_get_Done (slcLevel tw) o l), (arr_get_Done (slc tw) o v) by (done || lia).
  cbn [mbind outcome_bind]. rewrite u8_small by lia.
  assert (Hlo : level_ok l).
  { destruct Hok as (_ & _ & _ & _ & _ & HF & _). by eapply (Forall_lookup_1 level_ok). }
  assert (Hb : ((if awk then Z.lor l SLC_AWK else l) =? IAC) = false).
  { unfold level_ok in Hlo. apply Z.eqb_neq. unfold IAC. destruct awk; [|lia].
    intros E. assert (Z.land 127 (Z.lor l SLC_AWK) = 127) by by rewrite E.
    rewrite Z.land_lor_distr_r in H. change (Z.land 127 SLC_AWK) with 0 in H.
    rewrite Z.lor_0_r, Z.land_comm in H. change 127 with (Z.ones 7) in H at 1.
    rewrite Z.land_ones, Z.mod_small in H; lia. }
  assert (Ho' : (o =? IAC) = false) by (apply Z.eqb_neq; unfold IAC; lia).
  unfold stuff. cbn [mbind list_bind]. rewrite Ho', Hb.
  do 2 f_equal. destruct flag, (v =? IAC) eqn:Ev; cbn [header app]; rewrite ?netwrite_app; cbn [app];
    try (apply Z.eqb_eq in Ev as ->); done.
Qed.

Lemma set_slc_entry_ok o v l tw :
  0 <= o < 31 -> lm_ok tw -> is_byte v -> level_ok l ->
  exists tw', set_slc_entry o v l tw = Done tw' /\ lm_ok tw'
  /\ slc tw' !! Z.to_nat o = Some v /\ slcLevel tw' !! Z.to_nat o = Some l
  /\ parsedat tw' = parsedat tw /\ net_trace tw' = net_trace tw.
Proof.
  intros Ho (Hp & Hpb & Hs & Hsb & Hl & Hlb & Hf) Hv Hlv. unfold set_slc_entry.
  rewrite !arr_set_Done by lia. cbn [mbind outcome_bind]. eexists. split; [done|].
  unfold lm_ok, bytes_ok in *. cbn. rewrite !zlen_insert. split_and!; auto using Forall_insert.
  - apply list_lookup_insert_eq. unfold zlen in Hs. lia.
  - apply list_lookup_insert_eq. unfold zlen in Hl. lia.
Qed.

(** A step of the negotiation, as seen from outside. *)
Definition step_post (q : triplet) (flag : bool) (tw : WindRec) (res : outcome (bool * WindRec)) : Prop :=
  exists flag' tw' rs, res = Done (flag', tw') /\ lm_ok tw' /\ parsedat tw' = parsedat tw
  /\ flag' = flag || negb (bool_decide (rs = []))
  /\ sent tw' = sent tw ++ (if bool_decide (rs = []) then [] else header flag ++ stuff (rs ≫= flat))
  /\ bytes_ok (rs ≫= flat) /\ Forall (slc_legit q) rs.

Lemma step_silent q flag tw0 tw :
  lm_ok tw -> parsedat tw = parsedat tw0 -> net_trace tw = net_trace tw0 ->
  step_post q flag tw0 (Done (flag, tw)).
Proof.
  intros. exists flag, tw, []. unfold sent. cbn. rewrite orb_false_r, app_nil_r.
  split_and!; auto; [by f_equal | constructor].
Qed.

Lemma level_ok_lor_awk l : level_ok l -> is_byte (Z.lor l SLC_AWK).
Proof.
  unfold level_ok. intros. change SLC_AWK with (Z.shiftl 1 7). rewrite Z.lor_comm.
  rewrite lor_shiftl_add by lia. unfold is_byte. lia.
Qed.

Lemma step_answer o rl rv flag tw0 tw (awk : bool) l v :
  0 <= o < 31 -> lm_ok tw -> parsedat tw = parsedat tw0 -> net_trace tw = net_trace tw0 ->
  slcLevel tw !! Z.to_nat o = Some l -> slc tw !! Z.to_nat o = Some v ->
  slc_legit (o, rl, rv) (o, (if awk then Z.lor l SLC_AWK else l), v) ->
  step_post (o, rl, rv) flag tw0 (respondSLC o flag tw awk).
Proof.
  intros Ho Hok Hp Ht Hl Hv Hlegit. rewrite (respondSLC_ok o flag tw awk l v) by done.
  eexists true, _, [(o, (if awk then Z.lor l SLC_AWK else l), v)]. split; [reflexivity|]. rewrite sent_netwrite. unfold sent. rewrite Ht.
  set (l' := if awk then _ else l) in *.
  assert (E : ([(o, l', v)] ≫= flat) = [o; l'; v]) by done. rewrite E.
  rewrite bool_decide_eq_false_2 by done. cbn [negb]. rewrite orb_true_r.
  split_and!; try done.
  - pose proof (proj1 (Forall_lookup _ _) (proj1 (proj2 (proj2 (proj2 (proj2 (proj2 Hok)))))) _ _ Hl) as Hlo.
    pose proof (proj1 (Forall_lookup _ _) (proj1 (proj2 (proj2 (proj2 Hok)))) _ _ Hv) as Hvb.
    apply Forall_cons_2; [unfold is_byte; lia|]. apply Forall_cons_2; [|by apply Forall_singleton].
    subst l'. destruct awk; [by apply level_ok_lor_awk | unfold level_ok, is_byte in *; lia].
  - by constructor.
Qed.

Lemma land_levelbits l : Z.land l SLC_LEVELBITS = l mod 4.
Proof. change SLC_LEVELBITS with (2 ^ 2 - 1). by rewrite land_pow2. Qed.

Lemma awk_ack_bits l : level_ok l ->
  Z.land (Z.lor l SLC_AWK) SLC_LEVELBITS = Z.land l SLC_LEVELBITS.
Proof. intros. rewrite Z.land_lor_distr_l. change (Z.land SLC_AWK SLC_LEVELBITS) with 0. apply Z.lor_0_r. Qed.

Lemma not_awked l : level_ok l -> Z.land l SLC_AWK = 0.
Proof.
  intros Hl. change SLC_AWK with (Z.shiftl 1 7). rewrite Z.land_comm.
  apply land_shiftl_low; unfold level_ok in Hl; lia.
Qed.

(** The level adopted from a request. *)
Lemma adopted_level rl (fin fout : bool) :
  let l := if fin then Z.lor (Z.land rl SLC_LEVELBITS) SLC_FLUSHIN else Z.land rl SLC_LEVELBITS in
  let l := if fout then Z.lor l SLC_FLUSHOUT else l in
  level_ok l /\ Z.land l SLC_LEVELBITS = Z.land rl SLC_LEVELBITS.
Proof.
  cbv zeta. rewrite !land_levelbits. pose proof (Z.mod_pos_bound rl 4 ltac:(lia)) as H.
  assert (rl mod 4 = 0 \/ rl mod 4 = 1 \/ rl mod 4 = 2 \/ rl mod 4 = 3) as [E|[E|[E|E]]] by lia;
    rewrite E; destruct fin, fout; (split; [split; vm_compute; congruence | reflexivity]).
Qed.

Lemma negotiate_one_ok i flag tw o rl rv :
  lm_ok tw -> 0 <= i -> i + 2 < 450 ->
  request_at (parsedat tw) i = (o, rl, rv) -> o < 31 ->
  step_post (o, rl, rv) flag tw (negotiate_one i flag tw).
Proof.
  intros Hok Hi Hi2 [= Ho Hrl Hrv] Ho31. pose proof Hok as (Hp & Hpb & Hs & Hsb & Hl & Hlb & Hf).
  assert (Hget : forall k, 0 <= k < 450 -> exists v, parsedat tw !!! Z.to_nat k = v /\ arr_get (parsedat tw) k = Done v /\ is_byte v).
  { intros k Hk. destruct (arr_get_lookup (parsedat tw) k) as (v & Hv & E); [lia|].
    exists v. split_and!; auto; [by apply list_lookup_total_correct | by apply (Forall_lookup_1 is_byte (parsedat tw) (Z.to_nat k))]. }
  destruct (Hget i) as (o' & E1 & G1 & B1); [lia|]. destruct (Hget (i + 1)) as (rl' & E2 & G2 & B2); [lia|].
  destruct (Hget (i + 2)) as (rv' & E3 & G3 & B3); [lia|].
  rewrite E1 in Ho. rewrite E2 in Hrl. rewrite E3 in Hrv. subst o' rl' rv'. unfold negotiate_one.
  rewrite G1, G2, G3. cbn [mbind outcome_bind]. unfold is_byte in B1.
  destruct (arr_get_lookup (slc tw) o) as (v & Hv & ->); [lia|].
  destruct (arr_get_lookup (slcLevel tw) o) as (l & Hl' & ->); [lia|]. cbn [mbind outcome_bind].
  destruct (negb (v =? rv) || negb (l =? rl)); [|by apply step_silent].
  destruct (Z.eqb_spec (Z.land rl SLC_LEVELBITS) SLC_NOSUPPORT) as [En|En].
  { destruct (negb _); [|by apply step_silent].
    destruct (set_slc_entry_ok o 255 SLC_NOSUPPORT tw) as (tw1 & -> & Hok1 & Hv1 & Hl1 & Hp1 & Ht1);
      [lia | done | done | done |]. cbn [mbind outcome_bind].
    destruct (Z.eqb_spec (Z.land rl SLC_AWK) 0) as [Ea|Ea]; cbn [negb]; [|by apply step_silent].
    eapply step_answer; try done; [lia|]. split; [done|]. intros _. split_and!; auto. }
  destruct (Z.eqb_spec (Z.land rl SLC_LEVELBITS) SLC_DEFAULT) as [Ed|Ed].
  { destruct (arr_get_lookup default_slc o) as (d & Hd & ->); [by split; [lia|]|]. cbn [mbind outcome_bind].
    assert (Hdb : is_byte d).
    { eapply (Forall_lookup_1 is_byte); [|done]. by apply (bool_decide_unpack (bytes_ok default_slc)). }
    set (dl := if d =? 255 then _ else _).
    assert (Hdl : level_ok dl) by (subst dl; by destruct (d =? 255)).
    destruct (set_slc_entry_ok o d dl tw) as (tw1 & -> & Hok1 & Hv1 & Hl1 & Hp1 & Ht1); try done; [lia|].
    cbn [mbind outcome_bind]. eapply step_answer; try done; [lia|].
    split; [done|]. rewrite not_awked by done. done. }
  destruct (l <? Z.land rl SLC_LEVELBITS).
  { eapply step_answer; try done; [lia|]. split; [done|].
    rewrite not_awked; [done|]. by eapply (Forall_lookup_1 level_ok). }
  destruct (adopted_level rl (negb (Z.land rl SLC_FLUSHIN =? 0)) (negb (Z.land rl SLC_FLUSHOUT =? 0))) as [Hn1 Hn2].
  set (nl := if negb (Z.land rl SLC_FLUSHOUT =? 0) then _ else _) in *.
  destruct (set_slc_entry_ok o rv nl tw) as (tw1 & E & Hok1 & Hv1 & Hl1 & Hp1 & Ht1); try done; [lia|].
  rewrite E. cbn [mbind outcome_bind].
  destruct (Z.eqb_spec (Z.land rl SLC_AWK) 0) as [Ea|Ea]; cbn [negb]; [|by apply step_silent].
  eapply step_answer; try done; [lia|]. split; [done|]. intros _.
  rewrite awk_ack_bits by done. split_and!; auto.
Qed.

Lemma negotiate_loop_ok idx : forall flag tw,
  lm_ok tw ->
  (forall i, i ∈ idx -> 0 <= i /\ i + 2 < 450 /\ parsedat tw !!! Z.to_nat i < 31) ->
  exists flag' tw' rs, negotiate_loop idx flag tw = Done (flag', tw') /\ lm_ok tw'
  /\ flag' = flag || negb (bool_decide (rs = []))
  /\ sent tw' = sent tw ++ (if bool_decide (rs = []) then [] else header flag ++ stuff (rs ≫= flat))
  /\ bytes_ok (rs ≫= flat)
  /\ Forall (fun r => exists i, i ∈ idx /\ slc_legit (request_at (parsedat tw) i) r) rs.
Proof.
  induction idx as [|i idx IH]; intros flag tw Hok Hi; cbn [negotiate_loop].
  { exists flag, tw, []. rewrite orb_false_r, app_nil_r. split_and!; auto; constructor. }
  destruct (Hi i) as (? & ? & ?); [left|].
  destruct (request_at (parsedat tw) i) as [[o rl] rv] eqn:E.
  destruct (negotiate_one_ok i flag tw o rl rv) as (f1 & tw1 & rs1 & -> & Hok1 & Hp1 & -> & Hs1 & Hb1 & Hl1); try done.
  { by injection E as <- _ _. }
  cbn [mbind outcome_bind].
  destruct (IH (flag || negb (bool_decide (rs1 = []))) tw1 Hok1) as (f2 & tw2 & rs2 & -> & Hok2 & -> & Hs2 & Hb2 & Hl2).
  { intros j Hj. rewrite Hp1. apply Hi. by right. }
  eexists _, tw2, (rs1 ++ rs2). split; [done|]. rewrite bind_app. split_and!; auto.
  - destruct rs1, rs2, flag; done.
  - rewrite Hs2, Hs1, <- app_assoc, stuff_app. f_equal.
    destruct rs1 as [|r1 rs1]; [by destruct rs2, flag|].
    rewrite (bool_decide_eq_false_2 (r1 :: rs1 = [])) by done. cbn [app].
    rewrite (bool_decide_eq_false_2 (r1 :: rs1 ++ rs2 = [])) by done.
    cbn [negb]. rewrite orb_true_r. rewrite <- app_assoc. do 2 f_equal. by destruct rs2.
  - by apply Forall_app_2.
  - apply Forall_app_2.
    + eapply Forall_impl; [exact Hl1|]. intros r Hr. exists i. rewrite E. split; [left | done].
    + eapply Forall_impl; [exact Hl2|]. intros r (j & Hj & Hr). exists j. rewrite Hp1 in Hr. split; [by right | done].
Qed.

Lemma slc_indices_range n i : i ∈ slc_indices n -> 2 <= i /\ i + 2 < n.
Proof.
  unfold slc_indices. rewrite list_elem_of_fmap. intros (k & -> & Hk).
  apply elem_of_seq in Hk. split; [lia|]. assert (Z.of_nat k < (n - 2) / 3) by lia. div_lia.
Qed.

(** C37. The negotiation of the special characters is safe and its answer is
    well formed: when every requested character number is below 31, the
    tables stay well formed, nothing or one suboption is sent, the peer
    decodes from it exactly the answers, and every answer is legitimate: it
    is about a requested character, never acknowledges an acknowledgement
    (so two ends cannot acknowledge each other for ever), and acknowledges
    only what was asked. *)
Theorem negotiateSLC_legit tw :
  lm_ok tw -> parseIndex tw <= 450 ->
  (forall i, i ∈ slc_indices (parseIndex tw) -> parsedat tw !!! Z.to_nat i < 31) ->
  exists tw' rs, negotiateSLC tw = Done tw' /\ lm_ok tw'
  /\ sent tw' = sent tw ++ slc_frame rs
  /\ (rs = [] \/ decode_slc (slc_frame rs) = Some rs)
  /\ Forall (fun r => exists i, i ∈ slc_indices (parseIndex tw)
                        /\ slc_legit (request_at (parsedat tw) i) r) rs.
Proof.
  intros Hok Hn Ho. unfold negotiateSLC.
  destruct (negotiate_loop_ok (slc_indices (parseIndex tw)) false tw Hok)
    as (f & tw' & rs & -> & Hok' & -> & Hs & Hb & Hl).
  { intros i Hi. pose proof (slc_indices_range _ _ Hi). specialize (Ho i Hi). lia. }
  cbn [mbind outcome_bind orb]. destruct rs as [|r rs].
  - rewrite app_nil_r in Hs. exists tw', []. cbn [slc_frame]. rewrite app_nil_r. split_and!; auto; constructor.
  - rewrite bool_decide_eq_false_2 in * by done. cbn [negb] in *.
    exists (netwrite subEndSeq tw'), (r :: rs). rewrite sent_netwrite, Hs.
    split_and!; auto; [by rewrite <- !app_assoc | right].
    unfold slc_frame. cbn [subBeginSeq app decode_slc header].
    change (unstuff (stuff ((r :: rs) ≫= flat) ++ subEndSeq) ≫= triplets = Some (r :: rs)).
    rewrite unstuff_stuff by done. apply triplets_flat.
Qed.

Lemma negotiateSLC_legit_witness :
  let tw := (initLinemode sample_window)
              <| parsedat := [34; 3; 3; 66; 255; 10; 2; 8; 9; 130; 26; 0] ++ replicate 438 0 |>
              <| parseIndex := 11 |> in
  lm_ok tw /\ exists tw' rs, negotiateSLC tw = Done tw' /\ sent tw' = sent tw ++ slc_frame rs
  /\ rs = [(3, 194, 255); (10, 130, 8)] /\ sent tw' = [255; 250; 34; 3; 3; 194; 255; 255; 10; 130; 8; 255; 240].
Proof.
  intros tw. assert (H : lm_ok tw).
  { unfold lm_ok, level_ok. split_and!; try reflexivity;
      apply (bool_decide_unpack (Forall _ _)); vm_compute; exact I. }
  split; [exact H|].
  destruct (negotiateSLC_legit tw H ltac:(by vm_compute)) as (tw' & rs & E & _ & Es & Hd & _).
  { intros i Hi. change (slc_indices (parseIndex tw)) with [2; 5; 8] in Hi.
    set_unfold in Hi. destruct Hi as [->|[->|[->|[]]]]; by vm_compute. }
  assert (E' : sent tw' = [255; 250; 34; 3; 3; 194; 255; 255; 10; 130; 8; 255; 240]).
  { vm_compute in E. injection E as <-. by vm_compute. }
  exists tw', rs. split_and!; auto. rewrite Es in E'. change (sent tw) with (@nil Z) in E'. cbn [app] in E'.
  rewrite E' in Hd. destruct Hd as [->|Hd]; [discriminate|]. vm_compute in Hd. by injection Hd.
Defined.

(** ** Requests the code does not survive *)

Lemma arr_get_beyond l i : zlen l <= i -> arr_get l i = Crash OutOfBounds.
Proof.
  intros. unfold arr_get. destruct (0 <=? i); [|done].
  rewrite lookup_ge_None_2; [done|]. unfold zlen in *. lia.
Qed.

(** A forward mask of five bytes 14: seven bits are counted in each. *)
Lemma forward_mask_overrun tw rest :
  zlen (forwardKeys tw) = 32 ->
  parsedat tw = [N_LINEMODE; TEL_DOTEL; L_FORWARDMASK] ++ replicate 5 14 ++ rest ->
  linemode_suboption tw = Crash OutOfBounds.
Proof.
  destruct tw as [? ? ? ? ? ? ? ? ? ? ? ? ? ? ? ? ? ? ? ? pd ? ? ? ? ? ? ? ? ? ? ? ? ? ? ? ? ? ? ? ? ? ? ? ? ? ? ? ? ? fk].
  cbn [forwardKeys parsedat]. intros Hf ->.
  do 32 (destruct fk as [|? fk]; [by vm_compute in Hf|]).
  destruct fk; [|unfold zlen in Hf; cbn [length] in Hf; lia].
  vm_compute. reflexivity.
Qed.

(** C40. Two requests of a server that the code does not survive: a
    special-character triplet whose character number is above 30 makes
    [negotiateSLC] index its 31-entry tables out of bounds, and a forward
    mask of five bytes 14 makes [setForwardMask] write past the 32 entries of
    [forwardKeys]; the numbers are taken from the network unchecked. *)
Theorem linemode_suboption_overruns tw rest :
  lm_ok tw ->
  (forall o, parsedat tw !! 1%nat = Some L_SLC -> parsedat tw !! 2%nat = Some o -> 31 <= o ->
     5 <= parseIndex tw -> linemode_suboption tw = Crash OutOfBounds)
  /\ (parsedat tw = [N_LINEMODE; TEL_DOTEL; L_FORWARDMASK] ++ replicate 5 14 ++ rest ->
      linemode_suboption tw = Crash OutOfBounds).
Proof.
  intros Hok. pose proof Hok as (Hp & _ & Hs & _ & _ & _ & Hf). split.
  - intros o H1 H2 Ho Hn. unfold linemode_suboption.
    rewrite (arr_get_Done _ 1 L_SLC) by done. cbn.
    assert (exists r, slc_indices (parseIndex tw) = 2 :: r) as [r E].
    { unfold slc_indices. assert (1 <= (parseIndex tw - 2) / 3) by div_lia.
      destruct (Z.to_nat _) as [|n] eqn:E; [lia|]. cbn. by eexists. }
    unfold negotiateSLC. rewrite E. cbn [negotiate_loop]. unfold negotiate_one.
    rewrite (arr_get_Done _ 2 o) by done. cbn [mbind outcome_bind].
    destruct (arr_get_lookup (parsedat tw) 3) as (? & _ & G3); [lia|].
    destruct (arr_get_lookup (parsedat tw) 4) as (? & _ & G4); [lia|].
    change (2 + 1) with 3. change (2 + 2) with 4. rewrite G3, G4. cbn [mbind outcome_bind].
    by rewrite (arr_get_beyond (slc tw) o) by lia.
  - intros Hp'. by eapply forward_mask_overrun.
Qed.

Lemma linemode_suboption_overruns_witness :
  let tw := (initLinemode sample_window)
              <| parsedat := [34; 3; 31; 2; 8] ++ replicate 445 0 |> <| parseIndex := 5 |> in
  lm_ok tw /\ linemode_suboption tw = Crash OutOfBounds.
Proof.
  intros tw. assert (H : lm_ok tw).
  { unfold lm_ok, level_ok. split_and!; try reflexivity;
      apply (bool_decide_unpack (Forall _ _)); vm_compute; exact I. }
  split; [exact H|].
  exact (proj1 (linemode_suboption_overruns tw [] H) 31 eq_refl eq_refl ltac:(lia) ltac:(by vm_compute)).
Defined.

(** An acknowledgement, or the mode already in force, is ignored. *)
Lemma mode_ignored tw m :
  parsedat tw !! 1%nat = Some L_MODE -> parsedat tw !! 2%nat = Some m ->
  Z.land m L_MODE_ACK <> 0 \/ Z.land m L_MODE_MASK = lmodeBits tw ->
  linemode_suboption tw = Done tw.
Proof.
  intros E1 E2 Hm. unfold linemode_suboption.
  rewrite (arr_get_Done _ 1 _ ltac:(lia) E1), (arr_get_Done _ 2 _ ltac:(lia) E2).
  cbn [mbind outcome_bind]. rewrite (proj2 (Z.eqb_eq L_MODE L_MODE) eq_refl).
  destruct (negb (lineAllow tw =? 0)); [|done].
  destruct Hm as [Hm|Hm].
  - by rewrite (proj2 (Z.eqb_neq _ _) Hm).
  - by rewrite Hm, Z.eqb_refl, orb_true_r.
Qed.

(** The edit mode is agreed in one exchange: a new mode without the
    acknowledge bit is adopted and answered by exactly the same mode with the
    bit set, after which a repetition of it, or an acknowledgement of any
    mode, changes nothing and is not answered. *)
Theorem linemode_mode_handshake tw m :
  zlen (parsedat tw) = 450 ->
  lineAllow tw <> 0 ->
  parsedat tw !! 1%nat = Some L_MODE -> parsedat tw !! 2%nat = Some m ->
  0 <= m <= L_MODE_MASK -> Z.land m L_MODE_ACK = 0 -> m <> lmodeBits tw ->
  exists tw', linemode_suboption tw = Done tw'
  /\ lmodeBits tw' = m
  /\ sent tw' = sent tw ++ [IAC; TEL_SB; N_LINEMODE; L_MODE; m + L_MODE_ACK; IAC; TEL_SE]
  /\ (forall p, p !! 1%nat = Some L_MODE -> p !! 2%nat = Some m ->
        linemode_suboption (tw' <| parsedat := p |>) = Done (tw' <| parsedat := p |>))
  /\ (forall p a, p !! 1%nat = Some L_MODE -> p !! 2%nat = Some a -> Z.land a L_MODE_ACK <> 0 ->
        linemode_suboption (tw' <| parsedat := p |>) = Done (tw' <| parsedat := p |>)).
Proof.
  intros Hp Ha H1 H2 Hm Hack Hne.
  assert (Hmask : Z.land m L_MODE_MASK = m).
  { change L_MODE_MASK with (2 ^ 5 - 1). rewrite land_pow2 by lia. apply Z.mod_small. unfold L_MODE_MASK in Hm. lia. }
  assert (Hlor : Z.lor m L_MODE_ACK = m + L_MODE_ACK).
  { pose proof (Z.add_lor_land m L_MODE_ACK). lia. }
  unfold linemode_suboption at 1. rewrite (arr_get_Done (parsedat tw) 1 L_MODE) by done.
  cbn [mbind outcome_bind]. rewrite (proj2 (Z.eqb_eq L_MODE L_MODE) eq_refl).
  rewrite (proj2 (Z.eqb_neq _ _) Ha). cbn [negb].
  rewrite (arr_get_Done (parsedat tw) 2 m) by done. cbn [mbind outcome_bind].
  rewrite Hack, Hmask, (proj2 (Z.eqb_neq m (lmodeBits tw)) Hne). cbn [Z.eqb negb orb].
  rewrite arr_set_Done by lia. cbn [mbind outcome_bind].
  eexists. split; [reflexivity|]. split_and!.
  - reflexivity.
  - rewrite !sent_netwrite, Hlor, <- app_assoc. cbn [app]. f_equal.
  - intros p E1 E2. apply mode_ignored with m; [exact E1 | exact E2 | right; exact Hmask].
  - intros p a E1 E2 Hn. apply mode_ignored with a; [exact E1 | exact E2 | left; exact Hn].
Qed.

Lemma linemode_mode_handshake_witness :
  let tw := sample_window <| parsedat := [34; 1; 3] ++ replicate 447 0 |> in
  exists tw', linemode_suboption tw = Done tw' /\ lmodeBits tw' = 3
  /\ sent tw' = sent tw ++ [255; 250; 34; 1; 7; 255; 240].
Proof.
  intros tw. destruct (linemode_mode_handshake tw 3) as (tw' & E & Em & Es & _);
    [reflexivity | discriminate | reflexivity | reflexivity | by vm_compute | reflexivity | discriminate |].
  exists tw'. auto.
Defined.

End Linemode.
