(* ===== verification/Telnet.v ===== *)
(** The Telnet client of the terminal side (parse/parse.c): option
    negotiation, suboptions, the environment and window-size replies, the
    receiver [parse] that separates commands from text, the watch for
    one-time-password prompts and the string search of the [wait] command.

    Authentication and encryption modules are code resources loaded at run
    time; the model is the program with none installed ([authmodules == 0] in
    authencrypt.c). The Tektronix and raster back ends are the class
    [Graphics]. *)
From S2P Require Import Prelude Window Linemode.
Import Window TelnetConstants Linemode.

Module Telnet.

(** ** Replies *)

Definition send_option (command option : Z) (tw : WindRec) : WindRec :=
  netwrite [IAC; command; u8 option] tw.
Definition send_do (option : Z) (tw : WindRec) : WindRec := send_option TEL_DOTEL option tw.
Definition send_dont (option : Z) (tw : WindRec) : WindRec := send_option TEL_DONTTEL option tw.
Definition send_will (option : Z) (tw : WindRec) : WindRec := send_option TEL_WILLTEL option tw.
Definition send_wont (option : Z) (tw : WindRec) : WindRec := send_option TEL_WONTTEL option tw.

Definition SendNAWSinfo (horiz vert : Z) (tw : WindRec) : WindRec :=
  if negb (protocol tw =? 0) then tw
  else
    let height := Z.land vert 255 in
    let width := Z.land horiz 255 in
    let height := if height =? 255 then 254 else height in
    let width := if width =? 255 then 254 else width in
    let tw := netwrite [255; 250; 31; 0] tw in
    let tw := netwrite [width; 0] tw in
    netwrite [height; 255; 240] tw.

(** ** The environment *)

Definition OPT_REPLY_SIZE : Z := 256.
Definition TNQ_IS : Z := 0.
Definition TNQ_SEND : Z := 1.
Definition NEW_ENV_VAR : Z := 0.
Definition NEW_ENV_VALUE : Z := 1.
Definition ENV_ESC : Z := 2.
Definition ENV_USERVAR : Z := 3.

(** [*opt_replyp++ = c]: the part of [opt_reply] already filled. *)
Definition opt_put (c : Z) (reply : bytes) : outcome bytes :=
  if zlen reply <? OPT_REPLY_SIZE then Done (reply ++ [c]) else Crash OutOfBounds.

Definition env_opt_start : outcome bytes :=
  r ← opt_put IAC []; r ← opt_put TEL_SB r; r ← opt_put N_NEW_ENVIRON r; opt_put TNQ_IS r.

Definition opt_welldefined (ep : bytes) : bool :=
  bool_decide (ep ∈ bytes_of_string <$>
    ["USER"; "DISPLAY"; "PRINTER"; "SYSTEMTYPE"; "JOB"; "ACCT"]%string).

(** [while (c = *ep++)] over a C string. *)
Fixpoint env_chars (ep : bytes) (reply : bytes) : outcome bytes :=
  match ep with
  | [] => Done reply
  | c :: ep =>
    if c =? 0 then Done reply
    else
      reply ← (if c =? IAC then opt_put IAC reply
               else if (c =? NEW_ENV_VAR) || (c =? NEW_ENV_VALUE) || (c =? ENV_ESC) || (c =? ENV_USERVAR)
                    then opt_put ENV_ESC reply
                    else Done reply);
      reply ← opt_put c reply;
      env_chars ep reply
  end.

Definition env_opt_add (ep vp : bytes) (reply : bytes) : outcome bytes :=
  reply ← opt_put (if opt_welldefined ep then NEW_ENV_VAR else ENV_USERVAR) reply;
  reply ← env_chars ep reply;
  reply ← opt_put NEW_ENV_VALUE reply;
  env_chars vp reply.

Definition env_opt_end (reply : bytes) : outcome bytes :=
  r ← opt_put IAC reply; opt_put TEL_SE r.

(** A C string stops at its first NUL. *)
Fixpoint cstr (s : bytes) : bytes :=
  match s with [] => [] | c :: s => if c =? 0 then [] else c :: cstr s end.

(** ** Suboptions *)

Definition nullbuf : bytes := [IAC; TEL_SB; N_AUTHENTICATION; TNQ_IS; 0; 0; IAC; TEL_SE].

(** [auth_suboption] and [encrypt_suboption] without a module. *)
Definition auth_suboption (tw : WindRec) : outcome WindRec :=
  sub ← arr_get (parsedat tw) 1;
  Done (if sub =? TNQ_SEND then netwrite nullbuf tw else tw).

(** Only 32 of the 33 bytes of [answerback] are copied to [termtmp]. *)
Definition termtype_reply (tw : WindRec) : outcome bytes :=
  if zlen (answerback tw) <=? 31 then Done (cstr (answerback tw) ++ [TEL_IAC; TEL_SE])
  else Crash OutOfBounds.

Definition process_suboption (tw : WindRec) : outcome WindRec :=
  option ← arr_get (parsedat tw) 0;
  sub ← arr_get (parsedat tw) 1;
  if option =? N_TERMTYP then
    if sub =? 1 then
      s ← termtype_reply tw;
      Done (netwrite s (netwrite [TEL_IAC; TEL_SB; N_TERMTYP; 0] tw))
    else Done tw
  else if option =? N_ENCRYPT then Done tw
  else if option =? N_AUTHENTICATION then auth_suboption tw
  else if option =? N_LINEMODE then linemode_suboption tw
  else if option =? N_REMOTEFLOW then
    if sub =? FLOW_OFF then Done (tw <| allow_flow := 0 |>)
    else if sub =? FLOW_ON then Done (tw <| allow_flow := 1 |>)
    else if sub =? FLOW_RESTART_ANY then Done (tw <| restart_any_flow := 1 |>)
    else if sub =? FLOW_RESTART_XON then Done (tw <| restart_any_flow := 0 |>)
    else Done tw
  else if option =? N_NEW_ENVIRON then
    if sub =? TNQ_SEND then
      reply ← env_opt_start;
      reply ← env_opt_add (bytes_of_string "USER") (username tw) reply;
      reply ← env_opt_end reply;
      Done (netwrite reply (tw <| username := cstr (username tw) |>))
    else Done tw
  else Done tw.

(** ** Option negotiation *)

Definition telnet_do (option : Z) (tw : WindRec) : outcome WindRec :=
  if option =? N_SGA then
    Done (if Isga tw =? 0 then send_will N_SGA (tw <| Isga := 1 |>) else tw)
  else if option =? N_TERMTYP then
    Done (if Ittype tw =? 0 then send_will N_TERMTYP (tw <| Ittype := 1 |>) else tw)
  else if option =? N_NAWS then
    let tw := send_will N_NAWS (tw <| naws := 1 |>) in
    Done (SendNAWSinfo (maxwidth tw + 1) (lines tw) tw)
  else if option =? N_LINEMODE then
    if negb (lineAllow tw =? 0) then doLinemode (send_will N_LINEMODE tw)
    else Done (send_wont N_LINEMODE tw)
  else if option =? N_AUTHENTICATION then
    mine ← arr_get (myopts tw) (N_AUTHENTICATION - MHOPTS_BASE);
    if mine =? 0 then
      if authenticate tw && authOK tw then
        o ← arr_set (N_AUTHENTICATION - MHOPTS_BASE) 1 (myopts tw);
        Done (send_will N_AUTHENTICATION (tw <| myopts := o |>))
      else Done (send_wont N_AUTHENTICATION tw)
    else Done tw
  else if option =? N_ENCRYPT then
    mine ← arr_get (myopts tw) (N_ENCRYPT - MHOPTS_BASE);
    if mine =? 0 then
      if encrypt tw && encryptOK tw && authenticate tw && authOK tw then
        o ← arr_set (N_ENCRYPT - MHOPTS_BASE) 1 (myopts tw);
        Done (send_will N_ENCRYPT (tw <| myopts := o |>))
      else Done (send_wont N_ENCRYPT tw)
    else Done tw
  else if option =? N_NEW_ENVIRON then
    Done (if negb (zlen (username tw) =? 0) then send_will N_NEW_ENVIRON tw else send_wont option tw)
  else if option =? N_REMOTEFLOW then
    Done (if remote_flow tw =? 0 then send_will option (tw <| remote_flow := 1 |>) else tw)
  else Done (send_wont option tw).

Definition telnet_dont (option : Z) (tw : WindRec) : outcome WindRec :=
  if (option =? N_ENCRYPT) || (option =? N_AUTHENTICATION) then
    o ← arr_set (option - MHOPTS_BASE) 0 (myopts tw);
    Done (send_wont option (tw <| myopts := o |>))
  else if option =? N_LINEMODE then
    if negb (lmode tw =? 0) then
      tw ← kbflush (send_wont N_LINEMODE tw);
      Done (tw <| lmode := 0 |> <| lmodeBits := 0 |> <| litNext := 0 |>)
    else Done tw
  else Done tw.

Definition telnet_will (option : Z) (tw : WindRec) : outcome WindRec :=
  if option =? N_ECHO then
    Done (if echo tw =? 0 then tw else send_do N_ECHO (tw <| echo := 0 |>))
  else if option =? N_SGA then
    Done (if negb (Usga tw =? 0) then tw else send_do N_SGA (tw <| Usga := 1 |>))
  else if option =? N_TIMING then Done (tw <| timing := 0 |>)
  else if option =? N_AUTHENTICATION then
    his ← arr_get (hisopts tw) (N_AUTHENTICATION - MHOPTS_BASE);
    if his =? 0 then
      if authenticate tw && authOK tw then
        o ← arr_set (N_AUTHENTICATION - MHOPTS_BASE) 1 (hisopts tw);
        Done (send_do N_AUTHENTICATION (tw <| hisopts := o |>))
      else Done (send_dont N_AUTHENTICATION tw)
    else Done tw
  else if option =? N_ENCRYPT then
    his ← arr_get (hisopts tw) (N_ENCRYPT - MHOPTS_BASE);
    if his =? 0 then
      if encrypt tw && encryptOK tw && authenticate tw && authOK tw then
        o ← arr_set (N_ENCRYPT - MHOPTS_BASE) 1 (hisopts tw);
        Done (send_do N_ENCRYPT (tw <| hisopts := o |>))
      else Done (send_dont N_ENCRYPT tw)
    else Done tw
  else
    (* [case N_REMOTEFLOW] has no [break] *)
    let tw := if option =? N_REMOTEFLOW then
                if remote_flow tw =? 0 then send_do N_REMOTEFLOW (tw <| remote_flow := 1 |>) else tw
              else tw in
    Done (send_dont option tw).

Definition telnet_wont (option : Z) (tw : WindRec) : outcome WindRec :=
  if option =? N_ECHO then
    Done (if negb (echo tw =? 0) then tw else send_dont N_ECHO (tw <| echo := 1 |>))
  else if option =? N_SGA then
    Done (if Usga tw =? 0 then tw else send_dont N_SGA (tw <| Usga := 0 |>))
  else if option =? N_TIMING then Done (tw <| timing := 0 |>)
  else if (option =? N_ENCRYPT) || (option =? N_AUTHENTICATION) then
    o ← arr_set (option - MHOPTS_BASE) 0 (hisopts tw);
    Done (send_dont option (tw <| hisopts := o |>))
  else Done tw.

(** What is sent when the connection opens. *)
Definition telnet_send_initial_options (tw : WindRec) : outcome WindRec :=
  if (1 <=? protocol tw) && (protocol tw <=? 3) then
    let tw := netwrite [0] tw in
    let tw := if (protocol tw =? 3) || (zlen (clientuser tw) =? 0)
              then netwrite (username tw) tw else netwrite (clientuser tw) tw in
    let tw := netwrite [0] tw in
    let tw := if protocol tw =? 3 then netwrite (password tw) tw else netwrite (username tw) tw in
    let tw := netwrite [0] tw in
    let tw := if protocol tw =? 1
              then netwrite (bytes_of_string "/9600" ++ [0]) (netwrite (answerback tw) tw)
              else netwrite [0] (netwrite (command tw) tw) in
    Done (tw <| echo := 0 |> <| Usga := 1 |>)
  else if negb (protocol tw =? 4) && negb (protocol tw =? 0) then
    Done (tw <| echo := 1 |> <| Usga := 1 |>)
  else
    let tw := if protocol tw =? 4
              then (emit [SshStart] tw) <| echo := 0 |> <| Usga := 1 |> else tw in
    tw ←
      (if authenticate tw && authOK tw then
        let tw := send_will N_AUTHENTICATION tw in
        o ← arr_set (N_AUTHENTICATION - MHOPTS_BASE) 1 (myopts tw);
        let tw := tw <| myopts := o |> in
        if encrypt tw && encryptOK tw then
          let tw := send_will N_ENCRYPT tw in
          o ← arr_set (N_ENCRYPT - MHOPTS_BASE) 1 (myopts tw);
          Done (tw <| myopts := o |>)
        else Done tw
      else Done tw);
    if protocol tw =? 4 then Done tw
    else if (portNum tw =? 23) || negb (portNegative tw =? 0) then
      let tw := (send_do N_ECHO tw) <| echo := 1 |> in
      let tw := (send_do N_SGA tw) <| Usga := 1 |> in
      let tw := send_wont N_XDISPLOC tw in
      Done (send_will N_NAWS tw)
    else Done (tw <| echo := 1 |> <| Usga := 1 |>).

(** ** One-time passwords *)

(** [char] is signed. *)
Definition schar (b : Z) : Z := if b <? 128 then b else b - 256.

Definition is_digit (b : Z) : bool := (48 <=? b) && (b <=? 57).

(** A prompt has been seen: [strncpy] to [otpautostring]. *)
Definition otp_prompt (prompt : bytes) (tw : WindRec) : outcome WindRec :=
  s ← memcpy_to 0 prompt (otpautostring tw);
  Done (tw <| otpautostate := 1 |> <| otpautostring := s |> <| otpautolength := zlen prompt |>).

(** [otpautostring[otpautolength++] = c] *)
Definition otp_append (c : Z) (tw : WindRec) : outcome WindRec :=
  s ← arr_set (otpautolength tw) c (otpautostring tw);
  Done (tw <| otpautostring := s |> <| otpautolength := s16 (otpautolength tw + 1) |>).

(** The tail of the nine-byte window, [strncmp (otpautobuffer + i, s, length s)]. *)
Definition buffer_ends (tw : WindRec) (s : bytes) : bool :=
  bool_decide (slice (9 - zlen s) (zlen s) (otpautobuffer tw) = s).

Definition otp_sha1 : bytes := bytes_of_string "otp-sha1 ".
Definition otp_md5 : bytes := bytes_of_string "otp-md5 ".
Definition otp_md4 : bytes := bytes_of_string "otp-md4 ".
Definition otp_skey : bytes := bytes_of_string "s/key ".

Definition otpauto_char (c : Z) (tw : WindRec) : outcome WindRec :=
  if otpautostate tw =? 0 then
    let tw := tw <| otpautobuffer := slice 1 8 (otpautobuffer tw) ++ [c] ++ drop 9 (otpautobuffer tw) |> in
    if buffer_ends tw otp_sha1 then otp_prompt otp_sha1 tw
    else if buffer_ends tw otp_md5 then otp_prompt otp_md5 tw
    else if buffer_ends tw otp_md4 then otp_prompt otp_md4 tw
    else if buffer_ends tw otp_skey then otp_prompt otp_skey tw
    else Done tw
  else if otpautostate tw =? 1 then
    if is_digit c then otp_append c (tw <| otpautostate := 2 |>)
    else Done (tw <| otpautostate := 0 |>)
  else if otpautostate tw =? 2 then
    if 250 <? otpautolength tw then Done (tw <| otpautostate := 0 |>)
    else if is_digit c then otp_append c tw
    else if c =? 32 then otp_append c (tw <| otpautostate := 3 |>)
    else Done (tw <| otpautostate := 0 |>)
  else if otpautostate tw =? 3 then
    if 250 <? otpautolength tw then Done (tw <| otpautostate := 0 |>)
    else if (schar c <=? 32) || (c =? 93) then
      s ← arr_set (otpautolength tw) 0 (otpautostring tw);
      Done (emit [OtpChallenge (cstr s)]
        (tw <| otpautostring := s |> <| otpautostate := 0 |> <| otpauto := otpmulti tw |>))
    else otp_append c tw
  else Done tw.

Fixpoint otpauto_watch (string : bytes) (tw : WindRec) : outcome WindRec :=
  match string with
  | [] => Done tw
  | c :: string => tw ← otpauto_char c tw; otpauto_watch string tw
  end.

(** ** Waiting for a string *)

(** [while (waWaitPos > 0 && waWaitString[waWaitPos] != *tempstring)]: the
    position falls strictly, so [waWaitPos] iterations are enough. *)
Fixpoint wait_fallback (fuel : nat) (pos c : Z) (tw : WindRec) : outcome Z :=
  match fuel with
  | O => Crash BadArgument
  | S fuel =>
    if 0 <? pos then
      w ← arr_get (waWaitString tw) pos;
      if negb (w =? c) then
        p ← arr_get (waPrefixFunction tw) (pos - 1);
        wait_fallback fuel (schar p) c tw
      else Done pos
    else Done pos
  end.

Definition handlewait_char (c : Z) (tw : WindRec) : outcome WindRec :=
  pos ← wait_fallback (S (Z.to_nat (waWaitPos tw))) (waWaitPos tw) c tw;
  w ← arr_get (waWaitString tw) pos;
  if c =? w then
    let tw := tw <| waWaitPos := s16 (pos + 1) |> in
    if waWaitLength tw <=? waWaitPos tw then
      let tw := tw <| waWaiting := 0 |> <| enabled := waWasEnabled tw |> in
      if negb (waWeHaveAppleEvent tw =? 0) then
        Done (emit [AEResume] (tw <| waWeHaveAppleEvent := 0 |>))
      else Done tw
    else Done tw
  else Done (tw <| waWaitPos := 0 |>).

Fixpoint handlewait (string : bytes) (tw : WindRec) : outcome WindRec :=
  match string with
  | [] => Done tw
  | c :: string => tw ← handlewait_char c tw; handlewait string tw
  end.

(** The prefix function as [MyHandleWait] (ae/ae.c) computes it. *)
Fixpoint prefix_fallback (fuel : nat) (k c : Z) (w pf : bytes) : outcome Z :=
  match fuel with
  | O => Crash BadArgument
  | S fuel =>
    if 0 <? k then
      wk ← arr_get w k;
      if negb (wk =? c) then
        p ← arr_get pf (k - 1);
        prefix_fallback fuel (schar p) c w pf
      else Done k
    else Done k
  end.

Fixpoint prefix_loop (idx : list Z) (k : Z) (w pf : bytes) : outcome bytes :=
  match idx with
  | [] => Done pf
  | i :: idx =>
    c ← arr_get w i;
    k ← prefix_fallback (S (Z.to_nat k)) k c w pf;
    wk ← arr_get w k;
    let k := if wk =? c then s16 (k + 1) else k in
    pf ← arr_set i (u8 k) pf;
    prefix_loop idx k w pf
  end.

(** The event handler from the point where its parameters are known. *)
Definition MyHandleWait (dataString : bytes) (isSuspended : Z) (tw : WindRec) : outcome WindRec :=
  if zlen dataString =? 0 then Reject
  else
    w ← memcpy_to 0 dataString (waWaitString tw);
    pf ← arr_set 0 0 (waPrefixFunction tw);
    pf ← (if 2 <=? zlen dataString
          then prefix_loop (Z.of_nat <$> seq 1 (length dataString - 1)) 0 w pf else Done pf);
    Done (tw <| waWeHaveAppleEvent := 1 |> <| waWasEnabled := isSuspended |> <| enabled := 1 |>
             <| waWaitPos := 0 |> <| waWaiting := 1 |> <| waWaitLength := zlen dataString |>
             <| waWaitString := w |> <| waPrefixFunction := pf |>).

Definition MyHandleRead (tw : WindRec) : WindRec :=
  tw <| waWeHaveAppleEvent := 1 |> <| waWasEnabled := enabled tw |> <| enabled := 0 |>
     <| waWaitPos := 0 |> <| waWaiting := 0 |> <| waWaitLength := 0 |>.

Definition handleread (string : bytes) (tw : WindRec) : WindRec :=
  emit [AERead string; AEResume]
    (tw <| waWeHaveAppleEvent := 0 |> <| enabled := waWasEnabled tw |>).

(** ** The receiver *)

(** The emulation types (Headers/globaldefs.h). *)
Definition VTEKTYPE : Z := 1.
Definition TEKTYPE : Z := 2.
Definition DUMBTYPE : Z := 3.
Definition RASTYPE : Z := 4.

(** The Tektronix and raster back ends: a write reports how many bytes it
    took; [VGenter] is the opening of a graphics window on ESC FF (parse.c,
    lines 267 to 287) and tells whether there is one. *)
Class Graphics := {
  VGwrite : bytes -> WindRec -> WindRec * Z;
  VRwrite : bytes -> WindRec -> WindRec * Z;
  VGenter : WindRec -> WindRec * bool;
  detachGraphics : WindRec -> WindRec
}.

(** [sprintf (parsedat, "<%d>", c)] for a byte. *)
Definition raw_symbol (c : Z) : bytes :=
  let digits := if c <? 10 then [48 + c]
                else if c <? 100 then [48 + c / 10; 48 + c mod 10]
                else [48 + c / 100; 48 + (c / 10) mod 10; 48 + c mod 10] in
  [60] ++ digits ++ [62].

Fixpoint parse_raw (st : bytes) (tw : WindRec) : outcome WindRec :=
  match st with
  | [] => Done tw
  | c :: st =>
    if (c =? 27) || (126 <? c) then
      d ← memcpy_to 0 (raw_symbol c ++ [0]) (parsedat tw);
      parse_raw st (VSwrite (raw_symbol c) (tw <| parsedat := d |>))
    else parse_raw st (VSwrite [c] tw)
  end.

(** [parsedat[parseIndex++] = c] *)
Definition collect (c : Z) (tw : WindRec) : outcome WindRec :=
  d ← arr_set (parseIndex tw) c (parsedat tw);
  Done (tw <| parsedat := d |> <| parseIndex := s16 (parseIndex tw + 1) |>).

(** A chunk under inspection: the bytes from [orig] up to [st], still to be
    sent to the screen, and the bytes from [st] to [mark]. *)
Definition cursor := (bytes * bytes)%type.

Definition is_command (b : Z) : bool :=
  bool_decide (b ∈ [TEL_EOF; TEL_EL; TEL_EC; TEL_AYT; TEL_AO; TEL_IP; TEL_BREAK;
                    TEL_DM; TEL_NOP; TEL_SE; TEL_GA]).

(** [case IACFOUND], [*st] being [b]. *)
Definition iac_found (b : Z) (st : bytes) (tw : WindRec) : WindRec * cursor :=
  if b =? TEL_IAC then (tw <| telstate := TS_NORM |>, ([b], st))
  else if is_command b then (tw <| telstate := TS_NORM |>, ([], st))
  else if b =? TEL_DOTEL then (tw <| telstate := TS_DO |>, ([], st))
  else if b =? TEL_WILLTEL then (tw <| telstate := TS_WILL |>, ([], st))
  else if b =? TEL_DONTTEL then (tw <| telstate := TS_DONT |>, ([], st))
  else if b =? TEL_WONTTEL then (tw <| telstate := TS_WONT |>, ([], st))
  else if b =? TEL_SB then (tw <| telstate := TS_SB |> <| parseIndex := 0 |>, ([], st))
  else (tw <| telstate := TS_NORM |>, ([], st)).

(** [case TS_SB]. The byte after IAC is read without a look at [mark]. *)
Definition in_suboption (held : bytes) (b : Z) (st : bytes) (tw : WindRec) : outcome (WindRec * cursor) :=
  if b =? TEL_IAC then
    match st with
    | [] => Crash OutOfBounds
    | c :: st' =>
      if c =? TEL_SE then
        tw ← process_suboption tw;
        Done (tw <| telstate := TS_NORM |>, ([], st'))
      else if c =? TEL_IAC then
        tw ← collect c tw;
        Done (tw, (held ++ [b; c], st'))
      else
        tw ← collect TEL_IAC tw;
        tw ← collect c tw;
        tw ← process_suboption tw;
        Done (tw <| substat := IACFOUND |>, (held ++ [b], st))
    end
  else
    tw ← collect b tw;
    Done (tw, (held ++ [b], st)).

(** The scan over uninteresting bytes; in seven-bit mode it clears their top
    bit in the buffer. *)
Fixpoint scan (eight : bool) (telnet : bool) (held st : bytes) : cursor :=
  match st with
  | [] => (held, [])
  | b :: r =>
    if eight then
      if negb (b =? ESC) && ((b <? 255) || negb telnet) && negb (b =? GS)
      then scan eight telnet (held ++ [b]) r else (held, st)
    else if (b =? IAC) && telnet then (held, st)
    else
      let b := Z.land b 127 in
      if (b =? ESC) || (b =? GS) then (held, b :: r) else scan eight telnet (held ++ [b]) r
  end.

(** Text for the VT screen, past the two watchers. *)
Definition deliver (held : bytes) (tw : WindRec) : outcome WindRec :=
  tw ← (if negb (otpauto tw =? 0) then otpauto_watch held tw else Done tw);
  tw ← (if negb (waWaiting tw =? 0) then handlewait held tw
        else if negb (waWeHaveAppleEvent tw =? 0) then Done (handleread held tw)
        else Done tw);
  Done (VSwrite held tw).

Section Parse.
Context {G : Graphics}.

(** [case GS], [case ESCFOUND]. *)
Definition esc_found (held : bytes) (b : Z) (st : bytes) (tw : WindRec) : WindRec * cursor :=
  if (0 <=? tektype tw) && ((b =? 12) || (telstate tw =? GS)) then
    let tw :=
      if (b =? 12) && ((termstate tw =? VTEKTYPE) || (tekclear tw =? 0)) then
        let '(tw, window) := VGenter tw in
        if window : bool then tw <| termstate := TEKTYPE |> else tw <| telstate := TS_NORM |>
      else tw in
    if telstate tw =? GS then
      (((VGwrite [29] tw).1) <| telstate := TS_NORM |>, (held ++ [b], st))
    else if negb (telstate tw =? TS_NORM) then
      (((VGwrite [31; 27; 12] tw).1) <| telstate := TS_NORM |>, (held, b :: st))
    else (tw <| telstate := TS_NORM |>, (held, b :: st))
  else if b =? 94 then
    ((VRwrite [27; 94] (tw <| termstate := RASTYPE |> <| telstate := TS_NORM |>)).1, ([], st))
  else
    let tw := if termstate tw =? TEKTYPE then (VGwrite [27] tw).1
              else if termstate tw =? RASTYPE then (VRwrite [27] tw).1
              else VSwrite [27] tw in
    (tw <| telstate := TS_NORM |>, (held, b :: st)).

(** [switch (tw->telstate)] *)
Definition parse_switch (held : bytes) (b : Z) (st : bytes) (tw : WindRec) : outcome (WindRec * cursor) :=
  let s := telstate tw in
  if (s =? GS) || (s =? ESCFOUND) then Done (esc_found held b st tw)
  else if s =? IACFOUND then Done (iac_found b st tw)
  else if s =? TS_DO then tw ← telnet_do b tw; Done (tw <| telstate := TS_NORM |>, ([], st))
  else if s =? TS_DONT then tw ← telnet_dont b tw; Done (tw <| telstate := TS_NORM |>, ([], st))
  else if s =? TS_WILL then tw ← telnet_will b tw; Done (tw <| telstate := TS_NORM |>, ([], st))
  else if s =? TS_WONT then tw ← telnet_wont b tw; Done (tw <| telstate := TS_NORM |>, ([], st))
  else if s =? TS_SB then in_suboption held b st tw
  else Done (tw <| telstate := TS_NORM |>, (held, b :: st)).

(** Where the text goes; the bytes a graphics back end refuses are parsed
    again. *)
Definition send_text (held st : bytes) (tw : WindRec) : outcome (WindRec * bytes) :=
  if timing tw =? 0 then
    if termstate tw =? TEKTYPE then
      let '(tw, i) := VGwrite held tw in
      if i <? zlen held then
        Done (detachGraphics tw, drop (Z.to_nat i) held ++ st)
      else Done (tw, st)
    else if termstate tw =? RASTYPE then
      let '(tw, i) := VRwrite held tw in
      if i <? zlen held then
        Done (tw <| termstate := VTEKTYPE |>, drop (Z.to_nat i) held ++ st)
      else Done (tw, st)
    else
      tw ← deliver held tw;
      Done (tw, st)
  else Done (tw, st).

(** The second [switch], on the byte at [st], which ends an iteration in
    [TS_NORM]; [orig] is [st]. *)
Definition interesting (st : bytes) (tw : WindRec) : WindRec * cursor :=
  match st with
  | [] => (tw, ([], []))
  | b :: r =>
    if b =? TEL_IAC then
      (if protocol tw =? 0 then tw <| telstate := IACFOUND |> else tw, ([b], r))
    else if b =? GS then
      (if negb (telstate tw =? GS) then tw <| telstate := GS |> else tw <| telstate := TS_NORM |>, ([b], r))
    else if b =? ESC then
      (match r with
       | [] => tw <| telstate := ESCFOUND |>
       | c :: _ => if (c =? 12) || (c =? 94) then tw <| telstate := ESCFOUND |> else tw
       end, ([b], r))
    else
      (if 127 <? b then match r with [] => VSwrite [b] tw | _ => tw end else tw, ([b], r))
  end.

(** One turn of [while (st < mark)]. *)
Definition parse_turn (held : bytes) (b : Z) (st : bytes) (tw : WindRec) : outcome (WindRec * cursor) :=
  '(tw, (held, st)) ← parse_switch held b st tw;
  if telstate tw =? TS_NORM then
    let '(held, st) := scan (negb (eightbit tw =? 0)) (protocol tw =? 0) held st in
    '(tw, st) ← send_text held st tw;
    Done (interesting st tw)
  else Done (tw, (held, st)).

Fixpoint parse_loop (fuel : nat) (held st : bytes) (tw : WindRec) : outcome WindRec :=
  match st with
  | [] => Done tw
  | b :: st =>
    match fuel with
    | O => Crash BadArgument
    | S fuel =>
      '(tw, (held, st)) ← parse_turn held b st tw;
      parse_loop fuel held st tw
    end
  end.

(** Every turn consumes a byte unless a graphics back end hands some back. *)
Definition parse (st : bytes) (tw : WindRec) : outcome WindRec :=
  if termstate tw =? DUMBTYPE then parse_raw st tw
  else parse_loop (length st) [] st tw.

(** The chunks of a stream, one call of [parse] each. *)
Fixpoint parse_all (chunks : list bytes) (tw : WindRec) : outcome WindRec :=
  match chunks with
  | [] => Done tw
  | c :: chunks => tw ← parse c tw; parse_all chunks tw
  end.

(** ** The carriage return key *)

Definition SendCRAsIfTyped (tw : WindRec) : outcome WindRec :=
  tw ← kbflush tw;
  tw ← (if negb (echo tw =? 0) then parse [10; 13] tw else Done tw);
  if (1 <=? protocol tw) && (protocol tw <=? 4) then Done (netwrite [13] tw)
  else if negb (crmap tw =? 0) then Done (netwrite [13; 0] tw)
  else Done (netwrite [13; 10] tw).

End Parse.

End Telnet.
