(* ===== verification/Receiver.v ===== *)
(** The Telnet receiver against a reference that looks at one byte at a time:
    [parse] (parse/parse.c), which scans whole chunks, is shown to do what the
    reference does whatever the chunks, unless one ends behind an IAC inside a
    suboption, where [parse] reads past it; and text with its IACs doubled is
    shown to reach the screen unchanged. *)
From S2P Require Import Prelude Window Linemode Telnet.
Import Window TelnetConstants Linemode Telnet.

Module Receiver.

(** ** The receiver against a reference *)

(** One byte of text for a receiver that looks at one byte at a time: IAC and
    ESC are remembered, anything else is shown. *)
Definition rx_text (b : Z) (tw : WindRec) : WindRec :=
  if (b =? IAC) && (protocol tw =? 0) then tw <| telstate := IACFOUND |>
  else
    let b := if eightbit tw =? 0 then Z.land b 127 else b in
    if b =? ESC then tw <| telstate := ESCFOUND |> else VSwrite [b] tw.

Definition rx_byte (b : Z) (tw : WindRec) : outcome WindRec :=
  let s := telstate tw in
  if s =? ESCFOUND then Done (rx_text b ((VSwrite [ESC] tw) <| telstate := TS_NORM |>))
  else if s =? IACFOUND then
    Done (if b =? TEL_IAC then VSwrite [b] (tw <| telstate := TS_NORM |>) else (iac_found b [] tw).1)
  else if s =? TS_DO then tw ← telnet_do b tw; Done (tw <| telstate := TS_NORM |>)
  else if s =? TS_DONT then tw ← telnet_dont b tw; Done (tw <| telstate := TS_NORM |>)
  else if s =? TS_WILL then tw ← telnet_will b tw; Done (tw <| telstate := TS_NORM |>)
  else if s =? TS_WONT then tw ← telnet_wont b tw; Done (tw <| telstate := TS_NORM |>)
  else if s =? TS_SB then collect b tw
  else Done (rx_text b (tw <| telstate := TS_NORM |>)).

(** The same over a stream, with the byte after an IAC inside a suboption taken
    from the rest of the stream, where it has to be; [bytewise] below is the
    reference without that look ahead. *)
Fixpoint rx (st : bytes) (tw : WindRec) : outcome WindRec :=
  match st with
  | [] => Done tw
  | b :: r =>
    if (telstate tw =? TS_SB) && (b =? IAC) then
      match r with
      | [] => Crash OutOfBounds
      | c :: r' =>
        if c =? TEL_SE then
          tw ← process_suboption tw; rx r' (tw <| telstate := TS_NORM |>)
        else if c =? TEL_IAC then tw ← collect c tw; rx r' tw
        else
          tw ← collect TEL_IAC tw; tw ← collect c tw; tw ← process_suboption tw;
          rx r (tw <| substat := IACFOUND |>)
      end
    else tw ← rx_byte b tw; rx r tw
  end.

(** A VT session in state [s] without watchers: no graphics window, no timing
    mark awaited, no one-time-password or string watch. *)
Definition quiet_at (s : Z) (tw : WindRec) : Prop :=
  (termstate tw <> TEKTYPE /\ termstate tw <> RASTYPE /\ termstate tw <> DUMBTYPE)
  /\ tektype tw < 0 /\ timing tw = 0
  /\ otpauto tw = 0 /\ waWaiting tw = 0 /\ waWeHaveAppleEvent tw = 0 /\ telstate tw = s.
Definition quiet (tw : WindRec) : Prop := quiet_at (telstate tw) tw /\ telstate tw <> GS.

#[export] Instance quiet_dec tw : Decision (quiet tw).
Proof. unfold quiet, quiet_at. apply _. Defined.

(** A stream without Tektronix or raster introducers: no GS, no ESC FF, no
    ESC ^ (the top bit not counting for GS and ESC). *)
Definition no_introducer (st : bytes) : Prop := head st <> Some 12 /\ head st <> Some 94.
Fixpoint plain (st : bytes) : Prop :=
  match st with
  | [] => True
  | b :: r => is_byte b /\ Z.land b 127 <> GS /\ (Z.land b 127 = ESC -> no_introducer r) /\ plain r
  end.

(** *** The handlers keep a session quiet *)

Section Keeps.
Variable s : Z.

Definition keeps (m : outcome WindRec) : Prop := forall tw, m = Done tw -> quiet_at s tw.

Lemma keeps_Done tw : quiet_at s tw -> keeps (Done tw).
Proof. by intros H ? [= <-]. Qed.
Lemma keeps_Crash c : keeps (Crash c).
Proof. done. Qed.
Lemma keeps_bind {A} (m : outcome A) f : (forall a, m = Done a -> keeps (f a)) -> keeps (m ≫= f).
Proof. intros H. destruct m; try done. by apply H. Qed.
Lemma keeps_bind_keeps m f : keeps m -> (forall tw, quiet_at s tw -> keeps (f tw)) -> keeps (m ≫= f).
Proof. intros Hm H. apply keeps_bind. intros tw E. apply H, Hm, E. Qed.
Lemma quiet_emit l tw : quiet_at s tw -> quiet_at s (emit l tw).
Proof. done. Qed.

Ltac keeps_step :=
  first
    [ assumption
    | match goal with |- keeps (if ?b then _ else _) => destruct b end
    | match goal with |- keeps (Done (if ?b then _ else _)) => destruct b end
    | match goal with |- keeps (Done _) => apply keeps_Done end
    | match goal with |- keeps (Crash _) => apply keeps_Crash end
    | match goal with |- quiet_at _ (if ?b then _ else _) => destruct b end
    | match goal with |- quiet_at _ (netwrite _ _) => apply quiet_emit end
    | match goal with |- quiet_at _ (VSwrite _ _) => apply quiet_emit end
    | match goal with |- quiet_at _ (emit _ _) => apply quiet_emit end
    | match goal with H : quiet_at _ ?tw |- quiet_at _ (update _ ?tw) => exact H end
    | match goal with |- keeps (_ ≫= _) => apply keeps_bind; intros ? _ end ].
Ltac keeps_tac := repeat keeps_step.

Lemma keeps_forward_bits js : forall byte i tw, quiet_at s tw -> keeps (forward_bits js byte i tw).
Proof.
  induction js as [|j js IH]; intros byte i tw H; cbn [forward_bits]; keeps_tac; by apply IH.
Qed.

Lemma keeps_forward_loop fuel : forall i tw, quiet_at s tw -> keeps (forward_loop fuel i tw).
Proof.
  induction fuel as [|fuel IH]; intros i tw H; cbn [forward_loop]; [done|].
  apply keeps_bind; intros b _. destruct (_ && _); [|keeps_tac]. destruct (b =? 255).
  - apply keeps_bind; intros n _. destruct (n =? _); [keeps_tac|]. apply keeps_bind; intros b' _.
    apply keeps_bind_keeps; [by apply keeps_forward_bits | intros; by apply IH].
  - apply keeps_bind_keeps; [by apply keeps_forward_bits | intros; by apply IH].
Qed.

Lemma quiet_respondSLC o f tw awk f' tw' :
  quiet_at s tw -> respondSLC o f tw awk = Done (f', tw') -> quiet_at s tw'.
Proof.
  intros H E. unfold respondSLC in E. apply outcome_bind_Done in E as (l & _ & E).
  apply outcome_bind_Done in E as (v & _ & E). injection E as _ <-.
  destruct (v =? IAC), f; keeps_tac.
Qed.

Lemma quiet_set_slc_entry o v l tw tw' :
  quiet_at s tw -> set_slc_entry o v l tw = Done tw' -> quiet_at s tw'.
Proof.
  intros H E. unfold set_slc_entry in E. apply outcome_bind_Done in E as (? & _ & E).
  apply outcome_bind_Done in E as (? & _ & E). injection E as <-. exact H.
Qed.

Lemma quiet_negotiate_one i f tw f' tw' :
  quiet_at s tw -> negotiate_one i f tw = Done (f', tw') -> quiet_at s tw'.
Proof.
  intros H E. unfold negotiate_one in E.
  do 5 (apply outcome_bind_Done in E as (? & _ & E)).
  repeat match type of E with
  | (if ?b then _ else _) = _ => destruct b
  | Done _ = Done _ => injection E as _ <-; assumption
  | (_ ≫= _) = Done _ =>
      let E' := fresh in apply outcome_bind_Done in E as (? & E' & E);
      try apply (quiet_set_slc_entry _ _ _ _ _ H) in E'
  | respondSLC _ _ _ _ = _ => eapply quiet_respondSLC in E; [exact E | assumption]
  end.
Qed.

Lemma quiet_negotiate_loop idx : forall f tw f' tw',
  quiet_at s tw -> negotiate_loop idx f tw = Done (f', tw') -> quiet_at s tw'.
Proof.
  induction idx as [|i idx IH]; intros f tw f' tw' H E; cbn [negotiate_loop] in E.
  - by injection E as _ <-.
  - apply outcome_bind_Done in E as ([f1 tw1] & E1 & E).
    eapply IH; [|exact E]. by eapply quiet_negotiate_one.
Qed.

Lemma keeps_doLinemode_loop idx : forall tw, quiet_at s tw -> keeps (doLinemode_loop idx tw).
Proof.
  induction idx as [|i idx IH]; intros tw H; cbn [doLinemode_loop]; [by apply keeps_Done|].
  apply keeps_bind_keeps; [unfold doLinemode_entry; keeps_tac|]. intros; by apply IH.
Qed.

Lemma keeps_doLinemode tw : quiet_at s tw -> keeps (doLinemode tw).
Proof.
  intros H. unfold doLinemode. apply keeps_bind_keeps.
  - apply keeps_doLinemode_loop. exact H.
  - intros tw' H'. keeps_tac.
Qed.

Lemma keeps_linemode_suboption tw : quiet_at s tw -> keeps (linemode_suboption tw).
Proof.
  intros H. unfold linemode_suboption. apply keeps_bind; intros sub _. destruct (sub =? L_MODE).
  { destruct (negb _); [|keeps_tac]. apply keeps_bind; intros m _. destruct (negb _); keeps_tac; try exact H. }
  destruct (sub =? TEL_DOTEL).
  { apply keeps_bind_keeps; [|intros; keeps_tac]. unfold setForwardMask. apply keeps_bind_keeps.
    - apply keeps_forward_loop. exact H.
    - intros tw' H'. keeps_tac; try exact H'. }
  destruct (sub =? TEL_DONTTEL); [keeps_tac; try exact H|]. destruct (sub =? L_SLC); [|keeps_tac].
  unfold negotiateSLC. apply keeps_bind. intros [f tw'] E. apply keeps_Done.
  apply quiet_negotiate_loop in E; [|done]. destruct f; keeps_tac.
Qed.

Lemma keeps_process_suboption tw : quiet_at s tw -> keeps (process_suboption tw).
Proof.
  intros H. unfold process_suboption. apply keeps_bind; intros o _. apply keeps_bind; intros sub _.
  repeat match goal with |- keeps (if ?b then _ else _) => destruct b end;
    try (apply keeps_linemode_suboption; done); unfold auth_suboption; keeps_tac; try exact H.
Qed.

Lemma keeps_kbflush tw : quiet_at s tw -> keeps (kbflush tw).
Proof. intros H. unfold kbflush. keeps_tac; try exact H. Qed.

Ltac handler_tac := unfold send_will, send_wont, send_do, send_dont, send_option, SendNAWSinfo; cbv zeta; keeps_tac.

Lemma keeps_telnet_do b tw : quiet_at s tw -> keeps (telnet_do b tw).
Proof.
  intros H. unfold telnet_do.
  repeat match goal with |- keeps (if _ =? N_LINEMODE then _ else _) => fail 1
         | |- keeps (if ?b then _ else _) => destruct b end; handler_tac.
  all: try exact H. apply keeps_doLinemode. exact H.
Qed.

Lemma keeps_telnet_dont b tw : quiet_at s tw -> keeps (telnet_dont b tw).
Proof.
  intros H. unfold telnet_dont. destruct (_ || _); [handler_tac; try exact H|].
  destruct (b =? N_LINEMODE); [|keeps_tac]. destruct (negb _); [|keeps_tac].
  apply keeps_bind_keeps; [apply keeps_kbflush; exact H|]. intros tw' H'. keeps_tac; try exact H'.
Qed.

Lemma keeps_telnet_will b tw : quiet_at s tw -> keeps (telnet_will b tw).
Proof.
  intros H. assert (Ht : quiet_at s (tw <| timing := 0 |>)) by by destruct H as (? & ? & ? & H').
  unfold telnet_will. handler_tac; try exact H; try exact Ht.
Qed.

Lemma keeps_telnet_wont b tw : quiet_at s tw -> keeps (telnet_wont b tw).
Proof.
  intros H. assert (Ht : quiet_at s (tw <| timing := 0 |>)) by by destruct H as (? & ? & ? & H').
  unfold telnet_wont. handler_tac; try exact H; try exact Ht.
Qed.

Lemma keeps_collect b tw : quiet_at s tw -> keeps (collect b tw).
Proof. intros H. unfold collect. keeps_tac; try exact H. Qed.

End Keeps.

(** *** A turn of the receiver *)

Lemma set_telstate_same tw : tw <| telstate := telstate tw |> = tw.
Proof. by destruct tw. Qed.
Lemma set_telstate_twice s t tw : tw <| telstate := s |> <| telstate := t |> = tw <| telstate := t |>.
Proof. done. Qed.
Lemma VSwrite_telstate l s tw : (VSwrite l tw) <| telstate := s |> = VSwrite l (tw <| telstate := s |>).
Proof. done. Qed.
Lemma VSwrite_nil tw : VSwrite [] tw = tw.
Proof. apply emit_nil. Qed.
Lemma VSwrite_app a b tw : VSwrite b (VSwrite a tw) = VSwrite (a ++ b) tw.
Proof. unfold VSwrite. by rewrite emit_emit, fmap_app. Qed.

Lemma quiet_at_telstate s t tw : quiet_at s tw -> quiet_at t (tw <| telstate := t |>).
Proof. unfold quiet_at. cbn. tauto. Qed.
Lemma quiet_at_VSwrite s l tw : quiet_at s tw -> quiet_at s (VSwrite l tw).
Proof. done. Qed.
Lemma quiet_at_state s tw : quiet_at s tw -> telstate tw = s.
Proof. by intros (_ & _ & _ & _ & _ & _ & ?). Qed.
#[local] Hint Resolve quiet_at_telstate quiet_at_VSwrite : macssh.

(** In [TS_NORM] the reference receiver treats a byte as text. *)
Lemma rx_norm b r tw : telstate tw = TS_NORM -> rx (b :: r) tw = rx r (rx_text b tw).
Proof.
  intros E. assert (Es : tw <| telstate := TS_NORM |> = tw) by (rewrite <- E; apply set_telstate_same).
  cbn [rx]. unfold rx_byte. rewrite E, Es. reflexivity.
Qed.

(** Outside a suboption it goes byte by byte. *)
Lemma rx_step b r tw : telstate tw <> TS_SB -> rx (b :: r) tw = tw' ← rx_byte b tw; rx r tw'.
Proof. intros E. cbn [rx]. by rewrite (proj2 (Z.eqb_neq _ _) E). Qed.

(** The ESC that [parse] still holds back, as the reference sees it. *)
Definition virt (held : bytes) (tw : WindRec) : WindRec :=
  if (telstate tw =? TS_NORM) && bool_decide (held = [ESC]) then tw <| telstate := ESCFOUND |> else tw.

(** The states in the middle of a command. *)
Definition command_states : list Z := [IACFOUND; TS_DO; TS_DONT; TS_WILL; TS_WONT; TS_SB].

(** The state between two turns. *)
Definition turn_ok (held st : bytes) (tw : WindRec) : Prop :=
  quiet tw /\ plain st
  /\ (telstate tw ∉ command_states -> held = [] \/ telstate tw = ESCFOUND \/
        (telstate tw = TS_NORM /\ held = [ESC] /\ st <> [] /\ no_introducer st))
  /\ (telstate tw = ESCFOUND -> st = [] \/ (held = [] /\ no_introducer st)).

Lemma land_127_idem b : Z.land (Z.land b 127) 127 = Z.land b 127.
Proof. by rewrite <- Z.land_assoc. Qed.

(** The scan passes exactly the bytes the reference shows, and stops at the
    end, at ESC or at IAC. *)
Lemma scan_rx st : forall held tw,
  quiet_at TS_NORM tw -> plain st ->
  exists run st', scan (negb (eightbit tw =? 0)) (protocol tw =? 0) held st = (held ++ run, st')
  /\ rx st tw = rx st' (VSwrite run tw) /\ plain st' /\ (length st' <= length st)%nat
  /\ (st' = [] \/ exists r, st' = ESC :: r \/ (st' = IAC :: r /\ protocol tw = 0)).
Proof.
  induction st as [|b r IH]; intros held tw Hq Hp; cbn [scan].
  { exists [], []. rewrite app_nil_r, VSwrite_nil. split_and!; auto. }
  pose proof (quiet_at_state _ _ Hq) as Hs. destruct Hp as (Hb & Hgs & Hesc & Hp). unfold is_byte in Hb.
  assert (Hgo : forall b', rx (b :: r) tw = rx r (VSwrite [b'] tw) ->
    exists run st', scan (negb (eightbit tw =? 0)) (protocol tw =? 0) (held ++ [b']) r = (held ++ run, st')
    /\ rx (b :: r) tw = rx st' (VSwrite run tw) /\ plain st' /\ (length st' <= length (b :: r))%nat
    /\ (st' = [] \/ exists r, st' = ESC :: r \/ (st' = IAC :: r /\ protocol tw = 0))).
  { intros b' E. destruct (IH (held ++ [b']) (VSwrite [b'] tw) Hq Hp) as (run & st' & E1 & E2 & Hp' & Hl & Hst).
    exists ([b'] ++ run), st'. rewrite app_assoc. split; [exact E1|].
    rewrite E, E2, VSwrite_app. split_and!; [done | exact Hp' | cbn [length]; lia | exact Hst]. }
  destruct (Z.eqb_spec (eightbit tw) 0) as [E8|E8]; cbn [negb].
  - destruct ((b =? IAC) && (protocol tw =? 0)) eqn:Ei.
    + apply andb_prop in Ei as [->%Z.eqb_eq Ep%Z.eqb_eq]. exists [], (IAC :: r).
      rewrite app_nil_r, VSwrite_nil. split_and!; try done; eauto.
    + destruct (Z.eqb_spec (Z.land b 127) ESC) as [E|E]; cbn [orb].
      * exists [], (Z.land b 127 :: r). rewrite app_nil_r, VSwrite_nil, E.
        refine (conj eq_refl (conj _ (conj _ (conj (le_n _) _)))).
        -- rewrite !rx_norm by done. f_equal. unfold rx_text. rewrite Ei, E8. cbn [Z.eqb]. by rewrite E.
        -- split_and!; try done. intros _. by apply Hesc.
        -- eauto.
      * rewrite (proj2 (Z.eqb_neq _ _) Hgs). apply Hgo. rewrite rx_norm by done. f_equal.
        unfold rx_text. rewrite Ei, E8. cbn [Z.eqb]. by rewrite (proj2 (Z.eqb_neq _ _) E).
  - destruct (Z.eqb_spec b ESC) as [->|E]; cbn [negb andb].
    { exists [], (ESC :: r). rewrite app_nil_r, VSwrite_nil. split_and!; try done; eauto. }
    destruct (Z.eqb_spec b GS) as [->|Eg]; [done|]. rewrite andb_true_r.
    destruct ((b <? 255) || negb (protocol tw =? 0)) eqn:Ei.
    + apply Hgo. rewrite rx_norm by done. f_equal. unfold rx_text.
      rewrite (proj2 (Z.eqb_neq _ _) E8), (proj2 (Z.eqb_neq _ _) E).
      assert ((b =? IAC) && (protocol tw =? 0) = false) as ->; [|done].
      unfold IAC. destruct (protocol tw =? 0); [|by rewrite andb_false_r].
      rewrite orb_false_r in Ei. apply Z.ltb_lt in Ei. rewrite andb_true_r. apply Z.eqb_neq. lia.
    + apply orb_false_elim in Ei as [Ei%Z.ltb_ge Ep%negb_false_iff%Z.eqb_eq].
      assert (b = IAC) as -> by (unfold IAC; lia).
      exists [], (IAC :: r). rewrite app_nil_r, VSwrite_nil. split_and!; try done; eauto.
Qed.

Section ParseProofs.
Context {G : Graphics}.

Lemma send_text_quiet held st tw :
  quiet_at TS_NORM tw -> send_text held st tw = Done (VSwrite held tw, st).
Proof.
  intros ((H1 & H2 & _) & _ & Ht & Ho & Hw & Ha & _). unfold send_text, deliver.
  rewrite Ht, Ho, (proj2 (Z.eqb_neq _ _) H1), (proj2 (Z.eqb_neq _ _) H2).
  cbn [Z.eqb negb mbind outcome_bind]. by rewrite Hw, Ha.
Qed.

(** The part of a turn in [TS_NORM]. *)
Definition text_part (held st : bytes) (tw : WindRec) : outcome (WindRec * cursor) :=
  let '(held, st) := scan (negb (eightbit tw =? 0)) (protocol tw =? 0) held st in
  '(tw, st) ← send_text held st tw;
  Done (interesting st tw).

Lemma virt_other held tw : telstate tw <> TS_NORM -> virt held tw = tw.
Proof. intros H. unfold virt. by rewrite (proj2 (Z.eqb_neq _ _) H). Qed.
Lemma virt_held held tw : held <> [ESC] -> virt held tw = tw.
Proof. intros H. unfold virt. by rewrite bool_decide_eq_false_2, andb_false_r by done. Qed.

Lemma quiet_at_quiet s tw : quiet_at s tw -> s <> GS -> quiet tw.
Proof. intros H Hs. pose proof (quiet_at_state _ _ H) as E. split; rewrite E; [exact H | exact Hs]. Qed.

(** A turn that ends in a state other than [TS_NORM] and [ESCFOUND]. *)
Lemma turn_ok_other s held st tw :
  quiet_at s tw -> plain st -> s ∈ command_states -> turn_ok held st tw.
Proof.
  intros Hq Hp Hs. pose proof (quiet_at_state _ _ Hq) as E.
  assert (s <> GS /\ s <> ESCFOUND) as (H1 & H3).
  { unfold command_states in Hs. set_unfold in Hs. destruct Hs as [->|[->|[->|[->|[->|[->|[]]]]]]]; done. }
  split_and!; [by apply (quiet_at_quiet s) | exact Hp | | ]; rewrite E; done.
Qed.

Lemma rx_text_esc tw : rx_text ESC tw = tw <| telstate := ESCFOUND |>.
Proof. unfold rx_text. cbn [Z.eqb ESC IAC andb]. by destruct (eightbit tw =? 0). Qed.

Lemma interesting_rx st tw :
  quiet_at TS_NORM tw -> plain st ->
  (st = [] \/ exists r, st = ESC :: r \/ (st = IAC :: r /\ protocol tw = 0)) ->
  exists tw' held' st', interesting st tw = (tw', (held', st'))
  /\ rx st tw = rx st' (virt held' tw') /\ turn_ok held' st' tw' /\ length st' = pred (length st).
Proof.
  intros Hq Hp Hst. pose proof (quiet_at_state _ _ Hq) as Hs.
  destruct Hst as [->|(r & [->|[-> Ep]])].
  - exists tw, [], []. rewrite virt_held by done.
    refine (conj eq_refl (conj eq_refl (conj _ eq_refl))).
    split_and!; [by apply (quiet_at_quiet TS_NORM) | done | auto | by rewrite Hs].
  - destruct Hp as (_ & _ & Hesc & Hp). specialize (Hesc eq_refl).
    rewrite rx_norm, rx_text_esc by done. destruct r as [|c r].
    + exists (tw <| telstate := ESCFOUND |>), [ESC], []. rewrite virt_other by done.
      refine (conj eq_refl (conj eq_refl (conj _ eq_refl))).
      split_and!; [|done|by right; left|by left].
      apply (quiet_at_quiet ESCFOUND); [apply (quiet_at_telstate _ _ _ Hq) | done].
    + exists tw, [ESC], (c :: r). refine (conj _ (conj _ (conj _ eq_refl))).
      * unfold interesting. destruct Hesc as [H1 H2].
        assert (c <> 12 /\ c <> 94) as [? ?] by (split; intros ->; done).
        cbn [Z.eqb TEL_IAC GS ESC]. by rewrite !(proj2 (Z.eqb_neq c _)) by done.
      * unfold virt. rewrite Hs. done.
      * split_and!; [by apply (quiet_at_quiet TS_NORM) | done | | by rewrite Hs].
        intros _. right. right. done.
  - destruct Hp as (_ & _ & _ & Hp). rewrite rx_norm by done.
    exists (tw <| telstate := IACFOUND |>), [IAC], r. rewrite virt_other by done.
    refine (conj _ (conj _ (conj _ eq_refl))).
    + unfold interesting. cbn [Z.eqb]. by rewrite Ep.
    + unfold rx_text. by rewrite Ep.
    + apply (turn_ok_other IACFOUND); [apply (quiet_at_telstate _ _ _ Hq) | exact Hp | by left].
Qed.

Lemma text_part_rx held st tw :
  quiet_at TS_NORM tw -> plain st ->
  exists tw' held' st', text_part held st tw = Done (tw', (held', st'))
  /\ rx st (VSwrite held tw) = rx st' (virt held' tw') /\ turn_ok held' st' tw'
  /\ (length st' <= pred (length st))%nat.
Proof.
  intros Hq Hp.
  destruct (scan_rx st held (VSwrite held tw) Hq Hp) as (run & st1 & E & Erx & Hp1 & Hl & Hst).
  unfold text_part. change (scan _ _ held st) with
    (scan (negb (eightbit (VSwrite held tw) =? 0)) (protocol (VSwrite held tw) =? 0) held st).
  rewrite E, send_text_quiet by done. cbn [mbind outcome_bind].
  destruct (interesting_rx st1 (VSwrite (held ++ run) tw) Hq Hp1 Hst) as (tw' & held' & st' & -> & Erx' & Hok & Hl').
  exists tw', held', st'. rewrite VSwrite_app in Erx. rewrite Erx, Erx'.
  refine (conj eq_refl (conj eq_refl (conj Hok _))). lia.
Qed.

(** What a turn has to establish. *)
Definition turn_post (held : bytes) (b : Z) (st : bytes) (tw : WindRec) (m : outcome (WindRec * cursor)) : Prop :=
  match m with
  | Done (tw', (held', st')) =>
      rx (b :: st) (virt held tw) = rx st' (virt held' tw') /\ turn_ok held' st' tw' /\ (length st' <= length st)%nat
  | Reject => rx (b :: st) (virt held tw) = Reject
  | Crash c => rx (b :: st) (virt held tw) = Crash c
  end.

Lemma post_norm held b st tw held1 st1 tw1 :
  parse_switch held b st tw = Done (tw1, (held1, st1)) ->
  quiet_at TS_NORM tw1 -> plain st1 -> (length st1 <= S (length st))%nat ->
  rx (b :: st) (virt held tw) = rx st1 (VSwrite held1 tw1) ->
  turn_post held b st tw (parse_turn held b st tw).
Proof.
  intros E Hq Hp Hl Erx. unfold parse_turn. rewrite E. cbn [mbind outcome_bind].
  rewrite (quiet_at_state _ _ Hq). change (turn_post held b st tw (text_part held1 st1 tw1)).
  destruct (text_part_rx held1 st1 tw1 Hq Hp) as (tw' & held' & st' & -> & Erx' & Hok & Hl').
  refine (conj _ (conj Hok _)); [by rewrite Erx | lia].
Qed.

Lemma post_other s held b st tw held1 st1 tw1 :
  parse_switch held b st tw = Done (tw1, (held1, st1)) ->
  quiet_at s tw1 -> s ∈ command_states -> plain st1 -> (length st1 <= length st)%nat ->
  rx (b :: st) (virt held tw) = rx st1 tw1 ->
  turn_post held b st tw (parse_turn held b st tw).
Proof.
  intros E Hq Hs Hp Hl Erx. unfold parse_turn. rewrite E. cbn [mbind outcome_bind].
  pose proof (quiet_at_state _ _ Hq) as Es.
  assert (Hn : s <> TS_NORM).
  { unfold command_states in Hs. set_unfold in Hs. destruct Hs as [->|[->|[->|[->|[->|[->|[]]]]]]]; done. }
  rewrite Es, (proj2 (Z.eqb_neq _ _) Hn). cbn [turn_post]. rewrite (virt_other held1 tw1) by congruence.
  refine (conj Erx (conj _ Hl)). by apply (turn_ok_other s).
Qed.

(** The four option commands. *)
Lemma post_handler s (h : Z -> WindRec -> outcome WindRec) held b st tw :
  turn_ok held (b :: st) tw -> telstate tw = s -> s ∈ command_states -> s <> TS_SB ->
  (forall tw', quiet_at s tw' -> keeps s (h b tw')) ->
  parse_switch held b st tw = (tw' ← h b tw; Done (tw' <| telstate := TS_NORM |>, ([], st))) ->
  (forall tw', telstate tw' = s -> rx_byte b tw' = (tw'' ← h b tw'; Done (tw'' <| telstate := TS_NORM |>))) ->
  turn_post held b st tw (parse_turn held b st tw).
Proof.
  intros (Hq & Hp & _ & _) Es Hs Hn Hk E Erx. destruct Hp as (_ & _ & _ & Hp).
  destruct Hq as [Hq Hgs]. rewrite Es in Hq.
  assert (Hv : virt held tw = tw).
  { apply virt_other. rewrite Es. intros ->. unfold command_states in Hs. set_unfold in Hs. intuition discriminate. }
  assert (Hstep : rx (b :: st) tw = tw' ← (tw'' ← h b tw; Done (tw'' <| telstate := TS_NORM |>)); rx st tw').
  { rewrite rx_step by congruence. by rewrite (Erx tw Es). }
  destruct (h b tw) as [tw1| |c] eqn:Eh; cbn [mbind outcome_bind] in E, Hstep.
  - apply (post_norm _ _ _ _ _ _ _ E); [|exact Hp|lia|].
    + eapply quiet_at_telstate. by apply (Hk tw Hq).
    + by rewrite Hv, Hstep, VSwrite_nil.
  - unfold parse_turn. rewrite E. cbn [mbind outcome_bind turn_post]. by rewrite Hv, Hstep.
  - unfold parse_turn. rewrite E. cbn [mbind outcome_bind turn_post]. by rewrite Hv, Hstep.
Qed.

Lemma post_iac held b st tw :
  turn_ok held (b :: st) tw -> telstate tw = IACFOUND ->
  turn_post held b st tw (parse_turn held b st tw).
Proof.
  intros ([Hq _] & (_ & _ & _ & Hp) & _) Es. rewrite Es in Hq.
  assert (E : parse_switch held b st tw = Done (iac_found b st tw)) by (unfold parse_switch; by rewrite Es).
  assert (Hv : virt held tw = tw) by (apply virt_other; by rewrite Es).
  assert (Erx : rx (b :: st) (virt held tw)
    = rx st (if b =? TEL_IAC then VSwrite [b] (tw <| telstate := TS_NORM |>) else (iac_found b [] tw).1)).
  { rewrite Hv, rx_step by (by rewrite Es). unfold rx_byte. by rewrite Es. }
  assert (Hn : forall h1 s, iac_found b st tw = (tw <| telstate := TS_NORM |>, (h1, s)) -> s = st ->
    rx (b :: st) (virt held tw) = rx st (VSwrite h1 (tw <| telstate := TS_NORM |>)) ->
    turn_post held b st tw (parse_turn held b st tw)).
  { intros h1 s Ei -> Er. rewrite Ei in E. apply (post_norm _ _ _ _ _ _ _ E); [|exact Hp|lia|exact Er].
    apply (quiet_at_telstate _ _ _ Hq). }
  unfold iac_found in E, Hn, Erx.
  destruct (b =? TEL_IAC); [by apply (Hn [b] st)|].
  destruct (is_command b); [apply (Hn [] st); [done|done|by rewrite VSwrite_nil]|].
  destruct (b =? TEL_DOTEL).
  { apply (post_other TS_DO _ _ _ _ _ _ _ E); [apply (quiet_at_telstate _ _ _ Hq)|by apply (bool_decide_unpack _)|exact Hp|lia|exact Erx]. }
  destruct (b =? TEL_WILLTEL).
  { apply (post_other TS_WILL _ _ _ _ _ _ _ E); [apply (quiet_at_telstate _ _ _ Hq)|by apply (bool_decide_unpack _)|exact Hp|lia|exact Erx]. }
  destruct (b =? TEL_DONTTEL).
  { apply (post_other TS_DONT _ _ _ _ _ _ _ E); [apply (quiet_at_telstate _ _ _ Hq)|by apply (bool_decide_unpack _)|exact Hp|lia|exact Erx]. }
  destruct (b =? TEL_WONTTEL).
  { apply (post_other TS_WONT _ _ _ _ _ _ _ E); [apply (quiet_at_telstate _ _ _ Hq)|by apply (bool_decide_unpack _)|exact Hp|lia|exact Erx]. }
  destruct (b =? TEL_SB).
  { apply (post_other TS_SB _ _ _ _ _ _ _ E); [apply (quiet_at_telstate _ TS_SB _ Hq)|by apply (bool_decide_unpack _)|exact Hp|lia|exact Erx]. }
  apply (Hn [] st); [done|done|by rewrite VSwrite_nil].
Qed.

Lemma post_esc held b st tw :
  turn_ok held (b :: st) tw -> telstate tw = ESCFOUND ->
  turn_post held b st tw (parse_turn held b st tw).
Proof.
  intros ([Hq _] & Hp & _ & Hesc) Es. destruct (Hesc Es) as [?|[-> [H12 H94]]]; [done|].
  rewrite Es in Hq.
  assert (b <> 12 /\ b <> 94) as [? ?] by (split; intros ->; done).
  assert (E : parse_switch [] b st tw = Done ((VSwrite [27] tw) <| telstate := TS_NORM |>, ([], b :: st))).
  { unfold parse_switch. rewrite Es. cbn [Z.eqb ESCFOUND GS orb]. unfold esc_found.
    destruct Hq as ((H1 & H2 & _) & Ht & _).
    rewrite (proj2 (Z.leb_gt 0 (tektype tw)) Ht), (proj2 (Z.eqb_neq b 94)) by done. cbn [andb].
    by rewrite (proj2 (Z.eqb_neq _ _) H1), (proj2 (Z.eqb_neq _ _) H2). }
  apply (post_norm _ _ _ _ _ _ _ E); [apply (quiet_at_telstate ESCFOUND _ _ Hq) | exact Hp | cbn; lia |].
  rewrite VSwrite_nil, virt_other, rx_step, rx_norm by (done || by rewrite Es).
  unfold rx_byte. by rewrite Es.
Qed.

Lemma rx_sb b st tw :
  telstate tw = TS_SB ->
  rx (b :: st) tw =
    if b =? TEL_IAC then
      match st with
      | [] => Crash OutOfBounds
      | c :: st' =>
        if c =? TEL_SE then tw ← process_suboption tw; rx st' (tw <| telstate := TS_NORM |>)
        else if c =? TEL_IAC then tw ← collect c tw; rx st' tw
        else tw ← collect TEL_IAC tw; tw ← collect c tw; tw ← process_suboption tw;
             rx st (tw <| substat := IACFOUND |>)
      end
    else tw ← collect b tw; rx st tw.
Proof.
  intros Es. cbn [rx]. rewrite Es, Z.eqb_refl. cbn [andb]. change (b =? IAC) with (b =? TEL_IAC).
  destruct (b =? TEL_IAC); [done|]. unfold rx_byte. by rewrite Es.
Qed.

(** A turn fails exactly as its switch does. *)
Lemma post_fail held b st tw (c : crash) :
  virt held tw = tw -> parse_switch held b st tw = Crash c -> rx (b :: st) tw = Crash c ->
  turn_post held b st tw (parse_turn held b st tw).
Proof. intros Hv E Er. unfold parse_turn. rewrite E. cbn [mbind outcome_bind turn_post]. by rewrite Hv. Qed.
Lemma post_reject held b st tw :
  virt held tw = tw -> parse_switch held b st tw = Reject -> rx (b :: st) tw = Reject ->
  turn_post held b st tw (parse_turn held b st tw).
Proof. intros Hv E Er. unfold parse_turn. rewrite E. cbn [mbind outcome_bind turn_post]. by rewrite Hv. Qed.

Lemma post_suboption held b st tw :
  turn_ok held (b :: st) tw -> telstate tw = TS_SB ->
  turn_post held b st tw (parse_turn held b st tw).
Proof.
  intros ([Hq _] & (Hb & _ & _ & Hp) & _) Es. rewrite Es in Hq.
  assert (E : parse_switch held b st tw = in_suboption held b st tw) by (unfold parse_switch; by rewrite Es).
  assert (Hv : virt held tw = tw) by (apply virt_other; by rewrite Es).
  pose proof (rx_sb b st tw Es) as Er. unfold in_suboption in E.
  assert (Hc : forall x tw' tw'', quiet_at TS_SB tw' -> collect x tw' = Done tw'' -> quiet_at TS_SB tw'').
  { intros x tw' tw'' H. exact (keeps_collect TS_SB x tw' H tw''). }
  destruct (b =? TEL_IAC).
  - destruct st as [|c st]; [by apply (post_fail _ _ _ _ _ Hv E)|].
    destruct (c =? TEL_SE); [|destruct (c =? TEL_IAC)].
    + destruct (process_suboption tw) as [tw1| |] eqn:Ep; cbn [mbind outcome_bind] in E, Er;
        [|by apply (post_reject _ _ _ _ Hv E)|by apply (post_fail _ _ _ _ _ Hv E)].
      apply (post_norm _ _ _ _ _ _ _ E); [| apply Hp | cbn; lia | by rewrite Hv, VSwrite_nil].
      apply (quiet_at_telstate TS_SB). by apply (keeps_process_suboption TS_SB tw Hq).
    + destruct (collect c tw) as [tw1| |] eqn:Ec; cbn [mbind outcome_bind] in E, Er;
        [|by apply (post_reject _ _ _ _ Hv E)|by apply (post_fail _ _ _ _ _ Hv E)].
      apply (post_other TS_SB _ _ _ _ _ _ _ E); [by apply (Hc c tw) | by apply (bool_decide_unpack _) | apply Hp | cbn; lia | by rewrite Hv].
    + destruct (collect TEL_IAC tw) as [tw1| |] eqn:Ec; cbn [mbind outcome_bind] in E, Er;
        [|by apply (post_reject _ _ _ _ Hv E)|by apply (post_fail _ _ _ _ _ Hv E)].
      apply Hc in Ec; [|done].
      destruct (collect c tw1) as [tw2| |] eqn:Ec2; cbn [mbind outcome_bind] in E, Er;
        [|by apply (post_reject _ _ _ _ Hv E)|by apply (post_fail _ _ _ _ _ Hv E)].
      apply Hc in Ec2; [|done].
      destruct (process_suboption tw2) as [tw3| |] eqn:Ep; cbn [mbind outcome_bind] in E, Er;
        [|by apply (post_reject _ _ _ _ Hv E)|by apply (post_fail _ _ _ _ _ Hv E)].
      apply (post_other TS_SB _ _ _ _ _ _ _ E); [| by apply (bool_decide_unpack _) | exact Hp | lia | by rewrite Hv].
      exact (keeps_process_suboption TS_SB tw2 Ec2 tw3 Ep).
  - destruct (collect b tw) as [tw1| |] eqn:Ec; cbn [mbind outcome_bind] in E, Er;
      [|by apply (post_reject _ _ _ _ Hv E)|by apply (post_fail _ _ _ _ _ Hv E)].
    apply (post_other TS_SB _ _ _ _ _ _ _ E); [by apply (Hc b tw) | by apply (bool_decide_unpack _) | exact Hp | lia | by rewrite Hv].
Qed.

Lemma not_command s : s ∉ command_states ->
  (s =? IACFOUND) = false /\ (s =? TS_DO) = false /\ (s =? TS_DONT) = false
  /\ (s =? TS_WILL) = false /\ (s =? TS_WONT) = false /\ (s =? TS_SB) = false.
Proof. unfold command_states. intros H. rewrite !Z.eqb_neq. set_solver. Qed.

Lemma post_text held b st tw :
  turn_ok held (b :: st) tw -> telstate tw ∉ command_states -> telstate tw <> ESCFOUND ->
  turn_post held b st tw (parse_turn held b st tw).
Proof.
  intros ([Hq Hgs] & Hp & Hh & _) Hs He.
  assert (E : parse_switch held b st tw = Done (tw <| telstate := TS_NORM |>, (held, b :: st))).
  { unfold parse_switch. rewrite (proj2 (Z.eqb_neq _ _) Hgs), (proj2 (Z.eqb_neq _ _) He). cbn [orb].
    destruct (not_command _ Hs) as (-> & -> & -> & -> & -> & ->). done. }
  apply (post_norm _ _ _ _ _ _ _ E); [eapply quiet_at_telstate, Hq | exact Hp | cbn; lia |].
  rewrite (rx_norm b st (VSwrite held (tw <| telstate := TS_NORM |>))) by done. destruct (Hh Hs) as [->|[?|(Es & -> & _ & Hi)]]; [|done|].
  - rewrite VSwrite_nil, virt_held by done. rewrite rx_step by (intros Esb; apply Hs; rewrite Esb; by apply (bool_decide_unpack _)).
    unfold rx_byte. rewrite (proj2 (Z.eqb_neq _ _) He).
    destruct (not_command _ Hs) as (-> & -> & -> & -> & -> & ->). done.
  - unfold virt. rewrite Es. cbn [Z.eqb TS_NORM andb]. rewrite bool_decide_eq_true_2 by done.
    rewrite rx_step by done. unfold rx_byte. cbn [mbind outcome_bind].
    change (telstate (tw <| telstate := ESCFOUND |>)) with ESCFOUND. done.
Qed.

(** A turn does what the reference does. *)
Lemma parse_turn_rx held b st tw :
  turn_ok held (b :: st) tw -> turn_post held b st tw (parse_turn held b st tw).
Proof.
  intros Hok. destruct (decide (telstate tw = ESCFOUND)) as [E|He]; [by apply post_esc|].
  destruct (decide (telstate tw ∈ command_states)) as [Hs|]; [|by apply post_text].
  pose proof Hok as ([_ Hgs] & _).
  unfold command_states in Hs. set_unfold in Hs. destruct Hs as [E|[E|[E|[E|[E|[E|[]]]]]]].
  - by apply post_iac.
  - apply (post_handler TS_DO telnet_do); try done; [by apply (bool_decide_unpack _) | intros; by apply keeps_telnet_do | | ].
    + unfold parse_switch. by rewrite E.
    + intros tw' E'. unfold rx_byte. by rewrite E'.
  - apply (post_handler TS_DONT telnet_dont); try done; [by apply (bool_decide_unpack _) | intros; by apply keeps_telnet_dont | | ].
    + unfold parse_switch. by rewrite E.
    + intros tw' E'. unfold rx_byte. by rewrite E'.
  - apply (post_handler TS_WILL telnet_will); try done; [by apply (bool_decide_unpack _) | intros; by apply keeps_telnet_will | | ].
    + unfold parse_switch. by rewrite E.
    + intros tw' E'. unfold rx_byte. by rewrite E'.
  - apply (post_handler TS_WONT telnet_wont); try done; [by apply (bool_decide_unpack _) | intros; by apply keeps_telnet_wont | | ].
    + unfold parse_switch. by rewrite E.
    + intros tw' E'. unfold rx_byte. by rewrite E'.
  - by apply post_suboption.
Qed.

Lemma parse_loop_rx fuel : forall held st tw,
  turn_ok held st tw -> st <> [] -> (length st <= fuel)%nat ->
  parse_loop fuel held st tw = rx st (virt held tw)
  /\ forall tw', parse_loop fuel held st tw = Done tw' -> quiet tw'.
Proof.
  induction fuel as [|fuel IH]; intros held st tw Hok Hne Hl.
  { destruct st; [done | cbn in Hl; lia]. }
  destruct st as [|b st]; [done|]. cbn [parse_loop length] in *.
  pose proof (parse_turn_rx held b st tw Hok) as Hp.
  destruct (parse_turn held b st tw) as [[tw1 [held' st']]| |c]; cbn [turn_post mbind outcome_bind] in *; [|done..].
  destruct Hp as (Er & Hok' & Hl'). rewrite Er.
  destruct st' as [|b' st']; [|apply (IH held' (b' :: st') tw1 Hok'); [discriminate | cbn [length] in *; lia]].
  destruct Hok' as (Hq & _ & Hh & _).
  assert (Hv : virt held' tw1 = tw1).
  { destruct (decide (telstate tw1 = TS_NORM)) as [E|]; [|by apply virt_other].
    assert (Hn : telstate tw1 ∉ command_states) by (rewrite E; by apply (bool_decide_unpack _)).
    destruct (Hh Hn) as [->|[H'|(_ & _ & ? & _)]]; [by apply virt_held | by rewrite E in H' | done]. }
  rewrite Hv. split; [by destruct fuel|]. intros tw' E. destruct fuel; by injection E as <-.
Qed.

Lemma parse_rx st tw :
  quiet tw -> plain st -> (telstate tw = ESCFOUND -> no_introducer st) ->
  parse st tw = rx st tw /\ forall tw', parse st tw = Done tw' -> quiet tw'.
Proof.
  intros Hq Hp He. unfold parse. pose proof Hq as [((_ & _ & Hd) & _) _].
  rewrite (proj2 (Z.eqb_neq _ _) Hd). destruct st as [|b st]; [split; [done|by intros ? [= <-]]|].
  assert (Hok : turn_ok [] (b :: st) tw) by (split_and!; auto).
  destruct (parse_loop_rx (length (b :: st)) [] (b :: st) tw Hok) as [E H]; [done..|].
  by rewrite virt_held in E.
Qed.

(** *** Composition *)

Lemma rx_app a : forall b tw,
  rx a tw <> Crash OutOfBounds -> rx (a ++ b) tw = tw' ← rx a tw; rx b tw'.
Proof.
  induction a as [a IH] using (induction_ltof1 _ (@length Z)). unfold ltof in IH. intros b tw.
  destruct a as [|x a]; [done|]. cbn [app rx].
  destruct ((telstate tw =? TS_SB) && (x =? IAC)).
  - destruct a as [|c a]; [done|]. cbn [app].
    destruct (c =? TEL_SE); [|destruct (c =? TEL_IAC)].
    + destruct (process_suboption tw); [|done..]. cbn [mbind outcome_bind]. intros. apply IH; [cbn; lia|done].
    + destruct (collect c tw); [|done..]. cbn [mbind outcome_bind]. intros. apply IH; [cbn; lia|done].
    + destruct (collect TEL_IAC tw) as [t| |]; [|done..]. cbn [mbind outcome_bind].
      destruct (collect c t) as [t'| |]; [|done..]. cbn [mbind outcome_bind].
      destruct (process_suboption t'); [|done..]. cbn [mbind outcome_bind]. intros.
      change (c :: a ++ b) with ((c :: a) ++ b). apply IH; [cbn; lia|done].
  - destruct (rx_byte x tw); [|done..]. cbn [mbind outcome_bind]. intros. apply IH; [cbn; lia|done].
Qed.

Lemma plain_app a b : plain (a ++ b) -> plain a /\ plain b.
Proof.
  induction a as [|x a IH]; [done|]. cbn [app plain]. intros (? & ? & He & Hp).
  destruct (IH Hp) as [Ha Hb]. split; [|done]. split_and!; try done.
  intros E. specialize (He E). destruct a; [done|exact He].
Qed.

Lemma rx_text_escfound b tw :
  telstate tw <> ESCFOUND -> telstate (rx_text b tw) = ESCFOUND -> Z.land b 127 = ESC.
Proof.
  intros Hn. unfold rx_text. destruct (_ && _); [done|]. destruct (eightbit tw =? 0).
  - destruct (Z.eqb_spec (Z.land b 127) ESC); [done|]. by intros ?.
  - destruct (Z.eqb_spec b ESC) as [->|]; [done|]. by intros ?.
Qed.

Lemma iac_found_state b st tw : telstate (iac_found b st tw).1 <> ESCFOUND.
Proof. unfold iac_found. repeat match goal with |- context [if ?c then _ else _] => destruct c end; done. Qed.

Lemma handler_state (h : outcome WindRec) s tw' :
  (tw ← h; Done (tw <| telstate := s |>)) = Done tw' -> telstate tw' = s.
Proof. destruct h; try discriminate. by intros [= <-]. Qed.

Lemma collect_state b tw tw' : collect b tw = Done tw' -> telstate tw' = telstate tw.
Proof. unfold collect. intros (? & _ & E)%outcome_bind_Done. by injection E as <-. Qed.

Lemma rx_byte_escfound b tw tw' :
  rx_byte b tw = Done tw' -> telstate tw' = ESCFOUND -> Z.land b 127 = ESC.
Proof.
  unfold rx_byte. intros E Es.
  destruct (telstate tw =? ESCFOUND); [injection E as <-; by eapply rx_text_escfound in Es|].
  destruct (telstate tw =? IACFOUND).
  { injection E as <-. destruct (b =? TEL_IAC); [done|]. by apply iac_found_state in Es. }
  do 4 (destruct (telstate tw =? _); [apply handler_state in E; by rewrite E in Es|]).
  destruct (Z.eqb_spec (telstate tw) TS_SB) as [E'|].
  - apply collect_state in E. rewrite E, E' in Es. done.
  - injection E as <-. by eapply rx_text_escfound in Es.
Qed.

(** ESC is pending only after an ESC. *)
Definition ends_in_esc (a : bytes) : Prop := exists a0 x, a = a0 ++ [x] /\ Z.land x 127 = ESC.

Lemma ends_in_esc_cons x a : ends_in_esc a -> ends_in_esc (x :: a).
Proof. intros (a0 & y & -> & H). by exists (x :: a0), y. Qed.

Lemma rx_escfound a : forall tw tw',
  rx a tw = Done tw' -> telstate tw' = ESCFOUND -> (a = [] /\ tw' = tw) \/ ends_in_esc a.
Proof.
  induction a as [a IH] using (induction_ltof1 _ (@length Z)). unfold ltof in IH. intros tw tw' E Es.
  destruct a as [|x a]; [left; by injection E as <-|]. right. cbn [rx] in E.
  assert (Hgo : forall r tw1, (length r < length (x :: a))%nat -> rx r tw1 = Done tw' ->
    telstate tw1 <> ESCFOUND -> ends_in_esc r).
  { intros r tw1 Hl Er Hn. destruct (IH r Hl tw1 tw' Er Es) as [[_ ->]|]; done. }
  destruct (Z.eqb_spec (telstate tw) TS_SB) as [Et|Et]; [destruct (x =? IAC)|]; cbn [andb] in E.
  - destruct a as [|c a]; [done|].
    destruct (c =? TEL_SE); [|destruct (c =? TEL_IAC)].
    + apply outcome_bind_Done in E as (tw1 & _ & E). do 2 apply ends_in_esc_cons.
      eapply Hgo; [|exact E|done]. cbn; lia.
    + apply outcome_bind_Done in E as (tw1 & Ec & E). do 2 apply ends_in_esc_cons.
      eapply Hgo; [|exact E|by rewrite (collect_state _ _ _ Ec), Et]. cbn; lia.
    + do 3 apply outcome_bind_Done in E as (? & _ & E). apply ends_in_esc_cons.
      destruct (IH (c :: a) ltac:(cbn; lia) _ _ E Es) as [[? _]|]; done.
  - apply outcome_bind_Done in E as (tw1 & Ec & E). apply ends_in_esc_cons.
    unfold rx_byte in Ec. rewrite Et in Ec. eapply Hgo; [|exact E|by rewrite (collect_state _ _ _ Ec), Et]. cbn; lia.
  - apply outcome_bind_Done in E as (tw1 & Ec & E).
    destruct (IH a ltac:(cbn; lia) _ _ E Es) as [[-> ->]|]; [|by apply ends_in_esc_cons].
    exists [], x. split; [done|]. by eapply rx_byte_escfound.
Qed.

Lemma plain_esc_no_introducer a b : plain (a ++ b) -> ends_in_esc a -> no_introducer b.
Proof.
  intros Hp (a0 & x & -> & Hx). rewrite <- app_assoc in Hp. apply plain_app in Hp as [_ Hp].
  destruct Hp as (_ & _ & He & _). by apply He.
Qed.

(** *** One byte at a time *)

(** The reference receiver: a state, and whether an IAC inside a suboption
    still waits for the byte that tells what it means. *)
Definition rx1 (b : Z) (s : WindRec * bool) : outcome (WindRec * bool) :=
  let '(tw, pending) := s in
  if pending then
    if b =? TEL_SE then tw ← process_suboption tw; Done (tw <| telstate := TS_NORM |>, false)
    else if b =? TEL_IAC then tw ← collect b tw; Done (tw, false)
    else
      tw ← collect TEL_IAC tw; tw ← collect b tw; tw ← process_suboption tw;
      tw ← rx_byte b (tw <| substat := IACFOUND |>); Done (tw, false)
  else if (telstate tw =? TS_SB) && (b =? IAC) then Done (tw, true)
  else tw ← rx_byte b tw; Done (tw, false).

Fixpoint bytewise (st : bytes) (s : WindRec * bool) : outcome (WindRec * bool) :=
  match st with
  | [] => Done s
  | b :: r => s ← rx1 b s; bytewise r s
  end.

(** A reading that may not stop behind such an IAC. *)
Definition settled (s : WindRec * bool) : outcome WindRec :=
  if s.2 then Crash OutOfBounds else Done s.1.

Lemma bytewise_app a : forall b s, bytewise (a ++ b) s = s' ← bytewise a s; bytewise b s'.
Proof.
  induction a as [|x a IH]; intros b s; [done|]. cbn [app bytewise].
  destruct (rx1 x s); [apply IH | done..].
Qed.

Lemma rx_bytewise st : forall tw, rx st tw = s ← bytewise st (tw, false); settled s.
Proof.
  induction st as [st IH] using (induction_ltof1 _ (@length Z)). unfold ltof in IH. intros tw.
  destruct st as [|b r]; [done|]. cbn [rx bytewise rx1].
  destruct ((telstate tw =? TS_SB) && (b =? IAC)); cbn [mbind outcome_bind].
  2:{ destruct (rx_byte b tw); [|done..]. cbn [mbind outcome_bind]. apply IH. cbn; lia. }
  destruct r as [|c r]; [done|]. cbn [bytewise rx1].
  destruct (c =? TEL_SE) eqn:Es; [|destruct (c =? TEL_IAC) eqn:Ei].
  - destruct (process_suboption tw); [|done..]. cbn [mbind outcome_bind]. apply IH. cbn; lia.
  - destruct (collect c tw); [|done..]. cbn [mbind outcome_bind]. apply IH. cbn; lia.
  - destruct (collect TEL_IAC tw) as [t| |]; [|done..]. cbn [mbind outcome_bind].
    destruct (collect c t) as [t'| |]; [|done..]. cbn [mbind outcome_bind].
    destruct (process_suboption t') as [t''| |]; [|done..]. cbn [mbind outcome_bind rx].
    change (c =? IAC) with (c =? TEL_IAC). rewrite Ei, andb_false_r.
    destruct (rx_byte c (t'' <| substat := IACFOUND |>)); [|done..].
    cbn [mbind outcome_bind]. apply IH. cbn; lia.
Qed.

(** What one piece does to a session, and that the next piece finds the same
    conditions. *)
Lemma parse_piece c rest tw :
  quiet tw -> plain (c ++ rest) -> (telstate tw = ESCFOUND -> no_introducer (c ++ rest)) ->
  parse c tw = (s ← bytewise c (tw, false); settled s)
  /\ forall tw1, bytewise c (tw, false) = Done (tw1, false) ->
       quiet tw1 /\ plain rest /\ (telstate tw1 = ESCFOUND -> no_introducer rest).
Proof.
  intros Hq Hp He. destruct (plain_app _ _ Hp) as [Hpc Hpr].
  destruct (parse_rx c tw) as [Ep Hq1]; [done..|intros Et; destruct c; [by split|exact (He Et)]|].
  split; [by rewrite Ep, rx_bytewise|]. intros tw1 E1.
  assert (Er : rx c tw = Done tw1) by by rewrite rx_bytewise, E1.
  split_and!; [by apply Hq1; rewrite Ep | done |]. intros Et.
  destruct (rx_escfound _ _ _ Er Et) as [[-> ->]|]; [exact (He Et) | by eapply plain_esc_no_introducer].
Qed.

(** Where no piece ends between an IAC and the byte after it inside a
    suboption, the pieces are read as the whole is. *)
Lemma parse_all_whole chunks : forall tw,
  quiet tw -> plain (mjoin chunks) -> (telstate tw = ESCFOUND -> no_introducer (mjoin chunks)) ->
  (forall k s, bytewise (mjoin (take k chunks)) (tw, false) = Done s -> s.2 = false) ->
  parse_all chunks tw = s ← bytewise (mjoin chunks) (tw, false); Done s.1.
Proof.
  induction chunks as [|c chunks IH]; intros tw Hq Hp He Hk; [done|].
  destruct (parse_piece c (mjoin chunks) tw Hq Hp He) as [Ep Hn]. cbn [parse_all].
  change (mjoin (c :: chunks)) with (c ++ mjoin chunks). rewrite Ep, bytewise_app.
  destruct (bytewise c (tw, false)) as [[tw1 p]| |] eqn:E; [|done..].
  assert (p = false) as ->.
  { refine (Hk 1%nat (tw1, p) _). cbn [take]. cbn. by rewrite app_nil_r. }
  destruct (Hn tw1 eq_refl) as (Hq1 & Hp1 & He1). cbn [mbind outcome_bind settled fst snd].
  apply IH; try done. intros k s Es. apply (Hk (S k)). cbn [take].
  change (mjoin (c :: take k chunks)) with (c ++ mjoin (take k chunks)). by rewrite bytewise_app, E.
Qed.

(** Where a piece does, the byte behind the piece is read. *)
Lemma parse_all_cut chunks : forall k tw tw',
  quiet tw -> plain (mjoin chunks) -> (telstate tw = ESCFOUND -> no_introducer (mjoin chunks)) ->
  bytewise (mjoin (take k chunks)) (tw, false) = Done (tw', true) ->
  parse_all chunks tw = Crash OutOfBounds.
Proof.
  induction chunks as [|c chunks IH]; intros k tw tw' Hq Hp He Hk; [by rewrite take_nil in Hk|].
  destruct k as [|k]; [done|]. cbn [take] in Hk.
  change (mjoin (c :: take k chunks)) with (c ++ mjoin (take k chunks)) in Hk. rewrite bytewise_app in Hk.
  destruct (parse_piece c (mjoin chunks) tw Hq Hp He) as [Ep Hn]. cbn [parse_all]. rewrite Ep.
  destruct (bytewise c (tw, false)) as [[tw1 [|]]| |]; [done| |done..].
  destruct (Hn tw1 eq_refl) as (Hq1 & Hp1 & He1). by apply (IH k tw1 tw').
Qed.

(** C14. The receiver that scans whole chunks against one that looks at one
    byte at a time and remembers whether an IAC inside a suboption still waits
    for its second byte. On a VT session without graphics window, timing mark
    and watchers, for every stream without Tektronix and raster introducers
    and for every division of it into chunks: if no chunk ends with such a
    waiting IAC, [parse] run on the chunks ends in the same state with the
    same replies and screen bytes in the same order, or fails as the reference
    fails, so the division makes no difference; if one does, [parse] reads the
    byte behind that chunk, which it does not have. *)
Theorem parse_refines_bytewise chunks tw :
  quiet tw -> plain (mjoin chunks) -> (telstate tw = ESCFOUND -> no_introducer (mjoin chunks)) ->
  ((forall k s, bytewise (mjoin (take k chunks)) (tw, false) = Done s -> s.2 = false) ->
     parse_all chunks tw = s ← bytewise (mjoin chunks) (tw, false); Done s.1)
  /\ (forall k tw', bytewise (mjoin (take k chunks)) (tw, false) = Done (tw', true) ->
     parse_all chunks tw = Crash OutOfBounds).
Proof.
  intros Hq Hp He. split; [by apply parse_all_whole|]. intros k tw'. by apply parse_all_cut.
Qed.
End ParseProofs.

(** ** Transparency *)

Lemma plain_stuff text b :
  Forall (fun x => is_byte x /\ Z.land x 127 <> GS /\ Z.land x 127 <> ESC) text -> plain b -> plain (stuff text ++ b).
Proof.
  intros H Hb. induction H as [|x text (Hx & Hg & He) _ IH]; [done|].
  change (x :: text) with ([x] ++ text). rewrite stuff_app. unfold stuff at 1. cbn [mbind list_bind app].
  destruct (x =? IAC) eqn:E; cbn [app plain]; [apply Z.eqb_eq in E as ->|]; split_and!; done.
Qed.

(** The first IAC is remembered. *)
Lemma rx1_iac tw :
  telstate tw = TS_NORM -> protocol tw = 0 ->
  rx1 IAC (tw, false) = Done (tw <| telstate := IACFOUND |>, false).
Proof.
  intros Hs Hp. unfold rx1, rx_byte. rewrite Hs.
  assert (tw <| telstate := TS_NORM |> = tw) as -> by (rewrite <- Hs; apply set_telstate_same).
  cbn [Z.eqb TS_NORM ESCFOUND IACFOUND TS_DO TS_DONT TS_WILL TS_WONT TS_SB andb mbind outcome_bind].
  unfold rx_text. by rewrite Hp.
Qed.

(** A doubled IAC shows one. *)
Lemma bytewise_double_iac r tw :
  telstate tw = TS_NORM -> protocol tw = 0 ->
  bytewise (IAC :: IAC :: r) (tw, false) = bytewise r (VSwrite [IAC] tw, false).
Proof.
  intros Hs Hp.
  assert (Hid : tw <| telstate := IACFOUND |> <| telstate := TS_NORM |> = tw).
  { rewrite set_telstate_twice, <- Hs. apply set_telstate_same. }
  assert (E2 : rx1 IAC (tw <| telstate := IACFOUND |>, false) = Done (VSwrite [IAC] tw, false)).
  { rewrite <- Hid at 2. reflexivity. }
  cbn [bytewise]. rewrite rx1_iac by done. cbn [mbind outcome_bind]. by rewrite E2.
Qed.

(** Any other byte of text is shown as it is. *)
Lemma rx1_char x tw :
  telstate tw = TS_NORM -> eightbit tw <> 0 -> x <> IAC -> x <> ESC ->
  rx1 x (tw, false) = Done (VSwrite [x] tw, false).
Proof.
  intros Hs H8 Hi He. unfold rx1, rx_byte. rewrite Hs.
  assert (tw <| telstate := TS_NORM |> = tw) as -> by (rewrite <- Hs; apply set_telstate_same).
  rewrite (proj2 (Z.eqb_neq _ _) Hi), andb_false_r. cbn [Z.eqb TS_NORM ESCFOUND IACFOUND TS_DO TS_DONT TS_WILL TS_WONT TS_SB mbind outcome_bind].
  unfold rx_text. by rewrite (proj2 (Z.eqb_neq _ _) Hi), (proj2 (Z.eqb_neq _ _) H8), (proj2 (Z.eqb_neq _ _) He).
Qed.

(** However much of the stuffed text has been received, no suboption has
    begun; and all of it is shown. *)
Lemma bytewise_stuff text : forall tw a b,
  telstate tw = TS_NORM -> eightbit tw <> 0 -> protocol tw = 0 -> Forall (fun x => x <> ESC) text ->
  stuff text = a ++ b ->
  exists tw', bytewise a (tw, false) = Done (tw', false) /\ (b = [] -> tw' = VSwrite text tw).
Proof.
  induction text as [|x text IH]; intros tw a b Hs H8 Hp He E.
  { symmetry in E. apply app_eq_nil in E as [-> ->]. exists tw. by rewrite VSwrite_nil. }
  inversion_clear He as [|? ? Hx Ht].
  assert (Hgo : forall a', stuff text = a' ++ b -> exists tw', bytewise a' (VSwrite [x] tw, false) = Done (tw', false)
    /\ (b = [] -> tw' = VSwrite (x :: text) tw)).
  { intros a' Ea. destruct (IH (VSwrite [x] tw) a' b) as (tw' & E1 & E2); [done..|].
    exists tw'. split; [done|]. intros Hb. by rewrite E2, VSwrite_app. }
  change (x :: text) with ([x] ++ text) in E. rewrite stuff_app in E. unfold stuff at 1 in E.
  cbn [mbind list_bind app] in E. destruct a as [|x' a]; [exists tw; split; [done|]|].
  { intros ->. by destruct (x =? IAC). }
  destruct (Z.eqb_spec x IAC) as [->|Hi]; cbn [app] in E; injection E as <- E.
  - destruct a as [|y a].
    { exists (tw <| telstate := IACFOUND |>). split; [|by intros ->].
      cbn [bytewise]. by rewrite rx1_iac. }
    injection E as <- E. rewrite bytewise_double_iac by done. by apply Hgo.
  - cbn [bytewise]. rewrite rx1_char by done. cbn [mbind outcome_bind]. by apply Hgo.
Qed.

(** C21. Telnet is transparent: on a quiet eight-bit Telnet session (VT, no
    graphics window, timing mark or watchers), text without ESC and GS (the
    top bit not counting) that the server sends with every IAC doubled is
    shown byte for byte, whatever chunks it arrives in, between the two bytes
    of a doubled IAC too; it is never refused, nothing is answered and the
    session is left as it was. *)
Theorem text_transparent `{Graphics} text tw chunks :
  quiet tw -> telstate tw = TS_NORM -> eightbit tw <> 0 -> protocol tw = 0 ->
  Forall (fun x => is_byte x /\ Z.land x 127 <> GS /\ Z.land x 127 <> ESC) text ->
  mjoin chunks = stuff text ->
  parse_all chunks tw = Done (VSwrite text tw).
Proof.
  intros Hq Hs H8 Hpr Ht Hc.
  assert (Hp : plain (stuff text)) by (rewrite <- (app_nil_r (stuff text)); by apply plain_stuff).
  assert (He : Forall (fun x => x <> ESC) text).
  { eapply Forall_impl; [exact Ht|]. by intros x (_ & _ & He) ->. }
  assert (Hall : forall a b, stuff text = a ++ b ->
    exists tw', bytewise a (tw, false) = Done (tw', false) /\ (b = [] -> tw' = VSwrite text tw)).
  { intros a b. by apply bytewise_stuff. }
  rewrite parse_all_whole; [|done|by rewrite Hc|by rewrite Hs|].
  - destruct (Hall (mjoin chunks) []) as (tw' & -> & E); [by rewrite app_nil_r|]. cbn. by rewrite E.
  - intros k s Es. destruct (Hall (mjoin (take k chunks)) (mjoin (drop k chunks))) as (tw' & E & _).
    + rewrite <- Hc. by rewrite <- join_app, take_drop.
    + rewrite E in Es. by injection Es as <-.
Qed.

(** A session without graphics windows, for the examples. *)
Definition no_graphics : Graphics := {|
  VGwrite := fun d tw => (tw, zlen d);
  VRwrite := fun d tw => (tw, zlen d);
  VGenter := fun tw => (tw, false);
  detachGraphics := fun tw => tw |}.

Lemma text_transparent_witness :
  let tw := sample_window in
  exists tw', @parse_all no_graphics [[104; 255]; [255; 105]] tw = Done tw'
  /\ scr_of (net_trace tw') = [104; 255; 105] /\ sent tw' = [].
Proof.
  intros tw. exists (VSwrite [104; 255; 105] tw).
  split; [|split; reflexivity].
  refine (@text_transparent no_graphics [104; 255; 105] tw [[104; 255]; [255; 105]] _ _ _ _ _ _).
  - apply (bool_decide_unpack _); by vm_compute.
  - reflexivity.
  - discriminate.
  - reflexivity.
  - repeat constructor; done.
  - reflexivity.
Defined.

(** The greeting of a server: DO TERMINAL-TYPE, its suboption, WILL ECHO,
    text, an escape sequence, in two pieces; and one cut after the IAC that
    ends the suboption. *)
Definition greeting : list bytes :=
  [[255; 253; 24; 255; 250; 24; 1; 255; 240; 255; 251]; [1; 104; 105; 27; 91; 109]].
Definition greeting_cut : list bytes := [[255; 253; 24; 255; 250; 24; 1; 255]; [240; 104; 105]].

Lemma parse_refines_bytewise_witness :
  let tw := sample_window in
  (exists tw', @parse_all no_graphics greeting tw = Done tw'
   /\ scr_of (net_trace tw') = [104; 105; 27; 91; 109]
   /\ sent tw' = [255; 251; 24; 255; 250; 24; 0; 118; 116; 50; 50; 48; 255; 240; 255; 253; 1])
  /\ @parse_all no_graphics greeting_cut tw = Crash OutOfBounds.
Proof.
  intros tw.
  assert (Hq : quiet tw) by (apply (bool_decide_unpack _); by vm_compute).
  split.
  - pose proof (proj1 (@parse_refines_bytewise no_graphics greeting tw Hq
      ltac:(cbn; repeat split; try discriminate; try (unfold is_byte; lia)) ltac:(discriminate))) as H.
    rewrite H; clear H.
    + destruct (bytewise (mjoin greeting) (tw, false)) as [[tw' p]| |] eqn:E; [|by vm_compute in E..].
      exists tw'. vm_compute in E. injection E as <- <-. split_and!; reflexivity.
    + intros k s E. destruct k as [|[|k]]; [vm_compute in E; by injection E as <-..|].
      rewrite (take_ge greeting) in E by (cbn; lia). vm_compute in E. by injection E as <-.
  - destruct (bytewise (mjoin (take 1 greeting_cut)) (tw, false)) as [[tw' p]| |] eqn:E; [|by vm_compute in E..].
    refine (proj2 (@parse_refines_bytewise no_graphics greeting_cut tw Hq _ _) 1%nat tw' _).
    + cbn; repeat split; try discriminate; try (unfold is_byte; lia).
    + discriminate.
    + rewrite E. vm_compute in E. by injection E as <- <-.
Defined.

End Receiver.
