(* ===== verification/Negotiation.v ===== *)
(** The Telnet negotiation (parse/parse.c): which commands are answered and
    how, the environment and window-size replies, what is sent when a
    connection opens. *)
From S2P Require Import Prelude Window Linemode Telnet.
Import Window TelnetConstants Linemode Telnet.

Module Negotiation.

(** ** Answers and state *)

Lemma sent_send_option c o tw : sent (send_option c o tw) = sent tw ++ [IAC; c; u8 o].
Proof. apply sent_netwrite. Qed.

Lemma app_ne_self {A} (l r : list A) : r <> [] -> l ++ r <> l.
Proof. intros Hr E. apply Hr. apply (app_inv_head l). by rewrite app_nil_r. Qed.

(** The handler of a command. *)
Definition command_handler (command opt : Z) (tw : WindRec) : outcome WindRec :=
  if command =? TEL_DOTEL then telnet_do opt tw
  else if command =? TEL_DONTTEL then telnet_dont opt tw
  else if command =? TEL_WILLTEL then telnet_will opt tw
  else telnet_wont opt tw.

(** ** The environment reply *)

(** A byte of a name or value, escaped as RFC 1572 asks. *)
Definition env_escape (c : Z) : bytes :=
  if c =? IAC then [IAC; IAC]
  else if (c =? NEW_ENV_VAR) || (c =? NEW_ENV_VALUE) || (c =? ENV_ESC) || (c =? ENV_USERVAR) then [ENV_ESC; c]
  else [c].

(** The reference decoder: a string ends at an unescaped marker or at IAC SE. *)
Fixpoint env_string (l : bytes) : option (bytes * bytes) :=
  match l with
  | 255 :: 255 :: r => '(s, t) ← env_string r; Some (255 :: s, t)
  | 255 :: 240 :: r => Some ([], l)
  | 255 :: _ => None
  | 2 :: c :: r => '(s, t) ← env_string r; Some (c :: s, t)
  | 0 :: _ | 1 :: _ | 3 :: _ => Some ([], l)
  | c :: r => '(s, t) ← env_string r; Some (c :: s, t)
  | [] => None
  end.

(** One well-known variable and its value. *)
Definition decode_env (l : bytes) : option (bytes * bytes) :=
  match l with
  | 255 :: 250 :: 39 :: 0 :: 0 :: r =>
      '(name, r) ← env_string r;
      match r with
      | 1 :: r =>
          '(value, r) ← env_string r;
          match r with [255; 240] => Some (name, value) | _ => None end
      | _ => None
      end
  | _ => None
  end.

Lemma opt_put_fits c r : zlen r < 256 -> opt_put c r = Done (r ++ [c]).
Proof. intros H. unfold opt_put, OPT_REPLY_SIZE. by rewrite (proj2 (Z.ltb_lt _ _) H). Qed.
Lemma opt_put_full c r : 256 <= zlen r -> opt_put c r = Crash OutOfBounds.
Proof. intros H. unfold opt_put, OPT_REPLY_SIZE. by rewrite (proj2 (Z.ltb_ge _ _) H). Qed.

(** Two [opt_put]s in a row. *)
Lemma opt_put_two a b r :
  (r1 ← opt_put a r; opt_put b r1) = if zlen r + 2 <=? 256 then Done (r ++ [a; b]) else Crash OutOfBounds.
Proof.
  destruct (Z.leb_spec (zlen r + 2) 256).
  - rewrite opt_put_fits by lia. cbn [mbind outcome_bind].
    rewrite opt_put_fits by (rewrite zlen_app, zlen_cons, zlen_nil; lia). by rewrite <- app_assoc.
  - destruct (decide (zlen r < 256)).
    + rewrite opt_put_fits by lia. cbn [mbind outcome_bind].
      apply opt_put_full. rewrite zlen_app, zlen_cons, zlen_nil. lia.
    + by rewrite opt_put_full by lia.
Qed.

Lemma zlen_env_escape c : 1 <= zlen (env_escape c) <= 2.
Proof. unfold env_escape. destruct (c =? IAC); [by cbn|]. by destruct (_ || _). Qed.

Lemma env_put c r :
  (reply ← (if c =? IAC then opt_put IAC r
            else if (c =? NEW_ENV_VAR) || (c =? NEW_ENV_VALUE) || (c =? ENV_ESC) || (c =? ENV_USERVAR)
                 then opt_put ENV_ESC r else Done r);
   opt_put c reply)
  = if zlen r + zlen (env_escape c) <=? 256 then Done (r ++ env_escape c) else Crash OutOfBounds.
Proof.
  unfold env_escape. destruct (c =? IAC) eqn:E.
  - apply Z.eqb_eq in E as ->. apply opt_put_two.
  - destruct (_ || _); [apply opt_put_two|]. cbn [mbind outcome_bind]. change (zlen [c]) with 1.
    destruct (Z.leb_spec (zlen r + 1) 256); [apply opt_put_fits | apply opt_put_full]; lia.
Qed.

Lemma env_chars_spec ep : forall r,
  zlen r <= 256 -> Forall (fun c => c <> 0) ep ->
  env_chars ep r = if zlen r + zlen (ep ≫= env_escape) <=? 256 then Done (r ++ (ep ≫= env_escape)) else Crash OutOfBounds.
Proof.
  induction ep as [|c ep IH]; intros r Hr Hn.
  { cbn [env_chars mbind list_bind]. rewrite zlen_nil, app_nil_r. by rewrite (proj2 (Z.leb_le _ _)) by lia. }
  inversion_clear Hn as [|? ? Hc He].
  change ((c :: ep) ≫= env_escape) with (env_escape c ++ (ep ≫= env_escape)). rewrite zlen_app.
  cbn [env_chars]. rewrite (proj2 (Z.eqb_neq _ _) Hc).
  pose proof (zlen_env_escape c). pose proof (zlen_nonneg (ep ≫= env_escape)).
  assert (E : forall (X : outcome bytes) (Y k : bytes -> outcome bytes), (reply ← X; reply ← Y reply; k reply) = ((reply ← X; Y reply) ≫= k)).
  { intros X Y k. by destruct X. }
  rewrite E, env_put. destruct (Z.leb_spec (zlen r + zlen (env_escape c)) 256); cbn [mbind outcome_bind].
  - rewrite IH by (done || rewrite zlen_app; lia). rewrite zlen_app, <- app_assoc, Z.add_assoc. done.
  - by rewrite (proj2 (Z.leb_gt _ _)) by lia.
Qed.

Lemma env_string_escape s t :
  bytes_ok s -> (exists r, t = 1 :: r \/ t = 255 :: 240 :: r) -> env_string ((s ≫= env_escape) ++ t) = Some (s, t).
Proof.
  intros Hs (r & Ht). induction Hs as [|c s Hc _ IH]; [by destruct Ht as [-> | ->]|].
  change ((c :: s) ≫= env_escape) with (env_escape c ++ (s ≫= env_escape)). rewrite <- app_assoc.
  assert (E : forall x, env_string (env_escape c ++ x) = '(s, t) ← env_string x; Some (c :: s, t)).
  { intros x. unfold is_byte in Hc. unfold env_escape, IAC, NEW_ENV_VAR, NEW_ENV_VALUE, ENV_ESC, ENV_USERVAR.
    destruct c as [|c|c]; [done| |lia].
    do 8 (destruct c as [c|c|]; try done; try lia). }
  by rewrite E, IH.
Qed.

Lemma cstr_no_nul s : Forall (fun c => c <> 0) s -> cstr s = s.
Proof. induction 1 as [|c s Hc _ IH]; [done|]. cbn [cstr]. by rewrite (proj2 (Z.eqb_neq _ _) Hc), IH. Qed.

Definition user_name : bytes := bytes_of_string "USER".

Lemma env_request_spec tw u :
  parsedat tw !! 0%nat = Some N_NEW_ENVIRON -> parsedat tw !! 1%nat = Some TNQ_SEND ->
  username tw = u -> Forall (fun c => c <> 0) u ->
  process_suboption tw =
    if 12 + zlen (u ≫= env_escape) <=? 256 then
      Done (netwrite ([255; 250; 39; 0; 0] ++ user_name ++ [1] ++ (u ≫= env_escape) ++ [255; 240]) tw)
    else Crash OutOfBounds.
Proof.
  intros H0 H1 Hu Hn. unfold process_suboption.
  rewrite (arr_get_Done _ 0 _ ltac:(lia) H0), (arr_get_Done _ 1 _ ltac:(lia) H1). cbn [mbind outcome_bind].
  assert (Eu : tw <| username := cstr (username tw) |> = tw) by (rewrite Hu, cstr_no_nul, <- Hu by done; by destruct tw).
  rewrite Eu, Hu. change (env_opt_start) with (Done [255; 250; 39; 0] : outcome bytes).
  cbn [Z.eqb N_NEW_ENVIRON N_TERMTYP N_ENCRYPT N_AUTHENTICATION N_LINEMODE N_REMOTEFLOW TNQ_SEND Pos.eqb mbind outcome_bind].
  change (env_opt_add (bytes_of_string "USER") u [255; 250; 39; 0])
    with (env_chars u [255; 250; 39; 0; 0; 85; 83; 69; 82; 1]).
  rewrite env_chars_spec by (done || by cbn). set (e := u ≫= env_escape).
  change (zlen [255; 250; 39; 0; 0; 85; 83; 69; 82; 1]) with 10.
  destruct (Z.leb_spec (10 + zlen e) 256) as [H10|H10]; cbn [mbind outcome_bind].
  - unfold env_opt_end. rewrite opt_put_two, zlen_app. change (zlen [255; 250; 39; 0; 0; 85; 83; 69; 82; 1]) with 10.
    replace (10 + zlen e + 2) with (12 + zlen e) by lia.
    destruct (12 + zlen e <=? 256); [|done]. cbn [mbind outcome_bind]. rewrite <- app_assoc. reflexivity.
  - by rewrite (proj2 (Z.leb_gt _ _)) by lia.
Qed.

Lemma decode_env_spec n u :
  bytes_ok n -> bytes_ok u ->
  decode_env ([255; 250; 39; 0; 0] ++ (n ≫= env_escape) ++ 1 :: (u ≫= env_escape) ++ [255; 240]) = Some (n, u).
Proof.
  intros Hn Hu. cbn [app decode_env]. rewrite env_string_escape by (done || by eexists; left).
  cbn [mbind option_bind]. rewrite env_string_escape by (done || by exists []; right). done.
Qed.

(** A request for the environment is answered with the user name exactly
    as long as the reply fits its 256-byte buffer: the peer decodes the
    variable USER with the name, all bytes included, whatever markers and
    IACs it contains; a longer reply is written past the end of [opt_reply]. *)
Theorem env_reply_roundtrip tw u :
  parsedat tw !! 0%nat = Some N_NEW_ENVIRON -> parsedat tw !! 1%nat = Some TNQ_SEND ->
  username tw = u -> bytes_ok u -> Forall (fun c => c <> 0) u ->
  (12 + zlen (u ≫= env_escape) <= OPT_REPLY_SIZE ->
     exists reply, process_suboption tw = Done (netwrite reply tw) /\ decode_env reply = Some (user_name, u))
  /\ (OPT_REPLY_SIZE < 12 + zlen (u ≫= env_escape) -> process_suboption tw = Crash OutOfBounds).
Proof.
  intros H0 H1 Hu Hb Hn. rewrite (env_request_spec tw u) by done. unfold OPT_REPLY_SIZE. split; intros Hl.
  - rewrite (proj2 (Z.leb_le _ _)) by lia. eexists. split; [reflexivity|].
    apply (decode_env_spec user_name u); [apply bytes_of_string_ok | done].
  - by rewrite (proj2 (Z.leb_gt _ _)) by lia.
Qed.

Lemma env_reply_roundtrip_witness :
  let tw := sample_window <| username := [3; 255; 97] |> <| parsedat := 39 :: 1 :: replicate 448 0 |> in
  exists reply, process_suboption tw = Done (netwrite reply tw)
  /\ decode_env reply = Some (user_name, [3; 255; 97])
  /\ reply = [255; 250; 39; 0; 0; 85; 83; 69; 82; 1; 2; 3; 255; 255; 97; 255; 240].
Proof.
  intros tw. destruct (proj1 (env_reply_roundtrip tw [3; 255; 97] eq_refl eq_refl eq_refl
    ltac:(by apply (bool_decide_unpack _)) ltac:(by repeat constructor))) as (reply & E & D); [by vm_compute|].
  exists reply. split; [exact E|]. split; [exact D|].
  assert (E' : sent (netwrite reply tw) = reply) by (rewrite sent_netwrite; reflexivity).
  rewrite <- E'. assert (Hs : forall t, process_suboption tw = Done t -> sent t = [255; 250; 39; 0; 0; 85; 83; 69; 82; 1; 2; 3; 255; 255; 97; 255; 240]).
  { intros t Et. vm_compute in Et. injection Et as <-. reflexivity. }
  apply Hs, E.
Defined.

(** ** The window size *)

(** The payload of a window-size suboption (RFC 1073). *)
Definition decode_naws (l : bytes) : option (Z * Z) :=
  match l with
  | [255; 250; 31; wh; wl; hh; hl; 255; 240] =>
      if bool_decide (IAC ∈ [wh; wl; hh; hl]) then None else Some (256 * wh + wl, 256 * hh + hl)
  | _ => None
  end.

(** The window-size report is one well-formed suboption whose payload
    never contains IAC: the peer decodes the true size when both dimensions
    are below 255, the size modulo 256 in general, with 254 in place of 255;
    nothing is sent over another protocol than Telnet. *)
Theorem naws_report w h tw :
  0 <= w -> 0 <= h ->
  exists reply, SendNAWSinfo w h tw = netwrite reply tw
  /\ (protocol tw <> 0 -> reply = [])
  /\ (protocol tw = 0 ->
        decode_naws reply = Some (if w mod 256 =? 255 then 254 else w mod 256,
                                  if h mod 256 =? 255 then 254 else h mod 256))
  /\ (protocol tw = 0 -> w < 255 -> h < 255 -> decode_naws reply = Some (w, h)).
Proof.
  intros Hw Hh. unfold SendNAWSinfo. rewrite !land_255.
  pose proof (Z.mod_pos_bound w 256 ltac:(lia)). pose proof (Z.mod_pos_bound h 256 ltac:(lia)).
  destruct (Z.eqb_spec (protocol tw) 0) as [Ep|Ep]; cbn [negb].
  2: { exists []. unfold netwrite. rewrite emit_nil. split_and!; [done..|tauto|tauto]. }
  rewrite !netwrite_app. cbn [app]. eexists. split; [reflexivity|]. split; [done|].
  set (w' := if w mod 256 =? 255 then 254 else w mod 256). set (h' := if h mod 256 =? 255 then 254 else h mod 256).
  assert (Hd : decode_naws [255; 250; 31; 0; w'; 0; h'; 255; 240] = Some (w', h')).
  { assert (0 <= w' < 255 /\ 0 <= h' < 255) as [? ?].
    { subst w' h'. destruct (Z.eqb_spec (w mod 256) 255), (Z.eqb_spec (h mod 256) 255); lia. }
    unfold decode_naws. rewrite bool_decide_eq_false_2; [by rewrite !Z.mul_0_r|].
    unfold IAC. intros Hin. set_unfold in Hin. lia. }
  split; [by intros|]. intros _ Hw' Hh'. rewrite Hd. subst w' h'. rewrite !Z.mod_small by lia.
  by rewrite !(proj2 (Z.eqb_neq _ 255)) by lia.
Qed.

Lemma naws_report_witness :
  exists reply, SendNAWSinfo 80 24 sample_window = netwrite reply sample_window
  /\ decode_naws reply = Some (80, 24).
Proof.
  destruct (naws_report 80 24 sample_window) as (reply & E & _ & _ & D); [lia..|].
  exists reply. split; [exact E|]. apply D; [reflexivity|lia|lia].
Defined.

(** ** Every command *)

(** The arrays the handlers use have their sizes. *)
Definition session_ok (tw : WindRec) : Prop :=
  zlen (myopts tw) = MHOPTS_SIZE /\ zlen (hisopts tw) = MHOPTS_SIZE /\ zlen (slc tw) = 31 /\ kb_ok tw.

#[export] Instance session_ok_dec tw : Decision (session_ok tw).
Proof. unfold session_ok. apply _. Defined.

Definition do_options : list Z :=
  [N_SGA; N_TERMTYP; N_NAWS; N_LINEMODE; N_AUTHENTICATION; N_ENCRYPT; N_NEW_ENVIRON; N_REMOTEFLOW].
Definition will_options : list Z :=
  [N_ECHO; N_SGA; N_TIMING; N_AUTHENTICATION; N_ENCRYPT; N_REMOTEFLOW].

(** [m] returns a well-formed session that has only sent more. *)
Definition runs (tw : WindRec) (m : outcome WindRec) : Prop :=
  exists tw' reply, m = Done tw' /\ session_ok tw' /\ sent tw' = sent tw ++ reply.

Lemma runs_Done tw tw' reply : session_ok tw' -> sent tw' = sent tw ++ reply -> runs tw (Done tw').
Proof. intros. by exists tw', reply. Qed.
Lemma runs_same tw tw' : session_ok tw' -> sent tw' = sent tw -> runs tw (Done tw').
Proof. intros. apply (runs_Done _ _ []); [done|]. by rewrite app_nil_r. Qed.
Lemma runs_send tw c o tw' : session_ok tw' -> sent tw' = sent tw -> runs tw (Done (send_option c o tw')).
Proof. intros H E. apply (runs_Done _ _ [IAC; c; u8 o]); [exact H|]. by rewrite sent_send_option, E. Qed.

Lemma SendNAWSinfo_sent w h tw : exists r, SendNAWSinfo w h tw = netwrite r tw.
Proof.
  unfold SendNAWSinfo. destruct (negb _); [exists []; unfold netwrite; by rewrite emit_nil|].
  rewrite !netwrite_app. by eexists.
Qed.

Lemma doLinemode_loop_runs idx : forall tw,
  session_ok tw -> Forall (fun i => 0 <= i < 31) idx -> runs tw (doLinemode_loop idx tw).
Proof.
  induction idx as [|i idx IH]; intros tw Hok Hi; cbn [doLinemode_loop]; [by apply runs_same|].
  inversion_clear Hi as [|? ? H0 Ht]. pose proof Hok as (_ & _ & Hs & _). unfold doLinemode_entry.
  destruct (arr_get_lookup (slc tw) i) as (v & _ & ->); [lia|]. cbn [mbind outcome_bind].
  set (d := if v =? 255 then _ else _).
  destruct (IH (netwrite d tw) Hok Ht) as (tw' & r & E & Hok' & Es).
  exists tw', (d ++ r). rewrite Es, sent_netwrite, <- app_assoc. done.
Qed.

Lemma doLinemode_runs tw : session_ok tw -> runs tw (doLinemode tw).
Proof.
  intros Hok. unfold doLinemode.
  destruct (doLinemode_loop_runs (Z.of_nat <$> seq 1 30)
    (netwrite subBeginSeq (tw <| lmodeBits := 0 |> <| lmode := 1 |> <| litNext := 0 |>)))
    as (tw' & r & -> & Hok' & Es); [exact Hok | by apply (bool_decide_unpack _) |].
  cbn [mbind outcome_bind]. apply (runs_Done _ _ (subBeginSeq ++ r ++ subEndSeq)); [exact Hok'|].
  rewrite sent_netwrite, Es, sent_netwrite, <- !app_assoc. done.
Qed.

Lemma kbflush_runs tw : session_ok tw -> runs tw (kbflush tw).
Proof.
  intros (H1 & H2 & H3 & Hk). destruct (kbflush_ok tw Hk) as (tw' & E & Hk' & _ & Es & _).
  assert (myopts tw' = myopts tw /\ hisopts tw' = hisopts tw /\ slc tw' = slc tw) as (E1 & E2 & E3).
  { unfold kbflush in E. destruct (negb _); [destruct (_ && _); [|done]|]; by injection E as <-. }
  exists tw', (pending tw). unfold session_ok. by rewrite E1, E2, E3.
Qed.

Lemma set_option_ok (o : Z) (v : Z) (l : bytes) :
  zlen l = MHOPTS_SIZE -> o = N_AUTHENTICATION \/ o = N_ENCRYPT ->
  exists l', arr_set (o - MHOPTS_BASE) v l = Done l' /\ zlen l' = MHOPTS_SIZE.
Proof.
  intros Hl Ho. unfold MHOPTS_SIZE, MHOPTS_BASE, N_AUTHENTICATION, N_ENCRYPT in *.
  rewrite arr_set_Done by lia. eexists. split; [done|]. by rewrite zlen_insert.
Qed.

Lemma get_option_ok (o : Z) (l : bytes) :
  zlen l = MHOPTS_SIZE -> o = N_AUTHENTICATION \/ o = N_ENCRYPT ->
  exists v, arr_get l (o - MHOPTS_BASE) = Done v.
Proof.
  intros Hl Ho. unfold MHOPTS_SIZE, MHOPTS_BASE, N_AUTHENTICATION, N_ENCRYPT in *.
  destruct (arr_get_lookup l (o - 37)) as (v & _ & E); [lia|]. by exists v.
Qed.

Ltac runs_tac :=
  repeat match goal with
  | |- runs _ (if ?b then _ else _) => destruct b
  | |- runs _ (Done (if ?b then _ else _)) => destruct b
  | |- runs _ (Done (send_option _ _ _)) => apply runs_send
  | |- runs _ (Done _) => apply runs_same
  end.

Lemma telnet_do_runs opt tw : session_ok tw -> runs tw (telnet_do opt tw).
Proof.
  intros Hok. pose proof Hok as (Hm & Hh & Hs & Hk). unfold telnet_do, send_will, send_wont. cbv zeta.
  destruct (opt =? N_SGA); [by runs_tac|]. destruct (opt =? N_TERMTYP); [by runs_tac|].
  destruct (opt =? N_NAWS).
  { match goal with |- context [SendNAWSinfo ?w ?h ?t] => destruct (SendNAWSinfo_sent w h t) as [r ->] end.
    apply (runs_Done _ _ ([IAC; TEL_WILLTEL; N_NAWS] ++ r)); [exact Hok|].
    by rewrite sent_netwrite, sent_send_option, <- app_assoc. }
  destruct (opt =? N_LINEMODE).
  { destruct (negb _); [|by runs_tac].
    destruct (doLinemode_runs (send_option TEL_WILLTEL N_LINEMODE tw) Hok) as (tw' & r & -> & Hok' & Es).
    apply (runs_Done _ _ ([IAC; TEL_WILLTEL; N_LINEMODE] ++ r)); [exact Hok'|].
    by rewrite Es, sent_send_option, <- app_assoc. }
  destruct (opt =? N_AUTHENTICATION).
  { destruct (get_option_ok N_AUTHENTICATION _ Hm) as [v ->]; [by left|]. cbn [mbind outcome_bind].
    destruct (set_option_ok N_AUTHENTICATION 1 _ Hm) as (l & -> & Hl); [by left|]. cbn [mbind outcome_bind]. by runs_tac. }
  destruct (opt =? N_ENCRYPT).
  { destruct (get_option_ok N_ENCRYPT _ Hm) as [v ->]; [by right|]. cbn [mbind outcome_bind].
    destruct (set_option_ok N_ENCRYPT 1 _ Hm) as (l & -> & Hl); [by right|]. cbn [mbind outcome_bind]. by runs_tac. }
  by runs_tac.
Qed.

Lemma telnet_dont_runs opt tw : session_ok tw -> runs tw (telnet_dont opt tw).
Proof.
  intros Hok. pose proof Hok as (Hm & Hh & Hs & Hk). unfold telnet_dont, send_wont.
  destruct ((opt =? N_ENCRYPT) || (opt =? N_AUTHENTICATION)) eqn:E.
  { apply orb_prop in E. rewrite !Z.eqb_eq in E.
    destruct (set_option_ok opt 0 _ Hm) as (l & -> & Hl); [tauto|]. cbn [mbind outcome_bind]. by runs_tac. }
  destruct (opt =? N_LINEMODE); [|by runs_tac]. destruct (negb _); [|by runs_tac].
  destruct (kbflush_runs (send_option TEL_WONTTEL N_LINEMODE tw) Hok) as (tw' & r & -> & Hok' & Es).
  cbn [mbind outcome_bind]. apply (runs_Done _ _ ([IAC; TEL_WONTTEL; N_LINEMODE] ++ r)); [exact Hok'|].
  change (sent tw' = sent tw ++ [IAC; TEL_WONTTEL; N_LINEMODE] ++ r). by rewrite Es, sent_send_option, <- app_assoc.
Qed.

Lemma telnet_will_runs opt tw : session_ok tw -> runs tw (telnet_will opt tw).
Proof.
  intros Hok. pose proof Hok as (Hm & Hh & Hs & Hk). unfold telnet_will, send_do, send_dont.
  destruct (opt =? N_ECHO); [by runs_tac|]. destruct (opt =? N_SGA); [by runs_tac|].
  destruct (opt =? N_TIMING); [by runs_tac|].
  destruct (opt =? N_AUTHENTICATION).
  { destruct (get_option_ok N_AUTHENTICATION _ Hh) as [v ->]; [by left|]. cbn [mbind outcome_bind].
    destruct (set_option_ok N_AUTHENTICATION 1 _ Hh) as (l & -> & Hl); [by left|]. cbn [mbind outcome_bind]. by runs_tac. }
  destruct (opt =? N_ENCRYPT).
  { destruct (get_option_ok N_ENCRYPT _ Hh) as [v ->]; [by right|]. cbn [mbind outcome_bind].
    destruct (set_option_ok N_ENCRYPT 1 _ Hh) as (l & -> & Hl); [by right|]. cbn [mbind outcome_bind]. by runs_tac. }
  destruct (opt =? N_REMOTEFLOW); [destruct (remote_flow tw =? 0)|]; [|by runs_tac..].
  apply (runs_Done _ _ ([IAC; TEL_DOTEL; N_REMOTEFLOW] ++ [IAC; TEL_DONTTEL; u8 opt])); [exact Hok|].
  by rewrite !sent_send_option, <- app_assoc.
Qed.

Lemma telnet_wont_runs opt tw : session_ok tw -> runs tw (telnet_wont opt tw).
Proof.
  intros Hok. pose proof Hok as (Hm & Hh & Hs & Hk). unfold telnet_wont, send_dont.
  destruct (opt =? N_ECHO); [by runs_tac|]. destruct (opt =? N_SGA); [by runs_tac|].
  destruct (opt =? N_TIMING); [by runs_tac|].
  destruct ((opt =? N_ENCRYPT) || (opt =? N_AUTHENTICATION)) eqn:E; [|by runs_tac].
  apply orb_prop in E. rewrite !Z.eqb_eq in E.
  destruct (set_option_ok opt 0 _ Hh) as (l & -> & Hl); [tauto|]. cbn [mbind outcome_bind]. by runs_tac.
Qed.

(** No command harms the session: whatever option byte follows DO, DONT,
    WILL or WONT, the handler returns, the session's arrays keep their sizes
    and it only sends; an option the program does not know is refused by
    exactly one WONT or DONT when requested or offered, and otherwise
    ignored, without any other effect. *)
Theorem commands_total command opt tw :
  session_ok tw -> is_byte opt ->
  runs tw (command_handler command opt tw)
  /\ (command = TEL_DOTEL -> opt ∉ do_options ->
        command_handler command opt tw = Done (netwrite [IAC; TEL_WONTTEL; opt] tw))
  /\ (command = TEL_WILLTEL -> opt ∉ will_options ->
        command_handler command opt tw = Done (netwrite [IAC; TEL_DONTTEL; opt] tw))
  /\ (command = TEL_DONTTEL \/ command = TEL_WONTTEL -> opt ∉ do_options ++ will_options ->
        command_handler command opt tw = Done tw).
Proof.
  intros Hok Hb. split_and!.
  - unfold command_handler. repeat match goal with |- runs _ (if ?b then _ else _) => destruct b end;
      auto using telnet_do_runs, telnet_dont_runs, telnet_will_runs, telnet_wont_runs.
  - intros -> Ho. unfold do_options in Ho. unfold command_handler, telnet_do, send_wont, send_option.
    rewrite Z.eqb_refl, !(proj2 (Z.eqb_neq opt _)) by set_solver. by rewrite u8_small.
  - intros -> Ho. unfold will_options in Ho. unfold command_handler, telnet_will, send_dont, send_option.
    change (TEL_WILLTEL =? TEL_DOTEL) with false. change (TEL_WILLTEL =? TEL_DONTTEL) with false.
    rewrite Z.eqb_refl, !(proj2 (Z.eqb_neq opt _)) by set_solver. by rewrite u8_small.
  - unfold do_options, will_options. intros Hc Ho. unfold command_handler, telnet_dont, telnet_wont.
    destruct Hc as [-> | ->]; cbn [Z.eqb Pos.eqb TEL_DONTTEL TEL_WONTTEL TEL_DOTEL TEL_WILLTEL];
      by rewrite !(proj2 (Z.eqb_neq opt _)) by set_solver.
Qed.

Lemma commands_total_witness :
  session_ok sample_window
  /\ command_handler TEL_WILLTEL 200 sample_window = Done (netwrite [255; 254; 200] sample_window).
Proof.
  assert (H : session_ok sample_window) by (apply (bool_decide_unpack _); by vm_compute).
  split; [exact H|].
  apply (proj1 (proj2 (proj2 (commands_total TEL_WILLTEL 200 sample_window H ltac:(done))))); [reflexivity|].
  by apply (bool_decide_unpack _).
Defined.

(** ** The loop rule *)

(** Everything the program remembers of the options. *)
Definition option_state (tw : WindRec) : Z * Z * Z * Z * Z * Z * Z * bytes * bytes :=
  (echo tw, Usga tw, Isga tw, Ittype tw, remote_flow tw, naws tw, lmode tw, myopts tw, hisopts tw).











Lemma option_state_table tw tw' :
  (myopts tw', hisopts tw') <> (myopts tw, hisopts tw) -> option_state tw' <> option_state tw.
Proof. unfold option_state. congruence. Qed.















(** The answer to WILL TOGGLE-FLOW-CONTROL contradicts itself: the first
    offer is accepted and refused in one breath, as a [break] is missing, and
    every later one refused, although [remote_flow] stays set. *)
Theorem will_remoteflow_contradicts tw :
  exists tw', telnet_will N_REMOTEFLOW tw = Done tw' /\
  (if remote_flow tw =? 0
   then remote_flow tw' = 1
        /\ sent tw' = sent tw ++ [IAC; TEL_DOTEL; N_REMOTEFLOW] ++ [IAC; TEL_DONTTEL; N_REMOTEFLOW]
   else remote_flow tw' = remote_flow tw /\ sent tw' = sent tw ++ [IAC; TEL_DONTTEL; N_REMOTEFLOW]).
Proof.
  unfold telnet_will. cbn [Z.eqb N_REMOTEFLOW N_ECHO N_SGA N_TIMING N_AUTHENTICATION N_ENCRYPT Pos.eqb].
  unfold send_do, send_dont. destruct (remote_flow tw =? 0); (eexists; split; [reflexivity|]).
  - split; [reflexivity|]. rewrite !sent_send_option, <- app_assoc. reflexivity.
  - split; [reflexivity|]. by rewrite sent_send_option.
Qed.

(** ** The opening of a connection *)

(** A message of the remote-login protocols: strings, each ended by a NUL. *)
Definition nul_strings (l : list bytes) : bytes := l ≫= fun s => s ++ [0].

Lemma netwrite_nil tw : netwrite [] tw = tw.
Proof. apply emit_nil. Qed.
Lemma netwrite_echo d v tw : netwrite d (tw <| echo := v |>) = (netwrite d tw) <| echo := v |>.
Proof. done. Qed.
Lemma netwrite_Usga d v tw : netwrite d (tw <| Usga := v |>) = (netwrite d tw) <| Usga := v |>.
Proof. done. Qed.
Lemma netwrite_if (b : bool) x y tw : (if b then netwrite x tw else netwrite y tw) = netwrite (if b then x else y) tw.
Proof. by destruct b. Qed.

(** The three strings of the remote-login protocols. *)
Definition remote_login (tw : WindRec) : list bytes :=
  let user := if (protocol tw =? 3) || (zlen (clientuser tw) =? 0) then username tw else clientuser tw in
  if protocol tw =? 1 then [[]; user; username tw; answerback tw ++ bytes_of_string "/9600"]
  else if protocol tw =? 2 then [[]; user; username tw; command tw]
  else [[]; username tw; password tw; command tw].

Ltac fold_netwrite :=
  repeat match goal with
  | |- context [protocol (netwrite ?d ?t)] => change (protocol (netwrite d t)) with (protocol t)
  | |- context [username (netwrite ?d ?t)] => change (username (netwrite d t)) with (username t)
  | |- context [clientuser (netwrite ?d ?t)] => change (clientuser (netwrite d t)) with (clientuser t)
  | |- context [password (netwrite ?d ?t)] => change (password (netwrite d t)) with (password t)
  | |- context [answerback (netwrite ?d ?t)] => change (answerback (netwrite d t)) with (answerback t)
  | |- context [command (netwrite ?d ?t)] => change (command (netwrite d t)) with (command t)
  | |- context [if _ then netwrite _ _ else netwrite _ _] => rewrite netwrite_if
  | |- context [netwrite _ (netwrite _ _)] => rewrite netwrite_app
  end.

Lemma remote_login_options tw :
  1 <= protocol tw <= 3 ->
  telnet_send_initial_options tw
  = Done ((netwrite (nul_strings (remote_login tw)) tw) <| echo := 0 |> <| Usga := 1 |>).
Proof.
  intros Hp. unfold telnet_send_initial_options, remote_login, nul_strings.
  rewrite (proj2 (Z.leb_le 1 _)), (proj2 (Z.leb_le _ 3)) by lia. cbn [andb]. cbv zeta.
  assert (protocol tw = 1 \/ protocol tw = 2 \/ protocol tw = 3) as [Ep|[Ep|Ep]] by lia;
    fold_netwrite; rewrite Ep; cbn [Z.eqb Pos.eqb orb]; fold_netwrite;
    cbn [mbind list_bind app]; rewrite <- ?app_assoc; reflexivity.
Qed.

Lemma telnet_options tw :
  ~ 1 <= protocol tw <= 3 -> authOK tw = false -> protocol tw <> 4 ->
  telnet_send_initial_options tw
  = Done ((netwrite (if (protocol tw =? 0) && ((portNum tw =? 23) || negb (portNegative tw =? 0))
                then [IAC; TEL_DOTEL; N_ECHO; IAC; TEL_DOTEL; N_SGA; IAC; TEL_WONTTEL; N_XDISPLOC; IAC; TEL_WILLTEL; N_NAWS]
                else []) tw) <| echo := 1 |> <| Usga := 1 |>).
Proof.
  intros Hp Ha H4. unfold telnet_send_initial_options.
  assert ((1 <=? protocol tw) && (protocol tw <=? 3) = false) as ->.
  { destruct (Z.leb_spec 1 (protocol tw)), (Z.leb_spec (protocol tw) 3); try done; lia. }
  rewrite (proj2 (Z.eqb_neq _ _) H4). cbn [negb andb]. cbv zeta. rewrite Ha, andb_false_r. cbn [mbind outcome_bind].
  rewrite (proj2 (Z.eqb_neq _ _) H4).
  destruct (protocol tw =? 0); cbn [negb andb]; [|by rewrite netwrite_nil].
  destruct ((portNum tw =? 23) || negb (portNegative tw =? 0)); [|by rewrite netwrite_nil].
  unfold send_do, send_wont, send_will, send_option.
  rewrite !netwrite_echo, !netwrite_Usga, !netwrite_echo, !netwrite_app. reflexivity.
Qed.

(** What is sent when a connection opens is what the protocol asks:
    rlogin, rsh and rexec (1, 2, 3) get the empty string and then their three
    strings, with the client user defaulting to the server user; Telnet on
    its port gets DO ECHO, DO SGA, WONT X-DISPLAY-LOCATION and WILL NAWS and
    on other ports nothing; other protocols get nothing. The echo and
    go-ahead flags are set to match. *)
Theorem initial_options_by_protocol tw :
  authOK tw = false -> protocol tw <> 4 ->
  exists tw' reply, telnet_send_initial_options tw = Done tw' /\ sent tw' = sent tw ++ reply
  /\ Usga tw' = 1
  /\ (protocol tw = 1 ->
        echo tw' = 0 /\ reply = nul_strings [[]; (if zlen (clientuser tw) =? 0 then username tw else clientuser tw);
                            username tw; answerback tw ++ bytes_of_string "/9600"])
  /\ (protocol tw = 2 ->
        echo tw' = 0 /\ reply = nul_strings [[]; (if zlen (clientuser tw) =? 0 then username tw else clientuser tw);
                            username tw; command tw])
  /\ (protocol tw = 3 ->
        echo tw' = 0 /\ reply = nul_strings [[]; username tw; password tw; command tw])
  /\ (~ 1 <= protocol tw <= 3 -> echo tw' = 1 /\
        reply = if (protocol tw =? 0) && ((portNum tw =? 23) || negb (portNegative tw =? 0))
                then [IAC; TEL_DOTEL; N_ECHO; IAC; TEL_DOTEL; N_SGA; IAC; TEL_WONTTEL; N_XDISPLOC; IAC; TEL_WILLTEL; N_NAWS]
                else []).
Proof.
  intros Ha H4. destruct (decide (1 <= protocol tw <= 3)) as [Hp|Hp].
  - rewrite (remote_login_options tw Hp). eexists _, _. split; [reflexivity|].
    split; [apply (sent_netwrite _ tw)|]. split; [reflexivity|]. unfold remote_login.
    split_and!; intros Ep; rewrite ?Ep; cbn [Z.eqb Pos.eqb orb]; try done.
  - rewrite telnet_options by done. eexists _, _. split; [reflexivity|].
    split; [apply (sent_netwrite _ tw)|]. split; [reflexivity|]. split_and!; try lia. intros _. split; reflexivity.
Qed.

Lemma initial_options_by_protocol_witness :
  exists tw', telnet_send_initial_options sample_window = Done tw'
  /\ sent tw' = [255; 253; 1; 255; 253; 3; 255; 252; 35; 255; 251; 31].
Proof.
  destruct (initial_options_by_protocol sample_window) as (tw' & r & E & Es & _ & _ & _ & _ & H);
    [reflexivity | discriminate |].
  exists tw'. split; [exact E|]. rewrite Es. apply (proj2 (H ltac:(by cbn; lia))).
Defined.

End Negotiation.
