(* ===== verification/Watch.v ===== *)
(** The two watchers of the text (parse/parse.c): the search for a string of
    the [wait] command (with its set-up in ae/ae.c) is shown to be a correct
    Knuth-Morris-Pratt search, and the extraction of one-time-password
    challenges to stay in its buffers and to find the challenge. *)
From S2P Require Import Prelude Window Linemode Telnet.
Import Window TelnetConstants Linemode Telnet.

Module Watch.

(** ** Borders *)

(** [k] is a border of the text [t] in the pattern [p]: the first [k] bytes
    of [p] are the last [k] of [t]. *)
Definition border (p t : bytes) (k : nat) : Prop :=
  (k <= length p)%nat /\ (k <= length t)%nat /\ drop (length t - k) t = take k p.

(** The longest border not longer than [n]. *)
Definition longest (p t : bytes) (n k : nat) : Prop :=
  border p t k /\ (k <= n)%nat /\ forall j, border p t j -> (j <= n)%nat -> (j <= k)%nat.

Lemma border_0 p t : border p t 0.
Proof. split_and!; try lia. by rewrite Nat.sub_0_r, drop_all. Qed.

Lemma drop_app_last {A} (t : list A) c k :
  (k <= length t)%nat -> drop (length (t ++ [c]) - S k) (t ++ [c]) = drop (length t - k) t ++ [c].
Proof.
  intros Hk. rewrite length_app. cbn [length]. replace (length t + 1 - S k)%nat with (length t - k)%nat by lia.
  rewrite drop_app_le by lia. done.
Qed.

(** A border of a longer text is a border of the shorter one, extended. *)
Lemma border_snoc p t c k :
  border p (t ++ [c]) (S k) <-> border p t k /\ p !! k = Some c.
Proof.
  unfold border. rewrite length_app. cbn [length]. split.
  - intros (H1 & H2 & H3). assert (Hk : (k <= length t)%nat) by lia.
    replace (length t + 1 - S k)%nat with (length t - k)%nat in H3 by lia.
    rewrite drop_app_le in H3 by lia.
    destruct (lookup_lt_is_Some_2 p k) as [d Hd]; [lia|].
    rewrite (take_S_r _ _ d Hd) in H3. apply app_inj_tail in H3 as [H3 ->]. split; [|done].
    split_and!; (lia || done).
  - intros ((H1 & H2 & H3) & Hd). assert (k < length p)%nat by (by eapply lookup_lt_Some).
    split_and!; [lia..|]. replace (length t + 1 - S k)%nat with (length t - k)%nat by lia.
    rewrite drop_app_le, H3 by lia. by rewrite (take_S_r _ _ c Hd).
Qed.

(** Shorter borders of the text are the borders of the matched prefix. *)
Lemma border_prefix p t k j :
  border p t k -> (j <= k)%nat -> border p t j <-> border p (take k p) j.
Proof.
  intros (H1 & H2 & H3) Hj. unfold border. rewrite length_take_le by lia. rewrite <- H3.
  rewrite drop_drop. replace (length t - k + (k - j))%nat with (length t - j)%nat by lia.
  split; intros (? & ? & ?); split_and!; (lia || done).
Qed.

(** ** The search *)

Section Search.
Variables (p w pf : bytes).
(** The array [w] starts with the pattern. *)
Hypothesis Hw : forall k, (k < length p)%nat -> w !! k = p !! k.
Hypothesis Hp : (length p <= 128)%nat.

(** The table is right below [n]: entry [i] is the longest proper border of
    the first [i + 1] bytes of the pattern. *)
Definition table_upto (n : nat) : Prop :=
  forall i, (i < n)%nat -> exists k, pf !! i = Some (Z.of_nat k) /\ longest p (take (S i) p) i k.

(** Falling back from a border [k] finds the longest one that [c] extends. *)
Lemma fallback_ok t c fuel : forall k,
  border p t k -> (k < fuel)%nat -> (k < length p)%nat -> table_upto k ->
  exists k', prefix_fallback fuel (Z.of_nat k) c w pf = Done (Z.of_nat k')
  /\ (k' <= k)%nat /\ border p t k' /\ (k' = 0%nat \/ p !! k' = Some c)
  /\ forall j, border p t j -> (j <= k)%nat -> p !! j = Some c -> (j <= k')%nat.
Proof.
  induction fuel as [|fuel IH]; intros k Hb Hf Hk Ht; [lia|]. cbn [prefix_fallback].
  destruct (Z.ltb_spec 0 (Z.of_nat k)) as [H0|H0].
  2: { exists k. assert (k = 0)%nat as -> by lia. split_and!; auto. }
  destruct (lookup_lt_is_Some_2 p k Hk) as [d Hd].
  rewrite (arr_get_Done w (Z.of_nat k) d) by (lia || by rewrite Nat2Z.id, Hw). cbn [mbind outcome_bind].
  destruct (Z.eqb_spec d c) as [->|Hdc]; cbn [negb].
  { exists k. split_and!; auto. }
  destruct (Ht (k - 1)%nat) as (k1 & Hk1 & Hb1 & Hle & Hmax); [lia|].
  rewrite (arr_get_Done pf (Z.of_nat k - 1) (Z.of_nat k1)) by (lia || by replace (Z.to_nat (Z.of_nat k - 1)) with (k - 1)%nat by lia).
  cbn [mbind outcome_bind]. replace (S (k - 1))%nat with k in * by lia.
  assert (schar (Z.of_nat k1) = Z.of_nat k1) as ->.
  { unfold schar. by rewrite (proj2 (Z.ltb_lt _ _)) by lia. }
  destruct (IH k1) as (k' & E & Hk' & Hb' & Hc & Hm).
  - apply (border_prefix p t k k1 Hb); [lia | done].
  - lia.
  - lia.
  - intros i Hi. apply Ht. lia.
  - exists k'. split_and!; auto; [lia|]. intros j Hj Hjk Hjc. apply Hm; [done| |done].
    assert (j <> k) by (intros ->; congruence). apply Hmax; [|lia].
    apply (border_prefix p t k j Hb); [lia | done].
Qed.

(** One more byte: the longest border of the longer text. *)
Lemma longest_step t c m k :
  longest p t m k -> (k < length p)%nat -> table_upto k ->
  exists k', prefix_fallback (S k) (Z.of_nat k) c w pf = Done (Z.of_nat k') /\ (k' < length p)%nat
  /\ (k' = 0%nat \/ p !! k' = Some c)
  /\ longest p (t ++ [c]) (S m) (if decide (p !! k' = Some c) then S k' else 0%nat).
Proof.
  intros (Hb & Hkm & Hmax) Hk Ht.
  destruct (fallback_ok t c (S k) k Hb (Nat.lt_succ_diag_r k) Hk Ht) as (k' & E & Hk' & Hb' & Hc & Hm).
  exists k'. split; [exact E|]. split; [lia|]. split; [exact Hc|].
  assert (Hnew : forall j, border p (t ++ [c]) j -> (j <= S m)%nat -> j = 0%nat \/ exists i, j = S i /\ (i <= k')%nat /\ p !! i = Some c).
  { intros [|i] Hj Hjm; [by left|right]. apply border_snoc in Hj as [Hi Hic]. exists i. split_and!; auto.
    apply Hm; auto. apply Hmax; [done|lia]. }
  destruct (decide (p !! k' = Some c)) as [Hkc|Hkc].
  - split_and!; [by apply border_snoc | lia |]. intros j Hj Hjm.
    destruct (Hnew j Hj Hjm) as [->|(i & -> & ? & _)]; lia.
  - destruct Hc as [->|]; [|done]. split_and!; [apply border_0 | lia |]. intros j Hj Hjm.
    destruct (Hnew j Hj Hjm) as [->|(i & -> & Hi & Hic)]; [done|]. assert (i = 0)%nat as -> by lia. done.
Qed.
End Search.

(** The search of [handlewait] falls back as the set-up does. *)
Lemma wait_fallback_prefix fuel : forall pos c tw,
  wait_fallback fuel pos c tw = prefix_fallback fuel pos c (waWaitString tw) (waPrefixFunction tw).
Proof.
  induction fuel as [|fuel IH]; intros pos c tw; [done|]. cbn [wait_fallback prefix_fallback].
  destruct (0 <? pos); [|done]. destruct (arr_get (waWaitString tw) pos); [|done..]. cbn [mbind outcome_bind].
  destruct (negb _); [|done]. destruct (arr_get (waPrefixFunction tw) (pos - 1)); [|done..]. apply IH.
Qed.

Lemma table_insert p pf i k :
  table_upto p pf i -> (i < length pf)%nat -> longest p (take (S i) p) i k ->
  table_upto p (<[i := Z.of_nat k]> pf) (S i).
Proof.
  intros Ht Hi Hk j Hj. destruct (decide (j = i)) as [->|].
  - exists k. split; [by apply list_lookup_insert_eq | done].
  - rewrite list_lookup_insert_ne by done. apply Ht. lia.
Qed.

(** The prefix function of the set-up. *)
Lemma prefix_loop_ok p w m : forall i k pf,
  (forall j, (j < length p)%nat -> w !! j = p !! j) -> (length p <= 128)%nat -> (length p <= length pf)%nat ->
  (1 <= i)%nat -> (i + m = length p)%nat -> table_upto p pf i -> longest p (take i p) (i - 1) k ->
  exists pf', prefix_loop (Z.of_nat <$> seq i m) (Z.of_nat k) w pf = Done pf'
  /\ table_upto p pf' (length p) /\ length pf' = length pf.
Proof.
  induction m as [|m IH]; intros i k pf Hw Hn Hpf Hi Him Ht Hk; cbn [seq fmap list_fmap prefix_loop].
  { exists pf. by replace (length p) with i by lia. }
  destruct (lookup_lt_is_Some_2 p i) as [c Hc]; [lia|].
  rewrite (arr_get_Done w (Z.of_nat i) c) by (lia || (rewrite Nat2Z.id, Hw; [done|lia])).
  cbn [mbind outcome_bind]. rewrite Nat2Z.id.
  assert (Hkl : (k < length p)%nat) by (destruct Hk as (_ & ? & _); lia).
  destruct (longest_step p w pf Hw Hn (take i p) c (i - 1) k Hk Hkl) as (k' & -> & Hk' & Hz & Hl).
  { intros j Hj. apply Ht. destruct Hk as (_ & ? & _). lia. }
  cbn [mbind outcome_bind].
  destruct (lookup_lt_is_Some_2 p k' Hk') as [d Hd].
  rewrite (arr_get_Done w (Z.of_nat k') d) by (lia || (rewrite Nat2Z.id, Hw; [done|lia])). cbn [mbind outcome_bind].
  rewrite <- (take_S_r _ _ c Hc) in Hl. replace (S (i - 1)) with i in Hl by lia.
  set (k2 := if decide (p !! k' = Some c) then S k' else 0%nat) in *.
  assert (Hk2 : (if d =? c then s16 (Z.of_nat k' + 1) else Z.of_nat k') = Z.of_nat k2).
  { subst k2. destruct (Z.eqb_spec d c) as [->|Hdc].
    - rewrite decide_True by done. rewrite s16_small by lia. lia.
    - rewrite decide_False by congruence. destruct Hz as [->|]; [done|congruence]. }
  rewrite Hk2. assert (Hk2i : (k2 <= i)%nat) by apply Hl.
  rewrite u8_small by lia. rewrite arr_set_Done by (unfold zlen; lia). cbn [mbind outcome_bind]. rewrite Nat2Z.id.
  destruct (IH (S i) k2 (<[i:=Z.of_nat k2]> pf)) as (pf' & E & Ht' & Hl'); try done; try lia.
  - by rewrite length_insert.
  - apply table_insert; [done|lia|done].
  - by replace (S i - 1)%nat with i by lia.
  - exists pf'. rewrite E, Hl', length_insert. done.
Qed.

(** ** The wait command *)

(** The session has been watching for [p] and seen the text [t] since. *)
Definition watching (p t : bytes) (tw : WindRec) : Prop :=
  waWaitLength tw = zlen p /\ (1 <= length p <= 128)%nat
  /\ (forall k, (k < length p)%nat -> waWaitString tw !! k = p !! k)
  /\ table_upto p (waPrefixFunction tw) (length p)
  /\ exists k, waWaitPos tw = Z.of_nat k /\ (k < length p)%nat /\ longest p t (length p) k.

Lemma border_full p t : border p t (length p) <-> exists a, t = a ++ p.
Proof.
  unfold border. rewrite firstn_all. split.
  - intros (_ & Hl & E). exists (take (length t - length p) t). 
    transitivity (take (length t - length p) t ++ drop (length t - length p) t); [by rewrite take_drop | by rewrite E].
  - intros [a ->]. rewrite length_app. split_and!; [lia..|].
    replace (length a + length p - length p)%nat with (length a) by lia. apply drop_app_length.
Qed.

Lemma handlewait_char_ok p t c tw :
  watching p t tw ->
  exists tw', handlewait_char c tw = Done tw'
  /\ ((exists a, t ++ [c] = a ++ p) ->
        waWaiting tw' = 0 /\ enabled tw' = waWasEnabled tw
        /\ waWeHaveAppleEvent tw' = 0 /\ waWasEnabled tw' = waWasEnabled tw
        /\ net_trace tw' = net_trace tw ++ (if waWeHaveAppleEvent tw =? 0 then [] else [AEResume]))
  /\ (~ (exists a, t ++ [c] = a ++ p) ->
        watching p (t ++ [c]) tw' /\ waWaiting tw' = waWaiting tw /\ enabled tw' = enabled tw
        /\ waWasEnabled tw' = waWasEnabled tw /\ waWeHaveAppleEvent tw' = waWeHaveAppleEvent tw
        /\ net_trace tw' = net_trace tw).
Proof.
  intros (Hlen & Hp & Hw & Ht & k & Epos & Hk & Hl). unfold handlewait_char.
  rewrite Epos, Nat2Z.id, wait_fallback_prefix.
  destruct (longest_step p (waWaitString tw) (waPrefixFunction tw) Hw (proj2 Hp) t c (length p) k Hl Hk) as (k' & -> & Hk' & Hz & Hl').
  { intros j Hj. apply Ht. lia. }
  cbn [mbind outcome_bind]. destruct (lookup_lt_is_Some_2 p k' Hk') as [d Hd].
  rewrite (arr_get_Done (waWaitString tw) (Z.of_nat k') d) by (lia || (rewrite Nat2Z.id, Hw; [done|lia])).
  cbn [mbind outcome_bind].
  assert (Hfull : (exists a, t ++ [c] = a ++ p) <-> c = d /\ S k' = length p).
  { rewrite <- border_full. destruct Hl' as (Hb & _ & Hmax). split.
    - intros Hf. apply Hmax in Hf; [|lia]. destruct (decide (p !! k' = Some c)) as [E|E]; [|lia].
      split; [congruence|lia].
    - intros [-> <-]. rewrite decide_True in Hb by done. exact Hb. }
  destruct (Z.eqb_spec c d) as [->|Hcd].
  - rewrite decide_True in Hl' by done. rewrite s16_small by lia.
    change (waWaitPos (tw <| waWaitPos := Z.of_nat k' + 1 |>)) with (Z.of_nat k' + 1).
    change (waWaitLength (tw <| waWaitPos := Z.of_nat k' + 1 |>)) with (waWaitLength tw). rewrite Hlen.
    destruct (Z.leb_spec (zlen p) (Z.of_nat k' + 1)) as [Hle|Hle]; unfold zlen in Hle.
    + assert (Hf : exists a, t ++ [d] = a ++ p) by (apply (proj2 Hfull); split; [done|lia]).
      destruct (Z.eqb_spec (waWeHaveAppleEvent tw) 0) as [Ea|Ea];
        (eexists; split; [cbn; rewrite ?Ea, ?(proj2 (Z.eqb_neq _ _) Ea); reflexivity|]);
        (split; [intros _ | done]); split_and!; try done; try exact Ea. cbn. by rewrite app_nil_r.
    + eexists. split; [reflexivity|]. split; [intros Hx; destruct (proj1 Hfull Hx); lia|]. intros _.
      split; [|by split_and!]. refine (conj Hlen (conj Hp (conj Hw (conj Ht _)))). exists (S k'). split_and!; [cbn; lia | lia | ].
      destruct Hl' as (Hb & _ & Hmax). split_and!; [done | lia |]. intros j Hj Hjl. apply Hmax; [done|lia].
  - rewrite decide_False in Hl' by congruence.
    eexists. split; [reflexivity|]. split; [intros Hx; by destruct (proj1 Hfull Hx)|]. intros _.
    split; [|by split_and!]. refine (conj Hlen (conj Hp (conj Hw (conj Ht _)))). exists 0%nat. split_and!; [done | lia | ].
    destruct Hl' as (Hb & _ & Hmax). split_and!; [done | lia |]. intros j Hj Hjl. apply Hmax; [done|lia].
Qed.

Lemma handlewait_app a : forall b tw, handlewait (a ++ b) tw = tw' ← handlewait a tw; handlewait b tw'.
Proof.
  induction a as [|c a IH]; intros b tw; [done|]. cbn [app handlewait].
  destruct (handlewait_char c tw); [|done..]. cbn [mbind outcome_bind]. apply IH.
Qed.

(** Text without the string: the watch goes on. *)
Lemma handlewait_absent p text : forall t tw,
  watching p t tw -> (forall u v, text = u ++ v -> u <> [] -> ~ exists a, t ++ u = a ++ p) ->
  exists tw', handlewait text tw = Done tw' /\ watching p (t ++ text) tw'
  /\ waWaiting tw' = waWaiting tw /\ enabled tw' = enabled tw /\ waWasEnabled tw' = waWasEnabled tw
  /\ waWeHaveAppleEvent tw' = waWeHaveAppleEvent tw /\ net_trace tw' = net_trace tw.
Proof.
  induction text as [|c text IH]; intros t tw Hw Hno; cbn [handlewait].
  { exists tw. rewrite app_nil_r. split_and!; (done || exact Hw). }
  destruct (handlewait_char_ok p t c tw Hw) as (tw1 & -> & _ & H1). cbn [mbind outcome_bind].
  destruct (H1 (Hno [c] text eq_refl ltac:(done))) as (Hw1 & E1 & E2 & E3 & E4 & E5).
  destruct (IH (t ++ [c]) tw1 Hw1) as (tw' & -> & Hw' & F1 & F2 & F3 & F4 & F5).
  { intros u v -> Hu. rewrite <- app_assoc. by apply (Hno ([c] ++ u) v). }
  exists tw'. rewrite <- app_assoc in Hw'. split; [done|]. split; [exact Hw'|]. split_and!; congruence.
Qed.

Lemma MyHandleWait_ok p sus tw :
  zlen (waWaitString tw) = 256 -> zlen (waPrefixFunction tw) = 256 -> (1 <= length p <= 128)%nat ->
  exists tw', MyHandleWait p sus tw = Done tw' /\ watching p [] tw' /\ waWaiting tw' = 1
  /\ waWasEnabled tw' = sus /\ waWeHaveAppleEvent tw' = 1 /\ net_trace tw' = net_trace tw.
Proof.
  intros Hs Hf Hp. unfold MyHandleWait. rewrite (proj2 (Z.eqb_neq _ _)) by (unfold zlen; lia).
  unfold memcpy_to. rewrite (proj2 (Z.leb_le (0 + zlen p) (zlen (waWaitString tw)))) by (unfold zlen in *; lia). cbn [Z.leb andb mbind outcome_bind Z.compare].
  rewrite Z.add_0_l. change (take (Z.to_nat 0) (waWaitString tw)) with (@nil Z). cbn [app].
  rewrite arr_set_Done by lia. cbn [mbind outcome_bind]. change (Z.to_nat 0) with 0%nat.
  set (w := p ++ drop (Z.to_nat (zlen p)) (waWaitString tw)). set (pf0 := <[0%nat := 0]> (waPrefixFunction tw)).
  assert (Hw : forall j, (j < length p)%nat -> w !! j = p !! j) by (intros j Hj; by apply lookup_app_l).
  assert (Ht1 : table_upto p pf0 1).
  { intros i Hi. assert (i = 0)%nat as -> by lia. exists 0%nat. split.
    - apply list_lookup_insert_eq. unfold zlen in Hf. lia.
    - split_and!; [apply border_0 | lia | intros; lia]. }
  assert (exists pf, (if 2 <=? zlen p then prefix_loop (Z.of_nat <$> seq 1 (length p - 1)) 0 w pf0 else Done pf0) = Done pf
    /\ table_upto p pf (length p)) as (pf & -> & Ht).
  { destruct (Z.leb_spec 2 (zlen p)) as [H2|H2].
    - destruct (prefix_loop_ok p w (length p - 1) 1 0 pf0) as (pf & E & Ht & _); try done; try lia.
      + unfold pf0, zlen in *. rewrite length_insert. lia.
      + split_and!; [apply border_0 | lia | intros; lia].
      + by exists pf.
    - exists pf0. split; [done|]. unfold zlen in H2. by replace (length p) with 1%nat by lia. }
  cbn [mbind outcome_bind]. eexists. split; [reflexivity|]. split; [|by split_and!].
  refine (conj eq_refl (conj Hp (conj Hw (conj Ht _)))). exists 0%nat. split; [done|]. split; [lia|].
  split_and!; [apply border_0 | lia |]. intros j (_ & Hj & _) _. cbn in Hj. lia.
Qed.

(** What is left after the string has been found: the position may be behind
    the pattern, where the array holds [z]. *)
Definition armed (p : bytes) (z : Z) (tw : WindRec) : Prop :=
  (1 <= length p <= 128)%nat
  /\ (forall k, (k < length p)%nat -> waWaitString tw !! k = p !! k) /\ waWaitString tw !! length p = Some z
  /\ table_upto p (waPrefixFunction tw) (length p)
  /\ exists k, waWaitPos tw = Z.of_nat k /\ (k <= length p)%nat.

Lemma border_self p k : (k <= length p)%nat -> border p (take k p) k.
Proof.
  intros Hk. unfold border. rewrite length_take_le by lia. split_and!; [lia..|]. by rewrite Nat.sub_diag.
Qed.

(** Falling back from a match, over a byte other than the one behind the
    pattern, or from before it. *)
Lemma armed_fallback p z c tw :
  armed p z tw -> waWaitPos tw < zlen p \/ c <> z ->
  exists k', wait_fallback (S (Z.to_nat (waWaitPos tw))) (waWaitPos tw) c tw = Done (Z.of_nat k') /\ (k' < length p)%nat.
Proof.
  intros (Hp & Hw & Hz & Ht & k & -> & Hk) Hc. rewrite Nat2Z.id, wait_fallback_prefix. unfold zlen in Hc.
  destruct (decide (k = length p)) as [->|Hne].
  - cbn [prefix_fallback]. rewrite (proj2 (Z.ltb_lt 0 _)) by lia.
    rewrite (arr_get_Done (waWaitString tw) _ z) by (lia || by rewrite Nat2Z.id). cbn [mbind outcome_bind].
    rewrite (proj2 (Z.eqb_neq z c)) by (destruct Hc; [lia | congruence]). cbn [negb].
    destruct (Ht (length p - 1)%nat ltac:(lia)) as (k1 & Hk1 & _ & Hle & _).
    rewrite (arr_get_Done (waPrefixFunction tw) _ (Z.of_nat k1))
      by (lia || by replace (Z.to_nat (Z.of_nat (length p) - 1)) with (length p - 1)%nat by lia).
    cbn [mbind outcome_bind].
    assert (schar (Z.of_nat k1) = Z.of_nat k1) as -> by (unfold schar; by rewrite (proj2 (Z.ltb_lt _ _)) by lia).
    destruct (fallback_ok p (waWaitString tw) (waPrefixFunction tw) Hw (proj2 Hp) (take k1 p) c (length p) k1)
      as (k' & E & Hk' & _); [apply border_self; lia | lia | lia | |].
    + intros i Hi. apply Ht. lia.
    + exists k'. split; [exact E | lia].
  - destruct (fallback_ok p (waWaitString tw) (waPrefixFunction tw) Hw (proj2 Hp) (take k p) c (S k) k)
      as (k' & E & Hk' & _); [apply border_self; lia | lia | lia | |].
    + intros i Hi. apply Ht. lia.
    + exists k'. split; [exact E | lia].
Qed.

Lemma armed_step p z c tw :
  armed p z tw -> waWaitPos tw < zlen p \/ c <> z ->
  exists tw', handlewait_char c tw = Done tw' /\ armed p z tw'.
Proof.
  intros Ha Hc. destruct (armed_fallback p z c tw Ha Hc) as (k' & E & Hk').
  destruct Ha as (Hp & Hw & Hz & Ht & _). unfold handlewait_char. rewrite E. cbn [mbind outcome_bind].
  destruct (lookup_lt_is_Some_2 p k' Hk') as [d Hd].
  rewrite (arr_get_Done (waWaitString tw) _ d) by (lia || by rewrite Nat2Z.id, Hw). cbn [mbind outcome_bind].
  rewrite s16_small by lia.
  assert (Hnew : forall t j, waWaitString t = waWaitString tw -> waPrefixFunction t = waPrefixFunction tw ->
    waWaitPos t = Z.of_nat j -> (j <= length p)%nat -> armed p z t).
  { intros t j E1 E2 E3 Hj. unfold armed. rewrite E1, E2. refine (conj Hp (conj Hw (conj Hz (conj Ht _)))). by exists j. }
  destruct (c =? d); [|eexists; split; [done|]; by apply (Hnew _ 0%nat); [..|lia]].
  destruct (_ <=? _); [cbv zeta; destruct (negb _)|];
    (eexists; split; [reflexivity|]; apply (Hnew _ (S k')); [done|done| |lia]; cbn; lia).
Qed.

Lemma armed_total p z b : forall tw,
  armed p z tw -> z ∉ b -> exists tw', handlewait b tw = Done tw'.
Proof.
  induction b as [|c b IH]; intros tw Ha Hz; cbn [handlewait]; [by eexists|].
  destruct (armed_step p z c tw Ha) as (tw1 & -> & Ha1); [right; set_solver|]. cbn [mbind outcome_bind].
  apply IH; [done|set_solver].
Qed.

(** A wait that has ended stays ended and is not reported again. *)
Lemma handlewait_ended b : forall tw tw',
  handlewait b tw = Done tw' -> waWeHaveAppleEvent tw = 0 -> waWaiting tw = 0 -> enabled tw = waWasEnabled tw ->
  waWaiting tw' = 0 /\ enabled tw' = enabled tw /\ net_trace tw' = net_trace tw.
Proof.
  induction b as [|c b IH]; intros tw tw' E Ha Hw He; cbn [handlewait] in E; [by injection E as <-|].
  apply outcome_bind_Done in E as (tw1 & E1 & E).
  assert (H1 : waWeHaveAppleEvent tw1 = 0 /\ waWaiting tw1 = 0 /\ enabled tw1 = enabled tw
    /\ waWasEnabled tw1 = waWasEnabled tw /\ net_trace tw1 = net_trace tw).
  { unfold handlewait_char in E1. apply outcome_bind_Done in E1 as (pos & _ & E1).
    apply outcome_bind_Done in E1 as (w & _ & E1). destruct (c =? w); [|by injection E1 as <-].
    cbv zeta in E1. destruct (_ <=? _); [|by injection E1 as <-].
    change (waWeHaveAppleEvent (_ <| enabled := _ |>)) with (waWeHaveAppleEvent tw) in E1.
    rewrite Ha in E1. cbn in E1. by injection E1 as <-. }
  destruct H1 as (H1 & H2 & H3 & H4 & H5).
  destruct (IH tw1 tw' E H1 H2 ltac:(congruence)) as (F1 & F2 & F3). split_and!; congruence.
Qed.

(** The byte behind the string in the array stays what it was. *)
Lemma MyHandleWait_behind p sus tw tw0 z :
  MyHandleWait p sus tw = Done tw0 -> waWaitString tw !! length p = Some z -> waWaitString tw0 !! length p = Some z.
Proof.
  unfold MyHandleWait. destruct (zlen p =? 0); [done|]. intros E Hz.
  apply outcome_bind_Done in E as (w & Ew & E). apply outcome_bind_Done in E as (pf & _ & E).
  apply outcome_bind_Done in E as (pf' & _ & E). injection E as <-. cbn.
  unfold memcpy_to in Ew. destruct (_ && _); [|done]. injection Ew as <-.
  change (take (Z.to_nat 0) (waWaitString tw)) with (@nil Z). cbn [app].
  rewrite lookup_app_r, Nat.sub_diag, lookup_drop by lia.
  by replace (Z.to_nat (0 + zlen p) + 0)%nat with (length p) by (unfold zlen; lia).
Qed.

(** The search writes neither array. *)
Lemma handlewait_string_array b : forall tw tw', handlewait b tw = Done tw' -> waWaitString tw' = waWaitString tw.
Proof.
  induction b as [|c b IH]; intros tw tw' E; cbn [handlewait] in E; [by injection E as <-|].
  apply outcome_bind_Done in E as (tw1 & E1 & E). rewrite (IH _ _ E).
  unfold handlewait_char in E1. apply outcome_bind_Done in E1 as (pos & _ & E1).
  apply outcome_bind_Done in E1 as (w & _ & E1). destruct (c =? w); [|by injection E1 as <-].
  cbv zeta in E1. destruct (_ <=? _); [destruct (negb _)|]; by injection E1 as <-.
Qed.

Lemma handlewait_string p tw tw0 a :
  watching p [] tw0 -> (forall u v, a ++ p = u ++ p ++ v -> v = []) -> waWaiting tw0 = 1 ->
  waWeHaveAppleEvent tw0 = 1 -> net_trace tw0 = net_trace tw ->
  exists tw1, handlewait (a ++ p) tw0 = Done tw1 /\ waWaiting tw1 = 0 /\ waWeHaveAppleEvent tw1 = 0
  /\ enabled tw1 = waWasEnabled tw0 /\ waWasEnabled tw1 = waWasEnabled tw0
  /\ net_trace tw1 = net_trace tw ++ [AEResume]
  /\ (forall z, waWaitString tw0 !! length p = Some z -> armed p z tw1).
Proof.
  intros Hw Hfirst H1 H3 H4. pose proof Hw as (_ & Hp & _).
  destruct p as [|c p0] using rev_ind; [cbn in Hp; lia|]. clear IHp0.
  destruct (handlewait_absent (p0 ++ [c]) (a ++ p0) [] tw0 Hw) as (tw1 & E1 & Hw1 & F1 & F2 & F3 & F4 & F5).
  { intros u v Hu _ [a' Ha']. cbn in Ha'. assert (Hv : v ++ [c] = []); [|by destruct v].
    apply (Hfirst a'). by rewrite app_assoc, Hu, Ha', <- !app_assoc. }
  destruct (handlewait_char_ok _ _ c tw1 Hw1) as (tw' & E2 & Hyes & _).
  destruct Hyes as (G1 & G2 & G3 & G4 & G5); [exists a; by rewrite app_nil_l, app_assoc|].
  exists tw'. rewrite app_assoc, handlewait_app, E1. cbn [mbind outcome_bind handlewait]. rewrite E2. cbn [mbind outcome_bind].
  rewrite F4, H3 in G5. split_and!; try congruence; [by rewrite G5, F5, H4|]. intros z Hz.
  destruct Hw1 as (Hl & Hp1 & Hw1 & Ht & k & Ek & Hk & _).
  destruct (armed_step (p0 ++ [c]) z c tw1) as (t & Et & Ha).
  - refine (conj Hp (conj Hw1 (conj _ (conj Ht _)))); [by rewrite (handlewait_string_array _ _ _ E1)|].
    exists k. split; [done|lia].
  - left. rewrite Ek. unfold zlen. lia.
  - rewrite E2 in Et. by injection Et as <-.
Qed.

(** C27. The wait command finds its string: for a string of 1 to 128 bytes the
    set-up builds the right table. Text without the string, in whatever
    pieces, leaves the wait going. The first occurrence of the string, at any
    place in the text, ends it: there the suspended event is resumed and the
    window's state restored. The rest of the piece that completes the string
    is searched too; as far as this returns it changes nothing that is seen
    and resumes nothing again, and it does return unless it contains the byte
    that the array held behind the string before the command. *)
Theorem wait_finds_string p sus tw :
  zlen (waWaitString tw) = 256 -> zlen (waPrefixFunction tw) = 256 -> (1 <= length p <= 128)%nat ->
  exists tw0, MyHandleWait p sus tw = Done tw0 /\ waWaiting tw0 = 1
  /\ (forall text, (forall a b, text <> a ++ p ++ b) ->
       exists tw', handlewait text tw0 = Done tw' /\ waWaiting tw' = 1 /\ net_trace tw' = net_trace tw)
  /\ (forall a b, (forall u v, a ++ p = u ++ p ++ v -> v = []) ->
       exists tw1, handlewait (a ++ p) tw0 = Done tw1 /\ waWaiting tw1 = 0 /\ enabled tw1 = sus
       /\ net_trace tw1 = net_trace tw ++ [AEResume]
       /\ handlewait ((a ++ p) ++ b) tw0 = handlewait b tw1
       /\ (forall tw', handlewait b tw1 = Done tw' ->
            waWaiting tw' = 0 /\ enabled tw' = sus /\ net_trace tw' = net_trace tw1)
       /\ (forall z, waWaitString tw !! length p = Some z -> z ∉ b -> exists tw', handlewait b tw1 = Done tw')).
Proof.
  intros Hs Hf Hp. destruct (MyHandleWait_ok p sus tw Hs Hf Hp) as (tw0 & E & Hw & H1 & H2 & H3 & H4).
  exists tw0. split; [exact E|]. split; [exact H1|]. split.
  - intros text Hno. destruct (handlewait_absent p text [] tw0 Hw) as (tw' & E' & _ & F1 & _ & _ & _ & F5).
    { intros u v -> _ [a Ha]. cbn in Ha. apply (Hno a v). by rewrite Ha, <- app_assoc. }
    exists tw'. split_and!; congruence.
  - intros a b Hfirst.
    destruct (handlewait_string p tw tw0 a Hw Hfirst H1 H3 H4) as (tw1 & E1 & G1 & G2 & G3 & G4 & G5 & G6).
    exists tw1. split_and!; try done; [congruence | by rewrite handlewait_app, E1 | |].
    + intros tw' E'. destruct (handlewait_ended b tw1 tw' E' G2 G1 ltac:(congruence)) as (F1 & F2 & F3).
      split_and!; congruence.
    + intros z Hz. apply armed_total with (p := p). apply G6. by eapply MyHandleWait_behind.
Qed.

Lemma wait_finds_string_witness :
  let p := [97; 98; 97; 99] in let a := [97; 98] in let b := [100; 97] in
  exists tw0 tw', MyHandleWait p 1 sample_window = Done tw0 /\ handlewait ((a ++ p) ++ b) tw0 = Done tw'
  /\ waWaiting tw' = 0 /\ net_trace tw' = [AEResume].
Proof.
  intros p a b. destruct (wait_finds_string p 1 sample_window) as (tw0 & E & _ & _ & H);
    [reflexivity | reflexivity | cbn; lia |].
  destruct (H a b) as (tw1 & _ & _ & _ & H3 & H4 & H5 & H6).
  { intros u v Huv. apply (f_equal (@length Z)) in Huv as Hl. rewrite !length_app in Hl. cbn in Hl.
    destruct u as [|u1 [|u2 [|u3 u]]]; cbn in Huv; injection Huv; try done; intros; cbn in Hl.
    all: try (destruct v; [done|cbn in *; discriminate || lia]). }
  destruct (H6 0) as (tw' & E'); [reflexivity | by apply (bool_decide_unpack _) |].
  destruct (H5 tw' E') as (F1 & _ & F3). exists tw0, tw'. rewrite H4. split_and!; auto. by rewrite F3, H3.
Defined.

(** Beyond 128 bytes the table, of signed characters, turns negative: a run of
    two hundred a is not found behind a run of a hundred and fifty, the byte
    that ends the run makes the search read before its array. *)
Lemma long_wait_overruns :
  exists tw0, MyHandleWait (replicate 200 97) 1 sample_window = Done tw0
  /\ handlewait (replicate 150 97 ++ [98]) tw0 = Crash OutOfBounds.
Proof.
  destruct (MyHandleWait (replicate 200 97) 1 sample_window) as [tw0| |] eqn:E; [|by vm_compute in E..].
  exists tw0. split; [reflexivity|]. vm_compute in E. injection E as <-. by vm_compute.
Qed.

(** And within 128 bytes, the bytes behind a match can run the position out of
    the array: a text of NULs does, on a window whose array was clear. *)
Lemma wait_runs_out :
  exists tw0, MyHandleWait [97] 1 sample_window = Done tw0
  /\ handlewait ([97] ++ replicate 300 0) tw0 = Crash OutOfBounds.
Proof.
  destruct (MyHandleWait [97] 1 sample_window) as [tw0| |] eqn:E; [|by vm_compute in E..].
  exists tw0. split; [reflexivity|]. vm_compute in E. injection E as <-. by vm_compute.
Qed.

(** ** One-time-password challenges *)

(** The buffers have their sizes and the length stays below the bound the
    code tests. *)
Definition otp_ok (tw : WindRec) : Prop :=
  zlen (otpautobuffer tw) = 10 /\ zlen (otpautostring tw) = 256 /\ 0 <= otpautolength tw <= 251
  /\ (otpautostate tw = 1 -> otpautolength tw <= 9).

#[export] Instance otp_ok_dec tw : Decision (otp_ok tw).
Proof. unfold otp_ok. apply _. Defined.

Lemma otp_append_ok c tw :
  zlen (otpautostring tw) = 256 -> 0 <= otpautolength tw <= 250 ->
  otp_append c tw = Done (tw <| otpautostring := <[Z.to_nat (otpautolength tw) := c]> (otpautostring tw) |>
                             <| otpautolength := otpautolength tw + 1 |>).
Proof.
  intros Hs Hl. unfold otp_append. rewrite arr_set_Done by lia. cbn [mbind outcome_bind]. by rewrite s16_small by lia.
Qed.

Lemma otp_prompt_ok prompt tw :
  zlen (otpautostring tw) = 256 -> zlen prompt <= 9 ->
  exists s, otp_prompt prompt tw
    = Done (tw <| otpautostate := 1 |> <| otpautostring := s |> <| otpautolength := zlen prompt |>)
  /\ zlen s = 256 /\ take (length prompt) s = prompt.
Proof.
  intros Hs Hp. unfold otp_prompt, memcpy_to. rewrite Z.add_0_l, (proj2 (Z.leb_le (zlen prompt) _)) by lia.
  cbn [Z.leb Z.compare andb mbind outcome_bind]. eexists. split; [reflexivity|].
  change (take (Z.to_nat 0) (otpautostring tw)) with (@nil Z). cbn [app]. split.
  - unfold zlen in *. rewrite length_app, length_drop. lia.
  - apply take_app_length.
Qed.

Lemma otpauto_char_ok c tw :
  otp_ok tw -> exists tw', otpauto_char c tw = Done tw' /\ otp_ok tw'.
Proof.
  intros (Hb & Hs & Hl & H1). unfold otpauto_char.
  destruct (Z.eqb_spec (otpautostate tw) 0) as [E0|E0].
  { set (tw1 := tw <| otpautobuffer := _ |>).
    assert (Hok : otp_ok tw1).
    { unfold otp_ok. split; [|split_and!; try done; cbn; congruence || lia].
      change (otpautobuffer tw1) with (slice 1 8 (otpautobuffer tw) ++ [c] ++ drop 9 (otpautobuffer tw)).
      unfold slice, zlen in *. rewrite !length_app, length_take, !length_drop. cbn [length]. lia. }
    assert (Hpr : forall p, zlen p <= 9 -> exists tw', otp_prompt p tw1 = Done tw' /\ otp_ok tw').
    { intros p Hp. destruct (otp_prompt_ok p tw1) as (s & -> & Hs' & _); [done|done|]. eexists. split; [reflexivity|].
      pose proof (zlen_nonneg p). split_and!; (apply Hok || done || (cbn; lia)). }
    repeat match goal with |- exists _, (if ?b then _ else _) = _ /\ _ => destruct b end;
      try (apply Hpr; by vm_compute). by exists tw1. }
  destruct (Z.eqb_spec (otpautostate tw) 1) as [E1|E1].
  { specialize (H1 E1). destruct (is_digit c).
    - rewrite otp_append_ok by (done || (cbn; lia)). eexists. split; [reflexivity|].
      split_and!; try done; cbn; rewrite ?zlen_insert; (done || lia).
    - eexists. split; [reflexivity|]. split_and!; (done || (cbn; lia)). }
  assert (Hgo : forall st, st <> 1 -> otpautolength tw <= 250 ->
    exists tw', otp_append c (tw <| otpautostate := st |>) = Done tw' /\ otp_ok tw').
  { intros st Hst Hle. rewrite otp_append_ok by (done || (cbn; lia)). eexists. split; [reflexivity|].
    split_and!; try done; cbn; rewrite ?zlen_insert; (done || lia). }
  assert (Hsame : forall st, otpautostate tw = st -> tw <| otpautostate := st |> = tw) by (intros ? <-; by destruct tw).
  assert (Hreset : exists tw', Done (tw <| otpautostate := 0 |>) = Done tw' /\ otp_ok tw').
  { eexists. split; [reflexivity|]. split_and!; (done || (cbn; lia)). }
  destruct (Z.eqb_spec (otpautostate tw) 2) as [E2|E2].
  { destruct (Z.ltb_spec 250 (otpautolength tw)) as [|Hle]; [exact Hreset|].
    destruct (is_digit c); [rewrite <- (Hsame 2 E2); by apply Hgo|].
    destruct (c =? 32); [by apply Hgo | exact Hreset]. }
  destruct (Z.eqb_spec (otpautostate tw) 3) as [E3|E3]; [|by exists tw].
  destruct (Z.ltb_spec 250 (otpautolength tw)) as [|Hle]; [exact Hreset|].
  destruct (_ || _); [|rewrite <- (Hsame 3 E3); by apply Hgo].
  rewrite arr_set_Done by lia. cbn [mbind outcome_bind]. eexists. split; [reflexivity|].
  split_and!; try done; cbn; rewrite ?zlen_insert; (done || lia).
Qed.

Lemma otpauto_watch_ok text : forall tw, otp_ok tw -> exists tw', otpauto_watch text tw = Done tw' /\ otp_ok tw'.
Proof.
  induction text as [|c text IH]; intros tw Hok; cbn [otpauto_watch]; [by exists tw|].
  destruct (otpauto_char_ok c tw Hok) as (tw1 & -> & Hok1). by apply IH.
Qed.

Lemma otpauto_watch_app a : forall b tw, otpauto_watch (a ++ b) tw = tw' ← otpauto_watch a tw; otpauto_watch b tw'.
Proof.
  induction a as [|c a IH]; intros b tw; [done|]. cbn [app otpauto_watch].
  destruct (otpauto_char c tw); [|done..]. cbn [mbind outcome_bind]. apply IH.
Qed.

(** The text collected so far. *)
Definition holds (st : Z) (content : bytes) (tw : WindRec) : Prop :=
  otpautostate tw = st /\ otpautolength tw = zlen content
  /\ take (length content) (otpautostring tw) = content /\ zlen (otpautostring tw) = 256.

(** What the watcher leaves alone. *)
Definition same_watch (tw tw' : WindRec) : Prop :=
  net_trace tw' = net_trace tw /\ otpmulti tw' = otpmulti tw.

Lemma holds_append st st' content c tw :
  holds st content tw -> zlen content <= 250 ->
  exists tw', otp_append c (tw <| otpautostate := st' |>) = Done tw' /\ holds st' (content ++ [c]) tw' /\ same_watch tw tw'.
Proof.
  intros (_ & Hl & Ht & Hs) Hc. pose proof (zlen_nonneg content).
  rewrite otp_append_ok by (cbn; lia). eexists. split; [reflexivity|]. split; [|done].
  split_and!; cbn; [done | rewrite Hl; autorewrite with wrap; lia | | by rewrite zlen_insert].
  rewrite Hl, length_app. unfold zlen in *. rewrite Nat2Z.id. cbn [length]. rewrite Nat.add_1_r.
  rewrite take_insert_snoc by lia. by rewrite Ht.
Qed.

Lemma holds_digits digits : forall content tw,
  holds 2 content tw -> Forall (fun c => is_digit c = true) digits -> zlen content + zlen digits <= 250 ->
  exists tw', otpauto_watch digits tw = Done tw' /\ holds 2 (content ++ digits) tw' /\ same_watch tw tw'.
Proof.
  induction digits as [|c digits IH]; intros content tw Hh Hd Hl; cbn [otpauto_watch].
  { exists tw. by rewrite app_nil_r. }
  inversion_clear Hd as [|? ? Hc Hds]. rewrite zlen_cons in Hl. pose proof (zlen_nonneg digits).
  destruct (holds_append 2 2 content c tw Hh) as (tw1 & E & Hh1 & Hs1); [lia|].
  assert (otpauto_char c tw = Done tw1) as ->.
  { pose proof Hh as (E2 & El & _). unfold otpauto_char. rewrite E2, El. cbn [Z.eqb].
    rewrite (proj2 (Z.ltb_ge 250 _)) by lia. rewrite Hc, <- E. f_equal. rewrite <- E2. by destruct tw. }
  cbn [mbind outcome_bind]. destruct (IH (content ++ [c]) tw1 Hh1) as (tw' & -> & Hh' & Hs'); [done | rewrite zlen_app, zlen_cons, zlen_nil; lia |].
  exists tw'. rewrite <- app_assoc in Hh'. split_and!; [done | exact Hh' | destruct Hs1, Hs'; split; congruence].
Qed.

(** The characters of a seed. *)
Definition seed_char (c : Z) : Prop := 32 < c < 128 /\ c <> 93.

Lemma holds_seed seed : forall content tw,
  holds 3 content tw -> Forall seed_char seed -> zlen content + zlen seed <= 250 ->
  exists tw', otpauto_watch seed tw = Done tw' /\ holds 3 (content ++ seed) tw' /\ same_watch tw tw'.
Proof.
  induction seed as [|c seed IH]; intros content tw Hh Hd Hl; cbn [otpauto_watch].
  { exists tw. by rewrite app_nil_r. }
  inversion_clear Hd as [|? ? [Hc Hc93] Hds]. rewrite zlen_cons in Hl. pose proof (zlen_nonneg seed).
  destruct (holds_append 3 3 content c tw Hh) as (tw1 & E & Hh1 & Hs1); [lia|].
  assert (otpauto_char c tw = Done tw1) as ->.
  { pose proof Hh as (E3 & El & _). unfold otpauto_char. rewrite E3, El. cbn [Z.eqb Pos.eqb].
    rewrite (proj2 (Z.ltb_ge 250 _)) by lia. unfold schar. rewrite (proj2 (Z.ltb_lt c 128)) by lia.
    rewrite (proj2 (Z.leb_gt c 32)), (proj2 (Z.eqb_neq c 93)) by lia. cbn [orb]. rewrite <- E. f_equal.
    rewrite <- E3. by destruct tw. }
  cbn [mbind outcome_bind]. destruct (IH (content ++ [c]) tw1 Hh1) as (tw' & -> & Hh' & Hs'); [done | rewrite zlen_app, zlen_cons, zlen_nil; lia |].
  exists tw'. rewrite <- app_assoc in Hh'. split_and!; [done | exact Hh' | destruct Hs1, Hs'; split; congruence].
Qed.

Lemma cstr_prefix l r : Forall (fun c => c <> 0) l -> cstr (l ++ 0 :: r) = l.
Proof. induction 1 as [|c l Hc _ IH]; [done|]. cbn [app cstr]. by rewrite (proj2 (Z.eqb_neq _ _) Hc), IH. Qed.

(** The end of a seed hands the challenge over. *)
Lemma holds_finish content c tw :
  holds 3 content tw -> zlen content <= 250 -> Forall (fun c => c <> 0) content ->
  schar c <= 32 \/ c = 93 ->
  exists tw', otpauto_char c tw = Done tw' /\ otpautostate tw' = 0 /\ otpauto tw' = otpmulti tw
  /\ net_trace tw' = net_trace tw ++ [OtpChallenge content].
Proof.
  intros (E3 & El & Ht & Hs) Hl Hn Hc. pose proof (zlen_nonneg content). unfold otpauto_char. rewrite E3, El. cbn [Z.eqb Pos.eqb].
  rewrite (proj2 (Z.ltb_ge 250 _)) by lia.
  assert ((schar c <=? 32) || (c =? 93) = true) as ->.
  { destruct Hc as [Hc| ->]; [by rewrite (proj2 (Z.leb_le _ _) Hc) | apply orb_true_r]. }
  rewrite arr_set_Done by lia. cbn [mbind outcome_bind]. eexists. split; [reflexivity|]. split_and!; try done.
  cbn. do 3 f_equal. unfold zlen in *. rewrite Nat2Z.id.
  rewrite <- (take_drop (length content) (otpautostring tw)), Ht.
  rewrite insert_app_r_alt by lia. rewrite Nat.sub_diag.
  destruct (drop (length content) (otpautostring tw)) as [|x r] eqn:Ed.
  { apply (f_equal length) in Ed. rewrite length_drop in Ed. cbn in Ed. lia. }
  by apply cstr_prefix.
Qed.

(** *** Recognising a prompt *)

Definition prompts : list bytes := [otp_sha1; otp_md5; otp_md4; otp_skey].

(** A character other than the blank only moves the window. *)
Lemma shift_window b0 b1 b2 b3 b4 b5 b6 b7 b8 b9 c tw :
  otpautostate tw = 0 -> c <> 32 -> otpautobuffer tw = [b0; b1; b2; b3; b4; b5; b6; b7; b8; b9] ->
  otpauto_char c tw = Done (tw <| otpautobuffer := [b1; b2; b3; b4; b5; b6; b7; b8; c; b9] |>).
Proof.
  intros E0 Hc Hb. unfold otpauto_char. rewrite E0, Hb. cbn [Z.eqb].
  assert (Hno : forall p, p ∈ prompts ->
    buffer_ends (tw <| otpautobuffer := [b1; b2; b3; b4; b5; b6; b7; b8; c; b9] |>) p = false).
  { intros p Hp. unfold buffer_ends. apply bool_decide_eq_false_2. unfold prompts in Hp. set_unfold in Hp.
    destruct Hp as [->|[->|[->|[->|[]]]]]; vm_compute; congruence. }
  change (slice 1 8 [b0; b1; b2; b3; b4; b5; b6; b7; b8; b9] ++ [c] ++ drop 9 [b0; b1; b2; b3; b4; b5; b6; b7; b8; b9])
    with [b1; b2; b3; b4; b5; b6; b7; b8; c; b9].
  rewrite !Hno by (by apply (bool_decide_unpack _)). done.
Qed.

(** The blank that completes a window. *)
Lemma complete_window b0 b1 b2 b3 b4 b5 b6 b7 b8 b9 p tw :
  otpautostate tw = 0 -> zlen (otpautostring tw) = 256 ->
  otpautobuffer tw = [b0; b1; b2; b3; b4; b5; b6; b7; b8; b9] -> p ∈ prompts ->
  drop (9 - length p) [b1; b2; b3; b4; b5; b6; b7; b8; 32] = p ->
  exists tw', otpauto_char 32 tw = Done tw' /\ holds 1 p tw' /\ same_watch tw tw'.
Proof.
  intros E0 Hs Hb Hp Hd. unfold otpauto_char. rewrite E0, Hb. cbn [Z.eqb].
  change (slice 1 8 [b0; b1; b2; b3; b4; b5; b6; b7; b8; b9] ++ [32] ++ drop 9 [b0; b1; b2; b3; b4; b5; b6; b7; b8; b9])
    with [b1; b2; b3; b4; b5; b6; b7; b8; 32; b9].
  set (tw1 := tw <| otpautobuffer := _ |>).
  assert (Hgo : zlen p <= 9 -> exists tw', otp_prompt p tw1 = Done tw' /\ holds 1 p tw' /\ same_watch tw tw').
  { intros Hl. destruct (otp_prompt_ok p tw1 Hs Hl) as (s & -> & Hs' & Ht). eexists. split; [reflexivity|]. done. }
  unfold prompts in Hp. set_unfold in Hp.
  assert (He : forall q, buffer_ends tw1 q = bool_decide (slice (9 - zlen q) (zlen q) [b1; b2; b3; b4; b5; b6; b7; b8; 32; b9] = q)) by done.
  rewrite !He. destruct Hp as [->|[->|[->|[->|[]]]]]; vm_compute in Hd; injection Hd; clear Hd; intros; subst.
  all: clear He; repeat match goal with
  | |- context [bool_decide (?a = ?b)] =>
      first [ rewrite (bool_decide_eq_true_2 (a = b)) by (vm_compute; congruence)
            | rewrite (bool_decide_eq_false_2 (a = b)) by (vm_compute; congruence) ]
  end; apply Hgo; by vm_compute.
Qed.

(** The nine characters compared with the prompts. *)
Definition seen (tw : WindRec) : bytes := take 9 (otpautobuffer tw).

Definition idle (tw : WindRec) : Prop :=
  otpautostate tw = 0 /\ zlen (otpautobuffer tw) = 10 /\ zlen (otpautostring tw) = 256.

Lemma ten_bytes (l : bytes) : zlen l = 10 -> exists b0 b1 b2 b3 b4 b5 b6 b7 b8 b9, l = [b0; b1; b2; b3; b4; b5; b6; b7; b8; b9].
Proof.
  intros Hl. destruct l as [|b0 [|b1 [|b2 [|b3 [|b4 [|b5 [|b6 [|b7 [|b8 [|b9 [|? ?]]]]]]]]]]];
    try (exfalso; unfold zlen in Hl; cbn [length] in Hl; lia). by exists b0, b1, b2, b3, b4, b5, b6, b7, b8, b9.
Qed.

Lemma shift_char c tw :
  idle tw -> c <> 32 ->
  exists tw', otpauto_char c tw = Done tw' /\ idle tw' /\ seen tw' = drop 1 (seen tw) ++ [c] /\ same_watch tw tw'.
Proof.
  intros (E0 & Hb & Hs) Hc. destruct (ten_bytes _ Hb) as (b0 & b1 & b2 & b3 & b4 & b5 & b6 & b7 & b8 & b9 & Eb).
  eexists. split; [exact (shift_window _ _ _ _ _ _ _ _ _ _ c tw E0 Hc Eb)|].
  split; [by split_and!|]. split; [|done]. unfold seen. by rewrite Eb.
Qed.

Lemma shift_word w : forall tw,
  idle tw -> Forall (fun c => c <> 32) w -> (length w <= 9)%nat ->
  exists tw', otpauto_watch w tw = Done tw' /\ idle tw' /\ seen tw' = drop (length w) (seen tw) ++ w /\ same_watch tw tw'.
Proof.
  induction w as [|c w IH]; intros tw Hi Hw Hl; cbn [otpauto_watch].
  { exists tw. by rewrite app_nil_r. }
  inversion_clear Hw as [|? ? Hc Hws]. cbn [length] in Hl.
  destruct (shift_char c tw Hi Hc) as (tw1 & -> & Hi1 & Hs1 & S1). cbn [mbind outcome_bind].
  destruct (IH tw1 Hi1 Hws) as (tw' & -> & Hi' & Hs' & S'); [lia|]. exists tw'. split; [done|]. split; [done|].
  split; [|destruct S1, S'; split; congruence]. rewrite Hs', Hs1.
  assert (length (seen tw) = 9)%nat.
  { unfold seen. rewrite length_take. destruct Hi as (_ & Hb & _). unfold zlen in Hb. lia. }
  rewrite drop_app_le by (rewrite length_drop; lia). rewrite drop_drop, <- app_assoc. done.
Qed.

Lemma recognise p tw :
  otp_ok tw -> otpautostate tw = 0 -> p ∈ prompts ->
  exists tw', otpauto_watch p tw = Done tw' /\ holds 1 p tw' /\ same_watch tw tw'.
Proof.
  intros (Hb & Hs & _) E0 Hp.
  assert (Hw : exists w, p = w ++ [32] /\ Forall (fun c => c <> 32) w /\ (length w <= 8)%nat).
  { unfold prompts in Hp. set_unfold in Hp. destruct Hp as [->|[->|[->|[->|[]]]]].
    - exists [111; 116; 112; 45; 115; 104; 97; 49]. split_and!; [done | by repeat constructor | cbn; lia].
    - exists [111; 116; 112; 45; 109; 100; 53]. split_and!; [done | by repeat constructor | cbn; lia].
    - exists [111; 116; 112; 45; 109; 100; 52]. split_and!; [done | by repeat constructor | cbn; lia].
    - exists [115; 47; 107; 101; 121]. split_and!; [done | by repeat constructor | cbn; lia]. }
  destruct Hw as (w & Ep & Hw & Hl).
  destruct (shift_word w tw (conj E0 (conj Hb Hs)) Hw ltac:(lia)) as (tw1 & E1 & (F0 & Fb & Fs) & Hseen & S1).
  destruct (ten_bytes _ Fb) as (b0 & b1 & b2 & b3 & b4 & b5 & b6 & b7 & b8 & b9 & Eb).
  assert (Hlen : length (drop (length w) (seen tw)) = (9 - length w)%nat).
  { unfold seen, zlen in *. rewrite length_drop, length_take. lia. }
  destruct (complete_window b0 b1 b2 b3 b4 b5 b6 b7 b8 b9 p tw1 F0 Fs Eb Hp) as (tw' & E2 & Hh & S2).
  { change [b1; b2; b3; b4; b5; b6; b7; b8; 32] with (drop 1 [b0; b1; b2; b3; b4; b5; b6; b7; b8] ++ [32]).
    assert (seen tw1 = [b0; b1; b2; b3; b4; b5; b6; b7; b8]) as <- by (unfold seen; by rewrite Eb).
    rewrite Hseen, Ep, length_app. cbn [length].
    rewrite drop_app_le by (rewrite length_drop, length_app; lia). rewrite drop_drop.
    rewrite drop_app_le by lia. rewrite drop_ge by lia. done. }
  exists tw'. rewrite Ep, otpauto_watch_app, E1. cbn [mbind outcome_bind otpauto_watch]. rewrite E2, <- Ep.
  split; [done|]. split; [done|]. destruct S1, S2. split; congruence.
Qed.

Lemma prompt_bytes p : p ∈ prompts -> zlen p <= 9 /\ Forall (fun c => c <> 0) p.
Proof.
  intros Hp. assert (H : Forall (fun p => zlen p <= 9 /\ Forall (fun c => c <> 0) p) prompts) by by apply (bool_decide_unpack _).
  by apply (proj1 (Forall_forall _ _) H).
Qed.

(** The one-time-password watcher never writes outside its buffers,
    whatever text it sees, and it finds every challenge of at most 250
    characters: from the idle state, a prompt of one of the four kinds, a
    sequence number, a blank and a seed, followed by a blank, a control or
    high character or a bracket, hand exactly that challenge to
    [otpinterface] and leave the watcher idle, armed again only if several
    challenges are wanted. *)
Theorem otp_challenge_found p d digits seed c tw :
  otp_ok tw ->
  (forall text, exists tw', otpauto_watch text tw = Done tw' /\ otp_ok tw')
  /\ (otpautostate tw = 0 -> p ∈ prompts -> Forall (fun x => is_digit x = true) (d :: digits) ->
      Forall seed_char seed -> schar c <= 32 \/ c = 93 ->
      zlen p + zlen (d :: digits) + 1 + zlen seed <= 250 ->
      exists tw', otpauto_watch (p ++ (d :: digits) ++ [32] ++ seed ++ [c]) tw = Done tw'
      /\ net_trace tw' = net_trace tw ++ [OtpChallenge (p ++ (d :: digits) ++ [32] ++ seed)]
      /\ otpautostate tw' = 0 /\ otpauto tw' = otpmulti tw).
Proof.
  intros Hok. split; [intros text; by apply otpauto_watch_ok|]. intros E0 Hp Hd Hseed Hc Hl.
  destruct (prompt_bytes p Hp) as [Hp9 Hp0]. rewrite zlen_cons in Hl.
  pose proof (zlen_nonneg digits) as Zd. pose proof (zlen_nonneg seed) as Zs. pose proof (zlen_nonneg p) as Zp.
  destruct (recognise p tw Hok E0 Hp) as (tw1 & E1 & H1 & S1).
  inversion_clear Hd as [|? ? Hd1 Hds].
  destruct (holds_append 1 2 p d tw1 H1) as (tw2 & E2 & H2 & S2); [lia|].
  destruct (holds_digits digits (p ++ [d]) tw2 H2 Hds) as (tw3 & E3 & H3 & S3); [rewrite zlen_app, zlen_cons, zlen_nil; lia|].
  destruct (holds_append 2 3 ((p ++ [d]) ++ digits) 32 tw3 H3) as (tw4 & E4 & H4 & S4); [rewrite !zlen_app, zlen_cons, zlen_nil; lia|].
  destruct (holds_seed seed _ tw4 H4 Hseed) as (tw5 & E5 & H5 & S5); [rewrite !zlen_app, !zlen_cons, zlen_nil; lia|].
  set (content := (((p ++ [d]) ++ digits) ++ [32]) ++ seed) in *.
  assert (Hcont : content = p ++ (d :: digits) ++ [32] ++ seed) by (unfold content; by rewrite <- !app_assoc).
  destruct (holds_finish content c tw5 H5) as (tw6 & E6 & F1 & F2 & F3); [| |done|].
  - rewrite Hcont, !zlen_app, !zlen_cons, zlen_nil. lia.
  - rewrite Hcont. apply Forall_app_2; [done|]. apply Forall_app_2; [|apply Forall_app_2].
    + constructor; [by intros ->|]. eapply Forall_impl; [exact Hds|]. by intros x Hx ->.
    + by repeat constructor.
    + eapply Forall_impl; [exact Hseed|]. intros x [? _]. lia.
  - exists tw6. destruct S1, S2, S3, S4, S5. rewrite <- Hcont. split; [|split_and!; congruence].
    rewrite otpauto_watch_app, E1. cbn [mbind outcome_bind app otpauto_watch].
    assert (otpauto_char d tw1 = Done tw2) as ->.
    { destruct H1 as (Es & _). unfold otpauto_char. rewrite Es. cbn [Z.eqb]. by rewrite Hd1. }
    cbn [mbind outcome_bind]. rewrite otpauto_watch_app, E3. cbn [mbind outcome_bind app otpauto_watch].
    assert (otpauto_char 32 tw3 = Done tw4) as ->.
    { destruct H3 as (Es & El & _). unfold otpauto_char. rewrite Es, El. cbn [Z.eqb].
      rewrite (proj2 (Z.ltb_ge 250 _)) by (rewrite !zlen_app, zlen_cons, zlen_nil; lia). exact E4. }
    cbn [mbind outcome_bind]. rewrite otpauto_watch_app, E5. cbn [mbind outcome_bind otpauto_watch]. by rewrite E6.
Qed.

Lemma otp_challenge_found_witness :
  otp_ok sample_window /\
  exists tw', otpauto_watch (otp_md5 ++ [57; 57] ++ [32] ++ [107; 49] ++ [13]) sample_window = Done tw'
  /\ net_trace tw' = [OtpChallenge (otp_md5 ++ [57; 57; 32; 107; 49])].
Proof.
  assert (H : otp_ok sample_window).
  { split_and!; try (by vm_compute); by intros. }
  split; [exact H|].
  destruct (proj2 (otp_challenge_found otp_md5 57 [57] [107; 49] 13 sample_window H)) as (tw' & E & Et & _);
    [reflexivity | by apply (bool_decide_unpack _) | by repeat constructor | repeat constructor; done | left; by vm_compute | by vm_compute |].
  exists tw'. split; [exact E | exact Et].
Defined.

End Watch.
