(* ===== verification/Translate.v ===== *)
(** The translation between the host's character set and the Macintosh one
    (parse/translate.c), on a PowerPC machine: byte tables for the single-byte
    sets, the Text Encoding Converter of the system for the others. The
    converter is an interface: what it answers depends on how it was made and
    on the calls made before. *)
From S2P Require Import Prelude Window.

Module Translate.

(** ** The Text Encoding Converter *)

Inductive encoding :=
  | ISO_2022_JP | EUC_JP | ShiftJIS | Big5 | JIS_X0212_90 | JIS_X0201_76 | MacJapanese | MacChineseTrad
  | ScriptEncoding (code : Z).

Inductive tec_call := TECConverted (s : bytes) (room : Z) | TECFlushed (room : Z).

Record converter := mkConverter { cv_from : encoding; cv_to : encoding; cv_calls : list tec_call }.

(** The system's converter and the tables of the resource file: [TECConvertText]
    gives its result code, the number of bytes it took and what it put out. *)
Class TextEncodings := {
  gTableCount : Z;
  transTable : Z -> Z -> Z;
  DefaultTable : option (Z -> Z);
  gLocalEncoding : option Z;
  TECCreateConverter : encoding -> encoding -> bool;
  TECConvertText : converter -> bytes -> Z -> Z * Z * bytes;
  kTECPartialCharErr : Z
}.

Definition kTRJIS : Z := -1.
Definition kTREUC_JP : Z := -2.
Definition kTRShiftJIS : Z := -3.
Definition kTRBig5 : Z := -4.
Definition kTRJISX0208_1978 : Z := -5.
Definition kTRJISX0208_1983 : Z := -6.
Definition kTRJISX0212_1990 : Z := -7.
Definition kTRJISX0201_76kana : Z := -8.

Definition kASCII : Z := 0.
Definition kJISX0201_1976 : Z := 1.
Definition kJISX0208_1978 : Z := 2.
Definition kJISX0208_1983 : Z := 3.
Definition kJISX0201_1976Kana : Z := 4.
Definition kJISX0212_1990 : Z := 5.

(** The fields of a [WindRec] the translation and the emulator use. *)
Record window := mkWindow {
  innational : Z; incharset : Z; outnational : Z; outcharset : Z;
  fromconverter : option converter; toconverter : option converter; troutcount : Z;
  Xterm : Z; ANSIgraphics : Z; launchurlesc : Z
}.

#[export] Instance set_innational : Setter innational := fun f w => mkWindow (f (innational w)) (incharset w) (outnational w) (outcharset w) (fromconverter w) (toconverter w) (troutcount w) (Xterm w) (ANSIgraphics w) (launchurlesc w).
#[export] Instance set_incharset : Setter incharset := fun f w => mkWindow (innational w) (f (incharset w)) (outnational w) (outcharset w) (fromconverter w) (toconverter w) (troutcount w) (Xterm w) (ANSIgraphics w) (launchurlesc w).
#[export] Instance set_outnational : Setter outnational := fun f w => mkWindow (innational w) (incharset w) (f (outnational w)) (outcharset w) (fromconverter w) (toconverter w) (troutcount w) (Xterm w) (ANSIgraphics w) (launchurlesc w).
#[export] Instance set_outcharset : Setter outcharset := fun f w => mkWindow (innational w) (incharset w) (outnational w) (f (outcharset w)) (fromconverter w) (toconverter w) (troutcount w) (Xterm w) (ANSIgraphics w) (launchurlesc w).
#[export] Instance set_fromconverter : Setter fromconverter := fun f w => mkWindow (innational w) (incharset w) (outnational w) (outcharset w) (f (fromconverter w)) (toconverter w) (troutcount w) (Xterm w) (ANSIgraphics w) (launchurlesc w).
#[export] Instance set_toconverter : Setter toconverter := fun f w => mkWindow (innational w) (incharset w) (outnational w) (outcharset w) (fromconverter w) (f (toconverter w)) (troutcount w) (Xterm w) (ANSIgraphics w) (launchurlesc w).
#[export] Instance set_troutcount : Setter troutcount := fun f w => mkWindow (innational w) (incharset w) (outnational w) (outcharset w) (fromconverter w) (toconverter w) (f (troutcount w)) (Xterm w) (ANSIgraphics w) (launchurlesc w).

(** ** Tables *)

Section Translate.
Context `{TextEncodings}.

Definition GetTranslationIndex (table : Z) : Z := if gTableCount <? table then gTableCount - table else table.

(** The table of 256 bytes, if there is one. *)
Definition ReturnTablePtr (table : Z) (out : bool) : option (Z -> Z) :=
  let ptable := if (table <? 1) || (gTableCount <? table) then DefaultTable else Some (transTable table) in
  if out then (fun p i => p (i + 256)) <$> ptable else ptable.

(** A call of the converter: what it answers, and the converter afterwards. *)
Definition tec_convert (cv : converter) (s : bytes) (room : Z) : Z * Z * bytes * converter :=
  (TECConvertText cv s room, mkConverter (cv_from cv) (cv_to cv) (cv_calls cv ++ [TECConverted s room])).
Definition tec_flush (cv : converter) (room : Z) : converter :=
  mkConverter (cv_from cv) (cv_to cv) (cv_calls cv ++ [TECFlushed room]).

(** ** Switching *)

(** The encodings of a table of [switchintranslation]. *)
Definition in_encodings (table : Z) : option (encoding * encoding) :=
  if table =? kTRJIS then Some (ISO_2022_JP, MacJapanese)
  else if table =? kTREUC_JP then Some (EUC_JP, MacJapanese)
  else if table =? kTRShiftJIS then Some (ShiftJIS, MacJapanese)
  else if table =? kTRBig5 then
    Some (Big5, match gLocalEncoding with None => MacChineseTrad | Some c => ScriptEncoding c end)
  else if table =? kTRJISX0208_1978 then Some (ISO_2022_JP, MacJapanese)
  else if table =? kTRJISX0208_1983 then Some (ISO_2022_JP, MacJapanese)
  else if table =? kTRJISX0212_1990 then Some (JIS_X0212_90, MacJapanese)
  else if table =? kTRJISX0201_76kana then Some (JIS_X0201_76, MacJapanese)
  else None.

(** The escape sequence that selects a character set in ISO-2022-JP. *)
Definition charset_escape (charset : Z) : option bytes :=
  if charset =? kASCII then Some [0x1b; 40; 66]
  else if charset =? kJISX0201_1976 then Some [0x1b; 40; 74]
  else if charset =? kJISX0208_1978 then Some [0x1b; 36; 64]
  else if charset =? kJISX0208_1983 then Some [0x1b; 36; 66]
  else if charset =? kJISX0201_1976Kana then Some [0x1b; 40; 73]
  else if charset =? kJISX0212_1990 then Some [0x1b; 36; 68]
  else None.

Definition national_index (national : Z) : Z := if national <? 0 then gTableCount - national else national.

Definition new_converter (e : option (encoding * encoding)) : option converter :=
  match e with
  | Some (i, o) => if TECCreateConverter i o then Some (mkConverter i o []) else None
  | None => None
  end.

(** The new [tw], and whether the characters pending in [VSIw] were dropped.
    Nothing is being logged ([gVSemlogging] is 0). *)
Definition switchintranslation (tw : window) (national charset : Z) : window * bool :=
  let national := national_index national in
  let charset := if charset <? 0 then 0 else charset in
  let table := GetTranslationIndex national in
  let '(tw, charset, reset) :=
    if negb (innational tw =? national) then
      (tw <| fromconverter := new_converter (in_encodings table) |> <| innational := national |> <| incharset := -1 |>,
       if table =? kTRJISX0208_1978 then kJISX0208_1978 else if table =? kTRJISX0208_1983 then kJISX0208_1983 else charset, true)
    else
      (tw, if national =? kTRJISX0208_1978 then kJISX0208_1978 else if national =? kTRJISX0208_1983 then kJISX0208_1983 else charset, false) in
  if ((table =? kTRJIS) || (table =? kTRJISX0208_1978) || (table =? kTRJISX0208_1983)) && negb (incharset tw =? charset) then
    let tw := tw <| incharset := charset |> in
    match fromconverter tw with
    | None => (tw, reset)
    | Some cv =>
      let cv := tec_flush cv 4 in
      match charset_escape charset with
      | None => (tw <| fromconverter := Some cv |>, reset)
      | Some s => (tw <| fromconverter := Some (tec_convert cv s 4).2 |>, reset)
      end
    end
  else (tw, reset).

(** The encodings of a table of [switchouttranslation]. *)
Definition out_encodings (table : Z) : option (encoding * encoding) :=
  (fun '(i, o) => (o, i)) <$> in_encodings table.

(** The output charset is not used: the code that would select it is commented
    out. *)
Definition switchouttranslation (tw : window) (national charset : Z) : window :=
  let national := national_index national in
  let table := GetTranslationIndex national in
  if negb (outnational tw =? national) then
    let tw := tw <| toconverter := new_converter (out_encodings table) |> in
    let tw := match out_encodings table with Some _ => tw <| troutcount := 0 |> | None => tw end in
    tw <| outnational := national |> <| outcharset := -1 |>
  else tw.

Definition inittranslation (tw : window) : window * bool :=
  let national := innational tw in
  let tw := tw <| fromconverter := None |> <| toconverter := None |> <| innational := 0x7fff |> <| incharset := -1 |>
               <| outnational := 0x7fff |> <| outcharset := -1 |> in
  let '(tw, reset) := switchintranslation tw national kASCII in
  (switchouttranslation tw national kASCII, reset).

Definition disposetranslation (tw : window) : window := tw <| fromconverter := None |> <| toconverter := None |>.

Definition trflush_mac_nat (tw : window) : window :=
  let tw := tw <| troutcount := 0 |> in
  if GetTranslationIndex (outnational tw) <? 0 then
    match toconverter tw with
    | Some cv => tw <| toconverter := Some (tec_flush cv 32) |>
    | None => tw
    end
  else tw.

Definition trflush_nat_mac (tw : window) : window :=
  if GetTranslationIndex (innational tw) <? 0 then
    match fromconverter tw with
    | Some cv => tw <| fromconverter := Some (tec_flush cv 32) |>
    | None => tw
    end
  else tw.

(** ** Translating *)

Definition by_table (t : option (Z -> Z)) (buf : bytes) : bytes := match t with Some t => t <$> buf | None => buf end.

(** The result code, the bytes taken, what was put out. *)
Definition trbuf_nat_mac (tw : window) (buf : bytes) (room : Z) : Z * Z * bytes * window :=
  let table := GetTranslationIndex (innational tw) in
  let copied := (0, zlen buf, buf, tw) in
  let converted :=
    match fromconverter tw with
    | Some cv => let '(r, cv) := tec_convert cv buf room in (r, tw <| fromconverter := Some cv |>)
    | None => copied
    end in
  if 0 <=? table then (0, zlen buf, by_table (ReturnTablePtr table false) buf, tw)
  else if (table =? kTRJIS) || (table =? kTRJISX0208_1978) || (table =? kTRJISX0208_1983) then
    if (incharset tw =? kASCII) || (incharset tw =? kJISX0201_1976) || (incharset tw =? kJISX0208_1978)
       || (incharset tw =? kJISX0208_1983) || (incharset tw =? kJISX0212_1990) then converted
    else copied
  else if (table =? kTREUC_JP) || (table =? kTRShiftJIS) || (table =? kTRBig5) || (table =? kTRJISX0212_1990)
          || (table =? kTRJISX0201_76kana) then converted
  else copied.

Definition trbuf_mac_nat (tw : window) (buf : bytes) (room : Z) : Z * Z * bytes * window :=
  let table := GetTranslationIndex (outnational tw) in
  let copied := (0, zlen buf, buf, tw) in
  if 0 <=? table then (0, zlen buf, by_table (ReturnTablePtr table true) buf, tw)
  else if (kTRJISX0201_76kana <=? table) && (table <=? kTRJIS) then
    match toconverter tw with
    | Some cv => let '(r, cv) := tec_convert cv buf room in (r, tw <| toconverter := Some cv |>)
    | None => copied
    end
  else copied.

End Translate.

End Translate.
