(* ===== verification/Lines.v ===== *)
(** The storage of terminal lines (Screens/vsintern.c): the doubly-linked
    list of [VSline] elements in the heap, their allocation in blocks
    ([VSInewlines]), the array of the screen's lines ([VSIlistndx]), moving a
    run of lines ([VSIlistmove]) and freeing a list ([VSIfreelinelist]); and
    the separation of such a heap into sequences of linked elements, for which
    moving a run of lines is shown to be moving a sublist. *)
From S2P Require Import Prelude Window.

Module Lines.

(** ** The heap *)

(** [struct VSline]: [next] and [prev] are addresses, 0 is [NULL]. *)
Record VSline := mkVSline {
  next : Z; prev : Z; lattr : Z; text : bytes; attr : bytes; mem : Z
}.

#[export] Instance set_next_field : Setter next := fun f l => mkVSline (f (next l)) (prev l) (lattr l) (text l) (attr l) (mem l).
#[export] Instance set_prev_field : Setter prev := fun f l => mkVSline (next l) (f (prev l)) (lattr l) (text l) (attr l) (mem l).
#[export] Instance set_lattr_field : Setter lattr := fun f l => mkVSline (next l) (prev l) (f (lattr l)) (text l) (attr l) (mem l).
#[export] Instance set_text_field : Setter text := fun f l => mkVSline (next l) (prev l) (lattr l) (f (text l)) (attr l) (mem l).
#[export] Instance set_attr_field : Setter attr := fun f l => mkVSline (next l) (prev l) (lattr l) (text l) (f (attr l)) (mem l).

(** The line elements by address, the next address to be handed out, and the
    number of elements of every block that was allocated. *)
Record heap := mkHeap { cells : gmap Z VSline; brk : Z; blocks : gmap Z Z }.

#[export] Instance set_cells : Setter cells := fun f h => mkHeap (f (cells h)) (brk h) (blocks h).

(** The Macintosh memory manager: whether a request of so many bytes can be
    served, the bytes a new block happens to hold, how many bytes a block of
    the requested size really has, and the sizes of [VSline], [VSscrn] and
    pointers on the machine. *)
Class Memory := {
  myNewPtrCritical : Z -> heap -> bool;
  myNewPtr : Z -> heap -> bool;
  leftover : Z -> nat -> Z;
  usable : Z -> Z;
  sizeof_VSline : Z;
  sizeof_VSscrn : Z;
  sizeof_pointer : Z
}.

(** [p->field] *)
Definition load (p : Z) (h : heap) : outcome VSline :=
  match cells h !! p with Some l => Done l | None => Crash NullDeref end.

Definition modify (p : Z) (f : VSline -> VSline) (h : heap) : outcome heap :=
  l ← load p h; Done (h <| cells := <[p := f l]> (cells h) |>).

Definition set_next (p v : Z) : heap -> outcome heap := modify p (fun l => l <| next := v |>).
Definition set_prev (p v : Z) : heap -> outcome heap := modify p (fun l => l <| prev := v |>).

(** ** Allocation *)

Section Allocation.
Context `{Memory}.

(** The element [i] of a new block of [nlines] lines of [width] characters. *)
Definition new_line (base nlines : Z) (width : nat) (i : Z) : VSline :=
  {| next := if i =? nlines - 1 then 0 else base + i + 1;
     prev := if i =? 0 then 0 else base + i - 1;
     lattr := 0;
     text := leftover (base + i) <$> seq 0 width;
     attr := leftover (base + i) <$> seq width width;
     mem := if i =? 0 then 1 else 0 |}.

(** A block of [nlines] lines, or 0 without memory; [allwidth] is the global
    [VSIw->allwidth]. *)
Definition VSInewlines (allwidth nlines : Z) (h : heap) : outcome (Z * heap) :=
  let width := allwidth + 1 in
  if myNewPtrCritical (nlines * (sizeof_VSline + width * (1 + 4))) h then
    if nlines <=? 0 then Crash OutOfBounds
    else
      let base := brk h in
      let new := (fun i => (base + i, new_line base nlines (Z.to_nat width) i)) <$> seqZ 0 nlines in
      Done (base, mkHeap (list_to_map new ∪ cells h) (base + nlines) (<[base := nlines]> (blocks h)))
  else Done (0, h).

End Allocation.

(** [DisposePtr]: the whole block goes. *)
Definition DisposePtr (p : Z) (h : heap) : outcome heap :=
  match blocks h !! p with
  | Some n => Done (mkHeap (foldr delete (cells h) (seqZ p n)) (brk h) (delete p (blocks h)))
  | None => Crash BadArgument
  end.

(** The first loop of [VSIfreelinelist] threads the first elements of the
    blocks into a list [ToFree], the second one frees them. An element is
    visited at most once, so the size of the heap is enough fuel. *)
Fixpoint free_collect (fuel : nat) (listhead ThisElt ToFree : Z) (h : heap) : outcome (Z * heap) :=
  match fuel with
  | O => Crash BadArgument
  | S fuel =>
    if ThisElt =? 0 then Done (ToFree, h)
    else
      e ← load ThisElt h;
      let NextElt := next e in
      '(ToFree, h) ← (if negb (mem e =? 0) then
                        h ← set_next ThisElt ToFree h; Done (ThisElt, h)
                      else Done (ToFree, h));
      if NextElt =? listhead then Done (ToFree, h)
      else free_collect fuel listhead NextElt ToFree h
  end.

Fixpoint free_blocks (fuel : nat) (ToFree : Z) (h : heap) : outcome heap :=
  match fuel with
  | O => Crash BadArgument
  | S fuel =>
    if ToFree =? 0 then Done h
    else
      e ← load ToFree h;
      h ← DisposePtr ToFree h;
      free_blocks fuel (next e) h
  end.

Definition VSIfreelinelist (listhead : Z) (h : heap) : outcome heap :=
  let fuel := S (size (cells h)) in
  '(ToFree, h) ← free_collect fuel listhead listhead 0 h;
  free_blocks fuel ToFree h.

(** ** The screen's lines *)

(** [VSIlistndx]: the array of the [n] lines from [ts] on. The code reads
    [next] of the last one too. *)
Fixpoint VSIlistndx (n : nat) (ts : Z) (h : heap) : outcome (list Z) :=
  match n with
  | O => Done []
  | S n => l ← load ts h; r ← VSIlistndx n (next l) h; Done (ts :: r)
  end.

(** Moves the lines from [TD] to [BD] between [TI] and [BI], which may be
    [NULL]. *)
Definition VSIlistmove (TD BD TI BI : Z) (h : heap) : outcome heap :=
  td ← load TD h;
  h ← (if negb (prev td =? 0) then bd ← load BD h; set_next (prev td) (next bd) h else Done h);
  bd ← load BD h;
  h ← (if negb (next bd =? 0) then td ← load TD h; set_prev (next bd) (prev td) h else Done h);
  h ← set_prev TD TI h;
  h ← set_next BD BI h;
  h ← (if negb (TI =? 0) then set_next TI TD h else Done h);
  if negb (BI =? 0) then set_prev BI BD h else Done h.

(** ** Lemmas: the fields of an element *)

Definition nx (h : heap) (p : Z) : Z := match cells h !! p with Some l => next l | None => 0 end.
Definition pv (h : heap) (p : Z) : Z := match cells h !! p with Some l => prev l | None => 0 end.
(** What a line says: its attribute, its characters and theirs. *)
Definition ct (h : heap) (p : Z) : option (Z * bytes * bytes) :=
  (fun l => (lattr l, text l, attr l)) <$> (cells h !! p).
Definition valid (h : heap) (p : Z) : Prop := is_Some (cells h !! p).

(** The two heaps hold the same lines, linked in whatever way. *)
Definition same_lines (h h' : heap) : Prop :=
  (forall p, ct h' p = ct h p) /\ (forall p, (mem <$> (cells h' !! p)) = (mem <$> (cells h !! p)))
  /\ brk h' = brk h /\ blocks h' = blocks h.

Lemma same_lines_refl h : same_lines h h.
Proof. done. Qed.
Lemma same_lines_trans h1 h2 h3 : same_lines h1 h2 -> same_lines h2 h3 -> same_lines h1 h3.
Proof. intros (A1 & A2 & A3 & A4) (B1 & B2 & B3 & B4). split_and!; intros; congruence. Qed.
#[export] Hint Resolve same_lines_refl same_lines_trans : macssh.

Lemma valid_ct h p : valid h p <-> is_Some (ct h p).
Proof. unfold valid, ct. by rewrite fmap_is_Some. Qed.
Lemma same_lines_valid h h' p : same_lines h h' -> valid h' p <-> valid h p.
Proof. intros (E & _). by rewrite !valid_ct, E. Qed.

Lemma load_valid h p : valid h p -> exists l, load p h = Done l /\ cells h !! p = Some l /\ next l = nx h p /\ prev l = pv h p.
Proof. intros [l Hl]. exists l. unfold load, nx, pv. by rewrite Hl. Qed.

Lemma set_next_ok p v h :
  valid h p -> exists h', set_next p v h = Done h' /\ same_lines h h'
  /\ (forall q, nx h' q = if decide (q = p) then v else nx h q) /\ (forall q, pv h' q = pv h q).
Proof.
  intros (l & Hl). unfold set_next, modify, load. rewrite Hl. eexists. split; [reflexivity|].
  unfold same_lines, nx, pv, ct. cbn [cells brk blocks set_cells update].
  split_and!; try done; intros q; cbn; destruct (decide (q = p)) as [->|Hq];
    rewrite ?lookup_insert_eq, ?(lookup_insert_ne _ p q) by done; rewrite ?Hl; done.
Qed.

Lemma set_prev_ok p v h :
  valid h p -> exists h', set_prev p v h = Done h' /\ same_lines h h'
  /\ (forall q, nx h' q = nx h q) /\ (forall q, pv h' q = if decide (q = p) then v else pv h q).
Proof.
  intros (l & Hl). unfold set_prev, modify, load. rewrite Hl. eexists. split; [reflexivity|].
  unfold same_lines, nx, pv, ct.
  split_and!; try done; intros q; cbn; destruct (decide (q = p)) as [->|Hq];
    rewrite ?lookup_insert_eq, ?(lookup_insert_ne _ p q) by done; rewrite ?Hl; done.
Qed.

(** ** Linked sequences *)

(** [y] follows [x]; 0 stands for the end of a list that is not circular. *)
Definition joined (h : heap) (x y : Z) : Prop := (x <> 0 -> nx h x = y) /\ (y <> 0 -> pv h y = x).

Fixpoint links (h : heap) (l : list Z) : Prop :=
  match l with
  | x :: (y :: _) as r => joined h x y /\ links h r
  | _ => True
  end.

Lemma links_app h x l1 l2 : links h (l1 ++ x :: l2) <-> links h (l1 ++ [x]) /\ links h (x :: l2).
Proof.
  induction l1 as [|a l1 IH]; cbn [app]; [cbn; tauto|].
  destruct l1 as [|b l1]; cbn [app] in *; [cbn; tauto|].
  change (joined h a b /\ links h (b :: l1 ++ x :: l2) <->
    (joined h a b /\ links h (b :: l1 ++ [x])) /\ links h (x :: l2)). tauto.
Qed.

(** Links do not depend on what else changes. *)
Lemma links_frame h h' l :
  (forall x, x ∈ removelast l -> nx h' x = nx h x) -> (forall y, y ∈ tail l -> pv h' y = pv h y) ->
  links h l -> links h' l.
Proof.
  induction l as [|x [|y l] IH]; [done..|]. intros Hn Hp [(H1 & H2) Hl].
  change (removelast (x :: y :: l)) with (x :: removelast (y :: l)) in Hn. cbn [tail] in Hp. split.
  - split; intros; [rewrite Hn by apply list_elem_of_here; auto | rewrite Hp by apply list_elem_of_here; auto].
  - apply IH; [| |done]; intros z Hz; [apply Hn; by apply list_elem_of_further | apply Hp].
    cbn [tail] in Hz. by apply list_elem_of_further.
Qed.

Lemma links_same h h' l :
  (forall x, nx h' x = nx h x) -> (forall x, pv h' x = pv h x) -> links h l -> links h' l.
Proof. intros Hn Hp. apply links_frame; auto. Qed.

(** Taking a run [D] out: its neighbours are joined. *)
Lemma links_unlink h h' P x D y Q :
  links h ((P ++ [x]) ++ D ++ y :: Q) ->
  (x <> 0 -> x ∉ P /\ x ∉ removelast (y :: Q)) -> (y <> 0 -> y ∉ tail (P ++ [x]) /\ y ∉ Q) ->
  (forall q, nx h' q = if decide (q = x /\ x <> 0) then y else nx h q) ->
  (forall q, pv h' q = if decide (q = y /\ y <> 0) then x else pv h q) ->
  links h' ((P ++ [x]) ++ y :: Q).
Proof.
  intros Hl Hx Hy Hn Hp. rewrite app_assoc in Hl. apply links_app in Hl as [Hl1 Hl2].
  rewrite <- app_assoc in Hl1. rewrite <- app_assoc. cbn [app].
  rewrite <- (app_assoc P [x] (D ++ [y])) in Hl1. cbn [app] in Hl1. apply links_app in Hl1 as [Hl1 _].
  apply links_app. split; [|split].
  - revert Hl1. apply links_frame.
    + intros z Hz. rewrite removelast_last in Hz. rewrite Hn. rewrite decide_False; [done|].
      intros [-> H0]. destruct (Hx H0). done.
    + intros z Hz. rewrite Hp, decide_False; [done|]. intros [-> H0]. by destruct (Hy H0).
  - split; intros H0; [rewrite Hn, decide_True by done; done | rewrite Hp, decide_True by done; done].
  - revert Hl2. apply links_frame.
    + intros z Hz. rewrite Hn, decide_False; [done|]. intros [-> H0]. destruct (Hx H0). done.
    + intros z Hz. rewrite Hp, decide_False; [done|]. intros [-> H0]. destruct (Hy H0). done.
Qed.

Lemma removelast_subseteq (l : list Z) z : z ∈ removelast l -> z ∈ l.
Proof.
  induction l as [|x [|y l] IH]; [done | intros Hz; inversion Hz |].
  change (removelast (x :: y :: l)) with (x :: removelast (y :: l)).
  rewrite (elem_of_cons (removelast _)), (elem_of_cons (y :: l)). intros [->|Hz]; [by left | right; by apply IH].
Qed.

(** Putting a run [D] in between two neighbours. *)
Lemma links_relink h h' P u D v Q TD BD :
  links h ((P ++ [u]) ++ v :: Q) -> links h D ->
  head D = Some TD -> last D = Some BD -> NoDup D ->
  (forall z, z ∈ D -> z <> 0 /\ z ∉ P ++ [u] /\ z ∉ v :: Q) ->
  (u <> 0 -> u ∉ P /\ u ∉ removelast (v :: Q)) -> (v <> 0 -> v ∉ tail (P ++ [u]) /\ v ∉ Q) ->
  (forall q, nx h' q = if decide (q = u /\ u <> 0) then TD else if decide (q = BD) then v else nx h q) ->
  (forall q, pv h' q = if decide (q = v /\ v <> 0) then BD else if decide (q = TD) then u else pv h q) ->
  links h' ((P ++ [u]) ++ D ++ v :: Q).
Proof.
  intros Hl HD Eh El Hnd Hdis Hu Hv Hn Hp.
  destruct D as [|TD' D1]; [done|]. injection Eh as ->.
  assert (HTD : TD ∈ TD :: D1) by apply list_elem_of_here.
  assert (HBD : BD ∈ TD :: D1) by by apply last_Some_elem_of.
  apply links_app in Hl as [Hl1 Hl2]; rewrite <- app_assoc in Hl1; cbn [app] in Hl1; apply links_app in Hl1 as [Hl1 _].
  assert (Hl3 : links h (v :: Q)) by done.
  assert (Hjoin : links h' (TD :: D1)).
  { revert HD. apply links_frame.
    - intros z Hz. assert (Hz' : z ∈ TD :: D1) by by apply removelast_subseteq.
      destruct (Hdis z Hz') as (_ & Hz1 & _). rewrite Hn, decide_False by (intros [-> _]; set_solver).
      rewrite decide_False; [done|]. intros ->. apply last_Some in El as [D0 E0]. rewrite E0 in Hz, Hnd.
      rewrite removelast_last in Hz. apply NoDup_app in Hnd as (_ & Hnd & _). apply (Hnd _ Hz). set_solver.
    - intros z Hz. cbn [tail] in Hz. assert (Hz' : z ∈ TD :: D1) by set_solver.
      destruct (Hdis z Hz') as (_ & _ & Hz1). rewrite Hp, decide_False by (intros [-> _]; set_solver).
      rewrite decide_False; [done|]. intros ->. inversion Hnd. done. }
  rewrite <- app_assoc. change ([u] ++ (TD :: D1) ++ v :: Q) with (u :: (TD :: D1) ++ v :: Q).
  apply links_app. split; [|split].
  - revert Hl1. apply links_frame.
    + intros z Hz. rewrite removelast_last in Hz. rewrite Hn, decide_False by (intros [-> H0]; by destruct (Hu H0)).
      rewrite decide_False; [done|]. intros ->. destruct (Hdis _ HBD) as (_ & H1 & _). set_solver.
    + intros z Hz. rewrite Hp, decide_False by (intros [-> H0]; by destruct (Hv H0)).
      rewrite decide_False; [done|]. intros ->. destruct (Hdis _ HTD) as (_ & H1 & _). apply H1.
      destruct (P ++ [u]); [done|]. by apply list_elem_of_further.
  - destruct (Hdis _ HTD) as (H0 & H1 & H2). split; intros Hz.
    + rewrite Hn, decide_True by done. done.
    + rewrite Hp. rewrite decide_False by (intros [-> _]; set_solver). by rewrite decide_True.
  - apply last_Some in El as [D0 E0]. change (TD :: D1 ++ v :: Q) with ((TD :: D1) ++ v :: Q). rewrite E0 in *.
    rewrite <- app_assoc. cbn [app]. apply links_app. split; [exact Hjoin|]. split.
    + destruct (Hdis _ HBD) as (H0 & H1 & H2). split; intros Hz.
      * rewrite Hn, decide_False by (intros [-> _]; set_solver). by rewrite decide_True.
      * rewrite Hp, decide_True by done. done.
    + revert Hl3. apply links_frame.
      * intros z Hz. rewrite Hn, decide_False by (intros [-> H0]; by destruct (Hu H0)).
        rewrite decide_False; [done|]. intros ->. destruct (Hdis _ HBD) as (_ & _ & H1). apply H1. by apply removelast_subseteq.
      * intros z Hz. rewrite Hp, decide_False by (intros [-> H0]; by destruct (Hv H0)).
        rewrite decide_False; [done|]. intros ->. destruct (Hdis _ HTD) as (_ & _ & H1). apply H1. by apply list_elem_of_further.
Qed.

(** The writes the code guards against [NULL]. *)
Lemma set_next_unless_null p v h :
  (p <> 0 -> valid h p) -> exists h', (if negb (p =? 0) then set_next p v h else Done h) = Done h' /\ same_lines h h'
  /\ (forall q, nx h' q = if decide (q = p /\ p <> 0) then v else nx h q) /\ (forall q, pv h' q = pv h q).
Proof.
  intros Hp. destruct (Z.eqb_spec p 0) as [->|H0]; cbn [negb].
  - exists h. split; [done|]. split; [done|]. split; intros q; [by rewrite decide_False by tauto | done].
  - destruct (set_next_ok p v h (Hp H0)) as (h' & E & Hs & Hn & Hv). exists h'. split; [done|]. split; [done|]. split; [|done].
    intros q. rewrite Hn. destruct (decide (q = p)); [by rewrite decide_True | by rewrite decide_False by tauto].
Qed.

Lemma set_prev_unless_null p v h :
  (p <> 0 -> valid h p) -> exists h', (if negb (p =? 0) then set_prev p v h else Done h) = Done h' /\ same_lines h h'
  /\ (forall q, nx h' q = nx h q) /\ (forall q, pv h' q = if decide (q = p /\ p <> 0) then v else pv h q).
Proof.
  intros Hp. destruct (Z.eqb_spec p 0) as [->|H0]; cbn [negb].
  - exists h. split; [done|]. split; [done|]. split; intros q; [done | by rewrite decide_False by tauto].
  - destruct (set_prev_ok p v h (Hp H0)) as (h' & E & Hs & Hn & Hv). exists h'. split; [done|]. split; [done|]. split; [done|].
    intros q. rewrite Hv. destruct (decide (q = p)); [by rewrite decide_True | by rewrite decide_False by tauto].
Qed.

(** In a sequence every source and every target of a link occurs once. *)
Definition once (l : list Z) : Prop := NoDup (removelast l) /\ NoDup (tail l).

Lemma removelast_app_cons (l : list Z) y Q : removelast (l ++ y :: Q) = l ++ removelast (y :: Q).
Proof. by apply removelast_app. Qed.

Lemma once_frame P x D y Q : once ((P ++ [x]) ++ D ++ y :: Q) ->
  (forall z, z ∈ D -> z ∉ P ++ [x] /\ z ∉ y :: Q)
  /\ (x ∉ P /\ x ∉ removelast (y :: Q)) /\ (y ∉ tail (P ++ [x]) /\ y ∉ Q).
Proof.
  intros [Hs Ht]. rewrite app_assoc, removelast_app_cons in Hs.
  assert (Et : tail ((P ++ [x]) ++ D ++ y :: Q) = tail (P ++ [x]) ++ D ++ y :: Q) by by destruct P.
  rewrite Et in Ht. apply NoDup_app in Hs as (Hs1 & Hs2 & _). apply NoDup_app in Hs1 as (Hs3 & Hs4 & Hs5).
  apply NoDup_app in Ht as (_ & Ht1 & Ht2). apply NoDup_app in Ht2 as (_ & Ht3 & Ht4). split; [|split].
  - intros z Hz. split; [intros Hz'; by apply (Hs4 z) | by apply Ht3].
  - apply NoDup_app in Hs3 as (_ & Hs6 & _). split; [intros Hx; apply (Hs6 x Hx), list_elem_of_here |].
    apply Hs2. set_solver.
  - split; [intros Hy; apply (Ht1 y Hy); set_solver |]. by inversion Ht4.
Qed.

Lemma once_relink P x D y Q P' u v Q' :
  once ((P ++ [x]) ++ D ++ y :: Q) -> (P ++ [x]) ++ y :: Q = (P' ++ [u]) ++ v :: Q' ->
  (forall z, z ∈ D -> z ∉ P' ++ [u] /\ z ∉ v :: Q')
  /\ (u ∉ P' /\ u ∉ removelast (v :: Q')) /\ (v ∉ tail (P' ++ [u]) /\ v ∉ Q') /\ NoDup D.
Proof.
  intros H E. destruct (once_frame _ _ _ _ _ H) as (HD & _ & _).
  assert (Ho : once ((P' ++ [u]) ++ [] ++ v :: Q')).
  { cbn [app]. rewrite <- E. destruct H as [Hs Ht]. split.
    - rewrite app_assoc, removelast_app_cons in Hs. rewrite removelast_app_cons.
      apply NoDup_app in Hs as (Hs1 & Hs2 & Hs3). apply NoDup_app in Hs1 as (Hs4 & _ & _).
      apply NoDup_app. split_and!; [done | | done]. intros z Hz. apply Hs2. set_solver.
    - assert (Et : tail ((P ++ [x]) ++ D ++ y :: Q) = tail (P ++ [x]) ++ D ++ y :: Q) by by destruct P.
      assert (Et' : tail ((P ++ [x]) ++ y :: Q) = tail (P ++ [x]) ++ y :: Q) by by destruct P.
      rewrite Et in Ht. rewrite Et'. apply NoDup_app in Ht as (Ht1 & Ht2 & Ht3). apply NoDup_app in Ht3 as (_ & _ & Ht4).
      apply NoDup_app. split_and!; [done | | done]. intros z Hz Hz'. apply (Ht2 z Hz), elem_of_app. by right. }
  destruct (once_frame _ _ _ _ _ Ho) as (_ & H1 & H2). split; [|split_and!; try apply H1; try apply H2].
  - intros z Hz. destruct (HD z Hz) as [H3 H4]. assert (Hz' : z ∉ (P' ++ [u]) ++ v :: Q') by (rewrite <- E; set_solver).
    set_solver.
  - destruct H as [_ Ht]. assert (Et : tail ((P ++ [x]) ++ D ++ y :: Q) = tail (P ++ [x]) ++ D ++ y :: Q) by by destruct P.
    rewrite Et in Ht. apply NoDup_app in Ht as (_ & _ & Ht). by apply NoDup_app in Ht as (Ht & _ & _).
Qed.

(** [VSIlistmove] moves a sublist. *)
Lemma listmove_links h P x D y Q P' u v Q' TD BD :
  links h ((P ++ [x]) ++ D ++ y :: Q) -> once ((P ++ [x]) ++ D ++ y :: Q) ->
  (P ++ [x]) ++ y :: Q = (P' ++ [u]) ++ v :: Q' ->
  (forall z, z ∈ D -> z <> 0) -> (forall z, z ∈ (P ++ [x]) ++ D ++ y :: Q -> z <> 0 -> valid h z) ->
  head D = Some TD -> last D = Some BD ->
  exists h', VSIlistmove TD BD u v h = Done h' /\ same_lines h h' /\ links h' ((P' ++ [u]) ++ D ++ v :: Q').
Proof.
  intros Hl Ho E HD0 Hval Eh El.
  destruct (once_frame _ _ _ _ _ Ho) as (HD & Hx & Hy).
  destruct (once_relink _ _ _ _ _ _ _ _ _ Ho E) as (HD' & Hu & Hv & Hnd).
  destruct D as [|TD' D1]; [done|]. injection Eh as ->.
  assert (HTD : TD ∈ TD :: D1) by apply list_elem_of_here.
  assert (HBD : BD ∈ TD :: D1) by by apply last_Some_elem_of.
  assert (Eprev : pv h TD = x).
  { rewrite <- app_assoc in Hl. apply links_app in Hl as [_ [[_ Hj] _]]. by apply Hj, HD0. }
  assert (Enext : nx h BD = y /\ links h (TD :: D1)).
  { pose proof El as El'. apply last_Some in El' as [D0 E0]. rewrite E0 in Hl |- *.
    rewrite app_assoc, app_assoc, <- (app_assoc _ [BD]) in Hl. cbn [app] in Hl. apply links_app in Hl as [Hl1 [[Hj _] _]].
    split; [by apply Hj, HD0|]. rewrite <- app_assoc, <- app_assoc in Hl1. cbn [app] in Hl1.
    apply links_app in Hl1 as [_ Hl1]. destruct D0; [done|]. by destruct Hl1. }
  destruct Enext as [Enext Hin].
  assert (Hv1 : forall z, z <> 0 -> z ∈ (P' ++ [u]) ++ v :: Q' -> valid h z).
  { intros z H0 Hz. apply Hval; [|done]. rewrite <- E in Hz. set_solver. }
  assert (HvD : forall z, z ∈ TD :: D1 -> valid h z) by (intros z Hz; apply Hval; [set_solver | by apply HD0]).
  unfold VSIlistmove.
  destruct (load_valid h TD (HvD _ HTD)) as (td & -> & _ & _ & Etd). cbn [mbind outcome_bind]. rewrite Etd, Eprev.
  destruct (load_valid h BD (HvD _ HBD)) as (bd & -> & _ & Ebd & _). cbn [mbind outcome_bind]. rewrite Ebd, Enext.
  destruct (set_next_unless_null x y h) as (h1 & -> & S1 & N1 & V1); [intros H0; apply Hval; [set_solver|done]|].
  cbn [mbind outcome_bind].
  destruct (load_valid h1 BD) as (bd1 & -> & _ & Ebd1 & _); [by apply (same_lines_valid _ _ _ S1), HvD|]. cbn [mbind outcome_bind]. rewrite Ebd1.
  assert (nx h1 BD = y) as ->.
  { rewrite N1. destruct (decide (BD = x /\ x <> 0)) as [Hd|Hd]; [reflexivity | exact Enext]. }
  destruct (load_valid h1 TD) as (td1 & -> & _ & _ & Etd1); [by apply (same_lines_valid _ _ _ S1), HvD|]. cbn [mbind outcome_bind].
  rewrite Etd1, V1, Eprev.
  destruct (set_prev_unless_null y x h1) as (h2 & -> & S2 & N2 & V2).
  { intros H0. apply (same_lines_valid _ _ _ S1), Hval; [set_solver|done]. }
  cbn [mbind outcome_bind].
  assert (S02 : same_lines h h2) by eauto with macssh.
  destruct (set_prev_ok TD u h2) as (h3 & -> & S3 & N3 & V3); [by apply (same_lines_valid _ _ _ S02), HvD|]. cbn [mbind outcome_bind].
  assert (S03 : same_lines h h3) by eauto with macssh.
  destruct (set_next_ok BD v h3) as (h4 & -> & S4 & N4 & V4); [by apply (same_lines_valid _ _ _ S03), HvD|]. cbn [mbind outcome_bind].
  assert (S04 : same_lines h h4) by eauto with macssh.
  destruct (set_next_unless_null u TD h4) as (h5 & -> & S5 & N5 & V5).
  { intros H0. apply (same_lines_valid _ _ _ S04), Hv1; [done|set_solver]. }
  cbn [mbind outcome_bind]. assert (S05 : same_lines h h5) by eauto with macssh.
  destruct (set_prev_unless_null v BD h5) as (h6 & -> & S6 & N6 & V6).
  { intros H0. apply (same_lines_valid _ _ _ S05), Hv1; [done|set_solver]. }
  exists h6. split; [done|]. split; [eauto with macssh|].
  apply (links_relink h2 h6 P' u (TD :: D1) v Q' TD BD); try done.
  - rewrite <- E. apply (links_unlink h h2 P x (TD :: D1) y Q Hl); [done | done | |].
    + intros q. by rewrite N2, N1.
    + intros q. by rewrite V2, V1.
  - revert Hin. apply links_frame.
    + intros z Hz. apply removelast_subseteq in Hz. rewrite N2, N1. destruct (decide _) as [Hd|Hd]; [|done]. destruct Hd as [-> _].
      destruct (HD x Hz) as [H1 _]. set_solver.
    + intros z Hz. rewrite V2, V1. destruct (decide _) as [Hd|Hd]; [|done]. destruct Hd as [-> _].
      destruct (HD y) as [_ H1]; [by apply list_elem_of_further | set_solver].
  - intros z Hz. split; [by apply HD0 | by apply HD'].
  - intros q. by rewrite N6, N5, N4, N3.
  - intros q. by rewrite V6, V5, V4, V3.
Qed.

Lemma last_snoc_split (l : list Z) x : last l = Some x -> exists l0, l = l0 ++ [x].
Proof. apply last_Some. Qed.
Lemma head_cons_split (l : list Z) x : head l = Some x -> exists l0, l = x :: l0.
Proof. destruct l; [done|]. intros [= ->]. by eexists. Qed.
Lemma nonempty_last (l : list Z) : l <> [] -> exists x, last l = Some x.
Proof. intros H. destruct (last l) eqn:E; [by eexists | by apply last_None in E]. Qed.
Lemma nonempty_head (l : list Z) : l <> [] -> exists x, head l = Some x.
Proof. destruct l; [done|]. by eexists. Qed.

Lemma listmove_seq h A D B A' B' TD BD u v :
  links h (A ++ D ++ B) -> once (A ++ D ++ B) -> A ++ B = A' ++ B' -> A <> [] -> B <> [] ->
  (forall z, z ∈ D -> z <> 0) -> (forall z, z ∈ A ++ D ++ B -> z <> 0 -> valid h z) ->
  head D = Some TD -> last D = Some BD -> last A' = Some u -> head B' = Some v ->
  exists h', VSIlistmove TD BD u v h = Done h' /\ same_lines h h' /\ links h' (A' ++ D ++ B').
Proof.
  intros Hl Ho E HA HB HD Hv Eh El Eu Ev.
  destruct (nonempty_last A HA) as [x Ex]. apply last_snoc_split in Ex as [P ->].
  destruct (nonempty_head B HB) as [y Ey]. apply head_cons_split in Ey as [Q ->].
  apply last_snoc_split in Eu as [P' ->]. apply head_cons_split in Ev as [Q' ->].
  by eapply listmove_links.
Qed.

(** ** Lists of lines *)

(** What surrounds the elements of a list: the first element again when it is
    circular, [NULL] on both sides otherwise. *)
Definition around (circ : bool) (L : list Z) : list Z :=
  if circ then L ++ take 1 L else 0 :: L ++ [0].

(** [L] is a list of line elements, in order. *)
Definition chain (h : heap) (circ : bool) (L : list Z) : Prop :=
  NoDup L /\ (forall p, p ∈ L -> p <> 0 /\ valid h p) /\ links h (around circ L).

Lemma around_ring L a : head L = Some a -> around true L = L ++ [a].
Proof. destruct L; [done|]. by intros [= ->]. Qed.

Lemma once_around circ L : NoDup L -> 0 ∉ L -> once (around circ L).
Proof.
  intros Hnd H0. unfold around, once. destruct circ.
  - destruct L as [|a L]; [split; constructor|]. change (take 1 (a :: L)) with [a]. rewrite removelast_last. split; [done|]. cbn [app tail].
    inversion Hnd. apply NoDup_app. split_and!; [done | | apply NoDup_singleton]. intros z Hz. set_solver.
  - change (0 :: L ++ [0]) with ((0 :: L) ++ [0]). rewrite removelast_last. split; [by constructor|]. cbn [tail app].
    apply NoDup_app. split_and!; [done | | apply NoDup_singleton]. intros z Hz. set_solver.
Qed.

Lemma chain_once h circ L : chain h circ L -> once (around circ L).
Proof. intros (H1 & H2 & _). apply once_around; [done|]. intros H. by destruct (H2 0 H). Qed.

Lemma around_valid h circ L : chain h circ L -> forall z, z ∈ around circ L -> z <> 0 -> valid h z.
Proof.
  intros (_ & H & _) z Hz H0. apply H. unfold around in Hz. destruct circ.
  - apply elem_of_app in Hz as [Hz|Hz]; [done|]. by apply elem_of_take in Hz as (? & ? & _); eapply list_elem_of_lookup_2.
  - set_solver.
Qed.

Lemma chain_perm h h' circ circ' L L' :
  chain h circ L -> L ≡ₚ L' -> same_lines h h' -> links h' (around circ' L') -> chain h' circ' L'.
Proof.
  intros (H1 & H2 & _) HP HS Hl. split; [by rewrite <- HP|]. split; [|done]. intros p Hp. rewrite <- HP in Hp.
  destruct (H2 p Hp). split; [done|]. by apply (same_lines_valid h).
Qed.

(** A circular list may be read from any of its elements. *)
Lemma chain_rotate h A B : chain h true (A ++ B) -> chain h true (B ++ A).
Proof.
  intros Hc. destruct A as [|a A]; [by rewrite app_nil_r in *|]. destruct B as [|b B]; [by rewrite app_nil_r in Hc|].
  apply (chain_perm h h true true _ _ Hc); [apply Permutation_app_comm | apply same_lines_refl |].
  destruct Hc as (_ & _ & Hl). rewrite (around_ring _ a) in Hl by done. rewrite (around_ring _ b) by done.
  rewrite <- app_assoc in Hl |- *. apply links_app in Hl as [H1 H2]. by apply links_app.
Qed.

(** The next of an element, and the previous. *)
Lemma around_next h circ A x y B : chain h circ (A ++ x :: y :: B) -> nx h x = y /\ pv h y = x.
Proof.
  intros (_ & H & Hl). assert (x <> 0 /\ y <> 0) as [Hx Hy] by (split; apply H; set_solver).
  assert (Hj : joined h x y); [|split; by apply Hj].
  assert (exists P Q, around circ (A ++ x :: y :: B) = P ++ x :: y :: Q) as (P & Q & E).
  { unfold around. destruct circ; [exists A | exists (0 :: A)]; eexists; rewrite <- app_assoc; reflexivity. }
  rewrite E in Hl. by apply links_app in Hl as [_ [Hl _]].
Qed.

Lemma chain_last_next h circ A x : chain h circ (A ++ [x]) -> nx h x = if circ then default 0 (head (A ++ [x])) else 0.
Proof.
  intros (_ & H & Hl). assert (x <> 0) as Hx by (apply H; set_solver). destruct circ; unfold around in Hl.
  - destruct A as [|a A]; [by destruct Hl as [[Hl _] _]; apply Hl|].
    change (take 1 ((a :: A) ++ [x])) with [a] in Hl. rewrite <- app_assoc in Hl. apply links_app in Hl as [_ [[Hl _] _]]. by apply Hl.
  - rewrite <- app_assoc in Hl. change (0 :: A ++ [x] ++ [0]) with ((0 :: A) ++ x :: [0]) in Hl.
    apply links_app in Hl as [_ [[Hl _] _]]. by apply Hl.
Qed.

Lemma chain_first_prev h circ x B : chain h circ (x :: B) -> pv h x = if circ then default 0 (last (x :: B)) else 0.
Proof.
  intros Hc. pose proof Hc as (_ & H & Hl). assert (x <> 0) as Hx by (apply H; set_solver). destruct circ; unfold around in Hl.
  - destruct (nonempty_last (x :: B)) as [z Ez]; [done|]. rewrite Ez. apply last_snoc_split in Ez as [A Ez].
    change (take 1 (x :: B)) with [x] in Hl. rewrite Ez, <- app_assoc in Hl. cbn [app] in Hl. apply links_app in Hl as [_ [[_ Hl] _]]. by apply Hl.
  - destruct Hl as [[_ Hl] _]. by apply Hl.
Qed.

(** ** Moving a run of lines *)

Lemma app_nonempty_l {A} (l k : list A) : l <> [] -> l ++ k <> [].
Proof. by destruct l. Qed.

(** What follows the first part of a list, and what precedes the second. *)
Lemma chain_next_of h circ A c (Hc : chain h circ (A ++ c)) u :
  last A = Some u -> nx h u = default (if circ then default 0 (head A) else 0) (head c).
Proof.
  intros E. apply last_snoc_split in E as [A0 ->]. destruct c as [|c0 c].
  - rewrite app_nil_r in Hc. by apply chain_last_next in Hc.
  - rewrite <- app_assoc in Hc. by apply around_next in Hc as [? _].
Qed.

Lemma chain_prev_of h circ A c (Hc : chain h circ (A ++ c)) v :
  head c = Some v -> pv h v = default (if circ then default 0 (last c) else 0) (last A).
Proof.
  intros E. apply head_cons_split in E as [c0 ->]. destruct A as [|a A] using rev_ind.
  - by apply chain_first_prev in Hc.
  - rewrite <- app_assoc in Hc. rewrite last_snoc. by apply around_next in Hc as [_ ?].
Qed.

(** Down: [D] goes below [b]. The addresses are those the callers compute:
    the ends of the run, the last line of [b] and what follows it. *)
Lemma chain_move_down h circ a D b c TD BD u :
  chain h circ (a ++ D ++ b ++ c) -> (a ++ c <> [] \/ circ = false) ->
  head D = Some TD -> last D = Some BD -> last b = Some u ->
  exists h', VSIlistmove TD BD u (nx h u) h = Done h' /\ same_lines h h' /\ chain h' circ (a ++ b ++ D ++ c).
Proof.
  intros Hc Hne Eh El Eu. pose proof Hc as (Hnd & HL & Hl). pose proof (chain_once _ _ _ Hc) as Ho. pose proof (around_valid _ _ _ Hc) as Hv.
  assert (HD : forall z, z ∈ D -> z <> 0) by (intros z Hz; apply HL; set_solver).
  assert (HbD : b <> []) by by destruct b.
  assert (Hperm : a ++ D ++ b ++ c ≡ₚ a ++ b ++ D ++ c) by (rewrite (Permutation_app_swap_app D b c); done).
  pose proof Eu as Eu'. apply last_snoc_split in Eu' as [b0 Eb].
  destruct circ; [destruct a as [|a0 a]|].
  - (* the run is first: read the ring from [b] *)
    destruct Hne as [Hne|]; [|done]. cbn [app] in *. destruct c as [|c0 c]; [done|].
    destruct (nonempty_head b HbD) as [b1 Eb1].
    assert (Hc' : chain h true ((b ++ c0 :: c) ++ D)) by (apply chain_rotate; exact Hc).
    assert (En : nx h u = c0).
    { rewrite Eb, <- !app_assoc in Hc'. cbn [app] in Hc'. by apply around_next in Hc' as [? _]. }
    pose proof Hc' as (_ & _ & Hl'). pose proof (chain_once _ _ _ Hc') as Ho'. pose proof (around_valid _ _ _ Hc') as Hv'.
    rewrite (around_ring _ b1) in Hl', Ho', Hv' by by destruct b.
    destruct (listmove_seq h (b ++ c0 :: c) D [b1] b ((c0 :: c) ++ [b1]) TD BD u c0) as (h' & E & Hs & Hl2);
      [by rewrite app_assoc | by rewrite app_assoc | by rewrite <- app_assoc | by destruct b | done | done | by rewrite app_assoc | done | done | done | done |].
    rewrite En. exists h'. split; [exact E|]. split; [exact Hs|]. apply (chain_perm _ _ _ _ _ _ Hc); [done | done |].
    rewrite (around_ring _ b1) by by destruct b. by rewrite <- !app_assoc.
  - assert (En : nx h u = default a0 (head c)).
    { rewrite !app_assoc in Hc. rewrite (chain_next_of _ _ _ _ Hc u) by by rewrite last_app, Eu. done. }
    rewrite (around_ring _ a0) in Hl, Ho, Hv by done. rewrite <- !app_assoc in Hl, Ho, Hv.
    destruct (listmove_seq h (a0 :: a) D (b ++ c ++ [a0]) ((a0 :: a) ++ b) (c ++ [a0]) TD BD u (default a0 (head c))) as (h' & E & Hs & Hl2);
      [done | done | by rewrite <- app_assoc | done | by destruct b | done | done | done | done | | by destruct c |].
    { rewrite Eb, app_assoc. by rewrite last_snoc. }
    rewrite En. exists h'. split; [exact E|]. split; [exact Hs|]. apply (chain_perm _ _ _ _ _ _ Hc); [done | done |].
    rewrite (around_ring _ a0) by done. rewrite <- !app_assoc in Hl2. rewrite <- !app_assoc. exact Hl2.
  - assert (En : nx h u = default 0 (head c)).
    { rewrite !app_assoc in Hc. rewrite (chain_next_of _ _ _ _ Hc u) by by rewrite last_app, Eu. done. }
    unfold around in Hl, Ho, Hv. change (0 :: (a ++ D ++ b ++ c) ++ [0]) with ((0 :: a ++ D ++ b ++ c) ++ [0]) in Hl, Ho, Hv.
    change (0 :: a ++ D ++ b ++ c) with ((0 :: a) ++ D ++ b ++ c) in Hl, Ho, Hv. rewrite <- !app_assoc in Hl, Ho, Hv.
    destruct (listmove_seq h (0 :: a) D (b ++ c ++ [0]) ((0 :: a) ++ b) (c ++ [0]) TD BD u (default 0 (head c))) as (h' & E & Hs & Hl2);
      [done | done | by rewrite <- app_assoc | done | by destruct b | done | done | done | done | | by destruct c |].
    { rewrite Eb, app_assoc. by rewrite last_snoc. }
    rewrite En. exists h'. split; [exact E|]. split; [exact Hs|]. apply (chain_perm _ _ _ _ _ _ Hc); [done | done |].
    unfold around. change (0 :: (a ++ b ++ D ++ c) ++ [0]) with ((0 :: a ++ b ++ D ++ c) ++ [0]).
    change (0 :: a ++ b ++ D ++ c) with ((0 :: a) ++ b ++ D ++ c). rewrite <- !app_assoc in Hl2. rewrite <- !app_assoc. exact Hl2.
Qed.

(** Up: [D] goes above [b]. *)
Lemma chain_move_up h circ a b D c TD BD v :
  chain h circ (a ++ b ++ D ++ c) -> (a ++ c <> [] \/ circ = false) ->
  head D = Some TD -> last D = Some BD -> head b = Some v ->
  exists h', VSIlistmove TD BD (pv h v) v h = Done h' /\ same_lines h h' /\ chain h' circ (a ++ D ++ b ++ c).
Proof.
  intros Hc Hne Eh El Ev. pose proof Hc as (Hnd & HL & Hl). pose proof (chain_once _ _ _ Hc) as Ho. pose proof (around_valid _ _ _ Hc) as Hv.
  assert (HD : forall z, z ∈ D -> z <> 0) by (intros z Hz; apply HL; set_solver).
  assert (HbD : b <> []) by by destruct b.
  assert (Hperm : a ++ b ++ D ++ c ≡ₚ a ++ D ++ b ++ c) by (rewrite (Permutation_app_swap_app b D c); done).
  pose proof (chain_prev_of _ _ _ _ Hc v) as En. rewrite head_app, Ev in En. specialize (En eq_refl).
  destruct circ; [destruct a as [|a0 a]|].
  - (* above the first line: at the end of the ring *)
    destruct Hne as [Hne|]; [|done]. cbn [app] in *. destruct (nonempty_last c Hne) as [u Eu].
    rewrite (around_ring _ v) in Hl, Ho, Hv by by destruct b. rewrite <- !app_assoc in Hl, Ho, Hv.
    destruct (listmove_seq h b D (c ++ [v]) (b ++ c) [v] TD BD u v) as (h' & E & Hs & Hl2);
      [done | done | by rewrite app_assoc | done | by destruct c | done | done | done | done | by rewrite last_app, Eu | done |].
    assert (pv h v = u) as -> by (rewrite En; cbn [last default]; by rewrite !last_app, Eu).
    exists h'. split; [exact E|]. split; [exact Hs|]. change (chain h' true (D ++ (b ++ c))). apply chain_rotate.
    apply (chain_perm h h' true true (b ++ D ++ c)); [exact Hc | by rewrite <- app_assoc, (Permutation_app_comm D c) | exact Hs |].
    rewrite (around_ring _ v) by by destruct b. rewrite <- !app_assoc in Hl2. rewrite <- !app_assoc. exact Hl2.
  - destruct (nonempty_last (a0 :: a)) as [u Eu]; [done|]. rewrite Eu in En. cbn [default] in En.
    rewrite (around_ring _ a0) in Hl, Ho, Hv by done. rewrite <- !app_assoc in Hl, Ho, Hv.
    destruct (listmove_seq h ((a0 :: a) ++ b) D (c ++ [a0]) (a0 :: a) (b ++ c ++ [a0]) TD BD u v) as (h' & E & Hs & Hl2);
      [by rewrite <- app_assoc | by rewrite <- app_assoc | by rewrite <- app_assoc | done | by destruct c | done | by rewrite <- app_assoc | done | done | done | by destruct b |].
    rewrite En. exists h'. split; [exact E|]. split; [exact Hs|]. apply (chain_perm _ _ _ _ _ _ Hc); [done | done |].
    rewrite (around_ring _ a0) by done. rewrite <- !app_assoc. exact Hl2.
  - unfold around in Hl, Ho, Hv. change (0 :: (a ++ b ++ D ++ c) ++ [0]) with ((0 :: a ++ b ++ D ++ c) ++ [0]) in Hl, Ho, Hv.
    change (0 :: a ++ b ++ D ++ c) with ((0 :: a) ++ b ++ D ++ c) in Hl, Ho, Hv. rewrite <- !app_assoc in Hl, Ho, Hv.
    destruct (listmove_seq h ((0 :: a) ++ b) D (c ++ [0]) (0 :: a) (b ++ c ++ [0]) TD BD (default 0 (last a)) v) as (h' & E & Hs & Hl2);
      [by rewrite <- app_assoc | by rewrite <- app_assoc | by rewrite <- app_assoc | done | by destruct c | done | by rewrite <- app_assoc | done | done | | by destruct b |].
    { destruct (last a) as [z|] eqn:Ez; [by rewrite (last_cons_Some _ _ _ Ez) || (rewrite last_cons, Ez) | apply last_None in Ez; by subst]. }
    rewrite En. exists h'. split; [exact E|]. split; [exact Hs|]. apply (chain_perm _ _ _ _ _ _ Hc); [done | done |].
    unfold around. change (0 :: (a ++ D ++ b ++ c) ++ [0]) with ((0 :: a ++ D ++ b ++ c) ++ [0]).
    change (0 :: a ++ D ++ b ++ c) with ((0 :: a) ++ D ++ b ++ c). rewrite <- !app_assoc. exact Hl2.
Qed.

(** *** The array of the screen's lines *)

(** The first elements of a list from one of its lines on. *)
Lemma VSIlistndx_ok h circ post : forall pre B p,
  chain h circ (pre ++ (p :: post) ++ B) -> VSIlistndx (S (length post)) p h = Done (p :: post).
Proof.
  induction post as [|q post IH]; intros pre B p Hc.
  - cbn. destruct (load_valid h p) as (l & -> & _); [apply Hc; set_solver | done].
  - change (VSIlistndx (S (length (q :: post))) p h) with (l ← load p h; r ← VSIlistndx (S (length post)) (next l) h; Done (p :: r)).
    destruct (load_valid h p) as (l & -> & _ & En & _); [apply Hc; set_solver|]. cbn [mbind outcome_bind].
    assert (next l = q) as -> by (rewrite En; by apply around_next in Hc as [? _]).
    rewrite (IH (pre ++ [p]) B q); [done|]. by rewrite <- app_assoc.
Qed.

(** ** Growing a list *)

(** Addresses are handed out in increasing order and never 0. *)
Definition heap_ok (h : heap) : Prop := 0 < brk h /\ forall p, valid h p -> 0 < p < brk h.

Lemma heap_ok_same_lines h h' : same_lines h h' -> heap_ok h -> heap_ok h'.
Proof.
  intros S [H1 H2]. pose proof S as (_ & _ & B & _). split; rewrite B; [done|]. intros p Hp. apply H2. by apply (same_lines_valid _ _ _ S).
Qed.

Lemma links_intro h l :
  (forall i x y, l !! i = Some x -> l !! S i = Some y -> joined h x y) -> links h l.
Proof.
  induction l as [|x [|y l] IH]; intros H; [done..|]. split; [by apply (H 0%nat)|]. apply IH. intros i u v. apply (H (S i)).
Qed.

(** The end of one list is joined to the start of another. *)
Lemma chain_append h A x y B :
  chain h false (A ++ [x]) -> chain h false (y :: B) -> (forall z, z ∈ A ++ [x] -> z ∉ y :: B) ->
  exists h', (h ← set_next x y h; set_prev y x h) = Done h' /\ same_lines h h' /\ chain h' false ((A ++ [x]) ++ y :: B).
Proof.
  intros HA HB Hd. pose proof HA as (HA1 & HA2 & HA3). pose proof HB as (HB1 & HB2 & HB3).
  destruct (HA2 x) as [Hx0 Hx]; [set_solver|]. destruct (HB2 y) as [Hy0 Hy]; [set_solver|].
  destruct (set_next_ok x y h Hx) as (h1 & -> & S1 & N1 & V1). cbn [mbind outcome_bind].
  destruct (set_prev_ok y x h1) as (h2 & -> & S2 & N2 & V2); [by apply (same_lines_valid _ _ _ S1)|].
  assert (S : same_lines h h2) by eauto with macssh. exists h2. split; [done|]. split; [done|].
  assert (Hxy : x <> y) by (intros ->; apply (Hd y); set_solver).
  split; [|split].
  - apply NoDup_app. split_and!; done.
  - intros p Hp. apply elem_of_app in Hp as [Hp|Hp]; [destruct (HA2 p Hp) | destruct (HB2 p Hp)]; (split; [done|]); by apply (same_lines_valid _ _ _ S).
  - unfold around in *. change (0 :: ((A ++ [x]) ++ y :: B) ++ [0]) with ((0 :: (A ++ [x]) ++ y :: B) ++ [0]).
    change (0 :: (A ++ [x]) ++ y :: B) with ((0 :: A ++ [x]) ++ y :: B). rewrite <- app_assoc.
    change (0 :: A ++ [x]) with ((0 :: A) ++ [x]). rewrite <- app_assoc. cbn [app]. change (0 :: A ++ x :: y :: B ++ [0]) with ((0 :: A) ++ x :: (y :: B ++ [0])).
    apply links_app. split; [|split].
    + rewrite <- app_assoc in HA3. change (0 :: A ++ [x] ++ [0]) with ((0 :: A) ++ x :: [0]) in HA3. apply links_app in HA3 as [HA3 _].
      revert HA3. apply links_frame.
      * intros z Hz. rewrite removelast_last in Hz. rewrite N2, N1, decide_False; [done|]. intros ->.
        apply NoDup_app in HA1 as (_ & HA1 & _). apply elem_of_cons in Hz as [->|Hz]; [done|]. apply (HA1 x Hz). set_solver.
      * intros z Hz. cbn [app tail] in Hz. rewrite V2, V1, decide_False; [done|]. intros ->. apply (Hd y Hz). set_solver.
    + split; intros _; [by rewrite N2, N1, decide_True | by rewrite V2, decide_True].
    + change (0 :: (y :: B) ++ [0]) with (0 :: y :: (B ++ [0])) in HB3. destruct HB3 as [_ HB3]. revert HB3. apply links_frame.
      * intros z Hz. change (y :: B ++ [0]) with ((y :: B) ++ [0]) in Hz. rewrite removelast_last in Hz.
        rewrite N2, N1, decide_False; [done|]. intros ->. apply (Hd x); [set_solver | done].
      * intros z Hz. cbn [tail] in Hz. rewrite V2, V1, decide_False; [done|]. intros ->. inversion HB1. set_solver.
Qed.

(** A list is made circular. *)
Lemma chain_close h L f l :
  chain h false L -> head L = Some f -> last L = Some l ->
  exists h', (h ← set_next l f h; set_prev f l h) = Done h' /\ same_lines h h' /\ chain h' true L.
Proof.
  intros HL Ef El. pose proof HL as (H1 & H2 & H3).
  assert (Hf : f ∈ L) by by apply head_Some_elem_of. assert (Hl : l ∈ L) by by apply last_Some_elem_of.
  destruct (H2 f Hf) as [Hf0 Hfv]. destruct (H2 l Hl) as [Hl0 Hlv].
  destruct (set_next_ok l f h Hlv) as (h1 & -> & S1 & N1 & V1). cbn [mbind outcome_bind].
  destruct (set_prev_ok f l h1) as (h2 & -> & S2 & N2 & V2); [by apply (same_lines_valid _ _ _ S1)|].
  assert (S : same_lines h h2) by eauto with macssh. exists h2. split; [done|]. split; [done|]. split; [done|]. split.
  - intros p Hp. destruct (H2 p Hp). split; [done|]. by apply (same_lines_valid _ _ _ S).
  - rewrite (around_ring _ f Ef). apply last_snoc_split in El as [L0 ->]. rewrite <- app_assoc. cbn [app]. apply links_app. split; [|split; [|done]].
    + unfold around in H3. rewrite <- app_assoc in H3. change (0 :: L0 ++ [l] ++ [0]) with ((0 :: L0) ++ l :: [0]) in H3.
      apply links_app in H3 as [H3 _]. destruct (L0 ++ [l]) as [|z r] eqn:E; [by destruct L0|]. injection Ef as ->.
      change ((0 :: L0) ++ [l]) with (0 :: (L0 ++ [l])) in H3. rewrite E in H3. destruct H3 as [_ H3].
      revert H3. apply links_frame.
      * intros z Hz. rewrite <- E, removelast_last in Hz. rewrite N2, N1, decide_False; [done|]. intros ->.
        rewrite <- E in H1. apply NoDup_app in H1 as (_ & H1 & _). apply (H1 l Hz). set_solver.
      * intros z Hz. cbn [tail] in Hz. rewrite V2, V1, decide_False; [done|]. intros ->. by inversion H1.
    + split; intros _; [by rewrite N2, N1, decide_True | by rewrite V2, decide_True].
Qed.

(** A list stays a list when other elements come into being. *)
Lemma chain_extend h h1 circ L :
  chain h circ L -> heap_ok h -> heap_ok h1 -> (forall q, valid h q -> cells h1 !! q = cells h !! q) -> chain h1 circ L.
Proof.
  intros Hc [_ Hh] [_ Hh1] Hold. pose proof Hc as (C1 & C2 & C3).
  assert (H0 : forall q, q = 0 \/ valid h q -> nx h1 q = nx h q /\ pv h1 q = pv h q).
  { intros q [->|Hq]; unfold nx, pv; [|by rewrite Hold].
    assert (cells h !! 0 = None) as ->.
    { destruct (cells h !! 0) eqn:E; [|done]. destruct (Hh 0); [by exists v | lia]. }
    assert (cells h1 !! 0 = None) as ->; [|done].
    destruct (cells h1 !! 0) eqn:E; [|done]. destruct (Hh1 0); [by exists v | lia]. }
  assert (Ha : forall q, q ∈ around circ L -> q = 0 \/ valid h q).
  { intros q Hq. destruct (decide (q = 0)); [by left|right]. by apply (around_valid _ _ _ Hc). }
  split; [done|]. split.
  - intros p Hp. destruct (C2 p Hp) as [? Hv]. split; [done|]. unfold valid. by rewrite Hold.
  - revert C3. apply links_frame; intros q Hq; apply H0, Ha.
    + by apply removelast_subseteq.
    + destruct (around circ L); [done|]. by apply list_elem_of_further.
Qed.

Section Allocated.
Context `{Memory}.

Lemma lookup_new_block base n w (c : gmap Z VSline) p :
  (list_to_map ((fun i => (base + i, new_line base n w i)) <$> seqZ 0 n) ∪ c) !! p
  = if decide (base <= p < base + n) then Some (new_line base n w (p - base)) else c !! p.
Proof.
  destruct (decide (base <= p < base + n)) as [Hp|Hp].
  - apply lookup_union_Some_l. apply elem_of_list_to_map_1.
    + rewrite <- list_fmap_compose. cbn. apply NoDup_fmap; [intros i j; cbn; lia | apply NoDup_seqZ].
    + apply list_elem_of_fmap. exists (p - base). split; [f_equal; lia | apply elem_of_seqZ; lia].
  - rewrite lookup_union_r; [done|]. apply not_elem_of_list_to_map_1. rewrite <- list_fmap_compose. intros Hin.
    apply list_elem_of_fmap in Hin as (i & Ei & Hi). cbn in Ei. apply elem_of_seqZ in Hi. lia.
Qed.

(** A new block is a list of its own, of lines of the right size. *)
Lemma VSInewlines_ok allwidth n h :
  heap_ok h -> 0 <= allwidth -> 0 < n ->
  VSInewlines allwidth n h = Done (0, h)
  \/ exists h' p L, VSInewlines allwidth n h = Done (p, h') /\ p <> 0 /\ zlen (p :: L) = n /\ chain h' false (p :: L)
     /\ (forall q, q ∈ p :: L -> ~ valid h q)
     /\ (forall q, q ∈ p :: L -> exists la t a, ct h' q = Some (la, t, a) /\ zlen t = allwidth + 1 /\ zlen a = allwidth + 1)
     /\ (forall q, valid h q -> cells h' !! q = cells h !! q) /\ heap_ok h'.
Proof.
  intros [Hb Hv] Hw Hn. unfold VSInewlines. destruct (myNewPtrCritical _ _); [|by left]. right.
  rewrite (proj2 (Z.leb_gt n 0)) by lia. set (w := Z.to_nat (allwidth + 1)). set (base := brk h).
  set (c := list_to_map _ ∪ cells h).
  assert (Hc : forall p, c !! p = if decide (base <= p < base + n) then Some (new_line base n w (p - base)) else cells h !! p)
    by (intros p; apply lookup_new_block).
  exists (mkHeap c (base + n) (<[base := n]> (blocks h))), base, (seqZ (base + 1) (n - 1)).
  assert (Es : base :: seqZ (base + 1) (n - 1) = seqZ base n).
  { by rewrite (seqZ_cons base n) by lia. }
  rewrite Es. split; [done|]. split; [unfold base; lia|]. split; [unfold zlen; rewrite length_seqZ; lia|].
  assert (Hin : forall q, q ∈ seqZ base n <-> base <= q < base + n) by (intros q; apply elem_of_seqZ).
  split; [|split; [|split; [|split]]].
  - split; [apply NoDup_seqZ|]. split.
    + intros p Hp. apply Hin in Hp. split; [unfold base in *; lia|]. unfold valid. cbn. rewrite Hc, decide_True by done. by eexists.
    + apply links_intro. intros i x y Hx Hy. unfold around in Hx, Hy.
      assert (Hnx : forall q, base <= q < base + n -> nx (mkHeap c (base + n) (<[base:=n]> (blocks h))) q = if q =? base + n - 1 then 0 else q + 1).
      { intros q Hq. unfold nx. cbn. rewrite Hc, decide_True by done. cbn. destruct (Z.eqb_spec (q - base) (n - 1)), (Z.eqb_spec q (base + n - 1)); lia. }
      assert (Hpv : forall q, base <= q < base + n -> pv (mkHeap c (base + n) (<[base:=n]> (blocks h))) q = if q =? base then 0 else q - 1).
      { intros q Hq. unfold pv. cbn. rewrite Hc, decide_True by done. cbn. destruct (Z.eqb_spec (q - base) 0), (Z.eqb_spec q base); lia. }
      assert (Hgen : forall j z, (0 :: seqZ base n ++ [0]) !! j = Some z ->
        (j = 0%nat /\ z = 0) \/ (1 <= Z.of_nat j <= n /\ z = base + Z.of_nat j - 1) \/ (Z.of_nat j = n + 1 /\ z = 0)).
      { intros [|j] z Hz; [injection Hz as <-; by left|right]. change ((seqZ base n ++ [0]) !! j = Some z) in Hz.
        apply lookup_app_Some in Hz as [Hz|[Hl Hz]].
        - apply lookup_seqZ in Hz as [-> Hj]. left. lia.
        - right. rewrite length_seqZ in Hl, Hz. destruct (j - Z.to_nat n)%nat eqn:Ej; [|by destruct n0]. injection Hz as <-. lia. }
      destruct (Hgen _ _ Hx) as [[E1 ->]|[[E1 ->]|[E1 ->]]]; destruct (Hgen _ _ Hy) as [[E2 ->]|[[E2 ->]|[E2 ->]]]; try lia.
      all: split; intros H0; try done.
      all: try rewrite Hnx by lia; try rewrite Hpv by lia.
      all: try destruct (Z.eqb_spec (base + Z.of_nat i - 1) (base + n - 1)); try destruct (Z.eqb_spec (base + Z.of_nat (S i) - 1) base); lia.
  - intros q Hq Hvq. apply Hin in Hq. destruct (Hv q Hvq). unfold base in Hq. lia.
  - intros q Hq. apply Hin in Hq. unfold ct. cbn. rewrite Hc, decide_True by done. cbn. do 3 eexists. split; [reflexivity|].
    unfold zlen, w. rewrite !length_fmap, !length_seq. lia.
  - intros q Hq. cbn. rewrite Hc, decide_False; [done|]. destruct (Hv q Hq). unfold base. lia.
  - split; cbn; [unfold base; lia|]. intros p [l Hl]. cbn in Hl. rewrite Hc in Hl. destruct (decide _); [unfold base in *; lia|].
    destruct (Hv p); [by exists l | unfold base; lia].
Qed.

End Allocated.

(** ** A move by any sequence of writes *)

Lemma links_moved h h' P x D y Q P' u v Q' TD BD :
  links h ((P ++ [x]) ++ D ++ y :: Q) -> once ((P ++ [x]) ++ D ++ y :: Q) ->
  (P ++ [x]) ++ y :: Q = (P' ++ [u]) ++ v :: Q' ->
  (forall z, z ∈ D -> z <> 0) -> (forall z, z ∈ (P ++ [x]) ++ D ++ y :: Q -> z <> 0 -> valid h z) ->
  head D = Some TD -> last D = Some BD ->
  (forall q, nx h' q = if decide (q = u /\ u <> 0) then TD else if decide (q = BD) then v
                       else if decide (q = x /\ x <> 0) then y else nx h q) ->
  (forall q, pv h' q = if decide (q = v /\ v <> 0) then BD else if decide (q = TD) then u
                       else if decide (q = y /\ y <> 0) then x else pv h q) ->
  links h' ((P' ++ [u]) ++ D ++ v :: Q').
Proof.
  intros Hl Ho E HD0 Hval Eh El Hn Hp.
  destruct (once_frame _ _ _ _ _ Ho) as (HD & Hx & Hy).
  destruct (once_relink _ _ _ _ _ _ _ _ _ Ho E) as (HD' & Hu & Hv & Hnd).
  destruct (set_next_unless_null x y h) as (h1 & _ & S1 & N1 & V1); [intros H0; apply Hval; [set_solver|done]|].
  destruct (set_prev_unless_null y x h1) as (h2 & _ & S2 & N2 & V2).
  { intros H0. apply (same_lines_valid _ _ _ S1), Hval; [set_solver|done]. }
  assert (HlD : links h D).
  { rewrite <- app_assoc in Hl. cbn [app] in Hl. apply links_app in Hl as [_ Hl]. destruct D as [|d D]; [done|].
    destruct Hl as [_ Hl]. change (d :: D ++ y :: Q) with ((d :: D) ++ y :: Q) in Hl.
    pose proof (last_snoc_split _ _ El) as [D0 E0]. rewrite E0 in Hl |- *. rewrite <- app_assoc in Hl. cbn [app] in Hl. by apply links_app in Hl as [Hl _]. }
  apply (links_relink h2 h' P' u D v Q' TD BD); try done.
  - rewrite <- E. apply (links_unlink h h2 P x D y Q Hl); [done | done | |].
    + intros q. by rewrite N2, N1.
    + intros q. by rewrite V2, V1.
  - revert HlD. apply links_frame.
    + intros z Hz. apply removelast_subseteq in Hz. rewrite N2, N1. destruct (decide _) as [Hd|Hd]; [|done]. destruct Hd as [-> _].
      destruct (HD x Hz) as [H1 _]. set_solver.
    + intros z Hz. rewrite V2, V1. destruct (decide _) as [Hd|Hd]; [|done]. destruct Hd as [-> _].
      destruct (HD y) as [_ H1]; [destruct D; [done | by apply list_elem_of_further] | set_solver].
  - intros z Hz. split; [by apply HD0 | by apply HD'].
  - intros q. by rewrite Hn, N2, N1.
  - intros q. by rewrite Hp, V2, V1.
Qed.

(** What surrounds a list does not depend on what follows its first part. *)
Lemma around_split circ A : A <> [] -> exists P S, S <> [] /\ forall B, around circ (A ++ B) = P ++ A ++ B ++ S.
Proof.
  intros HA. destruct (nonempty_head A HA) as [a Ea]. destruct circ.
  - exists [], [a]. split; [done|]. intros B. rewrite (around_ring _ a) by by destruct A. by rewrite <- app_assoc.
  - exists [0], [0]. split; [done|]. intros B. unfold around. by rewrite <- app_assoc.
Qed.

(** One line moves up over [b]. *)
Lemma chain_lift h h' circ A b p C u v w y :
  chain h circ (A ++ b ++ [p] ++ C) -> last A = Some u -> head b = Some v -> last b = Some w -> nx h p = y ->
  same_lines h h' ->
  (forall q, nx h' q = if decide (q = u) then p else if decide (q = p) then v else if decide (q = w) then y else nx h q) ->
  (forall q, pv h' q = if decide (q = v) then p else if decide (q = p) then u
                       else if decide (q = y /\ y <> 0) then w else pv h q) ->
  chain h' circ (A ++ [p] ++ b ++ C).
Proof.
  intros Hc Eu Ev Ew Ey S Hn Hp. pose proof Hc as (Hnd & HL & Hl).
  assert (HA : A <> []) by by destruct A.
  destruct (around_split circ A HA) as (P & T & HT & Ha). rewrite Ha in Hl. pose proof (chain_once _ _ _ Hc) as Ho. rewrite Ha in Ho.
  pose proof (around_valid _ _ _ Hc) as Hv. rewrite Ha in Hv.
  assert (Hv0 : forall z, z ∈ A ++ b ++ [p] ++ C -> z <> 0) by (intros z Hz; by apply HL).
  apply (chain_perm h h' circ circ _ _ Hc); [by rewrite (Permutation_app_swap_app b [p] C) | done |]. rewrite Ha.
  pose proof Eu as Eu'. pose proof Ev as Ev'. pose proof Ew as Ew'.
  apply last_snoc_split in Eu as [A0 EA]. apply head_cons_split in Ev as [b0 Eb]. apply last_snoc_split in Ew as [b1 Eb1].
  destruct (nonempty_head (C ++ T)) as [y' Ey']; [by destruct C|]. pose proof Ey' as Ey2. apply head_cons_split in Ey2 as [Q EQ].
  assert (y' = y) as ->.
  { rewrite Eb1, EA in Hl. replace (P ++ (A0 ++ [u]) ++ ((b1 ++ [w]) ++ [p] ++ C) ++ T) with ((P ++ (A0 ++ [u]) ++ (b1 ++ [w])) ++ p :: (C ++ T)) in Hl
      by (rewrite <- !app_assoc; done).
    rewrite EQ in Hl. apply links_app in Hl as [_ [[Hl _] _]]. rewrite <- Ey. symmetry. apply Hl, Hv0. set_solver. }
  replace (P ++ A ++ ([p] ++ b ++ C) ++ T) with (((P ++ A0) ++ [u]) ++ [p] ++ v :: (b0 ++ C ++ T))
    by (rewrite EA, Eb, <- !app_assoc; done).
  assert (El1 : P ++ A ++ (b ++ [p] ++ C) ++ T = ((P ++ A ++ b1) ++ [w]) ++ [p] ++ y :: Q)
    by (rewrite <- EQ; rewrite Eb1, <- !app_assoc; done).
  assert (El2 : (P ++ A ++ b1) ++ [w] ++ y :: Q = (P ++ A0) ++ [u] ++ v :: (b0 ++ C ++ T)).
  { rewrite <- EQ. transitivity (P ++ A ++ b ++ C ++ T); [rewrite Eb1, <- !app_assoc; done | rewrite EA, Eb, <- !app_assoc; done]. }
  rewrite El1 in Hl, Ho, Hv.
  apply (links_moved h h' (P ++ A ++ b1) w [p] y Q (P ++ A0) u v (b0 ++ C ++ T) p p); try done.
  - rewrite <- !app_assoc in El2. rewrite <- !app_assoc. exact El2.
  - intros z Hz. apply Hv0. set_solver.
  - intros q. rewrite Hn. assert (u <> 0) by (apply Hv0; rewrite EA; set_solver). assert (w <> 0) by (apply Hv0; rewrite Eb1; set_solver).
    destruct (decide (q = u)) as [->|]; [by rewrite decide_True|]. rewrite (decide_False (P := q = u /\ u <> 0)) by tauto.
    destruct (decide (q = p)); [done|]. destruct (decide (q = w)) as [->|]; [by rewrite decide_True | by rewrite decide_False by tauto].
  - intros q. rewrite Hp. assert (v <> 0) by (apply Hv0; rewrite Eb; set_solver).
    destruct (decide (q = v)) as [->|]; [by rewrite decide_True|]. by rewrite (decide_False (P := q = v /\ v <> 0)) by tauto.
Qed.

End Lines.
