(* ===== verification/Screen.v ===== *)
(** The virtual screen kernel (Screens/vsintern.c): a screen of lines over the
    doubly-linked storage of [Lines], with its scrolling region, scrollback
    buffer, cursor, tab stops and character attributes; every operation the
    terminal emulator calls to change it. The old scrollback mode
    ([oldScrollback], lines without attributes) is left out. *)
From S2P Require Import Prelude Window Lines Translate.
Import Lines Translate.

Module Screen.

(** ** Data *)

(** What the kernel and the emulator ask of the drawing code
    (Screens/rsinterf.c), which only changes pixels, and of the system: the
    window's name, colours and size, the files of a capture and of a printer
    redirection. *)
Inductive drawing :=
  | RSdellines (t b n scrolled : Z)
  | RSinslines (t b n scrolled : Z)
  | RSerase (x1 y1 x2 y2 : Z)
  | RSdelchars (lattr x y n : Z)
  | RSinsstring (x y lattr attr n : Z) (s : bytes)
  | RSdraw (x y lattr attr n : Z) (s : bytes)
  | RSbufinfo (total t b : Z)
  | VSredraw (x1 y1 x2 y2 : Z)
  | RSmargininfo (max left : Z)
  | RSdelcols (n : Z)
  | RSinscols (n : Z)
  | RSbell
  | RSsendstring (s : bytes)
  | RSbackground (reverse : Z)
  | RScalcwsize (width : Z)
  | VSredrawLine
  | RSsetcurstype (t : Z)
  | RSresetcolors
  | RSsetcolors (n red green blue : Z)
  | SetWindowName (s : bytes)
  | FSWrite (s : bytes)
  | SysBeep
  | HCreate
  | HOpenDF
  | GetEOF
  | SetEOF (eof : Z)
  | SetFPos (mode off : Z)
  | FSClose
  | HDelete
  | PrJobDialog
  | PrOpenDoc
  | PrintFile
  | CloseCapture
  | HandleURL (s : bytes).

#[export] Instance drawing_eq_dec : EqDecision drawing.
Proof. solve_decision. Defined.

(** [struct VSscrn] (Screens/vsdata.h) of a screen with attributes in the
    scrollback. [captureRN] is the field of [VSscreens[VSIwn]], [store] the heap
    its lines live in, [skip] the field of [RSlocal[VSIwn]], [session] the
    session of the screen if it has one ([findbyVS]), [drawn] what was asked of
    the drawing code and of the system. *)
Record VSscrn := mkVSscrn {
  vtemulation : Z; vteightbits : Z; scrntop : Z; buftop : Z; vistop : Z; linest : list Z;
  lines : Z; maxlines : Z; numlines : Z; allwidth : Z; maxwidth : Z; savelines : Z; forcesave : Z;
  possibleForce : Z; ESscroll : Z; lattrib : Z; attrib : Z; x : Z; y : Z; Px : Z; Py : Z;
  Pattrib : Z; lastchar : Z; DECAWM : Z; DECCKM : Z; DECPAM : Z; DECORG : Z; DECCM : Z; G0 : Z;
  G1 : Z; charset : Z; IRM : Z; escflg : Z; top : Z; bottom : Z; Rtop : Z; Rbottom : Z; Rleft : Z;
  Rright : Z; parmptr : Z; prredirect : Z; ignoreBeeps : Z; linesjumped : Z; jumpScroll : Z;
  disableCursor : Z; parms : bytes; tabs : bytes; escflags : Z; trincount : Z; trinx : Z;
  trintag : Z; trinbuf : bytes; tempstr : bytes; qprint : Z; printqueued : Z; prbuf : Z; prbuf2 : Z;
  captureRN : Z; store : heap; skip : Z; session : option window; drawn : list drawing
}.

(** The record rebuilt from its fields, from which the setters are derived. *)
Definition eta_VSscrn (vs : VSscrn) : VSscrn :=
  mkVSscrn (vtemulation vs) (vteightbits vs) (scrntop vs) (buftop vs) (vistop vs) (linest vs) (lines vs)
    (maxlines vs) (numlines vs) (allwidth vs) (maxwidth vs) (savelines vs) (forcesave vs)
    (possibleForce vs) (ESscroll vs) (lattrib vs) (attrib vs) (x vs) (y vs) (Px vs) (Py vs)
    (Pattrib vs) (lastchar vs) (DECAWM vs) (DECCKM vs) (DECPAM vs) (DECORG vs) (DECCM vs) (G0 vs)
    (G1 vs) (charset vs) (IRM vs) (escflg vs) (top vs) (bottom vs) (Rtop vs) (Rbottom vs)
    (Rleft vs) (Rright vs) (parmptr vs) (prredirect vs) (ignoreBeeps vs) (linesjumped vs)
    (jumpScroll vs) (disableCursor vs) (parms vs) (tabs vs) (escflags vs) (trincount vs)
    (trinx vs) (trintag vs) (trinbuf vs) (tempstr vs) (qprint vs) (printqueued vs) (prbuf vs)
    (prbuf2 vs) (captureRN vs) (store vs) (skip vs) (session vs) (drawn vs).

Ltac derive_setter proj :=
  let e := eval cbv beta delta [eta_VSscrn] in (fun vs : VSscrn => eta_VSscrn vs) in
  lazymatch e with
  | fun vs => @?body vs =>
    exact (fun (f : _ -> _) (vs : VSscrn) =>
      ltac:(let b := eval cbv beta in (body vs) in
            lazymatch eval pattern (proj vs) in b with
            | ?g _ => let r := eval cbv beta in (g (f (proj vs))) in exact r
            end))
  end.

#[export] Instance set_vtemulation : Setter vtemulation := ltac:(derive_setter vtemulation).
#[export] Instance set_vteightbits : Setter vteightbits := ltac:(derive_setter vteightbits).
#[export] Instance set_maxlines : Setter maxlines := ltac:(derive_setter maxlines).
#[export] Instance set_allwidth : Setter allwidth := ltac:(derive_setter allwidth).
#[export] Instance set_forcesave : Setter forcesave := ltac:(derive_setter forcesave).
#[export] Instance set_jumpScroll : Setter jumpScroll := ltac:(derive_setter jumpScroll).
#[export] Instance set_ignoreBeeps : Setter ignoreBeeps := ltac:(derive_setter ignoreBeeps).
#[export] Instance set_session : Setter session := ltac:(derive_setter session).
#[export] Instance set_scrntop : Setter scrntop := ltac:(derive_setter scrntop).
#[export] Instance set_buftop : Setter buftop := ltac:(derive_setter buftop).
#[export] Instance set_vistop : Setter vistop := ltac:(derive_setter vistop).
#[export] Instance set_linest : Setter linest := ltac:(derive_setter linest).
#[export] Instance set_lines : Setter lines := ltac:(derive_setter lines).
#[export] Instance set_numlines : Setter numlines := ltac:(derive_setter numlines).
#[export] Instance set_maxwidth : Setter maxwidth := ltac:(derive_setter maxwidth).
#[export] Instance set_savelines : Setter savelines := ltac:(derive_setter savelines).
#[export] Instance set_possibleForce : Setter possibleForce := ltac:(derive_setter possibleForce).
#[export] Instance set_ESscroll : Setter ESscroll := ltac:(derive_setter ESscroll).
#[export] Instance set_lattrib : Setter lattrib := ltac:(derive_setter lattrib).
#[export] Instance set_attrib : Setter attrib := ltac:(derive_setter attrib).
#[export] Instance set_x : Setter x := ltac:(derive_setter x).
#[export] Instance set_y : Setter y := ltac:(derive_setter y).
#[export] Instance set_Px : Setter Px := ltac:(derive_setter Px).
#[export] Instance set_Py : Setter Py := ltac:(derive_setter Py).
#[export] Instance set_Pattrib : Setter Pattrib := ltac:(derive_setter Pattrib).
#[export] Instance set_lastchar : Setter lastchar := ltac:(derive_setter lastchar).
#[export] Instance set_DECAWM : Setter DECAWM := ltac:(derive_setter DECAWM).
#[export] Instance set_DECCKM : Setter DECCKM := ltac:(derive_setter DECCKM).
#[export] Instance set_DECPAM : Setter DECPAM := ltac:(derive_setter DECPAM).
#[export] Instance set_DECORG : Setter DECORG := ltac:(derive_setter DECORG).
#[export] Instance set_DECCM : Setter DECCM := ltac:(derive_setter DECCM).
#[export] Instance set_G0 : Setter G0 := ltac:(derive_setter G0).
#[export] Instance set_G1 : Setter G1 := ltac:(derive_setter G1).
#[export] Instance set_charset : Setter charset := ltac:(derive_setter charset).
#[export] Instance set_IRM : Setter IRM := ltac:(derive_setter IRM).
#[export] Instance set_escflg : Setter escflg := ltac:(derive_setter escflg).
#[export] Instance set_top : Setter top := ltac:(derive_setter top).
#[export] Instance set_bottom : Setter bottom := ltac:(derive_setter bottom).
#[export] Instance set_Rtop : Setter Rtop := ltac:(derive_setter Rtop).
#[export] Instance set_Rbottom : Setter Rbottom := ltac:(derive_setter Rbottom).
#[export] Instance set_Rleft : Setter Rleft := ltac:(derive_setter Rleft).
#[export] Instance set_Rright : Setter Rright := ltac:(derive_setter Rright).
#[export] Instance set_parmptr : Setter parmptr := ltac:(derive_setter parmptr).
#[export] Instance set_prredirect : Setter prredirect := ltac:(derive_setter prredirect).
#[export] Instance set_linesjumped : Setter linesjumped := ltac:(derive_setter linesjumped).
#[export] Instance set_disableCursor : Setter disableCursor := ltac:(derive_setter disableCursor).
#[export] Instance set_parms : Setter parms := ltac:(derive_setter parms).
#[export] Instance set_tabs : Setter tabs := ltac:(derive_setter tabs).
#[export] Instance set_escflags : Setter escflags := ltac:(derive_setter escflags).
#[export] Instance set_trincount : Setter trincount := ltac:(derive_setter trincount).
#[export] Instance set_trinx : Setter trinx := ltac:(derive_setter trinx).
#[export] Instance set_trintag : Setter trintag := ltac:(derive_setter trintag).
#[export] Instance set_trinbuf : Setter trinbuf := ltac:(derive_setter trinbuf).
#[export] Instance set_tempstr : Setter tempstr := ltac:(derive_setter tempstr).
#[export] Instance set_qprint : Setter qprint := ltac:(derive_setter qprint).
#[export] Instance set_printqueued : Setter printqueued := ltac:(derive_setter printqueued).
#[export] Instance set_prbuf : Setter prbuf := ltac:(derive_setter prbuf).
#[export] Instance set_prbuf2 : Setter prbuf2 := ltac:(derive_setter prbuf2).
#[export] Instance set_captureRN : Setter captureRN := ltac:(derive_setter captureRN).
#[export] Instance set_store : Setter store := ltac:(derive_setter store).
#[export] Instance set_skip : Setter skip := ltac:(derive_setter skip).
#[export] Instance set_drawn : Setter drawn := ltac:(derive_setter drawn).

Definition ScrollbackQuantum : Z := 100.
Definition VSDEFLINES : Z := 48.
Definition maxparms : nat := 16.
Definition kVSgrph : Z := 0x80.
Definition kVSansi2b : Z := 0x40000.
Definition kVSdecdhlt : Z := 1.
Definition kVSdecdhlb : Z := 2.
Definition kVSwrap : Z := 4.
Definition BLANK : Z := 32.

Definition draw (d : drawing) (vs : VSscrn) : VSscrn := vs <| drawn := drawn vs ++ [d] |>.

(** ** Clipping *)

(** The variables [VSIclip] reads and writes. *)
Record clip := Clip { cx1 : Z; cy1 : Z; cx2 : Z; cy2 : Z; cn : Z; coffset : Z }.

(** The region to draw relative to the visible one; [true] when nothing of it
    can be seen. *)
Definition VSIclip (vs : VSscrn) (c : clip) : bool * clip :=
  let '(x2, y2) := if 0 <=? cn c then (cx1 c + cn c - 1, cy1 c) else (cx2 c, cy2 c) in
  if (Rright vs <? cx1 c) || (y2 <? Rtop vs) then (true, Clip (cx1 c) (cy1 c) x2 y2 (cn c) (coffset c))
  else
    let x2 := (if Rright vs <? x2 then Rright vs else x2) - Rleft vs in
    let y2 := (if Rbottom vs <? y2 then Rbottom vs else y2) - Rtop vs in
    let x1 := cx1 c - Rleft vs in
    let y1 := cy1 c - Rtop vs in
    let offset := if - x1 <? 0 then 0 else - x1 in
    let x1 := if x1 <? 0 then 0 else x1 in
    let y1 := if y1 <? 0 then 0 else y1 in
    let n := x2 - x1 + 1 in
    ((n <=? 0) || (y2 - y1 <? 0), Clip x1 y1 x2 y2 n offset).

(** Draws the visible part of a region, if any. *)
Definition draw_clipped (c : clip) (f : clip -> drawing) (vs : VSscrn) : VSscrn :=
  let '(invisible, c) := VSIclip vs c in
  if invisible : bool then vs else draw (f c) vs.

(** Whether nothing of the change was visible, and the screen. *)
Definition VSIcdellines (t b n scrolled : Z) (vs : VSscrn) : bool * VSscrn :=
  let '(invisible, c) := VSIclip vs (Clip 0 t (maxwidth vs) b (-1) 0) in
  if invisible : bool then (true, vs)
  else
    let tn := cy2 c - cy1 c in
    (false, draw (RSdellines (cy1 c) (cy2 c) (if tn <? n then tn else n) scrolled) vs).

Definition VSIcinslines (t b n scrolled : Z) (vs : VSscrn) : bool * VSscrn :=
  let '(invisible, c) := VSIclip vs (Clip 0 t (maxwidth vs) b (-1) 0) in
  if invisible : bool then (true, vs)
  else
    let tn := cy2 c - cy1 c in
    (false, draw (RSinslines (cy1 c) (cy2 c) (if tn <? n then tn else n) scrolled) vs).

(** ** Lines *)

(** [VSIw->linest[i]] *)
Definition line_at (i : Z) (vs : VSscrn) : outcome Z := arr_get (linest vs) i.

(** The loop that stores [n] times [v] from index [i] on. *)
Fixpoint fill (n : nat) (i v : Z) (l : bytes) : outcome bytes :=
  match n with
  | O => Done l
  | S n => l ← arr_set i v l; fill n (i + 1) v l
  end.

(** Blanks [n] characters of the line at [p] from column [i] on. *)
Definition blank (p : Z) (n : Z) (i a : Z) (vs : VSscrn) : outcome VSscrn :=
  l ← load p (store vs);
  t ← fill (Z.to_nat n) i BLANK (text l);
  r ← fill (Z.to_nat n) i a (attr l);
  h ← modify p (fun l => l <| text := t |> <| attr := r |>) (store vs);
  Done (vs <| store := h |>).

Definition set_lattr (p v : Z) (vs : VSscrn) : outcome VSscrn :=
  h ← modify p (fun l => l <| lattr := v |>) (store vs);
  Done (vs <| store := h |>).

(** The attributes of erased characters. *)
Definition erased (vs : VSscrn) : Z :=
  if vtemulation vs =? 3 then attrib vs else Z.land (attrib vs) (Z.lor kVSansi2b kVSgrph).

(** Rebuilds [linest] from the line at [ts]. *)
Definition resync (ts : Z) (vs : VSscrn) : outcome VSscrn :=
  l ← VSIlistndx (Z.to_nat (lines vs + 1)) ts (store vs);
  Done (vs <| linest := l |>).

Definition VSIelo (s : Z) (vs : VSscrn) : outcome VSscrn :=
  let s := if s <? 0 then y vs else s in
  p ← line_at s vs;
  vs ← set_lattr p 0 vs;
  blank p (allwidth vs + 1) 0 (erased vs) vs.

(** [for (j = i; n > 0; n--, j++) f(j)] *)
Fixpoint for_lines (f : Z -> VSscrn -> outcome VSscrn) (n : nat) (i : Z) (vs : VSscrn) : outcome VSscrn :=
  match n with
  | O => Done vs
  | S n => vs ← f i vs; for_lines f n (i + 1) vs
  end.

(** ** The jump scroller *)

Definition VSIflush (vs : VSscrn) : VSscrn :=
  if linesjumped vs =? 0 then vs
  else
    let vs := vs <| skip := 0 |> in
    let '(_, vs) := VSIcdellines (top vs) (bottom vs) (linesjumped vs) (- linesjumped vs) vs in
    let vs :=
      if bottom vs - top vs <? linesjumped vs then
        draw (VSredraw 0 (top vs - Rtop vs) (maxwidth vs) (bottom vs - Rtop vs)) vs
      else
        draw (VSredraw 0 (bottom vs - linesjumped vs + 1 - Rtop vs) (maxwidth vs) (bottom vs - Rtop vs)) vs in
    vs <| linesjumped := 0 |>.

(** ** Inserting and deleting lines *)

(** Blanks [n] lines in list order from [p] on. *)
Fixpoint blank_lines (keep_lattr : bool) (n : nat) (p a : Z) (vs : VSscrn) : outcome VSscrn :=
  match n with
  | O => Done vs
  | S n =>
    vs ← (if keep_lattr then Done vs else set_lattr p 0 vs);
    vs ← blank p (allwidth vs + 1) 0 a vs;
    l ← load p (store vs);
    blank_lines keep_lattr n (next l) a vs
  end.

(** [vistop] follows the visible region when that lies on the screen. *)
Definition resync_vistop (vs : VSscrn) : outcome VSscrn :=
  if 0 <=? Rtop vs then p ← line_at (Rtop vs) vs; Done (vs <| vistop := p |>) else Done vs.

Definition VSIdellines (n s : Z) (vs : VSscrn) : outcome VSscrn :=
  let s := if s <? 0 then y vs else s in
  let n := if bottom vs <? s + n - 1 then bottom vs - s + 1 else n in
  ts ← line_at (if (s =? 0) && (n <=? bottom vs) then n else 0) vs;
  TD ← line_at s vs;
  BD ← line_at (s + n - 1) vs;
  TI ← line_at (bottom vs) vs;
  ti ← load TI (store vs);
  let BI := next ti in
  h ← (if negb (TD =? BI) && negb (TI =? BD) then VSIlistmove TD BD TI BI (store vs) else Done (store vs));
  vs ← blank_lines false (Z.to_nat n) TD (erased vs) (vs <| store := h |>);
  vs ← resync ts (vs <| scrntop := ts |>);
  vs ← resync_vistop vs;
  Done (VSIcdellines s (bottom vs) n (-1) vs).2.

Definition VSIinslines (n s : Z) (vs : VSscrn) : outcome VSscrn :=
  let vs := VSIflush vs in
  let s := if s <? 0 then y vs else s in
  let n := if bottom vs <? s + n - 1 then bottom vs - s + 1 else n in
  ts ← line_at (if (s =? 0) && (n <=? lines vs) then bottom vs - n + 1 else 0) vs;
  BI ← line_at s vs;
  bi ← load BI (store vs);
  let TI := prev bi in
  TD ← line_at (bottom vs - n + 1) vs;
  BD ← line_at (bottom vs) vs;
  h ← (if negb (TD =? BI) && negb (TI =? BD) then VSIlistmove TD BD TI BI (store vs) else Done (store vs));
  vs ← blank_lines true (Z.to_nat n) TD (erased vs) (vs <| store := h |>);
  vs ← resync ts (vs <| scrntop := ts |>);
  vs ← resync_vistop vs;
  Done (VSIcinslines s (bottom vs) n (-1) vs).2.

(** ** Scrolling *)

(** [VSIw->linest[VSIw->lines]] *)
Definition last_line (vs : VSscrn) : outcome Z := line_at (lines vs) vs.

Definition bufinfo (vs : VSscrn) : VSscrn := draw (RSbufinfo (numlines vs) (Rtop vs) (Rbottom vs)) vs.

(** [buftop = buftop->next] *)
Definition step_buftop (vs : VSscrn) : outcome VSscrn :=
  b ← load (buftop vs) (store vs); Done (vs <| buftop := next b |>).

(** Makes the list of lines circular. *)
Definition close_ring (p : Z) (vs : VSscrn) : outcome VSscrn :=
  h ← set_next p (buftop vs) (store vs);
  h ← set_prev (buftop vs) p h;
  Done (vs <| store := h |>).

Section Scrolling.
Context `{MM : Memory} `{TE : TextEncodings}.

(** The first half of [VSIscroll]: there is a line below the screen for its
    next last line: a new block, the oldest line of the scrollback buffer, or a
    line allocated before. *)
Definition scroll_room (vs : VSscrn) : outcome VSscrn :=
  pL ← last_line vs;
  l ← load pL (store vs);
  if next l =? 0 then
    let i := maxlines vs - numlines vs in
    let i := if ScrollbackQuantum <? i then ScrollbackQuantum else i in
    '(tmp, h) ← (if 0 <? i then VSInewlines (allwidth vs) i (store vs) else Done (0, store vs));
    let vs := vs <| store := h |> in
    if negb (tmp =? 0) then
      h ← set_next pL tmp (store vs);
      h ← set_prev tmp pL h;
      Done (bufinfo (vs <| store := h |> <| numlines := numlines vs + 1 |>))
    else
      vs ← close_ring pL vs;
      step_buftop vs
  else if next l =? buftop vs then step_buftop vs
  else Done (bufinfo (vs <| numlines := numlines vs + 1 |>)).

(** The display of a scroll by one line. *)
Definition scroll_display (vs : VSscrn) : outcome VSscrn :=
  let scrolled := -1 in
  let '(invisible, vs) := VSIcdellines (Rtop vs) (bottom vs) 1 scrolled vs in
  if invisible : bool then
    if - numlines vs <? Rtop vs then Done (vs <| Rtop := Rtop vs - 1 |> <| Rbottom := Rbottom vs - 1 |>)
    else
      v ← load (vistop vs) (store vs);
      Done (draw (RSdellines 0 (Rbottom vs - Rtop vs) 1 scrolled) (vs <| vistop := next v |>))
  else
    v ← load (vistop vs) (store vs);
    Done (vs <| vistop := next v |>).

(** The blank line of a scroll moves up from the last line of the screen to
    the bottom of the scrolling region. *)
Definition lift_last (vs : VSscrn) : outcome VSscrn :=
  tmp2 ← last_line vs;
  tmp3 ← line_at (bottom vs) vs;
  l2 ← load tmp2 (store vs);
  let tmp := next l2 in
  let tmp4 := prev l2 in
  l3 ← load tmp3 (store vs);
  h ← set_next (prev l3) tmp2 (store vs);
  l3 ← load tmp3 h;
  h ← set_prev tmp2 (prev l3) h;
  h ← set_next tmp2 tmp3 h;
  h ← set_prev tmp3 tmp2 h;
  h ← set_next tmp4 tmp h;
  h ← (if negb (tmp =? 0) then set_prev tmp tmp4 h else Done h);
  let vs := vs <| store := h |> in
  let ts := if scrntop vs =? tmp3 then tmp2 else scrntop vs in
  resync ts (vs <| scrntop := ts |>).

Definition VSIscroll (vs : VSscrn) : outcome VSscrn :=
  if lines vs <? y vs then Done vs
  else if (savelines vs =? 0) || negb (top vs =? 0) then VSIdellines 1 (top vs) vs
  else
    vs ← scroll_room vs;
    t ← load (scrntop vs) (store vs);
    vs ← resync (next t) (vs <| scrntop := next t |>);
    vs ← scroll_display vs;
    pL ← last_line vs;
    vs ← set_lattr pL 0 vs;
    vs ← blank pL (allwidth vs + 1) 0 0 vs;
    if negb (bottom vs =? lines vs) then lift_last vs else Done vs.

(** [VSIscroff]: the lines below the screen are counted, and a block
    allocated (or the ring closed) when there are fewer than a screenful. *)
Fixpoint scroff_room (n : nat) (i tmp : Z) (vs : VSscrn) : outcome VSscrn :=
  match n with
  | O => Done vs
  | S n =>
    l ← load tmp (store vs);
    if next l =? 0 then
      let j := maxlines vs - numlines vs - i in
      let j := if ScrollbackQuantum <? j then ScrollbackQuantum else j in
      if j <=? 0 then close_ring tmp vs
      else
        let j := if j <? lines vs - i + 1 then lines vs - i + 1 else j in
        '(new, h) ← VSInewlines (allwidth vs) j (store vs);
        h ← set_next tmp new h;
        if negb (new =? 0) then h ← set_prev new tmp h; Done (vs <| store := h |>)
        else close_ring tmp (vs <| store := h |>)
    else scroff_room n (i + 1) (next l) vs
  end.

Fixpoint scroff_push (n : nat) (vs : VSscrn) : outcome VSscrn :=
  match n with
  | O => Done vs
  | S n =>
    pL ← last_line vs;
    l ← load pL (store vs);
    vs ← (if next l =? buftop vs then step_buftop vs else Done (vs <| numlines := numlines vs + 1 |>));
    t ← load (scrntop vs) (store vs);
    vs ← resync (next t) (vs <| scrntop := next t |>);
    scroff_push n vs
  end.

Definition VSIscroff (vs : VSscrn) : outcome VSscrn :=
  if (savelines vs =? 0) || negb (top vs =? 0) || negb (bottom vs =? lines vs) then Done vs
  else
    pL ← last_line vs;
    vs ← scroff_room (Z.to_nat (lines vs + 1)) 0 pL vs;
    vs ← scroff_push (Z.to_nat (lines vs + 1)) vs;
    let vs := vs <| vistop := scrntop vs |> in
    Done (bufinfo (vs <| Rbottom := Rbottom vs - Rtop vs |> <| Rtop := 0 |>)).

(** ** Erasing the screen, tab stops, reset *)

Definition VSIes (vs : VSscrn) : outcome VSscrn :=
  let vs := VSIflush vs in
  vs ← (if negb (ESscroll vs =? 0) then VSIscroff vs else Done vs);
  vs ← for_lines VSIelo (Z.to_nat (lines vs + 1)) 0 vs;
  let vs := draw_clipped (Clip 0 0 (maxwidth vs) (lines vs) (-1) 0)
              (fun c => RSerase (cx1 c) (cy1 c) (cx2 c) (cy2 c)) vs in
  Done (bufinfo (vs <| vistop := scrntop vs |> <| Rtop := 0 |> <| Rbottom := lines vs |>)).

Definition TABSTOP : Z := 120.

Definition VSItabclear (vs : VSscrn) : outcome VSscrn :=
  t ← fill (Z.to_nat (allwidth vs + 1)) 0 BLANK (tabs vs);
  Done (vs <| tabs := t |>).

(** The stops at the multiples of eight, up to [allwidth]. *)
Fixpoint tab_stops (n : nat) (c : Z) (t : bytes) : outcome bytes :=
  match n with O => Done t | S n => t ← arr_set c TABSTOP t; tab_stops n (c + 8) t end.

Definition VSItabinit (vs : VSscrn) : outcome VSscrn :=
  vs ← VSItabclear vs;
  t ← tab_stops (Z.to_nat (allwidth vs / 8 + 1)) 0 (tabs vs);
  t ← arr_set (allwidth vs) TABSTOP t;
  Done (vs <| tabs := t |>).

(** 0xffffffff in a [long] is -1. The temporary file of a printer redirection
    is closed and deleted. *)
Definition VSIreset (vs : VSscrn) : outcome VSscrn :=
  let vs := VSIflush vs in
  let vs := vs <| top := 0 |> <| bottom := lines vs |> <| parmptr := 0 |> <| escflg := 0 |>
    <| DECAWM := 0 |> <| DECCKM := 0 |> <| DECPAM := 0 |> <| DECORG := 0 |> <| DECCM := 1 |>
    <| Pattrib := -1 |> <| IRM := 0 |> <| attrib := 0 |> <| x := 0 |> <| y := 0 |> <| charset := 0 |>
    <| trincount := 0 |> <| trinx := 0 |> <| trintag := 0 |> <| prbuf := 0 |> in
  let vs := if prredirect vs =? 0 then vs else draw HDelete (draw FSClose (vs <| prredirect := 0 |>)) in
  vs ← VSIes vs;
  VSItabinit vs.

(** ** Moving the cursor *)

(** The end of [VSIindex]: back to the default input translation. *)
Definition default_translation (vs : VSscrn) : VSscrn :=
  match session vs with
  | Some tw =>
    let '(tw, reset) := switchintranslation tw (outnational tw) (outcharset tw) in
    let vs := vs <| session := Some tw |> in
    if reset : bool then vs <| trincount := 0 |> <| trinx := 0 |> <| trintag := 0 |> else vs
  | None => vs
  end.

Definition VSIindex (vs : VSscrn) : outcome VSscrn :=
  vs ← (if y vs =? bottom vs then
          let vs :=
            if negb (jumpScroll vs =? 0) && (negb (linesjumped vs =? 0) || (skip vs =? 0)) then
              let vs := vs <| skip := 1 |> <| linesjumped := linesjumped vs + 1 |> in
              if bottom vs - top vs <? linesjumped vs then VSIflush vs else vs
            else vs in
          VSIscroll vs
        else if y vs <? lines vs then Done (vs <| y := y vs + 1 |>)
        else Done vs);
  Done (default_translation (vs <| lattrib := 0 |>)).

(** The last column of the current line, half as far on a double-width one. *)
Definition VSisdecdwh (la : Z) : bool :=
  negb (Z.land la (Z.lor kVSdecdhlt kVSdecdhlb) =? 0)
  && negb (Z.land la (Z.lor kVSdecdhlt kVSdecdhlb) =? Z.lor kVSdecdhlt kVSdecdhlb).

Definition margin (vs : VSscrn) : Z :=
  if VSisdecdwh (lattrib vs) then
    let mw := Z.shiftr (maxwidth vs) 1 in
    if Z.land (maxwidth vs) 1 =? 0 then mw - 1 else mw
  else maxwidth vs.

(** A pending wrap is carried out; the position is returned. *)
Definition VSIwrapnow (vs : VSscrn) : outcome (Z * Z * VSscrn) :=
  vs ← (if margin vs <? x vs then VSIindex (vs <| x := 0 |>) else Done vs);
  Done (x vs, y vs, vs).

Definition VSIrindex (vs : VSscrn) : outcome VSscrn :=
  let vs := VSIflush vs in
  if y vs =? top vs then VSIinslines 1 (top vs) vs else Done (vs <| y := y vs - 1 |>).

Definition VSIrange (vs : VSscrn) : VSscrn :=
  let wrap := if DECAWM vs =? 0 then 0 else 1 in
  let mw := margin vs in
  let vs := if x vs <? 0 then vs <| x := 0 |> else vs in
  let vs := if mw + wrap <? x vs then vs <| x := mw + wrap |> else vs in
  let vs := if y vs <? 0 then vs <| y := 0 |> else vs in
  if lines vs <? y vs then vs <| y := lines vs |> else vs.

Definition VSIsave (vs : VSscrn) : VSscrn :=
  vs <| Px := x vs |> <| Py := y vs |> <| Pattrib := attrib vs |>.

Definition VSIrestore (vs : VSscrn) : VSscrn :=
  if Pattrib vs =? -1 then vs
  else
    let vs := VSIflush vs in
    let vs := VSIrange (vs <| x := Px vs |> <| y := Py vs |>) in
    vs <| attrib := Z.lor (Z.land (attrib vs) kVSgrph) (Pattrib vs) |>.

(** ** Erasing part of a line or of the screen *)

(** The contents of the screen's lines, [n] of them. *)
Fixpoint contents (ps : list Z) (vs : VSscrn) : outcome (list VSline) :=
  match ps with
  | [] => Done []
  | p :: ps => l ← load p (store vs); r ← contents ps vs; Done (l :: r)
  end.

Fixpoint restore_contents (ps : list Z) (ls : list VSline) (vs : VSscrn) : outcome VSscrn :=
  match ps, ls with
  | p :: ps, l :: ls =>
    h ← modify p (fun e => e <| text := text l |> <| attr := attr l |> <| lattr := lattr l |>) (store vs);
    restore_contents ps ls (vs <| store := h |>)
  | _, _ => Done vs
  end.

(** The screen is copied to a block of its own, pushed into the scrollback
    buffer, and copied back. *)
Definition force_save (vs : VSscrn) : outcome VSscrn :=
  let vs := vs <| possibleForce := 0 |> in
  '(savedTextBlock, h) ← VSInewlines (allwidth vs) (lines vs + 1) (store vs);
  if savedTextBlock =? 0 then Crash NullDeref
  else
    let vs := vs <| store := h |> in
    saved ← contents (linest vs) vs;
    vs ← VSIscroff vs;
    vs ← restore_contents (linest vs) saved vs;
    h ← DisposePtr savedTextBlock (store vs);
    Done (vs <| store := h |>).

Definition VSIeeol (vs : VSscrn) : outcome VSscrn :=
  vs ← (if (x vs =? 0) && (y vs =? 0) && (possibleForce vs =? 1) then force_save vs else Done vs);
  let a := erased vs in
  '(x1, y1, vs) ← VSIwrapnow vs;
  p ← line_at y1 vs;
  vs ← blank p (allwidth vs - x1 + 1) x1 a vs;
  Done (draw_clipped (Clip x1 y1 (maxwidth vs) y1 (-1) 0)
          (fun c => VSredraw (cx1 c) (cy1 c) (cx2 c) (cy2 c)) vs).

Definition VSIebol (vs : VSscrn) : outcome VSscrn :=
  '(x2, y1, vs) ← VSIwrapnow vs;
  p ← line_at y1 vs;
  vs ← blank p (x2 + 1) 0 (erased vs) vs;
  Done (draw_clipped (Clip 0 y1 x2 y1 (-1) 0)
          (fun c => RSerase (cx1 c) (cy1 c) (cx2 c) (cy2 c)) vs).

Definition VSIel (s : Z) (vs : VSscrn) : outcome VSscrn :=
  '(s, vs) ← (if s <? 0 then '(_, y1, vs) ← VSIwrapnow vs; Done (y1, vs) else Done (s, vs));
  p ← line_at s vs;
  vs ← blank p (allwidth vs + 1) 0 (erased vs) vs;
  Done (draw_clipped (Clip 0 s (maxwidth vs) s (-1) 0)
          (fun c => RSerase (cx1 c) (cy1 c) (cx2 c) (cy2 c)) vs).

(** The region below the current line is clipped twice, the second time from
    what the first clipping left. *)
Definition VSIeeos (vs : VSscrn) : outcome VSscrn :=
  let vs := VSIflush vs in
  '(_, y1, vs) ← VSIwrapnow vs;
  let i := y1 + 1 in
  vs ← (if negb (ESscroll vs =? 0) && (y vs =? 0) && (x vs =? 0) then VSIscroff vs else Done vs);
  let vs := vs <| possibleForce := 0 |> in
  let '(invisible, c) := VSIclip vs (Clip 0 i (maxwidth vs) (lines vs) (-1) 0) in
  let erase := fun c => RSerase (cx1 c) (cy1 c) (cx2 c) (cy2 c) in
  let vs := if invisible : bool then vs else draw (erase c) vs in
  vs ← VSIeeol vs;
  vs ← for_lines VSIelo (Z.to_nat (lines vs + 1 - i)) i vs;
  Done (if (y vs <? lines vs) && (x vs <=? maxwidth vs) then draw_clipped c erase vs else vs).

Definition VSIebos (vs : VSscrn) : outcome VSscrn :=
  let vs := VSIflush vs in
  '(_, y1, vs) ← VSIwrapnow vs;
  let y2 := y1 - 1 in
  vs ← VSIebol vs;
  vs ← for_lines VSIelo (Z.to_nat (y2 + 1)) 0 vs;
  Done (if 0 <=? y2 then
          draw_clipped (Clip 0 0 (maxwidth vs) y2 (-1) 0)
            (fun c => RSerase (cx1 c) (cy1 c) (cx2 c) (cy2 c)) vs
        else vs).

(** ** Inserting and deleting characters *)

(** [for (i = from; n > 0; n--, i += step) a[i + to] = a[i + off]] *)
Fixpoint copy_chars (n : nat) (i step to off : Z) (l : bytes) : outcome bytes :=
  match n with
  | O => Done l
  | S n => v ← arr_get l (i + off); l ← arr_set (i + to) v l; copy_chars n (i + step) step to off l
  end.

Definition edit_line (p : Z) (f : bytes -> outcome bytes) (g : bytes -> outcome bytes) (vs : VSscrn) : outcome VSscrn :=
  l ← load p (store vs);
  t ← f (text l);
  a ← g (attr l);
  h ← modify p (fun l => l <| text := t |> <| attr := a |>) (store vs);
  Done (vs <| store := h |>).

Definition VSIdelchars (n : Z) (vs : VSscrn) : outcome VSscrn :=
  '(x1, y1, vs) ← VSIwrapnow vs;
  let n := if maxwidth vs <? n then maxwidth vs else n in
  p ← line_at y1 vs;
  l ← load p (store vs);
  let shift := copy_chars (Z.to_nat (maxwidth vs - n + 1 - x1)) x1 1 0 n in
  let from := maxwidth vs - n + 1 in
  let clear := fill (Z.to_nat (allwidth vs + 1 - from)) from in
  vs ← edit_line p (fun t => t ← shift t; clear BLANK t) (fun a => a ← shift a; clear (erased vs) a) vs;
  Done (draw_clipped (Clip x1 y1 (maxwidth vs) y1 (-1) 0)
          (fun c => RSdelchars (lattr l) (cx1 c) (cy1 c) n) vs).

(** The attributes kept and dropped are the other way round than in the other
    routines. *)
Definition VSIinschar (n clear : Z) (vs : VSscrn) : outcome VSscrn :=
  '(_, _, vs) ← VSIwrapnow vs;
  p ← line_at (y vs) vs;
  let from := maxwidth vs - n in
  let shift := copy_chars (Z.to_nat (from - x vs + 1)) from (-1) n 0 in
  let a := if vtemulation vs =? 3 then Z.land (attrib vs) (Z.lor kVSansi2b kVSgrph) else attrib vs in
  let blanks := fun v l => if negb (clear =? 0) then fill (Z.to_nat n) (x vs) v l else Done l in
  edit_line p (fun t => t ← shift t; blanks BLANK t) (fun r => r ← shift r; blanks a r) vs.

Definition VSIinsstring (len : Z) (start : bytes) (vs : VSscrn) : VSscrn :=
  draw (RSinsstring (x vs - len) (y vs) (lattrib vs) (attrib vs) len start) vs.

Definition VSIdraw (px py la a len : Z) (s : bytes) (vs : VSscrn) : VSscrn :=
  draw_clipped (Clip px py 0 0 len 0)
    (fun c => RSdraw (cx1 c) (cy1 c) la a (cn c) (drop (Z.to_nat (coffset c)) s)) vs.

(** ** Tab stops, parameters, the alignment display *)

Fixpoint next_stop (fuel : nat) (current : Z) (vs : VSscrn) : outcome Z :=
  t ← arr_get (tabs vs) current;
  if negb (t =? TABSTOP) && (current <? maxwidth vs) then
    match fuel with O => Crash Hang | S fuel => next_stop fuel (current + 1) vs end
  else Done current.

Definition VSIgetNextTabDistance (vs : VSscrn) : outcome Z :=
  if maxwidth vs <=? x vs then Done 0
  else
    current ← next_stop (Z.to_nat (maxwidth vs - x vs)) (x vs + 1) vs;
    Done (current - x vs).

Definition VSItab (vs : VSscrn) : outcome VSscrn :=
  d ← VSIgetNextTabDistance vs; Done (vs <| x := x vs + d |>).

Definition VSIapclear (vs : VSscrn) : VSscrn := vs <| parms := replicate maxparms (-1) |> <| parmptr := 0 |>.

Definition align_line (j : Z) (vs : VSscrn) : outcome VSscrn :=
  p ← line_at j vs;
  vs ← set_lattr p 0 vs;
  edit_line p (fill (Z.to_nat (maxwidth vs + 1)) 0 69) Done vs.

(** [for (j = 0; j < VSIw->lines; j++)]: the last line is left out. *)
Definition VTalign (vs : VSscrn) : outcome VSscrn :=
  vs ← VSIes vs;
  vs ← for_lines align_line (Z.to_nat (lines vs)) 0 vs;
  Done (draw (VSredraw 0 0 (Rright vs - Rleft vs) (Rbottom vs - Rtop vs)) vs).

End Scrolling.

End Screen.
