(* ===== verification/Rows.v ===== *)
(** The screen as rows of text: what the kernel's routines for inserting and
    deleting lines (Screens/vsintern.c) do to the doubly-linked list of lines is
    shown to be what they should do to the list of rows the screen shows. *)
From S2P Require Import Prelude Window Lines Screen.
Import Lines Screen.

Module Rows.

(** ** Lemmas: contents *)

(** The heaps have the same structure; what the lines say may differ. *)
Definition same_links (h h' : heap) : Prop :=
  (forall p, nx h' p = nx h p) /\ (forall p, pv h' p = pv h p) /\ (forall p, valid h' p <-> valid h p)
  /\ (forall p, (mem <$> (cells h' !! p)) = (mem <$> (cells h !! p))) /\ brk h' = brk h /\ blocks h' = blocks h.

Lemma same_links_refl h : same_links h h.
Proof. done. Qed.
Lemma same_links_trans h1 h2 h3 : same_links h1 h2 -> same_links h2 h3 -> same_links h1 h3.
Proof.
  intros (A1 & A2 & A3 & A4 & A5 & A6) (B1 & B2 & B3 & B4 & B5 & B6).
  split; [|split; [|split; [|split; [|split]]]]; intros; try congruence. by rewrite B3.
Qed.
#[local] Hint Resolve same_links_refl same_links_trans : macssh.

Lemma chain_same_links h h' circ L : same_links h h' -> chain h circ L -> chain h' circ L.
Proof.
  intros (N & V & D & _) (H1 & H2 & H3). split; [done|]. split.
  - intros p Hp. destruct (H2 p Hp). split; [done|]. by apply D.
  - by apply (links_same h).
Qed.

(** Changing what a line says. *)
Lemma modify_content p f h l :
  cells h !! p = Some l -> next (f l) = next l -> prev (f l) = prev l -> mem (f l) = mem l ->
  exists h', modify p f h = Done h' /\ same_links h h'
  /\ forall q, ct h' q = if decide (q = p) then Some (lattr (f l), text (f l), attr (f l)) else ct h q.
Proof.
  intros Hl Hn Hp Hm. unfold modify, load. rewrite Hl. eexists. split; [reflexivity|].
  unfold same_links, nx, pv, ct, valid. cbn.
  assert (He : forall q, <[p := f l]> (cells h) !! q = if decide (q = p) then Some (f l) else cells h !! q).
  { intros q. destruct (decide (q = p)) as [->|]; [by rewrite lookup_insert_eq | by rewrite lookup_insert_ne]. }
  split; [split; [|split; [|split; [|split; [|done]]]]|]; intros q; rewrite He; destruct (decide (q = p)) as [->|];
    rewrite ?Hl; cbn; rewrite ?Hn, ?Hp, ?Hm; try done; split; by eexists.
Qed.

(** Storing a run of equal values. *)
Definition filled (n i : Z) (v : Z) (l : bytes) : bytes :=
  take (Z.to_nat i) l ++ replicate (Z.to_nat n) v ++ drop (Z.to_nat (i + n)) l.

Lemma fill_ok n : forall i v l,
  0 <= i -> i + Z.of_nat n <= zlen l -> fill n i v l = Done (filled (Z.of_nat n) i v l).
Proof.
  unfold filled. induction n as [|n IH]; intros i v l Hi Hl; cbn [fill].
  - rewrite Nat2Z.id, Z.add_0_r. cbn [replicate app]. by rewrite take_drop.
  - rewrite arr_set_Done by (unfold zlen in *; lia). cbn [mbind outcome_bind].
    rewrite IH by (rewrite ?zlen_insert; lia). f_equal.
    replace (Z.to_nat (i + 1)) with (S (Z.to_nat i)) by lia. rewrite take_insert_snoc by (unfold zlen in Hl; lia).
    rewrite !Nat2Z.id. cbn [replicate app]. rewrite <- app_assoc. cbn [app]. do 3 f_equal.
    rewrite drop_insert_lt by lia. f_equal. lia.
Qed.

Lemma filled_all n v l : zlen l = n -> filled n 0 v l = replicate (Z.to_nat n) v.
Proof.
  intros E. unfold filled. cbn [Z.to_nat]. rewrite Z.add_0_l, drop_ge by (unfold zlen in E; lia). by rewrite app_nil_r.
Qed.

Lemma zlen_filled n i v l : 0 <= i -> 0 <= n -> i + n <= zlen l -> zlen (filled n i v l) = zlen l.
Proof. unfold filled, zlen. intros. rewrite !length_app, length_take, length_replicate, length_drop. lia. Qed.

(** ** Lemmas: blanking *)

Definition row : Type := Z * bytes * bytes.

(** The line at [p] has [w] characters. *)
Definition sized (w : Z) (h : heap) (p : Z) : Prop :=
  exists la t a, ct h p = Some (la, t, a) /\ zlen t = w /\ zlen a = w.

Definition blank_row (la w a : Z) : row := (la, replicate (Z.to_nat w) BLANK, replicate (Z.to_nat w) a).

Lemma store_store vs h1 h2 : vs <| store := h1 |> <| store := h2 |> = vs <| store := h2 |>.
Proof. done. Qed.
Lemma store_id vs : vs <| store := store vs |> = vs.
Proof. by destruct vs. Qed.

Lemma ct_cell h p la t a : ct h p = Some (la, t, a) ->
  exists l, cells h !! p = Some l /\ lattr l = la /\ text l = t /\ attr l = a.
Proof.
  unfold ct. destruct (cells h !! p) as [l|]; [|done]. cbn. intros [= <- <- <-]. by exists l.
Qed.

Lemma blank_ok p n i a vs la t r w :
  ct (store vs) p = Some (la, t, r) -> zlen t = w -> zlen r = w -> 0 <= i -> 0 <= n -> i + n <= w ->
  exists h', blank p n i a vs = Done (vs <| store := h' |>) /\ same_links (store vs) h'
  /\ forall q, ct h' q = if decide (q = p) then Some (la, filled n i BLANK t, filled n i a r) else ct (store vs) q.
Proof.
  intros Hc Ht Hr Hi Hn Hw. destruct (ct_cell _ _ _ _ _ Hc) as (l & Hl & <- & <- & <-).
  unfold blank, load. rewrite Hl. cbn [mbind outcome_bind]. rewrite !fill_ok by lia. cbn [mbind outcome_bind].
  rewrite Z2Nat.id by lia.
  destruct (modify_content p (fun l0 => l0 <| text := filled n i BLANK (text l) |> <| attr := filled n i a (attr l) |>) (store vs) l Hl)
    as (h' & E & S & C); [done..|]. rewrite E. cbn [mbind outcome_bind]. exists h'. split; [done|]. split; [done|].
  intros q. rewrite C. by destruct (decide (q = p)).
Qed.

Lemma set_lattr_ok p v vs la t r :
  ct (store vs) p = Some (la, t, r) ->
  exists h', set_lattr p v vs = Done (vs <| store := h' |>) /\ same_links (store vs) h'
  /\ forall q, ct h' q = if decide (q = p) then Some (v, t, r) else ct (store vs) q.
Proof.
  intros Hc. destruct (ct_cell _ _ _ _ _ Hc) as (l & Hl & <- & <- & <-). unfold set_lattr.
  destruct (modify_content p (fun l0 => l0 <| lattr := v |>) (store vs) l Hl) as (h' & E & S & C); [done..|].
  rewrite E. exists h'. split; [done|]. split; [done|]. intros q. rewrite C. by destruct (decide (q = p)).
Qed.

(** A whole line. *)
Lemma blank_all_ok p a vs la t r :
  ct (store vs) p = Some (la, t, r) -> zlen t = allwidth vs + 1 -> zlen r = allwidth vs + 1 -> 0 <= allwidth vs + 1 ->
  exists h', blank p (allwidth vs + 1) 0 a vs = Done (vs <| store := h' |>) /\ same_links (store vs) h'
  /\ forall q, ct h' q = if decide (q = p) then Some (blank_row la (allwidth vs + 1) a) else ct (store vs) q.
Proof.
  intros Hc Ht Hr Hw. destruct (blank_ok p (allwidth vs + 1) 0 a vs la t r _ Hc Ht Hr) as (h' & E & S & C); [lia..|].
  exists h'. split; [done|]. split; [done|]. intros q. rewrite C. by rewrite !filled_all by done.
Qed.

(** What a line says after it was blanked. *)
Definition blanked (keep : bool) (w a : Z) (r : row) : row :=
  let '(la, _, _) := r in blank_row (if keep then la else 0) w a.

Lemma blank_line_ok (keep : bool) p a vs :
  sized (allwidth vs + 1) (store vs) p -> 0 <= allwidth vs + 1 ->
  exists h', (vs ← (if keep then Done vs else set_lattr p 0 vs); blank p (allwidth vs + 1) 0 a vs) = Done (vs <| store := h' |>)
  /\ same_links (store vs) h'
  /\ forall q, ct h' q = if decide (q = p) then blanked keep (allwidth vs + 1) a <$> ct (store vs) q else ct (store vs) q.
Proof.
  intros (la & t & r & Hc & Ht & Hr) Hw. destruct keep.
  - destruct (blank_all_ok p a vs la t r Hc Ht Hr Hw) as (h' & E & S & C). exists h'. split; [exact E|]. split; [exact S|].
    intros q. rewrite C. destruct (decide (q = p)) as [->|]; [by rewrite Hc | done].
  - destruct (set_lattr_ok p 0 vs la t r Hc) as (h1 & -> & S1 & C1). cbn [mbind outcome_bind].
    set (vs1 := vs <| store := h1 |>).
    assert (Hc1 : ct (store vs1) p = Some (0, t, r)) by (change (store vs1) with h1; by rewrite C1, decide_True).
    destruct (blank_all_ok p a vs1 0 t r Hc1 Ht Hr Hw) as (h' & E & S & C). exists h'. split; [exact E|].
    split; [eapply same_links_trans; [exact S1 | exact S]|]. intros q. rewrite C. change (store vs1) with h1. rewrite C1.
    destruct (decide (q = p)) as [->|]; [by rewrite Hc | done].
Qed.

Lemma blank_lines_ok keep a D : forall A B circ p vs,
  chain (store vs) circ (A ++ (p :: D) ++ B) -> (forall q, q ∈ p :: D -> sized (allwidth vs + 1) (store vs) q) ->
  0 <= allwidth vs + 1 ->
  exists h', blank_lines keep (S (length D)) p a vs = Done (vs <| store := h' |>) /\ same_links (store vs) h'
  /\ forall q, ct h' q = if decide (q ∈ p :: D) then blanked keep (allwidth vs + 1) a <$> ct (store vs) q else ct (store vs) q.
Proof.
  induction D as [|p2 D IH]; intros A B circ p vs Hch Hs Hw.
  all: destruct (blank_line_ok keep p a vs (Hs p ltac:(apply list_elem_of_here)) Hw) as (h1 & E1 & S1 & C1).
  all: pose proof (chain_same_links _ _ _ _ S1 Hch) as Hch1.
  all: destruct (load_valid h1 p) as (l & El & _ & En & _); [apply Hch1; set_solver|].
  - cbn [length blank_lines]. revert E1. destruct (if keep then _ else _) as [vs0| |]; [|discriminate..]. cbn [mbind outcome_bind].
    intros ->. cbn [mbind outcome_bind]. change (store (vs <| store := h1 |>)) with h1. rewrite El. cbn [mbind outcome_bind].
    exists h1. split; [done|]. split; [done|]. intros q. rewrite C1.
    destruct (decide (q = p)) as [->|Hq]; [by rewrite decide_True by set_solver | by rewrite decide_False by set_solver].
  - assert (Enx : nx h1 p = p2) by by apply (around_next h1 circ A p p2 (D ++ B)) in Hch1 as [? _].
    change (length (p2 :: D)) with (S (length D)). remember (S (length D)) as m eqn:Em. cbn [blank_lines].
    revert E1. destruct (if keep then _ else _) as [vs0| |]; [|discriminate..]. cbn [mbind outcome_bind].
    intros ->. cbn [mbind outcome_bind]. change (store (vs <| store := h1 |>)) with h1. rewrite El. cbn [mbind outcome_bind].
    rewrite En, Enx.
    assert (Hp : forall q, q ∈ p2 :: D -> q <> p).
    { intros q Hq ->. destruct Hch as (Hnd & _). apply NoDup_app in Hnd as (_ & _ & Hnd). apply NoDup_app in Hnd as (Hnd & _ & _). by inversion Hnd. }
    destruct (IH (A ++ [p]) B circ p2 (vs <| store := h1 |>)) as (h' & E & S & C).
    + rewrite <- app_assoc. exact Hch1.
    + intros q Hq. change (store (vs <| store := h1 |>)) with h1. change (allwidth (vs <| store := h1 |>)) with (allwidth vs).
      unfold sized. rewrite C1, decide_False by by apply Hp. apply Hs. by apply list_elem_of_further.
    + exact Hw.
    + change (store (vs <| store := h1 |>)) with h1 in *. change (allwidth (vs <| store := h1 |>)) with (allwidth vs) in *.
      exists h'. rewrite E, store_store. split; [done|]. split; [eauto with macssh|]. intros q. rewrite C, C1.
      destruct (decide (q = p)) as [->|Hq].
      * rewrite decide_False by (intros H; by destruct (Hp p H)). by rewrite decide_True by set_solver.
      * destruct (decide (q ∈ p2 :: D)); [by rewrite decide_True by set_solver | by rewrite decide_False by set_solver].
Qed.

(** ** The screen as rows *)

(** The screen's lines are a window [linest] onto the list of all lines: the
    scrollback buffer [pre] above it, the lines allocated for later [post]
    below it. *)
Record stored (circ : bool) (pre post : list Z) (vs : VSscrn) : Prop := {
  st_chain : chain (store vs) circ (pre ++ linest vs ++ post);
  st_sized : forall p, p ∈ pre ++ linest vs ++ post -> sized (allwidth vs + 1) (store vs) p;
  st_length : zlen (linest vs) = lines vs + 1;
  st_scrntop : head (linest vs) = Some (scrntop vs);
  st_allwidth : 0 <= allwidth vs
}.

(** What the screen shows. *)
Definition rows (vs : VSscrn) : list (option row) := ct (store vs) <$> linest vs.

(** Only the fields of the line storage and of the display changed. *)
Definition relined (vs vs' : VSscrn) : Prop :=
  vs' = vs <| store := store vs' |> <| scrntop := scrntop vs' |> <| linest := linest vs' |>
           <| vistop := vistop vs' |> <| drawn := drawn vs' |>.

(** Rows [s] to [e] (excluded) move up by [n], [f] of the rows lost takes the
    place of the last ones; and down. *)
Definition rows_up {A} (s e n : nat) (f : A -> A) (R : list A) : list A :=
  take s R ++ drop (s + n) (take e R) ++ (f <$> take n (drop s R)) ++ drop e R.
Definition rows_down {A} (s e n : nat) (f : A -> A) (R : list A) : list A :=
  take s R ++ (f <$> drop (e - n) (take e R)) ++ drop s (take (e - n) R) ++ drop e R.

Lemma rows_up_app {A} (f : A -> A) (a D b c : list A) :
  rows_up (length a) (length a + length D + length b) (length D) f (a ++ D ++ b ++ c) = a ++ b ++ (f <$> D) ++ c.
Proof.
  unfold rows_up. rewrite take_app_length. f_equal.
  replace (length a + length D + length b)%nat with (length (a ++ D ++ b)) by (rewrite !length_app; lia).
  replace (a ++ D ++ b ++ c) with ((a ++ D ++ b) ++ c) by by rewrite <- !app_assoc.
  rewrite take_app_length, drop_app_length.
  replace (length a + length D)%nat with (length (a ++ D)) by by rewrite length_app.
  rewrite (app_assoc a D b), drop_app_length. f_equal. f_equal. rewrite <- !app_assoc, drop_app_length, take_app_length. done.
Qed.

Lemma rows_down_app {A} (f : A -> A) (a b D c : list A) :
  rows_down (length a) (length a + length b + length D) (length D) f (a ++ b ++ D ++ c) = a ++ (f <$> D) ++ b ++ c.
Proof.
  unfold rows_down. rewrite take_app_length. f_equal.
  replace (length a + length b + length D - length D)%nat with (length (a ++ b)) by (rewrite length_app; lia).
  replace (length a + length b + length D)%nat with (length ((a ++ b) ++ D)) by (rewrite !length_app; lia).
  replace (a ++ b ++ D ++ c) with (((a ++ b) ++ D) ++ c) by by rewrite <- !app_assoc.
  rewrite take_app_length, drop_app_length, drop_app_length. f_equal.
  rewrite <- app_assoc, take_app_length, drop_app_length. done.
Qed.

(** *** Reading the array *)

Lemma line_at_app vs A p B : linest vs = A ++ p :: B -> line_at (zlen A) vs = Done p.
Proof.
  intros E. unfold line_at. apply arr_get_Done; [apply zlen_nonneg|]. rewrite E. unfold zlen. rewrite Nat2Z.id.
  by apply list_lookup_middle.
Qed.

Lemma line_at_ok vs i p : linest vs !! i = Some p -> line_at (Z.of_nat i) vs = Done p.
Proof. intros E. unfold line_at. apply arr_get_Done; [lia|]. by rewrite Nat2Z.id. Qed.

(** [linest] follows the list. *)
Lemma resync_ok circ pre L post vs ts :
  chain (store vs) circ (pre ++ L ++ post) -> zlen L = lines vs + 1 -> head L = Some ts ->
  resync ts vs = Done (vs <| linest := L |>).
Proof.
  intros Hc Hl Hh. destruct L as [|p L]; [done|]. injection Hh as ->. unfold resync.
  replace (Z.to_nat (lines vs + 1)) with (S (length L)) by (unfold zlen in Hl; cbn [length] in Hl; lia).
  by rewrite (VSIlistndx_ok _ _ _ _ _ _ Hc).
Qed.

Lemma resync_vistop_ok vs : zlen (linest vs) = lines vs + 1 -> Rtop vs <= lines vs ->
  exists v, resync_vistop vs = Done (vs <| vistop := v |>)
  /\ (if 0 <=? Rtop vs then linest vs !! Z.to_nat (Rtop vs) = Some v else v = vistop vs).
Proof.
  intros Hl Hr. unfold resync_vistop. destruct (Z.leb_spec 0 (Rtop vs)).
  - destruct (lookup_lt_is_Some_2 (linest vs) (Z.to_nat (Rtop vs))) as [p Hp]; [unfold zlen in Hl; lia|].
    exists p. split; [|done]. rewrite <- (Z2Nat.id (Rtop vs)) at 1 by done. by rewrite (line_at_ok _ _ _ Hp).
  - exists (vistop vs). split; [by destruct vs | done].
Qed.

(** The display part of an operation. *)
Lemma VSIcdellines_ok t b n sc vs : exists d, (VSIcdellines t b n sc vs).2 = vs <| drawn := d |>.
Proof. unfold VSIcdellines. destruct (VSIclip _ _) as [[] c]; [exists (drawn vs); by destruct vs | by eexists]. Qed.
Lemma VSIcinslines_ok t b n sc vs : exists d, (VSIcinslines t b n sc vs).2 = vs <| drawn := d |>.
Proof. unfold VSIcinslines. destruct (VSIclip _ _) as [[] c]; [exists (drawn vs); by destruct vs | by eexists]. Qed.

Lemma fmap_blanked h h' keep w a (D L : list Z) :
  (forall q, ct h' q = if decide (q ∈ D) then blanked keep w a <$> ct h q else ct h q) ->
  (forall q, q ∈ L -> q ∉ D) -> ct h' <$> L = ct h <$> L.
Proof. intros C H. apply list_fmap_ext. intros i q Hq. rewrite C, decide_False; [done|]. apply H. by eapply list_elem_of_lookup_2. Qed.

Lemma fmap_blanked_in h h' keep w a (D : list Z) :
  (forall q, ct h' q = if decide (q ∈ D) then blanked keep w a <$> ct h q else ct h q) ->
  ct h' <$> D = (fun r => blanked keep w a <$> r) <$> (ct h <$> D).
Proof.
  intros C. rewrite <- list_fmap_compose. apply list_fmap_ext. intros i q Hq. rewrite C, decide_True; [done|].
  by eapply list_elem_of_lookup_2.
Qed.

(** ** Deleting lines *)

Lemma NoDup_mid {A} (l1 l2 l3 : list A) x : NoDup (l1 ++ l2 ++ l3) -> x ∈ l2 -> x ∉ l1 /\ x ∉ l3.
Proof.
  intros H Hx. apply NoDup_app in H as (_ & H1 & H). apply NoDup_app in H as (_ & H2 & _).
  split; [intros H'; by apply (H1 x H'), elem_of_app; left | by apply H2].
Qed.

(** The move of [VSIdellines], with the tests around it. *)
Lemma delete_move h circ A D b C TD BD TI :
  chain h circ (A ++ D ++ b ++ C) -> head D = Some TD -> last D = Some BD -> last (D ++ b) = Some TI ->
  exists h', (if negb (TD =? nx h TI) && negb (TI =? BD) then VSIlistmove TD BD TI (nx h TI) h else Done h) = Done h'
  /\ same_lines h h' /\ chain h' circ (A ++ b ++ D ++ C).
Proof.
  intros Hc Eh El ET. destruct b as [|b0 b'].
  { rewrite app_nil_r in ET. replace TI with BD by congruence. rewrite Z.eqb_refl, andb_false_r. by exists h. }
  set (b := b0 :: b') in *. assert (Eb : last b = Some TI) by (rewrite last_app in ET; by destruct (last b) eqn:E; [|apply last_None in E]).
  pose proof Hc as (Hnd & Hin & _).
  assert (HTD : TD ∈ D) by by apply head_Some_elem_of. assert (HBD : BD ∈ D) by by apply last_Some_elem_of.
  assert (HTI : TI ∈ b) by by apply last_Some_elem_of.
  destruct (NoDup_mid _ _ _ TD Hnd HTD) as [N1 N2].
  assert (TI <> BD) by (intros ->; destruct (NoDup_mid _ _ _ BD Hnd HBD); set_solver).
  rewrite (proj2 (Z.eqb_neq TI BD)) by done. rewrite andb_true_r.
  assert (En : nx h TI = default (if circ then default 0 (head (A ++ D ++ b)) else 0) (head C)).
  { rewrite (app_assoc D), (app_assoc A) in Hc. rewrite (chain_next_of _ _ _ _ Hc TI); [done|]. by rewrite !last_app, Eb. }
  destruct (decide (A ++ C <> [] \/ circ = false)) as [Hne|Hne].
  - assert (TD <> nx h TI) as HTI'.
    { rewrite En. destruct (head C) as [z|] eqn:EC; cbn [default].
      - intros ->. apply head_Some_elem_of in EC. set_solver.
      - destruct circ; [|by apply Hin; set_solver]. destruct Hne as [Hne|]; [|done].
        destruct C; [|done]. rewrite app_nil_r in Hne. destruct A as [|a0 A']; [done|]. cbn. intros ->. set_solver. }
    rewrite (proj2 (Z.eqb_neq _ _)) by done. by apply chain_move_down.
  - destruct circ; [|by destruct Hne; right]. assert (A = [] /\ C = []) as [-> ->].
    { destruct A, C; try (by split); by destruct Hne; left. }
    assert (nx h TI = TD) as ->.
    { rewrite En. cbn [head default app]. by rewrite head_app, Eh. }
    rewrite Z.eqb_refl. exists h. split; [done|]. split; [by apply same_lines_refl|]. cbn [app] in *.
    rewrite app_nil_r in *. by apply chain_rotate.
Qed.

Lemma sized_same_lines w h h' p : same_lines h h' -> sized w h p -> sized w h' p.
Proof. intros [E _] (la & t & a & H & ?). exists la, t, a. by rewrite E. Qed.

Lemma sized_blanked w h h' keep a (D : list Z) p : 0 <= w ->
  (forall q, ct h' q = if decide (q ∈ D) then blanked keep w a <$> ct h q else ct h q) -> sized w h p -> sized w h' p.
Proof.
  intros Hw C (la & t & r & H & Ht & Hr). destruct (decide (p ∈ D)) as [Hp|Hp].
  - exists (if keep then la else 0), (replicate (Z.to_nat w) BLANK), (replicate (Z.to_nat w) a).
    rewrite C, decide_True, H by done. rewrite !zlen_replicate. cbn. split; [done|]. lia.
  - exists la, t, r. by rewrite C, decide_False.
Qed.

(** What every operation that rearranges the lines establishes. *)
Record rearranged (circ : bool) (pre post : list Z) (vs vs' : VSscrn) (L : list Z) (R : list (option row)) : Prop := {
  re_stored : stored circ pre post vs';
  re_linest : linest vs' = L;
  re_rows : rows vs' = R;
  re_others : ct (store vs') <$> pre ++ post = ct (store vs) <$> pre ++ post;
  re_frame : relined vs vs';
  re_vistop : if 0 <=? Rtop vs then linest vs' !! Z.to_nat (Rtop vs) = Some (vistop vs') else vistop vs' = vistop vs;
  re_fresh : brk (store vs') = brk (store vs) /\ forall p, valid (store vs') p <-> valid (store vs) p
}.

(** Lines [a], [D], [b], [c] of the screen become [a], [b], [D] blanked, [c]. *)
Lemma relist_ok circ pre post a D b c (keep : bool) vs h1 ts p0 :
  stored circ pre post vs -> linest vs ≡ₚ a ++ b ++ D ++ c ->
  same_lines (store vs) h1 -> chain h1 circ (pre ++ (a ++ b ++ D ++ c) ++ post) ->
  head (a ++ b ++ D ++ c) = Some ts -> head D = Some p0 -> Rtop vs <= lines vs ->
  exists vs1, (vs ← blank_lines keep (length D) p0 (erased vs) (vs <| store := h1 |>);
               vs ← resync ts (vs <| scrntop := ts |>); resync_vistop vs) = Done vs1
  /\ rearranged circ pre post vs vs1 (a ++ b ++ D ++ c)
       ((ct (store vs) <$> a) ++ (ct (store vs) <$> b)
        ++ ((fun r => blanked keep (allwidth vs + 1) (erased vs) <$> r) <$> (ct (store vs) <$> D)) ++ (ct (store vs) <$> c)).
Proof.
  intros [Hc Hs Hl Ht Hw] HP S1 Hc1 Ets Ep HR.
  destruct D as [|p1 D]; [done|]. injection Ep as ->.
  assert (Hc1' : chain (store (vs <| store := h1 |>)) circ ((pre ++ a ++ b) ++ (p0 :: D) ++ (c ++ post))).
  { rewrite <- !app_assoc in Hc1. rewrite <- !app_assoc. exact Hc1. }
  destruct (blank_lines_ok keep (erased vs) D _ _ circ p0 (vs <| store := h1 |>) Hc1') as (h2 & E2 & S2 & C2).
  { intros q Hq. apply (sized_same_lines _ _ _ _ S1), Hs. rewrite HP. set_solver. }
  { cbn. lia. }
  change (length (p0 :: D)) with (S (length D)). rewrite E2. cbn [mbind outcome_bind].
  change (store (vs <| store := h1 |>)) with h1 in *. change (allwidth (vs <| store := h1 |>)) with (allwidth vs) in *.
  rewrite store_store.
  assert (Hc2 : chain h2 circ (pre ++ (a ++ b ++ (p0 :: D) ++ c) ++ post)) by (eapply chain_same_links; [exact S2 | exact Hc1]).
  set (L := a ++ b ++ (p0 :: D) ++ c) in *.
  assert (HL : zlen L = lines vs + 1) by (rewrite <- Hl; unfold zlen; by rewrite (Permutation_length HP)).
  assert (Hc2' : chain (store (vs <| store := h2 |> <| scrntop := ts |>)) circ (pre ++ L ++ post)) by exact Hc2.
  rewrite (resync_ok circ pre L post (vs <| store := h2 |> <| scrntop := ts |>) ts Hc2' HL Ets). cbn [mbind outcome_bind].
  set (vs2 := vs <| store := h2 |> <| scrntop := ts |> <| linest := L |>).
  destruct (resync_vistop_ok vs2 HL HR) as (v & E3 & Ev). rewrite E3. eexists. split; [reflexivity|].
  assert (Hnd : NoDup (pre ++ (a ++ b ++ (p0 :: D) ++ c) ++ post)) by apply Hc1.
  assert (Hct1 : forall q, ct h1 q = ct (store vs) q) by apply S1.
  assert (Hout : forall q, q ∈ pre ++ post ++ a ++ b ++ c -> q ∉ p0 :: D).
  { intros q Hq HqD. destruct (NoDup_mid (pre ++ a ++ b) (p0 :: D) (c ++ post) q) as [H1 H2]; [|done|set_solver].
    unfold L in *. rewrite <- !app_assoc in Hnd. by rewrite <- !app_assoc. }
  assert (Hkeep : forall X : list Z, (forall q, q ∈ X -> q ∈ pre ++ post ++ a ++ b ++ c) -> ct h2 <$> X = ct (store vs) <$> X).
  { intros X HX. rewrite (fmap_blanked h1 h2 keep _ _ _ X C2) by (intros q Hq; apply Hout, HX, Hq).
    apply list_fmap_ext. intros; apply Hct1. }
  split.
  - split; [exact Hc2 | | exact HL | exact Ets | exact Hw].
    intros p Hp. change (store (vs2 <| vistop := v |>)) with h2. change (allwidth (vs2 <| vistop := v |>)) with (allwidth vs).
    eapply sized_blanked; [lia | exact C2 |]. apply (sized_same_lines _ _ _ _ S1), Hs. rewrite HP. exact Hp.
  - reflexivity.
  - unfold rows. change (linest (vs2 <| vistop := v |>)) with L. change (store (vs2 <| vistop := v |>)) with h2.
    unfold L. rewrite !fmap_app. rewrite (Hkeep a), (Hkeep b), (Hkeep c) by set_solver.
    rewrite (fmap_blanked_in _ _ _ _ _ _ C2).
    assert (ct h1 <$> (p0 :: D) = ct (store vs) <$> (p0 :: D)) as -> by (apply list_fmap_ext; intros; apply Hct1). done.
  - change (store (vs2 <| vistop := v |>)) with h2. apply Hkeep. set_solver.
  - reflexivity.
  - exact Ev.
  - change (store (vs2 <| vistop := v |>)) with h2. destruct S2 as (_ & _ & V2 & _ & B2 & _).
    split; [rewrite B2; apply S1|]. intros q. rewrite V2. by apply same_lines_valid.
Qed.

Lemma split_four {A} (l : list A) (s n e : nat) : (s + n <= e)%nat -> (e <= length l)%nat ->
  exists a D b c, l = a ++ D ++ b ++ c /\ length a = s /\ length D = n /\ (s + n + length b = e)%nat.
Proof.
  intros H1 H2. exists (take s l), (take n (drop s l)), (take (e - s - n) (drop (s + n) l)), (drop e l).
  split; [|rewrite !length_take, !length_drop; lia].
  rewrite <- (take_drop s l) at 1. f_equal. rewrite <- (take_drop n (drop s l)) at 1. rewrite drop_drop. f_equal.
  rewrite <- (take_drop (e - s - n) (drop (s + n) l)) at 1. rewrite drop_drop. do 2 f_equal. lia.
Qed.

Lemma rearranged_draw circ pre post vs vs1 L R d :
  rearranged circ pre post vs vs1 L R -> rearranged circ pre post vs (vs1 <| drawn := d |>) L R.
Proof.
  intros [[S1 S2 S3 S4 S5] RL R1 O F V B]. split; [by split | exact RL | exact R1 | exact O | | exact V | exact B].
  unfold relined in *. rewrite F. reflexivity.
Qed.

(** The line numbers the two routines compute with. *)
Definition start_line (s : Z) (vs : VSscrn) : Z := if s <? 0 then y vs else s.
Definition lines_held (n s : Z) (vs : VSscrn) : Z := if bottom vs <? s + n - 1 then bottom vs - s + 1 else n.

Lemma blanked_false_row w a (R : list (option row)) : (forall r, r ∈ R -> r <> None) ->
  (fun r : option row => blanked false w a <$> r) <$> R = replicate (length R) (Some (blank_row 0 w a)).
Proof.
  induction R as [|r R IH]; intros H; [done|]. rewrite fmap_cons, IH by set_solver. cbn [length replicate]. f_equal.
  destruct r as [[[la t] r]|]; [done|]. exfalso. apply (H None); [apply list_elem_of_here | done].
Qed.

(** Lines of the scrolling region move up over the deleted ones. *)
Lemma VSIdellines_ok circ pre post n s vs :
  stored circ pre post vs -> Rtop vs <= lines vs -> 1 <= n -> bottom vs <= lines vs ->
  0 <= start_line s vs <= bottom vs ->
  exists vs', VSIdellines n s vs = Done vs'
  /\ rearranged circ pre post vs vs'
       (rows_up (Z.to_nat (start_line s vs)) (Z.to_nat (bottom vs + 1)) (Z.to_nat (lines_held n (start_line s vs) vs)) (fun p => p) (linest vs))
       (rows_up (Z.to_nat (start_line s vs)) (Z.to_nat (bottom vs + 1)) (Z.to_nat (lines_held n (start_line s vs) vs))
          (fmap (blanked false (allwidth vs + 1) (erased vs))) (rows vs)).
Proof.
  intros HS HR Hn Hb Hs. unfold VSIdellines. fold (start_line s vs). fold (lines_held n (start_line s vs) vs).
  set (s' := start_line s vs) in *. set (n' := lines_held n s' vs).
  assert (Hn' : 1 <= n' /\ s' + n' <= bottom vs + 1).
  { unfold n', lines_held. destruct (Z.ltb_spec (bottom vs) (s' + n - 1)); lia. }
  pose proof HS as [Hc _ Hl Ht _].
  destruct (split_four (linest vs) (Z.to_nat s') (Z.to_nat n') (Z.to_nat (bottom vs + 1))) as (a & D & b & c & EL & La & LD & Lb);
    [lia | unfold zlen in Hl; lia |].
  destruct (nonempty_head D) as [TD HD]; [intros ->; cbn in LD; lia|]. destruct (nonempty_last D) as [BD HBD]; [intros ->; cbn in LD; lia|].
  destruct (nonempty_last (D ++ b)) as [TI HTI]; [intros E; apply app_eq_nil in E as [-> _]; cbn in LD; lia|].
  pose proof HD as HD'. apply head_cons_split in HD' as [D1 ED]. pose proof HBD as HBD'. apply last_snoc_split in HBD' as [D0 ED0].
  pose proof HTI as HTI'. apply last_snoc_split in HTI' as [E0 EE].
  assert (L1 : line_at s' vs = Done TD).
  { replace s' with (zlen a) by (unfold zlen; lia). apply (line_at_app vs a TD (D1 ++ b ++ c)). by rewrite EL, ED. }
  assert (L2 : line_at (s' + n' - 1) vs = Done BD).
  { replace (s' + n' - 1) with (zlen (a ++ D0)).
    - apply (line_at_app vs _ BD (b ++ c)). rewrite EL, ED0, <- !app_assoc. done.
    - rewrite ED0, length_app in LD. cbn in LD. unfold zlen. rewrite length_app. lia. }
  assert (L3 : line_at (bottom vs) vs = Done TI).
  { replace (bottom vs) with (zlen (a ++ E0)).
    - apply (line_at_app vs _ TI c). rewrite EL, (app_assoc D), EE, <- !app_assoc. done.
    - apply (f_equal length) in EE. rewrite !length_app in EE. cbn in EE. unfold zlen. rewrite length_app. lia. }
  assert (Hts : exists ts, line_at (if (s' =? 0) && (n' <=? bottom vs) then n' else 0) vs = Done ts /\ head (a ++ b ++ D ++ c) = Some ts).
  { destruct (Z.eqb_spec s' 0) as [E|E]; cbn [andb].
    - assert (a = []) as -> by (apply nil_length_inv; lia). destruct (Z.leb_spec n' (bottom vs)).
      + destruct b as [|t b]; [cbn in Lb; lia|]. exists t. split; [|done]. replace n' with (zlen ([] ++ D)) by (unfold zlen; cbn; lia).
        apply (line_at_app vs ([] ++ D) t (b ++ c)). by rewrite EL, <- !app_assoc.
      + assert (b = []) as -> by (apply nil_length_inv; lia). exists TD. split; [|by rewrite ED].
        apply (line_at_app vs [] TD (D1 ++ c)). by rewrite EL, ED.
    - destruct a as [|t a]; [cbn in La; lia|]. exists t. split; [|done]. apply (line_at_app vs [] t (a ++ D ++ b ++ c)). exact EL. }
  destruct Hts as (ts & L0 & Hts). rewrite L0. cbn [mbind outcome_bind]. rewrite L1. cbn [mbind outcome_bind]. rewrite L2. cbn [mbind outcome_bind]. rewrite L3. cbn [mbind outcome_bind].
  assert (HcD : chain (store vs) circ ((pre ++ a) ++ D ++ b ++ (c ++ post))).
  { rewrite EL in Hc. rewrite <- !app_assoc in Hc. by rewrite <- !app_assoc. }
  destruct (load_valid (store vs) TI) as (ti & -> & _ & Eti & _).
  { apply HcD. apply last_Some_elem_of in HTI. set_solver. }
  cbn [mbind outcome_bind]. rewrite Eti.
  destruct (delete_move _ circ _ _ _ _ _ _ _ HcD HD HBD HTI) as (h1 & -> & S1 & C1). cbn [mbind outcome_bind].
  destruct (relist_ok circ pre post a D b c false vs h1 ts TD HS) as (vs1 & E1 & Re); try done.
  { by rewrite EL, (Permutation_app_swap_app D b c). }
  { rewrite <- !app_assoc in C1. by rewrite <- !app_assoc. }
  rewrite LD in E1. revert E1. destruct (blank_lines _ _ _ _ _) as [v2| |]; [|discriminate..]. cbn [mbind outcome_bind].
  destruct (resync _ _) as [v3| |]; [|discriminate..]. cbn [mbind outcome_bind]. intros ->. cbn [mbind outcome_bind].
  destruct (VSIcdellines_ok s' (bottom vs1) n' (-1) vs1) as [d ->]. eexists. split; [reflexivity|].
  apply rearranged_draw. destruct Re as [R1 RL R2 R3 R4 R5 R6].
  rewrite <- La, <- LD. replace (Z.to_nat (bottom vs + 1)) with (length a + length D + length b)%nat by lia.
  split; try done; [by rewrite EL, rows_up_app, list_fmap_id|]. rewrite R2. unfold rows. rewrite EL, !fmap_app.
  rewrite <- (length_fmap (ct (store vs)) a), <- (length_fmap (ct (store vs)) b), <- (length_fmap (ct (store vs)) D).
  by rewrite rows_up_app.
Qed.

(** ** Inserting lines *)

Lemma VSIflush_ok vs : exists k d, VSIflush vs = vs <| skip := k |> <| drawn := d |> <| linesjumped := 0 |>.
Proof.
  unfold VSIflush. destruct (Z.eqb_spec (linesjumped vs) 0) as [E|E].
  - exists (skip vs), (drawn vs). destruct vs. cbn in E. by subst.
  - destruct (VSIcdellines _ _ _ _ _) as [i vs1] eqn:E1.
    assert (exists d, vs1 = vs <| skip := 0 |> <| drawn := d |>) as [d ->].
    { pose proof (VSIcdellines_ok (top vs) (bottom vs) (linesjumped vs) (- linesjumped vs) (vs <| skip := 0 |>)) as [d Ed].
      change (top (vs <| skip := 0 |>)) with (top vs) in E1. change (bottom (vs <| skip := 0 |>)) with (bottom vs) in E1.
      change (linesjumped (vs <| skip := 0 |>)) with (linesjumped vs) in E1.
      rewrite E1 in Ed. exists d. exact Ed. }
    exists 0. destruct (_ <? _); eexists; reflexivity.
Qed.

Lemma flush_stored circ pre post vs : stored circ pre post vs -> stored circ pre post (VSIflush vs).
Proof. destruct (VSIflush_ok vs) as (k & d & ->). by intros [? ? ? ? ?]. Qed.

(** The move of [VSIinslines]. *)
Lemma insert_move h circ A b D C TD BD BI :
  chain h circ (A ++ b ++ D ++ C) -> head D = Some TD -> last D = Some BD -> head (b ++ D) = Some BI ->
  exists h', (if negb (TD =? BI) && negb (pv h BI =? BD) then VSIlistmove TD BD (pv h BI) BI h else Done h) = Done h'
  /\ same_lines h h' /\ chain h' circ (A ++ D ++ b ++ C).
Proof.
  intros Hc Eh El ET. destruct b as [|b0 b'].
  { cbn [app] in *. replace BI with TD by congruence. rewrite Z.eqb_refl. by exists h. }
  set (b := b0 :: b') in *. assert (Eb : head b = Some BI) by by rewrite head_app in ET.
  pose proof Hc as (Hnd & Hin & _).
  assert (HTD : TD ∈ D) by by apply head_Some_elem_of. assert (HBD : BD ∈ D) by by apply last_Some_elem_of.
  assert (HBI : BI ∈ b) by by apply head_Some_elem_of.
  assert (Hnd' : NoDup ((A ++ b) ++ D ++ C)) by by rewrite <- app_assoc.
  destruct (NoDup_mid _ _ _ BD Hnd' HBD) as [N1 N2].
  assert (TD <> BI) by (intros ->; destruct (NoDup_mid _ _ _ BI Hnd' HTD); set_solver).
  rewrite (proj2 (Z.eqb_neq TD BI)) by done. cbn [negb andb].
  assert (En : pv h BI = default (if circ then default 0 (last (b ++ D ++ C)) else 0) (last A)).
  { rewrite (chain_prev_of _ _ _ _ Hc BI); [done|]. by rewrite head_app, Eb. }
  destruct (decide (A ++ C <> [] \/ circ = false)) as [Hne|Hne].
  - assert (pv h BI <> BD) as HTI'.
    { rewrite En. destruct (last A) as [z|] eqn:EA; unfold default, id.
      - intros ->. apply last_Some_elem_of in EA. set_solver.
      - destruct circ; [|by apply not_eq_sym, Hin; set_solver]. destruct Hne as [Hne|]; [|done].
        apply last_None in EA as ->. cbn [app] in Hne. destruct (nonempty_last C Hne) as [z Ez]. rewrite !last_app, Ez. unfold id.
        intros ->. apply last_Some_elem_of in Ez. set_solver. }
    rewrite (proj2 (Z.eqb_neq _ _)) by done. by apply chain_move_up.
  - destruct circ; [|by destruct Hne; right]. assert (A = [] /\ C = []) as [-> ->].
    { destruct A, C; try (by split); by destruct Hne; left. }
    assert (pv h BI = BD) as ->.
    { rewrite En, app_nil_r, last_app, El. done. }
    rewrite Z.eqb_refl. exists h. split; [done|]. split; [by apply same_lines_refl|]. cbn [app] in *.
    rewrite app_nil_r in *. by apply chain_rotate.
Qed.

(** Lines of the scrolling region move down, the last ones fall off; the new
    lines are blank and keep the line attributes of the ones that fell off. *)
Lemma VSIinslines_ok circ pre post n s vs :
  stored circ pre post vs -> Rtop vs <= lines vs -> 1 <= n -> bottom vs <= lines vs ->
  0 <= start_line s vs <= bottom vs ->
  exists vs', VSIinslines n s vs = Done vs'
  /\ rearranged circ pre post (VSIflush vs) vs'
       (rows_down (Z.to_nat (start_line s vs)) (Z.to_nat (bottom vs + 1)) (Z.to_nat (lines_held n (start_line s vs) vs)) (fun p => p) (linest vs))
       (rows_down (Z.to_nat (start_line s vs)) (Z.to_nat (bottom vs + 1)) (Z.to_nat (lines_held n (start_line s vs) vs))
          (fmap (blanked true (allwidth vs + 1) (erased vs))) (rows vs)).
Proof.
  intros HS0. pose proof (flush_stored _ _ _ _ HS0) as HS. clear HS0. unfold VSIinslines.
  destruct (VSIflush_ok vs) as (k & d & EF). rewrite EF in *. clear EF. set (vf := vs <| skip := k |> <| drawn := d |> <| linesjumped := 0 |>) in *.
  change (Rtop vs) with (Rtop vf). change (lines vs) with (lines vf). change (bottom vs) with (bottom vf).
  change (start_line s vs) with (start_line s vf). change (lines_held n (start_line s vf) vs) with (lines_held n (start_line s vf) vf).
  change (allwidth vs) with (allwidth vf). change (erased vs) with (erased vf). change (rows vs) with (rows vf). change (linest vs) with (linest vf).
  clearbody vf. clear vs d k. rename vf into vs.
  intros HR Hn Hb Hs. cbv zeta. fold (start_line s vs). fold (lines_held n (start_line s vs) vs).
  set (s' := start_line s vs) in *. set (n' := lines_held n s' vs).
  assert (Hn' : 1 <= n' /\ s' + n' <= bottom vs + 1).
  { unfold n', lines_held. destruct (Z.ltb_spec (bottom vs) (s' + n - 1)); lia. }
  pose proof HS as [Hc _ Hl Ht _].
  destruct (split_four (linest vs) (Z.to_nat s') (Z.to_nat (bottom vs + 1 - s' - n')) (Z.to_nat (bottom vs + 1))) as (a & b & D & c & EL & La & Lb & LD);
    [lia | unfold zlen in Hl; lia |].
  destruct (nonempty_head D) as [TD HD]; [intros ->; cbn in LD; lia|]. destruct (nonempty_last D) as [BD HBD]; [intros ->; cbn in LD; lia|].
  destruct (nonempty_head (b ++ D)) as [BI HBI]; [intros E; apply app_eq_nil in E as [_ ->]; cbn in LD; lia|].
  pose proof HD as HD'. apply head_cons_split in HD' as [D1 ED]. pose proof HBD as HBD'. apply last_snoc_split in HBD' as [D0 ED0].
  pose proof HBI as HBI'. apply head_cons_split in HBI' as [E0 EE].
  assert (L1 : line_at s' vs = Done BI).
  { replace s' with (zlen a) by (unfold zlen; lia). apply (line_at_app vs a BI (E0 ++ c)). rewrite EL, (app_assoc b), EE. done. }
  assert (L2 : line_at (bottom vs - n' + 1) vs = Done TD).
  { replace (bottom vs - n' + 1) with (zlen (a ++ b)) by (unfold zlen; rewrite length_app; lia).
    apply (line_at_app vs _ TD (D1 ++ c)). rewrite EL, ED, <- !app_assoc. done. }
  assert (L3 : line_at (bottom vs) vs = Done BD).
  { replace (bottom vs) with (zlen (a ++ b ++ D0)).
    - apply (line_at_app vs _ BD c). rewrite EL, ED0, <- !app_assoc. done.
    - rewrite ED0, length_app in LD. cbn in LD. unfold zlen. rewrite !length_app. lia. }
  assert (Hts : exists ts, line_at (if (s' =? 0) && (n' <=? lines vs) then bottom vs - n' + 1 else 0) vs = Done ts /\ head (a ++ [] ++ D ++ b ++ c) = Some ts).
  { destruct (Z.eqb_spec s' 0) as [E|E]; cbn [andb].
    - assert (a = []) as -> by (apply nil_length_inv; lia). exists TD. split; [|by rewrite ED]. destruct (Z.leb_spec n' (lines vs)); [exact L2|].
      assert (b = []) as -> by (apply nil_length_inv; lia). apply (line_at_app vs [] TD (D1 ++ c)). by rewrite EL, ED.
    - destruct a as [|t a]; [cbn in La; lia|]. exists t. split; [|done]. apply (line_at_app vs [] t (a ++ b ++ D ++ c)). exact EL. }
  destruct Hts as (ts & L0 & Hts). rewrite L0. cbn [mbind outcome_bind]. rewrite L1. cbn [mbind outcome_bind].
  assert (HcD : chain (store vs) circ ((pre ++ a) ++ b ++ D ++ (c ++ post))).
  { rewrite EL in Hc. rewrite <- !app_assoc in Hc. by rewrite <- !app_assoc. }
  destruct (load_valid (store vs) BI) as (bi & -> & _ & _ & Ebi).
  { apply HcD. apply head_Some_elem_of in HBI. set_solver. }
  cbn [mbind outcome_bind]. rewrite Ebi, L2. cbn [mbind outcome_bind]. rewrite L3. cbn [mbind outcome_bind].
  destruct (insert_move _ circ _ _ _ _ _ _ _ HcD HD HBD HBI) as (h1 & -> & S1 & C1). cbn [mbind outcome_bind].
  destruct (relist_ok circ pre post a D [] (b ++ c) true vs h1 ts TD HS) as (vs1 & E1 & Re); try done.
  { cbn [app]. by rewrite EL, (Permutation_app_swap_app b D c). }
  { cbn [app]. rewrite <- !app_assoc in C1. by rewrite <- !app_assoc. }
  replace (Z.to_nat n') with (length D) by lia. revert E1. destruct (blank_lines _ _ _ _ _) as [v2| |]; [|discriminate..]. cbn [mbind outcome_bind].
  destruct (resync _ _) as [v3| |]; [|discriminate..]. cbn [mbind outcome_bind]. intros ->. cbn [mbind outcome_bind].
  destruct (VSIcinslines_ok s' (bottom vs1) n' (-1) vs1) as [d ->]. eexists. split; [reflexivity|].
  apply rearranged_draw. destruct Re as [R1 RL R2 R3 R4 R5 R6].
  rewrite <- La. replace (Z.to_nat (bottom vs + 1)) with (length a + length b + length D)%nat by lia.
  split; try done; [by rewrite EL, rows_down_app, list_fmap_id|]. rewrite R2. unfold rows. rewrite EL, !fmap_app.
  rewrite <- (length_fmap (ct (store vs)) a), <- (length_fmap (ct (store vs)) b), <- (length_fmap (ct (store vs)) D).
  by rewrite rows_down_app.
Qed.

(** ** Loops over the lines of the screen *)

(** Rows [i] to [i + n] (excluded) are changed by [f]. *)
Definition rows_mapped {A} (i n : nat) (f : A -> A) (R : list A) : list A :=
  take i R ++ (f <$> take n (drop i R)) ++ drop (i + n) R.

Lemma rows_mapped_app {A} (f : A -> A) (a b c : list A) :
  rows_mapped (length a) (length b) f (a ++ b ++ c) = a ++ (f <$> b) ++ c.
Proof.
  unfold rows_mapped. rewrite take_app_length, drop_app_length, take_app_length.
  replace (length a + length b)%nat with (length (a ++ b)) by by rewrite length_app. by rewrite (app_assoc a b c), drop_app_length.
Qed.

Lemma rows_mapped_all {A} (f : A -> A) (R : list A) : rows_mapped 0 (length R) f R = f <$> R.
Proof. pose proof (rows_mapped_app f [] R []) as E. by rewrite !app_nil_r in E. Qed.

(** What [f] does to a line of the screen [vs0], whatever its storage. *)
Definition changes_line (f : Z -> VSscrn -> outcome VSscrn) (g : row -> row) (vs0 : VSscrn) : Prop :=
  forall h i p r, line_at i vs0 = Done p -> ct h p = Some r -> sized (allwidth vs0 + 1) h p ->
  exists h', f i (vs0 <| store := h |>) = Done (vs0 <| store := h' |>) /\ same_links h h'
  /\ (forall q, ct h' q = if decide (q = p) then Some (g r) else ct h q) /\ sized (allwidth vs0 + 1) h' p.

Lemma stored_changed circ pre post vs0 h h' p :
  stored circ pre post (vs0 <| store := h |>) -> same_links h h' -> (forall q, q <> p -> ct h' q = ct h q) ->
  sized (allwidth vs0 + 1) h' p -> stored circ pre post (vs0 <| store := h' |>).
Proof.
  intros [S1 S2 S3 S4 S5] HL Hc Hp. split; [exact (chain_same_links h h' _ _ HL S1) | | exact S3 | exact S4 | exact S5].
  intros q Hq. destruct (decide (q = p)) as [->|Hne]; [exact Hp|]. destruct (S2 q Hq) as (la & t & a & E & Ht & Ha).
  exists la, t, a. split; [|done]. change (ct h' q = Some (la, t, a)). by rewrite Hc.
Qed.

Lemma for_lines_ok circ pre post f g vs0 : changes_line f g vs0 ->
  forall n (A B C : list Z) h, stored circ pre post (vs0 <| store := h |>) -> linest vs0 = A ++ B ++ C -> length B = n ->
  exists h', for_lines f n (zlen A) (vs0 <| store := h |>) = Done (vs0 <| store := h' |>) /\ same_links h h'
  /\ stored circ pre post (vs0 <| store := h' |>)
  /\ forall q, ct h' q = if decide (q ∈ B) then g <$> ct h q else ct h q.
Proof.
  intros Hf. induction n as [|n IH]; intros A B C h HS EL Hn.
  - destruct B; [|done]. exists h. split; [done|]. split; [apply same_links_refl|]. split; [done|]. intros q. rewrite decide_False; [done | apply not_elem_of_nil].
  - destruct B as [|p B]; [done|]. injection Hn as Hn. cbn [for_lines].
    assert (Hp : sized (allwidth vs0 + 1) h p).
    { apply HS. change (p ∈ pre ++ linest vs0 ++ post). rewrite EL, !elem_of_app, elem_of_cons. tauto. }
    pose proof Hp as (la & t & a & Ep & _).
    destruct (Hf h (zlen A) p (la, t, a) (line_at_app vs0 A p (B ++ C) EL) Ep Hp) as (h1 & -> & S1 & C1 & Z1). cbn [mbind outcome_bind].
    assert (HS1 : stored circ pre post (vs0 <| store := h1 |>)).
    { apply (stored_changed circ pre post vs0 h h1 p HS S1); [|done]. intros q Hq. by rewrite C1, decide_False. }
    replace (zlen A + 1) with (zlen (A ++ [p])) by by rewrite zlen_app.
    destruct (IH (A ++ [p]) B C h1 HS1) as (h' & -> & S' & HS' & C'); [by rewrite <- app_assoc | done |].
    exists h'. split; [done|]. split; [by eapply same_links_trans|]. split; [done|].
    assert (Hnp : p ∉ B).
    { destruct HS as [(Hnd & _) _ _ _ _]. change (NoDup (pre ++ linest vs0 ++ post)) in Hnd. rewrite EL in Hnd.
      apply NoDup_app in Hnd as (_ & _ & Hnd). apply NoDup_app in Hnd as (Hnd & _ & _). apply NoDup_app in Hnd as (_ & _ & Hnd).
      apply NoDup_app in Hnd as (Hnd & _ & _). by apply NoDup_cons in Hnd as [Hnd _]. }
    intros q. rewrite C', C1. destruct (decide (q = p)) as [->|Hq].
    + rewrite (decide_False _ _ Hnp), decide_True, Ep by apply list_elem_of_here. done.
    + destruct (decide (q ∈ B)) as [Hin|Hout].
      * rewrite decide_True; [done|]. by apply list_elem_of_further.
      * rewrite decide_False; [done|]. rewrite elem_of_cons. tauto.
Qed.

(** The whole loop, seen on the screen. *)
Lemma for_lines_rows circ pre post f g vs (i n : nat) :
  stored circ pre post vs -> changes_line f g vs -> (i + n <= length (linest vs))%nat ->
  exists h', for_lines f n (Z.of_nat i) vs = Done (vs <| store := h' |>) /\ same_links (store vs) h'
  /\ stored circ pre post (vs <| store := h' |>)
  /\ ct h' <$> linest vs = rows_mapped i n (fmap g) (rows vs)
  /\ forall q, q ∉ linest vs -> ct h' q = ct (store vs) q.
Proof.
  intros HS Hf Hle. set (A := take i (linest vs)). set (B := take n (drop i (linest vs))). set (C := drop (i + n) (linest vs)).
  assert (EL : linest vs = A ++ B ++ C).
  { unfold A, B, C. by rewrite <- drop_drop, !take_drop. }
  assert (HA : length A = i) by (unfold A; rewrite length_take; lia).
  assert (HB : length B = n) by (unfold B; rewrite length_take, length_drop; lia).
  assert (HS' : stored circ pre post (vs <| store := store vs |>)) by by rewrite store_id.
  destruct (for_lines_ok circ pre post f g vs Hf n A B C (store vs) HS' EL HB) as (h' & E & S & HS1 & C1).
  rewrite store_id in E. unfold zlen in E. rewrite HA in E. exists h'. split; [exact E|]. split; [exact S|]. split; [exact HS1|].
  pose proof HS as [(Hnd & _) _ _ _ _]. rewrite EL in Hnd. apply NoDup_app in Hnd as (_ & _ & Hnd). apply NoDup_app in Hnd as (Hnd & _ & _).
  split.
  - unfold rows. rewrite EL, !fmap_app. rewrite <- HA, <- HB, <- (length_fmap (ct (store vs)) A), <- (length_fmap (ct (store vs)) B), rows_mapped_app.
    apply NoDup_app in Hnd as (_ & N1 & Hnd). apply NoDup_app in Hnd as (_ & N2 & _).
    assert (Hout : forall X : list Z, (forall q, q ∈ X -> q ∉ B) -> ct h' <$> X = ct (store vs) <$> X).
    { intros X HX. apply list_fmap_ext. intros j q Hq. apply list_elem_of_lookup_2 in Hq. by rewrite C1, decide_False by auto. }
    rewrite (Hout A), (Hout C); [| by intros q Hq HqB; apply (N2 q) | by intros q Hq HqB; apply (N1 q Hq), elem_of_app; left].
    do 2 f_equal. rewrite <- list_fmap_compose. apply list_fmap_ext. intros j q Hq. apply list_elem_of_lookup_2 in Hq. by rewrite C1, decide_True.
  - intros q Hq. rewrite C1, decide_False; [done|]. intros Hin. apply Hq. rewrite EL, !elem_of_app. auto.
Qed.

End Rows.
