(* ===== verification/Scrollback.v ===== *)
(** Scrolling and the scrollback buffer (Screens/vsintern.c, [VSIscroll]): the
    line that leaves the screen is kept, the ring of lines is grown or closed
    and turned, the visible region follows. *)
From S2P Require Import Prelude Window Lines Screen Rows.
Import Lines Screen Rows.

Module Scrollback.

(** ** The scrollback buffer *)

(** The scrollback buffer [pre] is what [numlines], [buftop] and [vistop] say
    it is; the visible region starts at line [Rtop] of the screen. *)
Record backed (pre : list Z) (vs : VSscrn) : Prop := {
  bk_numlines : numlines vs = zlen pre;
  bk_buftop : head (pre ++ linest vs) = Some (buftop vs);
  bk_Rtop : - numlines vs <= Rtop vs <= lines vs;
  bk_vistop : (pre ++ linest vs) !! Z.to_nat (numlines vs + Rtop vs) = Some (vistop vs);
  bk_heap : heap_ok (store vs)
}.

(** There is a line for the screen to grow into. *)
Definition can_grow `{Memory} (circ : bool) (post : list Z) (vs : VSscrn) : Prop :=
  post <> [] \/ (circ = false /\ numlines vs < maxlines vs /\ forall n, myNewPtrCritical n (store vs) = true).

(** What a scroll by one line leaves of the list of lines: the first line of
    the screen joins the scrollback buffer, which loses its oldest line when
    the screen could not grow. *)
Definition aged (full : bool) {A} (pre : list A) (r0 : A) : list A :=
  if full then tail (pre ++ [r0]) else pre ++ [r0].

Section Scroll.
Context `{Memory}.

Record roomy (circ : bool) (pre post : list Z) (vs vs1 : VSscrn) (full circ1 : bool) (p : Z) (post1 : list Z) : Prop := {
  ro_frame : vs1 = vs <| store := store vs1 |> <| numlines := numlines vs1 |> <| buftop := buftop vs1 |> <| drawn := drawn vs1 |>;
  ro_chain : chain (store vs1) circ1 (aged full pre (scrntop vs) ++ (tail (linest vs) ++ [p]) ++ post1);
  ro_sized : forall q, q ∈ aged full pre (scrntop vs) ++ (tail (linest vs) ++ [p]) ++ post1 -> sized (allwidth vs + 1) (store vs1) q;
  ro_numlines : numlines vs1 = zlen (aged full pre (scrntop vs));
  ro_buftop : head (aged full pre (scrntop vs) ++ tail (linest vs) ++ [p]) = Some (buftop vs1);
  ro_heap : heap_ok (store vs1);
  ro_next : nx (store vs1) (scrntop vs) = default 0 (head (tail (linest vs) ++ [p]));
  ro_same : forall q, valid (store vs) q -> ct (store vs1) q = ct (store vs) q;
  ro_full : full = true -> p = buftop vs /\ circ1 = true /\ post1 = []
}.

Lemma close_ring_ok L l vs :
  chain (store vs) false L -> head L = Some (buftop vs) -> last L = Some l ->
  exists h', close_ring l vs = Done (vs <| store := h' |>) /\ same_lines (store vs) h' /\ chain h' true L.
Proof.
  intros Hc Eh El. destruct (chain_close _ _ _ _ Hc Eh El) as (h' & E & S & C). exists h'. split; [|done].
  unfold close_ring. destruct (set_next _ _ _) as [h1| |]; [|done..]. cbn [mbind outcome_bind] in *. by rewrite E.
Qed.

(** The oldest line is used again. *)
Lemma recycle_ok circ pre vs vs0 :
  chain (store vs0) true (pre ++ linest vs) -> (forall q, q ∈ pre ++ linest vs -> sized (allwidth vs + 1) (store vs0) q) ->
  heap_ok (store vs0) -> (forall q, valid (store vs) q -> ct (store vs0) q = ct (store vs) q) ->
  vs0 = vs <| store := store vs0 |> -> numlines vs = zlen pre -> head (pre ++ linest vs) = Some (buftop vs) ->
  head (linest vs) = Some (scrntop vs) -> (2 <= length (linest vs))%nat ->
  exists vs1, step_buftop vs0 = Done vs1 /\ roomy circ pre [] vs vs1 true true (buftop vs) [].
Proof.
  intros Hc Hs Hh Hct HF Hn Hb Ht Hlen.
  assert (EB : buftop vs0 = buftop vs) by by rewrite HF.
  assert (Hin : buftop vs ∈ pre ++ linest vs) by by apply head_Some_elem_of.
  destruct (load_valid (store vs0) (buftop vs)) as (b & Eb & _ & En & _); [by apply Hc|].
  unfold step_buftop. rewrite EB, Eb. cbn [mbind outcome_bind]. eexists. split; [reflexivity|].
  set (vs1 := vs0 <| buftop := next b |>). change (store vs1) with (store vs0).
  destruct (linest vs) as [|r0 [|r1 Lt]] eqn:EL; [cbn in Hlen; lia..|]. injection Ht as Ht. subst r0. cbn [tail].
  (* the ring read from its second line *)
  assert (Hring : exists rest, pre ++ scrntop vs :: r1 :: Lt = buftop vs :: rest
    /\ aged true pre (scrntop vs) ++ (r1 :: Lt) ++ [buftop vs] = rest ++ [buftop vs]).
  { unfold aged. destruct pre as [|p0 pre]; cbn [app tail head] in *; injection Hb as Hb; rewrite <- Hb.
    - by exists (r1 :: Lt).
    - exists (pre ++ scrntop vs :: r1 :: Lt). split; [done|]. by rewrite <- !app_assoc. }
  destruct Hring as (rest & E1 & E2).
  assert (Hc1 : chain (store vs0) true (rest ++ [buftop vs])).
  { rewrite E1 in Hc. change (buftop vs :: rest) with ([buftop vs] ++ rest) in Hc. by apply chain_rotate. }
  assert (Hrest : exists z rest', rest = z :: rest').
  { destruct rest as [|z rest']; [|by eauto]. exfalso. apply (f_equal (@length Z)) in E1. rewrite length_app in E1. cbn in E1. lia. }
  destruct Hrest as (z & rest' & Ez).
  assert (Enz : next b = z).
  { rewrite En. rewrite Ez in Hc1. rewrite chain_last_next with (circ := true) (A := z :: rest') by exact Hc1. done. }
  split.
  - change (vs1 = vs <| store := store vs0 |> <| numlines := numlines vs0 |> <| buftop := next b |> <| drawn := drawn vs0 |>).
    unfold vs1. rewrite HF. reflexivity.
  - rewrite EL. cbn [tail]. rewrite app_nil_r, E2. exact Hc1.
  - rewrite EL. cbn [tail]. rewrite app_nil_r, E2. intros q Hq. apply Hs. rewrite E1. set_solver.
  - change (numlines vs1) with (numlines vs0). rewrite HF. change (numlines (vs <| store := store vs0 |>)) with (numlines vs).
    rewrite Hn. unfold aged, zlen. destruct pre; cbn; [done|]. rewrite length_app. cbn. lia.
  - rewrite EL. cbn [tail]. rewrite E2, Ez. cbn. by rewrite Enz.
  - exact Hh.
  - rewrite EL. cbn [tail app head default].
    assert (Hx : exists A B, rest ++ [buftop vs] = A ++ [scrntop vs] ++ r1 :: B \/ (rest ++ [buftop vs] = r1 :: B ++ [scrntop vs])).
    { rewrite <- E2. unfold aged. destruct pre as [|p0 pre]; cbn [app tail].
      - exists [], Lt. right. cbn in Hb. injection Hb as Hb. by rewrite Hb.
      - exists pre, (Lt ++ [buftop vs]). left. by rewrite <- !app_assoc. }
    destruct Hx as (A & B & [Hx|Hx]).
    + rewrite Hx in Hc1. cbn [app] in Hc1. by apply around_next in Hc1 as [? _].
    + rewrite Hx in Hc1. change (r1 :: B ++ [scrntop vs]) with ((r1 :: B) ++ [scrntop vs]) in Hc1. apply chain_last_next in Hc1. exact Hc1.
  - exact Hct.
  - done.
Qed.

(** A screen that grows by the line [p]. *)
Lemma grow_ok circ circ1 pre post vs vs0 p post1 :
  chain (store vs0) circ1 (pre ++ linest vs ++ p :: post1) ->
  (forall q, q ∈ pre ++ linest vs ++ p :: post1 -> sized (allwidth vs + 1) (store vs0) q) ->
  heap_ok (store vs0) -> (forall q, valid (store vs) q -> ct (store vs0) q = ct (store vs) q) ->
  vs0 = vs <| store := store vs0 |> -> numlines vs = zlen pre -> head (pre ++ linest vs) = Some (buftop vs) ->
  head (linest vs) = Some (scrntop vs) ->
  roomy circ pre post vs (bufinfo (vs0 <| numlines := numlines vs0 + 1 |>)) false circ1 p post1.
Proof.
  intros Hc Hs Hh Hct HF Hn Hb Ht. destruct (linest vs) as [|r0 Lt] eqn:EL; [done|]. injection Ht as Ht. subst r0.
  assert (EA : aged false pre (scrntop vs) ++ (tail (linest vs) ++ [p]) ++ post1 = pre ++ (scrntop vs :: Lt) ++ p :: post1).
  { rewrite EL. unfold aged. cbn [tail]. rewrite <- !app_assoc. done. }
  split.
  - unfold bufinfo, draw. rewrite HF. reflexivity.
  - rewrite EA. exact Hc.
  - rewrite EA. exact Hs.
  - change (numlines (bufinfo (vs0 <| numlines := numlines vs0 + 1 |>))) with (numlines vs0 + 1). rewrite HF.
    change (numlines (vs <| store := store vs0 |>)) with (numlines vs). rewrite Hn. unfold aged. by rewrite zlen_app.
  - change (buftop (bufinfo (vs0 <| numlines := numlines vs0 + 1 |>))) with (buftop vs0). rewrite HF.
    change (buftop (vs <| store := store vs0 |>)) with (buftop vs). rewrite EL. unfold aged. cbn [tail].
    rewrite <- Hb, <- !app_assoc. destruct pre; done.
  - exact Hh.
  - change (store (bufinfo (vs0 <| numlines := numlines vs0 + 1 |>))) with (store vs0). rewrite EL. cbn [tail].
    destruct Lt as [|r1 Lt]; cbn [app] in Hc; cbn; by apply around_next in Hc as [? _].
  - exact Hct.
  - done.
Qed.

Lemma zlen_aged_full {A} (pre : list A) r : zlen (aged true pre r) = zlen pre.
Proof. unfold aged, zlen. destruct pre; cbn; [done|]. rewrite length_app. cbn. lia. Qed.

(** The ring is closed and its oldest line used again. *)
Lemma close_recycle_ok pre pL vs h :
  stored false pre [] vs -> backed pre vs -> 1 <= lines vs -> last (linest vs) = Some pL -> h = store vs ->
  exists vs1, (vs0 ← close_ring pL (vs <| store := h |>); step_buftop vs0) = Done vs1
    /\ roomy false pre [] vs vs1 true true (buftop vs) []
    /\ (numlines vs + zlen (@nil Z) <= maxlines vs -> numlines vs1 + zlen (@nil Z) <= maxlines vs).
Proof.
  intros [Hc Hs Hl Ht Hw] [Bn Bb _ _ Bh] Hlines EpL ->. rewrite store_id. rewrite app_nil_r in Hc, Hs.
  destruct (close_ring_ok (pre ++ linest vs) pL vs Hc Bb) as (h' & -> & S' & C').
  { by rewrite last_app, EpL. }
  cbn [mbind outcome_bind].
  destruct (recycle_ok false pre vs (vs <| store := h' |>)) as (vs1 & E & R); try done.
  - intros q Hq. apply (sized_same_lines _ (store vs)); [done|]. by apply Hs.
  - by apply (heap_ok_same_lines (store vs)).
  - intros q _. change (store (vs <| store := h' |>)) with h'. by destruct S' as [-> _].
  - unfold zlen in Hl. lia.
  - exists vs1. split; [exact E|]. split; [exact R|]. intros Hm. rewrite (ro_numlines _ _ _ _ _ _ _ _ _ R), zlen_aged_full, <- Bn. exact Hm.
Qed.

(** A new block below the screen. *)
Lemma new_block_ok pre pL vs b Lb h1 :
  stored false pre [] vs -> backed pre vs -> last (linest vs) = Some pL ->
  chain h1 false (b :: Lb) -> (forall q, q ∈ b :: Lb -> ~ valid (store vs) q) ->
  (forall q, q ∈ b :: Lb -> sized (allwidth vs + 1) h1 q) ->
  (forall q, valid (store vs) q -> cells h1 !! q = cells (store vs) !! q) -> heap_ok h1 ->
  exists h2, (h ← set_next pL b h1; set_prev b pL h) = Done h2
  /\ roomy false pre [] vs (bufinfo (vs <| store := h2 |> <| numlines := numlines vs + 1 |>)) false false b Lb.
Proof.
  intros [Hc Hs Hl Ht Hw] [Bn Bb _ _ Bh] EpL Hcb Hfr Hsb Hold Hh1. rewrite app_nil_r in Hc, Hs.
  pose proof (chain_extend _ _ _ _ Hc Bh Hh1 Hold) as Hc1.
  assert (EL : exists A, pre ++ linest vs = A ++ [pL]) by (apply last_snoc_split; by rewrite last_app, EpL).
  destruct EL as [A EA]. rewrite EA in Hc1.
  destruct (chain_append _ _ _ _ _ Hc1 Hcb) as (h2 & E & S & C).
  { intros z Hz Hzb. apply (Hfr z Hzb). rewrite <- EA in Hz. by apply Hc. }
  exists h2. split; [exact E|].
  change (numlines vs + 1) with (numlines (vs <| store := h2 |>) + 1).
  apply (grow_ok false false pre [] vs (vs <| store := h2 |>) b Lb); try done.
  - change (store (vs <| store := h2 |>)) with h2. rewrite app_assoc, EA. exact C.
  - change (store (vs <| store := h2 |>)) with h2. intros q Hq. apply (sized_same_lines _ _ _ _ S).
    rewrite app_assoc in Hq. apply elem_of_app in Hq as [Hq|Hq]; [|by apply Hsb].
    destruct (Hs q Hq) as (la & t & a & E1 & E2). exists la, t, a. split; [|done]. unfold ct in *. rewrite Hold; [done|]. by apply Hc.
  - by apply (heap_ok_same_lines h1).
  - intros q Hq. change (store (vs <| store := h2 |>)) with h2. destruct S as [-> _]. unfold ct. by rewrite Hold.
Qed.

Lemma scroll_room_ok circ pre post vs :
  stored circ pre post vs -> backed pre vs -> 1 <= lines vs ->
  exists vs1 full circ1 p post1, scroll_room vs = Done vs1 /\ roomy circ pre post vs vs1 full circ1 p post1
  /\ (can_grow circ post vs -> full = false) /\ (post = [] -> circ = true \/ maxlines vs <= numlines vs -> full = true)
  /\ (numlines vs + zlen post <= maxlines vs -> numlines vs1 + zlen post1 <= maxlines vs).
Proof.
  intros HS HB Hlines. pose proof HS as [Hc Hs Hl Ht Hw]. pose proof HB as [Bn Bb _ _ Bh].
  assert (Hlen : (2 <= length (linest vs))%nat) by (unfold zlen in Hl; lia).
  destruct (nonempty_last (linest vs)) as [pL EpL]; [intros E; rewrite E in Hlen; cbn in Hlen; lia|].
  assert (HpL : last_line vs = Done pL).
  { unfold last_line. pose proof EpL as E. apply last_snoc_split in E as [L0 E]. replace (lines vs) with (zlen L0).
    - by apply (line_at_app vs L0 pL []).
    - rewrite E, zlen_app in Hl. change (zlen [pL]) with 1 in Hl. lia. }
  assert (HvL : valid (store vs) pL) by (apply Hc; apply last_Some_elem_of in EpL; set_solver).
  unfold scroll_room. rewrite HpL. cbn [mbind outcome_bind]. destruct (load_valid _ _ HvL) as (l & -> & _ & En & _).
  cbn [mbind outcome_bind]. rewrite En.
  assert (Enx : nx (store vs) pL = default (if circ then buftop vs else 0) (head post)).
  { rewrite app_assoc in Hc. rewrite (chain_next_of _ _ _ _ Hc pL) by (by rewrite last_app, EpL). by rewrite Bb. }
  assert (Hkeep : forall q, valid (store vs) q -> ct (store vs) q = ct (store vs) q) by done.
  destruct post as [|p post].
  - rewrite app_nil_r in Hc. rewrite app_nil_r in Hs. cbn [head default] in Enx. destruct circ.
    + (* a full ring *)
      assert (Hb0 : buftop vs <> 0) by (apply Hc; by apply head_Some_elem_of).
      rewrite Enx, (proj2 (Z.eqb_neq _ _)), Z.eqb_refl by done.
      destruct (recycle_ok true pre vs vs) as (vs1 & E & R); try done; [by destruct vs|].
      exists vs1, true, true, (buftop vs), []. split; [exact E|]. split; [exact R|].
      split; [|split; [done|]]; [intros [?|(? & _)]; done|]. intros Hm. rewrite (ro_numlines _ _ _ _ _ _ _ _ _ R).
      assert (zlen (aged true pre (scrntop vs)) = zlen pre) as -> by (unfold aged, zlen; destruct pre; cbn; [done|]; rewrite length_app; cbn; lia).
      rewrite <- Bn. exact Hm.
    + rewrite Enx, Z.eqb_refl. set (i := if ScrollbackQuantum <? maxlines vs - numlines vs then ScrollbackQuantum else maxlines vs - numlines vs).
      assert (Hi : i <= maxlines vs - numlines vs /\ (0 < i <-> numlines vs < maxlines vs)).
      { unfold i, ScrollbackQuantum. destruct (Z.ltb_spec 100 (maxlines vs - numlines vs)); lia. }
      destruct (close_recycle_ok pre pL vs (store vs) HS HB Hlines EpL eq_refl) as (vsf & Ef & Rf & Bf). rewrite store_id in Ef.
      assert (Hfail : (can_grow false [] vs -> false = true) -> exists vs1 full circ1 p post1,
        (vs0 ← close_ring pL vs; step_buftop vs0) = Done vs1 /\ roomy false pre [] vs vs1 full circ1 p post1
        /\ (can_grow false [] vs -> full = false) /\ (@nil Z = [] -> false = true \/ maxlines vs <= numlines vs -> full = true)
        /\ (numlines vs + zlen (@nil Z) <= maxlines vs -> numlines vs1 + zlen post1 <= maxlines vs)).
      { intros Hno. exists vsf, true, true, (buftop vs), []. split; [exact Ef|]. split; [exact Rf|]. split; [|split; [done | exact Bf]].
        intros Hg. by specialize (Hno Hg). }
      destruct (Z.ltb_spec 0 i) as [H0|H0].
      * destruct (VSInewlines_ok (allwidth vs) i (store vs) Bh Hw H0) as [E|(h1 & b & Lb & E & Hb0 & HLb & Hcb & Hfr & Hsb & Hold & Hh1)].
        -- rewrite E. cbn [mbind outcome_bind]. rewrite store_id. change (negb (0 =? 0)) with false. cbv iota. apply Hfail.
           intros [?|(_ & Hlt & Hm)]; [done|]. exfalso. unfold VSInewlines in E. rewrite Hm in E.
           rewrite (proj2 (Z.leb_gt i 0)) in E by lia. injection E as E _. destruct Bh. lia.
        -- rewrite E. cbn [mbind outcome_bind]. rewrite (proj2 (Z.eqb_neq b 0)) by done. cbn [negb].
           change (store (vs <| store := h1 |>)) with h1.
           destruct (new_block_ok pre pL vs b Lb h1 HS HB EpL Hcb Hfr Hsb Hold Hh1) as (h2 & E2 & R).
           exists (bufinfo (vs <| store := h2 |> <| numlines := numlines vs + 1 |>)), false, false, b, Lb.
           revert E2. destruct (set_next pL b h1) as [h1'| |]; [|discriminate..]. cbn [mbind outcome_bind]. intros ->. cbn [mbind outcome_bind].
           split; [done|]. split; [exact R|]. split; [done|]. split; [intros _ [?|?]; [done|lia]|].
           intros Hm. change (numlines (bufinfo _)) with (numlines vs + 1). rewrite zlen_cons in HLb. lia.
      * change (negb (0 =? 0)) with false. cbn [mbind outcome_bind]. rewrite store_id. cbv iota. apply Hfail.
        intros [?|(_ & Hlt & _)]; [done|]. lia.
  - assert (Hp0 : p <> 0 /\ p <> buftop vs).
    { split; [by apply Hc; set_solver|]. intros ->. apply head_Some_elem_of in Bb. destruct Hc as (Hnd & _).
      rewrite app_assoc in Hnd. apply NoDup_app in Hnd as (_ & Hnd & _). apply (Hnd _ Bb). set_solver. }
    cbn [head default] in Enx. unfold id in Enx. rewrite Enx, (proj2 (Z.eqb_neq p 0)), (proj2 (Z.eqb_neq p (buftop vs))) by apply Hp0.
    exists (bufinfo (vs <| numlines := numlines vs + 1 |>)), false, circ, p, post. split; [done|]. split.
    + by apply (grow_ok circ circ pre (p :: post) vs vs); try done; destruct vs.
    + split; [done|]. split; [done|]. intros Hm. change (numlines (bufinfo _)) with (numlines vs + 1). rewrite zlen_cons in Hm. lia.
Qed.

(** *** The visible region follows *)

Lemma VSIcdellines_flag t b n sc vs : exists i d, VSIcdellines t b n sc vs = (i, vs <| drawn := d |>).
Proof. unfold VSIcdellines. destruct (VSIclip _ _) as [[] c]; [exists true, (drawn vs); by destruct vs | by do 2 eexists]. Qed.

Lemma len_tail {A} (l : list A) : length (tail l) = (length l - 1)%nat.
Proof. destruct l; cbn; lia. Qed.

(** The line at the top of the visible region, in the list of the scrollback
    buffer and the screen. *)
Definition views (W : list Z) (vs : VSscrn) : Prop :=
  - numlines vs <= Rtop vs <= lines vs /\ W !! Z.to_nat (numlines vs + Rtop vs) = Some (vistop vs).

Lemma view_next h circ1 W2 post1 i x y :
  chain h circ1 (W2 ++ post1) -> W2 !! i = Some x -> W2 !! S i = Some y -> nx h x = y.
Proof.
  intros Hc Hx Hy. apply list_elem_of_split_length in Hx as (A & B & -> & EA).
  destruct B as [|y' B].
  - exfalso. apply lookup_lt_Some in Hy. rewrite length_app in Hy. cbn in Hy. lia.
  - assert (y' = y) as ->.
    { rewrite lookup_app_r in Hy by lia. replace (S i - length A)%nat with 1%nat in Hy by lia. by injection Hy. }
    rewrite <- app_assoc in Hc. cbn [app] in Hc. by apply around_next in Hc as [? _].
Qed.

Lemma scroll_display_ok full circ1 pre post1 p (vs vs2 : VSscrn) :
  backed pre vs -> linest vs2 = tail (linest vs) ++ [p] -> linest vs <> [] -> head (linest vs) = Some (scrntop vs) ->
  chain (store vs2) circ1 (aged full pre (scrntop vs) ++ linest vs2 ++ post1) ->
  (full = true -> p = buftop vs /\ circ1 = true /\ post1 = []) ->
  numlines vs2 = zlen (aged full pre (scrntop vs)) -> Rtop vs2 = Rtop vs -> vistop vs2 = vistop vs -> lines vs2 = lines vs ->
  zlen (linest vs) = lines vs + 1 ->
  exists vs3, scroll_display vs2 = Done vs3
  /\ vs3 = vs2 <| Rtop := Rtop vs3 |> <| Rbottom := Rbottom vs3 |> <| vistop := vistop vs3 |> <| drawn := drawn vs3 |>
  /\ views (aged full pre (scrntop vs) ++ linest vs2) vs3 /\ Rtop vs3 <= Rtop vs.
Proof.
  intros [Bn Bb Br Bv Bh] EL Hne Ht Hc Hf En ER EV EN Hl.
  destruct (linest vs) as [|r0 Lt]; [done|]. injection Ht as Ht. subst r0. cbn [tail] in EL.
  set (W := pre ++ scrntop vs :: Lt) in *. set (W2 := aged full pre (scrntop vs) ++ linest vs2) in *.
  assert (EW : W2 = if full then tail W ++ [p] else W ++ [p]).
  { unfold W2, W, aged. rewrite EL. destruct full; [destruct pre; cbn [app tail] |]; rewrite ?app_assoc, <- ?app_assoc; done. }
  assert (Hc2 : chain (store vs2) circ1 (W2 ++ post1)) by (unfold W2; rewrite <- app_assoc; exact Hc).
  assert (Hnum : numlines vs2 = if full then numlines vs else numlines vs + 1).
  { rewrite En, Bn. destruct full; [apply zlen_aged_full | unfold aged; by rewrite zlen_app]. }
  set (i0 := Z.to_nat (numlines vs + Rtop vs)) in *.
  assert (HlW : length W = Z.to_nat (numlines vs + lines vs + 1)).
  { unfold W. rewrite length_app. unfold zlen in Hl, Bn. lia. }
  assert (Hi0 : (i0 < length W)%nat) by (unfold i0; lia).
  assert (Hvis : valid (store vs2) (vistop vs)).
  { apply Hc2. apply elem_of_app. left. apply list_elem_of_lookup_2 in Bv. rewrite EW. destruct full.
    - destruct (Hf eq_refl) as (-> & _). destruct W as [|w W]; [done|]. injection Bb as ->. cbn [tail]. set_solver.
    - set_solver. }
  (* the line after the one on view *)
  assert (Hnx : exists v, nx (store vs2) (vistop vs) = v /\ W2 !! Z.to_nat (numlines vs2 + Rtop vs) = Some v).
  { assert (HW2 : is_Some (W2 !! Z.to_nat (numlines vs2 + Rtop vs))).
    { apply lookup_lt_is_Some_2. rewrite EW, Hnum. destruct full; rewrite length_app; cbn [length]; [rewrite len_tail|]; lia. }
    destruct HW2 as [v Hv]. exists v. split; [|done]. destruct full.
    - destruct (Hf eq_refl) as (Ep & -> & ->). rewrite Hnum in Hv. fold i0 in Hv. rewrite app_nil_r in Hc2.
      assert (W = buftop vs :: tail W) as HW by (destruct W; [done|]; by injection Bb as ->).
      destruct (decide (i0 = 0%nat)) as [E0|E0].
      + rewrite E0, HW in Bv. injection Bv as Bv. rewrite <- Bv, <- Ep.
        rewrite EW in Hc2. rewrite (chain_last_next _ _ _ _ Hc2). rewrite <- EW. rewrite E0 in Hv. destruct W2; [done|]. injection Hv as ->. done.
      + apply (view_next _ true W2 [] (i0 - 1)); [by rewrite app_nil_r | |by replace (S (i0 - 1)) with i0 by lia].
        rewrite EW, lookup_app_l by (rewrite len_tail; lia). rewrite HW in Bv.
        replace i0 with (S (i0 - 1)) in Bv by lia. exact Bv.
    - apply (view_next _ circ1 W2 post1 i0 _ _ Hc2).
      + rewrite EW, lookup_app_l by done. exact Bv.
      + rewrite Hnum in Hv. by replace (S i0) with (Z.to_nat (numlines vs + 1 + Rtop vs)) by (unfold i0; lia). }
  destruct Hnx as (v & Enx & HWv).
  unfold scroll_display. destruct (VSIcdellines_flag (Rtop vs2) (bottom vs2) 1 (-1) vs2) as (inv & d & ->).
  set (vd := vs2 <| drawn := d |>).
  change (numlines vd) with (numlines vs2). change (Rtop vd) with (Rtop vs2). change (Rbottom vd) with (Rbottom vs2).
  change (vistop vd) with (vistop vs2). change (store vd) with (store vs2).
  destruct (load_valid _ _ Hvis) as (l & El & _ & Enl & _). rewrite EV, ER, El. rewrite Enx in Enl.
  assert (Hnext : views W2 (vd <| vistop := v |>)).
  { split; [change (- numlines vs2 <= Rtop vs2 <= lines vs2); rewrite ER, EN, Hnum; destruct full; lia|].
    change (W2 !! Z.to_nat (numlines vs2 + Rtop vs2) = Some v). by rewrite ER. }
  destruct inv.
  - destruct (Z.ltb_spec (- numlines vs2) (Rtop vs)) as [Hlt|Hge].
    + eexists. split; [reflexivity|]. split; [reflexivity|].
        split; [|change (Rtop vs - 1 <= Rtop vs); lia]. split; [change (- numlines vs2 <= Rtop vs - 1 <= lines vs2); rewrite EN; lia|].
        change (W2 !! Z.to_nat (numlines vs2 + (Rtop vs - 1)) = Some (vistop vs2)). rewrite EV, <- Bv, EW. destruct full.
        * destruct (Hf eq_refl) as (-> & _). rewrite Hnum in *. destruct W as [|w W]; [done|]. cbn [tail].
           replace i0 with (S (Z.to_nat (numlines vs + (Rtop vs - 1)))) by (unfold i0; lia).
           rewrite lookup_app_l; [done|]. cbn [length] in Hi0. unfold i0 in Hi0. lia.
        * rewrite Hnum in *. replace (Z.to_nat (numlines vs + 1 + (Rtop vs - 1))) with i0 by (unfold i0; lia). by rewrite lookup_app_l.
    + cbn [mbind outcome_bind]. rewrite Enl. eexists. split; [reflexivity|]. split; [reflexivity|]. split; [exact Hnext|]. change (Rtop vs2 <= Rtop vs). lia.
  - cbn [mbind outcome_bind]. rewrite Enl. eexists. split; [reflexivity|]. split; [reflexivity|]. split; [exact Hnext|]. change (Rtop vs2 <= Rtop vs). lia.
Qed.


(** *** The blank line goes to the bottom of the scrolling region *)

Lemma NoDup_four (A c post : list Z) p : NoDup (A ++ c ++ [p] ++ post) ->
  (forall q, q ∈ A -> q ∉ c /\ q <> p /\ q ∉ post) /\ (forall q, q ∈ c -> q <> p /\ q ∉ post) /\ p ∉ post.
Proof.
  intros Hn. apply NoDup_app in Hn as (_ & N1 & Hn). apply NoDup_app in Hn as (_ & N2 & Hn). apply NoDup_app in Hn as (_ & N3 & _).
  split; [|split].
  - intros q Hq. specialize (N1 q Hq). clear - N1. set_solver.
  - intros q Hq. specialize (N2 q Hq). clear - N2. set_solver.
  - apply N3. apply list_elem_of_here.
Qed.

Lemma lift_last_ok circ pre post vs a c p :
  stored circ pre post vs -> linest vs = a ++ c ++ [p] -> a <> [] -> c <> [] -> zlen a = bottom vs ->
  exists h', lift_last vs = Done (vs <| store := h' |> <| linest := a ++ [p] ++ c |>)
  /\ same_lines (store vs) h' /\ chain h' circ (pre ++ (a ++ [p] ++ c) ++ post).
Proof.
  intros [Hc Hs Hl Ht Hw] EL Ha Hcne Hb.
  destruct (nonempty_last a Ha) as [u Eu]. destruct (nonempty_head c Hcne) as [v Ev]. destruct (nonempty_last c Hcne) as [w Ew].
  pose proof Eu as Eu'. apply last_snoc_split in Eu' as [a0 Ea]. pose proof Ev as Ev'. apply head_cons_split in Ev' as [c0 Ec].
  pose proof Ew as Ew'. apply last_snoc_split in Ew' as [c1 Ec1].
  assert (Hch : chain (store vs) circ ((pre ++ a) ++ c ++ [p] ++ post)).
  { rewrite EL in Hc. rewrite <- !app_assoc in Hc. rewrite <- !app_assoc. exact Hc. }
  pose proof Hch as (Hnd & Hin & _).
  assert (Hv : forall q, q ∈ a \/ q ∈ c \/ q = p -> q <> 0 /\ valid (store vs) q) by (intros q Hq; apply Hin; set_solver).
  assert (Hua : u ∈ a) by by apply last_Some_elem_of. assert (Hvc : v ∈ c) by by apply head_Some_elem_of. assert (Hwc : w ∈ c) by by apply last_Some_elem_of.
  assert (Hpv : pv (store vs) v = u).
  { rewrite (chain_prev_of _ _ _ _ Hch v) by (by rewrite head_app, Ev). by rewrite (last_app pre a), Eu. }
  assert (Hpp : pv (store vs) p = w).
  { rewrite (app_assoc _ c) in Hch. rewrite (chain_prev_of _ _ _ _ Hch p) by done. by rewrite (last_app (pre ++ a) c), Ew. }
  destruct (NoDup_four _ _ _ _ Hnd) as (NA & Nc & Np).
  assert (Hua' : u ∈ pre ++ a) by (apply elem_of_app; by right).
  assert (D : u <> p /\ u <> w /\ v <> p /\ u <> v /\ w <> p).
  { destruct (NA u Hua') as (U1 & U2 & _). destruct (Nc v Hvc) as [V1 _]. destruct (Nc w Hwc) as [W1 _]. split_and!; congruence. }
  assert (Hy : nx (store vs) p <> v /\ nx (store vs) p <> p /\ (nx (store vs) p <> 0 -> valid (store vs) (nx (store vs) p))).
  { assert (En : nx (store vs) p = default (if circ then default 0 (head (((pre ++ a) ++ c) ++ [p])) else 0) (head post)).
    { rewrite (app_assoc _ c), (app_assoc _ [p]) in Hch. apply (chain_next_of _ _ _ _ Hch). apply last_snoc. }
    assert (Hx : nx (store vs) p = 0 \/ nx (store vs) p ∈ post \/ nx (store vs) p ∈ pre ++ a).
    { rewrite En. destruct (head post) as [z|] eqn:Ez; unfold default, id; [right; left; by apply head_Some_elem_of|].
      destruct circ; [|by left]. right; right. destruct (nonempty_head (pre ++ a)) as [z Ez']; [by destruct pre, a|].
      rewrite <- app_assoc, head_app, Ez'. by apply head_Some_elem_of. }
    destruct (Nc v Hvc) as [_ Nv]. destruct Hx as [->|[Hx|Hx]].
    - split; [by apply not_eq_sym, Hv; auto|]. split; [by apply not_eq_sym, Hv; auto | done].
    - split; [congruence|]. split; [congruence|]. intros _. apply Hin. rewrite !elem_of_app. by auto.
    - destruct (NA _ Hx) as (X1 & X2 & _). split; [congruence|]. split; [done|]. intros _. apply Hin. apply elem_of_app. by left. }
  destruct D as (D1 & D2 & D3 & D4 & D5). destruct Hy as (Y1 & Y2 & Y3).
  assert (L1 : last_line vs = Done p).
  { unfold last_line. replace (lines vs) with (zlen (a ++ c)); [apply (line_at_app vs (a ++ c) p []); by rewrite EL, <- app_assoc|].
    rewrite EL, app_assoc, zlen_app in Hl. change (zlen [p]) with 1 in Hl. lia. }
  assert (L2 : line_at (bottom vs) vs = Done v).
  { rewrite <- Hb. apply (line_at_app vs a v (c0 ++ [p])). by rewrite EL, Ec. }
  unfold lift_last. rewrite L1. cbn [mbind outcome_bind]. rewrite L2. cbn [mbind outcome_bind].
  destruct (load_valid (store vs) p) as (l2 & -> & _ & E2n & E2p); [apply Hv; auto|]. cbn [mbind outcome_bind]. rewrite E2n, E2p, Hpp.
  destruct (load_valid (store vs) v) as (l3 & -> & _ & _ & E3p); [apply Hv; auto|]. cbn [mbind outcome_bind]. rewrite E3p, Hpv.
  destruct (set_next_ok u p (store vs)) as (h1 & -> & S1 & N1 & V1); [apply Hv; auto|]. cbn [mbind outcome_bind].
  destruct (load_valid h1 v) as (l3' & -> & _ & _ & E3p'); [apply (same_lines_valid _ _ _ S1), Hv; auto|]. cbn [mbind outcome_bind]. rewrite E3p', V1, Hpv.
  destruct (set_prev_ok p u h1) as (h2 & -> & S2 & N2 & V2); [apply (same_lines_valid _ _ _ S1), Hv; auto|]. cbn [mbind outcome_bind].
  assert (S02 : same_lines (store vs) h2) by by eapply same_lines_trans.
  destruct (set_next_ok p v h2) as (h3 & -> & S3 & N3 & V3); [apply (same_lines_valid _ _ _ S02), Hv; auto|]. cbn [mbind outcome_bind].
  assert (S03 : same_lines (store vs) h3) by by eapply same_lines_trans.
  destruct (set_prev_ok v p h3) as (h4 & -> & S4 & N4 & V4); [apply (same_lines_valid _ _ _ S03), Hv; auto|]. cbn [mbind outcome_bind].
  assert (S04 : same_lines (store vs) h4) by by eapply same_lines_trans.
  destruct (set_next_ok w (nx (store vs) p) h4) as (h5 & -> & S5 & N5 & V5); [apply (same_lines_valid _ _ _ S04), Hv; auto|]. cbn [mbind outcome_bind].
  assert (S05 : same_lines (store vs) h5) by by eapply same_lines_trans.
  destruct (set_prev_unless_null (nx (store vs) p) w h5) as (h6 & -> & S6 & N6 & V6).
  { intros H0. apply (same_lines_valid _ _ _ S05). by apply Y3. }
  cbn [mbind outcome_bind]. assert (S06 : same_lines (store vs) h6) by by eapply same_lines_trans.
  exists h6. assert (Hc6 : chain h6 circ ((pre ++ a) ++ [p] ++ c ++ post)).
  { apply (chain_lift (store vs) h6 circ (pre ++ a) c p post u v w (nx (store vs) p) Hch); try done.
    - by rewrite last_app, Eu.
    - intros q. rewrite N6, N5, N4, N3, N2, N1. destruct (decide (q = u)) as [->|]; [by rewrite !decide_False by done|].
      destruct (decide (q = p)) as [->|]; [by rewrite decide_False by done|]. done.
    - intros q. rewrite V6, V5, V4, V3, V2, V1. destruct (decide (q = v)) as [->|]; [by rewrite decide_False by (intros [? _]; congruence)|].
      destruct (decide (q = p)) as [->|]; [by rewrite decide_False by (intros [? _]; congruence)|]. done. }
  assert (Hc6' : chain h6 circ (pre ++ (a ++ [p] ++ c) ++ post)).
  { rewrite <- !app_assoc in Hc6. rewrite <- !app_assoc. exact Hc6. }
  split; [|by split].
  assert (scrntop vs <> v) as Hsv.
  { destruct a as [|z a']; [done|]. rewrite EL in Ht. injection Ht as Ht. intros E. rewrite E in Ht. subst z.
    destruct (NA v) as (X1 & _); [|done]. apply elem_of_app. right. apply list_elem_of_here. }
  change (scrntop (vs <| store := h6 |>)) with (scrntop vs). rewrite (proj2 (Z.eqb_neq _ _)) by done.
  set (vs6 := vs <| store := h6 |> <| scrntop := scrntop vs |>).
  assert (Hc6'' : chain (store vs6) circ (pre ++ (a ++ [p] ++ c) ++ post)) by exact Hc6'.
  rewrite (resync_ok circ pre (a ++ [p] ++ c) post vs6 (scrntop vs) Hc6'').
  - unfold vs6. destruct vs. reflexivity.
  - change (lines vs6) with (lines vs). rewrite <- Hl, EL, !zlen_app. lia.
  - rewrite EL in Ht. by destruct a.
Qed.

End Scroll.

(** ** Scrolling by one line *)

Section Scroll_one.
Context `{Memory}.

Definition blank0 (vs : VSscrn) : option row := Some (blank_row 0 (allwidth vs + 1) 0).

(** The new last line is blanked. *)
Lemma blank_last_ok circ1 pre1 post1 L p vs :
  stored circ1 pre1 post1 vs -> linest vs = L ++ [p] ->
  exists h', (pL ← last_line vs; vs ← set_lattr pL 0 vs; blank pL (allwidth vs + 1) 0 0 vs) = Done (vs <| store := h' |>)
  /\ last_line vs = Done p /\ same_links (store vs) h'
  /\ (forall q, ct h' q = if decide (q = p) then blank0 vs else ct (store vs) q)
  /\ stored circ1 pre1 post1 (vs <| store := h' |>).
Proof.
  intros [Hc Hs Hl Ht Hw] EL.
  assert (L1 : last_line vs = Done p).
  { unfold last_line. replace (lines vs) with (zlen L); [by apply (line_at_app vs L p [])|].
    rewrite EL, zlen_app in Hl. change (zlen [p]) with 1 in Hl. lia. }
  rewrite L1. cbn [mbind outcome_bind].
  destruct (blank_line_ok false p 0 vs) as (h' & E & S & C); [apply Hs; rewrite EL, !elem_of_app; right; left; right; apply list_elem_of_here | lia |].
  exists h'. split.
  { cbn [mbind outcome_bind] in E. revert E. destruct (set_lattr p 0 vs) as [v1| |] eqn:E1; [|discriminate..]. cbn [mbind outcome_bind].
    assert (allwidth v1 = allwidth vs) as ->; [|done]. unfold set_lattr in E1. destruct (modify _ _ _) as [h1| |]; [|discriminate..].
    cbn in E1. by injection E1 as <-. }
  split; [done|]. split; [exact S|].
  assert (C' : forall q, ct h' q = if decide (q = p) then blank0 vs else ct (store vs) q).
  { intros q. rewrite C. destruct (decide (q = p)) as [->|]; [|done].
    destruct (Hs p) as (la & t & a & E1 & _); [rewrite EL, !elem_of_app; right; left; right; apply list_elem_of_here|]. by rewrite E1. }
  split; [exact C'|]. split; [by apply (chain_same_links (store vs)) | | exact Hl | exact Ht | exact Hw].
  intros q Hq. change (store (vs <| store := h' |>)) with h'. change (allwidth (vs <| store := h' |>)) with (allwidth vs).
  unfold sized. rewrite C'. destruct (decide (q = p)) as [->|]; [|by apply Hs].
  unfold blank0, blank_row. do 3 eexists. split; [done|]. rewrite !zlen_replicate. lia.
Qed.

Lemma heap_ok_same_links h h' : same_links h h' -> heap_ok h -> heap_ok h'.
Proof.
  intros (_ & _ & D & _ & B & _) [H1 H2]. split; rewrite B; [done|]. intros p Hp. apply H2. by apply D.
Qed.

(** The test that ends [VSIscroll]: a region that goes down to the last line
    needs no lifting. *)
Lemma end_scroll_ok circ pre post vs a c p :
  stored circ pre post vs -> linest vs = a ++ c ++ [p] -> a <> [] -> zlen a = bottom vs -> heap_ok (store vs) ->
  exists h', (if negb (bottom vs =? lines vs) then lift_last vs else Done vs) = Done (vs <| store := h' |> <| linest := a ++ [p] ++ c |>)
  /\ same_lines (store vs) h' /\ stored circ pre post (vs <| store := h' |> <| linest := a ++ [p] ++ c |>) /\ heap_ok h'.
Proof.
  intros HS EL Ha Hb Hh. pose proof HS as [Hc Hs Hl Ht Hw].
  assert (Hlen : zlen a + zlen c = lines vs).
  { rewrite EL, !zlen_app in Hl. change (zlen [p]) with 1 in Hl. lia. }
  destruct c as [|c0 c].
  - rewrite (proj2 (Z.eqb_eq _ _)); [|change (zlen []) with 0 in Hlen; lia]. cbn [negb]. exists (store vs).
    assert (vs <| store := store vs |> <| linest := a ++ [p] ++ [] |> = vs) as -> by (rewrite app_nil_r; cbn in EL; rewrite <- EL; by destruct vs).
    split; [done|]. split; [apply same_lines_refl|]. done.
  - rewrite (proj2 (Z.eqb_neq _ _)); [|unfold zlen in *; cbn [length] in *; lia]. cbn [negb].
    destruct (lift_last_ok circ pre post vs a (c0 :: c) p HS EL Ha) as (h' & E & S & C); [done..|].
    exists h'. split; [exact E|]. split; [exact S|]. split; [|by apply (heap_ok_same_lines (store vs))].
    split; [exact C | | | | exact Hw].
    + intros q Hq. apply (sized_same_lines _ (store vs) _ _ S). apply Hs. rewrite EL. revert Hq.
      change (linest (vs <| store := h' |> <| linest := a ++ [p] ++ c0 :: c |>)) with (a ++ [p] ++ c0 :: c).
      rewrite !elem_of_app. tauto.
    + change (zlen (a ++ [p] ++ c0 :: c) = lines vs + 1). rewrite !zlen_app. change (zlen [p]) with 1. lia.
    + change (head (a ++ [p] ++ c0 :: c) = Some (scrntop vs)). rewrite EL in Ht. by destruct a.
Qed.

Lemma aged_fmap {A B} (f : A -> B) full pre r : f <$> aged full pre r = aged full (f <$> pre) (f r).
Proof. unfold aged. destruct full; [destruct pre; cbn; [done|]|]; by rewrite fmap_app. Qed.

Lemma elem_of_aged {A} full (pre : list A) r q : q ∈ aged full pre r -> q ∈ pre ++ [r].
Proof. unfold aged. destruct full; [|done]. destruct (pre ++ [r]); cbn; [done|]. set_solver. Qed.

(** The rows of the screen, and of the scrollback buffer, after the scroll. *)
Lemma scrolled_rows (g g' : Z -> option row) full pre r0 a c p post b0 :
  NoDup (aged full pre r0 ++ (a ++ [p] ++ c) ++ post) ->
  (forall q, g' q = if decide (q = p) then b0 else if decide (q ∈ pre ++ r0 :: a ++ c) then g q else g' q) ->
  g' <$> (a ++ [p] ++ c) = rows_up 0 (S (length a)) 1 (fun _ => b0) (g <$> (r0 :: a ++ c))
  /\ g' <$> aged full pre r0 = aged full (g <$> pre) (g r0).
Proof.
  intros Hnd Hg.
  assert (Hk : forall l : list Z, (forall q, q ∈ l -> q <> p /\ q ∈ pre ++ r0 :: a ++ c) -> g' <$> l = g <$> l).
  { intros l Hin. apply list_fmap_ext. intros i q Hq. apply list_elem_of_lookup_2 in Hq. destruct (Hin q Hq).
    by rewrite Hg, decide_False, decide_True. }
  assert (Hnd' : NoDup (aged full pre r0 ++ a ++ [p] ++ c)).
  { rewrite app_assoc in Hnd. by apply NoDup_app in Hnd as (? & _). }
  assert (Hp : p ∈ [p]) by apply list_elem_of_here.
  apply NoDup_app in Hnd' as (_ & N1 & Hnd'). apply NoDup_app in Hnd' as (_ & N2 & Hnd'). apply NoDup_app in Hnd' as (_ & N3 & _).
  assert (Hne : forall q, q ∈ aged full pre r0 \/ q ∈ a \/ q ∈ c -> q <> p).
  { intros q [Hq|[Hq|Hq]] ->; [apply (N1 _ Hq) | apply (N2 _ Hq) | by apply (N3 p)]; rewrite !elem_of_app; tauto. }
  split.
  - pose proof (rows_up_app (fun _ => b0) [] [g r0] (g <$> a) (g <$> c)) as E. cbn [length Nat.add app fmap list_fmap] in E.
    rewrite length_fmap in E. cbn [fmap list_fmap]. rewrite (fmap_app g a c), E, fmap_app.
    rewrite (Hk a); [f_equal; cbn [app]|].
    + rewrite fmap_cons, Hg, decide_True by done. f_equal. apply Hk. intros q Hq. split; [by apply Hne; auto|].
      rewrite elem_of_app, elem_of_cons, elem_of_app. tauto.
    + intros q Hq. split; [by apply Hne; auto|]. rewrite elem_of_app, elem_of_cons, elem_of_app. tauto.
  - rewrite <- aged_fmap. apply Hk. intros q Hq. split; [by apply Hne; auto|].
    apply elem_of_aged in Hq. revert Hq. rewrite !elem_of_app, !elem_of_cons, elem_of_app, elem_of_nil. tauto.
Qed.

(** What [VSIscroll] does, apart from drawing, when lines are saved: [full]
    tells whether the oldest saved line was lost. *)
Record scrolled (circ : bool) (pre post : list Z) (vs vs' : VSscrn) (full circ' : bool) (pre' post' : list Z) : Prop := {
  sc_stored : stored circ' pre' post' vs';
  sc_rows : rows vs' = rows_up 0 (Z.to_nat (bottom vs + 1)) 1 (fun _ => blank0 vs) (rows vs);
  sc_saved : ct (store vs') <$> pre' = aged full (ct (store vs) <$> pre) (ct (store vs) (scrntop vs));
  sc_backed : Rtop vs < bottom vs \/ bottom vs = lines vs -> backed pre' vs';
  sc_Rtop : Rtop vs' <= Rtop vs;
  sc_frame : vs' = vs <| store := store vs' |> <| numlines := numlines vs' |> <| buftop := buftop vs' |> <| drawn := drawn vs' |>
                     <| scrntop := scrntop vs' |> <| linest := linest vs' |> <| Rtop := Rtop vs' |> <| Rbottom := Rbottom vs' |>
                     <| vistop := vistop vs' |>
}.

Lemma VSIscroll_ok circ pre post vs :
  stored circ pre post vs -> backed pre vs -> 1 <= bottom vs <= lines vs -> y vs <= lines vs -> savelines vs <> 0 -> top vs = 0 ->
  exists vs' full circ' pre' post', VSIscroll vs = Done vs' /\ scrolled circ pre post vs vs' full circ' pre' post'
  /\ (can_grow circ post vs -> full = false) /\ (post = [] -> circ = true \/ maxlines vs <= numlines vs -> full = true)
  /\ (numlines vs + zlen post <= maxlines vs -> numlines vs' + zlen post' <= maxlines vs).
Proof.
  intros HS HB Hbot Hy Hsl Htop. unfold VSIscroll. rewrite (proj2 (Z.ltb_ge _ _)), (proj2 (Z.eqb_neq _ _)), Htop by lia.
  cbn [Z.eqb negb orb]. pose proof HS as [Hc Hs Hl Ht Hw].
  destruct (scroll_room_ok circ pre post vs HS HB) as (vs1 & full & circ1 & p & post1 & -> & R & Hg & Hf & Hm); [lia|].
  cbn [mbind outcome_bind]. destruct R as [RF RC RS RN RB RH RX RE RFull].
  destruct (linest vs) as [|r0 Lt] eqn:EL; [done|]. injection Ht as Ht. subst r0. cbn [tail] in *.
  set (pre1 := aged full pre (scrntop vs)) in *. set (L1 := Lt ++ [p]) in *.
  assert (Hr0 : valid (store vs) (scrntop vs)) by (apply Hc; set_solver).
  assert (Hr1 : valid (store vs1) (scrntop vs)) by (apply valid_ct; rewrite RE by done; by apply valid_ct).
  assert (Est : scrntop vs1 = scrntop vs) by by rewrite RF.
  destruct (load_valid _ _ Hr1) as (t & Et & _ & Etn & _). rewrite Est, Et. cbn [mbind outcome_bind]. rewrite Etn, RX.
  destruct (nonempty_head L1) as [ts Ets]; [by destruct Lt|]. rewrite Ets. cbn [default]. unfold id.
  set (vs2 := vs1 <| scrntop := ts |>).
  assert (Hl1 : zlen L1 = lines vs + 1) by (rewrite <- Hl; unfold L1, zlen; rewrite length_app; cbn; lia).
  assert (El : lines vs1 = lines vs) by by rewrite RF.
  assert (RC2 : chain (store vs2) circ1 (pre1 ++ L1 ++ post1)) by exact RC.
  rewrite (resync_ok circ1 pre1 L1 post1 vs2 ts RC2); [|by change (lines vs2) with (lines vs1); rewrite El | done].
  cbn [mbind outcome_bind]. set (vs3 := vs2 <| linest := L1 |>).
  destruct (scroll_display_ok full circ1 pre post1 p vs vs3 HB) as (vs4 & -> & DF & [DV1 DV2] & DR); try done.
  { by rewrite EL. }
  { by rewrite EL. }
  { by rewrite EL. }
  { change (Rtop vs3) with (Rtop vs1). by rewrite RF. }
  { change (vistop vs3) with (vistop vs1). by rewrite RF. }
  { by rewrite EL. }
  cbn [mbind outcome_bind]. change (linest vs3) with L1 in DV2. fold pre1 in DV2.
  assert (HS4 : stored circ1 pre1 post1 vs4).
  { rewrite DF. split; [exact RC | | | exact Ets | ].
    - intros q Hq. change (sized (allwidth vs1 + 1) (store vs1) q). replace (allwidth vs1) with (allwidth vs) by by rewrite RF. by apply RS.
    - change (zlen L1 = lines vs1 + 1). by rewrite El.
    - change (0 <= allwidth vs1). by rewrite RF. }
  assert (EL4 : linest vs4 = Lt ++ [p]) by by rewrite DF.
  destruct (blank_last_ok circ1 pre1 post1 Lt p vs4 HS4 EL4) as (h5 & E5 & Elast & S5 & C5 & HS5). rewrite Elast in *. cbn [mbind outcome_bind] in *.
  revert E5. destruct (set_lattr p 0 vs4) as [v5| |] eqn:Ev5; [|discriminate..]. cbn [mbind outcome_bind].
  assert (allwidth v5 = allwidth vs4) as ->.
  { unfold set_lattr in Ev5. destruct (modify _ _ _); [|discriminate..]. cbn in Ev5. by injection Ev5 as <-. }
  intros ->. cbn [mbind outcome_bind]. set (vs5 := vs4 <| store := h5 |>) in *.
  assert (Eb : bottom vs5 = bottom vs /\ lines vs5 = lines vs) by (change (bottom vs4 = bottom vs /\ lines vs4 = lines vs); rewrite DF; change (bottom vs1 = bottom vs /\ lines vs1 = lines vs); by rewrite RF).
  destruct Eb as [Eb1 Eb2].
  set (n := Z.to_nat (bottom vs)).
  assert (HlLt : length Lt = Z.to_nat (lines vs)) by (unfold zlen in Hl; cbn [length] in Hl; lia).
  set (a := take n Lt). set (c := drop n Lt). assert (Eac : Lt = a ++ c) by (symmetry; apply take_drop).
  assert (Hza : length a = n) by (unfold a; rewrite length_take; lia).
  assert (Hst : store vs4 = store vs1) by by rewrite DF.
  assert (EL5 : linest vs5 = a ++ c ++ [p]) by (change (linest vs4 = a ++ c ++ [p]); by rewrite EL4, Eac, <- app_assoc).
  destruct (end_scroll_ok circ1 pre1 post1 vs5 a c p HS5 EL5) as (h6 & E6 & S6 & HS6 & H6).
  { intros Ea. rewrite Ea in Hza. cbn in Hza. lia. }
  { rewrite Eb1. unfold zlen. lia. }
  { apply (heap_ok_same_links (store vs4)); [exact S5|]. by rewrite Hst. }
  assert (Hall : allwidth vs4 = allwidth vs) by (transitivity (allwidth vs1); [by rewrite DF | by rewrite RF]).
  assert (Hnum : numlines vs4 = numlines vs1) by by rewrite DF.
  assert (Hbuf : buftop vs4 = buftop vs1) by by rewrite DF.
  exists (vs5 <| store := h6 |> <| linest := a ++ [p] ++ c |>), full, circ1, pre1, post1. split; [exact E6|].
  assert (Hct : forall q, ct h6 q = if decide (q = p) then blank0 vs else if decide (q ∈ pre ++ scrntop vs :: a ++ c) then ct (store vs) q else ct h6 q).
  { intros q. destruct S6 as [S6 _]. assert (blank0 vs4 = blank0 vs) as Eb0 by by unfold blank0; rewrite Hall.
    destruct (decide (q = p)) as [->|Hq]; [by rewrite S6, C5, decide_True, Eb0|].
    destruct (decide (q ∈ pre ++ scrntop vs :: a ++ c)) as [Hin|]; [|done].
    rewrite S6, C5, decide_False, Hst by done. apply RE. apply Hc. rewrite <- Eac in Hin. revert Hin. rewrite !elem_of_app. tauto. }
  destruct (scrolled_rows (ct (store vs)) (ct h6) full pre (scrntop vs) a c p post1 (blank0 vs)) as [Hrows Hsaved].
  { apply HS6. }
  { exact Hct. }
  split; [|split; [exact Hg|split; [exact Hf|]]].
  - split.
    + exact HS6.
    + change (ct h6 <$> a ++ [p] ++ c = rows_up 0 (Z.to_nat (bottom vs + 1)) 1 (fun _ => blank0 vs) (rows vs)).
      unfold rows. rewrite EL, Eac. replace (Z.to_nat (bottom vs + 1)) with (S (length a)) by lia. exact Hrows.
    + exact Hsaved.
    + intros Hor. unfold pre1 in *. split.
      * change (numlines vs4 = zlen (aged full pre (scrntop vs))). by rewrite Hnum.
      * change (head (aged full pre (scrntop vs) ++ a ++ [p] ++ c) = Some (buftop vs4)). rewrite Hbuf, <- RB. unfold L1. rewrite Eac.
        destruct (aged full pre (scrntop vs)); [|done]. clearbody a. destruct a; [cbn in Hza; lia | done].
      * change (- numlines vs4 <= Rtop vs4 <= lines vs4). exact DV1.
      * change ((aged full pre (scrntop vs) ++ a ++ [p] ++ c) !! Z.to_nat (numlines vs4 + Rtop vs4) = Some (vistop vs4)).
        rewrite <- DV2. unfold L1. rewrite Eac, <- !(app_assoc a). destruct c as [|c0 c'] eqn:Ec; [by rewrite app_nil_r|].
        assert (Rtop vs < bottom vs) as Hlt.
        { destruct Hor as [?|Hbl]; [done|]. apply (f_equal length) in Ec. unfold c, n in Ec. rewrite length_drop in Ec. cbn in Ec. lia. }
        assert (Hi : (Z.to_nat (numlines vs4 + Rtop vs4) < length (aged full pre (scrntop vs) ++ a))%nat).
        { rewrite length_app. unfold zlen in RN. rewrite Hnum. change (Rtop vs3) with (Rtop vs1) in DR. lia. }
        rewrite !(app_assoc (aged full pre (scrntop vs)) a). by rewrite !(lookup_app_l (aged full pre (scrntop vs) ++ a)) by exact Hi.
      * exact H6.
    + exact DR.
    + unfold vs5. revert DF RF. clear. intros DF RF. rewrite DF. unfold vs3, vs2. rewrite RF. reflexivity.
  - intros Hm'. change (numlines vs4 + zlen post1 <= maxlines vs). rewrite Hnum. by apply Hm.
Qed.
End Scroll_one.

End Scrollback.
