(* ===== verification/Kernel.v ===== *)
(** The contract of the virtual screen kernel: an abstract terminal - rows of
    characters above which lines are saved - and the operations of [Screen]
    that move lines refine its operations, keep the invariant [wf] and return
    for every screen that satisfies it. *)
From S2P Require Import Prelude Window Translate Lines Screen Rows Scrollback.
Import Translate Lines Screen Rows Scrollback.

Module Kernel.

(** ** The invariant *)

(** A screen that saves lines: its list of lines, its scrollback buffer, a
    scrolling region of two lines or more, the cursor on the screen, and
    a visible region that begins above the bottom of the scrolling region. *)
Record wf (circ : bool) (pre post : list Z) (vs : VSscrn) : Prop := {
  wf_stored : stored circ pre post vs;
  wf_backed : backed pre vs;
  wf_region : 0 <= top vs < bottom vs /\ bottom vs <= lines vs;
  wf_cursor : 0 <= y vs <= lines vs;
  wf_view : Rtop vs < bottom vs \/ bottom vs = lines vs;
  wf_saves : savelines vs <> 0
}.

(** ** The abstract terminal *)

Record terminal := Terminal { saved : list (option row); grid : list (option row) }.

Definition abs (pre : list Z) (vs : VSscrn) : terminal := Terminal (ct (store vs) <$> pre) (rows vs).

(** Rows [s] to [e] (excluded) move up by one, row [e - 1] becomes [b]; the
    row that leaves the screen is saved when the region starts at its top,
    and the oldest saved row is lost when [full]. *)
Definition scroll_up (full : bool) (s e : nat) (b : option row) (T : terminal) : terminal :=
  Terminal (match s, grid T with O, r :: _ => aged full (saved T) r | _, _ => saved T end)
           (rows_up s e 1 (fun _ => b) (grid T)).

(** Rows move down; nothing is saved. *)
Definition scroll_down (s e n : nat) (f : option row -> option row) (T : terminal) : terminal :=
  Terminal (saved T) (rows_down s e n f (grid T)).
Definition delete_rows (s e n : nat) (f : option row -> option row) (T : terminal) : terminal :=
  Terminal (saved T) (rows_up s e n f (grid T)).

(** ** Lemmas *)

Lemma backed_frame pre vs vs' :
  backed pre vs -> numlines vs' = numlines vs -> buftop vs' = buftop vs -> linest vs' = linest vs -> Rtop vs' = Rtop vs ->
  lines vs' = lines vs -> vistop vs' = vistop vs -> store vs' = store vs -> backed pre vs'.
Proof. intros [B1 B2 B3 B4 B5] E1 E2 E3 E4 E5 E6 E7. split; congruence. Qed.

Lemma stored_frame circ pre post vs vs' :
  stored circ pre post vs -> linest vs' = linest vs -> lines vs' = lines vs -> store vs' = store vs -> allwidth vs' = allwidth vs ->
  scrntop vs' = scrntop vs -> stored circ pre post vs'.
Proof. intros [S1 S2 S3 S4 S5] E1 E2 E3 E4 E5. split; rewrite ?E1, ?E2, ?E3, ?E4, ?E5; done. Qed.

(** The scrollback buffer after lines of the screen were rearranged. *)
Lemma backed_rearranged circ pre post vs vs' L R :
  stored circ pre post vs -> backed pre vs -> rearranged circ pre post vs vs' L R -> pre <> [] \/ head L = head (linest vs) -> backed pre vs'.
Proof.
  intros HS [B1 B2 B3 B4 B5] [S EL ER EO EF EV [EB1 EB2]] Hh.
  assert (Hn : numlines vs' = numlines vs) by by rewrite EF.
  assert (Ht : Rtop vs' = Rtop vs) by by rewrite EF.
  assert (Hl : lines vs' = lines vs) by by rewrite EF.
  assert (Hb : buftop vs' = buftop vs) by by rewrite EF.
  split; rewrite ?Hn, ?Ht, ?Hl, ?Hb; [done | | done | |].
  - rewrite EL, <- B2. destruct pre; [|done]. destruct Hh as [?|Hh]; [done|]. exact Hh.
  - unfold zlen in B1. destruct (Z.leb_spec 0 (Rtop vs)).
    + rewrite lookup_app_r by lia. rewrite <- EV. f_equal. lia.
    + rewrite EV, <- B4, !lookup_app_l by lia. done.
  - destruct B5 as [H1 H2]. split; rewrite EB1; [done|]. intros p Hp. apply H2. by apply EB2.
Qed.

Lemma relined_fields vs vs' : relined vs vs' ->
  top vs' = top vs /\ bottom vs' = bottom vs /\ lines vs' = lines vs /\ y vs' = y vs /\ Rtop vs' = Rtop vs
  /\ savelines vs' = savelines vs /\ x vs' = x vs /\ allwidth vs' = allwidth vs /\ maxwidth vs' = maxwidth vs.
Proof. intros ->. done. Qed.

Lemma wf_rearranged circ pre post vs vs' L R :
  wf circ pre post vs -> rearranged circ pre post vs vs' L R -> pre <> [] \/ head L = head (linest vs) -> wf circ pre post vs'.
Proof.
  intros [W1 W2 W3 W4 W5 W6] HR Hh. pose proof (re_frame _ _ _ _ _ _ _ HR) as HF. apply relined_fields in HF as (F1 & F2 & F3 & F4 & F5 & F6 & _).
  split; rewrite ?F1, ?F2, ?F3, ?F4, ?F5, ?F6; try done; [apply HR | by apply (backed_rearranged circ pre post vs vs' L R)].
Qed.

Lemma abs_rearranged circ pre post vs vs' L R : rearranged circ pre post vs vs' L R -> abs pre vs' = Terminal (ct (store vs) <$> pre) R.
Proof.
  intros HR. unfold abs. rewrite (re_rows _ _ _ _ _ _ _ HR). f_equal. pose proof (re_others _ _ _ _ _ _ _ HR) as E.
  rewrite !fmap_app in E. apply app_inj_1 in E as [E _]; [done|]. by rewrite !length_fmap.
Qed.

Lemma rows_up_head {A} (s e n : nat) (f : A -> A) (R : list A) : (0 < s)%nat -> head (rows_up s e n f R) = head R.
Proof. intros Hs. unfold rows_up. destruct s, R; [lia.. | | done]. cbn. by rewrite take_nil, !drop_nil, take_nil. Qed.
Lemma rows_down_head {A} (s e n : nat) (f : A -> A) (R : list A) : (0 < s)%nat -> head (rows_down s e n f R) = head R.
Proof. intros Hs. unfold rows_down. destruct s, R; [lia.. | | done]. cbn. by rewrite !take_nil, !drop_nil. Qed.

Lemma wf_flush circ pre post vs : wf circ pre post vs -> wf circ pre post (VSIflush vs).
Proof.
  destruct (VSIflush_ok vs) as (k & d & ->). intros [W1 W2 W3 W4 W5 W6]. split; try done.
  - by eapply stored_frame.
  - by eapply backed_frame.
Qed.

Lemma abs_flush pre vs : abs pre (VSIflush vs) = abs pre vs.
Proof. by destruct (VSIflush_ok vs) as (k & d & ->). Qed.

Section Kernel.
Context `{MM : Memory} `{TE : TextEncodings}.

(** ** Scrolling *)

(** The line that comes in: without attributes when the screen scrolls,
    erased with the current ones when the region is only a part of it. *)
Definition scroll_blank (vs : VSscrn) : option row :=
  Some (blank_row 0 (allwidth vs + 1) (if top vs =? 0 then 0 else erased vs)).

(** The scroll of a wf screen: what becomes of the rows and of the saved ones. *)
Record scrolls (circ : bool) (pre post : list Z) (vs vs' : VSscrn) (full circ' : bool) (pre' post' : list Z) : Prop := {
  ss_wf : wf circ' pre' post' vs';
  ss_abs : abs pre' vs' = scroll_up full (Z.to_nat (top vs)) (Z.to_nat (bottom vs + 1)) (scroll_blank vs) (abs pre vs);
  ss_keeps : can_grow circ post vs -> full = false;
  ss_drops : top vs = 0 -> post = [] -> circ = true \/ maxlines vs <= numlines vs -> full = true;
  ss_bound : numlines vs + zlen post <= maxlines vs -> numlines vs' + zlen post' <= maxlines vs;
  ss_cursor : x vs' = x vs /\ y vs' = y vs
}.

Lemma rows_up_const s e n w a (R : list (option row)) : (forall r, r ∈ R -> r <> None) ->
  rows_up s e n (fmap (blanked false w a)) R = rows_up s e n (fun _ => Some (blank_row 0 w a)) R.
Proof.
  intros HR. unfold rows_up. do 3 f_equal. apply list_fmap_ext. intros i r Hr. apply list_elem_of_lookup_2 in Hr.
  destruct r as [[[la t] r]|]; [done|]. exfalso. apply (HR None); [|done].
  rewrite <- (take_drop s R). apply elem_of_app. right. eapply elem_of_take in Hr as (i' & Hi & _). by eapply list_elem_of_lookup_2.
Qed.

Lemma rows_some circ pre post vs : stored circ pre post vs -> forall r, r ∈ rows vs -> r <> None.
Proof.
  intros [_ Hs _ _ _] r Hr ->. unfold rows in Hr. apply list_elem_of_fmap in Hr as (p & E & Hp).
  destruct (Hs p) as (la & t & a & E1 & _); [rewrite !elem_of_app; auto|]. congruence.
Qed.

Lemma VSIscroll_scrolls circ pre post vs : wf circ pre post vs ->
  exists vs' full circ' pre' post', VSIscroll vs = Done vs' /\ scrolls circ pre post vs vs' full circ' pre' post'.
Proof.
  intros HW. pose proof HW as [W1 W2 W3 W4 W5 W6]. destruct (decide (top vs = 0)) as [Ht|Ht].
  - destruct (VSIscroll_ok circ pre post vs W1 W2) as (vs' & full & circ' & pre' & post' & E & [S1 S2 S3 S4 S5 S6] & Hg & Hf & Hm); [lia.. | done | done |].
    exists vs', full, circ', pre', post'. split; [exact E|].
    assert (F : top vs' = top vs /\ bottom vs' = bottom vs /\ lines vs' = lines vs /\ y vs' = y vs /\ savelines vs' = savelines vs /\ x vs' = x vs) by by rewrite S6.
    destruct F as (F1 & F2 & F3 & F4 & F5 & F6). split; try done.
    + split; rewrite ?F1, ?F2, ?F3, ?F4, ?F5; try done; [by apply S4 | lia].
    + unfold abs, scroll_up, scroll_blank. rewrite Ht, S2, S3. cbn [Z.to_nat saved grid Z.eqb]. f_equal.
      unfold rows. destruct W1 as [_ _ _ W1 _]. destruct (linest vs) as [|r0 L]; [done|]. injection W1 as ->. done.
  - destruct (VSIdellines_ok circ pre post 1 (top vs) vs W1) as (vs' & E & HR); [|lia..| |].
    { apply W2. }
    { unfold start_line. rewrite (proj2 (Z.ltb_ge _ _)) by lia. lia. }
    assert (Es : start_line (top vs) vs = top vs) by (unfold start_line; by rewrite (proj2 (Z.ltb_ge _ _)) by lia).
    assert (El : lines_held 1 (top vs) vs = 1) by (unfold lines_held; rewrite (proj2 (Z.ltb_ge _ _)) by lia; lia).
    rewrite Es, El in HR. exists vs', false, circ, pre, post. split.
    { unfold VSIscroll. rewrite (proj2 (Z.ltb_ge _ _)), (proj2 (Z.eqb_neq (top vs) 0)) by lia. cbn [negb]. by rewrite orb_true_r. }
    pose proof (re_frame _ _ _ _ _ _ _ HR) as HF. split; try done.
    + apply (wf_rearranged _ _ _ _ _ _ _ HW HR). right. apply rows_up_head. lia.
    + rewrite (abs_rearranged _ _ _ _ _ _ _ HR), rows_up_const by (by eapply rows_some). unfold scroll_up, scroll_blank, abs.
      rewrite (proj2 (Z.eqb_neq _ _)) by done. cbn [saved grid]. by destruct (Z.to_nat (top vs)) eqn:En; [lia|].
    + intros Hm. by rewrite HF.
    + by rewrite HF.
Qed.

(** ** Index and reverse index *)

Lemma default_translation_ok vs : exists s a b c,
  default_translation vs = vs <| session := s |> <| trincount := a |> <| trinx := b |> <| trintag := c |>.
Proof.
  unfold default_translation. destruct (session vs) as [tw|] eqn:E; [destruct (switchintranslation _ _ _) as [tw' []]|].
  - by exists (Some tw'), 0, 0, 0.
  - by exists (Some tw'), (trincount vs), (trinx vs), (trintag vs).
  - exists (session vs), (trincount vs), (trinx vs), (trintag vs). by destruct vs.
Qed.

(** C29. Index on a well-formed screen always returns and keeps the
    invariant. On the bottom line of the scrolling region the region scrolls by
    one row: on a screen whose region starts at its top the row that leaves is
    saved, nothing is lost while the screen can grow, the oldest saved row is
    lost when the ring is closed or no further row may be kept, and no more than [maxlines] rows are
    ever kept; elsewhere only the cursor moves, down to the last line. *)
Theorem VSIindex_refines circ pre post vs : wf circ pre post vs ->
  exists vs' full circ' pre' post', VSIindex vs = Done vs' /\ wf circ' pre' post' vs' /\ x vs' = x vs
  /\ if y vs =? bottom vs then
       y vs' = y vs
       /\ abs pre' vs' = scroll_up full (Z.to_nat (top vs)) (Z.to_nat (bottom vs + 1)) (scroll_blank vs) (abs pre vs)
       /\ (can_grow circ post vs -> full = false)
       /\ (top vs = 0 -> post = [] -> circ = true \/ maxlines vs <= numlines vs -> full = true)
       /\ (numlines vs + zlen post <= maxlines vs -> numlines vs' + zlen post' <= maxlines vs)
     else y vs' = Z.min (y vs + 1) (lines vs) /\ abs pre' vs' = abs pre vs /\ circ' = circ /\ pre' = pre /\ post' = post.
Proof.
  intros HW. unfold VSIindex.
  assert (Hwf : forall circ pre post vs1, wf circ pre post vs1 -> wf circ pre post (default_translation (vs1 <| lattrib := 0 |>))).
  { intros ? ? ? vs1 [V1 V2 V3 V4 V5 V6]. destruct (default_translation_ok (vs1 <| lattrib := 0 |>)) as (s & a & b & c & ->).
    split; try done; [by eapply stored_frame | by eapply backed_frame]. }
  destruct (Z.eqb_spec (y vs) (bottom vs)) as [Ey|Ey].
  - set (vj := if _ && _ then _ else vs).
    assert (Hj : exists k d j, vj = vs <| skip := k |> <| drawn := d |> <| linesjumped := j |>).
    { unfold vj. destruct (_ && _); [|exists (skip vs), (drawn vs), (linesjumped vs); by destruct vs]. cbv zeta.
      destruct (Z.ltb _ _); [|by exists 1, (drawn vs), (linesjumped vs + 1)].
      destruct (VSIflush_ok (vs <| skip := 1 |> <| linesjumped := linesjumped vs + 1 |>)) as (k & d & ->). by exists k, d, 0. }
    destruct Hj as (k & d & j & ->).
    destruct (VSIscroll_scrolls circ pre post (vs <| skip := k |> <| drawn := d |> <| linesjumped := j |>)) as (vs' & full & circ' & pre' & post' & -> & HS).
    { destruct HW as [V1 V2 V3 V4 V5 V6]. split; try done; [by eapply stored_frame | by eapply backed_frame]. }
    cbn [mbind outcome_bind]. pose proof (Hwf _ _ _ _ (ss_wf _ _ _ _ _ _ _ _ _ HS)) as HW'. revert HW'.
    destruct (default_translation_ok (vs' <| lattrib := 0 |>)) as (s & a & b & c & ->). intros HW'. destruct HS as [H1 H2 H3 H4 H5 [H6 H7]].
    eexists _, full, circ', pre', post'. split; [reflexivity|]. split; [exact HW'|]. split; [exact H6|].
    split; [exact H7|]. split; [exact H2|]. split; [exact H3|]. split; [exact H4 | exact H5].
  - set (vy := if _ <? _ then _ else _).
    assert (Hy : vy = Done (vs <| y := Z.min (y vs + 1) (lines vs) |>)).
    { unfold vy. destruct HW as [_ _ _ V4 _ _]. destruct (Z.ltb_spec (y vs) (lines vs)) as [Hlt|Hge]; f_equal.
      - by rewrite Z.min_l by lia.
      - rewrite Z.min_r by lia. replace (lines vs) with (y vs) by lia. by destruct vs. }
    rewrite Hy. cbn [mbind outcome_bind]. set (v1 := vs <| y := _ |>).
    assert (HW' : wf circ pre post v1).
    { destruct HW as [V1 V2 V3 V4 V5 V6]. split; try done; [by eapply stored_frame | by eapply backed_frame |].
      change (0 <= Z.min (y vs + 1) (lines vs) <= lines vs). lia. }
    apply Hwf in HW'. revert HW'. destruct (default_translation_ok (v1 <| lattrib := 0 |>)) as (s & a & b & c & ->). intros HW'.
    eexists _, false, circ, pre, post. split; [reflexivity|]. by split.
Qed.

(** ** Deleting and inserting lines *)

(** Below the scrolling region nothing is moved. *)
Lemma resync_same circ pre post (vs : VSscrn) : stored circ pre post vs -> resync (scrntop vs) vs = Done vs.
Proof. intros [Hc _ Hl Ht _]. rewrite (resync_ok circ pre (linest vs) post vs (scrntop vs)) by done. by destruct vs. Qed.

Lemma line_in circ pre post vs i : stored circ pre post vs -> 0 <= i <= lines vs ->
  exists p, line_at i vs = Done p /\ valid (store vs) p.
Proof.
  intros [Hc _ Hl _ _] Hi. destruct (lookup_lt_is_Some_2 (linest vs) (Z.to_nat i)) as [p Hp]; [unfold zlen in Hl; lia|].
  exists p. split; [rewrite <- (Z2Nat.id i) by lia; by apply line_at_ok|]. apply Hc. apply list_elem_of_lookup_2 in Hp. rewrite !elem_of_app. auto.
Qed.

Lemma lines_beyond n s vs : 1 <= n -> bottom vs < s ->
  (if bottom vs <? s + n - 1 then bottom vs - s + 1 else n) = bottom vs - s + 1.
Proof. intros Hn Hs. by rewrite (proj2 (Z.ltb_lt _ _)) by lia. Qed.

Lemma VSIdellines_beyond circ pre post n s vs :
  stored circ pre post vs -> Rtop vs <= lines vs -> 1 <= n -> 0 <= bottom vs < start_line s vs -> start_line s vs <= lines vs ->
  exists v d, VSIdellines n s vs = Done (vs <| vistop := v |> <| drawn := d |>)
  /\ if 0 <=? Rtop vs then linest vs !! Z.to_nat (Rtop vs) = Some v else v = vistop vs.
Proof.
  intros HS HR Hn Hb Hs. unfold VSIdellines. fold (start_line s vs). cbv zeta. rewrite lines_beyond by lia.
  set (s' := start_line s vs) in *. rewrite (proj2 (Z.eqb_neq s' 0)) by lia. cbn [andb].
  assert (H0 : line_at 0 vs = Done (scrntop vs)).
  { pose proof (st_scrntop _ _ _ _ HS) as Ht. destruct (linest vs) as [|r L] eqn:EL; [done|]. injection Ht as ->. by apply (line_at_app vs [] (scrntop vs) L). }
  rewrite H0. cbn [mbind outcome_bind]. destruct (line_in _ _ _ _ s' HS) as (TD & -> & _); [lia|]. cbn [mbind outcome_bind].
  replace (s' + (bottom vs - s' + 1) - 1) with (bottom vs) by lia.
  destruct (line_in _ _ _ _ (bottom vs) HS) as (TI & -> & Hv); [lia|]. cbn [mbind outcome_bind].
  destruct (load_valid _ _ Hv) as (ti & -> & _). cbn [mbind outcome_bind]. rewrite Z.eqb_refl, andb_false_r. cbn [mbind outcome_bind].
  replace (Z.to_nat (bottom vs - s' + 1)) with 0%nat by lia. cbn [blank_lines mbind outcome_bind]. rewrite store_id.
  assert (vs <| scrntop := scrntop vs |> = vs) as -> by by destruct vs. rewrite (resync_same _ _ _ _ HS). cbn [mbind outcome_bind].
  destruct (resync_vistop_ok vs (st_length _ _ _ _ HS) HR) as (v & -> & Hvis). cbn [mbind outcome_bind].
  destruct (VSIcdellines_ok s' (bottom (vs <| vistop := v |>)) (bottom vs - s' + 1) (-1) (vs <| vistop := v |>)) as [d Ed]. exists v, d. split; [|exact Hvis].
  f_equal. exact Ed.
Qed.

Lemma VSIinslines_beyond circ pre post n s vs :
  stored circ pre post vs -> Rtop vs <= lines vs -> 1 <= n -> 0 <= bottom vs < start_line s vs -> start_line s vs <= lines vs ->
  exists v d, VSIinslines n s vs = Done ((VSIflush vs) <| vistop := v |> <| drawn := d |>)
  /\ if 0 <=? Rtop vs then linest vs !! Z.to_nat (Rtop vs) = Some v else v = vistop vs.
Proof.
  intros HS0. pose proof (flush_stored _ _ _ _ HS0) as HS. clear HS0. unfold VSIinslines.
  destruct (VSIflush_ok vs) as (k & d & EF). rewrite EF in *. clear EF. set (vf := vs <| skip := k |> <| drawn := d |> <| linesjumped := 0 |>) in *.
  change (Rtop vs) with (Rtop vf). change (lines vs) with (lines vf). change (bottom vs) with (bottom vf).
  change (start_line s vs) with (start_line s vf). change (linest vs) with (linest vf). change (vistop vs) with (vistop vf).
  clearbody vf. clear vs d k. rename vf into vs.
  intros HR Hn Hb Hs. cbv zeta. fold (start_line s vs). rewrite lines_beyond by lia.
  set (s' := start_line s vs) in *. rewrite (proj2 (Z.eqb_neq s' 0)) by lia. cbn [andb].
  assert (H0 : line_at 0 vs = Done (scrntop vs)).
  { pose proof (st_scrntop _ _ _ _ HS) as Ht. destruct (linest vs) as [|r L] eqn:EL; [done|]. injection Ht as ->. by apply (line_at_app vs [] (scrntop vs) L). }
  rewrite H0. cbn [mbind outcome_bind]. destruct (line_in _ _ _ _ s' HS) as (BI & EBI & Hv); [lia|]. rewrite EBI. cbn [mbind outcome_bind].
  destruct (load_valid _ _ Hv) as (bi & -> & _). cbn [mbind outcome_bind].
  replace (bottom vs - (bottom vs - s' + 1) + 1) with s' by lia. rewrite EBI. cbn [mbind outcome_bind].
  destruct (line_in _ _ _ _ (bottom vs) HS) as (BD & -> & _); [lia|]. cbn [mbind outcome_bind]. rewrite Z.eqb_refl. cbn [negb andb mbind outcome_bind].
  replace (Z.to_nat (bottom vs - s' + 1)) with 0%nat by lia. cbn [blank_lines mbind outcome_bind]. rewrite store_id.
  assert (vs <| scrntop := scrntop vs |> = vs) as -> by by destruct vs. rewrite (resync_same _ _ _ _ HS). cbn [mbind outcome_bind].
  destruct (resync_vistop_ok vs (st_length _ _ _ _ HS) HR) as (v & -> & Hvis). cbn [mbind outcome_bind].
  destruct (VSIcinslines_ok s' (bottom (vs <| vistop := v |>)) (bottom vs - s' + 1) (-1) (vs <| vistop := v |>)) as [d Ed]. exists v, d. split; [|exact Hvis].
  f_equal. exact Ed.
Qed.

Lemma wf_vistop circ pre post vs v d :
  wf circ pre post vs -> (if 0 <=? Rtop vs then linest vs !! Z.to_nat (Rtop vs) = Some v else v = vistop vs) ->
  wf circ pre post (vs <| vistop := v |> <| drawn := d |>).
Proof.
  intros [V1 [B1 B2 B3 B4 B5] V3 V4 V5 V6] Hv. split; try done; [by eapply stored_frame|]. split; try done.
  change ((pre ++ linest vs) !! Z.to_nat (numlines vs + Rtop vs) = Some v). unfold zlen in B1. destruct (Z.leb_spec 0 (Rtop vs)).
  - rewrite lookup_app_r by lia. rewrite <- Hv. f_equal. lia.
  - by rewrite Hv.
Qed.

(** What becomes of the cursor, and of the invariant, where lines were deleted
    or inserted at [s]. The scrollback buffer is lost sight of when it is empty
    and the first line of the screen changes. *)
Definition edits (circ : bool) (pre post : list Z) (s : Z) (vs vs' : VSscrn) (T : terminal) : Prop :=
  abs pre vs' = T /\ x vs' = x vs /\ y vs' = y vs /\ (pre <> [] \/ 0 < s -> wf circ pre post vs').

(** Deleting [n] lines at [s], or at the cursor, is the deletion of
    rows of the abstract terminal: the rows below move up, no further than the
    bottom of the scrolling region, blank rows come in, nothing of the saved rows
    or of the rest of the screen changes, and below the region nothing does. *)
Theorem VSIdellines_refines circ pre post n s vs :
  wf circ pre post vs -> 1 <= n -> s <= lines vs ->
  exists vs', VSIdellines n s vs = Done vs'
  /\ edits circ pre post (start_line s vs) vs vs'
       (if start_line s vs <=? bottom vs then
          delete_rows (Z.to_nat (start_line s vs)) (Z.to_nat (bottom vs + 1)) (Z.to_nat (lines_held n (start_line s vs) vs))
            (fun _ => Some (blank_row 0 (allwidth vs + 1) (erased vs))) (abs pre vs)
        else abs pre vs).
Proof.
  intros HW Hn Hs. pose proof HW as [W1 W2 W3 W4 W5 W6].
  assert (Hs' : 0 <= start_line s vs <= lines vs) by (unfold start_line; destruct (Z.ltb_spec s 0); lia).
  destruct (Z.leb_spec (start_line s vs) (bottom vs)).
  - destruct (VSIdellines_ok circ pre post n s vs W1) as (vs' & E & HR); [apply W2 | lia..|].
    exists vs'. split; [exact E|]. split; [|split; [|split]].
    + rewrite (abs_rearranged _ _ _ _ _ _ _ HR), rows_up_const by (by eapply rows_some). done.
    + by rewrite (re_frame _ _ _ _ _ _ _ HR).
    + by rewrite (re_frame _ _ _ _ _ _ _ HR).
    + intros Hp. apply (wf_rearranged _ _ _ _ _ _ _ HW HR). destruct Hp as [?|Hp]; [by left|]. right. apply rows_up_head. lia.
  - destruct (VSIdellines_beyond circ pre post n s vs W1) as (v & d & E & Hv); [apply W2 | lia..|].
    eexists. split; [exact E|]. repeat (split; [done|]). intros _. by apply wf_vistop.
Qed.

Lemma VSIinslines_refines circ pre post n s vs :
  wf circ pre post vs -> 1 <= n -> s <= lines vs ->
  exists vs', VSIinslines n s vs = Done vs'
  /\ edits circ pre post (start_line s vs) vs vs'
       (if start_line s vs <=? bottom vs then
          scroll_down (Z.to_nat (start_line s vs)) (Z.to_nat (bottom vs + 1)) (Z.to_nat (lines_held n (start_line s vs) vs))
            (fmap (blanked true (allwidth vs + 1) (erased vs))) (abs pre vs)
        else abs pre vs).
Proof.
  intros HW Hn Hs. pose proof (wf_flush _ _ _ _ HW) as HF. pose proof HW as [W1 W2 W3 W4 W5 W6].
  assert (Hs' : 0 <= start_line s vs <= lines vs) by (unfold start_line; destruct (Z.ltb_spec s 0); lia).
  destruct (Z.leb_spec (start_line s vs) (bottom vs)).
  - destruct (VSIinslines_ok circ pre post n s vs W1) as (vs' & E & HR); [apply W2 | lia..|].
    exists vs'. split; [exact E|]. pose proof (re_frame _ _ _ _ _ _ _ HR) as HE. apply relined_fields in HE as (_ & _ & _ & Ey & _ & _ & Ex & _).
    split; [|split; [|split]].
    + rewrite (abs_rearranged _ _ _ _ _ _ _ HR). by destruct (VSIflush_ok vs) as (k & d & ->).
    + rewrite Ex. by destruct (VSIflush_ok vs) as (k & d & ->).
    + rewrite Ey. by destruct (VSIflush_ok vs) as (k & d & ->).
    + intros Hp. apply (wf_rearranged _ _ _ _ _ _ _ HF HR). destruct Hp as [?|Hp]; [by left|]. right.
      rewrite rows_down_head by lia. by destruct (VSIflush_ok vs) as (k & d & ->).
  - destruct (VSIinslines_beyond circ pre post n s vs W1) as (v & d & E & Hv); [apply W2 | lia..|].
    eexists. split; [exact E|]. split; [exact (abs_flush pre vs)|]. destruct (VSIflush_ok vs) as (k & d' & EF). rewrite EF in *.
    repeat (split; [done|]). intros _. by apply wf_vistop.
Qed.

(** Reverse index: on the first line of the scrolling region the region
    moves down by one row, the last of them is lost and a blank one comes in that
    keeps its line attribute; elsewhere the cursor moves up, and stays on the
    screen except from line 0. *)
Theorem VSIrindex_refines circ pre post vs : wf circ pre post vs ->
  exists vs', VSIrindex vs = Done vs' /\ x vs' = x vs
  /\ if y vs =? top vs then
       edits circ pre post (top vs) vs vs'
         (scroll_down (Z.to_nat (top vs)) (Z.to_nat (bottom vs + 1)) 1 (fmap (blanked true (allwidth vs + 1) (erased vs))) (abs pre vs))
     else abs pre vs' = abs pre vs /\ y vs' = y vs - 1 /\ (0 < y vs -> wf circ pre post vs').
Proof.
  intros HW. unfold VSIrindex. pose proof (wf_flush _ _ _ _ HW) as HF. pose proof (abs_flush pre vs) as HA.
  destruct (VSIflush_ok vs) as (k & d & EF). rewrite EF in *. clear EF. cbv zeta. set (vf := vs <| skip := k |> <| drawn := d |> <| linesjumped := 0 |>) in *.
  change (y vs) with (y vf). change (top vs) with (top vf). change (x vs) with (x vf). change (bottom vs) with (bottom vf).
  change (allwidth vs) with (allwidth vf). change (erased vs) with (erased vf). rewrite <- HA.
  assert (Hed : forall vs' T, edits circ pre post (top vf) vf vs' T -> edits circ pre post (top vf) vs vs' T) by done.
  clearbody vf. pose proof HF as [_ _ F3 F4 _ _]. destruct (Z.eqb_spec (y vf) (top vf)) as [E|E].
  - destruct (VSIinslines_refines circ pre post 1 (top vf) vf HF) as (vs' & -> & HE); [lia..|].
    assert (Es : start_line (top vf) vf = top vf) by (unfold start_line; by rewrite (proj2 (Z.ltb_ge _ _)) by lia).
    assert (El : lines_held 1 (top vf) vf = 1) by (unfold lines_held; rewrite (proj2 (Z.ltb_ge _ _)) by lia; lia).
    rewrite Es, El, (proj2 (Z.leb_le _ _)) in HE by lia. exists vs'. split; [done|]. split; [apply HE | by apply Hed].
  - eexists. split; [reflexivity|]. repeat (split; [done|]). intros Hy. destruct HF as [V1 V2 V3 V4 V5 V6].
    split; try done; [by eapply stored_frame | by eapply backed_frame |]. change (0 <= y vf - 1 <= lines vf). lia.
Qed.

End Kernel.

(** ** A screen to try the theorems on *)

#[export] Instance plenty : Memory := {|
  myNewPtrCritical := fun _ _ => true; myNewPtr := fun _ _ => true; leftover := fun _ _ => 0;
  usable := fun n => (n + 15) / 16 * 16; sizeof_VSline := 24; sizeof_VSscrn := 500; sizeof_pointer := 4
|}.

#[export] Instance plain_tables : TextEncodings := {|
  gTableCount := 0; transTable := fun _ b => b; DefaultTable := None; gLocalEncoding := None;
  TECCreateConverter := fun _ _ => false; TECConvertText := fun _ s _ => (0, zlen s, s); kTECPartialCharErr := -8753
|}.

Definition empty_heap : heap := mkHeap ∅ 1 ∅.

(** Five lines of four characters, at the addresses 1 to 5. *)
Definition demo_heap : heap := match VSInewlines 3 5 empty_heap with Done (_, h) => h | _ => empty_heap end.

(** One saved line, a screen of three, and one line not used yet. *)
Definition demo : VSscrn :=
  {| vtemulation := 1; vteightbits := 1; scrntop := 2; buftop := 1; vistop := 2; linest := [2; 3; 4]; lines := 2; maxlines := 2;
     numlines := 1; allwidth := 3; maxwidth := 3; savelines := 1; forcesave := 0; possibleForce := 0; ESscroll := 1; lattrib := 0;
     attrib := 0; x := 1; y := 2; Px := 0; Py := 0; Pattrib := -1; lastchar := 0; DECAWM := 0; DECCKM := 0; DECPAM := 0; DECORG := 0;
     DECCM := 1; G0 := 0; G1 := 1; charset := 0; IRM := 0; escflg := 0; top := 0; bottom := 2; Rtop := 0; Rbottom := 2; Rleft := 0;
     Rright := 3; parmptr := 0; prredirect := 0; ignoreBeeps := 0; linesjumped := 0; jumpScroll := 0; disableCursor := 0;
     parms := []; tabs := replicate 256 BLANK; escflags := 0; trincount := 0; trinx := 0; trintag := 0;
     trinbuf := [0; 0; 0; 0]; tempstr := replicate 256 0; qprint := 0; printqueued := 0; prbuf := 0; prbuf2 := 0; captureRN := 0;
     store := demo_heap; skip := 0;
     session := None; drawn := [] |}.

Lemma demo_heap_ok : heap_ok demo_heap.
Proof.
  split; [by vm_compute|]. intros p [l Hl].
  assert (HM : map_Forall (fun p (_ : VSline) => 0 < p /\ p < brk demo_heap) (cells demo_heap)).
  { apply (bool_decide_unpack _). vm_compute. exact I. }
  exact (HM p l Hl).
Qed.

Lemma demo_chain : chain demo_heap false [1; 2; 3; 4; 5].
Proof.
  split; [by apply (bool_decide_unpack _); vm_compute|]. split.
  - intros p Hp. repeat (apply elem_of_cons in Hp as [->|Hp]; [split; [done | by eexists; vm_compute]|]). by apply elem_of_nil in Hp.
  - cbn [around app links]. repeat split; intros; by vm_compute.
Qed.

Lemma demo_wf : wf false [1] [5] demo.
Proof.
  split; [| | by vm_compute | by vm_compute | by right | done].
  - split; [exact demo_chain | | done | done | by vm_compute].
    intros p Hp. repeat (apply elem_of_cons in Hp as [->|Hp]; [by do 3 eexists; split; [vm_compute; reflexivity|]|]). by apply elem_of_nil in Hp.
  - split; [done | done | by vm_compute | done | exact demo_heap_ok].
Qed.

Lemma VSIindex_refines_witness : exists vs' full circ' pre' post', VSIindex demo = Done vs' /\ wf circ' pre' post' vs' /\ x vs' = x demo
  /\ if y demo =? bottom demo then
       y vs' = y demo
       /\ abs pre' vs' = scroll_up full (Z.to_nat (top demo)) (Z.to_nat (bottom demo + 1)) (scroll_blank demo) (abs [1] demo)
       /\ (can_grow false [5] demo -> full = false)
       /\ (top demo = 0 -> [5] = [] -> false = true \/ maxlines demo <= numlines demo -> full = true)
       /\ (numlines demo + zlen [5] <= maxlines demo -> numlines vs' + zlen post' <= maxlines demo)
     else y vs' = Z.min (y demo + 1) (lines demo) /\ abs pre' vs' = abs [1] demo /\ circ' = false /\ pre' = [1] /\ post' = [5].
Proof. exact (VSIindex_refines false [1] [5] demo demo_wf). Defined.

Lemma VSIdellines_refines_witness : exists vs', VSIdellines 1 1 demo = Done vs'
  /\ edits false [1] [5] (start_line 1 demo) demo vs'
       (if start_line 1 demo <=? bottom demo then
          delete_rows (Z.to_nat (start_line 1 demo)) (Z.to_nat (bottom demo + 1)) (Z.to_nat (lines_held 1 (start_line 1 demo) demo))
            (fun _ => Some (blank_row 0 (allwidth demo + 1) (erased demo))) (abs [1] demo)
        else abs [1] demo).
Proof. apply (VSIdellines_refines false [1] [5] 1 1 demo demo_wf); by vm_compute. Defined.

Lemma VSIrindex_refines_witness : exists vs', VSIrindex demo = Done vs' /\ x vs' = x demo
  /\ if y demo =? top demo then
       edits false [1] [5] (top demo) demo vs'
         (scroll_down (Z.to_nat (top demo)) (Z.to_nat (bottom demo + 1)) 1 (fmap (blanked true (allwidth demo + 1) (erased demo))) (abs [1] demo))
     else abs [1] vs' = abs [1] demo /\ y vs' = y demo - 1 /\ (0 < y demo -> wf false [1] [5] vs').
Proof. exact (VSIrindex_refines false [1] [5] demo demo_wf). Defined.

End Kernel.
