(* ===== verification/View.v ===== *)
(** The screen as the program sees it (Screens/vsinterf.c): creating a screen,
    resizing and freeing it, and moving the visible region over the scrollback
    buffer; a new screen satisfies the invariant of [Kernel], and moving the
    view keeps it. *)
From S2P Require Import Prelude Window Lines Screen Rows Scrollback Kernel.
Import Lines Screen Rows Scrollback Kernel.

Module View.

(** ** Creating a screen *)

(** The flags of [VSnewscreen] (rsinterf.proto.h). *)
Definition RSWforcesave : Z := 0x8.
Definition RSWignoreBeeps : Z := 0x40.
Definition RSWjumpscroll : Z := 0x200.
Definition RSWvt7bit : Z := 0x800.

(** [VSscreens]: the [stat] of every screen, and [VSinuse]. *)
Record screen_table := mkTable { stats : list Z; VSinuse : Z }.

(** [while (VSIwn < VSmax && VSscreens[VSIwn].stat == 1) VSIwn++;] *)
Fixpoint free_slot (stats : list Z) : Z :=
  match stats with
  | [] => 0
  | s :: stats => if s =? 1 then 1 + free_slot stats else 0
  end.

Definition clear_line (i : Z) (vs : VSscrn) : outcome VSscrn :=
  p ← line_at i vs;
  vs ← set_lattr p 0 vs;
  blank p (allwidth vs + 1) 0 0 vs.

Definition VSIclrbuf (vs : VSscrn) : outcome VSscrn := for_lines clear_line (Z.to_nat (lines vs + 1)) 0 vs.

(** What [VSnewscreen] returns. *)
Inductive created :=
  | NoScreen (code : Z)
  | NewScreen (number : Z) (table : screen_table) (vs : VSscrn).

Section View.
Context `{Memory}.

Definition VSInewlinearray (nrlines : Z) (h : heap) : bool := myNewPtrCritical (sizeof_pointer * nrlines) h.

(** The fields [VSnewscreen] sets, in an uninitialised [vs]. *)
Definition init_screen (vtemulation0 maxlines0 screensave numLines maxwid flags : Z) (vs : VSscrn) : VSscrn :=
  vs <| vtemulation := vtemulation0 |> <| vteightbits := if Z.land flags RSWvt7bit =? 0 then 1 else 0 |>
     <| disableCursor := 0 |> <| linesjumped := 0 |> <| jumpScroll := Z.land flags RSWjumpscroll |>
     <| maxlines := maxlines0 |> <| numlines := 0 |> <| maxwidth := maxwid - 1 |> <| savelines := screensave |>
     <| forcesave := Z.land flags RSWforcesave |> <| attrib := 0 |> <| Pattrib := -1 |> <| x := 0 |> <| y := 0 |>
     <| charset := 0 |> <| trincount := 0 |> <| trinx := 0 |> <| trintag := 0 |> <| G0 := 0 |> <| G1 := 1 |>
     <| DECAWM := 0 |> <| DECCKM := 0 |> <| DECPAM := 0 |> <| DECORG := 0 |> <| DECCM := 1 |> <| IRM := 0 |>
     <| escflg := 0 |> <| top := 0 |> <| bottom := numLines |> <| parmptr := 0 |> <| Rtop := 0 |> <| Rleft := 0 |>
     <| Rright := maxwid - 1 |> <| Rbottom := numLines |> <| ESscroll := 1 |> <| prredirect := 0 |>
     <| ignoreBeeps := Z.land flags RSWignoreBeeps |> <| possibleForce := 0 |>.

(** The storage of a new screen of [numLines + 1] lines, in the list at [bt]. *)
Definition alloc_screen (numLines bt : Z) (h : heap) (vs : VSscrn) : VSscrn :=
  vs <| lines := numLines |> <| tabs := leftover 0 <$> seq 0 (Z.to_nat (usable 255)) |> <| allwidth := 255 |>
     <| store := h |> <| buftop := bt |> <| vistop := bt |> <| scrntop := bt |>.

(** From the allocation of the lines on: [None] without memory. *)
Definition setup_screen (vtemulation0 maxlines0 screensave numLines maxwid flags : Z) (junk : VSscrn) (h : heap) : outcome (option VSscrn) :=
  '(bt, h) ← VSInewlines 255 (if negb (screensave =? 0) then numLines + 1 + VSDEFLINES else numLines + 1) h;
  if bt =? 0 then Done None
  else
    let vs := alloc_screen numLines bt h junk in
    vs ← resync (scrntop vs) vs;
    vs ← (if screensave =? 0 then
            first ← line_at 0 vs;
            final ← last_line vs;
            h ← set_prev first final (store vs);
            h ← set_next final first h;
            Done (vs <| store := h |>)
          else Done vs);
    vs ← VSIclrbuf (init_screen vtemulation0 maxlines0 screensave numLines maxwid flags vs);
    vs ← VSItabinit vs;
    Done (Some vs).

(** [VSnewscreen] with [RSWoldscrollback] off. [junk] is what the block of the
    new [VSscrn] held, [h] the heap. *)
Definition VSnewscreen (vtemulation0 maxlines0 screensave numLines maxwid flags : Z)
    (t : screen_table) (junk : VSscrn) (h : heap) : outcome created :=
  let maxlines0 := if maxlines0 <? VSDEFLINES then VSDEFLINES else maxlines0 in
  let VSmax := zlen (stats t) in
  if VSmax <=? VSinuse t then Done (NoScreen (-1))
  else
    let VSIwn := free_slot (stats t) in
    if VSmax <=? VSIwn then Done (NoScreen (-1))
    else
      let numLines := numLines - 1 in
      if negb (myNewPtr sizeof_VSscrn h) then Done (NoScreen (-2))
      else if negb (VSInewlinearray (numLines + 1) h) then Done (NoScreen (-2))
      else if negb (myNewPtr 255 h) then Done (NoScreen (-2))
      else
        r ← setup_screen vtemulation0 maxlines0 screensave numLines maxwid flags junk h;
        Done (match r with
              | None => NoScreen (-2)
              | Some vs => NewScreen VSIwn (mkTable (<[Z.to_nat VSIwn := 1]> (stats t)) (VSinuse t + 1)) vs
              end).

(** ** Freeing and reallocating *)

Definition VSIfreelines (vs : VSscrn) : outcome VSscrn :=
  h ← VSIfreelinelist (buftop vs) (store vs); Done (vs <| store := h |>).

(** The storage a destroyed screen leaves. *)
Definition VSdestroy (w : Z) (t : screen_table) (vs : VSscrn) : outcome (heap * screen_table) :=
  vs ← VSIfreelines vs;
  Done (store vs, mkTable (<[Z.to_nat w := 0]> (stats t)) (VSinuse t - 1)).

(** Copies something of the lines [ps] of the screen to the list at [dst],
    which moves on as long as there is a next element. *)
Fixpoint copy_lines (f : VSline -> VSline -> VSline) (ps : list Z) (dst : Z) (h : heap) : outcome heap :=
  match ps with
  | [] => Done h
  | p :: ps =>
    l ← load p h;
    h ← modify dst (f l) h;
    d ← load dst h;
    copy_lines f ps (if negb (next d =? 0) then next d else dst) h
  end.

(** [BlockMoveData(src, dst, allwidth + 1)] *)
Definition move_data (w : Z) (src dst : bytes) : bytes := take (Z.to_nat w) src ++ drop (Z.to_nat w) dst.

Definition VSrealloc (vs : VSscrn) : outcome VSscrn :=
  '(p, h) ← VSInewlines (allwidth vs) (lines vs + 1 + VSDEFLINES) (store vs);
  if p =? 0 then Done (vs <| store := h |>)
  else
    let w := allwidth vs + 1 in
    h ← copy_lines (fun src dst => dst <| text := move_data w (text src) (text dst) |>) (linest vs) p h;
    h ← copy_lines (fun src dst => dst <| lattr := lattr src |> <| attr := move_data w (attr src) (attr dst) |>) (linest vs) p h;
    vs ← VSIfreelines (vs <| store := h |>);
    vs ← resync p (vs <| buftop := p |>);
    Done (vs <| scrntop := buftop vs |> <| vistop := buftop vs |> <| Rbottom := Rbottom vs - Rtop vs |> <| Rtop := 0 |> <| numlines := 0 |>).

(** ** Resizing *)

(** The new lines [p] of the screen take the place of the old ones in the list. *)
Definition splice_lines (old : list Z) (oldlines p : Z) (vs : VSscrn) : outcome VSscrn :=
  old_last ← arr_get old oldlines;
  l ← load old_last (store vs);
  let line := next l in
  h ← set_next old_last p (store vs);
  new_last ← last_line vs;
  h ← set_next new_last line h;
  h ← set_prev p old_last h;
  h ← (if negb (line =? 0) then set_prev line new_last h else Done h);
  Done (vs <| store := h |> <| numlines := numlines vs + oldlines |>).

(** The first line of the screen when there was no memory for new ones: everything
    is freed first, and the old number of lines is the last resort. The address
    is 0 when even that fails; the new array then holds what it happens to. *)
Definition emergency_lines (old0 oldlines : Z) (vs : VSscrn) : outcome (Z * VSscrn) :=
  vs ← VSIfreelines vs;
  h ← VSIfreelinelist old0 (store vs);
  '(p, h) ← VSInewlines (allwidth vs) (lines vs + 1) h;
  let vs := vs <| store := h |> in
  if negb (p =? 0) then Done (p, vs)
  else
    '(p, h) ← VSInewlines (allwidth vs) (oldlines + 1) (store vs);
    let vs := vs <| store := h |> in
    Done (p, if p =? 0 then vs else vs <| lines := oldlines |>).

Definition blank_text (i : Z) (vs : VSscrn) : outcome VSscrn :=
  p ← line_at i vs; blank p (allwidth vs + 1) 0 0 vs.

(** The second half of [VSsetlines]: the screen is the list at [p]; [room] is
    the length of the new array of lines. *)
Definition finish_setlines (room p : Z) (vs : VSscrn) : outcome (Z * VSscrn) :=
  if room <? lines vs + 1 then Crash OutOfBounds
  else
    vs ← resync p (vs <| scrntop := p |> <| vistop := p |>);
    vs ← (if savelines vs =? 0 then
            final ← last_line vs;
            first ← line_at 0 vs;
            h ← set_next final first (store vs);
            h ← set_prev first final h;
            Done (vs <| store := h |>)
          else Done vs);
    vs ← for_lines blank_text (Z.to_nat (lines vs + 1)) 0 vs;
    let vs := vs <| top := 0 |> <| bottom := lines vs |> <| Rtop := 0 |> <| Rbottom := lines vs |> in
    Done (lines vs, bufinfo (draw (VSredraw 0 0 (maxwidth vs) (lines vs)) vs)).

Definition VSsetlines (n : Z) (vs : VSscrn) : outcome (Z * VSscrn) :=
  let n := n - 1 in
  let oldlines := lines vs in
  if n =? oldlines then Done (0, vs)
  else
    let vs := vs <| x := 0 |> <| y := 0 |> <| vistop := scrntop vs |> in
    let old := linest vs in
    if negb (VSInewlinearray (n + 1) (store vs)) then Done (-2000, vs)
    else
      let vs := vs <| lines := n |> in
      '(p, h) ← VSInewlines (allwidth vs) (n + 1) (store vs);
      let vs := vs <| store := h |> in
      if negb (p =? 0) then
        vs ← resync p vs;
        vs ← (if negb (savelines vs =? 0) then splice_lines old oldlines p vs
              else old0 ← arr_get old 0; h ← VSIfreelinelist old0 (store vs); Done (vs <| store := h |>));
        finish_setlines (n + 1) p vs
      else
        old0 ← arr_get old 0;
        '(p, vs) ← emergency_lines old0 oldlines vs;
        if p =? 0 then Done (-4000, vs <| linest := <[0%nat := 0]> (leftover 0 <$> seq 0 (Z.to_nat (n + 1))) |>)
        else finish_setlines (n + 1) p (vs <| buftop := p |> <| numlines := 0 |>).

End View.

(** ** Moving the visible region *)

(** [while (sn-- > 0) vistop = vistop->prev], or [->next]. *)
Fixpoint walk_view (f : VSline -> Z) (n : nat) (vs : VSscrn) : outcome VSscrn :=
  match n with
  | O => Done vs
  | S n => l ← load (vistop vs) (store vs); walk_view f n (vs <| vistop := f l |>)
  end.

Definition VSscrolback (i : Z) (vs : VSscrn) : outcome VSscrn :=
  let n := if numlines vs <? i - Rtop vs then Rtop vs + numlines vs else i in
  if n <=? 0 then Done vs
  else
    vs ← walk_view prev (Z.to_nat n) (vs <| Rtop := Rtop vs - n |> <| Rbottom := Rbottom vs - n |>);
    let sn := Rbottom vs - Rtop vs in
    let vs := bufinfo vs in
    Done (if n <=? lines vs then draw (VSredraw 0 0 (maxwidth vs) (n - 1)) (draw (RSinslines 0 sn n 0) vs)
          else draw (VSredraw 0 0 (maxwidth vs) sn) vs).

Definition VSscroltop (vs : VSscrn) : outcome VSscrn := VSscrolback (Rtop vs + numlines vs) vs.

Definition VSscrolforward (n : Z) (vs : VSscrn) : outcome VSscrn :=
  let n := if lines vs - Rbottom vs <? n then lines vs - Rbottom vs else n in
  if n <=? 0 then Done vs
  else
    vs ← walk_view next (Z.to_nat n) (vs <| Rtop := n + Rtop vs |> <| Rbottom := n + Rbottom vs |>);
    let sn := Rbottom vs - Rtop vs in
    let vs := bufinfo vs in
    Done (if n <=? lines vs then draw (VSredraw 0 (sn + 1 - n) (maxwidth vs) sn) (draw (RSdellines 0 sn n 0) vs)
          else draw (VSredraw 0 0 (maxwidth vs) sn) vs).

Definition VSscrolright (n : Z) (vs : VSscrn) : VSscrn :=
  let lmmax := maxwidth vs - (Rright vs - Rleft vs) in
  let n := if lmmax <? Rleft vs + n then lmmax - Rleft vs else n in
  if n =? 0 then vs
  else
    let vs := vs <| Rleft := Rleft vs + n |> <| Rright := Rright vs + n |> in
    let sn := Rbottom vs - Rtop vs in
    draw (VSredraw (Rright vs - Rleft vs - n) 0 (Rright vs - Rleft vs) sn)
      (draw (RSdelcols n) (draw (RSmargininfo lmmax (Rleft vs)) vs)).

Definition VSscrolleft (n : Z) (vs : VSscrn) : VSscrn :=
  let lmmax := maxwidth vs - (Rright vs - Rleft vs) in
  let n := if Rleft vs <? n then Rleft vs else n in
  if n =? 0 then vs
  else
    let vs := vs <| Rleft := Rleft vs - n |> <| Rright := Rright vs - n |> in
    let sn := Rbottom vs - Rtop vs in
    draw (VSredraw 0 0 n sn) (draw (RSinscols n) (draw (RSmargininfo lmmax (Rleft vs)) vs)).

Definition VSsetrgn (x1 y1 x2 y2 : Z) (vs : VSscrn) : outcome VSscrn :=
  let vs := vs <| Rbottom := Rtop vs + (y2 - y1) |> in
  let '(x1, x2) :=
    if maxwidth vs <? x2 then
      let n := x2 - maxwidth vs in
      let n := if x1 <? n then x1 else n in
      (x1 - n, x2 - n)
    else (x1, x2) in
  let vs :=
    if negb (Rleft vs =? x1) then
      let n := x1 - Rleft vs in
      if 0 <? n then VSscrolright n vs else VSscrolleft (- n) vs
    else draw (RSmargininfo (maxwidth vs - (x2 - x1)) x1) vs in
  let vs := vs <| Rleft := x1 |> <| Rright := x2 |> in
  let n := if lines vs <? Rbottom vs then Rbottom vs - lines vs else Rtop vs - y1 in
  if negb (n =? 0) then
    if 0 <? n then VSscrolback n vs else VSscrolforward (- n) vs
  else Done (bufinfo vs).

Definition VSscrolcontrol (scrolon offtop : Z) (vs : VSscrn) : VSscrn :=
  let vs := if -1 <? scrolon then vs <| savelines := scrolon |> else vs in
  if -1 <? offtop then vs <| ESscroll := offtop |> else vs.

(** ** A new screen *)

Section NewScreen.
Context `{Memory}.

Lemma clear_line_changes vs : 0 <= allwidth vs -> changes_line clear_line (fun _ => blank_row 0 (allwidth vs + 1) 0) vs.
Proof.
  intros Hw h i p r Hp Hc Hs. unfold clear_line. change (line_at i (vs <| store := h |>)) with (line_at i vs). rewrite Hp. cbn [mbind outcome_bind].
  change (sized (allwidth (vs <| store := h |>) + 1) (store (vs <| store := h |>)) p) in Hs.
  destruct (blank_line_ok false p 0 (vs <| store := h |>) Hs) as (h' & E & S & C); [change (0 <= allwidth vs + 1); lia|].
  exists h'. split.
  { revert E. destruct (set_lattr p 0 _) as [v1| |] eqn:E1; [|discriminate..]. cbn [mbind outcome_bind].
    assert (allwidth v1 = allwidth (vs <| store := h |>)) as ->; [|done]. unfold set_lattr in E1. destruct (modify _ _ _) as [h1| |]; [|discriminate..].
    cbn in E1. by injection E1 as <-. }
  split; [exact S|]. assert (C' : forall q, ct h' q = if decide (q = p) then Some (blank_row 0 (allwidth vs + 1) 0) else ct h q).
  { intros q. rewrite C. destruct (decide (q = p)) as [->|]; [|done]. change (store (vs <| store := h |>)) with h. rewrite Hc. by destruct r as [[la t] a]. }
  split; [exact C'|]. unfold sized. rewrite C', decide_True by done. unfold blank_row. do 3 eexists. split; [done|]. rewrite !zlen_replicate. lia.
Qed.

Lemma VSIclrbuf_ok circ pre post vs : stored circ pre post vs -> 
  exists h', VSIclrbuf vs = Done (vs <| store := h' |>) /\ same_links (store vs) h' /\ stored circ pre post (vs <| store := h' |>)
  /\ ct h' <$> linest vs = replicate (Z.to_nat (lines vs + 1)) (Some (blank_row 0 (allwidth vs + 1) 0)).
Proof.
  intros HS. pose proof HS as [_ _ Hl _ Hw]. unfold VSIclrbuf.
  assert (Hn : length (linest vs) = Z.to_nat (lines vs + 1)) by (unfold zlen in Hl; lia). rewrite <- Hn.
  destruct (for_lines_rows circ pre post clear_line _ vs 0 (length (linest vs)) HS (clear_line_changes vs Hw)) as (h' & E & S & HS' & HR & _); [lia|].
  exists h'. split; [exact E|]. split; [exact S|]. split; [exact HS'|]. rewrite HR.
  assert (length (rows vs) = length (linest vs)) as <- by (unfold rows; by rewrite length_fmap). rewrite rows_mapped_all.
  pose proof (rows_some _ _ _ _ HS) as Hr. revert Hr. generalize (rows vs). clear. induction l as [|r R IH]; intros Hr; [done|].
  rewrite fmap_cons. cbn [length replicate]. f_equal.
  - destruct r; [done|]. exfalso. by apply (Hr None); [apply list_elem_of_here|].
  - apply IH. intros r' Hr'. apply Hr. by apply list_elem_of_further.
Qed.

(** The stops at the multiples of eight. *)
Lemma tab_stops_ok n : forall c t, 0 <= c -> c + 8 * Z.of_nat n <= zlen t + 7 ->
  exists t', tab_stops n c t = Done t' /\ zlen t' = zlen t
  /\ forall j : nat, (j < length t)%nat -> t' !! j = if decide (c <= Z.of_nat j < c + 8 * Z.of_nat n /\ (Z.of_nat j - c) mod 8 = 0) then Some TABSTOP else t !! j.
Proof.
  induction n as [|n IH]; intros c t Hc Hl; cbn [tab_stops].
  - exists t. split; [done|]. split; [done|]. intros j _. rewrite decide_False; [done|]. lia.
  - rewrite arr_set_Done by (unfold zlen in *; lia). cbn [mbind outcome_bind].
    destruct (IH (c + 8) (<[Z.to_nat c := TABSTOP]> t)) as (t' & -> & Hz & Hj); [lia | rewrite zlen_insert; lia |].
    exists t'. split; [done|]. split; [by rewrite Hz, zlen_insert|]. intros j Hlt. rewrite Hj by by rewrite length_insert.
    assert (Hmod : (Z.of_nat j - c) mod 8 = (Z.of_nat j - (c + 8)) mod 8).
    { replace (Z.of_nat j - c) with (Z.of_nat j - (c + 8) + 1 * 8) by lia. apply Z.mod_add. lia. }
    destruct (decide (j = Z.to_nat c)) as [->|Hne].
    + rewrite decide_False by lia. rewrite decide_True; [by apply list_lookup_insert_eq|].
      rewrite Z2Nat.id by lia. rewrite Z.sub_diag. split; [lia | done].
    + rewrite list_lookup_insert_ne by done.
      destruct (decide _) as [Hd|Hd]; [rewrite decide_True; [done|]; rewrite Hmod; lia|].
      rewrite decide_False; [done|]. intros [[H1 H2] H3]. apply Hd. rewrite <- Hmod. split; [|done]. split; [|lia].
      assert (Z.of_nat j - c <> 0) by lia. destruct (Z.eq_dec (Z.of_nat j - c) ((Z.of_nat j - c) mod 8)) as [|Hx]; [lia|].
      rewrite Z.mod_eq in H3, Hx by lia. lia.
Qed.

Lemma VSItabinit_ok vs : 0 <= allwidth vs -> allwidth vs + 1 <= zlen (tabs vs) ->
  exists t, VSItabinit vs = Done (vs <| tabs := t |>)
  /\ forall j : nat, Z.of_nat j <= allwidth vs ->
     t !! j = Some (if (Z.of_nat j mod 8 =? 0) || (Z.of_nat j =? allwidth vs) then TABSTOP else BLANK).
Proof.
  intros Hw Hl. unfold VSItabinit, VSItabclear. rewrite fill_ok by lia. cbn [mbind outcome_bind]. rewrite Z2Nat.id by lia.
  set (t0 := filled _ _ _ _). change (tabs (vs <| tabs := t0 |>)) with t0. change (allwidth (vs <| tabs := t0 |>)) with (allwidth vs).
  assert (Hz0 : zlen t0 = zlen (tabs vs)) by (apply zlen_filled; lia).
  assert (Hdiv : 0 <= allwidth vs / 8 /\ 8 * (allwidth vs / 8) <= allwidth vs < 8 * (allwidth vs / 8) + 8).
  { pose proof (Z.div_mod (allwidth vs) 8). pose proof (Z.mod_pos_bound (allwidth vs) 8). pose proof (Z.div_pos (allwidth vs) 8). lia. }
  destruct (tab_stops_ok (Z.to_nat (allwidth vs / 8 + 1)) 0 t0) as (t1 & -> & Hz1 & Hj); [lia | rewrite Z2Nat.id by lia; lia |]. cbn [mbind outcome_bind].
  rewrite arr_set_Done by (unfold zlen in *; lia). cbn [mbind outcome_bind]. eexists. split; [reflexivity|].
  intros j Hjw. assert (Hjl : (j < length t0)%nat) by (unfold zlen in *; lia).
  destruct (decide (Z.of_nat j = allwidth vs)) as [E|E].
  - rewrite E, Z.eqb_refl, orb_true_r. rewrite <- E, Nat2Z.id. apply list_lookup_insert_eq. unfold zlen in *. lia.
  - rewrite (proj2 (Z.eqb_neq _ _) E), orb_false_r, list_lookup_insert_ne by lia. rewrite Hj by done. rewrite Z.sub_0_r, Z.add_0_l, Z2Nat.id by lia.
    destruct (Z.eqb_spec (Z.of_nat j mod 8) 0) as [Em|Em].
    + rewrite decide_True; [done|]. split; [lia | done].
    + rewrite decide_False by tauto. unfold t0, filled. change (Z.to_nat 0) with 0%nat. rewrite take_0. cbn [app]. rewrite lookup_app_l by (rewrite length_replicate; lia).
      apply lookup_replicate_2. lia.
Qed.

Lemma VSItabinit_eq vs : VSItabinit vs =
  (vs ← (t ← fill (Z.to_nat (allwidth vs + 1)) 0 BLANK (tabs vs); Done (vs <| tabs := t |>));
   t ← tab_stops (Z.to_nat (allwidth vs / 8 + 1)) 0 (tabs vs);
   t ← arr_set (allwidth vs) TABSTOP t;
   Done (vs <| tabs := t |>)).
Proof. done. Qed.

(** The tab stops are written one byte beyond a block of 255 bytes. *)
Lemma fill_overrun n : forall i v l, 0 <= i -> zlen l < i + Z.of_nat n -> i <= zlen l -> fill n i v l = Crash OutOfBounds.
Proof.
  induction n as [|n IH]; intros i v l Hi Hl Hb; [lia|]. cbn [fill]. destruct (decide (i < zlen l)) as [Hlt|Hge].
  - rewrite arr_set_Done by (unfold zlen in *; lia). cbn [mbind outcome_bind]. apply IH; rewrite ?zlen_insert; lia.
  - assert (arr_set i v l = Crash OutOfBounds) as ->; [|done]. unfold arr_set. unfold zlen in *.
    rewrite (proj2 (Z.ltb_ge i _)) by lia. by rewrite andb_false_r.
Qed.

Lemma free_slot_ok l : 0 <= free_slot l <= zlen l /\ (free_slot l < zlen l -> exists s, l !! Z.to_nat (free_slot l) = Some s /\ s <> 1).
Proof.
  induction l as [|s l [IH1 IH2]]; cbn [free_slot]; [change (zlen (@nil Z)) with 0; split; lia|]. rewrite zlen_cons. pose proof (zlen_nonneg l).
  destruct (Z.eqb_spec s 1) as [E|E].
  - split; [lia|]. intros Hlt. destruct IH2 as (s' & Hs & Hn); [lia|]. exists s'. split; [|done].
    replace (Z.to_nat (1 + free_slot l)) with (S (Z.to_nat (free_slot l))) by lia. exact Hs.
  - split; [lia|]. intros _. by exists s.
Qed.

Lemma VSInewlines_served w n h : heap_ok h -> (forall m, myNewPtrCritical m h = true) -> 0 < n -> VSInewlines w n h <> Done (0, h).
Proof.
  intros [Hb _] Hc Hn. unfold VSInewlines. rewrite Hc, (proj2 (Z.leb_gt n 0)) by lia. intros E.
  assert (E0 : brk h = 0) by congruence. lia.
Qed.

(** There is memory, and a slot for a new screen. *)
Record ample (nl : Z) (t : screen_table) (h : heap) : Prop := {
  am_heap : heap_ok h;
  am_critical : forall n h, myNewPtrCritical n h = true;
  am_memory : forall n h, myNewPtr n h = true;
  am_lines : 2 <= nl;
  am_table : VSinuse t < zlen (stats t) /\ free_slot (stats t) < zlen (stats t)
}.

Definition taken (t : screen_table) : screen_table :=
  mkTable (<[Z.to_nat (free_slot (stats t)) := 1]> (stats t)) (VSinuse t + 1).

Lemma VSnewscreen_setup em ml ss nl mw fl t junk h : ample nl t h ->
  VSnewscreen em ml ss nl mw fl t junk h =
  (r ← setup_screen em (if ml <? VSDEFLINES then VSDEFLINES else ml) ss (nl - 1) mw fl junk h;
   Done (match r with None => NoScreen (-2) | Some vs => NewScreen (free_slot (stats t)) (taken t) vs end)).
Proof.
  intros [Hh Hc Hm Hn [Ht1 Ht2]]. unfold VSnewscreen, VSInewlinearray.
  by rewrite (proj2 (Z.leb_gt _ _)), (proj2 (Z.leb_gt _ _)), !Hm, Hc by done.
Qed.

Lemma alloc_screen_fields n bt h vs :
  lines (alloc_screen n bt h vs) = n /\ tabs (alloc_screen n bt h vs) = leftover 0 <$> seq 0 (Z.to_nat (usable 255))
  /\ allwidth (alloc_screen n bt h vs) = 255 /\ store (alloc_screen n bt h vs) = h /\ buftop (alloc_screen n bt h vs) = bt
  /\ vistop (alloc_screen n bt h vs) = bt /\ scrntop (alloc_screen n bt h vs) = bt.
Proof. done. Qed.

Lemma init_screen_fields em ml ss n mw fl vs (vs' := init_screen em ml ss n mw fl vs) :
  (linest vs' = linest vs /\ lines vs' = lines vs /\ allwidth vs' = allwidth vs /\ top vs' = 0 /\ bottom vs' = n /\ x vs' = 0 /\ y vs' = 0)
  /\ (Rtop vs' = 0 /\ numlines vs' = 0 /\ buftop vs' = buftop vs /\ vistop vs' = vistop vs /\ savelines vs' = ss /\ store vs' = store vs
      /\ scrntop vs' = scrntop vs)
  /\ tabs vs' = tabs vs /\ maxlines vs' = ml.
Proof. done. Qed.

Lemma Done_bind {A B} (a : A) (f : A -> outcome B) : (Done a ≫= f) = f a.
Proof. done. Qed.

#[local] Opaque VSInewlines alloc_screen init_screen resync VSIclrbuf VSItabinit.

(** The screen before its tab stops are set. *)
Lemma setup_screen_ready em ml ss nl mw fl junk h :
  heap_ok h -> (forall n h, myNewPtrCritical n h = true) -> 2 <= nl -> ss <> 0 -> VSDEFLINES <= ml ->
  exists vs post,
  setup_screen em ml ss (nl - 1) mw fl junk h = (vs ← VSItabinit vs; Done (Some vs))
  /\ wf false [] post vs /\ abs [] vs = Terminal [] (replicate (Z.to_nat nl) (Some (blank_row 0 256 0)))
  /\ allwidth vs = 255 /\ zlen (tabs vs) = Z.max 0 (usable 255) /\ lines vs = nl - 1
  /\ x vs = 0 /\ y vs = 0 /\ numlines vs + zlen post <= maxlines vs.
Proof.
  intros Hh Hc Hn Hs Hml. unfold setup_screen.
  assert (HN : 0 < nl - 1 + 1 + VSDEFLINES) by (unfold VSDEFLINES; lia). assert (H255 : 0 <= 255) by lia.
  assert (EA : (if negb (ss =? 0) then nl - 1 + 1 + VSDEFLINES else nl - 1 + 1) = nl - 1 + 1 + VSDEFLINES).
  { by rewrite (proj2 (Z.eqb_neq ss 0)) by done. }
  rewrite EA. clear EA.
  pose proof (VSInewlines_ok 255 (nl - 1 + 1 + VSDEFLINES) h Hh H255 HN) as HX.
  pose proof (VSInewlines_served 255 (nl - 1 + 1 + VSDEFLINES) h Hh (fun m => Hc m h) HN) as HX'.
  destruct HX as [HX|HX]; [by exfalso; apply HX'|]. clear HX'.
  destruct HX as (h1 & p & L & -> & Hp & HL & Hch & _ & Hsz & _ & Hh1).
  rewrite !Done_bind. rewrite (proj2 (Z.eqb_neq p 0)), (proj2 (Z.eqb_neq ss 0)) by done.
  set (k := Z.to_nat nl). set (scr := take k (p :: L)). set (post := drop k (p :: L)).
  assert (EL : p :: L = [] ++ scr ++ post) by (symmetry; apply take_drop).
  assert (Hk : zlen scr = nl /\ zlen post = VSDEFLINES).
  { unfold scr, post, zlen in *. rewrite length_take, length_drop. unfold VSDEFLINES in *. lia. }
  assert (Hhd : head scr = Some p) by (unfold scr, k; destruct (Z.to_nat nl) eqn:En; [lia | done]).
  pose proof (alloc_screen_fields (nl - 1) p h1 junk) as (A1 & A2 & A3 & A4 & A5 & A6 & A7). revert A1 A2 A3 A4 A5 A6 A7.
  generalize (alloc_screen (nl - 1) p h1 junk). intros vs0 A1 A2 A3 A4 A5 A6 A7.
  rewrite EL, <- A4 in Hch. rewrite (resync_ok false [] scr post vs0 (scrntop vs0) Hch) by (rewrite ?A7, ?A1; try exact Hhd; lia).
  rewrite !Done_bind.
  pose proof (init_screen_fields em ml ss (nl - 1) mw fl (vs0 <| linest := scr |>)) as HI. revert HI.
  generalize (init_screen em ml ss (nl - 1) mw fl (vs0 <| linest := scr |>)).
  intros vs1 ((F1 & F2 & F3 & F4 & F5 & F6 & F7) & (F8 & F9 & F10 & F11 & F12 & F13 & F16) & F14 & F15).
  change (linest (vs0 <| linest := scr |>)) with scr in F1. change (lines (vs0 <| linest := scr |>)) with (lines vs0) in F2.
  change (allwidth (vs0 <| linest := scr |>)) with (allwidth vs0) in F3. change (buftop (vs0 <| linest := scr |>)) with (buftop vs0) in F10.
  change (vistop (vs0 <| linest := scr |>)) with (vistop vs0) in F11. change (store (vs0 <| linest := scr |>)) with (store vs0) in F13.
  change (tabs (vs0 <| linest := scr |>)) with (tabs vs0) in F14. change (scrntop (vs0 <| linest := scr |>)) with (scrntop vs0) in F16.
  rewrite A1 in F2. rewrite A2 in F14. rewrite A3 in F3. rewrite A4 in F13, Hch. rewrite A5 in F10. rewrite A6 in F11. rewrite A7 in F16.
  clear A1 A2 A3 A4 A5 A6 A7 vs0.
  assert (HS1 : stored false [] post vs1).
  { split; rewrite ?F1, ?F2, ?F3, ?F13, ?F16; [exact Hch | | lia | exact Hhd | lia].
    intros q Hq. apply Hsz. rewrite EL. exact Hq. }
  destruct (VSIclrbuf_ok false [] post vs1 HS1) as (h2 & -> & S2 & HS2 & HR). rewrite !Done_bind.
  rewrite F1, F2, F3 in HR. rewrite F13 in S2. replace (nl - 1 + 1) with nl in HR by lia.
  exists (vs1 <| store := h2 |>), post. split; [done|]. split; [|split; [|split; [exact F3|split; [|split; [exact F2|split; [exact F6|split; [exact F7|]]]]]]].
  - split; [exact HS2 | | change (0 <= top vs1 < bottom vs1 /\ bottom vs1 <= lines vs1); lia | change (0 <= y vs1 <= lines vs1); lia
      | right; change (bottom vs1 = lines vs1); lia | change (savelines vs1 <> 0); lia].
    split; [exact F9 | change (head (linest vs1) = Some (buftop vs1)); by rewrite F1, F10 | change (- numlines vs1 <= Rtop vs1 <= lines vs1); lia
      | | apply (heap_ok_same_links h1); [exact S2 | exact Hh1]].
    change (linest vs1 !! Z.to_nat (numlines vs1 + Rtop vs1) = Some (vistop vs1)). rewrite F1, F8, F9, F11. by rewrite <- head_lookup.
  - change (Terminal [] (ct h2 <$> linest vs1) = Terminal [] (replicate (Z.to_nat nl) (Some (blank_row 0 256 0)))). by rewrite F1, HR.
  - change (zlen (tabs vs1) = Z.max 0 (usable 255)). rewrite F14. unfold zlen. rewrite length_fmap, length_seq. lia.
  - change (numlines vs1 + zlen post <= maxlines vs1). rewrite F9, F15. lia.
Qed.

Lemma defmax ml : VSDEFLINES <= (if ml <? VSDEFLINES then VSDEFLINES else ml).
Proof. destruct (Z.ltb_spec ml VSDEFLINES); lia. Qed.

Lemma wf_tabs circ pre post vs t : wf circ pre post vs -> wf circ pre post (vs <| tabs := t |>).
Proof. intros [V1 V2 V3 V4 V5 V6]. split; try done; [by eapply stored_frame | by eapply backed_frame]. Qed.

(** The block of the tab stops is as long as it really is, the loop as long as
    the screen is wide. *)
Lemma VSnewscreen_overruns em ml ss nl mw fl t junk h :
  ample nl t h -> ss <> 0 -> usable 255 < 256 -> VSnewscreen em ml ss nl mw fl t junk h = Crash OutOfBounds.
Proof.
  intros HA Hs Hu. rewrite VSnewscreen_setup by done. destruct HA as [Hh Hc Hm Hn [Ht1 Ht2]].
  destruct (setup_screen_ready em _ ss nl mw fl junk h Hh Hc Hn Hs (defmax ml)) as (vs & post & -> & _ & _ & Hw & Ht & _).
  assert (VSItabinit vs = Crash OutOfBounds) as ->; [|done].
  rewrite VSItabinit_eq, fill_overrun; [done | lia | rewrite Hw, Ht; lia | lia].
Qed.

Lemma VSnewscreen_ready em ml ss nl mw fl t junk h :
  ample nl t h -> ss <> 0 -> 256 <= usable 255 ->
  exists vs post,
  VSnewscreen em ml ss nl mw fl t junk h = Done (NewScreen (free_slot (stats t)) (taken t) vs)
  /\ stats t !! Z.to_nat (free_slot (stats t)) <> Some 1
  /\ wf false [] post vs /\ abs [] vs = Terminal [] (replicate (Z.to_nat nl) (Some (blank_row 0 256 0)))
  /\ x vs = 0 /\ y vs = 0 /\ numlines vs + zlen post <= maxlines vs
  /\ forall j : nat, Z.of_nat j <= 255 -> tabs vs !! j = Some (if (Z.of_nat j mod 8 =? 0) || (Z.of_nat j =? 255) then TABSTOP else BLANK).
Proof.
  intros HA Hs Hu. rewrite VSnewscreen_setup by done. destruct HA as [Hh Hc Hm Hn [Ht1 Ht2]].
  destruct (setup_screen_ready em _ ss nl mw fl junk h Hh Hc Hn Hs (defmax ml)) as (vs & post & -> & HW & HA & Hw & Ht & Hl & Hx & Hy & Hb).
  destruct (VSItabinit_ok vs) as (tb & -> & Htb); [lia..|]. rewrite !Done_bind.
  exists (vs <| tabs := tb |>), post. split; [done|]. split.
  { destruct (free_slot_ok (stats t)) as [_ Hf]. destruct (Hf Ht2) as (s & -> & Hne). congruence. }
  split; [by apply wf_tabs|]. split; [exact HA|]. split; [exact Hx|]. split; [exact Hy|]. split; [exact Hb|].
  intros j Hj. rewrite Hw in Htb. by apply Htb.
Qed.

(** C28. The creation of a screen of two lines or more that saves lines, with
    memory to be had and a free slot. The program asks for 255 bytes for the
    tab stops and writes 256. Where the memory manager's block has a byte more
    than was asked for, the screen is created in a slot that was not in use;
    it satisfies the invariant of the kernel with nothing saved, all its rows
    are blank, the cursor is home, and there is a tab stop at every eighth
    column and at the last one. Where the block has not, the program writes
    past it. *)
Theorem VSnewscreen_ok em ml ss nl mw fl t junk h :
  ample nl t h -> ss <> 0 ->
  if decide (256 <= usable 255) then
    exists vs post,
    VSnewscreen em ml ss nl mw fl t junk h = Done (NewScreen (free_slot (stats t)) (taken t) vs)
    /\ stats t !! Z.to_nat (free_slot (stats t)) <> Some 1
    /\ wf false [] post vs /\ abs [] vs = Terminal [] (replicate (Z.to_nat nl) (Some (blank_row 0 256 0)))
    /\ x vs = 0 /\ y vs = 0 /\ numlines vs + zlen post <= maxlines vs
    /\ forall j : nat, Z.of_nat j <= 255 -> tabs vs !! j = Some (if (Z.of_nat j mod 8 =? 0) || (Z.of_nat j =? 255) then TABSTOP else BLANK)
  else VSnewscreen em ml ss nl mw fl t junk h = Crash OutOfBounds.
Proof.
  intros HA Hs. destruct (decide _) as [Hu|Hu]; [by apply VSnewscreen_ready | apply VSnewscreen_overruns; [done..|lia]].
Qed.

End NewScreen.

(** ** Moving the view *)

Section Moving.

Lemma view_prev h circ1 (W2 post1 : list Z) i x y :
  chain h circ1 (W2 ++ post1) -> W2 !! i = Some x -> W2 !! S i = Some y -> pv h y = x.
Proof.
  intros Hc Hx Hy. apply list_elem_of_split_length in Hy as (A & B & -> & EA).
  destruct (nonempty_last A) as [z Ez]; [intros ->; cbn in EA; lia|]. pose proof Ez as Ez'. apply last_snoc_split in Ez' as [A' EA'].
  assert (z = x) as ->.
  { rewrite EA' in Hx, EA. rewrite length_app in EA. cbn in EA. rewrite <- app_assoc, lookup_app_r in Hx by lia.
    replace (i - length A')%nat with 0%nat in Hx by lia. by injection Hx. }
  rewrite <- app_assoc in Hc. rewrite (chain_prev_of _ _ _ _ Hc y) by done. by rewrite Ez.
Qed.

Section Walk.
Variables (circ : bool) (W post : list Z) (vs : VSscrn).
Hypothesis Hc : chain (store vs) circ (W ++ post).

Lemma walk_valid i p : W !! i = Some p -> valid (store vs) p.
Proof. intros Hp. apply Hc. apply list_elem_of_lookup_2 in Hp. apply elem_of_app. by left. Qed.

Lemma walk_next n : forall i p q, W !! i = Some p -> W !! (i + n)%nat = Some q ->
  walk_view next n (vs <| vistop := p |>) = Done (vs <| vistop := q |>).
Proof.
  induction n as [|n IH]; intros i p q Hp Hq; cbn [walk_view].
  - rewrite Nat.add_0_r, Hp in Hq. by injection Hq as ->.
  - destruct (lookup_lt_is_Some_2 W (S i)) as [r Hr]; [apply lookup_lt_Some in Hq; lia|].
    destruct (load_valid _ _ (walk_valid i p Hp)) as (l & El & _ & En & _).
    change (vistop (vs <| vistop := p |>)) with p. change (store (vs <| vistop := p |>)) with (store vs). rewrite El. cbn [mbind outcome_bind].
    rewrite En, (view_next _ _ _ _ _ _ _ Hc Hp Hr). apply (IH (S i)); [done|]. by replace (S i + n)%nat with (i + S n)%nat by lia.
Qed.

Lemma walk_prev n : forall i p q, W !! (i + n)%nat = Some p -> W !! i = Some q ->
  walk_view prev n (vs <| vistop := p |>) = Done (vs <| vistop := q |>).
Proof.
  induction n as [|n IH]; intros i p q Hp Hq; cbn [walk_view].
  - rewrite Nat.add_0_r, Hq in Hp. by injection Hp as ->.
  - destruct (lookup_lt_is_Some_2 W (i + n)%nat) as [r Hr]; [apply lookup_lt_Some in Hp; lia|].
    replace (i + S n)%nat with (S (i + n)) in Hp by lia.
    destruct (load_valid _ _ (walk_valid _ p Hp)) as (l & El & _ & _ & Ep).
    change (vistop (vs <| vistop := p |>)) with p. change (store (vs <| vistop := p |>)) with (store vs). rewrite El. cbn [mbind outcome_bind].
    rewrite Ep, (view_prev _ _ _ _ _ _ _ Hc Hr Hp). by apply (IH i).
Qed.
End Walk.

(** The view of a well-formed screen can be moved by [d] lines in its list. *)
Lemma moved_view circ pre post vs d : wf circ pre post vs -> - numlines vs <= Rtop vs + d <= lines vs ->
  exists v, (pre ++ linest vs) !! Z.to_nat (numlines vs + (Rtop vs + d)) = Some v
  /\ (forall vs1, store vs1 = store vs -> vistop vs1 = vistop vs ->
        walk_view (if 0 <=? d then next else prev) (Z.to_nat (Z.abs d)) vs1 = Done (vs1 <| vistop := v |>)).
Proof.
  intros [W1 W2 W3 W4 W5 W6] Hd. pose proof W1 as [S1 S2 S3 S4 S5]. pose proof W2 as [B1 B2 B3 B4 B5].
  destruct (lookup_lt_is_Some_2 (pre ++ linest vs) (Z.to_nat (numlines vs + (Rtop vs + d)))) as [v Hv].
  { rewrite length_app. unfold zlen in *. lia. }
  exists v. split; [done|]. intros vs1 E1 E2.
  assert (Hc : chain (store vs1) circ ((pre ++ linest vs) ++ post)) by (rewrite E1, <- app_assoc; exact S1).
  assert (Ev : vs1 <| vistop := vistop vs |> = vs1) by (rewrite <- E2; by destruct vs1).
  rewrite <- Ev at 1. destruct (Z.leb_spec 0 d).
  - apply (walk_next circ (pre ++ linest vs) post vs1 Hc _ _ _ _ B4). rewrite <- Hv. f_equal. lia.
  - apply (walk_prev circ (pre ++ linest vs) post vs1 Hc _ (Z.to_nat (numlines vs + (Rtop vs + d)))); [|exact Hv].
    rewrite <- B4. f_equal. lia.
Qed.

Lemma wf_moved circ pre post vs d v b dr :
  wf circ pre post vs -> - numlines vs <= Rtop vs + d <= lines vs -> (Rtop vs + d < bottom vs \/ bottom vs = lines vs) ->
  (pre ++ linest vs) !! Z.to_nat (numlines vs + (Rtop vs + d)) = Some v ->
  wf circ pre post (vs <| Rtop := Rtop vs + d |> <| Rbottom := b |> <| vistop := v |> <| drawn := dr |>).
Proof.
  intros [V1 V2 V3 V4 V5 V6] Hd Hv HW. split; try done; [by eapply stored_frame|]. destruct V2 as [B1 B2 B3 B4 B5]. by split.
Qed.

Lemma redrawn (b : bool) d1 d2 d3 V : exists dr, (if b then draw d1 (draw d2 (bufinfo V)) else draw d3 (bufinfo V)) = V <| drawn := dr |>.
Proof. destruct b; eexists; reflexivity. Qed.

(** [VSscrolback] moves the view up, as far as lines are saved. *)
Lemma VSscrolback_ok circ pre post i vs : wf circ pre post vs ->
  exists n vs', VSscrolback i vs = Done vs' /\ n = Z.max 0 (Z.min i (Rtop vs + numlines vs))
  /\ (exists v dr, vs' = vs <| Rtop := Rtop vs + - n |> <| Rbottom := Rbottom vs - n |> <| vistop := v |> <| drawn := dr |>)
  /\ wf circ pre post vs'.
Proof.
  intros HW. set (n := Z.max 0 (Z.min i (Rtop vs + numlines vs))). exists n. unfold VSscrolback.
  set (n0 := if _ <? _ then _ else i). assert (En : n0 = Z.min i (Rtop vs + numlines vs)) by (unfold n0; destruct (Z.ltb_spec (numlines vs) (i - Rtop vs)); lia).
  pose proof (bk_Rtop _ _ (wf_backed _ _ _ _ HW)) as HR. cbv zeta. destruct (Z.leb_spec n0 0) as [H0|H0].
  - exists vs. assert (n = 0) as -> by lia. split; [done|]. split; [done|]. split; [|done].
    exists (vistop vs), (drawn vs). rewrite Z.add_0_r, Z.sub_0_r. by destruct vs.
  - assert (n0 = n) as -> by lia. destruct (moved_view circ pre post vs (- n) HW) as (v & Hv & Hwalk); [lia|].
    rewrite (proj2 (Z.leb_gt 0 (- n))) in Hwalk by lia. rewrite Z.abs_opp, Z.abs_eq in Hwalk by lia. rewrite Hwalk by done.
    rewrite Done_bind. match goal with |- context [if ?b then draw ?d1 (draw ?d2 (bufinfo ?V)) else draw ?d3 _] => destruct (redrawn b d1 d2 d3 V) as [dr ->] end.
    eexists. split; [reflexivity|]. split; [done|]. split; [by exists v, dr|].
    pose proof (wf_view _ _ _ _ HW) as HV. apply (wf_moved circ pre post vs (- n) v (Rbottom vs - n)); try done; lia.
Qed.

(** [VSscrolforward] moves it down, as far as the screen goes. *)
Lemma VSscrolforward_ok circ pre post i vs : wf circ pre post vs -> Rtop vs <= Rbottom vs ->
  exists n vs', VSscrolforward i vs = Done vs' /\ n = Z.max 0 (Z.min i (lines vs - Rbottom vs))
  /\ (exists v dr, vs' = vs <| Rtop := Rtop vs + n |> <| Rbottom := n + Rbottom vs |> <| vistop := v |> <| drawn := dr |>)
  /\ (Rtop vs + n < bottom vs \/ bottom vs = lines vs -> wf circ pre post vs').
Proof.
  intros HW Hrb. set (n := Z.max 0 (Z.min i (lines vs - Rbottom vs))). exists n. unfold VSscrolforward.
  set (n0 := if _ <? _ then _ else i). assert (En : n0 = Z.min i (lines vs - Rbottom vs)) by (unfold n0; destruct (Z.ltb_spec (lines vs - Rbottom vs) i); lia).
  pose proof (bk_Rtop _ _ (wf_backed _ _ _ _ HW)) as HR. cbv zeta. destruct (Z.leb_spec n0 0) as [H0|H0].
  - exists vs. assert (n = 0) as -> by lia. split; [done|]. split; [done|]. split; [|done].
    exists (vistop vs), (drawn vs). rewrite Z.add_0_r, Z.add_0_l. by destruct vs.
  - assert (n0 = n) as -> by lia. destruct (moved_view circ pre post vs n HW) as (v & Hv & Hwalk); [lia|].
    rewrite (proj2 (Z.leb_le 0 n)) in Hwalk by lia. rewrite Z.abs_eq in Hwalk by lia. rewrite Hwalk by done.
    rewrite Done_bind, (Z.add_comm n (Rtop vs)). match goal with |- context [if ?b then draw ?d1 (draw ?d2 (bufinfo ?V)) else draw ?d3 _] => destruct (redrawn b d1 d2 d3 V) as [dr ->] end.
    eexists. split; [reflexivity|]. split; [done|]. split; [by exists v, dr|].
    intros HV. apply (wf_moved circ pre post vs n v (n + Rbottom vs)); try done; lia.
Qed.

(** C30. Scrolling the view back by lines that are saved shows the line that
    far up in the list of saved lines and screen lines, keeps the invariant, and
    scrolling forward by as many lines restores the screen and its view. *)
Theorem scroll_back_and_forward circ pre post n vs :
  wf circ pre post vs -> 0 <= n <= Rtop vs + numlines vs -> Rtop vs <= Rbottom vs <= lines vs ->
  exists vs1 vs2, VSscrolback n vs = Done vs1 /\ VSscrolforward n vs1 = Done vs2
  /\ wf circ pre post vs1 /\ Rtop vs1 = Rtop vs - n /\ (pre ++ linest vs) !! Z.to_nat (numlines vs + Rtop vs - n) = Some (vistop vs1)
  /\ exists dr, vs2 = vs <| drawn := dr |>.
Proof.
  intros HW Hn Hrb. destruct (VSscrolback_ok circ pre post n vs HW) as (m & vs1 & E1 & Em & (v & dr & Ef) & HW1).
  assert (m = n) as -> by lia. clear Em. exists vs1. subst vs1. set (vs1 := _ <| drawn := dr |>) in *.
  destruct (VSscrolforward_ok circ pre post n vs1 HW1) as (m & vs2 & E2 & Em & (v2 & dr2 & Ef2) & HW2).
  { change (Rtop vs + - n <= Rbottom vs - n). lia. }
  change (m = Z.max 0 (Z.min n (lines vs - (Rbottom vs - n)))) in Em. assert (m = n) as -> by lia. exists vs2.
  split; [exact E1|]. split; [exact E2|]. split; [exact HW1|]. split; [change (Rtop vs + - n = Rtop vs - n); lia|]. split.
  - pose proof (bk_vistop _ _ (wf_backed _ _ _ _ HW1)) as Hv. change ((pre ++ linest vs) !! Z.to_nat (numlines vs + (Rtop vs + - n)) = Some v) in Hv.
    change (vistop vs1) with v. rewrite <- Hv. f_equal. lia.
  - exists dr2.
    assert (HV : wf circ pre post vs2).
    { apply HW2. change (Rtop vs + - n + n < bottom vs \/ bottom vs = lines vs). replace (Rtop vs + - n + n) with (Rtop vs) by lia. apply HW. }
    pose proof (bk_vistop _ _ (wf_backed _ _ _ _ HV)) as Hv. rewrite Ef2 in Hv.
    change ((pre ++ linest vs) !! Z.to_nat (numlines vs + (Rtop vs + - n + n)) = Some v2) in Hv.
    replace (Rtop vs + - n + n) with (Rtop vs) in Hv by lia.
    assert (v2 = vistop vs) as Ev by (pose proof (bk_vistop _ _ (wf_backed _ _ _ _ HW)) as Hv'; congruence).
    rewrite Ef2. change (vs <| Rtop := Rtop vs + - n + n |> <| Rbottom := n + (Rbottom vs - n) |> <| vistop := v2 |> <| drawn := dr2 |> = vs <| drawn := dr2 |>).
    rewrite Ev. replace (Rtop vs + - n + n) with (Rtop vs) by lia. replace (n + (Rbottom vs - n)) with (Rbottom vs) by lia. by destruct vs.
Qed.

End Moving.

(** ** Witnesses *)

Definition demo_table : screen_table := mkTable [1; 0] 1.

(** A memory manager whose blocks are exactly as long as was asked for. *)
Definition exact_memory : Memory := {| myNewPtrCritical := fun _ _ => true; myNewPtr := fun _ _ => true;
  leftover := fun _ _ => 0; usable := fun n => n; sizeof_VSline := 24; sizeof_VSscrn := 500; sizeof_pointer := 4 |}.

Lemma demo_ample : ample 3 demo_table empty_heap.
Proof.
  split; [| done | done | done | by vm_compute]. split; [done|]. intros p [l Hl]. change ((∅ : gmap Z VSline) !! p = Some l) in Hl. by rewrite lookup_empty in Hl.
Qed.

Lemma VSnewscreen_ok_witness :
  (exists vs post,
   VSnewscreen 1 200 1 3 80 0 demo_table demo empty_heap = Done (NewScreen (free_slot (stats demo_table)) (taken demo_table) vs)
   /\ wf false [] post vs /\ abs [] vs = Terminal [] (replicate (Z.to_nat 3) (Some (blank_row 0 256 0))) /\ x vs = 0 /\ y vs = 0)
  /\ @VSnewscreen exact_memory 1 200 1 3 80 0 demo_table demo empty_heap = Crash OutOfBounds.
Proof.
  split.
  - pose proof (VSnewscreen_ok 1 200 1 3 80 0 demo_table demo empty_heap demo_ample ltac:(done)) as H.
    rewrite decide_True in H; [|change (usable 255) with 256; lia].
    destruct H as (vs & post & E & _ & H1 & H2 & H3 & H4 & _).
    exists vs, post. exact (conj E (conj H1 (conj H2 (conj H3 H4)))).
  - assert (HA : @ample exact_memory 3 demo_table empty_heap).
    { split; [apply demo_ample | done | done | done | by vm_compute]. }
    pose proof (@VSnewscreen_ok exact_memory 1 200 1 3 80 0 demo_table demo empty_heap HA ltac:(done)) as H.
    rewrite decide_False in H; [exact H|]. change (@usable exact_memory 255) with 255. lia.
Defined.

Lemma scroll_back_and_forward_witness : exists vs1 vs2, VSscrolback 1 demo = Done vs1 /\ VSscrolforward 1 vs1 = Done vs2
  /\ wf false [1] [5] vs1 /\ Rtop vs1 = Rtop demo - 1 /\ ([1] ++ linest demo) !! Z.to_nat (numlines demo + Rtop demo - 1) = Some (vistop vs1)
  /\ exists dr, vs2 = demo <| drawn := dr |>.
Proof. apply (scroll_back_and_forward false [1] [5] 1 demo demo_wf); by vm_compute. Defined.

(** ** What can go wrong *)

(** [demo] before anything was saved: lines 1, 2 and 3 are the screen. *)
Definition fresh : VSscrn := demo <| scrntop := 1 |> <| vistop := 1 |> <| linest := [1; 2; 3] |> <| numlines := 0 |> <| y := 0 |>.

(** A reverse index at the top of a fresh screen, and the deletion of its first
    line, leave [buftop] in the middle of the list. *)
Example rindex_loses_buftop :
  match VSIrindex fresh with Done vs => (linest vs, buftop vs) = ([3; 1; 2], 1) | _ => False end.
Proof. by vm_compute. Qed.
Example dellines_loses_buftop :
  match VSIdellines 1 0 fresh with Done vs => (linest vs, buftop vs) = ([2; 3; 1], 1) | _ => False end.
Proof. by vm_compute. Qed.

(** Above a region that does not begin at line 0 the cursor leaves the screen,
    and the next erasure is out of bounds. *)
Example rindex_leaves_screen :
  match VSIrindex (fresh <| top := 1 |>) with Done vs => y vs = -1 /\ VSIeeol vs = Crash OutOfBounds | _ => False end.
Proof. by vm_compute. Qed.

(** A count of more characters than the line has. *)
Example inschar_out_of_bounds : VSIinschar 5 1 fresh = Crash OutOfBounds.
Proof. by vm_compute. Qed.

(** Characters before the cursor are erased. *)
Example delchars_erases_before_cursor :
  match VSIdelchars 3 (fresh <| x := 3 |> <| store := match modify 1 (fun l => l <| text := [65; 66; 67; 68] |>) demo_heap with Done h => h | _ => demo_heap end |>) with
  | Done vs => ct (store vs) 1 = Some (0, [65; 32; 32; 32], [0; 0; 0; 0]) | _ => False end.
Proof. by vm_compute. Qed.

(** Three lines go to the scrollback buffer and two are counted. *)
Example setlines_miscounts :
  match VSsetlines 2 fresh with Done (n, vs) => (n, numlines vs, linest vs) = (1, 2, [6; 7]) | _ => False end.
Proof. by vm_compute. Qed.

(** Without memory for the new lines the old ones are freed twice. *)
Example setlines_frees_twice :
  @VSsetlines {| myNewPtrCritical := fun n _ => n <? 50; myNewPtr := fun _ _ => true; leftover := fun _ _ => 0; usable := fun n => n;
                 sizeof_VSline := 24; sizeof_VSscrn := 500; sizeof_pointer := 4 |} 2 fresh = Crash NullDeref.
Proof. by vm_compute. Qed.

End View.
