(* ===== verification/Emulator.v ===== *)
(** The terminal emulator (parse/vsem.c): the control characters, the text
    and the escape sequences of a VT220, as a machine that eats a buffer of
    characters and calls the kernel of [Screen]; the printer redirection of the
    same file, the answers of the terminal and its options
    (Screens/vsintern.c), and the capture of the text (Screens/vsinterf.c). The
    emulator ends on every input, leaves the cursor on the screen, and writes
    text on a line the way a list is updated. *)
From Stdlib Require Import Ascii.
From stdpp Require Import pretty.
From S2P Require Import Prelude Window Translate Lines Screen Rows Scrollback Kernel View.
Import Translate Lines Screen Rows Scrollback Kernel View.

Module Emulator.

(** ** The system *)

(** What the system answers to a request, after those made before: the result
    code, or the length of the file for [GetEOF]; a dialog and the opening of
    an URL answer 0 for no. *)
Class Toolbox := {
  answer : list drawing -> drawing -> Z;
  debug : bool;
  CursorType : Z
}.

Definition nz (z : Z) : bool := negb (z =? 0).

(** The code of a character. *)
Definition ch (c : ascii) : Z := Z.of_N (N_of_ascii c).
Arguments ch c%_char.

Definition ESC : Z := 27.
Definition dupFNErr : Z := -48.
Definition printable_control (b : Z) : bool := (32 <=? b) || (b =? 13) || (b =? 9).

(** ** Capturing the text *)

(** The loop of [VScapture]: the number of bytes to write goes down with every
    control character it skips, and so does its bound. *)
Fixpoint capture_loop (s : bytes) (len ln : Z) : bytes * Z :=
  match s with
  | [] => ([], ln)
  | b :: s =>
    if len <? ln then
      if printable_control b then
        let '(out, ln) := capture_loop s (len + 1) ln in (b :: out, ln)
      else capture_loop s (len + 1) (ln - 1)
    else ([], ln)
  end.

Section Emulator.
Context `{MM : Memory} `{TE : TextEncodings} `{TB : Toolbox}.

(** A request and its answer. *)
Definition ask (d : drawing) (vs : VSscrn) : Z * VSscrn := (answer (drawn vs) d, draw d vs).

(** The buffer of 512 bytes is on the stack: the bytes the loop did not fill
    are whatever was there ([leftover]). *)
Definition VScapture (s : bytes) (vs : VSscrn) : outcome VSscrn :=
  if captureRN vs =? 0 then Done vs
  else
    let '(out, ln) := if debug then (s, zlen s) else capture_loop s 0 (zlen s) in
    if 512 <? zlen out then Crash OutOfBounds
    else if ln <=? 0 then Done vs
    else if 512 <? ln then Crash OutOfBounds
    else
      let buf := take (Z.to_nat ln) (out ++ (leftover 0 <$> seq (length out) (Z.to_nat ln))) in
      let '(err, vs) := ask (FSWrite buf) vs in
      Done (if nz err then draw CloseCapture vs <| captureRN := 0 |> else vs).

(** ** Redirection to the printer *)

Definition redirect_failed (vs : VSscrn) : VSscrn := draw SysBeep vs <| prredirect := 0 |>.

Definition VSprON (vs : VSscrn) : VSscrn :=
  let vs := vs <| prredirect := 1 |> in
  if nz (qprint vs) && nz (printqueued vs) then
    let '(myEOF, vs) := ask GetEOF vs in
    draw (SetFPos 2 0) (if 3 <=? myEOF then draw (SetEOF (myEOF - 3)) vs else vs)
  else
    let vs := if nz (qprint vs) then vs <| printqueued := 1 |> else vs in
    let '(sts, vs) := ask HCreate (vs <| prbuf := 0 |> <| prbuf2 := 0 |>) in
    if nz sts && negb (sts =? dupFNErr) then redirect_failed vs
    else
      let '(sts, vs) := ask HOpenDF vs in
      if nz sts then draw HDelete (redirect_failed vs)
      else
        let '(sts, vs) := ask (SetEOF 0) vs in
        if nz sts then draw HDelete (draw FSClose (redirect_failed vs)) else vs.

(** Closing and deleting the temporary file. *)
Definition close_print_file (vs : VSscrn) : VSscrn :=
  let '(sts, vs) := ask FSClose vs in
  let vs := if nz sts then draw SysBeep vs else vs in
  let '(sts, vs) := ask HDelete vs in
  if nz sts then draw SysBeep vs else vs.

Definition VSprOFF (vs : VSscrn) : VSscrn :=
  if prredirect vs =? 0 then vs
  else
    let vs := vs <| prredirect := 0 |> in
    if nz (qprint vs) then vs
    else
      let '(ok, vs) := ask PrJobDialog vs in
      if ok =? 0 then close_print_file vs
      else
        let '(err, vs) := ask PrOpenDoc vs in
        if nz err then close_print_file (draw SysBeep vs)
        else match session vs with
             | None => vs
             | Some _ => close_print_file (draw PrintFile vs)
             end.

(** The pieces of at most 256 bytes, translated: the result code. Every round
    takes what the converter took. *)
Fixpoint translate_write (fuel : nat) (s : bytes) (tw : window) (vs : VSscrn) : outcome (Z * VSscrn) :=
  match s with
  | [] => Done (0, vs)
  | _ :: _ =>
    match fuel with
    | O => Crash Hang
    | S fuel =>
      let '(_, taken, out, tw) := trbuf_nat_mac tw (take 256 s) 512 in
      let '(err, vs) := ask (FSWrite out) (vs <| session := Some tw |>) in
      if nz err then Done (err, vs) else translate_write fuel (drop (Z.to_nat taken) s) tw vs
    end
  end.

(** The first [len] bytes of [s]. A negative length makes the loop of
    [trbuf_nat_mac] run through all of memory. *)
Definition VStranslatewrite (s : bytes) (len : Z) (vs : VSscrn) : outcome (Z * VSscrn) :=
  match session vs with
  | Some tw =>
    if len <? 0 then Crash OutOfBounds else translate_write (Z.to_nat len) (take (Z.to_nat len) s) tw vs
  | None =>
    if len <? 0 then Crash BadArgument else Done (ask (FSWrite (take (Z.to_nat len) s)) vs)
  end.

Definition ENDOFPRT : Z := 0x1b5b3469.
Definition ENDOFPRT2 : Z := 0x5b3f3469.

(** The loop of [VSpr]: [start] is the text from the start of the part not
    written yet, of which [count] characters are to be written; whether the end
    of the redirection was seen. *)
Fixpoint pr_loop (start : bytes) (count : Z) (c : bytes) (vs : VSscrn) : outcome (bool * bytes * Z * bytes * VSscrn) :=
  match c with
  | [] => Done (false, start, count, [], vs)
  | b :: c =>
    let vs := vs <| prbuf2 := Z.shiftr (prbuf vs) 24 |> <| prbuf := s32 (Z.shiftl (prbuf vs) 8 + b) |> in
    let end1 := prbuf vs =? ENDOFPRT in
    let end2 := (prbuf vs =? ENDOFPRT2) && (prbuf2 vs =? ESC) in
    let count := (if end1 then count - 1 else count) in
    let count := (if end2 then count - 2 else count) + 1 in
    '(sts, start, count, vs) ←
      (if b =? 0 then
         '(sts, vs) ← VStranslatewrite start (count - 1) vs; Done (sts, drop (Z.to_nat count) start, 0, vs)
       else Done (0, start, count, vs));
    if end1 || end2 || nz sts then Done (end1 || end2, start, count, c, vs) else pr_loop start count c vs
  end.

(** What is left of the buffer. The result code of the last write is the one
    that counts. *)
Definition VSpr (c : bytes) (vs : VSscrn) : outcome (bytes * VSscrn) :=
  '(rdy, start, count, c, vs) ← pr_loop c 0 c vs;
  '(sts, vs) ← VStranslatewrite start count vs;
  let vs := if nz sts then draw SysBeep vs else vs in
  Done (c, if (rdy : bool) || nz sts then VSprOFF vs else vs).

(** ** Answers of the terminal *)

Definition send (s : string) (vs : VSscrn) : VSscrn := draw (RSsendstring (ESC :: bytes_of_string s)) vs.

(** [%d] *)
Definition decimal (z : Z) : bytes := bytes_of_string (pretty z).

Definition VTsendpos (vs : VSscrn) : VSscrn :=
  let '(px, py) := if margin vs <? x vs then (0, y vs + 1) else (x vs, y vs) in
  let py := if lines vs <? py then lines vs else py in
  draw (RSsendstring ([ESC; ch "["] ++ decimal (py + 1) ++ [ch ";"] ++ decimal (px + 1) ++ [ch "R"])) vs.

Definition VTsendprintstat : VSscrn -> VSscrn := send "[?10n".
Definition VTsendudkstat : VSscrn -> VSscrn := send "[?21n".
Definition VTsendstat : VSscrn -> VSscrn := send "[0n".
Definition VTsendident (vs : VSscrn) : VSscrn :=
  if nz (vtemulation vs) then send "[?62;1;2;6;7;8c" vs else send "[?6c" vs.
Definition VTsendsecondaryident : VSscrn -> VSscrn := send "[>1;10;0c".

(** ** Options *)

Definition parm (i : Z) (vs : VSscrn) : outcome Z := arr_get (parms vs) i.
Definition set_parm (i v : Z) (vs : VSscrn) : outcome VSscrn :=
  p ← arr_set i v (parms vs); Done (vs <| parms := p |>).

Definition set_columns (toggle : Z) (vs : VSscrn) : VSscrn :=
  let vs := VSIflush vs in
  let vs := if nz toggle then draw (RScalcwsize 132) (vs <| maxwidth := 131 |>)
            else draw (RScalcwsize 80) (vs <| maxwidth := 79 |>) in
  draw (RSmargininfo (maxwidth vs) (Rleft vs)) vs.

Definition VSIsetoption (toggle : Z) (vs : VSscrn) : outcome VSscrn :=
  p0 ← parm 0 vs;
  if p0 =? -2 then
    p1 ← parm 1 vs;
    Done (if p1 =? 1 then vs <| DECCKM := toggle |>
          else if p1 =? 3 then set_columns toggle vs
          else if p1 =? 5 then draw (RSbackground toggle) (VSIflush vs)
          else if p1 =? 6 then vs <| DECORG := toggle |>
          else if p1 =? 7 then vs <| DECAWM := toggle |>
          else if p1 =? 25 then vs <| DECCM := toggle |>
          else vs)
  else if p0 =? 4 then Done (vs <| IRM := toggle |>)
  else Done vs.

(** ** Text *)

(** [VSIw->linest[VSIw->y]->lattr &= ~kVSwrap] and its setting. *)
Definition clear_wrap (vs : VSscrn) : outcome VSscrn :=
  p ← line_at (y vs) vs; l ← load p (store vs); set_lattr p (Z.land (lattr l) (Z.lnot kVSwrap)) vs.
Definition mark_wrap (vs : VSscrn) : outcome VSscrn :=
  p ← line_at (y vs) vs; l ← load p (store vs); set_lattr p (Z.lor (lattr l) kVSwrap) vs.

Definition newline (vs : VSscrn) : outcome VSscrn := vs ← clear_wrap vs; VSIindex vs.

Definition backspace (vs : VSscrn) : VSscrn := if 0 <? x vs then vs <| x := x vs - 1 |> else vs.

Definition trflush (vs : VSscrn) : VSscrn :=
  match session vs with
  | Some tw => vs <| session := Some (trflush_nat_mac tw) |> <| trinx := 0 |> <| trincount := 0 |>
  | None => vs
  end.

(** Whether the session has a translation to a multi-byte set. *)
Definition multibyte (vs : VSscrn) : bool :=
  match session vs with Some tw => GetTranslationIndex (innational tw) <? 0 | None => false end.

(** Where the text of a line is written: the line, the column [current] (and
    [acurrent]), [start] and [sx] of the part to be drawn, the characters of it
    beyond the cursor, and whether the line ended. *)
Record pen := Pen { pline : Z; current : Z; start : Z; sx : Z; extra : Z; offend : bool }.

(** A character with its attribute at a column of a line. *)
Definition put (p i b a : Z) (vs : VSscrn) : outcome VSscrn :=
  edit_line p (arr_set i b) (arr_set i a) vs.
Definition put_attr (p i a : Z) (vs : VSscrn) : outcome VSscrn := edit_line p Done (arr_set i a) vs.
Definition text_at (p i : Z) (vs : VSscrn) : outcome Z := l ← load p (store vs); arr_get (text l) i.
Definition attr_at (p i : Z) (vs : VSscrn) : outcome Z := l ← load p (store vs); arr_get (attr l) i.

(** The characters [s] from column [i] on. *)
Fixpoint put_all (p i : Z) (s : bytes) (a : Z) (vs : VSscrn) : outcome VSscrn :=
  match s with [] => Done vs | b :: s => vs ← put p i b a vs; put_all p (i + 1) s a vs end.

(** The end of the loop on a line: the cursor moves on, or the right margin
    was hit. *)
Definition advance (mw : Z) (p : pen) (vs : VSscrn) : pen * VSscrn :=
  if x vs <? mw then (Pen (pline p) (current p + 1) (start p) (sx p) (extra p) (offend p), vs <| x := x vs + 1 |>)
  else if nz (DECAWM vs) then (Pen (pline p) (current p) (start p) (sx p) (extra p) true, vs <| x := x vs + 1 |>)
  else (Pen (pline p) (current p) (start p) (sx p) 1 (offend p), vs <| x := mw |>).

(** Writes the translated characters [out]: all are tagged as multi-byte but
    the last one, unless more is to come. *)
Definition put_translated (mw a : Z) (insert : bool) (out : bytes) (tag extra0 : Z) (p : pen) (vs : VSscrn) : outcome (pen * VSscrn) :=
  vs ← (if insert then VSIinschar 1 1 vs else Done vs);
  let i := current p - trinx vs in
  vs ← put_all (pline p) i out tag vs;
  let cur := i + zlen out - 1 in
  b ← text_at (pline p) cur vs;
  let vs := vs <| lastchar := b |> in
  vs ← (if (zlen out =? 1) && nz (Z.land b 0x80) && (trintag vs =? 0) && multibyte vs
        then Done (vs <| trintag := 1 |>)
        else vs ← put_attr (pline p) cur a vs; Done (vs <| trintag := 0 |>));
  before ← (if (x vs =? sx p) && (0 <? sx p) then attr_at (pline p) (cur - 1) vs else Done 0);
  '(p, vs) ← (if nz (Z.land before kVSansi2b) then
                vs ← put_attr (pline p) cur a vs;
                Done (Pen (pline p) cur (start p - 1) (sx p - 1) extra0 (offend p), vs <| trintag := 0 |>)
              else Done (Pen (pline p) cur (start p) (sx p) extra0 (offend p), vs));
  here ← attr_at (pline p) cur vs;
  let p := if nz (Z.land here kVSansi2b) then Pen (pline p) cur (start p) (sx p) 1 (offend p) else p in
  Done (advance mw p (vs <| trinx := 0 |> <| trincount := 0 |>)).

(** A character whose translation the converter refuses: [false] when it is left
    for the next line. *)
Definition put_refused (mw a : Z) (insert : bool) (p : pen) (vs : VSscrn) : outcome (bool * pen * VSscrn) :=
  if mw <? x vs then
    let back := fun vs => vs <| trincount := trincount vs - 1 |> in
    if DECAWM vs =? 0 then Done (true, p, back vs)
    else
      let sx := if nz (trinx vs) then sx p + 1 else sx p in
      Done (false, Pen (pline p) (current p) (start p) sx (extra p) true, back (vs <| x := x vs + 1 |>))
  else
    '(p, vs) ← put_translated mw a insert (take (Z.to_nat (trincount vs)) (trinbuf vs)) (Z.lor a kVSansi2b) (extra p) p vs;
    Done (true, p, vs).

(** The first byte of a character: nothing is shown yet, but the cursor moves. *)
Definition put_nothing (insert : bool) (p : pen) (vs : VSscrn) : outcome (pen * VSscrn) :=
  here ← attr_at (pline p) (current p) vs;
  let extra := if nz (Z.land here kVSansi2b) then 1 else extra p in
  let vs := vs <| x := x vs + 1 |> <| trinx := trinx vs + 1 |> in
  vs ← (if insert then VSIinschar 1 0 vs else Done vs);
  Done (Pen (pline p) (current p + 1) (start p) (sx p) extra (offend p), vs).

(** A character of the session [tw]: whether it was taken from the buffer. *)
Definition put_session (mw a : Z) (insert : bool) (b : Z) (tw : window) (p : pen) (vs : VSscrn) : outcome (bool * pen * VSscrn) :=
  buf ← arr_set (trincount vs) b (trinbuf vs);
  let n := trincount vs + 1 in
  let '(res, inlen, out, tw) := trbuf_nat_mac tw (take (Z.to_nat n) buf) 32 in
  let vs := vs <| trinbuf := buf |> <| trincount := n |> <| session := Some tw |> in
  if nz res && negb (res =? kTECPartialCharErr) then put_refused mw a insert p vs
  else
    let rest := slice inlen (n - inlen) buf in
    let vs := vs <| trinbuf := rest ++ drop (length rest) buf |> <| trincount := n - inlen |> in
    match out with
    | [] =>
      if trincount vs <? 4 then '(p, vs) ← put_nothing insert p vs; Done (true, p, vs)
      else
        '(p, vs) ← put_translated mw a insert (take (Z.to_nat (trincount vs)) (trinbuf vs)) a (extra p) p (vs <| trincount := 0 |>);
        Done (true, p, vs)
    | _ :: _ =>
      '(p, vs) ← put_translated mw a insert out (Z.lor a kVSansi2b) 0 p vs;
      Done (true, p, vs)
    end.

(** A character of a screen without a session. *)
Definition put_plain (mw a : Z) (insert : bool) (b : Z) (p : pen) (vs : VSscrn) : outcome (pen * VSscrn) :=
  vs ← (if insert then VSIinschar 1 1 (vs <| lastchar := b |>) else Done (vs <| lastchar := b |>));
  vs ← put (pline p) (current p) b a vs;
  Done (advance mw p vs).

Definition put_char (mw a : Z) (insert : bool) (b : Z) (p : pen) (vs : VSscrn) : outcome (bool * pen * VSscrn) :=
  match session vs with
  | Some tw => put_session mw a insert b tw p vs
  | None => '(p, vs) ← put_plain mw a insert b p vs; Done (true, p, vs)
  end.

(** Whether a C1 control is meant. *)
Definition eight_bit (b : Z) (vs : VSscrn) : bool :=
  nz (Z.land b 0x80) && (b <? 0xa0) && nz (vtemulation vs) && nz (vteightbits vs).

(** Whether [b] is written as text. *)
Definition is_text (tryit : bool) (b : Z) (vs : VSscrn) : bool := ((32 <=? b) || tryit) && negb (eight_bit b vs).

(** The characters of a line. *)
Fixpoint write_line (mw a : Z) (insert tryit : bool) (c : bytes) (p : pen) (vs : VSscrn) : outcome (bytes * pen * VSscrn) :=
  match c with
  | [] => Done ([], p, vs)
  | b :: r =>
    if is_text tryit b vs && negb (offend p) then
      '(taken, p, vs) ← put_char mw a insert b p vs;
      if (taken : bool) then write_line mw a insert tryit r p vs else Done (c, p, vs)
    else Done (c, p, vs)
  end.

(** The pending wrap before a line, and the pen at the cursor. *)
Definition start_text (mw : Z) (vs : VSscrn) : outcome (pen * VSscrn) :=
  vs ← (if mw <? x vs then
          if nz (DECAWM vs) then vs ← mark_wrap (vs <| x := 0 |>); VSIindex vs else Done (vs <| x := mw |>)
        else Done vs);
  p ← line_at (y vs) vs;
  Done (Pen p (x vs) (x vs) (x vs) 0 false, vs).

(** What was written, drawn and captured. *)
Definition show_text (insert captured : bool) (p : pen) (vs : VSscrn) : outcome VSscrn :=
  let n := extra p + (x vs - sx p) in
  l ← load (pline p) (store vs);
  let s := slice (start p) n (text l) in
  let vs :=
    if insert then draw (RSinsstring (x vs - n) (y vs) (lattrib vs) (attrib vs) n s) vs
    else VSIdraw (sx p) (y vs) (lattrib vs) (attrib vs) n s vs in
  if captured then Done vs else VScapture s vs.

(** [while (escflg == esc_root && ctr > 0 && ...)]: a line is written in every
    round; at least every second round takes a character. *)
Fixpoint text_rounds (fuel : nat) (mw : Z) (tryit captured : bool) (c : bytes) (vs : VSscrn) : outcome (bytes * VSscrn) :=
  match c with
  | [] => Done ([], vs)
  | b :: _ =>
    if is_text tryit b vs then
      match fuel with
      | O => Crash Hang
      | S fuel =>
        let a := attrib vs in
        let insert := nz (IRM vs) in
        '(p, vs) ← start_text mw vs;
        '(c, p, vs) ← write_line mw a insert tryit c p vs;
        vs ← show_text insert captured p vs;
        text_rounds fuel mw tryit captured c vs
      end
    else Done (c, vs)
  end.

(** ** Control characters *)

(** The states of the emulator. *)
Definition esc_root : Z := 0.
Definition esc_basic : Z := 1.
Definition esc_csi : Z := 2.
Definition esc_decl : Z := 3.
Definition esc_descl : Z := 4.
Definition esc_G0 : Z := 5.
Definition esc_G1 : Z := 6.
Definition esc_G2 : Z := 7.
Definition esc_G3 : Z := 8.
Definition esc_G0j : Z := 9.
Definition esc_G2j : Z := 10.
Definition esc_XTerm : Z := 11.
Definition esc_url : Z := 12.

Definition graph (on : Z) (vs : VSscrn) : VSscrn :=
  vs <| attrib := if nz on then Z.lor (attrib vs) kVSgrph else Z.land (attrib vs) (Z.lnot kVSgrph) |>.

(** A character below 32 in the ground state: the new [escflg] and whether the
    character is to be tried as text. *)
Definition control (captured : bool) (b : Z) (vs : VSscrn) : outcome (Z * bool * VSscrn) :=
  let stay := fun vs => (esc_root, false, vs) in
  if b =? ESC then Done (esc_basic, false, vs)
  else if b =? 0x0e then Done (stay (graph (G1 vs) vs <| charset := 1 |>))
  else if b =? 0x0f then Done (stay (graph (G0 vs) vs <| charset := 0 |>))
  else if b =? 0x07 then Done (stay (if ignoreBeeps vs =? 0 then draw RSbell vs else vs))
  else if b =? 0x08 then Done (stay (trflush (backspace vs)))
  else if (b =? 0x0c) || (b =? 0x0a) || (b =? 0x0b) then vs ← newline vs; Done (stay vs)
  else if b =? 0x09 then
    vs ← VSItab vs;
    vs ← (if captured then Done vs else VScapture [b] vs);
    Done (stay vs)
  else if b =? 0x0d then
    vs ← (if captured then Done (vs <| x := 0 |>) else VScapture [b] (vs <| x := 0 |>));
    Done (stay (trflush vs))
  else Done (esc_root, (0x10 <=? b) && (2 <=? vtemulation vs), vs).

(** [while (escflg == esc_root && ctr > 0 && *c < 32 && !tryit)] *)
Fixpoint controls (captured : bool) (c : bytes) (vs : VSscrn) : outcome (Z * bool * bytes * VSscrn) :=
  match c with
  | [] => Done (esc_root, false, [], vs)
  | b :: r =>
    if b <? 32 then
      '(f, tryit, vs) ← control captured b vs;
      if (tryit : bool) then Done (f, true, c, vs)
      else if f =? esc_root then controls captured r vs
      else Done (f, false, r, vs)
    else Done (esc_root, false, c, vs)
  end.

(** ** Steps of an escape sequence *)

(** What a character does: the sequence ends there ([goto ShortCut]), or goes
    on in a state with its flags. *)
Inductive step := Ends (vs : VSscrn) | Goes (escflg escflags : Z) (vs : VSscrn).

Definition has_Xterm (vs : VSscrn) : bool := match session vs with Some tw => nz (Xterm tw) | None => false end.

(** A tab stop at the cursor. *)
Definition set_tab (v : Z) (vs : VSscrn) : outcome VSscrn :=
  t ← arr_set (x vs) v (tabs vs); Done (vs <| tabs := t |>).

(** The character after ESC. *)
Definition basic (b fl : Z) (vs : VSscrn) : outcome step :=
  let goes := fun f => Done (Goes f fl vs) in
  if b =? 0x08 then Done (Goes esc_basic fl (backspace vs))
  else if b =? ch "[" then Done (Goes esc_csi 0 (VSIapclear vs))
  else if b =? ch "7" then Done (Ends (VSIsave vs))
  else if b =? ch "8" then Done (Ends (VSIrestore vs))
  else if b =? ch "c" then vs ← VSIreset vs; Done (Ends vs)
  else if b =? ch "D" then vs ← newline vs; Done (Ends vs)
  else if b =? ch "E" then vs ← newline (vs <| x := 0 |>); Done (Ends vs)
  else if b =? ch "M" then vs ← VSIrindex vs; Done (Ends vs)
  else if b =? ch ">" then Done (Ends (vs <| DECPAM := 0 |>))
  else if b =? ch "=" then Done (Ends (vs <| DECPAM := 1 |>))
  else if b =? ch "Z" then Done (Ends (VTsendident vs))
  else if (b =? ch " ") || (b =? ch "#") then goes esc_decl
  else if b =? ch "(" then goes esc_G0
  else if b =? ch ")" then goes esc_G1
  else if b =? ch "*" then goes esc_G2
  else if b =? ch "+" then goes esc_G3
  else if b =? ch "$" then Done (Goes esc_G0j 0 vs)
  else if b =? ch "." then goes esc_G2j
  else if b =? ch "H" then vs ← set_tab TABSTOP vs; Done (Ends vs)
  else if b =? ch "]" then Done (if has_Xterm vs then Goes esc_XTerm 0 vs else Ends vs)
  else if b =? ch "&" then Done (Goes esc_url 0 vs)
  else Done (Ends vs).

(** The C1 controls. [0x9d] does not take its character. *)
Definition c1_control (b fl : Z) (vs : VSscrn) : outcome step :=
  if b =? 0x84 then vs ← newline vs; Done (Ends vs)
  else if b =? 0x85 then vs ← newline (vs <| x := 0 |>); Done (Ends vs)
  else if b =? 0x88 then vs ← set_tab TABSTOP vs; Done (Ends vs)
  else if b =? 0x8d then vs ← VSIrindex vs; Done (Ends vs)
  else if b =? 0x9b then Done (Goes esc_csi 0 (VSIapclear vs))
  else if b =? 0x9d then Done (if has_Xterm vs then Goes esc_XTerm 0 vs else Ends vs)
  else Done (Ends vs).

(** ** Control sequences *)

Definition at_least_one (n : Z) : Z := if n <? 1 then 1 else n.

(** The first parameter, at least one, which the code stores back. *)
Definition count_parm (vs : VSscrn) : outcome (Z * VSscrn) :=
  p ← parm 0 vs;
  if p <? 1 then vs ← set_parm 0 1 vs; Done (1, vs) else Done (p, vs).

Definition clamp (lo hi v : Z) : Z := if hi <? (if v <? lo then lo else v) then hi else if v <? lo then lo else v.

(** A digit of a parameter; the products are cut to a [short]. *)
Definition csi_digit (b : Z) (vs : VSscrn) : outcome VSscrn :=
  p ← parm (parmptr vs) vs;
  set_parm (parmptr vs) (s16 (s16 ((if p <? 0 then 0 else p) * 10) + (b - ch "0"))) vs.

Definition cursor_up (vs : VSscrn) : outcome VSscrn :=
  p ← parm 0 vs;
  let y' := s16 (y vs - at_least_one p) in
  let y' := if y' <? 0 then 0 else y' in
  Done (VSIflush (VSIrange (vs <| y := if y' <? top vs then top vs else y' |>))).

Definition cursor_down (vs : VSscrn) : outcome VSscrn :=
  p ← parm 0 vs;
  let y' := s16 (y vs + at_least_one p) in
  Done (VSIflush (VSIrange (vs <| y := if bottom vs <? y' then bottom vs else y' |>))).

Definition cursor_right (mw : Z) (vs : VSscrn) : outcome VSscrn :=
  p ← parm 0 vs;
  let n := at_least_one p in
  let go := fun vs =>
    let vs := VSIrange (vs <| x := s16 (x vs + n) |>) in
    Done (if mw <? x vs then vs <| x := mw |> else vs) in
  if nz (DECAWM vs) && (mw <=? x vs) then
    if lines vs <=? y vs then Done vs
    else go (vs <| y := y vs + 1 |> <| x := if mw <? x vs then 0 else -1 |>)
  else go vs.

Definition cursor_left (mw : Z) (vs : VSscrn) : outcome VSscrn :=
  p ← parm 0 vs;
  let n := at_least_one p in
  let go := fun vs => Done (VSIrange (vs <| x := s16 (x vs - n) |>)) in
  if nz (DECAWM vs) && (x vs <=? 0) then
    if y vs <=? 0 then Done vs else go (vs <| y := y vs - 1 |> <| x := mw + 1 |>)
  else go vs.

Definition cursor_row (mw : Z) (vs : VSscrn) : outcome VSscrn :=
  p ← parm 0 vs;
  let vs := if nz (DECAWM vs) && (mw <? x vs) then vs <| x := 0 |> else vs in
  Done (vs <| y := clamp 0 (lines vs) (s16 (p - 1)) |>).

Definition cursor_column (mw : Z) (vs : VSscrn) : outcome VSscrn :=
  p ← parm 0 vs;
  let go := fun vs => Done (vs <| x := clamp 0 mw (s16 (p - 1)) |>) in
  if nz (DECAWM vs) && (mw <? x vs) then
    if lines vs <=? y vs then Done vs else go (vs <| y := y vs + 1 |>)
  else go vs.

Definition cursor_position (mw : Z) (vs : VSscrn) : outcome VSscrn :=
  p1 ← parm 1 vs;
  p0 ← parm 0 vs;
  let row := if nz (DECORG vs) then s16 (p0 - 1 + top vs) else s16 (p0 - 1) in
  let vs := vs <| x := clamp 0 mw (s16 (p1 - 1)) |> <| y := clamp 0 (lines vs) row |> in
  let vs := if nz (forcesave vs) && (y vs =? 0) && (x vs =? 0) then vs <| possibleForce := 1 |> else vs in
  Done (if y vs =? bottom vs then vs else VSIflush vs).

(** The shapes of the cursor. *)
Definition BLOCKCURSOR : Z := 0.
Definition UNDERSCORECURSOR : Z := 1.
Definition NOCURSOR : Z := 3.
Definition LOWER_THIRDCURSOR : Z := 4.
Definition LOWER_HALFCURSOR : Z := 5.
Definition TWO_THIRDSCURSOR : Z := 6.

(** [RSsetcurstype] for the four parameters of CSI ? c. *)
Definition cursor_type (vs : VSscrn) : outcome VSscrn :=
  p1 ← parm 1 vs; p2 ← parm 2 vs; p3 ← parm 3 vs;
  let val :=
    if p1 <? 0 then 0
    else if 0 <? p2 then (if 0 <? p3 then Z.shiftl p3 16 else Z.shiftl p2 8)
    else p1 in
  let t :=
    if val =? 0 then CursorType
    else if val =? 1 then NOCURSOR
    else if val =? 2 then UNDERSCORECURSOR
    else if val =? 3 then LOWER_THIRDCURSOR
    else if val =? 4 then LOWER_HALFCURSOR
    else if val =? 5 then TWO_THIRDSCURSOR
    else if val =? 6 then BLOCKCURSOR
    else -1 in
  Done (if 0 <=? t then draw (RSsetcurstype t) vs else vs).

(** The answer to CSI c, or the shape of the cursor for CSI ? c. *)
Definition device_attributes (fl : Z) (vs : VSscrn) : outcome VSscrn :=
  p0 ← parm 0 vs;
  if p0 =? -2 then cursor_type vs
  else Done (if Z.land fl 1 =? 0 then VTsendident vs else VTsendsecondaryident vs).

Definition tab_clear (vs : VSscrn) : outcome VSscrn :=
  p0 ← parm 0 vs;
  if p0 =? 3 then VSItabclear vs else if p0 <=? 0 then set_tab BLANK vs else Done vs.

(** [switch (VSIw->parms[0])] of the erase sequences. *)
Definition erase_by (below above all : VSscrn -> outcome VSscrn) (vs : VSscrn) : outcome VSscrn :=
  p0 ← parm 0 vs;
  if (p0 =? -1) || (p0 =? 0) then below vs
  else if p0 =? 1 then above vs
  else if p0 =? 2 then all vs
  else Done vs.

Definition device_status (vs : VSscrn) : outcome VSscrn :=
  p0 ← parm 0 vs;
  if p0 =? -2 then
    p1 ← parm 1 vs;
    Done (if p1 =? 15 then VTsendprintstat vs else if p1 =? 25 then VTsendudkstat vs else vs)
  else Done (if p0 =? 5 then VTsendstat vs else if p0 =? 6 then VTsendpos vs else vs).

Definition scrolling_region (vs : VSscrn) : outcome VSscrn :=
  p0 ← parm 0 vs; p1 ← parm 1 vs;
  if (p0 - 1 =? top vs) && (p1 - 1 =? bottom vs) then Done vs
  else
    let vs := VSIflush vs in
    let t := if p0 <? 0 then 0 else p0 - 1 in
    let b := if p1 <? 0 then lines vs else p1 - 1 in
    let t := if t <? 0 then 0 else t in
    let t := if lines vs - 1 <? t then lines vs - 1 else t in
    let b := if b <? 1 then lines vs else b in
    let b := if lines vs <? b then lines vs else b in
    let '(t, b) := if b <=? t then (if 1 <=? b then (b - 1, b) else (t, t + 1)) else (t, b) in
    Done (vs <| top := t |> <| bottom := b |> <| x := 0 |> <| y := if nz (DECORG vs) then t else 0 |>).

(** ** Attributes *)

Definition VSa (p : Z) : Z := Z.shiftl 1 (p - 1).
Definition kVSansifg : Z := 0x800.
Definition kVSansibg : Z := 0x8000.
Definition kVSansifg2 : Z := 0x10000.
Definition kVSansibg2 : Z := 0x20000.

(** The attributes after the parameter [p] of CSI m, with or without colours. *)
Definition rendition (colours : bool) (p a : Z) : Z :=
  if p =? 0 then Z.land a (Z.lor kVSansi2b kVSgrph)
  else if (0 <? p) && (p <? 8) then Z.lor a (VSa p)
  else if (10 <=? p) && (p <? 20) then a
  else if (20 <? p) && (p <? 28) then Z.land a (Z.lnot (VSa (p - 20)))
  else if colours then
    if (30 <=? p) && (p <? 38) then Z.lor (Z.lor (Z.land a 0xfffcf0ff) (Z.shiftl (p - 30) 8)) kVSansifg
    else if (38 <=? p) && (p <? 40) then Z.land a 0xfffef0ff
    else if (40 <=? p) && (p <? 48) then Z.lor (Z.lor (Z.land a 0xfffc0fff) (Z.shiftl (p - 40) 12)) kVSansibg
    else if (48 <=? p) && (p <? 50) then Z.land a 0xfffd0fff
    else if (90 <=? p) && (p <? 98) then Z.lor (Z.lor (Z.land a 0xfffcf0ff) (Z.shiftl (p - 90) 8)) (Z.lor kVSansifg2 kVSansifg)
    else if (100 <=? p) && (p <? 108) then Z.lor (Z.lor (Z.land a 0xfffc0fff) (Z.shiftl (p - 100) 12)) (Z.lor kVSansibg2 kVSansibg)
    else a
  else a.

Definition ANSIcolours (vs : VSscrn) : bool := match session vs with Some tw => nz (ANSIgraphics tw) | None => false end.

(** [while (temp <= VSIw->parmptr)], [n] parameters from [temp] on. *)
Fixpoint renditions (n : nat) (temp : Z) (vs : VSscrn) : outcome VSscrn :=
  match n with
  | O => Done vs
  | S n =>
    p ← parm temp vs;
    renditions n (temp + 1) (vs <| attrib := rendition (ANSIcolours vs) p (attrib vs) |>)
  end.

Definition set_attributes (vs : VSscrn) : outcome VSscrn :=
  p0 ← parm 0 vs;
  if p0 =? -2 then Done vs
  else
    p ← parm (parmptr vs) vs;
    vs ← (if p <? 0 then set_parm (parmptr vs) 0 vs else Done vs);
    renditions (Z.to_nat (parmptr vs + 1)) 0 vs.

(** ** Repeating a character *)

(** [while (VSIw->parms[0] > 0)]: the last character is given to the emulator
    again, 256 times at most in a round; [emulate] is that call. *)
Fixpoint repeat_last (emulate : bytes -> VSscrn -> outcome VSscrn) (fuel : nat) (vs : VSscrn) : outcome VSscrn :=
  p0 ← parm 0 vs;
  if 0 <? p0 then
    match fuel with
    | O => Crash Hang
    | S fuel =>
      let len := if 256 <? p0 then 256 else p0 in
      vs ← set_parm 0 (p0 - len) vs;
      let saved := captureRN vs in
      let vs := vs <| escflg := esc_root |> in
      let vs := if debug then vs <| captureRN := 0 |> else vs in
      vs ← emulate (replicate (Z.to_nat len) (lastchar vs)) vs;
      repeat_last emulate fuel (if debug then vs <| captureRN := saved |> else vs)
    end
  else Done vs.

(** CSI b; a parameter is below 2{^15}, so 128 rounds are enough. *)
Definition repeat_char (emulate : bytes -> VSscrn -> outcome VSscrn) (vs : VSscrn) : outcome VSscrn :=
  repeat_last emulate 128 vs.

(** CSI X: blanks are written over the characters from the cursor on. *)
Definition erase_chars (emulate : bytes -> VSscrn -> outcome VSscrn) (vs : VSscrn) : outcome VSscrn :=
  p0 ← parm 0 vs;
  vs ← (if p0 =? 0 then set_parm 0 1 vs else Done vs);
  let saved := vs in
  let vs := vs <| lastchar := 32 |> in
  let vs := if vtemulation vs =? 3 then vs else vs <| attrib := Z.land (attrib vs) (Z.lor kVSansi2b kVSgrph) |> in
  vs ← repeat_last emulate 128 vs;
  Done (vs <| x := x saved |> <| y := y saved |> <| lastchar := lastchar saved |> <| attrib := attrib saved |>).

(** ** The characters of a control sequence *)

(** The parameters and the intermediate characters: [None] for the others. *)
Definition csi_parameter (b fl : Z) (vs : VSscrn) : option (outcome step) :=
  if b =? 0x08 then Some (Done (Goes esc_csi fl (backspace vs)))
  else if (ch "0" <=? b) && (b <=? ch "9") then Some (vs ← csi_digit b vs; Done (Goes esc_csi fl vs))
  else if b =? ch "?" then
    Some (vs ← set_parm (parmptr vs) (-2) vs; Done (Goes esc_csi fl (vs <| parmptr := parmptr vs + 1 |>)))
  else if b =? ch ";" then Some (Done (Goes esc_csi fl (vs <| parmptr := parmptr vs + 1 |>)))
  else if b =? 34 then Some (Done (Goes esc_descl fl vs))
  else if b =? ch ">" then Some (Done (Goes esc_csi (Z.lor fl 1) vs))
  else if (b =? ch "!") || (b =? 39) then Some (Done (Goes esc_decl fl vs))
  else None.

(** CSI i: printing. *)
Definition media_copy (vs : VSscrn) : outcome VSscrn :=
  p ← parm (parmptr vs) vs; Done (if p =? 5 then VSprON vs else vs).

(** The final characters. *)
Definition csi_final (emulate : bytes -> VSscrn -> outcome VSscrn) (mw b fl : Z) (vs : VSscrn) : outcome VSscrn :=
  if b =? ch "A" then cursor_up vs
  else if b =? ch "X" then erase_chars emulate vs
  else if b =? ch "b" then repeat_char emulate vs
  else if b =? ch "B" then cursor_down vs
  else if b =? ch "C" then cursor_right mw vs
  else if b =? ch "c" then device_attributes fl vs
  else if b =? ch "d" then cursor_row mw vs
  else if b =? ch "D" then cursor_left mw vs
  else if b =? ch "G" then cursor_column mw vs
  else if b =? ch "g" then tab_clear vs
  else if b =? ch "h" then VSIsetoption 1 vs
  else if (b =? ch "f") || (b =? ch "H") then cursor_position mw vs
  else if b =? ch "J" then erase_by VSIeeos VSIebos VSIes vs
  else if b =? ch "K" then erase_by VSIeeol VSIebol (VSIel (-1)) vs
  else if b =? ch "L" then '(n, vs) ← count_parm vs; VSIinslines n (-1) vs
  else if b =? ch "l" then VSIsetoption 0 vs
  else if b =? ch "M" then '(n, vs) ← count_parm (VSIflush vs); VSIdellines n (-1) vs
  else if b =? ch "m" then set_attributes vs
  else if b =? ch "n" then device_status vs
  else if b =? ch "P" then '(n, vs) ← count_parm vs; VSIdelchars n vs
  else if b =? ch "r" then scrolling_region vs
  else if b =? ch "@" then '(n, vs) ← count_parm vs; vs ← VSIinschar n 1 vs; Done (draw VSredrawLine vs)
  else Done vs.

Definition csi (emulate : bytes -> VSscrn -> outcome VSscrn) (mw b fl : Z) (vs : VSscrn) : outcome step :=
  match csi_parameter b fl vs with
  | Some r => r
  | None =>
    if b =? ch "i" then vs ← media_copy vs; Done (Goes esc_root fl vs)
    else vs ← csi_final emulate mw b fl vs; Done (Ends vs)
  end.

(** ** The other escape sequences *)

Definition line_size (la : Z) (vs : VSscrn) : outcome VSscrn :=
  let la := Z.lor (Z.land (lattrib vs) (Z.lnot (Z.lor kVSdecdhlt kVSdecdhlb))) la in
  p ← line_at (y vs) vs;
  vs ← set_lattr p la (vs <| lattrib := la |>);
  Done (draw VSredrawLine vs).

Definition decl (b fl : Z) (vs : VSscrn) : outcome step :=
  let size := fun la => vs ← line_size la vs; Done (Ends vs) in
  if b =? 0x08 then Done (Goes esc_decl fl (backspace vs))
  else if b =? ch "3" then size kVSdecdhlt
  else if b =? ch "4" then size kVSdecdhlb
  else if b =? ch "5" then size 0
  else if b =? ch "6" then size (Z.lor kVSdecdhlt kVSdecdhlb)
  else if b =? ch "8" then vs ← VTalign vs; Done (Ends vs)
  else Done (Ends vs).

(** DECSCL *)
Definition descl (b fl : Z) (vs : VSscrn) : outcome step :=
  if b =? 0x08 then Done (Goes esc_descl fl (backspace vs))
  else if b =? ch "p" then
    p0 ← parm 0 vs;
    if p0 =? 61 then Done (Ends (vs <| vtemulation := 0 |>))
    else if p0 =? 62 then
      p1 ← parm 1 vs;
      Done (Ends (if (p1 =? -1) || (p1 =? 0) || (p1 =? 2) then vs <| vtemulation := 1 |> <| vteightbits := 1 |>
                  else if p1 =? 1 then vs <| vtemulation := 1 |> <| vteightbits := 0 |> else vs))
    else Done (Ends vs)
  else Done (Ends vs).

(** The input translation of a multi-byte session. *)
Definition switch_in (national charset : Z) (vs : VSscrn) : VSscrn :=
  match session vs with
  | Some tw =>
    if GetTranslationIndex (innational tw) <? 0 then
      let '(tw, reset) := switchintranslation tw national charset in
      let vs := vs <| session := Some tw |> in
      if reset : bool then vs <| trincount := 0 |> <| trinx := 0 |> <| trintag := 0 |> else vs
    else vs
  | None => vs
  end.

(** G0 or G1 is set, and used if it is the current set. *)
Definition designate_G0 (on : Z) (vs : VSscrn) : VSscrn :=
  let vs := vs <| G0 := on |> in if charset vs =? 0 then graph on vs else vs.
Definition designate_G1 (on : Z) (vs : VSscrn) : VSscrn :=
  let vs := vs <| G1 := on |> in if charset vs =? 0 then vs else graph on vs.

Definition select_G0 (b fl : Z) (vs : VSscrn) : outcome step :=
  if b =? 0x08 then Done (Goes esc_G0 fl (backspace vs))
  else if (b =? ch "A") || (b =? ch "B") || (b =? ch "1") then Done (Ends (switch_in kTRJIS kASCII (designate_G0 0 vs)))
  else if (b =? ch "0") || (b =? ch "2") then Done (Ends (designate_G0 1 vs))
  else if b =? ch "J" then Done (Ends (switch_in kTRJIS kJISX0201_1976 vs))
  else if b =? ch "I" then Done (Ends (switch_in kTRJISX0201_76kana 0 vs))
  else Done (Ends vs).

Definition select_G1 (b fl : Z) (vs : VSscrn) : outcome step :=
  if b =? 0x08 then Done (Goes esc_G1 fl (backspace vs))
  else if (b =? ch "A") || (b =? ch "B") || (b =? ch "1") then Done (Ends (designate_G1 0 vs))
  else if (b =? ch "0") || (b =? ch "2") then Done (Ends (designate_G1 1 vs))
  else Done (Ends vs).

(** G2 and G3 are not supported. *)
Definition select_G2 (b fl : Z) (vs : VSscrn) : outcome step :=
  Done (if b =? 0x08 then Goes esc_G2 fl (backspace vs) else Ends vs).
Definition select_G3 (b fl : Z) (vs : VSscrn) : outcome step :=
  Done (if b =? 0x08 then Goes esc_G3 fl (backspace vs) else Ends vs).

(** The multi-byte sets for G0. *)
Definition select_G0j (b fl : Z) (vs : VSscrn) : outcome step :=
  if b =? 0x08 then Done (Goes esc_G0j fl (backspace vs))
  else if b =? ch "@" then Done (Ends (if fl =? 0 then switch_in kTRJIS kJISX0208_1978 (designate_G0 0 vs) else vs))
  else if b =? ch "B" then Done (Ends (if fl =? 0 then switch_in kTRJIS kJISX0208_1983 (designate_G0 0 vs) else vs))
  else if b =? ch "A" then Done (Ends (if fl =? 0 then designate_G0 0 vs else vs))
  else if b =? ch "(" then Done (if fl =? 0 then Goes esc_G0j 1 vs else Ends vs)
  else if b =? ch "D" then Done (Ends (if fl =? 1 then switch_in kTRJISX0212_1990 0 (designate_G0 0 vs) else vs))
  else Done (Ends vs).

Definition select_G2j (b fl : Z) (vs : VSscrn) : outcome step :=
  Done (if b =? 0x08 then Goes esc_G2j fl (backspace vs)
        else if (b =? ch "A") || (b =? ch "F") then Ends (if charset vs =? 0 then vs else graph 0 vs)
        else Ends vs).

(** Appends a character to [VSIw->tempstr], a string of at most 255
    characters. *)
Definition append_tempstr (b : Z) (vs : VSscrn) : outcome VSscrn :=
  n ← arr_get (tempstr vs) 0;
  if n <? 255 then
    t ← arr_set 0 (n + 1) (tempstr vs);
    t ← arr_set (n + 1) b t;
    Done (vs <| tempstr := t |>)
  else Done vs.

Definition clear_tempstr (vs : VSscrn) : outcome VSscrn := t ← arr_set 0 0 (tempstr vs); Done (vs <| tempstr := t |>).

(** The string it holds. *)
Definition tempstr_value (vs : VSscrn) : outcome bytes :=
  n ← arr_get (tempstr vs) 0; Done (slice 1 n (tempstr vs)).

(** ESC && Burl, the URL, and the end of a line. *)
Definition url_letter (fl : Z) : option Z :=
  if fl =? 0 then Some (ch "&") else if fl =? 1 then Some (ch "B") else if fl =? 2 then Some (ch "u")
  else if fl =? 3 then Some (ch "r") else if fl =? 4 then Some (ch "l") else None.

Definition url (b fl : Z) (vs : VSscrn) : outcome step :=
  if bool_decide (url_letter fl = Some b) then
    vs ← (if fl =? 4 then clear_tempstr vs else Done vs);
    Done (Goes esc_url (fl + 1) vs)
  else if fl =? 5 then
    if (b =? 0x0d) || (b =? 0x0a) then
      s ← tempstr_value vs;
      let '(ok, vs) :=
        match session vs with
        | Some tw => if nz (launchurlesc tw) then ask (HandleURL s) vs else (0, vs)
        | None => (0, vs)
        end in
      Done (Goes esc_root fl (draw (RSsendstring [if nz ok then ch "S" else ch "F"]) vs))
    else
      n ← arr_get (tempstr vs) 0;
      if n <? 255 then vs ← append_tempstr b vs; Done (Goes esc_url fl vs) else Done (Ends vs)
  else Done (Ends vs).

(** ** The machine *)

(** How a part of an iteration ends: control falls through to the next part,
    or jumps to [ShortCut] with [*c] at the head of the buffer. *)
Inductive flow := Falls (escflg escflags : Z) (c : bytes) (vs : VSscrn) | Cuts (c : bytes) (vs : VSscrn).

Definition and_then (m : outcome flow) (k : Z -> Z -> bytes -> VSscrn -> outcome flow) : outcome flow :=
  r ← m; match r with Falls f fl c vs => k f fl c vs | Cuts c vs => Done (Cuts c vs) end.

(** [while (escflg == state && ctr > 0) { ++c; --ctr; }] *)
Fixpoint esc_loop (state : Z) (h : Z -> Z -> VSscrn -> outcome step) (f fl : Z) (c : bytes) (vs : VSscrn) : outcome flow :=
  match c with
  | [] => Done (Falls f fl [] vs)
  | b :: r =>
    if f =? state then
      s ← h b fl vs;
      match s with
      | Ends vs => Done (Cuts c vs)
      | Goes f fl vs => esc_loop state h f fl r vs
      end
    else Done (Falls f fl c vs)
  end.

(** The C1 controls; [0x9d] stays in the buffer. *)
Definition c1_block (f fl : Z) (c : bytes) (vs : VSscrn) : outcome flow :=
  match c with
  | b :: r =>
    if (f =? esc_root) && eight_bit b vs then
      s ← c1_control b fl vs;
      Done (match s with
            | Ends vs => Cuts c vs
            | Goes f fl vs => Falls f fl (if f =? esc_csi then r else c) vs
            end)
    else Done (Falls f fl c vs)
  | [] => Done (Falls f fl c vs)
  end.

(** The title of the window up to BEL or ESC. *)
Fixpoint title (c : bytes) (vs : VSscrn) : outcome (bytes * VSscrn) :=
  match c with
  | [] => Done ([], vs)
  | b :: r => if (b =? 7) || (b =? ESC) then Done (c, vs) else vs ← append_tempstr b vs; title r vs
  end.

Definition hex_digit (b : Z) : option Z :=
  if (ch "0" <=? b) && (b <=? ch "9") then Some (b - ch "0")
  else if (ch "A" <=? b) && (b <=? ch "F") || (ch "a" <=? b) && (b <=? ch "f") then Some (Z.land b 0xdf - ch "A" + 10)
  else None.

Definition set_colour (vs : VSscrn) : outcome VSscrn :=
  p0 ← parm 0 vs; p1 ← parm 1 vs; p2 ← parm 2 vs; p3 ← parm 3 vs; p4 ← parm 4 vs; p5 ← parm 5 vs; p6 ← parm 6 vs;
  Done (draw (RSsetcolors (p0 + 4) (u16 (16 * p1 + p2)) (u16 (16 * p3 + p4)) (u16 (16 * p5 + p6))) vs).

(** A digit of the palette; it is taken at [ShortCut]. *)
Definition palette (f fl : Z) (c : bytes) (vs : VSscrn) : outcome flow :=
  match c with
  | b :: _ =>
    match hex_digit b with
    | Some d =>
      vs ← set_parm (parmptr vs) d vs;
      let vs := vs <| parmptr := parmptr vs + 1 |> in
      if parmptr vs =? 7 then vs ← set_colour vs; Done (Cuts c vs) else Done (Falls f fl c vs)
    | None => Done (Cuts c vs)
    end
  | [] => Done (Falls f fl c vs)
  end.

(** The character before the rest [c] of the buffer [buf], for [c--]: it is
    only looked at when [possibleForce] is set. *)
Definition step_back (buf c : bytes) (vs : VSscrn) : outcome bytes :=
  if decide (length c = length buf) then
    if nz (possibleForce vs) then Crash OutOfBounds else Done (0 :: c)
  else Done (drop (length buf - length c - 1) buf).

(** ESC ] 0 ; title, ESC ] 2 ; title, ESC ] P digits, ESC ] R *)
Definition xterm_body (buf : bytes) (f fl : Z) (c : bytes) (vs : VSscrn) : outcome flow :=
  '(fl, c, vs) ←
    match c with
    | b :: r => if (fl =? 1) && (b =? ch ";") then vs ← clear_tempstr vs; Done (2, r, vs) else Done (fl, c, vs)
    | [] => Done (fl, c, vs)
    end;
  if fl =? 2 then
    '(c, vs) ← title c vs;
    match c with
    | b :: _ =>
      s ← tempstr_value vs;
      let vs := draw (SetWindowName s) vs in
      c ← (if b =? 7 then Done c else step_back buf c vs);
      Done (Cuts c vs)
    | [] => Done (Falls f fl c vs)
    end
  else if fl =? 3 then palette f fl c vs
  else Done (Falls f fl c vs).

Definition xterm (buf : bytes) (f fl : Z) (c : bytes) (vs : VSscrn) : outcome flow :=
  match c with
  | b :: r =>
    if f =? esc_XTerm then
      if fl =? 0 then
        if (b =? ch "0") || (b =? ch "2") then xterm_body buf f 1 r vs
        else if b =? ch "P" then xterm_body buf f 3 r vs
        else if b =? ch "R" then Done (Cuts c (draw RSresetcolors vs))
        else Done (Cuts c vs)
      else xterm_body buf f fl c vs
    else Done (Falls f fl c vs)
  | [] => Done (Falls f fl c vs)
  end.

(** The end of an iteration: an unfinished sequence is cut off when characters
    are left. *)
Definition cut_off (f fl : Z) (c : bytes) (vs : VSscrn) : outcome flow :=
  Done (match c with _ :: _ => if esc_csi <? f then Cuts c vs else Falls f fl c vs | [] => Falls f fl c vs end).

(** The loops of an iteration for the escape sequences. *)
Definition escapes (emulate : bytes -> VSscrn -> outcome VSscrn) (mw : Z) (buf : bytes) (f fl : Z) (c : bytes) (vs : VSscrn) : outcome flow :=
  let m := esc_loop esc_basic basic f fl c vs in
  let m := and_then m (esc_loop esc_csi (csi emulate mw)) in
  let m := and_then m (esc_loop esc_decl decl) in
  let m := and_then m (esc_loop esc_descl descl) in
  let m := and_then m (esc_loop esc_G0 select_G0) in
  let m := and_then m (esc_loop esc_G1 select_G1) in
  let m := and_then m (esc_loop esc_G2 select_G2) in
  let m := and_then m (esc_loop esc_G3 select_G3) in
  let m := and_then m (esc_loop esc_G0j select_G0j) in
  let m := and_then m (esc_loop esc_G2j select_G2j) in
  let m := and_then m (xterm buf) in
  let m := and_then m (esc_loop esc_url url) in
  and_then m cut_off.

(** The text of an iteration. *)
Definition texts (mw : Z) (tryit captured : bool) (f fl : Z) (c : bytes) (vs : VSscrn) : outcome flow :=
  if f =? esc_root then
    '(c, vs) ← text_rounds (length c) mw tryit captured c vs; Done (Falls f fl c vs)
  else Done (Falls f fl c vs).

(** One round of [while (ctr > 0)]. *)
Definition iteration (emulate : bytes -> VSscrn -> outcome VSscrn) (captured : bool) (buf : bytes) (f fl : Z) (c : bytes) (vs : VSscrn) : outcome flow :=
  let mw := margin vs in
  '(c, vs) ← (if nz (prredirect vs) then VSpr c vs else Done (c, vs));
  '(f, tryit, c, vs) ← (if f =? esc_root then controls captured c vs else Done (f, false, c, vs));
  let m := c1_block f fl c vs in
  let m := and_then m (texts mw tryit captured) in
  and_then m (escapes emulate mw buf).

(** [ShortCut]: the character that ended the sequence is taken. *)
Definition shortcut (b : Z) (vs : VSscrn) : VSscrn :=
  if nz (possibleForce vs) && negb (b =? ch "H") then vs <| possibleForce := 0 |> else vs.

Fixpoint run (emulate : bytes -> VSscrn -> outcome VSscrn) (captured : bool) (buf : bytes) (fuel : nat) (f fl : Z) (c : bytes) (vs : VSscrn) : outcome (Z * Z * VSscrn) :=
  match c with
  | [] => Done (f, fl, vs)
  | _ :: _ =>
    match fuel with
    | O => Crash Hang
    | S fuel =>
      r ← iteration emulate captured buf f fl c vs;
      match r with
      | Falls f fl c vs => run emulate captured buf fuel f fl c vs
      | Cuts (b :: c) vs => run emulate captured buf fuel esc_root 0 c (shortcut b vs)
      | Cuts [] vs => Crash OutOfBounds
      end
    end
  end.

(** Everything is captured when debugging, in pieces of 255. *)
Fixpoint capture_all (fuel : nat) (c : bytes) (vs : VSscrn) : outcome VSscrn :=
  match c with
  | [] => Done vs
  | _ :: _ =>
    match fuel with
    | O => Crash Hang
    | S fuel => vs ← VScapture (take 255 c) vs; capture_all fuel (drop 255 c) vs
    end
  end.

(** [VSem], with what it calls for a repeated character. Every second
    iteration takes a character. *)
Definition VSem_with (emulate : bytes -> VSscrn -> outcome VSscrn) (c : bytes) (vs : VSscrn) : outcome VSscrn :=
  let f := escflg vs in
  let fl := escflags vs in
  let captured := debug && nz (captureRN vs) in
  vs ← (if captured then capture_all (length c) c vs else Done vs);
  '(f, fl, vs) ← run emulate captured c (S (2 * length c)) f fl c vs;
  Done (vs <| escflg := f |> <| escflags := fl |>).

(** A repeated character does not repeat a character itself. *)
Definition VSem_nested : bytes -> VSscrn -> outcome VSscrn := VSem_with (fun _ _ => Crash Hang).
Definition VSem : bytes -> VSscrn -> outcome VSscrn := VSem_with VSem_nested.

End Emulator.

End Emulator.
