(* ===== verification/Frame.v ===== *)
(** A calculus of postconditions for routines that end ([ends]), and with it
    what the kernel leaves alone: every routine of [Screen] that works on lines
    ends, and keeps the size of the screen, its scrolling region, the cursor,
    the parameters and the session ([keeps]). *)
From S2P Require Import Prelude Window Translate Lines Screen Rows Scrollback Kernel View.
Import Translate Lines Screen Rows Scrollback Kernel View.

Module Frame.

(** ** Postconditions *)

(** [m] ends, and what it returns, if it returns, satisfies [Q]. *)
Definition ends {A} (m : outcome A) (Q : A -> Prop) : Prop :=
  match m with Done a => Q a | Reject => True | Crash Hang => False | Crash _ => True end.

Lemma ends_bind {A B} (m : outcome A) (f : A -> outcome B) Q :
  ends m (fun a => ends (f a) Q) -> ends (m ≫= f) Q.
Proof. destruct m as [| |[]]; done. Qed.

Lemma ends_mono {A} (m : outcome A) (P Q : A -> Prop) : ends m P -> (forall a, P a -> Q a) -> ends m Q.
Proof. destruct m as [| |[]]; simpl; auto. Qed.

Lemma ends_any {A} (m : outcome A) (Q : A -> Prop) : ends m (fun _ => True) -> (forall a, Q a) -> ends m Q.
Proof. intros H HQ. eapply ends_mono; [exact H | auto]. Qed.

(** [m ≫= f] where [m] was shown to satisfy [P]. *)
Lemma ends_seq {A B} (m : outcome A) (f : A -> outcome B) (P : A -> Prop) Q :
  ends m P -> (forall a, P a -> ends (f a) Q) -> ends (m ≫= f) Q.
Proof. intros Hm Hf. apply ends_bind. eapply ends_mono; eauto. Qed.

Lemma ends_Done {A} (m : outcome A) Q a : ends m Q -> m = Done a -> Q a.
Proof. by intros H ->. Qed.

Lemma ends_hang {A} (m : outcome A) Q : ends m Q -> m <> Crash Hang.
Proof. by intros H ->. Qed.

(** The primitive operations on memory end. *)
Lemma ends_load p h : ends (load p h) (fun _ => True).
Proof. unfold load. by destruct (_ !! _). Qed.
Lemma ends_modify p f h : ends (modify p f h) (fun _ => True).
Proof. unfold modify, load. by destruct (_ !! _). Qed.
Lemma ends_arr_get (l : bytes) i : ends (arr_get l i) (fun v => v ∈ l).
Proof.
  unfold arr_get. destruct (_ <=? _); [|done]. destruct (l !! _) eqn:E; [|done]. simpl.
  by eapply list_elem_of_lookup_2.
Qed.
Lemma ends_arr_set i v (l : bytes) : ends (arr_set i v l) (fun r => length r = length l /\ forall P, P v -> Forall P l -> Forall P r).
Proof.
  unfold arr_set. destruct (_ && _); [|done]. simpl. split; [by rewrite length_insert|].
  intros P Hv Hl. by apply Forall_insert.
Qed.
Lemma ends_ret {A} (a : A) (Q : A -> Prop) : Q a -> ends (Done a) Q.
Proof. done. Qed.

Create HintDb ends.
#[export] Hint Resolve ends_load ends_modify : ends.
#[export] Hint Extern 1 (ends (set_next _ _ _) _) => apply ends_modify : ends.
#[export] Hint Extern 1 (ends (set_prev _ _ _) _) => apply ends_modify : ends.

Lemma ends_arr_get' l i : ends (arr_get l i) (fun _ => True).
Proof. by eapply ends_mono; [apply ends_arr_get|]. Qed.
Lemma ends_arr_set' i v l : ends (arr_set i v l) (fun _ => True).
Proof. by eapply ends_mono; [apply ends_arr_set|]. Qed.
#[export] Hint Resolve ends_arr_get' ends_arr_set' : ends.

(** ** What the kernel leaves alone *)

(** The fields none of the routines that work on lines touches. *)
Definition kernel (vs : VSscrn) :=
  (lines vs, maxwidth vs, allwidth vs, top vs, bottom vs, parms vs, DECAWM vs, escflg vs, (vtemulation vs, vteightbits vs), (session vs, trincount vs, trinx vs), x vs, y vs).

Lemma kernel_store vs h : kernel (vs <| store := h |>) = kernel vs. Proof. reflexivity. Qed.
Lemma kernel_linest vs h : kernel (vs <| linest := h |>) = kernel vs. Proof. reflexivity. Qed.
Lemma kernel_scrntop vs h : kernel (vs <| scrntop := h |>) = kernel vs. Proof. reflexivity. Qed.
Lemma kernel_buftop vs h : kernel (vs <| buftop := h |>) = kernel vs. Proof. reflexivity. Qed.
Lemma kernel_vistop vs h : kernel (vs <| vistop := h |>) = kernel vs. Proof. reflexivity. Qed.
Lemma kernel_numlines vs h : kernel (vs <| numlines := h |>) = kernel vs. Proof. reflexivity. Qed.
Lemma kernel_Rtop vs h : kernel (vs <| Rtop := h |>) = kernel vs. Proof. reflexivity. Qed.
Lemma kernel_Rbottom vs h : kernel (vs <| Rbottom := h |>) = kernel vs. Proof. reflexivity. Qed.
Lemma kernel_drawn vs h : kernel (vs <| drawn := h |>) = kernel vs. Proof. reflexivity. Qed.
Lemma kernel_skip vs h : kernel (vs <| skip := h |>) = kernel vs. Proof. reflexivity. Qed.
Lemma kernel_linesjumped vs h : kernel (vs <| linesjumped := h |>) = kernel vs. Proof. reflexivity. Qed.
Lemma kernel_possibleForce vs h : kernel (vs <| possibleForce := h |>) = kernel vs. Proof. reflexivity. Qed.
Lemma kernel_lattrib vs h : kernel (vs <| lattrib := h |>) = kernel vs. Proof. reflexivity. Qed.
Lemma kernel_attrib vs h : kernel (vs <| attrib := h |>) = kernel vs. Proof. reflexivity. Qed.
Lemma kernel_tabs vs h : kernel (vs <| tabs := h |>) = kernel vs. Proof. reflexivity. Qed.
Lemma kernel_lastchar vs h : kernel (vs <| lastchar := h |>) = kernel vs. Proof. reflexivity. Qed.
Lemma kernel_captureRN vs h : kernel (vs <| captureRN := h |>) = kernel vs. Proof. reflexivity. Qed.
Lemma kernel_prredirect vs h : kernel (vs <| prredirect := h |>) = kernel vs. Proof. reflexivity. Qed.
Lemma kernel_printqueued vs h : kernel (vs <| printqueued := h |>) = kernel vs. Proof. reflexivity. Qed.
Lemma kernel_prbuf vs h : kernel (vs <| prbuf := h |>) = kernel vs. Proof. reflexivity. Qed.
Lemma kernel_prbuf2 vs h : kernel (vs <| prbuf2 := h |>) = kernel vs. Proof. reflexivity. Qed.
Lemma kernel_trintag vs h : kernel (vs <| trintag := h |>) = kernel vs. Proof. reflexivity. Qed.
Lemma kernel_charset vs h : kernel (vs <| charset := h |>) = kernel vs. Proof. reflexivity. Qed.
Lemma kernel_G0 vs h : kernel (vs <| G0 := h |>) = kernel vs. Proof. reflexivity. Qed.
Lemma kernel_G1 vs h : kernel (vs <| G1 := h |>) = kernel vs. Proof. reflexivity. Qed.
Lemma kernel_DECPAM vs h : kernel (vs <| DECPAM := h |>) = kernel vs. Proof. reflexivity. Qed.
Lemma kernel_DECORG vs h : kernel (vs <| DECORG := h |>) = kernel vs. Proof. reflexivity. Qed.
Lemma kernel_DECCM vs h : kernel (vs <| DECCM := h |>) = kernel vs. Proof. reflexivity. Qed.
Lemma kernel_DECCKM vs h : kernel (vs <| DECCKM := h |>) = kernel vs. Proof. reflexivity. Qed.
Lemma kernel_IRM vs h : kernel (vs <| IRM := h |>) = kernel vs. Proof. reflexivity. Qed.
Lemma kernel_tempstr vs h : kernel (vs <| tempstr := h |>) = kernel vs. Proof. reflexivity. Qed.
Lemma kernel_trinbuf vs h : kernel (vs <| trinbuf := h |>) = kernel vs. Proof. reflexivity. Qed.
Lemma kernel_parmptr vs h : kernel (vs <| parmptr := h |>) = kernel vs. Proof. reflexivity. Qed.
Lemma kernel_Px vs h : kernel (vs <| Px := h |>) = kernel vs. Proof. reflexivity. Qed.
Lemma kernel_Py vs h : kernel (vs <| Py := h |>) = kernel vs. Proof. reflexivity. Qed.
Lemma kernel_Pattrib vs h : kernel (vs <| Pattrib := h |>) = kernel vs. Proof. reflexivity. Qed.
Lemma kernel_escflags vs h : kernel (vs <| escflags := h |>) = kernel vs. Proof. reflexivity. Qed.
Lemma kernel_draw vs d : kernel (draw d vs) = kernel vs. Proof. reflexivity. Qed.
Create Rewrite HintDb kernel.
#[export] Hint Rewrite kernel_store kernel_linest kernel_scrntop kernel_buftop kernel_vistop kernel_numlines kernel_Rtop
  kernel_Rbottom kernel_drawn kernel_skip kernel_linesjumped kernel_possibleForce kernel_lattrib kernel_attrib kernel_tabs
  kernel_lastchar kernel_captureRN kernel_draw kernel_prredirect kernel_printqueued kernel_prbuf kernel_prbuf2 kernel_trintag
  kernel_charset kernel_G0 kernel_G1 kernel_DECPAM kernel_DECORG kernel_DECCM kernel_DECCKM kernel_IRM
  kernel_tempstr kernel_trinbuf kernel_parmptr kernel_Px kernel_Py kernel_Pattrib kernel_escflags : kernel.

Definition keeps (vs vs' : VSscrn) : Prop := kernel vs' = kernel vs.

Lemma keeps_refl vs : keeps vs vs. Proof. done. Qed.
Lemma keeps_trans v1 v2 v3 : keeps v1 v2 -> keeps v2 v3 -> keeps v1 v3.
Proof. unfold keeps. congruence. Qed.

Lemma keeps_ends {A} (m : outcome VSscrn) (f : VSscrn -> outcome A) v Q :
  ends m (keeps v) -> (forall v', keeps v v' -> ends (f v') Q) -> ends (m ≫= f) Q.
Proof. apply ends_seq. Qed.

(** Goals [ends m (keeps vs)] where [m] is made of operations with lemmas in
    [ends] and of setters with lemmas in [kernel]. *)
Ltac kept_field := unfold keeps in *; cbn [fst snd] in *; autorewrite with kernel in *; congruence.
Ltac kept_step :=
  lazymatch goal with
  | |- ends (Done _) _ => apply ends_ret
  | |- ends (Crash Hang) _ => fail
  | |- ends (Crash _) _ => exact I
  | |- ends (if ?b then _ else _) _ => destruct b
  | |- ends (let '(_, _) := ?p in _) _ =>
    let E := fresh in destruct p eqn:E; try (apply (f_equal snd) in E; cbn [snd] in E; subst)
  | |- ends (match ?p with _ => _ end) _ => destruct p eqn:?
  | |- ends (mbind _ ?m) ?Q =>
    lazymatch type of m with
    | outcome VSscrn => eapply (ends_seq m _ Q); [| intros ? ?]
    | _ => eapply ends_seq; [solve [eauto with ends] | intros ? _]
    end
  | |- ends ?m (keeps ?vs) => eapply ends_mono; [solve [eauto with ends] | intros ? ?; kept_field]
  | |- keeps _ _ => kept_field
  end.
Ltac kept := repeat kept_step.

Section Frame.
Context `{MM : Memory} `{TE : TextEncodings}.

Lemma line_at_ends i vs : ends (line_at i vs) (fun _ => True).
Proof. apply ends_arr_get'. Qed.
Lemma last_line_ends vs : ends (last_line vs) (fun _ => True).
Proof. apply line_at_ends. Qed.
Lemma fill_ends n i v l : ends (fill n i v l) (fun _ => True).
Proof. revert i l. induction n as [|n IH]; intros i l; simpl; [done|]. eapply ends_seq; [apply ends_arr_set' | auto]. Qed.
Lemma copy_chars_ends n i s t o l : ends (copy_chars n i s t o l) (fun _ => True).
Proof.
  revert i l. induction n as [|n IH]; intros i l; simpl; [done|].
  eapply ends_seq; [apply ends_arr_get' | intros ? _]. eapply ends_seq; [apply ends_arr_set' | auto].
Qed.
Lemma VSIlistndx_ends n ts h : ends (VSIlistndx n ts h) (fun _ => True).
Proof.
  revert ts. induction n as [|n IH]; intros ts; simpl; [done|].
  eapply ends_seq; [apply ends_load | intros ? _]. eapply ends_seq; [apply IH | done].
Qed.
Lemma VSIlistmove_ends a b c d h : ends (VSIlistmove a b c d h) (fun _ => True).
Proof.
  unfold VSIlistmove. repeat (eapply ends_seq; [repeat case_match; first [by eauto with ends |
    eapply ends_seq; [by eauto with ends | intros; by eauto with ends]] | intros ? _]); repeat case_match; by eauto with ends.
Qed.
Lemma VSInewlines_ends a n h : ends (VSInewlines a n h) (fun _ => True).
Proof. unfold VSInewlines. by repeat case_match. Qed.
Lemma DisposePtr_ends p h : ends (DisposePtr p h) (fun _ => True).
Proof. unfold DisposePtr. by case_match. Qed.
#[local] Hint Resolve line_at_ends last_line_ends fill_ends copy_chars_ends VSIlistndx_ends VSIlistmove_ends VSInewlines_ends DisposePtr_ends : ends.

Lemma set_lattr_keeps p v vs : ends (set_lattr p v vs) (keeps vs).
Proof. unfold set_lattr. kept. Qed.
Lemma blank_keeps p n i a vs : ends (blank p n i a vs) (keeps vs).
Proof. unfold blank. kept. Qed.
Lemma resync_keeps ts vs : ends (resync ts vs) (keeps vs).
Proof. unfold resync. kept. Qed.
Lemma edit_line_keeps p f g vs :
  (forall l, ends (f l) (fun _ => True)) -> (forall l, ends (g l) (fun _ => True)) -> ends (edit_line p f g vs) (keeps vs).
Proof. intros Hf Hg. unfold edit_line. kept. Qed.
#[local] Hint Resolve set_lattr_keeps blank_keeps resync_keeps : ends.

Lemma VSIelo_keeps s vs : ends (VSIelo s vs) (keeps vs).
Proof. unfold VSIelo. kept. Qed.
#[local] Hint Resolve VSIelo_keeps : ends.

Lemma for_lines_keeps f n i vs : (forall j vs, ends (f j vs) (keeps vs)) -> ends (for_lines f n i vs) (keeps vs).
Proof.
  intros Hf. revert i vs. induction n as [|n IH]; intros i vs; simpl; [done|].
  eapply ends_seq; [apply Hf | intros v Hv]. eapply ends_mono; [apply IH | intros w Hw; kept_field].
Qed.

Lemma VSIcdellines_keeps t b n s vs : keeps vs (VSIcdellines t b n s vs).2.
Proof. unfold VSIcdellines. repeat case_match; kept_field. Qed.
Lemma VSIcinslines_keeps t b n s vs : keeps vs (VSIcinslines t b n s vs).2.
Proof. unfold VSIcinslines. repeat case_match; kept_field. Qed.
Lemma draw_clipped_keeps c f vs : keeps vs (draw_clipped c f vs).
Proof. unfold draw_clipped. repeat case_match; kept_field. Qed.
Lemma kernel_VSIcdellines t b n s vs : kernel (VSIcdellines t b n s vs).2 = kernel vs.
Proof. apply VSIcdellines_keeps. Qed.
Lemma kernel_VSIcinslines t b n s vs : kernel (VSIcinslines t b n s vs).2 = kernel vs.
Proof. apply VSIcinslines_keeps. Qed.
Lemma kernel_draw_clipped c f vs : kernel (draw_clipped c f vs) = kernel vs.
Proof. apply draw_clipped_keeps. Qed.

Lemma VSIflush_keeps vs : keeps vs (VSIflush vs).
Proof.
  unfold VSIflush. destruct (_ =? 0); [done|].
  destruct (VSIcdellines _ _ _ _ _) as [i v] eqn:E.
  pose proof (VSIcdellines_keeps (top (vs <| skip := 0 |>)) (bottom (vs <| skip := 0 |>)) (linesjumped (vs <| skip := 0 |>))
    (- linesjumped (vs <| skip := 0 |>)) (vs <| skip := 0 |>)) as HK.
  rewrite E in HK. simpl in HK. destruct (_ <? _); kept_field.
Qed.
Lemma kernel_VSIflush vs : kernel (VSIflush vs) = kernel vs.
Proof. apply VSIflush_keeps. Qed.
#[local] Hint Rewrite kernel_VSIcdellines kernel_VSIcinslines kernel_draw_clipped kernel_VSIflush : kernel.

Lemma blank_lines_keeps k n p a vs : ends (blank_lines k n p a vs) (keeps vs).
Proof.
  revert p vs. induction n as [|n IH]; intros p vs; simpl; [done|].
  kept. all: eapply ends_mono; [apply IH | intros; kept_field].
Qed.
Lemma resync_vistop_keeps vs : ends (resync_vistop vs) (keeps vs).
Proof. unfold resync_vistop. kept. Qed.
#[local] Hint Resolve blank_lines_keeps resync_vistop_keeps : ends.

Lemma VSIlistmove_if_ends (b : bool) a c d e h : ends (if b then VSIlistmove a c d e h else Done h) (fun _ => True).
Proof. destruct b; [apply VSIlistmove_ends | done]. Qed.
#[local] Hint Resolve VSIlistmove_if_ends : ends.

Lemma VSIdellines_keeps n s vs : ends (VSIdellines n s vs) (keeps vs).
Proof. unfold VSIdellines. kept. Qed.
Lemma VSIinslines_keeps n s vs : ends (VSIinslines n s vs) (keeps vs).
Proof. unfold VSIinslines. cbv zeta. kept. Qed.
Lemma step_buftop_keeps vs : ends (step_buftop vs) (keeps vs).
Proof. unfold step_buftop. kept. Qed.
Lemma close_ring_keeps p vs : ends (close_ring p vs) (keeps vs).
Proof. unfold close_ring. kept. Qed.
#[local] Hint Resolve VSIdellines_keeps VSIinslines_keeps step_buftop_keeps close_ring_keeps : ends.

Lemma VSInewlines_if_ends (b : bool) a n h : ends (if b then VSInewlines a n h else Done (0, h)) (fun _ => True).
Proof. destruct b; [apply VSInewlines_ends | done]. Qed.
#[local] Hint Resolve VSInewlines_if_ends : ends.

Lemma scroll_room_keeps vs : ends (scroll_room vs) (keeps vs).
Proof. unfold scroll_room, bufinfo. kept. Qed.
Lemma scroll_display_keeps vs : ends (scroll_display vs) (keeps vs).
Proof. unfold scroll_display. cbv zeta. kept. Qed.
Lemma set_prev_if_ends (b : bool) p q h : ends (if b then set_prev p q h else Done h) (fun _ => True).
Proof. destruct b; [apply ends_modify | done]. Qed.
#[local] Hint Resolve scroll_room_keeps scroll_display_keeps set_prev_if_ends : ends.
Lemma lift_last_keeps vs : ends (lift_last vs) (keeps vs).
Proof. unfold lift_last. kept. Qed.
#[local] Hint Resolve lift_last_keeps : ends.

Lemma VSIscroll_keeps vs : ends (VSIscroll vs) (keeps vs).
Proof. unfold VSIscroll. kept. Qed.

Lemma scroff_room_keeps n i t vs : ends (scroff_room n i t vs) (keeps vs).
Proof.
  revert i t vs. induction n as [|n IH]; intros i t vs; simpl; [done|].
  kept. all: eapply ends_mono; [apply IH | intros; kept_field].
Qed.
Lemma scroff_push_keeps n vs : ends (scroff_push n vs) (keeps vs).
Proof.
  revert vs. induction n as [|n IH]; intros vs; simpl; [done|].
  kept. all: eapply ends_mono; [apply IH | intros; kept_field].
Qed.
#[local] Hint Resolve VSIscroll_keeps scroff_room_keeps scroff_push_keeps : ends.
Lemma VSIscroff_keeps vs : ends (VSIscroff vs) (keeps vs).
Proof. unfold VSIscroff, bufinfo. cbv zeta. kept. Qed.
#[local] Hint Resolve VSIscroff_keeps : ends.

Lemma VSIelo_lines_keeps n i vs : ends (for_lines VSIelo n i vs) (keeps vs).
Proof. apply for_lines_keeps. auto with ends. Qed.
#[local] Hint Resolve VSIelo_lines_keeps : ends.
Lemma VSIes_keeps vs : ends (VSIes vs) (keeps vs).
Proof. unfold VSIes, bufinfo. cbv zeta. kept. Qed.
#[local] Hint Resolve VSIes_keeps : ends.

Lemma tab_stops_ends n c t : ends (tab_stops n c t) (fun _ => True).
Proof. revert c t. induction n as [|n IH]; intros c t; simpl; [done|]. eapply ends_seq; [apply ends_arr_set' | auto]. Qed.
#[local] Hint Resolve tab_stops_ends : ends.
Lemma VSItabclear_keeps vs : ends (VSItabclear vs) (keeps vs).
Proof. unfold VSItabclear. kept. Qed.
#[local] Hint Resolve VSItabclear_keeps : ends.
Lemma VSItabinit_keeps vs : ends (VSItabinit vs) (keeps vs).
Proof. unfold VSItabinit. kept. Qed.

Lemma contents_ends ps vs : ends (contents ps vs) (fun _ => True).
Proof.
  revert vs. induction ps as [|p ps IH]; intros vs; simpl; [done|].
  eapply ends_seq; [apply ends_load | intros ? _]. eapply ends_seq; [apply IH | done].
Qed.
Lemma restore_contents_keeps ps ls vs : ends (restore_contents ps ls vs) (keeps vs).
Proof.
  revert ls vs. induction ps as [|p ps IH]; intros [|l ls] vs; simpl; try done.
  kept. all: eapply ends_mono; [apply IH | intros; kept_field].
Qed.
#[local] Hint Resolve contents_ends restore_contents_keeps VSItabinit_keeps : ends.
Lemma force_save_keeps vs : ends (force_save vs) (keeps vs).
Proof. unfold force_save. cbv zeta. kept. Qed.
#[local] Hint Resolve force_save_keeps : ends.

Lemma align_keeps n i vs : ends (for_lines align_line n i vs) (keeps vs).
Proof.
  apply for_lines_keeps. intros j w. unfold align_line.
  eapply ends_seq; [apply line_at_ends | intros ? _]. eapply ends_seq; [apply set_lattr_keeps | intros v Hv].
  eapply ends_mono; [apply edit_line_keeps; [intros; apply fill_ends | done] | intros; kept_field].
Qed.
#[local] Hint Resolve align_keeps : ends.
Lemma VTalign_keeps vs : ends (VTalign vs) (keeps vs).
Proof. unfold VTalign. kept. Qed.

End Frame.

#[export] Hint Resolve line_at_ends last_line_ends fill_ends copy_chars_ends VSIlistndx_ends VSIlistmove_ends VSInewlines_ends
  DisposePtr_ends set_lattr_keeps blank_keeps resync_keeps VSIelo_keeps blank_lines_keeps resync_vistop_keeps
  VSIlistmove_if_ends VSIdellines_keeps VSIinslines_keeps step_buftop_keeps close_ring_keeps VSInewlines_if_ends
  scroll_room_keeps scroll_display_keeps set_prev_if_ends lift_last_keeps VSIscroll_keeps scroff_room_keeps scroff_push_keeps
  VSIscroff_keeps VSIelo_lines_keeps VSIes_keeps tab_stops_ends VSItabclear_keeps contents_ends restore_contents_keeps
  VSItabinit_keeps force_save_keeps align_keeps VTalign_keeps : ends.
#[export] Hint Rewrite kernel_VSIcdellines kernel_VSIcinslines kernel_draw_clipped kernel_VSIflush : kernel.

End Frame.
