(* ===== verification/Machine.v ===== *)
(** The emulator always comes to an end, and what it leaves is a terminal in
    order ([sane]): the cursor is not below the screen and at most one past the
    memory of a line, the scrolling region lies on the screen, the values of the
    parameters and the state of the machine are in range, and no character is
    pending. *)
From Stdlib Require Import Ascii.
From S2P Require Import Prelude Window Translate Lines Screen Rows Scrollback Kernel View Emulator Frame.
Import Translate Lines Screen Rows Scrollback Kernel View Emulator Frame.

Module Machine.

Section Machine.
Context `{MM : Memory} `{TE : TextEncodings} `{TB : Toolbox}.

(** ** Terminals in order *)

(** The session uses tables of bytes both ways, and no character waits for its
    second byte. *)
Definition plain (vs : VSscrn) : Prop :=
  match session vs with
  | Some tw => 0 <= innational tw <= gTableCount /\ 0 <= outnational tw <= gTableCount /\ trincount vs = 0 /\ trinx vs = 0
  | None => True
  end.

(** One of the thirteen states of the machine. *)
Definition machine_state (f : Z) : Prop := esc_root <= f <= esc_url.

Context (nlines : Z).

(** A screen of [nlines + 1] lines in order. The cursor may be one past the
    last column (a pending wrap) and, after a reverse index above the scrolling
    region, above the screen. *)
Record sane (vs : VSscrn) : Prop := {
  sane_width : 1 <= maxwidth vs <= 255 /\ allwidth vs = 255;
  sane_x : 0 <= x vs <= 256;
  sane_y : y vs <= lines vs;
  sane_region : 0 <= top vs < bottom vs /\ bottom vs <= lines vs /\ lines vs = nlines;
  sane_parms : length (parms vs) = maxparms /\ Forall (fun p => p <= 32767) (parms vs);
  sane_escflg : machine_state (escflg vs);
  sane_session : plain vs
}.

(** What text and the movements of the cursor leave alone. *)
Definition core (vs : VSscrn) := (lines vs, maxwidth vs, allwidth vs, top vs, bottom vs, parms vs, DECAWM vs, escflg vs, (vtemulation vs, vteightbits vs)).

(** [vs'] is in order again, with the same [core]. *)
Definition good (vs vs' : VSscrn) : Prop := sane vs' /\ core vs' = core vs.

Lemma keeps_x vs vs' : keeps vs vs' -> x vs' = x vs.
Proof. unfold keeps, kernel. congruence. Qed.
Lemma keeps_y vs vs' : keeps vs vs' -> y vs' = y vs.
Proof. unfold keeps, kernel. congruence. Qed.
Lemma keeps_core vs vs' : keeps vs vs' -> core vs' = core vs.
Proof. unfold keeps, kernel, core. congruence. Qed.
Lemma keeps_plain vs vs' : keeps vs vs' -> plain vs -> plain vs'.
Proof.
  unfold keeps, kernel, plain. intros HK. assert (E1 : session vs' = session vs) by congruence.
  assert (E2 : trincount vs' = trincount vs) by congruence. assert (E3 : trinx vs' = trinx vs) by congruence. by rewrite E1, E2, E3.
Qed.

Lemma core_fields vs vs' : core vs' = core vs ->
  lines vs' = lines vs /\ maxwidth vs' = maxwidth vs /\ allwidth vs' = allwidth vs /\ top vs' = top vs /\ bottom vs' = bottom vs
  /\ parms vs' = parms vs /\ DECAWM vs' = DECAWM vs /\ escflg vs' = escflg vs /\ vtemulation vs' = vtemulation vs /\ vteightbits vs' = vteightbits vs.
Proof. unfold core. intros [=]. done. Qed.

(** A screen with the same [core] is in order when its cursor and its session
    are. *)
Lemma core_sane vs vs' : core vs' = core vs -> 0 <= x vs' <= 256 -> y vs' <= lines vs -> plain vs' -> sane vs -> good vs vs'.
Proof.
  intros HC Hx Hy Hp [Hw _ _ Hr Hpa He _]. split; [|done].
  apply core_fields in HC as (El & Em & Ea & Et & Eb & Epa & Ed & Ee & _).
  split; rewrite ?El, ?Em, ?Ea, ?Et, ?Eb, ?Epa, ?Ee; auto.
Qed.

Lemma keeps_good vs vs' : keeps vs vs' -> sane vs -> good vs vs'.
Proof.
  intros HK HS. apply core_sane; [by apply keeps_core | rewrite (keeps_x _ _ HK) | rewrite (keeps_y _ _ HK) | |done]; try apply HS.
  eapply keeps_plain; [done | apply HS].
Qed.

Lemma good_trans v1 v2 v3 : good v1 v2 -> good v2 v3 -> good v1 v3.
Proof. intros [_ E1] [H E2]. split; [done | congruence]. Qed.
Lemma good_refl vs : sane vs -> good vs vs.
Proof. by split. Qed.
#[local] Hint Resolve good_refl : ends.

(** Moving the cursor. *)
Lemma good_at vs px py : sane vs -> 0 <= px <= 256 -> py <= lines vs -> good vs (vs <| x := px |> <| y := py |>).
Proof. intros HS Hx Hy. apply core_sane; try done. apply HS. Qed.
Lemma good_x vs px : sane vs -> 0 <= px <= 256 -> good vs (vs <| x := px |>).
Proof. intros HS Hx. apply core_sane; try done; apply HS. Qed.
Lemma good_y vs py : sane vs -> py <= lines vs -> good vs (vs <| y := py |>).
Proof. intros HS Hy. apply core_sane; try done; apply HS. Qed.

Lemma switchintranslation_plain tw c : 0 <= outnational tw <= gTableCount ->
  outnational (switchintranslation tw (outnational tw) c).1 = outnational tw
  /\ innational (switchintranslation tw (outnational tw) c).1 = outnational tw.
Proof.
  intros Ho. unfold switchintranslation, national_index, GetTranslationIndex.
  rewrite (proj2 (Z.ltb_ge (outnational tw) 0)) by lia. rewrite (proj2 (Z.ltb_ge gTableCount _)) by lia.
  assert (Hn : forall k, k < 0 -> (outnational tw =? k) = false) by (intros; apply Z.eqb_neq; lia).
  destruct (innational tw =? outnational tw) eqn:E; cbn [negb]; rewrite !Hn by (unfold kTRJIS, kTRJISX0208_1978, kTRJISX0208_1983; lia).
  - apply Z.eqb_eq in E. done.
  - done.
Qed.

Lemma default_translation_good vs : sane vs -> good vs (default_translation vs) /\ x (default_translation vs) = x vs.
Proof.
  intros HS. pose proof (sane_session _ HS) as Hp. unfold default_translation, plain in *. destruct (session vs) as [tw|] eqn:E; [|split; [by apply good_refl | done]].
  destruct Hp as (Hi & Ho & Ht & Hx). pose proof (switchintranslation_plain tw (outcharset tw) Ho) as [E1 E2].
  destruct (switchintranslation tw (outnational tw) (outcharset tw)) as [tw' r]. simpl in E1, E2.
  assert (Hg : good vs (vs <| session := Some tw' |> <| trincount := 0 |> <| trinx := 0 |> <| trintag := 0 |>) ).
  { apply core_sane; try done; try apply HS. unfold plain. cbn. by rewrite E1, E2. }
  assert (Hg' : good vs (vs <| session := Some tw' |>)).
  { apply core_sane; try done; try apply HS. unfold plain. cbn. by rewrite E1, E2, Ht, Hx. }
  by destruct r.
Qed.

(** ** Moving to the next line *)

Lemma VSIindex_good vs : sane vs -> ends (VSIindex vs) (fun vs' => good vs vs' /\ x vs' = x vs).
Proof.
  intros HS. unfold VSIindex.
  eapply (ends_seq _ _ (fun v => good vs v /\ x v = x vs)).
  - destruct (y vs =? bottom vs) eqn:Ey; [|destruct (y vs <? lines vs) eqn:El].
    + eapply ends_mono; [apply VSIscroll_keeps|]. intros v Hv.
      assert (HK : keeps vs v). { etransitivity; [exact Hv|]. repeat case_match; autorewrite with kernel; reflexivity. }
      split; [by apply keeps_good | by apply keeps_x].
    + split; [|done]. apply good_y; [done | lia].
    + split; [by apply good_refl | done].
  - intros v [[HS' HC] Hx]. assert (HS2 : sane (v <| lattrib := 0 |>)) by exact (proj1 (keeps_good v _ (kernel_lattrib v 0) HS')).
    destruct (default_translation_good _ HS2) as [Hg Hx2]. apply ends_ret. split; [|by rewrite Hx2].
    eapply good_trans; [|exact Hg]. split; [done | exact HC].
Qed.

Lemma VSIrindex_good vs : sane vs -> ends (VSIrindex vs) (good vs).
Proof.
  intros HS. unfold VSIrindex. pose proof (VSIflush_keeps vs) as HF. pose proof (keeps_good _ _ HF HS) as HG.
  destruct (_ =? _).
  - eapply ends_mono; [apply VSIinslines_keeps|]. intros v Hv. apply keeps_good; [|done]. kept_field.
  - apply ends_ret. eapply good_trans; [exact HG|]. apply good_y; [apply HG |]. pose proof (sane_y _ (proj1 HG)). lia.
Qed.

Lemma margin_width vs : 1 <= maxwidth vs -> 0 <= margin vs <= maxwidth vs.
Proof.
  intros Hw. unfold margin. destruct (VSisdecdwh _); [|lia].
  rewrite Z.shiftr_div_pow2, (Z.land_ones _ 1) by lia. change (2 ^ 1) with 2.
  destruct (_ =? 0) eqn:E; div_lia.
Qed.
Lemma margin_range vs : sane vs -> 0 <= margin vs <= maxwidth vs.
Proof. intros HS. apply margin_width. pose proof (sane_width _ HS). lia. Qed.

Lemma VSIwrapnow_good vs : sane vs -> ends (VSIwrapnow vs) (fun r => good vs r.2 /\ (x r.2 = x vs \/ x r.2 = 0)).
Proof.
  intros HS. unfold VSIwrapnow. eapply (ends_seq _ _ (fun v => good vs v /\ (x v = x vs \/ x v = 0))).
  - destruct (_ <? _); [|split; [by apply good_refl | by left]].
    pose proof (good_x vs 0 HS ltac:(lia)) as HG. eapply ends_mono; [exact (VSIindex_good _ (proj1 HG))|].
    intros v [Hv Hx]. split; [exact (good_trans _ _ _ HG Hv) | by right].
  - intros v Hv. exact Hv.
Qed.

Lemma good_keeps vs v w : good vs v -> keeps v w -> good vs w.
Proof. intros G HK. eapply good_trans; [exact G | apply keeps_good; [done | apply G]]. Qed.

Lemma ends_keeps_good m vs v : good vs v -> ends m (keeps v) -> ends m (good vs).
Proof. intros G H. eapply ends_mono; [exact H | intros w Hw; by eapply good_keeps]. Qed.
Lemma ends_good_good m vs v : good vs v -> ends m (good v) -> ends m (good vs).
Proof. intros G H. eapply ends_mono; [exact H | intros w Hw; by eapply good_trans]. Qed.

(** Goals [ends m (good vs)], with the screens reached so far in the
    context. *)
Ltac good_field := match goal with G : good ?vs ?v |- good ?vs _ => solve [apply (good_keeps vs v _ G); kept_field] end.
Ltac good_step :=
  lazymatch goal with
  | |- ends (Done _) _ => apply ends_ret
  | |- ends (Crash Hang) _ => fail
  | |- ends (Crash _) _ => exact I
  | |- ends (if ?b then _ else _) _ => destruct b
  | |- ends (let '(_, _) := ?p in _) _ =>
    let E := fresh in destruct p eqn:E; try (apply (f_equal snd) in E; cbn [snd] in E; subst)
  | |- ends (match ?p with _ => _ end) _ => destruct p eqn:?
  | |- ends (mbind _ ?m) ?Q =>
    lazymatch type of m with
    | outcome VSscrn => eapply (ends_seq m _ Q); [| intros ? ?]
    | _ => eapply ends_seq; [solve [eauto with ends] | intros ? _]
    end
  | |- ends ?m (good ?vs) =>
    match goal with
    | G : good vs ?v |- _ =>
      first [ solve [apply (ends_keeps_good m vs v G); eauto with ends]
            | solve [apply (ends_keeps_good m vs v G); eapply ends_mono; [solve [eauto with ends] | intros ? ?; kept_field]]
            | solve [apply (ends_good_good m vs v G); let H := fresh in pose proof (proj1 G) as H; eauto with good] ]
    end
  | |- good _ (if ?b then _ else _) => destruct b
  | |- good _ _ => good_field
  end.
Create HintDb good.
Ltac goodly := repeat good_step.
Ltac start_good := match goal with H : sane ?vs |- ends _ (good ?vs) => pose proof (good_refl vs H) end.
#[local] Hint Resolve VSIrindex_good : good.

Lemma VSIwrapnow_at vs v : good vs v -> ends (VSIwrapnow v) (fun r => good vs r.2).
Proof. intros G. eapply ends_mono; [apply VSIwrapnow_good, G |]. intros r [Hr _]. by eapply good_trans. Qed.

Lemma force_save_if_keeps (b : bool) vs : ends (if b then force_save vs else Done vs) (keeps vs).
Proof. destruct b; [apply force_save_keeps | done]. Qed.
#[local] Hint Resolve force_save_if_keeps : ends.

Lemma VSIeeol_good vs : sane vs -> ends (VSIeeol vs) (good vs).
Proof.
  intros HS. start_good. unfold VSIeeol. eapply (ends_seq _ _ (good vs)); [goodly | intros v Hv].
  eapply ends_seq; [by apply VSIwrapnow_at | intros [[x1 y1] w] Hw]. cbn [snd] in Hw. goodly.
Qed.
Lemma VSIebol_good vs : sane vs -> ends (VSIebol vs) (good vs).
Proof.
  intros HS. start_good. unfold VSIebol.
  eapply ends_seq; [by apply VSIwrapnow_at | intros [[x1 y1] w] Hw]. cbn [snd] in Hw. goodly.
Qed.
Lemma VSIel_good s vs : sane vs -> ends (VSIel s vs) (good vs).
Proof.
  intros HS. start_good. unfold VSIel. eapply (ends_seq _ _ (fun r => good vs r.2)).
  - destruct (_ <? _); [|done]. eapply ends_seq; [by apply VSIwrapnow_at | intros [[x1 y1] w] Hw]. exact Hw.
  - intros [s' v] Hv. cbn [snd] in Hv. goodly.
Qed.
#[local] Hint Resolve VSIeeol_good VSIebol_good VSIel_good : good.
Lemma VSIflush_good vs : sane vs -> good vs (VSIflush vs).
Proof. intros HS. apply keeps_good; [apply VSIflush_keeps | done]. Qed.

Lemma VSIeeos_good vs : sane vs -> ends (VSIeeos vs) (good vs).
Proof.
  intros HS. pose proof (VSIflush_good vs HS) as G. unfold VSIeeos. cbv zeta.
  eapply ends_seq; [by apply VSIwrapnow_at | intros [[x1 y1] w] Hw]. cbn [snd] in Hw.
  eapply (ends_seq _ _ (good vs)); [goodly | intros v Hv].
  destruct (VSIclip _ _) as [i c] eqn:Ec. clear Ec.
  assert (G2 : good vs (if i then v <| possibleForce := 0 |> else draw (RSerase (cx1 c) (cy1 c) (cx2 c) (cy2 c)) (v <| possibleForce := 0 |>))).
  { destruct i; good_field. }
  eapply (ends_seq _ _ (good vs)).
  { apply (ends_good_good _ _ _ G2). destruct i; apply VSIeeol_good, G2. }
  intros u Hu. goodly.
Qed.
Lemma VSIebos_good vs : sane vs -> ends (VSIebos vs) (good vs).
Proof.
  intros HS. pose proof (VSIflush_good vs HS) as G. unfold VSIebos. cbv zeta.
  eapply ends_seq; [by apply VSIwrapnow_at | intros [[x1 y1] w] Hw]. cbn [snd] in Hw. goodly.
Qed.

Lemma VSIdelchars_good n vs : sane vs -> ends (VSIdelchars n vs) (good vs).
Proof.
  intros HS. start_good. unfold VSIdelchars. cbv zeta.
  eapply ends_seq; [by apply VSIwrapnow_at | intros [[x1 y1] w] Hw]. cbn [snd] in Hw.
  eapply ends_seq; [apply line_at_ends | intros p _]. eapply ends_seq; [apply ends_load | intros l _].
  eapply (ends_seq _ _ (good vs)); [|intros v Hv; goodly].
  apply (ends_keeps_good _ _ _ Hw), edit_line_keeps; intros; (eapply ends_seq; [apply copy_chars_ends | intros; apply fill_ends]).
Qed.
Lemma VSIinschar_good n c vs : sane vs -> ends (VSIinschar n c vs) (fun vs' => good vs vs' /\ (x vs' = x vs \/ x vs' = 0)).
Proof.
  intros HS. unfold VSIinschar. cbv zeta.
  eapply ends_seq; [by apply VSIwrapnow_good | intros [[x1 y1] w] [Hw Hx]]. cbn [snd] in Hw, Hx.
  eapply ends_seq; [apply line_at_ends | intros p _].
  eapply ends_mono; [apply edit_line_keeps|].
  - intros. eapply ends_seq; [apply copy_chars_ends | intros]. destruct (negb _); [apply fill_ends | done].
  - intros. eapply ends_seq; [apply copy_chars_ends | intros]. destruct (negb _); [apply fill_ends | done].
  - intros v Hv. split; [by eapply good_keeps | by rewrite (keeps_x _ _ Hv)].
Qed.

(** ** Positions *)

(** Whatever the cursor was. *)
Lemma VSIrange_good vs v : sane vs -> core v = core vs -> plain v -> good vs (VSIrange v).
Proof.
  intros HS HC Hp. pose proof (core_fields _ _ HC) as (El & Em & _). unfold VSIrange.
  pose proof (sane_width _ HS). pose proof (sane_region _ HS). pose proof (margin_width v ltac:(lia)) as HM.
  set (w := if DECAWM _ =? 0 then 0 else 1). assert (0 <= w <= 1) by (subst w; case_match; lia). clearbody w.
  apply core_sane; repeat case_match; cbn in *; try done; lia.
Qed.
Lemma VSIrestore_good vs : sane vs -> good vs (VSIrestore vs).
Proof.
  intros HS. unfold VSIrestore. cbv zeta. destruct (_ =? _); [by apply good_refl|].
  pose proof (VSIflush_good vs HS) as G. set (v := VSIflush vs) in *. clearbody v.
  assert (G2 : good v (VSIrange (v <| x := Px v |> <| y := Py v |>))) by (apply VSIrange_good; [apply G | done | apply G]).
  pose proof (good_trans _ _ _ G G2) as G3. good_field.
Qed.

Lemma next_stop_ends fuel c vs : maxwidth vs - c <= Z.of_nat fuel ->
  ends (next_stop fuel c vs) (fun d => c <= d /\ (d <= maxwidth vs \/ d = c)).
Proof.
  revert c. induction fuel as [|fuel IH]; intros c Hf; simpl; (eapply ends_seq; [apply ends_arr_get' | intros t _]);
    destruct (negb _); simpl; try (apply ends_ret; lia).
  - rewrite (proj2 (Z.ltb_ge _ _)) by lia. apply ends_ret. lia.
  - destruct (c <? maxwidth vs) eqn:E; [|apply ends_ret; lia].
    eapply ends_mono; [apply IH; lia | intros d Hd; simpl in Hd; lia].
Qed.

Lemma VSItab_good vs : sane vs -> ends (VSItab vs) (good vs).
Proof.
  intros HS. unfold VSItab, VSIgetNextTabDistance. pose proof (sane_width _ HS). pose proof (sane_x _ HS).
  eapply (ends_seq _ _ (fun d => 0 <= x vs + d <= 256)).
  - destruct (_ <=? _) eqn:E; [apply ends_ret; cbn beta; lia|].
    eapply ends_seq; [apply next_stop_ends; lia|]. intros c Hc. apply ends_ret. cbn beta in *. lia.
  - intros d Hd. apply ends_ret. by apply good_x.
Qed.
#[local] Hint Resolve VSIeeos_good VSIebos_good VSItab_good VSIdelchars_good : good.

Lemma VSIreset_sane vs : sane vs -> ends (VSIreset vs) sane.
Proof.
  intros HS. unfold VSIreset. cbv zeta. pose proof (VSIflush_good vs HS) as [G _]. set (v := VSIflush vs) in *. clearbody v.
  match goal with |- ends (mbind _ (VSIes ?w)) _ => assert (HW : sane w) end.
  { destruct G as [Hw Hx Hy Hr Hp He Hs]. destruct (_ =? 0); (split; try done; [cbn; lia | cbn; lia|]).
    all: unfold plain in *; cbn; destruct (session v); [|done]; intuition. }
  eapply ends_seq; [apply VSIes_keeps | intros u Hu]. eapply ends_mono; [apply VSItabinit_keeps | intros t Ht].
  eapply keeps_good; [|exact HW]. kept_field.
Qed.

(** ** Capture and printing *)

Lemma VScapture_keeps s vs : ends (VScapture s vs) (keeps vs).
Proof.
  unfold VScapture, ask. destruct (captureRN vs =? 0); [done|]. destruct (if debug then _ else _) as [out ln].
  repeat case_match; try done. all: simplify_eq; apply ends_ret; case_match; kept_field.
Qed.
#[local] Hint Resolve VScapture_keeps : ends.

Lemma VSprON_keeps vs : keeps vs (VSprON vs).
Proof. unfold VSprON, ask, redirect_failed. cbv zeta. repeat case_match; simplify_eq; kept_field. Qed.
Lemma close_print_file_keeps vs : keeps vs (close_print_file vs).
Proof. unfold close_print_file, ask. repeat case_match; simplify_eq; kept_field. Qed.
Lemma kernel_close_print_file vs : kernel (close_print_file vs) = kernel vs.
Proof. apply close_print_file_keeps. Qed.
#[local] Hint Rewrite kernel_close_print_file : kernel.
Lemma VSprOFF_keeps vs : keeps vs (VSprOFF vs).
Proof. unfold VSprOFF, ask. cbv zeta. repeat case_match; simplify_eq; kept_field. Qed.

(** Both translations of the session are tables. *)
Definition tables (tw : window) : Prop := 0 <= innational tw <= gTableCount.

Lemma trbuf_tables tw buf room : tables tw ->
  trbuf_nat_mac tw buf room = (0, zlen buf, by_table (ReturnTablePtr (innational tw) false) buf, tw).
Proof.
  intros [H0 H1]. unfold trbuf_nat_mac, GetTranslationIndex. rewrite (proj2 (Z.ltb_ge gTableCount _)) by lia.
  by rewrite (proj2 (Z.leb_le 0 _)) by lia.
Qed.

Lemma plain_tables_of vs tw : plain vs -> session vs = Some tw -> tables tw.
Proof. unfold plain. intros H E. rewrite E in H. apply H. Qed.

Lemma session_keeps vs tw : session vs = Some tw -> keeps vs (vs <| session := Some tw |>).
Proof. intros E. unfold keeps, kernel. cbn. by rewrite E. Qed.

Lemma translate_write_keeps fuel s tw vs : tables tw -> session vs = Some tw -> (length s <= fuel)%nat ->
  ends (translate_write fuel s tw vs) (fun r => keeps vs r.2).
Proof.
  intros Ht. revert s vs. induction fuel as [|fuel IH]; intros s vs HS Hl; destruct s as [|b s]; try done; [simpl in Hl; lia|].
  cbn [translate_write]. rewrite trbuf_tables by done. unfold ask. cbv zeta. pose proof (session_keeps _ _ HS) as HK.
  destruct (nz _); [apply ends_ret; cbn [snd]; kept_field|].
  eapply ends_mono; [apply IH; [done|]|].
  - rewrite length_drop. unfold zlen. rewrite Nat2Z.id, length_take. simpl in *. lia.
  - intros r Hr. cbn beta in *. kept_field.
Qed.

Lemma VStranslatewrite_keeps s n vs : plain vs -> ends (VStranslatewrite s n vs) (fun r => keeps vs r.2).
Proof.
  intros Hp. unfold VStranslatewrite, ask. destruct (session vs) as [tw|] eqn:E; (destruct (_ <? _); [done|]).
  - apply translate_write_keeps; [by eapply plain_tables_of | done |]. rewrite length_take. lia.
  - apply ends_ret. cbn [snd]. kept_field.
Qed.

Lemma pr_loop_keeps start count c vs : plain vs ->
  ends (pr_loop start count c vs) (fun '(_, _, _, c', vs') => keeps vs vs' /\ c' `suffix_of` c).
Proof.
  revert start count vs. induction c as [|b c IH]; intros start count vs Hp; cbn [pr_loop]; [by split|]. cbv zeta.
  match goal with |- context [VStranslatewrite start _ ?w] => set (v := w) end.
  assert (HK : keeps vs v) by (subst v; kept_field).
  eapply (ends_seq _ _ (fun '(_, _, _, w) => keeps vs w)).
  - destruct (b =? 0); [|done]. eapply ends_seq; [apply VStranslatewrite_keeps; by eapply keeps_plain|].
    intros [sts w] Hw. apply ends_ret. cbn [snd] in Hw. kept_field.
  - intros [[[sts start'] count'] w] Hw. destruct (_ || _ || _).
    + apply ends_ret. split; [done | by apply suffix_cons_r].
    + eapply ends_mono; [apply IH; by eapply keeps_plain|]. intros [[[[? ?] ?] c'] u] [Hu Hc].
      split; [kept_field | by apply suffix_cons_r].
Qed.

Lemma VSpr_keeps c vs : plain vs -> ends (VSpr c vs) (fun '(c', vs') => keeps vs vs' /\ c' `suffix_of` c).
Proof.
  intros Hp. unfold VSpr. eapply ends_seq; [by apply pr_loop_keeps|]. intros [[[[rdy start] count] c'] v] [Hv Hc].
  eapply ends_seq; [apply VStranslatewrite_keeps; by eapply keeps_plain|]. intros [sts w] Hw. cbn [snd] in Hw. cbv zeta.
  apply ends_ret. split; [|done].
  assert (HK : keeps vs (if nz sts then draw SysBeep w else w)) by (destruct (nz sts); kept_field).
  destruct (_ || _); [|done]. eapply keeps_trans; [exact HK | apply VSprOFF_keeps].
Qed.

(** ** Text *)

Lemma put_keeps p i b a vs : ends (put p i b a vs) (keeps vs).
Proof. apply edit_line_keeps; intros; apply ends_arr_set'. Qed.
Lemma put_attr_keeps p i a vs : ends (put_attr p i a vs) (keeps vs).
Proof. apply edit_line_keeps; intros; [done | apply ends_arr_set']. Qed.
#[local] Hint Resolve put_keeps put_attr_keeps : ends.
Lemma put_all_keeps p i s a vs : ends (put_all p i s a vs) (keeps vs).
Proof.
  revert i vs. induction s as [|b s IH]; intros i vs; cbn [put_all]; [done|]. kept.
  all: eapply ends_mono; [apply IH | intros; kept_field].
Qed.
Lemma text_at_ends p i vs : ends (text_at p i vs) (fun _ => True).
Proof. unfold text_at. eapply ends_seq; [apply ends_load | intros; apply ends_arr_get']. Qed.
Lemma attr_at_ends p i vs : ends (attr_at p i vs) (fun _ => True).
Proof. unfold attr_at. eapply ends_seq; [apply ends_load | intros; apply ends_arr_get']. Qed.
#[local] Hint Resolve put_all_keeps text_at_ends attr_at_ends : ends.

(** The cursor after a character: still on the line, or the line ended. *)
Definition written (mw : Z) (vs : VSscrn) (p : pen) (vs' : VSscrn) : Prop := good vs vs' /\ (offend p = false -> x vs' <= mw).

Lemma advance_written mw p vs v : 0 <= mw <= 255 -> good vs v -> x v <= mw -> offend p = false ->
  written mw vs (advance mw p v).1 (advance mw p v).2.
Proof.
  intros Hm G Hx Hp. pose proof (sane_x _ (proj1 G)). unfold advance.
  destruct (_ <? _) eqn:E; [|destruct (nz _)]; (split; [eapply good_trans; [exact G | apply good_x; [apply G | cbn; lia]] | cbn; try done; lia]).
Qed.

Lemma inschar_if_good (i : bool) vs mw : sane vs -> x vs <= mw -> 0 <= mw ->
  ends (if i then VSIinschar 1 1 vs else Done vs) (fun v => good vs v /\ x v <= mw).
Proof.
  intros HS Hx Hm. destruct i; [|split; [by apply good_refl | done]].
  eapply ends_mono; [by apply VSIinschar_good | intros v [G Hv]; split; [done | lia]].
Qed.

Lemma good_setter vs v w : good vs v -> core w = core v -> x w = x v -> y w = y v -> plain w -> good vs w.
Proof.
  intros G HC Hx Hy Hp. eapply good_trans; [exact G|]. apply core_sane; try done; rewrite ?Hx, ?Hy; apply G.
Qed.

Lemma attr_if_ends (c : bool) p i vs : ends (if c then attr_at p i vs else Done 0) (fun _ => True).
Proof. destruct c; [apply attr_at_ends | done]. Qed.

Lemma put_translated_written mw a insert out tag e p vs : 0 <= mw <= 255 -> sane vs -> x vs <= mw -> offend p = false ->
  ends (put_translated mw a insert out tag e p vs) (fun '(p', vs') => written mw vs p' vs').
Proof.
  intros Hm HS Hx Hp. unfold put_translated. cbv zeta.
  eapply ends_seq; [apply (inschar_if_good _ _ mw); [done | done | lia]|]. intros v1 [G1 X1].
  eapply ends_seq; [apply put_all_keeps|]. intros v2 K2. pose proof (good_keeps _ _ _ G1 K2) as G2. rewrite <- (keeps_x _ _ K2) in X1.
  eapply ends_seq; [apply text_at_ends|]. intros b _.
  eapply (ends_seq _ _ (keeps v2)).
  { destruct (_ && _ && _ && _); [apply ends_ret; kept_field|]. kept. }
  intros v3 K3. pose proof (good_keeps _ _ _ G2 K3) as G3. rewrite <- (keeps_x _ _ K3) in X1.
  eapply ends_seq; [apply attr_if_ends|]. intros before _.
  eapply (ends_seq _ _ (fun r => keeps v3 r.2 /\ offend r.1 = false)).
  { destruct (nz _); [|by apply ends_ret]. eapply ends_seq; [apply put_attr_keeps|]. intros w Hw. apply ends_ret. cbn [fst snd]. split; [kept_field | done]. }
  intros [p4 v4] [K4 Hp4]. cbn [fst snd] in *. pose proof (good_keeps _ _ _ G3 K4) as G4. rewrite <- (keeps_x _ _ K4) in X1.
  eapply ends_seq; [apply attr_at_ends|]. intros here _. apply ends_ret.
  assert (G5 : good vs (v4 <| trinx := 0 |> <| trincount := 0 |>)).
  { apply (good_setter _ _ _ G4); try done. pose proof (sane_session _ (proj1 G4)) as Hpl. unfold plain in *. cbn.
    destruct (session v4); [|done]. intuition. }
  match goal with |- context [advance mw ?q ?w] => pose proof (advance_written mw q vs w Hm G5 X1) as HA end.
  destruct (advance _ _ _) as [p' v'] eqn:E. apply HA. by destruct (nz _).
Qed.

Lemma put_plain_written mw a insert b p vs : 0 <= mw <= 255 -> sane vs -> x vs <= mw -> offend p = false ->
  ends (put_plain mw a insert b p vs) (fun '(p', vs') => written mw vs p' vs').
Proof.
  intros Hm HS Hx Hp. unfold put_plain.
  eapply (ends_seq _ _ (fun v => good vs v /\ x v <= mw)).
  { assert (G0 : good vs (vs <| lastchar := b |>)) by (apply keeps_good; [kept_field | done]).
    destruct insert; [|by apply ends_ret]. eapply ends_mono; [apply VSIinschar_good, G0|]. intros v [G Hv].
    change (x (vs <| lastchar := b |>)) with (x vs) in Hv. split; [by eauto using good_trans | lia]. }
  intros v1 [G1 X1]. eapply ends_seq; [apply put_keeps|]. intros v2 K2. apply ends_ret.
  pose proof (good_keeps _ _ _ G1 K2) as G2. rewrite <- (keeps_x _ _ K2) in X1.
  pose proof (advance_written mw p vs v2 Hm G2 X1 Hp) as HA. by destruct (advance mw p v2).
Qed.

Lemma put_session_written mw a insert b tw p vs : 0 <= mw <= 255 -> sane vs -> session vs = Some tw -> x vs <= mw -> offend p = false ->
  ends (put_session mw a insert b tw p vs) (fun '(taken, p', vs') => taken = true /\ written mw vs p' vs').
Proof.
  intros Hm HS E Hx Hp. pose proof (sane_session _ HS) as Hpl. unfold plain in Hpl. rewrite E in Hpl. destruct Hpl as (Ht & Ho & Hc & Hi).
  unfold put_session. rewrite Hc. change (0 + 1) with 1.
  destruct (arr_set 0 b (trinbuf vs)) as [buf| |c] eqn:Eb; [|done|by pose proof (ends_arr_set' 0 b (trinbuf vs)) as HH; rewrite Eb in HH; destruct c].
  assert (Hl : exists r, buf = b :: r).
  { unfold arr_set in Eb. destruct (_ && _) eqn:EE; [|done]. destruct (trinbuf vs) as [|b0 r]; [done|]. exists r. by simplify_eq. }
  destruct Hl as [r ->]. rewrite Done_bind. change (take (Z.to_nat 1) (b :: r)) with [b]. rewrite (trbuf_tables _ _ _ Ht).
  cbv zeta. change (nz 0 && _) with false. cbv iota. change (zlen [b]) with 1.
  assert (Ho2 : exists c, by_table (ReturnTablePtr (innational tw) false) [b] = [c]) by (unfold by_table; destruct (ReturnTablePtr _ _); by eexists).
  destruct Ho2 as [c ->].
  match goal with |- context [put_translated mw a insert [c] _ 0 p ?w] => set (v := w) end.
  assert (G : good vs v).
  { apply (good_setter vs vs); try done; by apply good_refl. }
  eapply ends_seq; [apply put_translated_written; [done | apply G | done | done]|].
  intros [p' v'] [G' X']. apply ends_ret. split; [done|]. split; [by eauto using good_trans | done].
Qed.

Lemma put_char_written mw a insert b p vs : 0 <= mw <= 255 -> sane vs -> x vs <= mw -> offend p = false ->
  ends (put_char mw a insert b p vs) (fun '(taken, p', vs') => taken = true /\ written mw vs p' vs').
Proof.
  intros Hm HS Hx Hp. unfold put_char. destruct (session vs) as [tw|] eqn:E; [by apply put_session_written|].
  eapply ends_seq; [by apply put_plain_written|]. intros [p' v'] Hw. by apply ends_ret.
Qed.

Lemma write_line_good mw a insert tryit c p vs : 0 <= mw <= 255 -> sane vs -> (offend p = false -> x vs <= mw) ->
  ends (write_line mw a insert tryit c p vs) (fun '(c', p', vs') => good vs vs' /\ c' `suffix_of` c
    /\ (forall b r, c = b :: r -> is_text tryit b vs = true -> offend p = false -> c' `suffix_of` r)).
Proof.
  intros Hm. revert p vs. induction c as [|b c IH]; intros p vs HS Hx; cbn [write_line].
  { apply ends_ret. split_and!; [by apply good_refl | done | done]. }
  destruct (is_text tryit b vs && negb (offend p)) eqn:E.
  - apply andb_true_iff in E as [Ei Eo]. apply negb_true_iff in Eo.
    eapply ends_seq; [apply put_char_written; auto|]. intros [[taken p'] v'] (-> & G & X').
    eapply ends_mono; [apply IH; [apply G | exact X']|]. intros [[c' p''] v''] (G2 & Hs & _).
    split_and!; [by eauto using good_trans | by apply suffix_cons_r | intros b0 r0 [= -> ->]; done].
  - apply ends_ret. split_and!; [by apply good_refl | done |]. intros b0 r0 [= <- <-] Hi Ho. by rewrite Hi, Ho in E.
Qed.

Lemma start_text_good mw vs : 0 <= mw <= 255 -> sane vs ->
  ends (start_text mw vs) (fun '(p, vs') => good vs vs' /\ x vs' <= mw /\ offend p = false).
Proof.
  intros Hm HS. unfold start_text. eapply (ends_seq _ _ (fun v => good vs v /\ x v <= mw)).
  - destruct (mw <? x vs) eqn:E; [|split; [by apply good_refl | lia]].
    destruct (nz _); [|split; [apply good_x; [done | lia] | cbn; lia]].
    pose proof (good_x vs 0 HS ltac:(lia)) as G0. eapply (ends_seq _ _ (keeps (vs <| x := 0 |>))).
    { unfold mark_wrap. kept. }
    intros v Kv. pose proof (good_keeps _ _ _ G0 Kv) as G1. eapply ends_mono; [apply VSIindex_good, G1|].
    intros w [G2 X2]. split; [by eauto using good_trans|]. rewrite X2, (keeps_x _ _ Kv). cbn. lia.
  - intros v [G X]. eapply ends_seq; [apply line_at_ends|]. intros p _. by apply ends_ret.
Qed.

Lemma show_text_keeps insert captured p vs : ends (show_text insert captured p vs) (keeps vs).
Proof.
  unfold show_text. cbv zeta. eapply ends_seq; [apply ends_load|]. intros l _.
  assert (HK : keeps vs (if insert then draw (RSinsstring (x vs - (extra p + (x vs - sx p))) (y vs) (lattrib vs) (attrib vs) (extra p + (x vs - sx p))
       (slice (start p) (extra p + (x vs - sx p)) (text l))) vs
     else VSIdraw (sx p) (y vs) (lattrib vs) (attrib vs) (extra p + (x vs - sx p)) (slice (start p) (extra p + (x vs - sx p)) (text l)) vs)).
  { destruct insert; unfold VSIdraw; kept_field. }
  destruct captured; [exact HK|]. eapply ends_mono; [apply VScapture_keeps|]. intros w Hw. by eapply keeps_trans.
Qed.

Lemma good_is_text tryit b vs vs' : good vs vs' -> is_text tryit b vs' = is_text tryit b vs.
Proof.
  intros [_ HC]. apply core_fields in HC as (_ & _ & _ & _ & _ & _ & _ & _ & Ev & Eb). unfold is_text, eight_bit. by rewrite Ev, Eb.
Qed.

Lemma text_rounds_good fuel mw tryit captured c vs : 0 <= mw <= 255 -> sane vs -> (length c <= fuel)%nat ->
  ends (text_rounds fuel mw tryit captured c vs) (fun '(c', vs') => good vs vs' /\ c' `suffix_of` c
    /\ (forall b r, c = b :: r -> is_text tryit b vs = true -> c' `suffix_of` r)).
Proof.
  intros Hm. revert c vs. induction fuel as [|fuel IH]; intros [|b c] vs HS Hl; cbn [text_rounds];
    try (apply ends_ret; split_and!; [by apply good_refl | done | done]); [simpl in Hl; lia|].
  destruct (is_text tryit b vs) eqn:E; [|apply ends_ret; split_and!; [by apply good_refl | done | intros ? ? [= <- <-]; congruence]].
  eapply ends_seq; [by apply start_text_good|]. intros [p v1] (G1 & X1 & O1).
  eapply ends_seq; [apply write_line_good; [done | apply G1 | done]|]. intros [[c2 p2] v2] (G2 & S2 & P2).
  eapply ends_seq; [apply show_text_keeps|]. intros v3 K3. pose proof (good_keeps _ _ _ (good_trans _ _ _ G1 G2) K3) as G3.
  assert (S3 : c2 `suffix_of` c).
  { eapply P2; [done | | done]. by rewrite (good_is_text _ _ _ _ G1). }
  eapply ends_mono; [apply IH; [apply G3 | apply suffix_length in S3; simpl in Hl; lia]|].
  intros [c' v'] (G4 & S4 & _). split_and!; [by eauto using good_trans | apply suffix_cons_r; by etransitivity | ].
  intros b0 r0 [= <- <-] _. by etransitivity.
Qed.

(** ** Control characters *)

Lemma kernel_graph on vs : kernel (graph on vs) = kernel vs.
Proof. reflexivity. Qed.
#[local] Hint Rewrite kernel_graph : kernel.

Lemma clear_wrap_keeps vs : ends (clear_wrap vs) (keeps vs).
Proof. unfold clear_wrap. kept. Qed.
#[local] Hint Resolve clear_wrap_keeps : ends.

Lemma newline_good vs : sane vs -> ends (newline vs) (good vs).
Proof.
  intros HS. unfold newline. eapply ends_seq; [apply clear_wrap_keeps|]. intros v Kv. pose proof (keeps_good _ _ Kv HS) as G.
  eapply ends_mono; [apply VSIindex_good, G|]. intros w [G2 _]. eauto using good_trans.
Qed.

Lemma backspace_good vs : sane vs -> good vs (backspace vs).
Proof.
  intros HS. unfold backspace. pose proof (sane_x _ HS). destruct (_ <? _) eqn:E; [|by apply good_refl]. apply good_x; [done | lia].
Qed.

Lemma trflush_good vs : sane vs -> good vs (trflush vs).
Proof.
  intros HS. unfold trflush. pose proof (sane_session _ HS) as Hp. unfold plain in Hp.
  destruct (session vs) as [tw|] eqn:E; [|by apply good_refl]. destruct Hp as (Hi & Ho & Hc & Hx).
  assert (Et : trflush_nat_mac tw = tw).
  { unfold trflush_nat_mac, GetTranslationIndex. rewrite (proj2 (Z.ltb_ge gTableCount _)) by lia. by rewrite (proj2 (Z.ltb_ge _ 0)) by lia. }
  rewrite Et. apply core_sane; try done; apply HS.
Qed.

Lemma control_good captured b vs : sane vs ->
  ends (control captured b vs) (fun '(f, tryit, vs') => good vs vs' /\ (f = esc_root \/ f = esc_basic /\ b = ESC) /\ (tryit = true -> vs' = vs /\ f = esc_root)).
Proof.
  intros HS. pose proof (good_refl vs HS) as G0. unfold control. cbv zeta.
  assert (Hd : forall v, good vs v -> ends (Done (esc_root, false, v)) (fun '(f, tryit, vs') => good vs vs' /\ (f = esc_root \/ f = esc_basic /\ b = ESC) /\ (tryit = true -> vs' = vs /\ f = esc_root))).
  { intros v G. apply ends_ret. split_and!; [done | by left | done]. }
  destruct (b =? ESC) eqn:E0; [apply ends_ret; split_and!; [done | right; split; [done | lia] | done]|clear E0].
  destruct (b =? 0x0e); [apply Hd; good_field|].
  destruct (b =? 0x0f); [apply Hd; good_field|].
  destruct (b =? 0x07); [apply Hd; destruct (_ =? _); good_field|].
  destruct (b =? 0x08).
  { apply Hd. pose proof (backspace_good vs HS) as G. eapply good_trans; [exact G | apply trflush_good, G]. }
  destruct (_ || _ || _); [eapply ends_seq; [by apply newline_good | exact Hd]|].
  destruct (b =? 0x09).
  { eapply ends_seq; [by apply VSItab_good|]. intros v G. eapply (ends_seq _ _ (good vs)); [destruct captured; goodly | exact Hd]. }
  destruct (b =? 0x0d).
  { pose proof (good_x vs 0 HS ltac:(lia)) as G. eapply (ends_seq _ _ (good vs)); [destruct captured; goodly|].
    intros v Gv. apply Hd. eapply good_trans; [exact Gv | apply trflush_good, Gv]. }
  apply ends_ret. split_and!; [done | by left | done].
Qed.

(** After the control characters the buffer is shorter, or starts with a
    character for the text loop. *)
Lemma controls_good captured c vs : sane vs ->
  ends (controls captured c vs) (fun '(f, tryit, c', vs') => good vs vs' /\ (f = esc_root \/ f = esc_basic /\ ESC ∈ c) /\ c' `suffix_of` c
    /\ ((length c' < length c)%nat \/ f = esc_root /\ c' = c)
    /\ (f = esc_root -> forall b r, c' = b :: r -> 32 <= b \/ tryit = true /\ b < 32)).
Proof.
  revert vs. induction c as [|b c IH]; intros vs HS; cbn [controls].
  { apply ends_ret. split_and!; [by apply good_refl | by left | done | by right | done]. }
  destruct (b <? 32) eqn:Eb.
  - eapply ends_seq; [by apply control_good|]. intros [[f tryit] v] (G & Hf & Ht). destruct tryit.
    + apply ends_ret. destruct (Ht eq_refl) as [-> ->]. split_and!; [done | by left | done | by right |].
      * intros _ b0 r [= <- <-]. right. split; [done | lia].
    + destruct (f =? esc_root) eqn:Ef.
      * eapply ends_mono; [apply IH, G|]. intros [[[f' t'] c'] v'] (G' & Hf' & Hs & Hl & Hh).
        split_and!; [by eauto using good_trans | destruct Hf' as [?|[? ?]]; [by left | right; split; [done | by right]] | by apply suffix_cons_r | | done].
        left. apply suffix_length in Hs. simpl. lia.
      * apply ends_ret. destruct Hf as [->|[-> ->]]; [done|]. split_and!; [done | right; split; [done | by left] | by apply suffix_cons_r | left; simpl; lia | done].
  - apply ends_ret. split_and!; [by apply good_refl | by left | done | by right |]. intros _ b0 r [= <- <-]. left. lia.
Qed.

(** ** Escape sequences *)

(** A step leaves a terminal in order, in a state. *)
Definition step_sane (s : step) : Prop := match s with Ends v => sane v | Goes f _ v => machine_state f /\ sane v end.

(** Changes of the parameters and modes. *)
Lemma sane_parms_set vs ps : sane vs -> length ps = maxparms -> Forall (fun p => p <= 32767) ps -> sane (vs <| parms := ps |>).
Proof. intros [Hw Hx Hy Hr Hp He Hs] Hl HF. by split. Qed.
Lemma set_parm_sane i v vs : sane vs -> v <= 32767 -> ends (set_parm i v vs) sane.
Proof.
  intros HS Hv. unfold set_parm. destruct (sane_parms _ HS) as [Hl HF]. eapply ends_seq; [apply ends_arr_set|].
  intros ps [Hl' HF']. apply ends_ret. apply sane_parms_set; [done | congruence | by apply HF'].
Qed.
Lemma parm_ends i vs : sane vs -> ends (parm i vs) (fun p => p <= 32767).
Proof.
  intros HS. eapply ends_mono; [apply ends_arr_get|]. intros p Hp. by apply (proj1 (Forall_forall _ _) (proj2 (sane_parms _ HS))).
Qed.
Lemma parm_ends' i vs : ends (parm i vs) (fun _ => True).
Proof. apply ends_arr_get'. Qed.

Lemma good_sane_ends (m : outcome VSscrn) vs : ends m (good vs) -> ends m sane.
Proof. intros H. eapply ends_mono; [exact H | intros v Hv; apply Hv]. Qed.
Lemma keeps_sane vs vs' : keeps vs vs' -> sane vs -> sane vs'.
Proof. intros HK HS. by apply (keeps_good _ _ HK HS). Qed.
Lemma keeps_sane_ends (m : outcome VSscrn) vs : sane vs -> ends m (keeps vs) -> ends m sane.
Proof. intros HS H. eapply ends_mono; [exact H | intros v Hv; by eapply keeps_sane]. Qed.

Lemma ends_Ends (m : outcome VSscrn) : ends m sane -> ends (v ← m; Done (Ends v)) step_sane.
Proof. intros H. eapply ends_seq; [exact H | done]. Qed.

Lemma DECAWM_sane vs v : sane vs -> sane (vs <| DECAWM := v |>).
Proof. intros [Hw Hx Hy Hr Hp He Hs]. by split. Qed.
Lemma vtemulation_sane vs v : sane vs -> sane (vs <| vtemulation := v |>).
Proof. intros [Hw Hx Hy Hr Hp He Hs]. by split. Qed.
Lemma vteightbits_sane vs v : sane vs -> sane (vs <| vteightbits := v |>).
Proof. intros [Hw Hx Hy Hr Hp He Hs]. by split. Qed.
Lemma escflg_sane vs f : sane vs -> machine_state f -> sane (vs <| escflg := f |>).
Proof. intros [Hw Hx Hy Hr Hp He Hs] Hf. by split. Qed.

Lemma VSIapclear_sane vs : sane vs -> sane (VSIapclear vs).
Proof.
  intros HS. apply (keeps_sane (vs <| parms := replicate maxparms (-1) |>)); [unfold VSIapclear; kept_field|].
  apply sane_parms_set; [done | done |]. by apply Forall_replicate.
Qed.

Lemma set_tab_keeps v vs : ends (set_tab v vs) (keeps vs).
Proof. unfold set_tab. kept. Qed.
#[local] Hint Resolve set_tab_keeps : ends.

Lemma sends_keep s vs : keeps vs (send s vs).
Proof. unfold send. kept_field. Qed.
Lemma VTsendident_keeps vs : keeps vs (VTsendident vs).
Proof. unfold VTsendident. destruct (nz _); apply sends_keep. Qed.

(** A chain of tests: every branch is given. *)
Ltac branch := lazymatch goal with |- ends (if ?b then _ else _) _ => destruct b end.
Ltac ends_here HS :=
  first [ apply ends_ret; simpl; split; [split; apply Z.leb_le; reflexivity | solve [done | eapply keeps_sane; [|exact HS]; kept_field | apply backspace_good, HS ]]
        | apply ends_ret; simpl; solve [done | eapply keeps_sane; [|exact HS]; kept_field ] ].

Lemma kernel_VSIsave vs : kernel (VSIsave vs) = kernel vs.
Proof. reflexivity. Qed.
#[local] Hint Rewrite kernel_VSIsave : kernel.

Lemma basic_sane b fl vs : sane vs -> ends (basic b fl vs) step_sane.
Proof.
  intros HS. unfold basic. cbv zeta.
  branch; [ends_here HS|]. branch; [apply ends_ret; split; [done | by apply VSIapclear_sane]|].
  branch; [ends_here HS|]. branch; [apply ends_ret, VSIrestore_good, HS|].
  branch; [apply ends_Ends; by apply VSIreset_sane|].
  branch; [apply ends_Ends, (good_sane_ends _ vs), newline_good, HS|].
  branch.
  { pose proof (good_x vs 0 HS ltac:(lia)) as G. apply ends_Ends, (good_sane_ends _ (vs <| x := 0 |>)), newline_good, G. }
  branch; [apply ends_Ends, (good_sane_ends _ vs), VSIrindex_good, HS|].
  branch; [ends_here HS|]. branch; [ends_here HS|].
  branch; [apply ends_ret; eapply keeps_sane; [apply VTsendident_keeps | done]|].
  do 7 (branch; [ends_here HS|]).
  branch; [apply ends_Ends, (keeps_sane_ends _ vs HS), set_tab_keeps|].
  branch; [destruct (has_Xterm vs); ends_here HS|]. branch; ends_here HS.
Qed.

Definition c1_sane (s : step) : Prop :=
  match s with Ends v => sane v | Goes f fl' v => sane v /\ (f = esc_csi \/ f = esc_XTerm /\ fl' = 0) end.

Lemma c1_control_sane b fl vs : sane vs -> ends (c1_control b fl vs) c1_sane.
Proof.
  intros HS. assert (HE : forall m : outcome VSscrn, ends m sane -> ends (v ← m; Done (Ends v)) c1_sane).
  { intros m H. eapply ends_seq; [exact H | done]. }
  unfold c1_control.
  branch; [apply HE, (good_sane_ends _ vs), newline_good, HS|].
  branch.
  { pose proof (good_x vs 0 HS ltac:(lia)) as G. apply HE, (good_sane_ends _ (vs <| x := 0 |>)), newline_good, G. }
  branch; [apply HE, (keeps_sane_ends _ vs HS), set_tab_keeps|].
  branch; [apply HE, (good_sane_ends _ vs), VSIrindex_good, HS|].
  branch; [apply ends_ret; split; [by apply VSIapclear_sane | by left]|].
  branch; [destruct (has_Xterm vs); apply ends_ret; [split; [done | by right] | done] | done].
Qed.

(** ** Control sequences *)

Lemma clamp_range lo hi v : lo <= hi -> lo <= clamp lo hi v <= hi.
Proof. intros. unfold clamp. repeat case_match; lia. Qed.

(** The cursor anywhere, cut to the screen. *)
Lemma range_sane vs v : sane vs -> core v = core vs -> session v = session vs -> trincount v = trincount vs -> trinx v = trinx vs -> sane (VSIrange v).
Proof.
  intros HS HC E1 E2 E3. apply (VSIrange_good vs v HS HC). pose proof (sane_session _ HS) as Hp. unfold plain in *. by rewrite E1, E2, E3.
Qed.

Lemma cursor_up_sane vs : sane vs -> ends (cursor_up vs) sane.
Proof.
  intros HS. unfold cursor_up. eapply ends_seq; [apply parm_ends'|]. intros p _. cbv zeta. apply ends_ret, VSIflush_good.
  by eapply range_sane.
Qed.
Lemma cursor_down_sane vs : sane vs -> ends (cursor_down vs) sane.
Proof.
  intros HS. unfold cursor_down. eapply ends_seq; [apply parm_ends'|]. intros p _. cbv zeta. apply ends_ret, VSIflush_good.
  by eapply range_sane.
Qed.

Lemma cursor_right_sane mw vs : 0 <= mw <= 255 -> sane vs -> ends (cursor_right mw vs) sane.
Proof.
  intros Hm HS. unfold cursor_right. eapply ends_seq; [apply parm_ends'|]. intros p _. cbv zeta.
  assert (Hgo : forall v, sane v -> sane (if mw <? x v then v <| x := mw |> else v)).
  { intros v Hv. destruct (_ <? _); [|done]. apply good_x; [done | lia]. }
  repeat (branch; [|]); try (apply ends_ret; done); apply ends_ret, Hgo; by eapply range_sane.
Qed.
Lemma cursor_left_sane mw vs : sane vs -> ends (cursor_left mw vs) sane.
Proof.
  intros HS. unfold cursor_left. eapply ends_seq; [apply parm_ends'|]. intros p _. cbv zeta.
  repeat (branch; [|]); try (apply ends_ret; done); apply ends_ret; by eapply range_sane.
Qed.

Lemma cursor_row_sane mw vs : sane vs -> ends (cursor_row mw vs) sane.
Proof.
  intros HS. unfold cursor_row. eapply ends_seq; [apply parm_ends'|]. intros p _. cbv zeta. apply ends_ret.
  assert (HV : good vs (if nz (DECAWM vs) && (mw <? x vs) then vs <| x := 0 |> else vs)).
  { destruct (_ && _); [apply good_x; [done | lia] | by apply good_refl]. }
  set (v := if nz _ && _ then _ else _) in *. clearbody v. pose proof (sane_region _ (proj1 HV)). apply good_y; [apply HV|]. apply clamp_range. lia.
Qed.

Lemma cursor_column_sane mw vs : 0 <= mw <= 255 -> sane vs -> ends (cursor_column mw vs) sane.
Proof.
  intros Hm HS. unfold cursor_column. eapply ends_seq; [apply parm_ends'|]. intros p _. cbv zeta. pose proof (clamp_range 0 mw (s16 (p - 1)) ltac:(lia)).
  branch; [destruct (lines vs <=? y vs) eqn:E|]; apply ends_ret; [done | | apply good_x; [done | lia]].
  apply good_x; [apply good_y; [done | lia] | lia].
Qed.

Lemma cursor_position_sane mw vs : 0 <= mw <= 255 -> sane vs -> ends (cursor_position mw vs) sane.
Proof.
  intros Hm HS. unfold cursor_position. eapply ends_seq; [apply parm_ends'|]. intros p1 _. eapply ends_seq; [apply parm_ends'|]. intros p0 _.
  cbv zeta. apply ends_ret. pose proof (sane_region _ HS). pose proof (clamp_range 0 mw (s16 (p1 - 1)) ltac:(lia)).
  set (row := if nz (DECORG vs) then _ else _). pose proof (clamp_range 0 (lines vs) row ltac:(lia)).
  pose proof (good_at vs (clamp 0 mw (s16 (p1 - 1))) (clamp 0 (lines vs) row) HS ltac:(lia) ltac:(lia)) as G.
  change (lines (vs <| x := clamp 0 mw (s16 (p1 - 1)) |>)) with (lines vs).
  set (v := vs <| x := _ |> <| y := _ |>) in *. clearbody v.
  assert (G2 : good vs (if nz (forcesave v) && (y v =? 0) && (x v =? 0) then v <| possibleForce := 1 |> else v)) by (destruct (_ && _ && _); good_field).
  set (w := if nz (forcesave v) && _ && _ then _ else _) in *. clearbody w. destruct (_ =? _); [apply G2 | apply VSIflush_good, G2].
Qed.

Lemma cursor_type_keeps vs : ends (cursor_type vs) (keeps vs).
Proof.
  unfold cursor_type. do 3 (eapply ends_seq; [apply parm_ends'|]; intros ? _). cbv zeta. apply ends_ret. destruct (_ <=? _); kept_field.
Qed.
Lemma device_attributes_keeps fl vs : ends (device_attributes fl vs) (keeps vs).
Proof.
  unfold device_attributes. eapply ends_seq; [apply parm_ends'|]. intros p _. branch; [apply cursor_type_keeps|].
  apply ends_ret. destruct (_ =? _); [apply VTsendident_keeps | apply sends_keep].
Qed.
#[local] Hint Resolve parm_ends' : ends.
Lemma tab_clear_keeps vs : ends (tab_clear vs) (keeps vs).
Proof. unfold tab_clear. kept. Qed.
Lemma device_status_keeps vs : ends (device_status vs) (keeps vs).
Proof.
  unfold device_status, VTsendprintstat, VTsendudkstat, VTsendstat. eapply ends_seq; [apply parm_ends'|]. intros p _. branch.
  - eapply ends_seq; [apply parm_ends'|]. intros q _. apply ends_ret. repeat case_match; try apply sends_keep; done.
  - apply ends_ret. unfold VTsendpos. repeat case_match; try apply sends_keep; kept_field.
Qed.

Lemma erase_by_good f g h vs : (forall v, sane v -> ends (f v) (good v)) -> (forall v, sane v -> ends (g v) (good v)) ->
  (forall v, sane v -> ends (h v) (good v)) -> sane vs -> ends (erase_by f g h vs) (good vs).
Proof.
  intros Hf Hg Hh HS. unfold erase_by. eapply ends_seq; [apply parm_ends'|]. intros p _. repeat (branch; [auto|]). apply ends_ret. by apply good_refl.
Qed.

Lemma scrolling_region_sane vs : sane vs -> ends (scrolling_region vs) sane.
Proof.
  intros HS. unfold scrolling_region. eapply ends_seq; [apply parm_ends'|]. intros p0 _. eapply ends_seq; [apply parm_ends'|]. intros p1 _.
  branch; [done|]. cbv zeta. pose proof (VSIflush_good vs HS) as [G _]. set (v := VSIflush vs) in *. clearbody v.
  destruct G as [Hw Hx Hy Hr Hp He Hs].
  set (t0 := if lines v - 1 <? _ then _ else _). set (b0 := if lines v <? _ then _ else _).
  assert (Hb : 1 <= b0 <= lines v) by (subst b0; repeat case_match; lia).
  assert (Ht : 0 <= t0 <= lines v - 1) by (subst t0; repeat case_match; lia). clearbody t0 b0.
  destruct (if b0 <=? t0 then _ else _) as [t b] eqn:E.
  assert (Hr2 : 0 <= t < b /\ b <= lines v /\ lines v = nlines) by (repeat case_match; simplify_eq; lia).
  apply ends_ret. split; cbn; try done. destruct (nz _); lia.
Qed.

Lemma renditions_keeps n t vs : ends (renditions n t vs) (keeps vs).
Proof.
  revert t vs. induction n as [|n IH]; intros t vs; cbn [renditions]; [done|]. eapply ends_seq; [apply parm_ends'|]. intros p _.
  eapply ends_mono; [apply IH | intros; kept_field].
Qed.
Lemma set_attributes_sane vs : sane vs -> ends (set_attributes vs) sane.
Proof.
  intros HS. unfold set_attributes. eapply ends_seq; [apply parm_ends'|]. intros p0 _. branch; [done|].
  eapply ends_seq; [apply parm_ends'|]. intros p _. eapply (ends_seq _ _ sane); [branch; [by apply set_parm_sane | done]|].
  intros v Hv. by eapply keeps_sane_ends, renditions_keeps.
Qed.

Lemma options_sane t vs : sane vs -> ends (VSIsetoption t vs) sane.
Proof.
  intros HS. unfold VSIsetoption. eapply ends_seq; [apply parm_ends'|]. intros p0 _. branch; [|branch; ends_here HS].
  eapply ends_seq; [apply parm_ends'|]. intros p1 _. apply ends_ret. pose proof (VSIflush_good vs HS) as [GF _].
  case_match; [eapply keeps_sane; [|exact HS]; kept_field|]. case_match.
  { unfold set_columns. cbv zeta. set (v := VSIflush vs) in *. clearbody v. destruct GF as [Hw Hx Hy Hr Hp He Hs].
    assert (HV : sane (if nz t then draw (RScalcwsize 132) (v <| maxwidth := 131 |>) else draw (RScalcwsize 80) (v <| maxwidth := 79 |>))).
    { destruct (nz t); split; try done; cbn; lia. }
    eapply keeps_sane; [|exact HV]. kept_field. }
  repeat (case_match; [first [by apply DECAWM_sane | eapply keeps_sane; [|exact HS]; kept_field]|]). done.
Qed.

Lemma count_parm_sane vs : sane vs -> ends (count_parm vs) (fun r => sane r.2).
Proof.
  intros HS. unfold count_parm. eapply ends_seq; [apply parm_ends'|]. intros p _. branch; [|done].
  eapply ends_seq; [by apply set_parm_sane|]. intros v Hv. done.
Qed.

Lemma csi_digit_sane b vs : sane vs -> ends (csi_digit b vs) sane.
Proof.
  intros HS. unfold csi_digit. eapply ends_seq; [apply parm_ends'|]. intros p _. apply set_parm_sane; [done|].
  pose proof (s16_range (s16 ((if p <? 0 then 0 else p) * 10) + (b - ch "0"))). lia.
Qed.

(** What the emulator does with a repeated character: it may clear the
    parameters, but never raises them. *)
Definition repeats (emulate : bytes -> VSscrn -> outcome VSscrn) : Prop :=
  forall n b vs, sane vs -> escflg vs = esc_root ->
  ends (emulate (replicate n b) vs) (fun v => sane v /\ (parms v = parms vs \/ parms v = replicate maxparms (-1))).

Definition parm_below (n : Z) (vs : VSscrn) : Prop := forall p, parms vs !! 0%nat = Some p -> p <= n.

Lemma parm_0 vs : ends (parm 0 vs) (fun p => parms vs !! 0%nat = Some p).
Proof. unfold parm, arr_get. change (Z.to_nat 0) with 0%nat. cbn [Z.leb Z.compare]. by destruct (parms vs !! 0%nat). Qed.

Lemma set_parm_0 v vs : sane vs -> v <= 32767 -> ends (set_parm 0 v vs) (fun w => sane w /\ parms w !! 0%nat = Some v /\ (captureRN w = captureRN vs /\ lastchar w = lastchar vs)).
Proof.
  intros HS Hv. unfold set_parm. destruct (sane_parms _ HS) as [Hl HF]. unfold arr_set. destruct (_ && _) eqn:E; [|done].
  rewrite Done_bind. apply ends_ret. split_and!; try done.
  - apply sane_parms_set; [done | by rewrite length_insert | by apply Forall_insert].
  - cbn [parms]. change (parms (vs <| parms := ?l |>)) with l. apply list_lookup_insert_eq. rewrite Hl. unfold maxparms. lia.
Qed.

Section Repeating.
Context (emulate : bytes -> VSscrn -> outcome VSscrn) (emulate_repeats : repeats emulate).

Lemma repeat_last_sane fuel vs : sane vs -> parm_below (256 * Z.of_nat fuel) vs -> ends (repeat_last emulate fuel vs) sane.
Proof.
  revert vs. induction fuel as [|fuel IH]; intros vs HS Hb; cbn [repeat_last];
    (eapply ends_seq; [apply parm_0|]; intros p Hp; pose proof (Hb p Hp); destruct (0 <? p) eqn:E; [|done]); [exfalso; lia|].
  cbv zeta. destruct (sane_parms _ HS) as [_ HF]. pose proof (Forall_lookup_1 _ _ _ _ HF Hp) as Hp2. cbn beta in Hp2.
  eapply ends_seq; [apply set_parm_0; [done | destruct (256 <? p) eqn:E3; clear -Hp2 E3 E; lia]|]. intros v (Hv & Hq & _).
  set (w := if debug then _ else _). assert (Hw : sane w /\ parms w = parms v /\ escflg w = esc_root).
  { pose proof (escflg_sane v esc_root Hv ltac:(done)) as HR. subst w. destruct debug; [|done].
    split_and!; [eapply keeps_sane; [|exact HR]; kept_field | done | done]. }
  destruct Hw as (Hw & Ew & Er). eapply ends_seq; [by apply emulate_repeats|]. intros u [Hu Hpu].
  assert (Hfin : parm_below (256 * Z.of_nat fuel) u).
  { intros q Hlq. destruct Hpu as [Hpu|Hpu]; rewrite Hpu in Hlq.
    - rewrite Ew, Hq in Hlq. simplify_eq. destruct (256 <? p) eqn:E2; lia.
    - injection Hlq as <-. lia. }
  apply IH.
  - destruct debug; [eapply keeps_sane; [|exact Hu]; kept_field | done].
  - by destruct debug.
Qed.

Lemma below_all vs : sane vs -> parm_below (256 * Z.of_nat 128) vs.
Proof. intros HS p Hp. pose proof (Forall_lookup_1 _ _ _ _ (proj2 (sane_parms _ HS)) Hp) as H. cbn beta in H. lia. Qed.

Lemma erase_chars_sane vs : sane vs -> ends (erase_chars emulate vs) sane.
Proof.
  intros HS. unfold erase_chars. eapply ends_seq; [apply parm_ends'|]. intros p _.
  eapply (ends_seq _ _ sane).
  { branch; [by apply set_parm_sane | done]. }
  intros v Hv. cbv zeta.
  match goal with |- context [repeat_last emulate 128 ?w] => set (u := w) end.
  assert (HU : sane u).
  { eapply (keeps_sane v); [|exact Hv]. subst u. destruct (vtemulation (v <| lastchar := 32 |>) =? 3); kept_field. }
  eapply ends_seq; [apply repeat_last_sane; [done | by apply below_all]|]. intros r Hr. apply ends_ret.
  pose proof (sane_region _ Hv) as (_ & _ & Lv). pose proof (sane_region _ Hr) as (_ & _ & Lr).
  assert (HA : good r (r <| x := x v |> <| y := y v |>)).
  { apply good_at; [done | apply Hv | pose proof (sane_y _ Hv); lia]. }
  eapply keeps_sane; [|apply HA]. kept_field.
Qed.
End Repeating.

Lemma ends_if_Ends (m : outcome VSscrn) f fl : machine_state f -> ends m sane -> ends (v ← m; Done (Goes f fl v)) step_sane.
Proof. intros Hf H. eapply ends_seq; [exact H | done]. Qed.

Lemma csi_parameter_sane b fl vs : sane vs -> forall r, csi_parameter b fl vs = Some r -> ends r step_sane.
Proof.
  intros HS r. unfold csi_parameter.
  destruct (b =? 0x08); [intros [= <-]; ends_here HS|].
  destruct (_ && _); [intros [= <-]; apply ends_if_Ends; [done | by apply csi_digit_sane]|].
  destruct (b =? _).
  { intros [= <-]. eapply ends_seq; [apply set_parm_sane; [done | lia]|]. intros v Hv. ends_here Hv. }
  destruct (b =? _); [intros [= <-]; ends_here HS|].
  destruct (b =? 34); [intros [= <-]; ends_here HS|].
  destruct (b =? _); [intros [= <-]; ends_here HS|].
  destruct (_ || _); [intros [= <-]; ends_here HS | done].
Qed.

Lemma media_copy_keeps vs : ends (media_copy vs) (keeps vs).
Proof.
  unfold media_copy. eapply ends_seq; [apply parm_ends'|]. intros p _. apply ends_ret. destruct (_ =? _); [apply VSprON_keeps | done].
Qed.

Section Csi.
Context (emulate : bytes -> VSscrn -> outcome VSscrn) (emulate_repeats : repeats emulate).

Lemma csi_final_sane mw b fl vs : 0 <= mw <= 255 -> sane vs -> ends (csi_final emulate mw b fl vs) sane.
Proof.
  intros Hm HS. unfold csi_final.
  assert (Hcount : forall f, (forall n v, sane v -> ends (f n v) sane) -> forall v, sane v -> ends ('(n, v) ← count_parm v; f n v) sane).
  { intros f Hf v Hv. eapply ends_seq; [by apply count_parm_sane|]. intros [n w] Hw. by apply Hf. }
  assert (HK : forall f : VSscrn -> outcome VSscrn, (forall v, ends (f v) (keeps v)) -> forall v, sane v -> ends (f v) (good v)).
  { intros f Hf v Hv. eapply ends_mono; [apply Hf | intros w Hw; by apply keeps_good]. }
  branch; [by apply cursor_up_sane|]. branch; [by apply erase_chars_sane|]. branch; [by apply repeat_last_sane; [| |apply below_all]|].
  branch; [by apply cursor_down_sane|]. branch; [by apply cursor_right_sane|].
  branch; [by eapply keeps_sane_ends, device_attributes_keeps|]. branch; [by apply cursor_row_sane|].
  branch; [by apply cursor_left_sane|]. branch; [by apply cursor_column_sane|]. branch; [by eapply keeps_sane_ends, tab_clear_keeps|].
  branch; [by apply options_sane|]. branch; [by apply cursor_position_sane|].
  branch; [eapply good_sane_ends, erase_by_good; auto using VSIeeos_good, VSIebos_good, VSIes_keeps|].
  branch; [eapply good_sane_ends, erase_by_good; auto using VSIeeol_good, VSIebol_good, VSIel_good|].
  branch; [apply Hcount; [intros n v Hv; by eapply keeps_sane_ends, VSIinslines_keeps | done]|].
  branch; [by apply options_sane|].
  branch; [apply Hcount; [intros n v Hv; by eapply keeps_sane_ends, VSIdellines_keeps | by apply VSIflush_good]|].
  branch; [by apply set_attributes_sane|]. branch; [by eapply keeps_sane_ends, device_status_keeps|].
  branch; [apply Hcount; [intros n v Hv; by eapply good_sane_ends, VSIdelchars_good | done]|].
  branch; [by apply scrolling_region_sane|].
  branch; [|done]. apply Hcount; [|done]. intros n v Hv. eapply ends_seq; [by apply VSIinschar_good|].
  intros w [[Hw _] _]. apply ends_ret. eapply keeps_sane; [|exact Hw]. kept_field.
Qed.

Lemma csi_sane mw b fl vs : 0 <= mw <= 255 -> sane vs -> ends (csi emulate mw b fl vs) step_sane.
Proof.
  intros Hm HS. unfold csi. destruct (csi_parameter b fl vs) eqn:E; [by eapply csi_parameter_sane|].
  branch; [apply ends_if_Ends; [done | by eapply keeps_sane_ends, media_copy_keeps]|]. apply ends_Ends. by apply csi_final_sane.
Qed.
End Csi.

(** ** The other sequences *)

Lemma line_size_keeps la vs : ends (line_size la vs) (keeps vs).
Proof. unfold line_size. cbv zeta. kept. Qed.

Lemma decl_sane b fl vs : sane vs -> ends (decl b fl vs) step_sane.
Proof.
  intros HS. unfold decl. cbv zeta. branch; [ends_here HS|].
  do 4 (branch; [by eapply ends_Ends, keeps_sane_ends, line_size_keeps|]).
  branch; [by eapply ends_Ends, keeps_sane_ends, VTalign_keeps | ends_here HS].
Qed.
Lemma descl_sane b fl vs : sane vs -> ends (descl b fl vs) step_sane.
Proof.
  intros HS. unfold descl. branch; [ends_here HS|]. branch; [|ends_here HS].
  eapply ends_seq; [apply parm_ends'|]. intros p0 _. branch; [by apply ends_ret, vtemulation_sane|]. branch; [|ends_here HS].
  eapply ends_seq; [apply parm_ends'|]. intros p1 _. apply ends_ret. cbn [step_sane].
  repeat case_match; auto using vteightbits_sane, vtemulation_sane.
Qed.

Lemma switch_in_plain t c vs : plain vs -> switch_in t c vs = vs.
Proof.
  unfold plain, switch_in. destruct (session vs) as [tw|]; [|done]. intros (Hi & _). unfold GetTranslationIndex.
  rewrite (proj2 (Z.ltb_ge gTableCount _)) by lia. by rewrite (proj2 (Z.ltb_ge _ 0)) by lia.
Qed.
Lemma designate_G0_keeps on vs : keeps vs (designate_G0 on vs).
Proof. unfold designate_G0. cbv zeta. destruct (_ =? _); kept_field. Qed.
Lemma designate_G1_keeps on vs : keeps vs (designate_G1 on vs).
Proof. unfold designate_G1. cbv zeta. destruct (_ =? _); kept_field. Qed.
Lemma kernel_designate_G0 on vs : kernel (designate_G0 on vs) = kernel vs.
Proof. apply designate_G0_keeps. Qed.
Lemma kernel_designate_G1 on vs : kernel (designate_G1 on vs) = kernel vs.
Proof. apply designate_G1_keeps. Qed.
#[local] Hint Rewrite kernel_designate_G0 kernel_designate_G1 : kernel.
Lemma switch_in_sane t c vs : sane vs -> sane (switch_in t c vs).
Proof. intros HS. by rewrite switch_in_plain by apply HS. Qed.

Lemma select_G0_sane b fl vs : sane vs -> ends (select_G0 b fl vs) step_sane.
Proof.
  intros HS. unfold select_G0. pose proof (keeps_sane _ _ (designate_G0_keeps 0 vs) HS).
  branch; [ends_here HS|]. branch; [by apply ends_ret, switch_in_sane|]. branch; [ends_here HS|].
  do 2 (branch; [by apply ends_ret, switch_in_sane|]). ends_here HS.
Qed.
Lemma select_G1_sane b fl vs : sane vs -> ends (select_G1 b fl vs) step_sane.
Proof. intros HS. unfold select_G1. repeat (branch; [ends_here HS|]). ends_here HS. Qed.
Lemma select_G2_sane b fl vs : sane vs -> ends (select_G2 b fl vs) step_sane.
Proof. intros HS. unfold select_G2. destruct (_ =? _); ends_here HS. Qed.
Lemma select_G3_sane b fl vs : sane vs -> ends (select_G3 b fl vs) step_sane.
Proof. intros HS. unfold select_G3. destruct (_ =? _); ends_here HS. Qed.
Lemma select_G2j_sane b fl vs : sane vs -> ends (select_G2j b fl vs) step_sane.
Proof.
  intros HS. unfold select_G2j. destruct (_ =? _); [ends_here HS|]. destruct (_ || _); [destruct (_ =? _)|]; ends_here HS.
Qed.
Lemma select_G0j_sane b fl vs : sane vs -> ends (select_G0j b fl vs) step_sane.
Proof.
  intros HS. unfold select_G0j. pose proof (keeps_sane _ _ (designate_G0_keeps 0 vs) HS) as HD.
  branch; [ends_here HS|].
  do 2 (branch; [apply ends_ret; destruct (fl =? 0); cbn [step_sane]; [by apply switch_in_sane | done]|]).
  branch; [apply ends_ret; by destruct (fl =? 0)|]. branch; [destruct (fl =? 0); ends_here HS|].
  branch; [apply ends_ret; destruct (fl =? 1); cbn [step_sane]; [by apply switch_in_sane | done] | ends_here HS].
Qed.

Lemma clear_tempstr_keeps vs : ends (clear_tempstr vs) (keeps vs).
Proof. unfold clear_tempstr. kept. Qed.
Lemma append_tempstr_keeps b vs : ends (append_tempstr b vs) (keeps vs).
Proof. unfold append_tempstr. kept. Qed.
Lemma tempstr_value_ends vs : ends (tempstr_value vs) (fun _ => True).
Proof. unfold tempstr_value. eapply ends_seq; [apply ends_arr_get' | done]. Qed.

Lemma url_sane b fl vs : sane vs -> ends (url b fl vs) step_sane.
Proof.
  intros HS. unfold url. branch.
  - eapply (ends_seq _ _ (keeps vs)); [branch; [apply clear_tempstr_keeps | done]|]. intros v Kv. apply ends_ret. split; [done | by eapply keeps_sane].
  - branch; [|ends_here HS]. branch.
    + eapply ends_seq; [apply tempstr_value_ends|]. intros s _.
      destruct (match session vs with Some tw => _ | None => _ end) as [ok v] eqn:E. apply ends_ret. split; [done|].
      assert (Kv : keeps vs v) by (unfold ask in E; repeat case_match; simplify_eq; kept_field).
      eapply keeps_sane; [|exact HS]. kept_field.
    + eapply ends_seq; [apply ends_arr_get'|]. intros n _. branch; [|ends_here HS].
      eapply ends_seq; [apply append_tempstr_keeps|]. intros v Kv. apply ends_ret. split; [done | by eapply keeps_sane].
Qed.

(** ** One round of the machine *)

(** What a part of the machine entered in the state [f] with [c] in the buffer
    does: it takes characters, or passes everything on as it was, and then [E]
    holds of the state. Only the end of a title (with its flag not 0) cuts
    without taking a character. *)
Definition part (E : Z -> Prop) (f fl : Z) (c : bytes) (r : flow) : Prop :=
  match r with
  | Falls f' fl' c' v => sane v /\ machine_state f' /\ c' `suffix_of` c
      /\ ((length c' < length c)%nat \/ f' = f /\ fl' = fl /\ c' = c /\ (c = [] \/ E f))
  | Cuts c1 v => sane v /\ exists b r, c1 = b :: r /\ r `suffix_of` c
      /\ ((length r < length c)%nat \/ r = c /\ f <> esc_root /\ fl <> 0)
  end.

Definition always (f : Z) : Prop := True.

Lemma part_then (E1 E2 : Z -> Prop) f fl c m k : ends m (part E1 f fl c) ->
  (forall f' fl' c' v, sane v -> machine_state f' -> c' `suffix_of` c -> ends (k f' fl' c' v) (part E2 f' fl' c')) ->
  ends (and_then m k) (part (fun f => E1 f /\ E2 f) f fl c).
Proof.
  intros Hm Hk. unfold and_then. eapply ends_seq; [exact Hm|]. intros [f1 fl1 c1 v1|c1 v1]; simpl.
  - intros (HS & Hf & Hs & Hc). eapply ends_mono; [by apply Hk|]. pose proof (suffix_length _ _ Hs) as Hl.
    destruct Hc as [Hc|(-> & -> & -> & Hc)].
    + intros [f2 fl2 c2 v2|c2 v2]; simpl.
      * intros (HS2 & Hf2 & Hs2 & Hc2). split_and!; [done | done | by etransitivity | left]. pose proof (suffix_length _ _ Hs2). lia.
      * intros (HS2 & b & r & -> & Hs2 & Hc2). split; [done|]. exists b, r. split_and!; [done | by etransitivity | left].
        pose proof (suffix_length _ _ Hs2). lia.
    + intros [f2 fl2 c2 v2|c2 v2]; simpl.
      * intros (HS2 & Hf2 & Hs2 & Hc2). split_and!; [done | done | done|]. destruct Hc2 as [Hc2|(-> & -> & -> & Hc2)]; [by left | right].
        split_and!; [done | done | done | tauto].
      * done.
  - intros H. by apply ends_ret.
Qed.

Lemma part_refl (E : Z -> Prop) f fl c vs : sane vs -> machine_state f -> c = [] \/ E f -> part E f fl c (Falls f fl c vs).
Proof. intros. split_and!; [done | done | done | by right]. Qed.

Lemma part_cut (E : Z -> Prop) f fl b c vs : sane vs -> part E f fl (b :: c) (Cuts (b :: c) vs).
Proof. intros HS. split; [done|]. exists b, c. split_and!; [done | by apply suffix_cons_r | left; simpl; lia]. Qed.

(** Part of a shorter buffer. *)
Lemma part_shorter (E E' : Z -> Prop) f fl f' fl' b c r : part E f' fl' c r -> part E' f fl (b :: c) r.
Proof.
  destruct r as [f2 fl2 c2 v2|c2 v2]; simpl.
  - intros (HS & Hf & Hs & _). split_and!; [done | done | by apply suffix_cons_r | left]. apply suffix_length in Hs. lia.
  - intros (HS & b2 & r & -> & Hs & _). split; [done|]. exists b2, r. split_and!; [done | by apply suffix_cons_r | left]. apply suffix_length in Hs. lia.
Qed.

Lemma esc_loop_part state h f fl c vs : (forall b fl vs, sane vs -> ends (h b fl vs) step_sane) -> sane vs -> machine_state f ->
  ends (esc_loop state h f fl c vs) (part (fun f => f <> state) f fl c).
Proof.
  intros Hh. revert f fl vs. induction c as [|b c IH]; intros f fl vs HS Hf; cbn [esc_loop].
  { apply ends_ret, part_refl; auto. }
  destruct (f =? state) eqn:E; [|apply ends_ret, part_refl; [done | done | right; cbn beta; lia]].
  eapply ends_seq; [by apply Hh|]. intros [v|f' fl' v]; cbn [step_sane]; [intros Hv; by apply ends_ret, part_cut|].
  intros [Hf' Hv]. eapply ends_mono; [by apply IH|]. intros r Hr. by eapply part_shorter.
Qed.

Lemma step_back_spec buf c vs : c `suffix_of` buf -> ends (step_back buf c vs) (fun c1 => exists b, c1 = b :: c).
Proof.
  intros [k ->]. unfold step_back. destruct (decide _) as [Hd|Hd]; [destruct (nz _); [done | by eexists]|].
  apply ends_ret. rewrite length_app in *. destruct k as [|b k] using rev_ind; [simpl in Hd; lia|]. exists b.
  rewrite <- app_assoc, drop_app_length'; [done|]. rewrite length_app. simpl. lia.
Qed.

Lemma title_spec c vs : ends (title c vs) (fun '(c', v) => keeps vs v /\ c' `suffix_of` c).
Proof.
  revert vs. induction c as [|b c IH]; intros vs; cbn [title]; [by split|]. branch; [by split|].
  eapply ends_seq; [apply append_tempstr_keeps|]. intros v Hv. eapply ends_mono; [apply IH|]. intros [c' w] [Hw Hs].
  split; [kept_field | by apply suffix_cons_r].
Qed.

Lemma set_colour_keeps vs : ends (set_colour vs) (keeps vs).
Proof. unfold set_colour. do 7 (eapply ends_seq; [apply parm_ends'|]; intros ? _). apply ends_ret. kept_field. Qed.

Lemma hex_digit_small b d : hex_digit b = Some d -> d <= 32767.
Proof.
  unfold hex_digit. destruct (_ && _) eqn:E1; [intros [= <-]; apply andb_true_iff in E1 as [_ E1]; change (ch "9") with 57 in E1; change (ch "0") with 48; lia|].
  destruct (_ || _) eqn:E2; [|done]. intros [= <-]. change (ch "A") with 65 in *. change (ch "F") with 70 in *.
  change (ch "a") with 97 in *. change (ch "f") with 102 in *.
  assert (Hb : b ∈ [65; 66; 67; 68; 69; 70; 97; 98; 99; 100; 101; 102]) by (rewrite !elem_of_cons; lia).
  repeat (apply elem_of_cons in Hb as [->|Hb]; [by vm_compute|]). by apply elem_of_nil in Hb.
Qed.

Lemma palette_part f fl c vs : sane vs -> machine_state f -> ends (palette f fl c vs) (part always f fl c).
Proof.
  intros HS Hf. unfold palette. destruct c as [|b c]; [apply ends_ret, part_refl; auto|].
  destruct (hex_digit b) as [d|] eqn:E; [|by apply ends_ret, part_cut].
  eapply ends_seq; [apply set_parm_sane; [done | by eapply hex_digit_small]|]. intros v Hv. cbv zeta.
  assert (HP : sane (v <| parmptr := parmptr v + 1 |>)) by (eapply keeps_sane; [|exact Hv]; kept_field).
  branch; [|apply ends_ret, part_refl; try done; by right].
  eapply ends_seq; [apply set_colour_keeps|]. intros w Kw. apply ends_ret, part_cut. by eapply keeps_sane.
Qed.

Lemma xterm_body_part buf f fl c vs : sane vs -> machine_state f -> c `suffix_of` buf -> f <> esc_root -> fl <> 0 ->
  ends (xterm_body buf f fl c vs) (part always f fl c).
Proof.
  intros HS Hf Hb Hr Hfl. unfold xterm_body.
  eapply (ends_seq _ _ (fun '(fl', c', v) => sane v /\ c' `suffix_of` buf /\ (c' = c /\ fl' = fl \/ exists b, c = b :: c' /\ fl' = 2))).
  { destruct c as [|b r]; [apply ends_ret; auto|]. branch; [|apply ends_ret; auto].
    eapply ends_seq; [apply clear_tempstr_keeps|]. intros v Kv. apply ends_ret. split_and!; [by eapply keeps_sane | by eapply suffix_cons_l | right; by exists b]. }
  intros [[fl' c'] v] (Hv & Hs & Hc).
  assert (Hgo : forall r, part always f fl' c' r -> part always f fl c r).
  { intros r. destruct Hc as [[-> ->]|(b & -> & ->)]; [done|]. apply part_shorter. }
  branch.
  - eapply ends_seq; [apply title_spec|]. intros [c2 w] [Kw Sw]. pose proof (keeps_sane _ _ Kw Hv) as Hw.
    destruct c2 as [|b c2].
    + apply ends_ret, Hgo. destruct c' as [|b' c']; [apply part_refl; auto|]. split_and!; [done | done | done | left; simpl; lia].
    + eapply ends_seq; [apply tempstr_value_ends|]. intros s _. cbv zeta.
      assert (HD : sane (draw (SetWindowName s) w)) by (eapply keeps_sane; [|exact Hw]; kept_field).
      eapply (ends_seq _ _ (fun c1 => c1 = b :: c2 \/ exists d, c1 = d :: b :: c2)).
      { branch; [by left|]. eapply ends_mono; [apply step_back_spec; by etransitivity|]. intros c1 Hc1. by right. }
      intros c1 Hc1. apply ends_ret, Hgo. split; [done|]. pose proof (suffix_length _ _ Sw) as Hlen. simpl in Hlen.
      destruct Hc1 as [->|[d ->]].
      * exists b, c2. split_and!; [done | by eapply suffix_cons_l | left; lia].
      * exists d, (b :: c2). split_and!; [done | done|]. destruct Hc as [[-> ->]|(b' & -> & ->)]; [|].
        -- destruct (decide (length (b :: c2) = length c)) as [E|E]; [right | left; simpl in *; lia].
           split_and!; [|done|done]. destruct Sw as [k ->]. rewrite length_app in E. destruct k; [done | simpl in E; lia].
        -- destruct (decide (length (b :: c2) = length c')) as [E|E]; [right | left; simpl in *; lia].
           split_and!; [|done|done]. destruct Sw as [k ->]. rewrite length_app in E. destruct k; [done | simpl in E; lia].
  - branch; [|apply ends_ret, Hgo, part_refl; try done; by right].
    eapply ends_mono; [apply palette_part; done | exact Hgo].
Qed.

Lemma xterm_part buf f fl c vs : sane vs -> machine_state f -> c `suffix_of` buf -> ends (xterm buf f fl c vs) (part always f fl c).
Proof.
  intros HS Hf Hb. unfold xterm. destruct c as [|b c]; [apply ends_ret, part_refl; auto|].
  destruct (f =? esc_XTerm) eqn:Ef; [|apply ends_ret, part_refl; try done; by right].
  assert (Hr : f <> esc_root) by (unfold esc_root; unfold esc_XTerm in Ef; lia).
  destruct (fl =? 0) eqn:E0.
  - branch; [|branch; [|branch]].
    + eapply ends_mono; [apply xterm_body_part; try done; by eapply suffix_cons_l | intros r Hr'; by eapply part_shorter].
    + eapply ends_mono; [apply xterm_body_part; try done; by eapply suffix_cons_l | intros r Hr'; by eapply part_shorter].
    + apply ends_ret, part_cut. eapply keeps_sane; [|exact HS]. kept_field.
    + by apply ends_ret, part_cut.
  - apply xterm_body_part; try done. lia.
Qed.

Lemma part_mono (E E' : Z -> Prop) f fl c m : ends m (part E f fl c) -> (machine_state f -> E f -> E' f) -> ends m (part E' f fl c).
Proof.
  intros H HE. eapply ends_mono; [exact H|]. intros [f' fl' c' v|c1 v]; simpl; [|done].
  intros (HS & Hf & Hs & [Hc|(-> & -> & -> & Hc)]); split_and!; try done; [by left | right]. split_and!; try done.
  destruct Hc; auto.
Qed.

Section Round.
Context (emulate : bytes -> VSscrn -> outcome VSscrn) (emulate_repeats : repeats emulate).

Lemma escapes_part mw buf f fl c vs : 0 <= mw <= 255 -> sane vs -> machine_state f -> c `suffix_of` buf ->
  ends (escapes emulate mw buf f fl c vs) (part (fun f => f = esc_root) f fl c).
Proof.
  intros Hm HS Hf Hb. unfold escapes. cbv zeta.
  assert (Hloop : forall st h, (forall b fl vs, sane vs -> ends (h b fl vs) step_sane) ->
    forall E f fl c m, ends m (part E f fl c) -> ends (and_then m (esc_loop st h)) (part (fun f => E f /\ f <> st) f fl c)).
  { intros st h Hh E f' fl' c' m H. eapply (part_then E (fun f => f <> st)); [exact H|]. intros; by apply esc_loop_part. }
  assert (Hfin : forall E f fl c m, ends m (part E f fl c) -> ends (and_then m cut_off) (part (fun f => E f /\ f <= esc_csi) f fl c)).
  { intros E f' fl' c' m H. eapply (part_then E (fun f => f <= esc_csi)); [exact H|]. intros f2 fl2 c2 v2 HS2 Hf2 _. unfold cut_off.
    apply ends_ret. destruct c2 as [|b r]; [apply part_refl; auto|]. destruct (esc_csi <? f2) eqn:Ec; [by apply part_cut|].
    apply part_refl; try done. right. lia. }
  eapply part_mono.
  - apply Hfin, Hloop; [intros; by apply url_sane|].
    eapply (part_then _ always).
    + do 9 (apply Hloop; [intros; first [ by apply select_G2j_sane | by apply select_G0j_sane | by apply select_G3_sane | by apply select_G2_sane
        | by apply select_G1_sane | by apply select_G0_sane | by apply descl_sane | by apply decl_sane | by apply csi_sane ]|]).
      apply esc_loop_part; [intros; by apply basic_sane | done | done].
    + intros f2 fl2 c2 v2 HS2 Hf2 Hs2. apply xterm_part; [done | done | by etransitivity].
  - cbn beta. unfold machine_state, esc_csi, esc_basic, esc_root. lia.
Qed.

(** What a round does: it takes a character, or ends the sequence the machine
    was in. *)
Definition round (buf : bytes) (f : Z) (c : bytes) (r : flow) : Prop :=
  match r with
  | Falls f' _ c' v => sane v /\ machine_state f' /\ c' `suffix_of` buf /\ (length c' < length c)%nat
  | Cuts c1 v => sane v /\ exists b r, c1 = b :: r /\ r `suffix_of` buf /\ ((length r < length c)%nat \/ r = c /\ f <> esc_root)
  end.

Lemma c1_block_part f fl c vs : sane vs -> machine_state f ->
  ends (c1_block f fl c vs) (fun r => match r with
    | Falls f' fl' c' v => sane v /\ machine_state f' /\ (f' = esc_csi /\ (length c' < length c)%nat /\ c' `suffix_of` c \/ c' = c
        /\ (f' = esc_XTerm /\ fl' = 0 \/ f' = f /\ fl' = fl /\ v = vs /\ (f = esc_root -> forall b r, c = b :: r -> eight_bit b vs = false)))
    | Cuts c' v => sane v /\ c' = c /\ c <> [] end).
Proof.
  intros HS Hf. unfold c1_block. destruct c as [|b c]; [apply ends_ret; split_and!; try done; right; split; [done | right; done]|].
  destruct ((f =? esc_root) && eight_bit b vs) eqn:E.
  - eapply ends_seq; [by apply c1_control_sane|]. intros [v|f' fl' v] Hv; apply ends_ret; [done|].
    destruct Hv as [Hv Hst]. split_and!; [by destruct Hv | by destruct Hst as [->|[-> _]] |].
    destruct Hst as [->|[-> ->]]; [left | right]; simpl; [split_and!; [done | lia | by apply suffix_cons_r] | split; [done | by left]].
  - apply ends_ret. split_and!; [done | done |]. right. split; [done|]. right. split_and!; try done. intros -> b0 r0 [= <- <-]. done.
Qed.

Lemma texts_good mw tryit captured f fl c vs : 0 <= mw <= 255 -> sane vs -> machine_state f ->
  (f = esc_root -> forall b r, c = b :: r -> is_text tryit b vs = true) ->
  ends (texts mw tryit captured f fl c vs) (fun r => match r with
    | Falls f' fl' c' v => good vs v /\ f' = f /\ fl' = fl /\ c' `suffix_of` c
        /\ ((length c' < length c)%nat \/ c' = c /\ (c = [] \/ f <> esc_root))
    | Cuts _ _ => False end).
Proof.
  intros Hm HS Hf Ht. unfold texts. destruct (f =? esc_root) eqn:E; [|apply ends_ret; split_and!; try done; [right; split; [done | right; lia]]].
  eapply ends_seq; [by apply text_rounds_good|]. intros [c' v] (G & Hs & Hc). apply ends_ret.
  split_and!; [exact G | done | done | done |]. destruct c as [|b c]; [right; apply suffix_nil_inv in Hs as ->; split; [done | by left]|].
  left. specialize (Hc b c eq_refl (Ht ltac:(lia) b c eq_refl)). apply suffix_length in Hc. simpl. lia.
Qed.
End Round.

(** The escape sequences after [c0] was read up to [c]. *)
Lemma escapes_round emulate mw buf f0 c0 f fl c vs : repeats emulate -> 0 <= mw <= 255 -> sane vs -> machine_state f -> c `suffix_of` buf ->
  c0 <> [] -> ((length c < length c0)%nat \/ c = c0 /\ f <> esc_root /\ (f0 <> esc_root \/ fl = 0)) ->
  ends (escapes emulate mw buf f fl c vs) (round buf f0 c0).
Proof.
  intros He Hm HS Hf Hb Hne Hc. eapply ends_mono; [by apply escapes_part|].
  intros [f' fl' c' v|c1 v]; simpl.
  - intros (Hv & Hf' & Hs & Hl). split_and!; [done | done | by etransitivity|].
    destruct Hc as [Hc|(-> & Hr & _)]; destruct Hl as [Hl|(-> & -> & -> & [Hl|Hl])]; try lia; try done.
  - intros (Hv & b & r & -> & Hs & Hl). split; [done|]. exists b, r. split_and!; [done | by etransitivity|].
    destruct Hc as [Hc|(-> & Hr & H0)]; destruct Hl as [Hl|(-> & _ & Hfl)]; try (left; lia).
    right. split; [done|]. by destruct H0.
Qed.

Lemma is_text_here tryit b vs : (32 <= b \/ tryit = true /\ b < 32) -> eight_bit b vs = false -> is_text tryit b vs = true.
Proof. intros Hb He. unfold is_text. rewrite He, andb_true_r. apply orb_true_iff. destruct Hb as [Hb|[-> _]]; [left; lia | by right]. Qed.

Lemma iteration_round emulate captured buf f fl c vs : repeats emulate -> sane vs -> machine_state f -> c `suffix_of` buf -> c <> [] ->
  ends (iteration emulate captured buf f fl c vs) (round buf f c).
Proof.
  intros He HS Hf Hb Hne. unfold iteration. cbv zeta. pose proof (margin_range vs HS) as HM. pose proof (sane_width _ HS) as HW.
  set (mw := margin vs) in *. assert (Hm : 0 <= mw <= 255) by lia. clearbody mw. clear HM HW.
  eapply (ends_seq _ _ (fun '(c', v) => sane v /\ c' `suffix_of` c)).
  { destruct (nz _); [|by apply ends_ret]. eapply ends_mono; [apply VSpr_keeps, HS|]. intros [c' v] [Kv Hs]. split; [by eapply keeps_sane | done]. }
  intros [c1 v1] [H1 S1]. pose proof (suffix_length _ _ S1) as L1.
  eapply (ends_seq _ _ (fun '(f', tryit, c', v) => sane v /\ machine_state f' /\ c' `suffix_of` c1
    /\ ((length c' < length c1)%nat \/ f' = f /\ c' = c1)
    /\ (f' = esc_root -> forall b r, c' = b :: r -> 32 <= b \/ tryit = true /\ b < 32))).
  { destruct (f =? esc_root) eqn:E; [|apply ends_ret; split_and!; try done; [by right | intros ->; by rewrite Z.eqb_refl in E]].
    eapply ends_mono; [by apply controls_good|]. intros [[[f' t] c'] v] (G & Hf' & Hs & Hl & Ht).
    split_and!; [apply G | destruct Hf' as [->|[-> _]]; done | done | | done]. destruct Hl as [Hl|[-> ->]]; [by left | right; split; [lia | done]]. }
  intros [[[f2 t] c2] v2] (H2 & F2 & S2 & L2 & T2). pose proof (suffix_length _ _ S2) as L2'.
  assert (Sb : c2 `suffix_of` buf) by (etransitivity; [exact S2 | by etransitivity]).
  assert (Hcut : forall v, sane v -> c2 <> [] -> round buf f c (Cuts c2 v)).
  { intros v Hv Hn. split; [done|]. destruct c2 as [|b r]; [done|]. exists b, r. split_and!; [done | by eapply suffix_cons_l | left].
    simpl in *. lia. }
  apply (ends_seq _ _ (fun r => match r with
    | Falls f3 fl3 c3 v3 => sane v3 /\ machine_state f3 /\ c3 `suffix_of` buf
        /\ ((length c3 < length c)%nat \/ c3 = c /\ f3 <> esc_root /\ (f <> esc_root \/ fl3 = 0))
    | Cuts c3 v3 => c3 = c2 /\ c2 <> [] /\ sane v3 end)).
  - unfold and_then. eapply ends_seq; [by apply c1_block_part|]. intros [f3 fl3 c3 v3|c3 v3].
    + intros (H3 & F3 & L3).
      assert (E3 : (length c3 < length c2)%nat /\ c3 `suffix_of` c2 \/ c3 = c2) by tauto.
      assert (S3 : c3 `suffix_of` c2) by (destruct E3 as [[_ E3]| ->]; done).
      assert (Heq : length c2 = length c -> c2 = c /\ f2 = f).
      { intros El. destruct L2 as [L2|[-> ->]]; [lia|]. split; [|done]. destruct S1 as [k ->]. rewrite length_app in El. destruct k; [done | simpl in El; lia]. }
      eapply ends_mono; [apply texts_good; try done|].
      * destruct L3 as [(-> & _)|[-> [[-> ->]|(-> & -> & -> & He3)]]]; [done | done |]. intros Hr b r E. apply is_text_here; eauto.
      * intros [f4 fl4 c4 v4|c4 v4]; [|done]. intros ([H4 _] & -> & -> & S4 & L4). pose proof (suffix_length _ _ S4) as LS.
        split_and!; [done | done | etransitivity; [exact S4 | by etransitivity]|].
        destruct (decide (length c4 < length c)%nat) as [Hd|Hd]; [by left | right].
        destruct L4 as [L4|[-> L4]]; [destruct E3 as [[E3 _]|E3]; subst; lia|].
        destruct E3 as [[E3 _]| ->]; [lia|]. destruct (Heq ltac:(lia)) as [-> ->].
        destruct L4 as [->|L4]; [done|]. split_and!; [done | done |].
        destruct L3 as [(_ & L3 & _)|[_ [[-> ->]|(-> & _)]]]; [lia | by right | by left].
    + intros (H3 & -> & Hn). by apply ends_ret.
  - intros [f3 fl3 c3 v3|c3 v3].
    + intros (H3 & F3 & S3 & L3). by apply escapes_round.
    + intros (-> & Hn & H3). by apply ends_ret, Hcut.
Qed.

(** ** The whole buffer *)

Lemma capture_all_keeps fuel c vs : (length c <= fuel)%nat -> ends (capture_all fuel c vs) (keeps vs).
Proof.
  revert c vs. induction fuel as [|fuel IH]; intros [|b c] vs Hl; try done; [simpl in Hl; lia|]. cbn [capture_all].
  eapply ends_seq; [apply VScapture_keeps|]. intros v Kv. eapply ends_mono; [apply IH|].
  - rewrite length_drop. simpl in *. lia.
  - intros w Kw. kept_field.
Qed.

Lemma shortcut_keeps b vs : keeps vs (shortcut b vs).
Proof. unfold shortcut. destruct (_ && _); kept_field. Qed.

(** The rounds a buffer may still take. *)
Definition rounds (f : Z) (c : bytes) : nat := 2 * length c + (if decide (f = esc_root) then 0 else 1).

Lemma run_sane emulate captured buf fuel f fl c vs : repeats emulate -> sane vs -> machine_state f -> c `suffix_of` buf -> (rounds f c <= fuel)%nat ->
  ends (run emulate captured buf fuel f fl c vs) (fun '(f', _, v) => machine_state f' /\ sane v).
Proof.
  intros He. revert f fl c vs. induction fuel as [|fuel IH]; intros f fl [|b c] vs HS Hf Hs Hl; try done.
  { unfold rounds in Hl. simpl in Hl. lia. }
  cbn [run]. eapply ends_seq; [by apply iteration_round|]. intros [f' fl' c' v|c1 v]; simpl.
  - intros (Hv & Hf' & Hs' & Hc). apply IH; try done. unfold rounds in *. simpl in *. repeat case_decide; lia.
  - intros (Hv & d & r & -> & Hs' & Hc). apply IH; try done; [eapply keeps_sane; [apply shortcut_keeps | done]|].
    unfold rounds in *. rewrite decide_True by done. destruct Hc as [Hc|[-> Hr]]; [simpl in *; repeat case_decide; lia|].
    rewrite decide_False in Hl by done. simpl in *. lia.
Qed.

Lemma VSem_with_sane emulate c vs : repeats emulate -> sane vs -> ends (VSem_with emulate c vs) sane.
Proof.
  intros He HS. unfold VSem_with. cbv zeta. pose proof (sane_escflg _ HS) as Hf.
  eapply (ends_seq _ _ (keeps vs)); [destruct (_ && _); [by apply capture_all_keeps | done]|]. intros v Kv.
  eapply ends_seq; [apply run_sane; [done | by eapply keeps_sane | done | done |]|].
  - unfold rounds. case_decide; lia.
  - intros [[f fl] w] [Hf' Hw]. apply ends_ret. eapply (keeps_sane (w <| escflg := f |>)); [kept_field | by apply escflg_sane].
Qed.

(** ** A repeated character *)

(** The parameters stay or are cleared. *)
Definition cleared (p p' : bytes) : Prop := p' = p \/ p' = replicate maxparms (-1).

Lemma cleared_trans p q r : cleared p q -> cleared q r -> cleared p r.
Proof. unfold cleared. intros [->| ->] [->| ->]; auto. Qed.

Lemma good_cleared vs v : good vs v -> cleared (parms vs) (parms v).
Proof. intros [_ HC]. apply core_fields in HC. left. apply HC. Qed.
Lemma keeps_cleared vs v : keeps vs v -> cleared (parms vs) (parms v).
Proof. unfold keeps, kernel. left. congruence. Qed.

Lemma ends_and {A} (m : outcome A) P Q : ends m P -> ends m Q -> ends m (fun a => P a /\ Q a).
Proof. by destruct m as [| |[]]. Qed.

Lemma c1_control_cleared b fl vs : sane vs -> ends (c1_control b fl vs) (fun s => match s with
  | Ends v => cleared (parms vs) (parms v)
  | Goes f _ v => cleared (parms vs) (parms v) /\ (f = esc_csi /\ b = 0x9b \/ f = esc_XTerm /\ b = 0x9d) end).
Proof.
  intros HS. unfold c1_control.
  destruct (b =? 0x84); [eapply ends_seq; [by apply newline_good | intros v G; apply ends_ret; by apply good_cleared]|].
  destruct (b =? 0x85).
  { pose proof (good_x vs 0 HS ltac:(lia)) as G. eapply ends_seq; [apply newline_good, G|]. intros v Gv. apply ends_ret.
    eapply good_cleared, good_trans; [exact G | exact Gv]. }
  destruct (b =? 0x88); [eapply ends_seq; [apply set_tab_keeps | intros v K; apply ends_ret; by apply keeps_cleared]|].
  destruct (b =? 0x8d); [eapply ends_seq; [by apply VSIrindex_good | intros v G; apply ends_ret; by apply good_cleared]|].
  destruct (b =? 0x9b) eqn:E; [apply ends_ret; split; [by right | left; split; [done | lia]]|].
  destruct (b =? 0x9d) eqn:E2; [destruct (has_Xterm vs); apply ends_ret; [split; [by left | right; split; [done | lia]] | by left]|].
  apply ends_ret. by left.
Qed.

(** The states a run of the character [b] can be in between the parts of a
    round. *)
Definition inside (b f fl : Z) : Prop :=
  f = esc_root \/ f = esc_basic /\ b = ESC \/ f = esc_csi /\ b = 0x9b \/ f = esc_XTerm /\ fl = 0 /\ b = 0x9d.

Lemma escapes_const emulate mw buf b f fl c vs : inside b f fl -> Forall (eq b) c ->
  escapes emulate mw buf f fl c vs = Done (Falls f fl c vs) /\ (c = [] \/ f = esc_root)
  \/ escapes emulate mw buf f fl c vs = Done (Cuts c vs) /\ c <> [].
Proof.
  intros Hi [|b' r <- _].
  - left. split; [|by left]. done.
  - destruct Hi as [->|[[-> ->]|[[-> ->]|(-> & -> & ->)]]]; [left; split; [done | by right] | right..]; split; done.
Qed.

Lemma const_suffix (b : Z) c c' : Forall (eq b) c -> c' `suffix_of` c -> Forall (eq b) c'.
Proof. intros Hc [k ->]. by apply Forall_app in Hc as [_ Hc]. Qed.
Lemma suffix_eq {A} (c c' : list A) : c' `suffix_of` c -> length c' = length c -> c' = c.
Proof. intros [k ->] E. rewrite length_app in E. destruct k; [done | simpl in E; lia]. Qed.

(** A round on copies of one character from the ground state, whatever a
    repetition would do. *)
Lemma iteration_const emulate captured buf b fl c vs : Forall (eq b) c -> sane vs -> c <> [] ->
  ends (iteration emulate captured buf esc_root fl c vs) (fun r => match r with
    | Falls f' _ c' v => sane v /\ cleared (parms vs) (parms v) /\ machine_state f' /\ c' `suffix_of` c /\ (length c' < length c)%nat
        /\ (c' = [] \/ f' = esc_root)
    | Cuts c1 v => sane v /\ cleared (parms vs) (parms v) /\ c1 `suffix_of` c /\ c1 <> [] end).
Proof.
  intros Hb HS Hne. unfold iteration. cbv zeta. pose proof (margin_range vs HS) as HM. pose proof (sane_width _ HS) as HW.
  set (mw := margin vs) in *. assert (Hm : 0 <= mw <= 255) by lia. clearbody mw. clear HM HW.
  eapply (ends_seq _ _ (fun '(c', v) => keeps vs v /\ c' `suffix_of` c)).
  { destruct (nz _); [apply VSpr_keeps, HS | by apply ends_ret]. }
  intros [c1 v1] [K1 S1]. pose proof (keeps_sane _ _ K1 HS) as H1. cbn [Z.eqb esc_root]. change (esc_root =? esc_root) with true. cbv iota.
  eapply ends_seq; [by apply controls_good|]. intros [[[f2 t] c2] v2] (G2 & F2 & S2 & L2 & T2).
  pose proof (cleared_trans _ _ _ (keeps_cleared _ _ K1) (good_cleared _ _ G2)) as P2.
  assert (S2c : c2 `suffix_of` c) by (by etransitivity). pose proof (const_suffix _ _ _ Hb S2c) as B2.
  assert (I2 : inside b f2 fl).
  { destruct F2 as [->|[-> F2]]; [by left | right; left]. split; [done|].
    pose proof (const_suffix _ _ _ Hb S1) as B1. by apply (proj1 (Forall_forall _ _) B1). }
  assert (HF2 : machine_state f2) by (destruct F2 as [->|[-> _]]; done).
  apply (ends_seq _ _ (fun r => match r with
    | Falls f3 fl3 c3 v3 => sane v3 /\ cleared (parms vs) (parms v3) /\ machine_state f3 /\ inside b f3 fl3 /\ c3 `suffix_of` c
        /\ (f3 = esc_root -> (length c3 < length c)%nat)
    | Cuts c3 v3 => sane v3 /\ cleared (parms vs) (parms v3) /\ c3 `suffix_of` c /\ c3 <> [] end)).
  - assert (HT : forall f3 fl3 c3 v3, sane v3 -> cleared (parms vs) (parms v3) -> machine_state f3 -> inside b f3 fl3 -> c3 `suffix_of` c ->
        (f3 = esc_root -> forall d r, c3 = d :: r -> is_text t d v3 = true) ->
        ends (texts mw t captured f3 fl3 c3 v3) (fun r => match r with
          | Falls f3 fl3 c3 v3 => sane v3 /\ cleared (parms vs) (parms v3) /\ machine_state f3 /\ inside b f3 fl3 /\ c3 `suffix_of` c
              /\ (f3 = esc_root -> (length c3 < length c)%nat)
          | Cuts c3 v3 => sane v3 /\ cleared (parms vs) (parms v3) /\ c3 `suffix_of` c /\ c3 <> [] end)).
    { intros f3 fl3 c3 v3 H3 P3 F3 I3 S3 T3. eapply ends_mono; [by apply texts_good|]. intros [f4 fl4 c4 v4|c4 v4]; [|done].
      intros (G4 & -> & -> & S4 & L4). split_and!; try done; [apply G4 | by eapply cleared_trans, good_cleared | by etransitivity |].
      intros Hr. pose proof (suffix_length _ _ S3). pose proof (suffix_length _ _ S4).
      destruct L4 as [L4|[-> [->|L4]]]; [lia | destruct c; [done | simpl; lia] | done]. }
    unfold and_then, c1_block. destruct c2 as [|d c2]; [rewrite Done_bind; apply HT; try done; apply G2|].
    assert (Hd : d = b) by (by inversion B2). subst d.
    destruct ((f2 =? esc_root) && eight_bit b v2) eqn:E.
    + eapply (ends_seq _ _ (fun r => match r with
        | Falls f3 fl3 c3 v3 => sane v3 /\ cleared (parms vs) (parms v3) /\ machine_state f3 /\ inside b f3 fl3 /\ c3 `suffix_of` c /\ f3 <> esc_root
        | Cuts c3 v3 => sane v3 /\ cleared (parms vs) (parms v3) /\ c3 `suffix_of` c /\ c3 <> [] end)).
      * eapply ends_seq; [apply ends_and; [apply c1_control_sane, G2 | apply c1_control_cleared, G2]|].
        intros [v3|f3 fl3 v3]; simpl; intros [Hs Hc]; [split_and!; try done; by eapply cleared_trans|].
        destruct Hs as [Hs Hf]. destruct Hc as [Hc Hb2].
        destruct Hb2 as [[-> ->]|[-> ->]]; (split_and!; [done | by eapply cleared_trans | done | | | done]).
        -- right. right. by left.
        -- by eapply suffix_cons_l.
        -- right. right. right. destruct Hf as [Hf|[_ ->]]; [done|]. done.
        -- done.
      * intros [f3 fl3 c3 v3|c3 v3]; [|intros H; by apply ends_ret]. intros (H3 & P3 & F3 & I3 & S3 & L3). by apply HT.
    + rewrite Done_bind. apply HT; try done; [apply G2|]. intros -> d r [= <- <-]. apply is_text_here; [by eapply T2 | done].
  - intros [f3 fl3 c3 v3|c3 v3]; [|intros H; by apply ends_ret]. intros (H3 & P3 & F3 & I3 & S3 & L3).
    destruct (escapes_const emulate mw buf b f3 fl3 c3 v3 I3 (const_suffix _ _ _ Hb S3)) as [[-> Hc]|[-> Hc]].
    + apply ends_ret. split_and!; try done. destruct Hc as [->| ->]; [|by apply L3]. destruct c; [done | simpl; lia].
    + apply ends_ret. done.
Qed.

Lemma run_const emulate captured buf b fuel fl c vs : Forall (eq b) c -> sane vs -> (length c <= fuel)%nat ->
  ends (run emulate captured buf fuel esc_root fl c vs) (fun '(f', _, v) => machine_state f' /\ sane v /\ cleared (parms vs) (parms v)).
Proof.
  revert fl c vs. induction fuel as [|fuel IH]; intros fl [|d c] vs Hb HS Hl; try (apply ends_ret; split_and!; [done | done | by left]).
  { simpl in Hl. lia. }
  cbn [run]. eapply ends_seq; [by apply (iteration_const _ _ _ b)|]. intros [f' fl' c' v|c1 v].
  - intros (Hv & Pv & Hf' & Hs & Hc & Hr). pose proof (const_suffix _ _ _ Hb Hs) as Hb'.
    destruct (decide (f' = esc_root)) as [->|Hd].
    + eapply ends_mono; [apply IH; [done | done | simpl in *; lia]|]. intros [[f2 fl2] w] (? & ? & ?). split_and!; [done | done | by eapply cleared_trans].
    + destruct Hr as [->|Hr]; [|done]. destruct fuel; by apply ends_ret.
  - intros (Hv & Pv & Hs & Hn). destruct c1 as [|d1 r]; [done|]. pose proof (const_suffix _ _ _ Hb Hs) as Hb'.
    pose proof (shortcut_keeps d1 v) as KS. eapply ends_mono; [apply IH|].
    + by inversion Hb'.
    + by eapply keeps_sane.
    + apply suffix_length in Hs. simpl in *. lia.
    + intros [[f2 fl2] w] (? & ? & Pw). split_and!; [done | done |].
      eapply cleared_trans; [exact Pv|]. eapply cleared_trans; [by apply keeps_cleared | exact Pw].
Qed.

(** The nested call of a repetition. *)
Lemma VSem_nested_repeats : repeats VSem_nested.
Proof.
  intros n b vs HS Hf. unfold VSem_nested, VSem_with. cbv zeta. rewrite Hf.
  eapply (ends_seq _ _ (keeps vs)); [destruct (_ && _); [by apply capture_all_keeps | done]|]. intros v Kv.
  eapply ends_seq; [apply (run_const _ _ _ b); [by apply Forall_replicate | by eapply keeps_sane | rewrite length_replicate; lia]|].
  intros [[f fl] w] (Hf' & Hw & Pw). apply ends_ret. split.
  - eapply (keeps_sane (w <| escflg := f |>)); [kept_field | by apply escflg_sane].
  - eapply cleared_trans in Pw; [exact Pw | by apply keeps_cleared].
Qed.

Lemma VSem_ends c vs : sane vs -> ends (VSem c vs) sane.
Proof. apply VSem_with_sane, VSem_nested_repeats. Qed.

End Machine.

(** ** The properties *)

(** C11. The emulator comes to an end on every input: none of its loops, nor of
    the loops of the kernel it calls, runs forever, and the call [VSem] makes to
    itself for a repeated character does not nest further. (A run may still be
    cut short by an access out of bounds; a session with a multi-byte
    translation, where the converter of the system decides how many bytes it
    takes, is not covered.) *)
Theorem VSem_terminates `{Memory} `{TextEncodings} `{Toolbox} (c : bytes) (vs : VSscrn) :
  sane (lines vs) vs -> VSem c vs <> Crash Hang.
Proof. intros HS. by eapply ends_hang, VSem_ends. Qed.

(** C10. What the emulator leaves is a terminal in order, whatever the host
    sends and in whatever state of an escape sequence it was. For every run that
    completes: the cursor's column is from 0 to 256, one past the last column of
    an allocated line at most; its row is not below the last line, though a
    reverse index above the scrolling region may have taken it above the screen
    ([rindex_leaves_screen]); the scrolling region has at least two lines and
    lies on the screen; the array of the parameters keeps its sixteen entries,
    each at most 32767, while the index of the next one is not bounded by
    anything ([parameters_overrun]); the machine is in one of its thirteen
    states; and where the translation of the session was between tables of
    bytes it still is, with no character pending. *)
Theorem VSem_keeps_sane `{Memory} `{TextEncodings} `{Toolbox} (c : bytes) (vs vs' : VSscrn) :
  sane (lines vs) vs -> VSem c vs = Done vs' -> sane (lines vs) vs'.
Proof. intros HS. by apply ends_Done, VSem_ends. Qed.

(** A system that answers 0 to everything. *)
#[export] Instance quiet : Toolbox := {| answer := fun _ _ => 0; debug := false; CursorType := 0 |}.

(** The screen of [Kernel] with 80 columns in memory for 256. *)
Definition terminal_heap : heap := match VSInewlines 255 5 empty_heap with Done (_, h) => h | _ => empty_heap end.
Definition terminal_demo : VSscrn :=
  demo <| store := terminal_heap |> <| allwidth := 255 |> <| maxwidth := 79 |> <| Rright := 79 |> <| parms := replicate maxparms (-1) |>
       <| y := 0 |> <| x := 0 |> <| DECAWM := 1 |>.

Lemma terminal_demo_sane : sane (lines terminal_demo) terminal_demo.
Proof. split; try done. split; [done | by apply Forall_replicate]. Qed.

(** Text that wraps, a scrolling region, a repetition and a palette. *)
Definition session_text : bytes :=
  bytes_of_string "login: " ++ [27] ++ bytes_of_string "[2;3r" ++ [27] ++ bytes_of_string "[3;79HABCD" ++ [27] ++ bytes_of_string "[300b".

Lemma VSem_terminates_witness : sane (lines terminal_demo) terminal_demo /\ VSem session_text terminal_demo <> Crash Hang.
Proof. split; [exact terminal_demo_sane | exact (VSem_terminates session_text terminal_demo terminal_demo_sane)]. Defined.

Lemma VSem_keeps_sane_witness : exists vs', VSem session_text terminal_demo = Done vs' /\ sane (lines terminal_demo) vs'.
Proof.
  assert (E : exists vs', VSem session_text terminal_demo = Done vs').
  { destruct (VSem session_text terminal_demo) as [vs'| |c] eqn:E; [by eexists | exfalso | exfalso]; revert E; vm_compute; discriminate. }
  destruct E as [vs' E]. exists vs'. split; [exact E | exact (VSem_keeps_sane session_text terminal_demo vs' terminal_demo_sane E)].
Defined.

End Machine.
