(* ===== verification/Text.v ===== *)
(** What a run of text does to the screen: on the abstract terminal of [Kernel]
    the characters, translated, replace those of the current row from the
    cursor on, with the current attributes, and nothing else changes. *)
From S2P Require Import Prelude Window Translate Lines Screen Rows Scrollback Kernel View Emulator Frame Machine.
Import Translate Lines Screen Rows Scrollback Kernel View Emulator Frame Machine.

Module Text.

(** ** Rows *)

(** [s] over the elements of [t] from [i] on. *)
Definition overwrite (i : Z) (s t : bytes) : bytes := take (Z.to_nat i) t ++ s ++ drop (Z.to_nat (i + zlen s)) t.

Definition write_row (i : Z) (s : bytes) (a : Z) (r : row) : row :=
  let '(la, t, at_) := r in (la, overwrite i s t, overwrite i (replicate (length s) a) at_).

Lemma overwrite_nil i t : overwrite i [] t = t.
Proof. unfold overwrite. cbn [app]. rewrite zlen_nil, Z.add_0_r. apply take_drop. Qed.

Lemma overwrite_one i b t : 0 <= i < zlen t -> overwrite i [b] t = <[Z.to_nat i := b]> t.
Proof.
  intros Hi. unfold overwrite, zlen in *. rewrite insert_take_drop by lia. cbn [length app]. do 3 f_equal. lia.
Qed.

Lemma overwrite_cons i b s t : 0 <= i -> i + zlen (b :: s) <= zlen t ->
  overwrite (i + 1) s (overwrite i [b] t) = overwrite i (b :: s) t.
Proof.
  intros Hi Hl. rewrite zlen_cons in Hl. pose proof (zlen_nonneg s). rewrite overwrite_one by lia. unfold overwrite.
  replace (Z.to_nat (i + 1)) with (S (Z.to_nat i)) by lia. rewrite take_insert_snoc by (unfold zlen in *; lia).
  rewrite <- app_assoc. cbn [app]. do 3 f_equal. rewrite drop_insert_lt by lia. f_equal. rewrite zlen_cons. lia.
Qed.

Lemma zlen_overwrite i s t : 0 <= i -> i + zlen s <= zlen t -> zlen (overwrite i s t) = zlen t.
Proof. intros Hi Hl. unfold overwrite, zlen in *. rewrite !length_app, length_take, length_drop. lia. Qed.

Lemma write_row_cons i b s a w r : 0 <= i -> i + zlen (b :: s) <= w -> zlen r.1.2 = w -> zlen r.2 = w ->
  write_row (i + 1) s a (write_row i [b] a r) = write_row i (b :: s) a r.
Proof.
  destruct r as [[la t] at_]. cbn [fst snd write_row length replicate]. intros Hi Hl Ht Ha. rewrite overwrite_cons by lia.
  f_equal. apply overwrite_cons; [done|]. rewrite zlen_cons in *. rewrite zlen_replicate. unfold zlen in *. lia.
Qed.

(** ** One line *)

(** The fields the text does not touch. *)
Definition rest (vs : VSscrn) :=
  (linest vs, scrntop vs, buftop vs, vistop vs, (lines vs, numlines vs, allwidth vs, maxwidth vs, savelines vs, top vs, bottom vs),
   y vs, (Rtop vs, Rbottom vs, Rleft vs, Rright vs), (IRM vs, attrib vs, lattrib vs, DECAWM vs, vtemulation vs, vteightbits vs),
   prredirect vs, captureRN vs, (session vs, trincount vs, trinx vs), possibleForce vs).

(** The characters [s] were written on the line [p] from column [i] on. *)
Record wrote (p i : Z) (s : bytes) (a : Z) (vs vs' : VSscrn) : Prop := {
  wr_links : same_links (store vs) (store vs');
  wr_row : forall q, ct (store vs') q = if decide (q = p) then write_row i s a <$> ct (store vs) q else ct (store vs) q;
  wr_rest : rest vs' = rest vs
}.

Lemma write_row_nil i a r : write_row i [] a r = r.
Proof. destruct r as [[la t] at_]. cbn. by rewrite !overwrite_nil. Qed.

Lemma wrote_nil p i a vs : wrote p i [] a vs vs.
Proof.
  split; [apply same_links_refl | | done]. intros q. destruct (decide _) as [_|_]; [|done]. destruct (ct _ q) as [r|]; [|done].
  cbn. by rewrite write_row_nil.
Qed.

Lemma wrote_sized p i s a w vs vs' q : 0 <= i -> i + zlen s <= w -> wrote p i s a vs vs' -> sized w (store vs) q -> sized w (store vs') q.
Proof.
  intros Hi Hl [_ HR _] (la & t & at_ & E & Ht & Ha). unfold sized. rewrite HR. destruct (decide (q = p)) as [->|]; rewrite E; [|by exists la, t, at_].
  cbn. do 3 eexists. split; [reflexivity|]. rewrite !zlen_overwrite by (rewrite ?zlen_replicate; unfold zlen in *; lia). done.
Qed.

Lemma wrote_cons p i b s a w vs v1 vs' : 0 <= i -> i + zlen (b :: s) <= w -> sized w (store vs) p ->
  wrote p i [b] a vs v1 -> wrote p (i + 1) s a v1 vs' -> wrote p i (b :: s) a vs vs'.
Proof.
  intros Hi Hl (la & t & at_ & E & Ht & Ha) [L1 R1 F1] [L2 R2 F2]. split; [by eapply same_links_trans | | congruence].
  intros q. rewrite R2, R1. destruct (decide (q = p)) as [->|]; [|done]. rewrite E. cbn [fmap option_fmap option_map].
  f_equal. by apply (write_row_cons i b s a w (la, t, at_)).
Qed.

(** Fields that are not in [rest]. *)
Lemma wrote_setter p i s a vs v v' : wrote p i s a vs v -> store v' = store v -> rest v' = rest v -> wrote p i s a vs v'.
Proof. intros [H1 H2 H3] E1 E2. split; rewrite ?E1; try done. congruence. Qed.
Lemma wrote_before p i s a vs v v' : wrote p i s a v v' -> store v = store vs -> rest v = rest vs -> wrote p i s a vs v'.
Proof. intros [H1 H2 H3] E1 E2. split; rewrite <- ?E1; try done. congruence. Qed.

Section Text.
Context `{MM : Memory} `{TE : TextEncodings} `{TB : Toolbox}.

Lemma edit_ok p f g vs la t r t' r' : ct (store vs) p = Some (la, t, r) -> f t = Done t' -> g r = Done r' ->
  exists h', edit_line p f g vs = Done (vs <| store := h' |>) /\ same_links (store vs) h'
  /\ forall q, ct h' q = if decide (q = p) then Some (la, t', r') else ct (store vs) q.
Proof.
  intros Hc Hf Hg. destruct (ct_cell _ _ _ _ _ Hc) as (l & Hl & <- & <- & <-). unfold edit_line, load. rewrite Hl, Done_bind, Hf, Done_bind, Hg, Done_bind.
  destruct (modify_content p (fun l => l <| text := t' |> <| attr := r' |>) (store vs) l Hl) as (h' & E & S & C); [done..|].
  rewrite E, Done_bind. exists h'. split; [done|]. split; [done|]. intros q. rewrite C. by destruct (decide (q = p)).
Qed.

Lemma put_ok p i b a w vs : sized w (store vs) p -> 0 <= i < w ->
  exists h', put p i b a vs = Done (vs <| store := h' |>) /\ wrote p i [b] a vs (vs <| store := h' |>).
Proof.
  intros (la & t & r & E & Ht & Hr) Hi.
  destruct (edit_ok p (arr_set i b) (arr_set i a) vs la t r (<[Z.to_nat i := b]> t) (<[Z.to_nat i := a]> r) E) as (h' & E' & S & C);
    [by apply arr_set_Done; lia .. |].
  exists h'. split; [exact E'|]. split; [exact S | | done]. intros q. change (store (vs <| store := h' |>)) with h'. rewrite C.
  destruct (decide (q = p)) as [->|]; [|done]. rewrite E. cbn. by rewrite !overwrite_one by lia.
Qed.

Lemma put_attr_over p i c tag a w vs v : sized w (store vs) p -> 0 <= i < w -> wrote p i [c] tag vs v ->
  exists h', put_attr p i a v = Done (v <| store := h' |>) /\ wrote p i [c] a vs (v <| store := h' |>).
Proof.
  intros (la & t & r & E & Ht & Hr) Hi [L R F]. pose proof (R p) as Rp. rewrite decide_True, E in Rp by done. cbn in Rp.
  rewrite !overwrite_one in Rp by lia.
  destruct (edit_ok p Done (arr_set i a) v la _ _ (<[Z.to_nat i := c]> t) (<[Z.to_nat i := a]> (<[Z.to_nat i := tag]> r)) Rp) as (h' & E' & S & C);
    [done | apply arr_set_Done; rewrite zlen_insert; lia |].
  exists h'. split; [exact E'|]. split; [by eapply same_links_trans | | exact F]. intros q. change (store (v <| store := h' |>)) with h'.
  rewrite C. destruct (decide (q = p)) as [->|Hq]; [|by rewrite R, decide_False]. rewrite E. cbn. rewrite !overwrite_one by lia.
  by rewrite list_insert_insert_eq.
Qed.

Lemma attr_at_ok p i w vs : sized w (store vs) p -> 0 <= i < w -> exists v, attr_at p i vs = Done v.
Proof.
  intros (la & t & r & E & Ht & Hr) Hi. destruct (ct_cell _ _ _ _ _ E) as (l & Hl & <- & <- & <-). unfold attr_at, load. rewrite Hl, Done_bind.
  unfold arr_get. rewrite (proj2 (Z.leb_le 0 i)) by lia. destruct (lookup_lt_is_Some_2 (attr l) (Z.to_nat i)) as [v Hv]; [unfold zlen in *; lia|].
  rewrite Hv. by exists v.
Qed.
Lemma text_at_ok p i w vs : sized w (store vs) p -> 0 <= i < w -> exists v, text_at p i vs = Done v.
Proof.
  intros (la & t & r & E & Ht & Hr) Hi. destruct (ct_cell _ _ _ _ _ E) as (l & Hl & <- & <- & <-). unfold text_at, load. rewrite Hl, Done_bind.
  unfold arr_get. rewrite (proj2 (Z.leb_le 0 i)) by lia. destruct (lookup_lt_is_Some_2 (text l) (Z.to_nat i)) as [v Hv]; [unfold zlen in *; lia|].
  rewrite Hv. by exists v.
Qed.

(** The cursor and the pen after a character. *)
Definition moved (mw : Z) (p : pen) (vs : VSscrn) (p' : pen) (vs' : VSscrn) : Prop :=
  pline p' = pline p
  /\ if x vs <? mw then x vs' = x vs + 1 /\ offend p' = false /\ current p' = x vs'
     else x vs' = (if nz (DECAWM vs) then x vs + 1 else mw) /\ (nz (DECAWM vs) = false -> offend p' = false /\ current p' = x vs).

Lemma advance_moved mw p vs v : x v = x vs -> DECAWM v = DECAWM vs -> current p = x vs -> offend p = false ->
  moved mw p vs (advance mw p v).1 (advance mw p v).2 /\ rest (advance mw p v).2 = rest v /\ store (advance mw p v).2 = store v.
Proof.
  intros Ex Ed Hc Ho. unfold advance, moved. rewrite Ex, Ed. destruct (_ <? _).
  - cbn. by rewrite Hc.
  - by destruct (nz _).
Qed.

(** A character as the session translates it. *)
Definition translate_char (vs : VSscrn) (b : Z) : Z :=
  match session vs with
  | Some tw => match ReturnTablePtr (innational tw) false with Some t => t b | None => b end
  | None => b
  end.

Lemma rest_plain vs vs' : rest vs' = rest vs -> plain vs -> plain vs'.
Proof.
  unfold rest, plain. intros E. assert (E1 : session vs' = session vs) by congruence. assert (E2 : trincount vs' = trincount vs) by congruence.
  assert (E3 : trinx vs' = trinx vs) by congruence. by rewrite E1, E2, E3.
Qed.

Lemma multibyte_plain vs : plain vs -> multibyte vs = false.
Proof.
  unfold plain, multibyte. destruct (session vs) as [tw|]; [|done]. intros (Hi & _). unfold GetTranslationIndex.
  rewrite (proj2 (Z.ltb_ge gTableCount _)) by lia. apply Z.ltb_ge. lia.
Qed.

Lemma put_translated_ok mw a c tag e p w vs : plain vs -> trinx vs = 0 -> trincount vs = 0 -> sized w (store vs) (pline p) -> current p = x vs ->
  0 <= x vs < w -> offend p = false ->
  exists p' vs', put_translated mw a false [c] tag e p vs = Done (p', vs') /\ wrote (pline p) (x vs) [c] a vs vs'
  /\ moved mw p vs p' vs' /\ trinbuf vs' = trinbuf vs.
Proof.
  intros Hp Hx Ht HZ Hc Hi Ho. unfold put_translated. rewrite Done_bind. cbv zeta. rewrite Hx, Hc, Z.sub_0_r. cbn [put_all].
  change (zlen [c]) with 1. replace (x vs + 1 - 1) with (x vs) by lia.
  destruct (put_ok (pline p) (x vs) c tag w vs HZ Hi) as (h1 & -> & W1). rewrite !Done_bind. set (v1 := vs <| store := h1 |>) in *.
  assert (Z1 : forall v, wrote (pline p) (x vs) [c] tag vs v \/ wrote (pline p) (x vs) [c] a vs v -> sized w (store v) (pline p)).
  { intros v [W|W]; (eapply wrote_sized; [| | exact W | exact HZ]; [lia | change (zlen [c]) with 1; lia]). }
  destruct (text_at_ok (pline p) (x vs) w v1) as [b Hb]; [by apply Z1; left | done |]. rewrite Hb, Done_bind.
  set (v2 := v1 <| lastchar := b |>). rewrite (multibyte_plain v2 Hp), !andb_false_r.
  assert (W2 : wrote (pline p) (x vs) [c] tag vs v2) by by eapply wrote_setter.
  destruct (put_attr_over _ _ _ _ a _ _ _ HZ Hi W2) as (h3 & E3 & W3). rewrite E3, !Done_bind.
  set (v3 := v2 <| store := h3 |> <| trintag := 0 |>).
  assert (W3' : wrote (pline p) (x vs) [c] a vs v3) by by eapply wrote_setter.
  assert (Eb : exists before, (if (x v3 =? sx p) && (0 <? sx p) then attr_at (pline p) (x vs - 1) v3 else Done 0) = Done before).
  { destruct (_ && _) eqn:EE; [|by eexists]. apply andb_true_iff in EE as [EE1 EE2]. change (x v3) with (x vs) in EE1.
    apply (attr_at_ok (pline p) (x vs - 1) w v3); [by apply Z1; right | lia]. }
  destruct Eb as [before ->]. rewrite Done_bind.
  assert (E4 : exists p4 v4, (if nz (Z.land before kVSansi2b) then
      vs0 ← put_attr (pline p) (x vs) a v3; Done (Pen (pline p) (x vs) (start p - 1) (sx p - 1) e (offend p), vs0 <| trintag := 0 |>)
    else Done (Pen (pline p) (x vs) (start p) (sx p) e (offend p), v3)) = Done (p4, v4)
    /\ wrote (pline p) (x vs) [c] a vs v4 /\ pline p4 = pline p /\ current p4 = x vs /\ offend p4 = false /\ x v4 = x vs /\ trinbuf v4 = trinbuf vs).
  { destruct (nz _); [|do 2 eexists; split_and!; [reflexivity | done..]].
    destruct (put_attr_over _ _ _ _ a _ _ _ HZ Hi W3') as (h4 & E4 & W4). rewrite E4, Done_bind. do 2 eexists.
    split_and!; [reflexivity | by eapply wrote_setter | done..]. }
  destruct E4 as (p4 & v4 & -> & W4 & P1 & P2 & P3 & X4 & T4). rewrite Done_bind. cbn beta iota.
  destruct (attr_at_ok (pline p4) (x vs) w v4) as [here Hh]; [rewrite P1; by apply Z1; right | done |]. rewrite Hh, Done_bind.
  set (p5 := if nz (Z.land here kVSansi2b) then _ else p4).
  assert (P5 : pline p5 = pline p /\ current p5 = x vs /\ offend p5 = false) by (subst p5; by destruct (nz _)).
  clearbody p5. destruct P5 as (P5a & P5b & P5c). set (v5 := v4 <| trinx := 0 |> <| trincount := 0 |>).
  assert (R4 : rest v4 = rest vs) by apply W4.
  assert (W5 : wrote (pline p) (x vs) [c] a vs v5).
  { eapply wrote_setter; [exact W4 | done |]. assert (trincount v4 = 0) as E5 by (unfold rest in R4; congruence).
    assert (trinx v4 = 0) as E6 by (unfold rest in R4; congruence). unfold v5, rest. cbn. by rewrite E5, E6. }
  assert (D4 : DECAWM v5 = DECAWM vs) by (change (DECAWM v5) with (DECAWM v4); unfold rest in R4; congruence).
  destruct (advance_moved mw p5 vs v5 X4 D4 P5b P5c) as (M & RR & SS).
  assert (TT : trinbuf (advance mw p5 v5).2 = trinbuf v5) by (unfold advance; destruct (_ <? _); [|destruct (nz _)]; done).
  destruct (advance mw p5 v5) as [p' v'] eqn:EA. cbn [fst snd] in *. exists p', v'. split; [reflexivity|]. split; [by eapply wrote_setter|].
  split; [|by rewrite TT]. destruct M as [M1 M2]. split; [congruence | exact M2].
Qed.

Lemma put_char_ok mw a b p w vs : plain vs -> trinbuf vs <> [] -> sized w (store vs) (pline p) -> current p = x vs -> 0 <= x vs < w ->
  x vs <= mw -> offend p = false ->
  exists p' vs', put_char mw a false b p vs = Done (true, p', vs') /\ wrote (pline p) (x vs) [translate_char vs b] a vs vs'
  /\ moved mw p vs p' vs' /\ trinbuf vs' <> [].
Proof.
  intros Hp Hb HZ Hc Hi Hm Ho. unfold put_char, translate_char. destruct (session vs) as [tw|] eqn:E.
  - pose proof Hp as Hp'. unfold plain in Hp'. rewrite E in Hp'. destruct Hp' as (Ht & Hout & Hn & Hx).
    destruct (trinbuf vs) as [|b0 r] eqn:Eb; [done|]. unfold put_session. rewrite Hn, Eb. change (0 + 1) with 1.
    rewrite arr_set_Done by (rewrite zlen_cons; pose proof (zlen_nonneg r); lia). rewrite Done_bind. change (<[Z.to_nat 0:=b]> (b0 :: r)) with (b :: r).
    change (take (Z.to_nat 1) (b :: r)) with [b]. rewrite (trbuf_tables _ _ _ Ht). cbv zeta. change (nz 0 && _) with false. cbv iota.
    change (zlen [b]) with 1. set (c := match ReturnTablePtr (innational tw) false with Some t => t b | None => b end).
    replace (by_table (ReturnTablePtr (innational tw) false) [b]) with [c] by (unfold by_table, c; by destruct (ReturnTablePtr _ _)).
    match goal with |- context [put_translated mw a false [c] _ 0 p ?u] => set (v := u) end.
    assert (Rv : rest v = rest vs) by (unfold v, rest; cbn; by rewrite E, Hn).
    destruct (put_translated_ok mw a c (Z.lor a kVSansi2b) 0 p w v) as (p' & vs' & -> & W & M & T); try done.
    rewrite Done_bind. exists p', vs'. split_and!; [done | by eapply wrote_before | exact M | by rewrite T].
  - unfold put_plain. cbv iota. rewrite Done_bind.
    set (v0 := vs <| lastchar := b |>). assert (HZ0 : sized w (store v0) (pline p)) by exact HZ.
    destruct (put_ok (pline p) (x vs) b a w v0 HZ0 Hi) as (h' & E' & W). rewrite Hc, E', !Done_bind.
    set (v := v0 <| store := h' |>) in *.
    assert (W' : wrote (pline p) (x vs) [b] a vs v) by by eapply wrote_before.
    destruct (advance_moved mw p vs v) as (M & RR & SS); try done.
    assert (TT : trinbuf (advance mw p v).2 = trinbuf v) by (unfold advance; destruct (_ <? _); [|destruct (nz _)]; done).
    destruct (advance mw p v) as [p' v'] eqn:EA. cbn [fst snd] in *.
    exists p', v'. split_and!; [done | by eapply wrote_setter | exact M | by rewrite TT].
Qed.

(** A run of characters that fits on the line. *)
Definition cursor_after (mw : Z) (n : Z) (vs : VSscrn) : Z := if nz (DECAWM vs) then x vs + n else Z.min (x vs + n) mw.

Lemma is_text_rest b vs vs' : rest vs' = rest vs -> is_text false b vs' = is_text false b vs.
Proof.
  unfold rest, is_text, eight_bit. intros E. assert (E1 : vtemulation vs' = vtemulation vs) by congruence.
  assert (E2 : vteightbits vs' = vteightbits vs) by congruence. by rewrite E1, E2.
Qed.

Lemma translate_rest b vs vs' : rest vs' = rest vs -> translate_char vs' b = translate_char vs b.
Proof. unfold rest, translate_char. intros E. assert (E1 : session vs' = session vs) by congruence. by rewrite E1. Qed.

Lemma write_line_ok mw a w s : forall p vs, plain vs -> trinbuf vs <> [] -> sized w (store vs) (pline p) -> current p = x vs -> 0 <= x vs ->
  x vs + zlen s <= mw + 1 -> mw < w -> offend p = false -> Forall (fun b => is_text false b vs = true) s -> s <> [] ->
  exists p' vs', write_line mw a false false s p vs = Done ([], p', vs')
  /\ wrote (pline p) (x vs) (translate_char vs <$> s) a vs vs' /\ pline p' = pline p /\ x vs' = cursor_after mw (zlen s) vs.
Proof.
  induction s as [|b s IH]; intros p vs Hp Hb HZ Hc Hx Hl Hw Ho Hs Hne; [done|]. clear Hne.
  inversion Hs as [|? ? Hb1 Hs1]; subst. cbn [write_line]. rewrite Hb1, Ho. cbn [andb negb]. rewrite zlen_cons in Hl. pose proof (zlen_nonneg s).
  destruct (put_char_ok mw a b p w vs Hp Hb HZ Hc) as (p1 & v1 & -> & W1 & [L1 M1] & T1); [lia | lia | done |]. rewrite Done_bind.
  pose proof (wr_rest _ _ _ _ _ _ W1) as R1. assert (D1 : DECAWM v1 = DECAWM vs) by (unfold rest in R1; congruence).
  destruct s as [|b2 s].
  - exists p1, v1. split_and!; [done | exact W1 | done |]. unfold cursor_after. change (zlen [b]) with 1.
    destruct (x vs <? mw) eqn:E; [destruct M1 as [-> _]; case_match; lia | destruct M1 as [-> _]; case_match; lia].
  - rewrite zlen_cons in Hl. rewrite (proj2 (Z.ltb_lt (x vs) mw)) in M1 by (pose proof (zlen_nonneg s); lia). destruct M1 as (X1 & O1 & C1).
    destruct (IH p1 v1) as (p2 & v2 & E2 & W2 & L2 & X2); try done.
    + by eapply rest_plain.
    + rewrite L1. eapply wrote_sized; [| | exact W1 | exact HZ]; [done | rewrite zlen_cons, zlen_nil; pose proof (zlen_nonneg s); lia].
    + lia.
    + rewrite zlen_cons. lia.
    + eapply Forall_impl; [exact Hs1|]. intros c Hcc. by rewrite (is_text_rest _ _ _ R1).
    + exists p2, v2. split; [exact E2|]. split; [|split; [congruence|]].
      * rewrite fmap_cons. eapply (wrote_cons _ _ _ _ _ w); [lia | | exact HZ | exact W1 |].
        -- rewrite zlen_cons, zlen_fmap, zlen_cons. lia.
        -- rewrite L1, X1 in W2. replace (translate_char vs <$> b2 :: s) with (translate_char v1 <$> b2 :: s); [exact W2|].
           apply list_fmap_ext. intros; by apply translate_rest.
      * rewrite X2. unfold cursor_after. rewrite D1, X1, !zlen_cons. case_match; lia.
Qed.

(** ** The emulator *)

Lemma show_text_ok insert p vs w : sized w (store vs) (pline p) -> captureRN vs = 0 ->
  exists d, show_text insert false p vs = Done (vs <| drawn := d |>).
Proof.
  intros (la & t & r & E & _) Hc. destruct (ct_cell _ _ _ _ _ E) as (l & Hl & _). unfold show_text, load. rewrite Hl, Done_bind.
  assert (HV : forall s v, captureRN v = 0 -> VScapture s v = Done v) by (intros s v Hv; unfold VScapture; by rewrite Hv).
  destruct insert; [rewrite HV by exact Hc; by eexists|]. unfold VSIdraw, draw_clipped.
  destruct (VSIclip _ _) as [[] c]; rewrite HV by exact Hc; [exists (drawn vs); by destruct vs | by eexists].
Qed.

Lemma text_rounds_ok n mw s w p0 vs : plain vs -> trinbuf vs <> [] -> line_at (y vs) vs = Done p0 -> sized w (store vs) p0 ->
  0 <= x vs -> x vs + zlen s <= mw + 1 -> mw < w -> Forall (fun b => is_text false b vs = true) s -> s <> [] -> IRM vs = 0 -> captureRN vs = 0 ->
  exists vs', text_rounds (S n) mw false false s vs = Done ([], vs')
  /\ wrote p0 (x vs) (translate_char vs <$> s) (attrib vs) vs vs' /\ x vs' = cursor_after mw (zlen s) vs.
Proof.
  intros Hp Hb Hl HZ Hx Hm Hw Hs Hne Hi Hc. destruct s as [|b s]; [done|]. cbn [text_rounds]. inversion Hs as [|? ? Hb1 _]; subst. rewrite Hb1.
  rewrite zlen_cons in Hm. pose proof (zlen_nonneg s). unfold start_text. rewrite (proj2 (Z.ltb_ge mw (x vs))) by lia.
  rewrite Done_bind, Hl, !Done_bind, Hi. change (nz 0) with false.
  destruct (write_line_ok mw (attrib vs) w (b :: s) (Pen p0 (x vs) (x vs) (x vs) 0 false) vs) as (p' & v1 & -> & W & L & X); try done.
  { rewrite zlen_cons. lia. }
  rewrite Done_bind. cbn beta iota. cbn [pline] in *.
  assert (R1 : rest v1 = rest vs) by apply W. assert (C1 : captureRN v1 = 0) by (unfold rest in R1; congruence).
  assert (Z1 : sized w (store v1) (pline p')).
  { rewrite L. eapply wrote_sized; [exact Hx | | exact W | exact HZ]. rewrite zlen_fmap, zlen_cons. lia. }
  destruct (show_text_ok false p' v1 w Z1 C1) as [d ->]. rewrite Done_bind. exists (v1 <| drawn := d |>).
  split; [by destruct n|]. split; [by eapply wrote_setter | exact X].
Qed.

Lemma is_text_ground s vs : Forall (fun b => is_text false b vs = true) s -> s <> [] ->
  exists b r, s = b :: r /\ 32 <= b /\ eight_bit b vs = false.
Proof.
  intros Hs Hne. destruct s as [|b r]; [done|]. exists b, r. split; [done|]. inversion Hs as [|? ? Hb _]; subst. unfold is_text in Hb.
  rewrite orb_false_r in Hb. apply andb_true_iff in Hb as [H1 H2]. apply negb_true_iff in H2. split; [lia | done].
Qed.

Lemma and_then_Falls f fl c v k : and_then (Done (Falls f fl c v)) k = k f fl c v.
Proof. done. Qed.

Lemma run_cons emulate captured buf n f fl b c vs : run emulate captured buf (S n) f fl (b :: c) vs =
  (r ← iteration emulate captured buf f fl (b :: c) vs;
   match r with
   | Falls f fl c vs => run emulate captured buf n f fl c vs
   | Cuts (b :: c) vs => run emulate captured buf n esc_root 0 c (shortcut b vs)
   | Cuts [] vs => Crash OutOfBounds
   end).
Proof. done. Qed.

(** A run of text in the ground state is one round of the machine. *)
Lemma VSem_run s w p0 vs : plain vs -> trinbuf vs <> [] -> line_at (y vs) vs = Done p0 -> sized w (store vs) p0 ->
  0 <= x vs -> x vs + zlen s <= margin vs + 1 -> margin vs < w -> Forall (fun b => is_text false b vs = true) s -> s <> [] ->
  IRM vs = 0 -> captureRN vs = 0 -> escflg vs = esc_root -> prredirect vs = 0 ->
  exists vs', VSem s vs = Done vs' /\ wrote p0 (x vs) (translate_char vs <$> s) (attrib vs) vs vs'
  /\ x vs' = cursor_after (margin vs) (zlen s) vs.
Proof.
  intros Hp Hb Hl HZ Hx Hm Hw Hs Hne Hi Hc Hf Hpr. destruct (is_text_ground s vs Hs Hne) as (b & r & -> & Hb32 & H8).
  destruct (text_rounds_ok (length r) (margin vs) (b :: r) w p0 vs) as (v1 & E & W & X); try done.
  assert (EI : iteration VSem_nested false (b :: r) esc_root (escflags vs) (b :: r) vs = Done (Falls esc_root (escflags vs) [] v1)).
  { unfold iteration. rewrite Hpr. change (nz 0) with false. cbv iota. rewrite Done_bind. cbv zeta. change (esc_root =? esc_root) with true.
    cbv iota. cbn [controls]. rewrite (proj2 (Z.ltb_ge b 32)) by lia. rewrite Done_bind. cbv zeta. unfold c1_block. rewrite H8, andb_false_r.
    rewrite !and_then_Falls. unfold texts. change (esc_root =? esc_root) with true. cbv iota. change (length (b :: r)) with (S (length r)).
    rewrite E, Done_bind, and_then_Falls.
    by destruct (escapes_const VSem_nested (margin vs) (b :: r) 0 esc_root (escflags vs) [] v1) as [[-> _]|[_ HH]]; [left | | |]. }
  unfold VSem, VSem_with. rewrite Hf, Hc. change (nz 0) with false. rewrite andb_false_r, Done_bind. rewrite run_cons, EI, Done_bind.
  eexists. split; [by destruct (length (b :: r))|]. split; [by eapply wrote_setter | exact X].
Qed.

Lemma wrote_wf circ pre post p i s a vs vs' : wf circ pre post vs -> p ∈ linest vs -> 0 <= i -> i + zlen s <= allwidth vs + 1 ->
  wrote p i s a vs vs' -> wf circ pre post vs'.
Proof.
  intros [W1 W2 W3 W4 W5 W6] Hp Hi Hs W. pose proof W as [HL HR HF]. unfold rest in HF.
  assert (Hz : sized (allwidth vs + 1) (store vs') p).
  { eapply wrote_sized; [exact Hi | exact Hs | exact W|]. apply W1. rewrite !elem_of_app. auto. }
  assert (HS : stored circ pre post (vs <| store := store vs' |>)).
  { apply (stored_changed circ pre post vs (store vs) (store vs') p); [by rewrite store_id | done | | done].
    intros q Hq. by rewrite HR, decide_False. }
  assert (E1 : linest vs' = linest vs) by congruence. assert (E2 : lines vs' = lines vs) by congruence.
  assert (E3 : allwidth vs' = allwidth vs) by congruence. assert (E4 : scrntop vs' = scrntop vs) by congruence.
  assert (E5 : numlines vs' = numlines vs) by congruence. assert (E6 : Rtop vs' = Rtop vs) by congruence.
  assert (E7 : top vs' = top vs) by congruence. assert (E8 : bottom vs' = bottom vs) by congruence. assert (E9 : y vs' = y vs) by congruence.
  assert (E10 : savelines vs' = savelines vs) by congruence.
  split; rewrite ?E2, ?E6, ?E7, ?E8, ?E9, ?E10; try done.
  - by eapply stored_frame.
  - destruct W2 as [B1 B2 B3 B4 B5]. split; [congruence | congruence | lia | |].
    + replace (vistop vs') with (vistop vs) by congruence. by rewrite E1, E5, E6.
    + destruct HL as (_ & _ & HV & _ & HB & _). destruct B5 as [H1 H2]. split; [lia|]. intros q Hq. rewrite HB. apply H2. by apply HV.
Qed.

Lemma wrote_rows circ pre post p (j : nat) i s a vs vs' : wf circ pre post vs -> linest vs !! j = Some p -> wrote p i s a vs vs' ->
  abs pre vs' = Terminal (saved (abs pre vs)) (alter (fmap (write_row i s a)) j (grid (abs pre vs))).
Proof.
  intros [[(Hnd & _) _ _ _ _] _ _ _ _ _] Hj [HL HR HF]. assert (EL : linest vs' = linest vs) by (unfold rest in HF; congruence).
  apply NoDup_app in Hnd as (_ & Hout & Hnd). apply NoDup_app in Hnd as (Hnd & _ & _).
  unfold abs, rows. cbn [saved grid]. rewrite EL. f_equal.
  - apply list_fmap_ext. intros k q Hq. rewrite HR, decide_False; [done|]. intros ->.
    apply (Hout p); [by eapply list_elem_of_lookup_2|]. rewrite elem_of_app. left. by eapply list_elem_of_lookup_2.
  - apply list_eq. intros k. rewrite list_lookup_fmap. destruct (decide (k = j)) as [->|Hk].
    + rewrite list_lookup_alter_eq, list_lookup_fmap, Hj. cbn. by rewrite HR, decide_True.
    + rewrite list_lookup_alter_ne, list_lookup_fmap by done. destruct (linest vs !! k) as [q|] eqn:Eq; [|done]. cbn.
      rewrite HR, decide_False; [done|]. intros ->. apply Hk. by eapply NoDup_lookup.
Qed.

(** C12. Text in the ground state is written where the cursor is: on a
    well-formed screen a run of printable characters that fits on the rest of
    the line (up to the last column) is accepted whole; on the abstract terminal
    the characters, as the session's table translates them, replace those of the
    current row from the cursor on, with the current attributes, no other row
    and no saved row changes, and the screen is well-formed again. The cursor
    moves behind them; at the right margin it waits there for the wrap, or stays
    on the last column without DECAWM. *)
Theorem VSem_text circ pre post (s : bytes) (vs : VSscrn) :
  wf circ pre post vs -> plain vs -> trinbuf vs <> [] -> 1 <= maxwidth vs <= allwidth vs ->
  escflg vs = esc_root -> prredirect vs = 0 -> captureRN vs = 0 -> IRM vs = 0 ->
  s <> [] -> Forall (fun b => is_text false b vs = true) s -> 0 <= x vs -> x vs + zlen s <= margin vs + 1 ->
  exists vs', VSem s vs = Done vs' /\ wf circ pre post vs' /\ y vs' = y vs
  /\ x vs' = (if nz (DECAWM vs) then x vs + zlen s else Z.min (x vs + zlen s) (margin vs))
  /\ abs pre vs' = Terminal (saved (abs pre vs))
       (alter (fmap (write_row (x vs) (translate_char vs <$> s) (attrib vs))) (Z.to_nat (y vs)) (grid (abs pre vs))).
Proof.
  intros HW Hp Hb Hmw Hf Hpr Hc Hi Hne Hs Hx Hm. pose proof (wf_stored _ _ _ _ HW) as [_ Hsz Hlen _ _]. pose proof (wf_cursor _ _ _ _ HW) as Hy.
  pose proof (margin_width vs ltac:(lia)) as HM.
  destruct (lookup_lt_is_Some_2 (linest vs) (Z.to_nat (y vs))) as [p Hp0]; [unfold zlen in *; lia|].
  assert (Hin : p ∈ linest vs) by by eapply list_elem_of_lookup_2.
  assert (Hl : line_at (y vs) vs = Done p) by (rewrite <- (Z2Nat.id (y vs)) by lia; by apply line_at_ok).
  assert (HZ : sized (allwidth vs + 1) (store vs) p) by (apply Hsz; rewrite !elem_of_app; auto).
  destruct (VSem_run s (allwidth vs + 1) p vs) as (vs' & E & W & X); try done; [lia|].
  exists vs'. split; [exact E|]. split; [|split; [|split; [exact X|]]].
  - apply (wrote_wf circ pre post p (x vs) (translate_char vs <$> s) (attrib vs) vs); [done.. | rewrite zlen_fmap; lia | done].
  - pose proof (wr_rest _ _ _ _ _ _ W) as R. unfold rest in R. congruence.
  - by eapply wrote_rows.
Qed.

End Text.

(** The prompt of a login on the screen of [Machine]. *)
Lemma terminal_heap_ok : heap_ok terminal_heap.
Proof.
  split; [by vm_compute|]. intros p [l Hl].
  assert (HM : map_Forall (fun p (_ : VSline) => 0 < p /\ p < brk terminal_heap) (cells terminal_heap)).
  { apply (bool_decide_unpack _). vm_compute. exact I. }
  exact (HM p l Hl).
Qed.
Lemma terminal_chain : chain terminal_heap false [1; 2; 3; 4; 5].
Proof.
  split; [by apply (bool_decide_unpack _); vm_compute|]. split.
  - intros p Hp. repeat (apply elem_of_cons in Hp as [->|Hp]; [split; [done | by eexists; vm_compute]|]). by apply elem_of_nil in Hp.
  - cbn [around app links]. repeat split; intros; by vm_compute.
Qed.
Lemma terminal_wf : wf false [1] [5] terminal_demo.
Proof.
  split; [| | by vm_compute | by vm_compute | by right | done].
  - split; [exact terminal_chain | | done | done | by vm_compute].
    intros p Hp. repeat (apply elem_of_cons in Hp as [->|Hp]; [by do 3 eexists; split; [vm_compute; reflexivity|]|]). by apply elem_of_nil in Hp.
  - split; [done | done | by vm_compute | done | exact terminal_heap_ok].
Qed.

Lemma VSem_text_witness : exists vs', VSem (bytes_of_string "login: ") terminal_demo = Done vs' /\ wf false [1] [5] vs' /\ y vs' = y terminal_demo
  /\ x vs' = (if nz (DECAWM terminal_demo) then x terminal_demo + 7 else Z.min (x terminal_demo + 7) (margin terminal_demo))
  /\ abs [1] vs' = Terminal (saved (abs [1] terminal_demo))
       (alter (fmap (write_row (x terminal_demo) (translate_char terminal_demo <$> bytes_of_string "login: ") (attrib terminal_demo)))
          (Z.to_nat (y terminal_demo)) (grid (abs [1] terminal_demo))).
Proof.
  apply (VSem_text false [1] [5] (bytes_of_string "login: ") terminal_demo terminal_wf); try done; try by vm_compute.
  repeat constructor.
Defined.

End Text.
