(* ===== verification/Quirks.v ===== *)
(** Sequences on which the emulator does not do what it means to, each run on
    the terminal of [Machine] or on a session of it. *)
From S2P Require Import Prelude Window Translate Lines Screen Rows Scrollback Kernel View Emulator Frame Machine Text.
Import Translate Lines Screen Rows Scrollback Kernel View Emulator Frame Machine Text.

Module Quirks.

Definition esc (s : string) : bytes := ESC :: bytes_of_string s.

(** The first row, the cursor, and what was sent or drawn. *)
Definition row0 (n : nat) (vs : VSscrn) : outcome bytes :=
  p ← line_at 0 vs; l ← load p (store vs); Done (take n (text l)).
Definition after (c : bytes) (vs : VSscrn) : outcome (bytes * Z * Z) :=
  vs ← VSem c vs; r ← row0 8 vs; Done (r, x vs, y vs).

(** Sixteen separators and a digit: the parameters are written past the end of
    [parms]. *)
Example parameters_overrun : VSem (esc "[;;;;;;;;;;;;;;;;1") terminal_demo = Crash OutOfBounds.
Proof. by vm_compute. Qed.

(** 65537 is 1. *)
Example parameter_wraps : after (esc "[65537C") terminal_demo = after (esc "[1C") terminal_demo.
Proof. by vm_compute. Qed.

(** A foreground colour takes the brightness of the background with it. *)
Example foreground_dims_background :
  Z.land (rendition true 101 0) kVSansibg2 = kVSansibg2 /\ Z.land (rendition true 31 (rendition true 101 0)) kVSansibg2 = 0.
Proof. by vm_compute. Qed.

(** Erasing without a parameter erases nothing. *)
Example erase_nothing : after (bytes_of_string "AB" ++ esc "[D" ++ esc "[X") terminal_demo = Done ([65; 66; 0; 0; 0; 0; 0; 0], 1, 0).
Proof. by vm_compute. Qed.

(** After a control character that is shown the line end is shown too. *)
Example line_end_shown : after [16; 65; 13; 66] (terminal_demo <| vtemulation := 2 |>) = Done ([16; 65; 13; 66; 0; 0; 0; 0], 4, 0).
Proof. by vm_compute. Qed.

(** An xterm session. *)
Definition xterm_window : window :=
  {| innational := 0; incharset := 0; outnational := 0; outcharset := 0; fromconverter := None; toconverter := None; troutcount := 0;
     Xterm := 1; ANSIgraphics := 1; launchurlesc := 0 |}.
Definition xterm_demo : VSscrn := terminal_demo <| session := Some xterm_window |>.

(** The digits of a palette after the first come out as text, and the colour is
    never set. *)
Example palette_shown : after (esc "]P1112233") xterm_demo = Done (bytes_of_string "112233" ++ [0; 0], 6, 0).
Proof. by vm_compute. Qed.

(** An eight-bit OSC is not recognised. *)
Example osc_shown : after ([0x9d] ++ bytes_of_string "0;t" ++ [7]) xterm_demo = Done (bytes_of_string "0;t" ++ [0; 0; 0; 0; 0], 3, 0).
Proof. by vm_compute. Qed.

(** The end of a printer redirection that a chunk divides. *)
Example printer_end_divided :
  (vs ← VSem (esc "[5itext") xterm_demo; vs ← VSem (esc "[?4") vs; VSem (bytes_of_string "i") vs) = Crash OutOfBounds.
Proof. by vm_compute. Qed.

(** Capturing seven characters of which one is a control character: six are
    written, the last of which is whatever the buffer held. *)
Example capture_garbage : capture_loop [65; 66; 16; 67; 68; 69; 70] 0 7 = ([65; 66; 67; 68; 69], 6).
Proof. by vm_compute. Qed.

(** A converter that knows no second byte. *)
Definition refusing : TextEncodings := {|
  gTableCount := 0; transTable := fun _ b => b; DefaultTable := None; gLocalEncoding := None;
  TECCreateConverter := fun _ _ => true;
  TECConvertText := fun _ s _ => if zlen s =? 1 then (-8753, 0, []) else (-1, 0, []); kTECPartialCharErr := -8753
|}.

(** A character it refuses in the last column is written before the start of
    the next line. *)
Example refused_at_margin :
  VSem (TE := refusing) [0xb0; 0x41]
    (terminal_demo <| x := 79 |> <| session := Some (mkWindow 1 0 1 0 (Some (mkConverter ISO_2022_JP MacJapanese [])) None 0 0 0 0) |>)
  = Crash OutOfBounds.
Proof. by vm_compute. Qed.

(** A tab stop set while a wrap is pending on the widest line. *)
Example tab_stop_overrun :
  VSem (bytes_of_string "A" ++ esc "H") (terminal_demo <| maxwidth := 255 |> <| x := 255 |>) = Crash OutOfBounds.
Proof. by vm_compute. Qed.

End Quirks.
